(* ===== verification/_CoqProject ===== *)
-Q . S2P
Prelude.v
Bech32.v
Address.v
EvmWord.v
EvmAnalysis.v
EvmJumpdest.v
EvmState.v
EvmGas.v
EvmInstr.v
EvmArith.v
EvmTable.v
EvmRun.v
EvmSafe.v
EvmOps.v
EvmFlow.v
EvmCost.v
EvmSteps.v
EvmTotal.v
EvmFrame.v
EvmDemo.v
BftTypes.v
BftValidators.v
BftRound.v
BftCore.v
BftInv.v
BftPreserve.v
BftSafety.v
BftDemo.v
StateDb.v
Ovm.v
StateView.v
StateRevert.v
StateEvm.v
Bloom.v
TxTransition.v
TxProcess.v
SortSlice.v
JobQueue.v
TxLedger.v
TxSettle.v
TxChains.v
TxSafe.v
TxHandlers.v
TxUnit.v
TxMining.v
TxPack.v
TxCalls.v
TxDemo.v
GoSort.v
ScStore.v
ScSets.v
Signing.v
ScGroup.v
ScHeart.v
ScWitness.v
ScDuty.v
ScMembers.v
ScRegroup.v
ScJoin.v
ScChains.v
ScFrame.v
ScRegistry.v
ScProposal.v
ScVotes.v
ScSealed.v
ScTally.v
ScCampaign.v
ScSettle.v
ScFees.v
ScReport.v
ScJudge.v
ScTrial.v
DagStore.v
UnitValid.v
DagChain.v
DagSafe.v
DagUnbroken.v
DagAccept.v
TxPool.v
DagDemo.v
