(* ===== verification/Prelude.v ===== *)
(** * Nerthus: chains of units, consensus, transactions, machine, system contract

    Nerthus is a chain-per-account ledger written in Go.  Every account chain
    is extended by a committee of eleven witnesses, which agree on the next unit
    with a BFT protocol ([src/consensus/bft]); a unit that arrives is checked and
    stored, or removed again with all that refers to it ([src/core/dagchain.go]
    and its neighbours); the transactions of a unit run on a stack machine
    descended from go-ethereum's ([src/core/vm/evm]) over a journalled account
    state ([src/core/state]), in steps on the chains of the accounts they touch
    ([src/core]); a witness builds units from queues of such steps
    ([src/witness]), which come from the pool of transactions; who is a witness of
    which chain, what witnesses earn and what becomes of dishonest ones is kept by
    a contract in the account state of the system chain ([src/core/sc]).  This
    library models these parts operation by operation and proves what they
    promise.

    ** How the parts interact

    [core.Handle] receives the events of one chain (a request to propose, a
    message of another witness, a timeout) and answers with broadcasts and, in
    the end, [backend.Commit].  A proposal is built by [packTxs], which takes jobs
    off the chain's queue, and its transactions are executed by [Process] at the
    other witnesses; both call [ProcessTransaction], whose handlers enter the
    machine through [TransitionDb]: [EVM.Call] and [EVM.Create], whose
    [Interpreter.Run] works on the account state through the interface
    [vm.StateDB].  A unit with the votes of its committee reaches [InsertUnit] of
    every node, which asks the system contract's state for the committee
    ([GetChainWitnessLib]), executes the unit, compares and stores; the logs of a
    unit of the system chain change the committees, end arbitrations and remove
    units.  Two units of one height with votes are a proof of dishonesty, which
    the contract checks ([CheckProofWithState]) before it puts witnesses out.

    ** Which file models what

    A Go function [f] of a file named below is the definition [f], unless the name
    was taken.  Several files hold more than one module; the module is named where
    it is not the file's own.

    Shared
    - [Prelude]: fixed-width integers, byte strings as numbers, list lemmas.
    - [GoSort]: [sort.SliceStable] of Go's library, as an algorithm, because some
      of the comparison functions given to it are no orders.
    - [Signing]: [core/types/sign_helper.go], [vote.go], [rwit.go],
      [crypto/signature.go], [crypto.go].

    Addresses
    - [Bech32]: [common/bech32/bech32.go]; its module [BitGroups] proves what
      [ConvertBits] computes.
    - [Address]: [common/account.go], [types.go], and the parameters of the
      chain that are addresses.

    The machine
    - [EvmWord]: [common/math/big.go], [integer.go], [stack.go], [memory.go],
      [memory_table.go], [common.go].
    - [EvmAnalysis]: [analysis.go]; [EvmJumpdest] proves it exact.
    - [EvmState]: [vm/interface.go], [vm.go], [contract.go], [intpool.go]; the
      class [StateDB] is the interface [vm.StateDB], the class [Crypto] stands
      for package [crypto] and the native contracts' cryptography.  An
      instruction is a computation of [M]: it ends with a value, an error
      ([Fail]), a Go panic ([Panic]), or because the fuel of the model is spent
      ([NoFuel]).
    - [EvmGas]: [gas.go], [gas_table.go].
    - [EvmInstr]: [instructions.go]; calls between contracts are requests to a
      function argument, so an instruction is defined before the machine is.
    - [EvmTable]: [jump_table.go], [stack_table.go], [opcodes.go].
    - [EvmRun]: [interpreter.go], [evm.go], [contracts.go]; [loop] closes the
      recursion between [Run] and the calls.
    - [EvmArith] (values of the arithmetic instructions), [EvmSafe] (invariant
      and weakest preconditions), [EvmOps], [EvmFlow], [EvmCost], [EvmSteps]
      (modules [Calls], [Entry], [Steps]: one specification per instruction,
      price and memory function, against the class [CallsOk], then a round),
      [EvmTotal] (the machine, which discharges [CallsOk]), [EvmFrame] (module
      [Pres]: programs that respect a relation on states; [Frame]: what a failing
      call leaves, against the class [Journaled]; [Static]: read-only calls),
      [EvmDemo] (modules [Fee], [Quirks], and a concrete machine).

    The account state
    - [StateDb]: [core/state/statedb.go], [state_object.go], [journal.go]; the
      class [Backing] stands for tries, the database and [rlp].
    - [StateView] (what the getters can see, and undoing up to that),
      [StateRevert] (snapshots), [StateEvm] (this state as the machine's
      [vm.StateDB], which discharges [Journaled]; module [StateDemo]: tries held
      in memory), [Ovm]: [core/ovm.go].

    Transactions
    - [Bloom]: [core/types/bloom9.go].
    - [TxTransition]: [core/state_transition.go], [gaspool.go], the
      transactions and messages of [core/types].  A method of
      [*StateTransition] is a computation of [M]; an error keeps the changes
      made so far.  The machine it enters is the record [CallContext].
    - [TxProcess]: [core/state_processor.go]; the handlers of the steps,
      receipts, [Process] and [ProcessMultiTransaction].  What they ask of the
      chain database is the record [Chain].
    - [SortSlice]: [common/sort/sortslice/list.go] over Go's heap; [JobQueue]:
      [witness/queue.go], [txExecMsg.go]; [TxMining]: the packing of
      [witness/mining.go], where other goroutines and the clock are a list of
      events.
    - [TxLedger] (what an operation of the account state does to balances and
      marks), [TxSettle] (weakest preconditions; what a transition of a payment
      does), [TxChains] (receipts; the payment), [TxSafe] (transitions over
      any machine of the class [MachineSafe], which gives back no more gas
      than it got and keeps snapshots and the marks of a set [protected] that the
      theorems are generic in), [TxHandlers] (every handler over such machines),
      [TxUnit], [TxPack], [TxCalls] (the theorems about units, packing and calls),
      [TxDemo].
    - [TxPool]: [core/tx_pool2.go], [core/txpool/todo.go], [tx_disk.go]: the
      pool of a node that is no witness, one transaction at a time.

    The consensus engine
    - [BftTypes]: messages, views, errors ([consensus/protocol],
      [core/types.go]).
    - [BftValidators]: [consensus/bft/validator.go].
    - [BftRound]: [message_set.go], [roundstate.go], and the set of
      [roundchange.go].
    - [BftCore]: [core.go], [handler.go], [preprepare.go], [prepare.go],
      [commit.go], [roundchange.go], [backlog.go], [checktx.go], [request.go],
      [final_committed.go], [handle_new_round.go].  A handler is a computation
      over the engine's state and the log of its effects; the backend it asks
      is the record [Backend].  The effect [ECommit] carries the view of the
      engine at the time, which the call itself does not.
    - [BftInv], [BftPreserve] (the invariant and every handler's preservation of
      it; the class [Council] says which lists of validators a backend may
      name), [BftSafety] (module [Election]: proposers and counts; [Safety]: what
      follows for all reachable engines and for a network of them), [BftDemo]
      (eleven concrete validators).

    The system contract ([src/core/sc]); an operation is a computation of [SC]
    over the contract's slots, an error keeps the writes made before it
    - [ScStore] (sets, records and counters in slots: [stateSet.go], [period.go],
      [counter.go]) and [ScSets] (what they promise).
    - [ScGroup]: [witness_group.go]; [ScHeart]: heartbeats and periods; [ScWitness]
      and [ScDuty]: [normal_witenss.go], [council.go], [autoexit.go],
      [heartbeat.go]; [ScMembers], [ScRegroup], [ScJoin], [ScChains], [ScFrame],
      [ScRegistry]: who is in which group, and the register of witnesses.
    - [ScProposal]: [proposal.go], [proposal_common.go] and the campaigns; [ScVotes]
      (modules [Ballot], [Votes]), [ScSealed] ([Quiet], [Sealed]), [ScTally]
      ([Tally], [Opening]), [ScCampaign].
    - [ScSettle]: [settle.go], [settle_calc.go]; [ScFees].
    - [ScReport]: [report.go], [consensus/arbitration/validtor], the exchange of a
      chain's witnesses; [ScJudge].
    - [ScTrial]: a contract held in memory (modules [ScDemo], [Trial], [Court]).

    The chains of units
    - [DagStore]: the tables of [core/db_util.go] and [core/rawdb], the unit, what
      [DagChain] reads of them, [genesis.go].  A database is the record [Ledger] of
      finite maps; keys are injective names.
    - [UnitValid]: the header and vote checks of [consensus/bft/backend/engine.go]
      and [core/types/vote.go], the body and state checks of
      [core/unitvalidator.go].
    - [DagChain]: [core/dagchain.go], [dagchain_store.go], [chain_branch.go],
      [chan_static.go], the forks of [consensus/arbitration].  A result says
      whether the process goes on ([halt]) and what the caller is told.
    - [DagSafe] (well-formed databases; removal), [DagUnbroken] (all steps of a
      node), [DagAccept] (what acceptance means), [DagDemo] (two units in memory).

    ** What the theorems show

    - Consensus: an engine commits only on the commit votes of eight different
      members of a council its backend named, recovered from their signatures, all
      of its view and for that unit; it never panics; two engines whose backends
      name the same eleven never commit different units in one view while at most
      three of the eleven are dishonest; the proposer rotates over every validator.
    - Chains of units: from the genesis on every chain stays one unbroken line,
      provided the node's own proposals follow a stored unit, which is not checked;
      removing a unit ends and removes exactly what refers to it, provided every
      unit is younger than what it refers to, which a source without a height
      evades; what acceptance demands of a header; that an accepted unit is read
      back as it came, under conditions on its hashes; two defects of acceptance.
    - Machine: with an integer pool that was used before, the machine always
      answers, within the gas it was given; a read-only call leaves storage, code,
      nonces, logs and balances alone up to the first call of a system account;
      jumps reach exactly the JUMPDESTs that start an instruction; the arithmetic
      instructions compute the operations they are named after.
    - Account state: reverting to a snapshot restores every answer of the
      state, whatever ran since; a call that fails leaves no trace on it; its
      operations keep it well formed and panic in two known cases only.
    - Transactions: a payment moves what it says and nothing else, but in the
      first unit of a chain; a contract call over three chains costs what its
      receipts say; no step is executed twice on a chain as long as no contract
      clears its mark; a unit's receipts add up to its gas, within its limit; a
      step that fails while a unit is built leaves no trace; no queued job is lost
      or dealt with twice; while nothing is removed from the queue the most urgent
      job is served first; the pool's count and marks agree with what is in it.
    - System contract: sets in slots implement lists; the register of witnesses
      stays in agreement when witnesses join and leave; which group a chain gets;
      proposals are settled once, by the votes cast; campaigns pay back what they
      owe; fees are written to their proposer and paid once; an arbitration is a
      count of ballots; what a proof of dishonesty and an exchange of witnesses
      show, and what they do not.
    - Places where the code does something else than it means to are stated as
      theorems too ([Fee] and [Quirks] of [EvmDemo], [StateRevert], [JobQueue],
      [DagAccept], [TxPool], [ScRegistry], [ScTrial]).

    Every theorem with hypotheses is applied at a concrete input by a lemma named
    after it that ends in [_witness].

    ** Bounds and fuel

    - A Go [uint64] is a [Z] that goes through [u64] wherever the operation can
      overflow; [int], [int64] through [i64]; a [*big.Int] on the machine's
      stack is a [Z] kept below [2^256] by the invariant, not by the type.
    - [EvmRun.loop] takes one unit of fuel per instruction and per nested
      call.  Each of them consumes gas or is one of at most 1024 nested levels
      with its own gas, so fuel above the gas is enough ([EvmTotal]).
    - [TxProcess.applyToContract] has fuel two: deploying a contract calls it
      once for the new chain, which is not the system contract's.
    - [DagChain.clearUnitWithTxs] and [lookup_chains] have one more than the number
      of stored units; every level of the recursion is a younger unit
      ([DagSafe.clear_fuel_enough]).
    - [ScGroup.distribute] has twice the number of witnesses to place, the number
      of groups and two ([ScRegroup] shows it enough); the loops of [ScSettle] and
      [ScGroup] over periods and groups have the length of their range.
    - [GoSort]: the length of the list; [SortSlice.up] and [down] likewise, both
      move along a path of the heap.
    - [EvmAnalysis.bitmap_loop] has the length of the program as fuel,
      [Bech32.convert_byte] eight; both are enough because every round
      advances.

    ** What is not modelled

    - The packages [rlp], [p2p], [log], [rpc], [accounts], [abi], [trie] are not
      part of the repository: encodings are injective codecs, given as classes;
      tries are a class operation.  Hash functions, signatures and native
      cryptographic contracts are class operations as well.
    - [handleInnerMessage], which decodes a call of the system contract by its
      method ([core/sc/contract.go]), is an operation of the machine's context; the
      operations it selects from are modelled, the selection is not.
    - Locks, goroutines, caches, logging, tracing and metrics.  An engine handles
      its events one at a time, as its channel loop does; bodies and receipts,
      which the node writes in the background, are written with their unit; a pool
      deals with one transaction at a time.
    - [cacheSign] of [InsertUnit], which recovers signers ahead of time: with the
      default configuration it changes no answer.
    - Writing the account state to the database ([commitTo]), and reading a
      trie: a class operation.  Where Go ranges over a map, the model takes one
      fixed order.
    - The additional period of work ([core/sc/additional.go]) and the queries for
      users; the branch of the pool for a node that is a witness.
    - Synchronisation between peers, network, schedulers and user interfaces: they
      decide which units and messages arrive, and the theorems hold whatever
      arrives. *)
From Stdlib Require Export ZArith Lia Bool.
From Stdlib Require Ascii String Btauto.
From stdpp Require Export base gmap sets list strings sorting numbers.

Global Open Scope Z_scope.

(** * Fixed-width integers

    A Go [uintN] is a [Z]; every operation that can overflow goes through
    [u64], [u32] or [u8], the wrap-around the language prescribes. *)

Definition MaxUint64 : Z := 2 ^ 64 - 1.
Definition u64 (z : Z) : Z := z mod 2 ^ 64.
Definition u32 (z : Z) : Z := z mod 2 ^ 32.
Definition u8 (z : Z) : Z := z mod 2 ^ 8.
(** Two's-complement reading of a machine word ([int64(x)], [int(x)]). *)
Definition i64 (z : Z) : Z := let r := u64 z in if r <? 2 ^ 63 then r else r - 2 ^ 64.

Abbreviation is_u64 z := (0 <= z < 2 ^ 64).
Abbreviation is_byte b := (0 <= b < 256).
(** Go strings and byte slices: sequences of bytes. *)
Abbreviation bytes := (list Z).

Lemma u64_small z : is_u64 z -> u64 z = z.
Proof. intros; unfold u64; apply Z.mod_small; lia. Qed.

Lemma u64_range z : is_u64 (u64 z).
Proof. unfold u64; apply Z.mod_pos_bound; lia. Qed.

Lemma u32_range z : 0 <= u32 z < 2 ^ 32.
Proof. unfold u32; apply Z.mod_pos_bound; lia. Qed.

Lemma u8_range z : is_byte (u8 z).
Proof. unfold u8; apply Z.mod_pos_bound; lia. Qed.

Lemma u8_small z : is_byte z -> u8 z = z.
Proof. intros; unfold u8; apply Z.mod_small; lia. Qed.

Lemma i64_small z : 0 <= z < 2 ^ 63 -> i64 z = z.
Proof.
  intros; unfold i64; rewrite u64_small by lia.
  destruct (Z.ltb_spec z (2 ^ 63)); lia.
Qed.

Create HintDb words.
#[export] Hint Resolve u64_range u32_range u8_range : words.
#[export] Hint Rewrite u64_small u8_small i64_small using lia : words.

(** Case analysis on the boolean comparison a goal or hypothesis tests. *)
Ltac zcase :=
  match goal with
  | |- context [?a <? ?b] => destruct (Z.ltb_spec a b)
  | |- context [?a <=? ?b] => destruct (Z.leb_spec a b)
  | |- context [?a =? ?b] => destruct (Z.eqb_spec a b)
  | |- context [?a >? ?b] => rewrite (Z.gtb_ltb a b)
  | |- context [?a >=? ?b] => rewrite (Z.geb_leb a b)
  | H : context [?a <? ?b] |- _ => destruct (Z.ltb_spec a b)
  | H : context [?a <=? ?b] |- _ => destruct (Z.leb_spec a b)
  | H : context [?a =? ?b] |- _ => destruct (Z.eqb_spec a b)
  | H : context [?a >? ?b] |- _ => rewrite (Z.gtb_ltb a b) in H
  | H : context [?a >=? ?b] |- _ => rewrite (Z.geb_leb a b) in H
  end.

Ltac case_if :=
  match goal with
  | |- context [if ?b then _ else _] => destruct b eqn:?
  | H : context [if ?b then _ else _] |- _ => destruct b eqn:?
  end.

(** * Bitwise lemmas *)

(** Equality of integers by comparing every bit. *)
Ltac bitwise :=
  apply Z.bits_inj'; intros ?n ?Hn;
  repeat first
    [ rewrite Z.lxor_spec | rewrite Z.land_spec | rewrite Z.lor_spec
    | rewrite Z.shiftr_spec by lia | rewrite Z.shiftl_spec by lia
    | rewrite Z.bits_0 ].

Lemma land_lxor_r a b m : Z.land (Z.lxor a b) m = Z.lxor (Z.land a m) (Z.land b m).
Proof. bitwise; Btauto.btauto. Qed.

Lemma lxor_bound k a b :
  0 <= k -> 0 <= a < 2 ^ k -> 0 <= b < 2 ^ k -> 0 <= Z.lxor a b < 2 ^ k.
Proof.
  intros Hk Ha Hb.
  assert (0 <= Z.lxor a b) by (apply Z.lxor_nonneg; lia).
  split; [done|].
  destruct (Z.eq_dec (Z.lxor a b) 0) as [->|Hne]; [lia|].
  apply Z.log2_lt_pow2; [lia|].
  pose proof (Z.log2_lxor a b ltac:(lia) ltac:(lia)).
  destruct (Z.eq_dec k 0) as [->|]; [exfalso; apply Hne; replace a with 0 by lia; replace b with 0 by lia; done|].
  assert (forall x, 0 <= x < 2 ^ k -> Z.log2 x < k) as Hl.
  { intros x Hx. destruct (Z.eq_dec x 0) as [->|]; [cbn; lia|]. apply Z.log2_lt_pow2; lia. }
  pose proof (Hl a Ha). pose proof (Hl b Hb). lia.
Qed.

Lemma lor_bound k a b :
  0 <= k -> 0 <= a < 2 ^ k -> 0 <= b < 2 ^ k -> 0 <= Z.lor a b < 2 ^ k.
Proof.
  intros Hk Ha Hb.
  assert (0 <= Z.lor a b) by (apply Z.lor_nonneg; lia).
  split; [done|].
  destruct (Z.eq_dec (Z.lor a b) 0) as [->|Hne]; [lia|].
  apply Z.log2_lt_pow2; [lia|]. rewrite Z.log2_lor by lia.
  assert (forall x, 0 <= x < 2 ^ k -> Z.log2 x < k \/ (x = 0)) as Hl.
  { intros x Hx. destruct (Z.eq_dec x 0); [by right|]. left; apply Z.log2_lt_pow2; lia. }
  pose proof (Z.log2_nonneg a). pose proof (Z.log2_nonneg b).
  destruct (Hl a Ha) as [?| ->], (Hl b Hb) as [?| ->]; cbn in *; try lia; done.
Qed.

Lemma land_low_shiftl x v k :
  0 <= k -> 0 <= v < 2 ^ k -> Z.land (Z.shiftl x k) v = 0.
Proof.
  intros Hk Hv. bitwise.
  destruct (Z.lt_ge_cases n k).
  - rewrite Z.testbit_neg_r by lia. done.
  - rewrite <- (Z.mod_small v (2 ^ k)) by lia.
    rewrite Z.mod_pow2_bits_high by lia. Btauto.btauto.
Qed.

Lemma lxor_shiftl_add x v k :
  0 <= k -> 0 <= v < 2 ^ k -> Z.lxor (Z.shiftl x k) v = x * 2 ^ k + v.
Proof.
  intros. rewrite <- Z.add_nocarry_lxor by (by apply land_low_shiftl).
  rewrite Z.shiftl_mul_pow2 by lia. lia.
Qed.

Lemma lor_shiftl_add x v k :
  0 <= k -> 0 <= v < 2 ^ k -> Z.lor (Z.shiftl x k) v = x * 2 ^ k + v.
Proof.
  intros. rewrite <- Z.lxor_lor by (by apply land_low_shiftl).
  by apply lxor_shiftl_add.
Qed.

Lemma land_ones_mod a k : 0 <= k -> Z.land a (2 ^ k - 1) = a mod 2 ^ k.
Proof.
  intros. replace (2 ^ k - 1) with (Z.ones k) by (rewrite Z.ones_equiv; lia).
  by apply Z.land_ones.
Qed.

(** * Byte strings *)

(** The bytes of a Go string literal. *)
Fixpoint str (s : String.string) : bytes :=
  match s with
  | String.EmptyString => []
  | String.String c s' => Z.of_N (Ascii.N_of_ascii c) :: str s'
  end.

(** [big.Int.SetBytes]: big-endian value of a byte slice. *)
Definition be_value (l : bytes) : Z := foldl (fun acc b => acc * 256 + b) 0 l.

Lemma be_value_app l b : be_value (l ++ [b]) = be_value l * 256 + b.
Proof. unfold be_value. by rewrite foldl_app. Qed.

Lemma foldl_be_value acc l :
  foldl (fun acc b => acc * 256 + b) acc l = acc * 256 ^ Z.of_nat (length l) + be_value l.
Proof.
  unfold be_value. revert acc. induction l as [|b l IH]; intros acc; cbn [foldl length].
  - cbn; lia.
  - rewrite IH, (IH (0 * 256 + b)).
    rewrite Nat2Z.inj_succ, Z.pow_succ_r by lia. ring.
Qed.

Lemma be_value_cons b l : be_value (b :: l) = b * 256 ^ Z.of_nat (length l) + be_value l.
Proof. unfold be_value at 1. cbn [foldl]. rewrite foldl_be_value. lia. Qed.

Lemma be_value_range l :
  Forall (fun b => is_byte b) l -> 0 <= be_value l < 256 ^ Z.of_nat (length l).
Proof.
  induction 1 as [|b l Hb Hl IH]; [cbn; lia|].
  rewrite be_value_cons. cbn [length]. rewrite Nat2Z.inj_succ, Z.pow_succ_r by lia. nia.
Qed.

(** The [n] low-order bytes of [v], most significant first. *)
Fixpoint be_bytes (n : nat) (v : Z) : bytes :=
  match n with
  | O => []
  | S n' => be_bytes n' (v / 256) ++ [v mod 256]
  end.

Lemma length_be_bytes n v : length (be_bytes n v) = n.
Proof. revert v; induction n as [|n IH]; intros v; cbn; [done|]. rewrite length_app, IH; cbn; lia. Qed.

Lemma be_bytes_range n v : Forall (fun b => is_byte b) (be_bytes n v).
Proof.
  revert v; induction n as [|n IH]; intros v; cbn; [constructor|].
  apply Forall_app; split; [apply IH|]. repeat constructor; apply Z.mod_pos_bound; lia.
Qed.

Lemma be_value_be_bytes n v : be_value (be_bytes n v) = v mod 256 ^ Z.of_nat n.
Proof.
  revert v; induction n as [|n IH]; intros v; cbn [be_bytes].
  - cbn. by rewrite Z.mod_1_r.
  - rewrite be_value_app, IH, Nat2Z.inj_succ, Z.pow_succ_r by lia.
    rewrite Z.rem_mul_r by lia. lia.
Qed.

Lemma be_bytes_be_value l :
  Forall (fun b => is_byte b) l -> be_bytes (length l) (be_value l) = l.
Proof.
  induction l as [|b l IH] using rev_ind; [done|].
  rewrite Forall_app. intros [Hl Hb]. inversion_clear Hb.
  rewrite length_app, be_value_app; cbn. rewrite Nat.add_1_r; cbn [be_bytes].
  rewrite Z.div_add_l, Z.div_small, Z.add_0_r by lia.
  rewrite Z.add_comm, Z.mod_add, Z.mod_small by lia. by rewrite IH.
Qed.

(** [binary.LittleEndian.PutUint64] and [binary.LittleEndian.Uint64]. *)
Fixpoint le_bytes (n : nat) (v : Z) : bytes :=
  match n with
  | O => []
  | S n' => v mod 256 :: le_bytes n' (v / 256)
  end.

Fixpoint le_value (l : bytes) : Z :=
  match l with
  | [] => 0
  | b :: l' => b + 256 * le_value l'
  end.

Lemma length_le_bytes n v : length (le_bytes n v) = n.
Proof. revert v; induction n as [|n IH]; intros v; cbn; [done|]. by rewrite IH. Qed.

Lemma le_value_le_bytes n v : le_value (le_bytes n v) = v mod 256 ^ Z.of_nat n.
Proof.
  revert v; induction n as [|n IH]; intros v; cbn [le_bytes le_value].
  - cbn. by rewrite Z.mod_1_r.
  - rewrite IH, Nat2Z.inj_succ, Z.pow_succ_r by lia. rewrite Z.rem_mul_r by lia. lia.
Qed.

(** [strings.Compare]: byte-wise lexicographic order. *)
Fixpoint bytes_ltb (a b : bytes) : bool :=
  match a, b with
  | _, [] => false
  | [], _ :: _ => true
  | x :: a', y :: b' => if x <? y then true else if x =? y then bytes_ltb a' b' else false
  end.

(** * Results

    A Go function returning [(value, error)]: [Ok v] when the error is nil. *)
Inductive result (E A : Type) : Type :=
| Ok (a : A)
| Err (e : E).
Arguments Ok {E A} a.
Arguments Err {E A} e.

Definition result_bind {E A B} (m : result E A) (k : A -> result E B) : result E B :=
  match m with Ok a => k a | Err e => Err e end.

Declare Scope result_scope.
Delimit Scope result_scope with result.
Notation "'let?' x ':=' m 'in' k" := (result_bind m (fun x => k))
  (at level 10, x pattern, m at level 100, k at level 200) : result_scope.

Definition is_ok {E A} (r : result E A) : bool :=
  match r with Ok _ => true | Err _ => false end.

(** * Lists *)

(** Index of the first element satisfying a test ([-1] becomes [None]). *)
Fixpoint find_index {A} (f : A -> bool) (l : list A) : option nat :=
  match l with
  | [] => None
  | x :: l' => if f x then Some 0%nat else option_map S (find_index f l')
  end.

Lemma find_index_Some {A} (f : A -> bool) l i :
  find_index f l = Some i ->
  exists x, l !! i = Some x /\ f x = true /\ forall j y, (j < i)%nat -> l !! j = Some y -> f y = false.
Proof.
  revert i. induction l as [|x l IH]; intros i; cbn; [done|].
  destruct (f x) eqn:E.
  - intros [= <-]. exists x. split_and!; [done..|]. intros; lia.
  - destruct (find_index f l) as [j|] eqn:Hj; cbn; [|done]. intros [= <-].
    destruct (IH j eq_refl) as (y & ? & ? & Hmin). exists y. split_and!; [done..|].
    intros [|j'] z Hlt; cbn; [intros [= <-]; done|]. intros; eapply Hmin; [|done]; lia.
Qed.

Lemma find_index_None {A} (f : A -> bool) l :
  find_index f l = None <-> Forall (fun x => f x = false) l.
Proof.
  induction l as [|x l IH]; cbn; [split; [constructor|done]|].
  rewrite list.Forall_cons. destruct (f x); [split; [done|intros []; done]|].
  destruct (find_index f l); cbn; [|tauto].
  split; [done|]. intros [_ H]. by apply IH in H.
Qed.

Lemma Forall_elem {A} (P : A -> Prop) l x : Forall P l -> x ∈ l -> P x.
Proof. rewrite list_elem_of_In, List.Forall_forall. auto. Qed.

Lemma Forall_weaken {A} (P Q : A -> Prop) l : Forall P l -> (forall x, P x -> Q x) -> Forall Q l.
Proof. intros H HPQ. induction H; constructor; auto. Qed.

Lemma size_list_to_set_le `{Countable A} (l : list A)
  : (size (list_to_set l : gset A) <= length l)%nat.
Proof.
  induction l as [|x l IH]; cbn; [by rewrite size_empty|].
  rewrite size_union_alt, size_singleton.
  assert (size (list_to_set l ∖ {[x]} : gset A) <= size (list_to_set l : gset A))%nat by (apply subseteq_size; set_solver).
  lia.
Qed.

Lemma find_index_app {A} (f : A -> bool) l x r :
  Forall (fun y => f y = false) l -> f x = true -> find_index f (l ++ x :: r) = Some (length l).
Proof. induction 1 as [|y l Hy _ IH]; intros Hx; cbn; [by rewrite Hx|]. by rewrite Hy, IH. Qed.

Lemma existsb_false {A} (f : A -> bool) l :
  Forall (fun x => f x = false) l -> existsb f l = false.
Proof. induction 1 as [|x l Hx _ IH]; cbn; [done|]. by rewrite Hx. Qed.

Lemma map_id_Forall {A} (f : A -> A) l : Forall (fun x => f x = x) l -> map f l = l.
Proof. induction 1 as [|x l Hx _ IH]; cbn; [done|]. by rewrite Hx, IH. Qed.

(** Checking a test at each of [0 .. n-1]. *)
Lemma Z_bounded_check (f : Z -> bool) (n : nat) :
  forallb f (map Z.of_nat (seq 0 n)) = true -> forall x, 0 <= x < Z.of_nat n -> f x = true.
Proof.
  intros H x Hx. rewrite forallb_forall in H. apply H, in_map_iff.
  exists (Z.to_nat x). split; [lia|]. apply in_seq. lia.
Qed.
