(* ===== verification/Bech32.v ===== *)
(** Bech32 strings ([src/common/bech32/bech32.go]): the checksum, [Encode],
    [Decode] and the regrouping of bits [ConvertBits].  A Go string is the
    sequence of its bytes; [int] values stay below [2^30], so the 64-bit
    arithmetic of the checksum never wraps ([polymod_bound]).

    What [Bech32.ConvertBits] computes: the same bit string, cut into groups of
    another width.  A list of groups is read as a number in base [2^width]
    together with its length in bits. *)
From S2P Require Import Prelude.

Module Bech32.

Definition charset : bytes := str "qpzry9x8gf2tvdw0s3jn54khce6mua7l".

Definition gen : list Z := [0x3b6a57b2; 0x26508e6d; 0x1ea119fa; 0x3d4233dd; 0x2a1462b3].

(** The errors of [Decode], [Encode] and [ConvertBits], in source order. *)
Inductive error :=
| ErrLength
| ErrCharacter
| ErrMixedCase
| ErrSeparator
| ErrNotInCharset
| ErrChecksum
| ErrDataByte
| ErrBitGroups
| ErrIncompleteGroup.

(** One round of [for i := 0; i < 5; i++ { if (b>>i)&1 == 1 { chk ^= gen[i] } }]. *)
Fixpoint polymod_gens (b i : Z) (gs : list Z) (chk : Z) : Z :=
  match gs with
  | [] => chk
  | g :: gs' =>
      polymod_gens b (i + 1) gs'
        (if Z.land (Z.shiftr b i) 1 =? 1 then Z.lxor chk g else chk)
  end.

Definition polymod_step (chk v : Z) : Z :=
  let b := Z.shiftr chk 25 in
  polymod_gens b 0 gen (Z.lxor (Z.shiftl (Z.land chk 0x1ffffff) 5) v).

Definition bech32Polymod (values : list Z) : Z := foldl polymod_step 1 values.

Definition bech32HrpExpand (hrp : bytes) : list Z :=
  map (fun c => Z.shiftr c 5) hrp ++ [0] ++ map (fun c => Z.land c 31) hrp.

Definition bech32Checksum (hrp data : bytes) : bytes :=
  let values := bech32HrpExpand hrp ++ data ++ [0; 0; 0; 0; 0; 0] in
  let polymod := Z.lxor (bech32Polymod values) 1 in
  map (fun i => u8 (Z.land (Z.shiftr polymod (5 * (5 - i))) 31)) [0; 1; 2; 3; 4; 5].

Definition bech32VerifyChecksum (hrp data : bytes) : bool :=
  bech32Polymod (bech32HrpExpand hrp ++ data) =? 1.

(** [strings.IndexByte]. *)
Definition index_byte (s : bytes) (c : Z) : option nat := find_index (Z.eqb c) s.

(** [strings.LastIndexByte], by the mirror image. *)
Definition last_index_byte (s : bytes) (c : Z) : option nat :=
  match find_index (Z.eqb c) (reverse s) with
  | Some i => Some (length s - 1 - i)%nat
  | None => None
  end.

Fixpoint toBytes (chars : bytes) : result error bytes :=
  match chars with
  | [] => Ok []
  | c :: cs =>
      match index_byte charset c with
      | None => Err ErrNotInCharset
      | Some i =>
          match toBytes cs with
          | Ok ds => Ok (Z.of_nat i :: ds)
          | Err e => Err e
          end
      end
  end.

Fixpoint toChars (data : bytes) : result error bytes :=
  match data with
  | [] => Ok []
  | b :: bs =>
      if b >=? Z.of_nat (length charset) then Err ErrDataByte
      else
        match toChars bs with
        | Ok cs => Ok (nth (Z.to_nat b) charset 0 :: cs)
        | Err e => Err e
        end
  end.

Definition Encode (hrp data : bytes) : result error bytes :=
  let checksum := bech32Checksum hrp data in
  let combined := data ++ checksum in
  match toChars combined with
  | Ok dataChars => Ok (hrp ++ [49] ++ dataChars)
  | Err e => Err e
  end.

(** [strings.ToLower] and [strings.ToUpper] on ASCII strings: both are used
    after the check that every byte is in [33, 126]. *)
Definition to_lower (c : Z) : Z := if (65 <=? c) && (c <=? 90) then c + 32 else c.
Definition to_upper (c : Z) : Z := if (97 <=? c) && (c <=? 122) then c - 32 else c.

Definition Decode (bech : bytes) : result error (bytes * bytes) :=
  let len := Z.of_nat (length bech) in
  if (len <? 8) || (len >? 90) then Err ErrLength
  else if existsb (fun c => (c <? 33) || (c >? 126)) bech then Err ErrCharacter
  else
    let lower := map to_lower bech in
    let upper := map to_upper bech in
    if negb (bool_decide (bech = lower)) && negb (bool_decide (bech = upper))
    then Err ErrMixedCase
    else
      let bech := lower in
      match last_index_byte bech 49 with
      | None => Err ErrSeparator
      | Some one =>
          if (one <? 1)%nat || (length bech <? one + 7)%nat then Err ErrSeparator
          else
            let hrp := take one bech in
            let data := drop (one + 1) bech in
            match toBytes data with
            | Err e => Err e
            | Ok decoded =>
                if negb (bech32VerifyChecksum hrp decoded) then Err ErrChecksum
                else Ok (hrp, take (length decoded - 6) decoded)
            end
      end.

(** ** Regrouping of bits

    The body of [for remFromBits > 0] in [ConvertBits]: [toBits - filledBits]
    and [remFromBits] are positive, so every round extracts at least one bit
    and eight rounds empty a byte ([convert_byte_rem]). *)
Fixpoint convert_byte (fuel : nat) (toBits b remFromBits nextByte filledBits : Z)
    (regrouped : bytes) : Z * Z * bytes :=
  match fuel with
  | O => (nextByte, filledBits, regrouped)
  | S fuel' =>
      if remFromBits >? 0 then
        let remToBits := u8 (toBits - filledBits) in
        let toExtract := if remToBits <? remFromBits then remToBits else remFromBits in
        let nextByte := Z.lor (u8 (Z.shiftl nextByte toExtract)) (Z.shiftr b (8 - toExtract)) in
        let b := u8 (Z.shiftl b toExtract) in
        let remFromBits := u8 (remFromBits - toExtract) in
        let filledBits := u8 (filledBits + toExtract) in
        if filledBits =? toBits
        then convert_byte fuel' toBits b remFromBits 0 0 (regrouped ++ [nextByte])
        else convert_byte fuel' toBits b remFromBits nextByte filledBits regrouped
      else (nextByte, filledBits, regrouped)
  end.

Fixpoint convert_data (data : bytes) (fromBits toBits nextByte filledBits : Z)
    (regrouped : bytes) : Z * Z * bytes :=
  match data with
  | [] => (nextByte, filledBits, regrouped)
  | b :: data' =>
      let b := u8 (Z.shiftl b (8 - fromBits)) in
      let '(nextByte, filledBits, regrouped) :=
        convert_byte 8 toBits b fromBits nextByte filledBits regrouped in
      convert_data data' fromBits toBits nextByte filledBits regrouped
  end.

Definition ConvertBits (data : bytes) (fromBits toBits : Z) (pad : bool)
    : result error bytes :=
  if (fromBits <? 1) || (fromBits >? 8) || (toBits <? 1) || (toBits >? 8)
  then Err ErrBitGroups
  else
    let '(nextByte, filledBits, regrouped) := convert_data data fromBits toBits 0 0 [] in
    let '(nextByte, filledBits, regrouped) :=
      if pad && (filledBits >? 0)
      then (0, 0, regrouped ++ [u8 (Z.shiftl nextByte (toBits - filledBits))])
      else (nextByte, filledBits, regrouped) in
    if (filledBits >? 0) && ((filledBits >? 4) || negb (nextByte =? 0))
    then Err ErrIncompleteGroup
    else Ok regrouped.

(** ** Checksum *)

Lemma land_1_eqb x i : 0 <= i -> (Z.land (Z.shiftr x i) 1 =? 1) = Z.testbit x i.
Proof.
  intros Hi. replace 1 with (Z.ones 1) at 1 by done.
  rewrite Z.land_ones by lia. change (2 ^ 1) with 2.
  rewrite Zmod_odd. rewrite <- Z.bit0_odd, Z.shiftr_spec by lia.
  rewrite Z.add_0_l. by destruct (Z.testbit x i).
Qed.

Definition gterm (t : bool) (g : Z) : Z := if t then g else 0.

Lemma gterm_xorb s t g : gterm (xorb s t) g = Z.lxor (gterm s g) (gterm t g).
Proof. destruct s, t; cbn; rewrite ?Z.lxor_nilpotent, ?Z.lxor_0_r, ?Z.lxor_0_l; done. Qed.

Fixpoint gsum (b i : Z) (gs : list Z) : Z :=
  match gs with
  | [] => 0
  | g :: gs' => Z.lxor (gterm (Z.testbit b i) g) (gsum b (i + 1) gs')
  end.

Lemma polymod_gens_gsum b i gs chk :
  0 <= i -> polymod_gens b i gs chk = Z.lxor chk (gsum b i gs).
Proof.
  revert i chk. induction gs as [|g gs IH]; intros i chk Hi; cbn.
  - by rewrite Z.lxor_0_r.
  - rewrite IH by lia. rewrite land_1_eqb by done.
    destruct (Z.testbit b i); cbn; [by rewrite Z.lxor_assoc|by rewrite Z.lxor_0_l].
Qed.

Lemma gsum_lxor a b i gs :
  gsum (Z.lxor a b) i gs = Z.lxor (gsum a i gs) (gsum b i gs).
Proof.
  revert i. induction gs as [|g gs IH]; intros i; cbn; [done|].
  rewrite IH, Z.lxor_spec, gterm_xorb. bitwise. Btauto.btauto.
Qed.

Lemma gsum_0 i gs : gsum 0 i gs = 0.
Proof.
  revert i. induction gs as [|g gs IH]; intros i; cbn; [done|].
  by rewrite Z.bits_0, IH.
Qed.

Lemma polymod_step_lxor a b v w :
  polymod_step (Z.lxor a b) (Z.lxor v w) = Z.lxor (polymod_step a v) (polymod_step b w).
Proof.
  unfold polymod_step. rewrite !polymod_gens_gsum by lia.
  rewrite Z.shiftr_lxor, gsum_lxor, land_lxor_r, Z.shiftl_lxor.
  bitwise. Btauto.btauto.
Qed.

Lemma polymod_fold_lxor a b vs ws :
  length vs = length ws ->
  foldl polymod_step (Z.lxor a b) (zip_with Z.lxor vs ws) =
  Z.lxor (foldl polymod_step a vs) (foldl polymod_step b ws).
Proof.
  revert a b ws. induction vs as [|v vs IH]; intros a b [|w ws]; cbn [foldl zip_with length]; try done.
  intros [=]. by rewrite polymod_step_lxor, IH.
Qed.

Lemma gsum_bound b i gs :
  Forall (fun g => 0 <= g < 2 ^ 30) gs -> 0 <= gsum b i gs < 2 ^ 30.
Proof.
  intros H; revert i; induction H as [|g gs Hg _ IH]; intros i; cbn [gsum]; [lia|].
  apply lxor_bound; [lia| |apply IH]. unfold gterm; case_match; lia.
Qed.

Lemma polymod_step_bound chk v :
  0 <= v < 2 ^ 30 -> 0 <= polymod_step chk v < 2 ^ 30.
Proof.
  intros Hv. unfold polymod_step. rewrite polymod_gens_gsum by lia.
  apply lxor_bound; [lia| |].
  - apply lxor_bound; [lia| |done].
    change 0x1ffffff with (2 ^ 25 - 1). rewrite land_ones_mod by lia.
    rewrite Z.shiftl_mul_pow2 by lia.
    pose proof (Z.mod_pos_bound chk (2 ^ 25) ltac:(lia)). lia.
  - apply gsum_bound. repeat constructor; lia.
Qed.

Lemma polymod_bound chk vs :
  0 <= chk < 2 ^ 30 -> Forall (fun v => 0 <= v < 2 ^ 30) vs ->
  0 <= foldl polymod_step chk vs < 2 ^ 30.
Proof.
  intros Hc H; revert chk Hc; induction H as [|v vs Hv _ IH]; intros chk Hc; cbn [foldl]; [done|].
  apply IH. by apply polymod_step_bound.
Qed.

(** Below [2^25] no generator applies: the step is a 5-bit shift. *)
Lemma polymod_step_small x v :
  0 <= x < 2 ^ 25 -> 0 <= v < 32 -> polymod_step x v = x * 32 + v.
Proof.
  intros Hx Hv. unfold polymod_step. rewrite polymod_gens_gsum by lia.
  replace (Z.shiftr x 25) with 0
    by (rewrite Z.shiftr_div_pow2, Z.div_small by lia; done).
  rewrite gsum_0, Z.lxor_0_r.
  change 0x1ffffff with (2 ^ 25 - 1). rewrite land_ones_mod, Z.mod_small by lia.
  change 32 with (2 ^ 5) in *. apply lxor_shiftl_add; lia.
Qed.

Definition checksum_symbols (p : Z) : list Z :=
  map (fun i => u8 (Z.land (Z.shiftr p (5 * (5 - i))) 31)) [0; 1; 2; 3; 4; 5].

Lemma symbol_div p i :
  0 <= i <= 5 -> u8 (Z.land (Z.shiftr p (5 * i)) 31) = p / 32 ^ i mod 32.
Proof.
  intros Hi. change 31 with (2 ^ 5 - 1). rewrite land_ones_mod by lia.
  rewrite Z.shiftr_div_pow2 by lia. rewrite Z.pow_mul_r by lia. change (2 ^ 5) with 32.
  apply u8_small. pose proof (Z.mod_pos_bound (p / 32 ^ i) 32 ltac:(lia)). lia.
Qed.

(** Feeding the six checksum symbols of [p] to the zero register yields [p]. *)
Lemma polymod_symbols p :
  0 <= p < 2 ^ 30 -> foldl polymod_step 0 (checksum_symbols p) = p.
Proof.
  intros Hp. unfold checksum_symbols. cbn [map foldl].
  change (5 * (5 - 0)) with (5 * 5). change (5 * (5 - 1)) with (5 * 4).
  change (5 * (5 - 2)) with (5 * 3). change (5 * (5 - 3)) with (5 * 2).
  change (5 * (5 - 4)) with (5 * 1). change (5 * (5 - 5)) with (5 * 0).
  rewrite !symbol_div by lia.
  change (32 ^ 5) with 33554432. change (32 ^ 4) with 1048576. change (32 ^ 3) with 32768.
  change (32 ^ 2) with 1024. change (32 ^ 1) with 32. change (32 ^ 0) with 1.
  change (2 ^ 30) with 1073741824 in Hp. rewrite Z.div_1_r.
  change 33554432 with (32 * 32 * 32 * 32 * 32). change 1048576 with (32 * 32 * 32 * 32).
  change 32768 with (32 * 32 * 32). change 1024 with (32 * 32).
  rewrite <- !Z.div_div by lia.
  set (q1 := p / 32). set (q2 := q1 / 32). set (q3 := q2 / 32).
  set (q4 := q3 / 32). set (q5 := q4 / 32).
  pose proof (Z.div_mod p 32 ltac:(lia)) as E0. pose proof (Z.mod_pos_bound p 32 ltac:(lia)).
  pose proof (Z.div_mod q1 32 ltac:(lia)) as E1. pose proof (Z.mod_pos_bound q1 32 ltac:(lia)).
  pose proof (Z.div_mod q2 32 ltac:(lia)) as E2. pose proof (Z.mod_pos_bound q2 32 ltac:(lia)).
  pose proof (Z.div_mod q3 32 ltac:(lia)) as E3. pose proof (Z.mod_pos_bound q3 32 ltac:(lia)).
  pose proof (Z.div_mod q4 32 ltac:(lia)) as E4. pose proof (Z.mod_pos_bound q4 32 ltac:(lia)).
  fold q1 in E0. fold q2 in E1. fold q3 in E2. fold q4 in E3. fold q5 in E4.
  assert (q5 mod 32 = q5) as -> by (apply Z.mod_small; lia).
  repeat match goal with
  | |- context [polymod_step ?x ?v] =>
      lazymatch x with
      | context [polymod_step] => fail
      | _ => rewrite (polymod_step_small x v) by (try change (2 ^ 25) with 33554432; lia)
      end
  end.
  lia.
Qed.

Lemma zip_lxor_0_l vs : zip_with Z.lxor (replicate (length vs) 0) vs = vs.
Proof. induction vs as [|v vs IH]; cbn; [done|]. by rewrite IH. Qed.

Definition sane (l : list Z) : Prop := Forall (fun v => 0 <= v < 2 ^ 30) l.

Lemma checksum_verifies_gen vs :
  sane vs ->
  bech32Polymod (vs ++ checksum_symbols (Z.lxor (bech32Polymod (vs ++ [0;0;0;0;0;0])) 1)) = 1.
Proof.
  intros Hs. set (p := Z.lxor (bech32Polymod (vs ++ [0;0;0;0;0;0])) 1).
  assert (0 <= p < 2 ^ 30) as Hp.
  { apply lxor_bound; [lia| |lia]. apply polymod_bound; [lia|].
    apply Forall_app; split; [done|]. repeat constructor; lia. }
  unfold bech32Polymod. rewrite foldl_app.
  set (s := foldl polymod_step 1 vs).
  rewrite <- (zip_lxor_0_l (checksum_symbols p)).
  rewrite <- (Z.lxor_0_r s). rewrite polymod_fold_lxor by (by rewrite length_replicate).
  rewrite polymod_symbols by done.
  unfold p, bech32Polymod. rewrite foldl_app. fold s.
  change (replicate (length (checksum_symbols _)) 0) with [0;0;0;0;0;0].
  rewrite <- Z.lxor_assoc, Z.lxor_nilpotent. done.
Qed.

Lemma sane_bytes l : Forall (fun v => is_byte v) l -> sane l.
Proof. intros H; eapply List.Forall_impl; [|exact H]. intros; cbn in *; lia. Qed.

Lemma sane_expand hrp : Forall (fun v => is_byte v) hrp -> sane (bech32HrpExpand hrp).
Proof.
  intros H. unfold sane, bech32HrpExpand. rewrite !Forall_app. split_and!.
  - apply Forall_fmap. eapply List.Forall_impl; [|exact H]. intros x Hx; cbn in Hx |- *.
    rewrite Z.shiftr_div_pow2 by lia. change (2 ^ 5) with 32.
    Z.div_mod_to_equations; lia.
  - repeat constructor; lia.
  - apply Forall_fmap. eapply List.Forall_impl; [|exact H]. intros x Hx; cbn in Hx |- *.
    change 31 with (2 ^ 5 - 1). rewrite land_ones_mod by lia.
    pose proof (Z.mod_pos_bound x (2 ^ 5) ltac:(lia)). lia.
Qed.

Lemma checksum_verifies hrp data :
  Forall (fun v => is_byte v) hrp -> Forall (fun v => is_byte v) data ->
  bech32VerifyChecksum hrp (data ++ bech32Checksum hrp data) = true.
Proof.
  intros Hh Hd. unfold bech32VerifyChecksum. apply Z.eqb_eq.
  unfold bech32Checksum. rewrite !app_assoc. apply checksum_verifies_gen.
  apply Forall_app; split; [by apply sane_expand|by apply sane_bytes].
Qed.

(** ** Round trip *)

Abbreviation is_symbol v := (0 <= v < 32).

Definition char (v : Z) : Z := nth (Z.to_nat v) charset 0.

(** A byte an encoded string may hold before its separator. *)
Definition lower_ascii (c : Z) : Prop := 33 <= c <= 126 /\ (c < 65 \/ 90 < c).

Lemma to_lower_id c : lower_ascii c -> to_lower c = c.
Proof. unfold lower_ascii, to_lower. repeat zcase; cbn; lia. Qed.

(** The facts about the 32 characters, checked one by one. *)
Definition char_ok (v : Z) : bool :=
  bool_decide (index_byte charset (char v) = Some (Z.to_nat v))
  && (33 <=? char v) && (char v <=? 126) && ((char v <? 65) || (90 <? char v))
  && negb (char v =? 49).

Lemma char_facts v :
  is_symbol v -> index_byte charset (char v) = Some (Z.to_nat v) /\ lower_ascii (char v) /\ char v <> 49.
Proof.
  intros Hv. assert (char_ok v = true) as H.
  { apply (Z_bounded_check char_ok 32); [vm_compute; reflexivity|done]. }
  unfold char_ok in H. rewrite !andb_true_iff, orb_true_iff, negb_true_iff in H.
  destruct H as [[[[H1 H2] H3] H4] H5]. apply bool_decide_eq_true in H1.
  unfold lower_ascii. split_and!; [done|lia|lia|lia|lia].
Qed.

Lemma toChars_ok data : Forall (fun v => is_symbol v) data -> toChars data = Ok (map char data).
Proof.
  induction 1 as [|v data Hv _ IH]; cbn [toChars map]; [done|].
  change (Z.of_nat (length charset)) with 32. rewrite Z.geb_leb.
  destruct (Z.leb_spec 32 v); [lia|]. by rewrite IH.
Qed.

Lemma toBytes_ok data : Forall (fun v => is_symbol v) data -> toBytes (map char data) = Ok data.
Proof.
  induction 1 as [|v data Hv _ IH]; cbn [toBytes map]; [done|].
  destruct (char_facts v Hv) as (-> & _). rewrite IH, Z2Nat.id by lia. done.
Qed.

Lemma checksum_is_symbols hrp data : Forall (fun v => is_symbol v) (bech32Checksum hrp data).
Proof.
  unfold bech32Checksum. apply List.Forall_map, List.Forall_forall. intros i _.
  change 31 with (2 ^ 5 - 1). rewrite land_ones_mod by lia. change (2 ^ 5) with 32.
  match goal with |- context [?x mod 32] => pose proof (Z.mod_pos_bound x 32 ltac:(lia)) end.
  by rewrite u8_small by lia.
Qed.

Lemma length_checksum hrp data : length (bech32Checksum hrp data) = 6%nat.
Proof. done. Qed.

Lemma last_index_byte_app l r c :
  Forall (fun x => x <> c) r -> last_index_byte (l ++ c :: r) c = Some (length l).
Proof.
  intros Hr. unfold last_index_byte.
  assert (reverse (l ++ c :: r) = reverse r ++ c :: reverse l) as ->.
  { rewrite reverse_app, reverse_cons, <- app_assoc. done. }
  rewrite find_index_app; [|apply Forall_reverse; eapply Forall_weaken; [done|]|apply Z.eqb_refl].
  - f_equal. rewrite length_app, length_reverse; cbn. lia.
  - cbn; lia.
Qed.

Lemma Decode_Encode_gen (hrp data : bytes)
    (Hhrp : Forall lower_ascii hrp) (Hne : hrp <> [])
    (Hdata : Forall (fun v => is_symbol v) data)
    (Hlen : (length hrp + 1 + length data + 6 <= 90)%nat) :
  exists s, Encode hrp data = Ok s /\ Decode s = Ok (hrp, data).
Proof.
  set (chk := bech32Checksum hrp data). set (all := data ++ chk).
  assert (Forall (fun v => is_symbol v) all) as Hall
    by (apply Forall_app; split; [done|apply checksum_is_symbols]).
  set (cs := map char all). exists (hrp ++ 49 :: cs).
  assert (Forall (fun c => lower_ascii c /\ c <> 49) cs) as Hcs.
  { apply List.Forall_map. eapply Forall_weaken; [exact Hall|]. intros v Hv. by apply char_facts. }
  assert (Forall lower_ascii (hrp ++ 49 :: cs)) as Hlow.
  { apply Forall_app. split; [done|]. constructor; [unfold lower_ascii; lia|].
    eapply Forall_weaken; [exact Hcs|]. by intros c []. }
  assert (length cs = length data + 6)%nat as Hlcs.
  { unfold cs, all. by rewrite length_map, length_app. }
  assert (0 < length hrp)%nat as Hlh by (destruct hrp; cbn; [done|lia]).
  split.
  { unfold Encode. fold chk all. rewrite toChars_ok by done. done. }
  unfold Decode. rewrite length_app; cbn [length]. rewrite Hlcs.
  replace ((Z.of_nat (length hrp + S (length data + 6)) <? 8)
           || (Z.of_nat (length hrp + S (length data + 6)) >? 90)) with false
    by (symmetry; apply orb_false_iff; split; [apply Z.ltb_ge|rewrite Z.gtb_ltb; apply Z.ltb_ge]; lia).
  rewrite existsb_false
    by (eapply Forall_weaken; [exact Hlow|]; unfold lower_ascii; intros c Hc; apply orb_false_iff; lia).
  rewrite (map_id_Forall to_lower) by (eapply Forall_weaken; [exact Hlow|]; apply to_lower_id).
  rewrite bool_decide_eq_true_2 by done. cbn [negb andb].
  rewrite last_index_byte_app by (eapply Forall_weaken; [exact Hcs|]; by intros c []).
  rewrite length_app; cbn [length]; rewrite Hlcs.
  replace (length hrp <? 1)%nat with false by (symmetry; apply Nat.ltb_ge; lia).
  replace (length hrp + S (length data + 6) <? length hrp + 7)%nat with false
    by (symmetry; apply Nat.ltb_ge; lia).
  cbn [orb]. rewrite take_app_length, drop_app_ge by lia.
  replace (length hrp + 1 - length hrp)%nat with 1%nat by lia. cbn [drop].
  unfold cs. rewrite drop_0, toBytes_ok by done.
  unfold all, chk. rewrite checksum_verifies.
  - cbn [negb]. rewrite length_app, length_checksum, Nat.add_sub. by rewrite take_app_length.
  - eapply Forall_weaken; [exact Hhrp|]. unfold lower_ascii; intros; lia.
  - eapply Forall_weaken; [exact Hdata|]. intros; cbn in *; lia.
Qed.

(** [Decode] undoes [Encode]: every human-readable part without capitals
    and every data part of 5-bit symbols that fit the ninety characters of a
    bech32 string come back unchanged. *)
Theorem Decode_Encode (hrp data : bytes)
    (Hhrp : Forall lower_ascii hrp) (Hne : hrp <> [])
    (Hdata : Forall (fun v => is_symbol v) data)
    (Hlen : (length hrp + 1 + length data + 6 <= 90)%nat) :
  exists s, Encode hrp data = Ok s /\ Decode s = Ok (hrp, data).
Proof. by apply Decode_Encode_gen. Qed.

Lemma Decode_Encode_witness :
  exists s, Encode (str "nts") [0; 31; 7; 16; 1] = Ok s /\
    Decode s = Ok (str "nts", [0; 31; 7; 16; 1]).
Proof.
  apply (Decode_Encode (str "nts") [0; 31; 7; 16; 1]).
  - cbn. unfold lower_ascii. repeat constructor; lia.
  - done.
  - repeat constructor; lia.
  - cbn. lia.
Defined.

(** ** Error detection *)

Lemma gsum_low b : 0 <= b < 32 -> gsum b 0 gen mod 32 = 0 -> b = 0.
Proof.
  intros Hb E. set (ok := fun b => negb (gsum b 0 gen mod 32 =? 0) || (b =? 0)).
  assert (ok b = true) as H by (apply (Z_bounded_check ok 32); [vm_compute; reflexivity|done]).
  unfold ok in H. rewrite E in H. cbn in H. by apply Z.eqb_eq.
Qed.

(** The register never falls back to zero: the step is injective. *)
Lemma polymod_step_nonzero x : 0 <= x < 2 ^ 30 -> x <> 0 -> polymod_step x 0 <> 0.
Proof.
  intros Hx Hne. unfold polymod_step. rewrite polymod_gens_gsum by lia. rewrite Z.lxor_0_r.
  change 0x1ffffff with (2 ^ 25 - 1). rewrite land_ones_mod, Z.shiftl_mul_pow2 by lia.
  rewrite Z.shiftr_div_pow2 by lia. intros E%Z.lxor_eq.
  assert (0 <= x / 2 ^ 25 < 32) as Hb by (Z.div_mod_to_equations; lia).
  assert (x / 2 ^ 25 = 0) as Hq.
  { apply gsum_low; [done|]. rewrite <- E. change (2 ^ 5) with 32. by rewrite Z.mod_mul. }
  rewrite Hq, gsum_0 in E. Z.div_mod_to_equations; lia.
Qed.

Lemma polymod_zeros_nonzero x n :
  0 <= x < 2 ^ 30 -> x <> 0 -> foldl polymod_step x (replicate n 0) <> 0.
Proof.
  revert x. induction n as [|n IH]; intros x Hx Hne; cbn [replicate foldl]; [done|].
  apply IH; [apply polymod_step_bound; lia|by apply polymod_step_nonzero].
Qed.

Lemma zip_lxor_same l : zip_with Z.lxor l l = replicate (length l) 0.
Proof. induction l as [|x l IH]; cbn; [done|]. by rewrite Z.lxor_nilpotent, IH. Qed.

Lemma polymod_zero_zeros n : foldl polymod_step 0 (replicate n 0) = 0.
Proof. induction n as [|n IH]; cbn [replicate foldl]; [done|exact IH]. Qed.

(** mistyping one symbol of a valid bech32 string is always noticed:
    no two data parts that differ in exactly one 5-bit symbol both verify. *)
Theorem single_error_detected (hrp d1 d2 : bytes) (v v' : Z)
    (Hv : is_symbol v) (Hv' : is_symbol v') (Hne : v <> v')
    (Hok : bech32VerifyChecksum hrp (d1 ++ v :: d2) = true) :
  bech32VerifyChecksum hrp (d1 ++ v' :: d2) = false.
Proof.
  unfold bech32VerifyChecksum, bech32Polymod in *. apply Z.eqb_eq in Hok. apply Z.eqb_neq. intros Hok'.
  rewrite app_assoc in *. set (l := bech32HrpExpand hrp ++ d1) in *.
  pose proof (polymod_fold_lxor 1 1 (l ++ v :: d2) (l ++ v' :: d2)) as E.
  rewrite !length_app in E. specialize (E eq_refl). rewrite Hok, Hok', !Z.lxor_nilpotent in E.
  rewrite zip_with_app in E by done. cbn [zip_with] in E. rewrite !zip_lxor_same, foldl_app in E.
  cbn [foldl] in E. rewrite polymod_zero_zeros in E.
  assert (0 <= Z.lxor v v' < 2 ^ 5) as Hx by (apply lxor_bound; lia).
  rewrite polymod_step_small in E by lia. apply polymod_zeros_nonzero in E; [done|lia|].
  intros H0. apply Hne, Z.lxor_eq. lia.
Qed.

Lemma single_error_detected_witness :
  bech32VerifyChecksum (str "nts") ([1; 2] ++ 3 :: bech32Checksum (str "nts") [1; 2; 3]) = true /\
  bech32VerifyChecksum (str "nts") ([1; 2] ++ 4 :: bech32Checksum (str "nts") [1; 2; 3]) = false.
Proof.
  split; [vm_compute; reflexivity|].
  apply (single_error_detected (str "nts") [1; 2] (bech32Checksum (str "nts") [1; 2; 3]) 3 4);
    [lia|lia|lia|vm_compute; reflexivity].
Defined.

End Bech32.


Import Bech32.

Module BitGroups.

(** The number whose base-[2^w] digits are [l]. *)
Definition value (w : Z) (l : bytes) : Z := foldl (fun acc d => acc * 2 ^ w + d) 0 l.

Definition digits (w : Z) (l : bytes) : Prop := Forall (fun d => 0 <= d < 2 ^ w) l.

Lemma value_snoc w l d : value w (l ++ [d]) = value w l * 2 ^ w + d.
Proof. unfold value. by rewrite foldl_app. Qed.

Lemma digits_snoc w l d : digits w l -> 0 <= d < 2 ^ w -> digits w (l ++ [d]).
Proof. intros H Hd. apply Forall_app. split; [done|]. constructor; [done|constructor]. Qed.

Lemma value_inj w l1 l2 :
  0 <= w -> digits w l1 -> digits w l2 -> length l1 = length l2 -> value w l1 = value w l2 -> l1 = l2.
Proof.
  intros Hw. revert l2. induction l1 as [|d1 l1 IH] using rev_ind; intros l2 H1 H2 Hlen E.
  { by destruct l2. }
  destruct l2 as [|d2 l2 _] using rev_ind.
  { rewrite length_app in Hlen. cbn in Hlen. lia. }
  rewrite !length_app in Hlen. cbn in Hlen. rewrite !value_snoc in E.
  apply Forall_app in H1 as [H1 Hd1], H2 as [H2 Hd2]. inversion_clear Hd1. inversion_clear Hd2.
  assert (value w l1 = value w l2 /\ d1 = d2) as [Ev ->]
    by (apply (Z.div_mod_unique (2 ^ w)); [by left|by left|lia]).
  f_equal. apply IH; [done..|lia|done].
Qed.

(** The state between two bytes of the input. *)
Record state_ok (to : Z) (rg : bytes) (nb fb : Z) : Prop := {
  so_filled : 0 <= fb < to;
  so_next : 0 <= nb < 2 ^ fb;
  so_digits : digits to rg
}.

Definition total (to : Z) (rg : bytes) (nb fb : Z) : Z := value to rg * 2 ^ fb + nb.
Definition bits (to : Z) (rg : bytes) (fb : Z) : Z := to * Z.of_nat (length rg) + fb.

Lemma pow_split a b : 0 <= a <= b -> 2 ^ b = 2 ^ (b - a) * 2 ^ a.
Proof. intros. rewrite <- Z.pow_add_r by lia. f_equal. lia. Qed.

(** Splitting off the [te] top bits of a byte. *)
Lemma byte_split b te :
  is_byte b -> 0 <= te <= 8 ->
  b = Z.shiftr b (8 - te) * 2 ^ (8 - te) + b mod 2 ^ (8 - te) /\
  0 <= Z.shiftr b (8 - te) < 2 ^ te /\ u8 (Z.shiftl b te) = (b mod 2 ^ (8 - te)) * 2 ^ te.
Proof.
  intros Hb Hte. rewrite Z.shiftr_div_pow2, Z.shiftl_mul_pow2 by lia. unfold u8.
  assert (0 < 2 ^ (8 - te)) by (apply Z.pow_pos_nonneg; lia).
  assert (0 < 2 ^ te) by (apply Z.pow_pos_nonneg; lia).
  assert (2 ^ 8 = 2 ^ (8 - te) * 2 ^ te) as E8 by (apply pow_split; lia).
  split_and!.
  - rewrite Z.mul_comm. apply Z.div_mod. lia.
  - apply Z.div_pos; lia.
  - apply Z.div_lt_upper_bound; [done|]. change (2 ^ 8) with 256 in E8. nia.
  - rewrite E8. rewrite Z.mul_mod_distr_r; lia.
Qed.

Lemma append_bits nb fb te h :
  0 <= nb < 2 ^ fb -> 0 <= fb -> 0 <= te -> fb + te <= 8 -> 0 <= h < 2 ^ te ->
  Z.lor (u8 (Z.shiftl nb te)) h = nb * 2 ^ te + h /\ 0 <= nb * 2 ^ te + h < 2 ^ (fb + te).
Proof.
  intros Hnb Hf Ht Hft Hh.
  assert (0 < 2 ^ te) by (apply Z.pow_pos_nonneg; lia).
  assert (2 ^ (fb + te) = 2 ^ fb * 2 ^ te) as E by (apply Z.pow_add_r; lia).
  assert (2 ^ (fb + te) <= 2 ^ 8) by (apply Z.pow_le_mono_r; lia).
  split; [|nia].
  rewrite u8_small; [apply lor_shiftl_add; lia|]. rewrite Z.shiftl_mul_pow2 by lia.
  change (2 ^ 8) with 256 in *. nia.
Qed.

(** The remaining bits of a byte once [te] of them are taken. *)
Lemma rest_bits b te rem :
  is_byte b -> 0 <= te <= rem -> rem <= 8 ->
  Z.shiftr b (8 - rem)
  = Z.shiftr b (8 - te) * 2 ^ (rem - te) + Z.shiftr (u8 (Z.shiftl b te)) (8 - (rem - te)).
Proof.
  intros Hb Hte Hrem. destruct (byte_split b te Hb ltac:(lia)) as (E & _ & ->).
  set (h := Z.shiftr b (8 - te)) in *. set (l := b mod 2 ^ (8 - te)) in *.
  rewrite !Z.shiftr_div_pow2 by lia. rewrite E.
  replace (2 ^ (8 - te)) with (2 ^ (rem - te) * 2 ^ (8 - rem))
    by (rewrite <- Z.pow_add_r by lia; f_equal; lia).
  replace (2 ^ (8 - (rem - te))) with (2 ^ (8 - rem) * 2 ^ te)
    by (rewrite <- Z.pow_add_r by lia; f_equal; lia).
  assert (0 < 2 ^ te) by (apply Z.pow_pos_nonneg; lia).
  assert (0 < 2 ^ (8 - rem)) by (apply Z.pow_pos_nonneg; lia).
  rewrite Z.div_mul_cancel_r by lia.
  rewrite Z.mul_assoc, Z.div_add_l by lia. lia.
Qed.

Lemma convert_byte_spec fuel to b rem nb fb rg nb' fb' rg' :
  1 <= to <= 8 -> 0 <= rem <= 8 -> rem <= Z.of_nat fuel -> is_byte b -> state_ok to rg nb fb ->
  convert_byte fuel to b rem nb fb rg = (nb', fb', rg') ->
  state_ok to rg' nb' fb' /\
  total to rg' nb' fb' = total to rg nb fb * 2 ^ rem + Z.shiftr b (8 - rem) /\
  bits to rg' fb' = bits to rg fb + rem.
Proof.
  intros Hto. revert b rem nb fb rg. induction fuel as [|fuel IH]; intros b rem nb fb rg Hrem Hfuel Hb S E;
    cbn [convert_byte] in E.
  { injection E as <- <- <-. assert (rem = 0) as -> by lia.
    rewrite Z.shiftr_div_pow2 by lia. change (2 ^ (8 - 0)) with 256. rewrite Z.div_small by lia.
    split_and!; [done|lia|lia]. }
  rewrite Z.gtb_ltb in E. destruct (Z.ltb_spec 0 rem) as [Hpos|]; cycle 1.
  { injection E as <- <- <-. assert (rem = 0) as -> by lia.
    rewrite Z.shiftr_div_pow2 by lia. change (2 ^ (8 - 0)) with 256. rewrite Z.div_small by lia.
    split_and!; [done|lia|lia]. }
  destruct S as [Hfb Hnb Hrg]. rewrite (u8_small (to - fb)) in E by lia.
  set (te := if to - fb <? rem then to - fb else rem) in *.
  assert (0 < te <= rem /\ fb + te <= to) as [Hte Hft] by (subst te; zcase; lia).
  destruct (byte_split b te Hb ltac:(lia)) as (_ & Hh & _).
  destruct (append_bits nb fb te (Z.shiftr b (8 - te))) as [En Hn]; [lia..|].
  rewrite En in E. rewrite (u8_small (rem - te)), (u8_small (fb + te)) in E by lia.
  rewrite (rest_bits b te rem) by lia.
  replace (2 ^ rem) with (2 ^ te * 2 ^ (rem - te)) by (rewrite <- Z.pow_add_r by lia; f_equal; lia).
  set (nb1 := nb * 2 ^ te + Z.shiftr b (8 - te)) in *.
  destruct (Z.eqb_spec (fb + te) to) as [Ef|Ef].
  - apply IH in E as (S' & Et & Eb); [|lia|lia|apply u8_range|].
    + split_and!; [done| |].
      * rewrite Et. unfold total. rewrite value_snoc. rewrite <- Ef, Z.pow_add_r by lia.
        cbn [Z.pow]. lia.
      * rewrite Eb. unfold bits. rewrite length_app, Nat2Z.inj_add. cbn [length]. lia.
    + constructor; [lia|cbn; lia|]. apply digits_snoc; [done|]. by rewrite <- Ef.
  - apply IH in E as (S' & Et & Eb); [|lia|lia|apply u8_range|by constructor; [lia| |]].
    split_and!; [done| |].
    + rewrite Et. unfold total. rewrite Z.pow_add_r by lia. lia.
    + rewrite Eb. unfold bits. lia.
Qed.

Lemma convert_data_cons d data from to nb fb rg :
  convert_data (d :: data) from to nb fb rg
  = (let '(nb1, fb1, rg1) := convert_byte 8 to (u8 (Z.shiftl d (8 - from))) from nb fb rg in
     convert_data data from to nb1 fb1 rg1).
Proof. reflexivity. Qed.

Lemma convert_data_snoc data d from to nb fb rg nb' fb' rg' :
  convert_data (data ++ [d]) from to nb fb rg = (nb', fb', rg') ->
  exists nb1 fb1 rg1, convert_data data from to nb fb rg = (nb1, fb1, rg1) /\
    convert_byte 8 to (u8 (Z.shiftl d (8 - from))) from nb1 fb1 rg1 = (nb', fb', rg').
Proof.
  revert nb fb rg. induction data as [|d0 data IH]; intros nb fb rg E.
  - change ([] ++ [d]) with [d] in E. rewrite convert_data_cons in E. exists nb, fb, rg.
    split; [reflexivity|]. destruct (convert_byte 8 _ _ _ _ _ _) as [[n f] r].
    rewrite <- E. reflexivity.
  - change ((d0 :: data) ++ [d]) with (d0 :: (data ++ [d])) in E. rewrite convert_data_cons in E.
    rewrite convert_data_cons. destruct (convert_byte 8 _ _ _ _ _ _) as [[n f] r].
    apply IH, E.
Qed.

Lemma convert_data_spec data from to nb fb rg nb' fb' rg' :
  1 <= from <= 8 -> 1 <= to <= 8 -> digits from data -> state_ok to rg nb fb ->
  convert_data data from to nb fb rg = (nb', fb', rg') ->
  state_ok to rg' nb' fb' /\
  total to rg' nb' fb'
    = total to rg nb fb * 2 ^ (from * Z.of_nat (length data)) + value from data /\
  bits to rg' fb' = bits to rg fb + from * Z.of_nat (length data).
Proof.
  intros Hfrom Hto. revert nb fb rg nb' fb' rg'.
  induction data as [|d data IH] using rev_ind; intros nb fb rg nb' fb' rg' Hd S E.
  { cbn [convert_data] in E. injection E as <- <- <-. cbn [length value foldl]. rewrite Z.mul_0_r. split_and!; [done|lia|lia]. }
  apply Forall_app in Hd as [Hd Hd1]. inversion_clear Hd1.
  assert (exists nb1 fb1 rg1, convert_data data from to nb fb rg = (nb1, fb1, rg1) /\
    convert_byte 8 to (u8 (Z.shiftl d (8 - from))) from nb1 fb1 rg1 = (nb', fb', rg'))
    as (nb1 & fb1 & rg1 & E1 & E2).
  { by apply convert_data_snoc. }
  destruct (IH _ _ _ _ _ _ Hd S E1) as (S1 & T1 & B1).
  assert (u8 (Z.shiftl d (8 - from)) = d * 2 ^ (8 - from)) as Eu.
  { rewrite Z.shiftl_mul_pow2 by lia. apply u8_small.
    assert (2 ^ 8 = 2 ^ (8 - from) * 2 ^ from) as E8 by (apply pow_split; lia).
    change (2 ^ 8) with 256 in E8. assert (0 < 2 ^ (8 - from)) by (apply Z.pow_pos_nonneg; lia). nia. }
  apply convert_byte_spec in E2 as (S2 & T2 & B2); [|done|lia|lia|apply u8_range|done].
  assert (Z.shiftr (d * 2 ^ (8 - from)) (8 - from) = d) as Es
    by (rewrite Z.shiftr_div_pow2 by lia; apply Z.div_mul, Z.pow_nonzero; lia).
  rewrite Eu, Es in T2.
  rewrite length_app, Nat2Z.inj_add, value_snoc. cbn [length].
  replace (from * (Z.of_nat (length data) + Z.of_nat 1)) with (from * Z.of_nat (length data) + from) by lia.
  split_and!; [done| |lia]. rewrite T2, T1, Z.pow_add_r by lia. lia.
Qed.

Lemma state_ok_start to : 1 <= to -> state_ok to [] 0 0.
Proof. intros; constructor; [lia|cbn; lia|constructor]. Qed.

(** Converting from scratch. *)
Lemma convert_data_start data from to nb fb rg :
  1 <= from <= 8 -> 1 <= to <= 8 -> digits from data ->
  convert_data data from to 0 0 [] = (nb, fb, rg) ->
  state_ok to rg nb fb /\ value to rg * 2 ^ fb + nb = value from data /\
  to * Z.of_nat (length rg) + fb = from * Z.of_nat (length data).
Proof.
  intros Hf Ht Hd E. apply convert_data_spec in E as (S & T & B); [|done..|apply state_ok_start; lia].
  split; [done|]. unfold total, bits in *. cbn in T, B. lia.
Qed.

Lemma groups_ok from to : 1 <= from <= 8 -> 1 <= to <= 8 ->
  (from <? 1) || (from >? 8) || (to <? 1) || (to >? 8) = false.
Proof. intros. rewrite !Z.gtb_ltb. rewrite !orb_false_iff, !Z.ltb_ge. lia. Qed.

(** What [ConvertBits] yields when it pads: the same number, shifted left by
    fewer than [to] zero bits, in the least number of groups. *)
Lemma ConvertBits_pad data from to :
  1 <= from <= 8 -> 1 <= to <= 8 -> digits from data ->
  exists rg p, ConvertBits data from to true = Ok rg /\ digits to rg /\ 0 <= p < to /\
    value to rg = value from data * 2 ^ p /\
    to * Z.of_nat (length rg) = from * Z.of_nat (length data) + p.
Proof.
  intros Hf Ht Hd. unfold ConvertBits. rewrite groups_ok by done.
  destruct (convert_data data from to 0 0 []) as [[nb fb] rg] eqn:E.
  destruct (convert_data_start _ _ _ _ _ _ Hf Ht Hd E) as ([Hfb Hnb Hrg] & V & B).
  rewrite Z.gtb_ltb. destruct (Z.ltb_spec 0 fb) as [Hpos|]; cbn [andb].
  - assert (u8 (Z.shiftl nb (to - fb)) = nb * 2 ^ (to - fb)) as ->.
    { assert (0 < 2 ^ (to - fb)) by (apply Z.pow_pos_nonneg; lia).
      destruct (append_bits nb fb (to - fb) 0) as [E0 _]; [lia..|].
      rewrite Z.lor_0_r in E0. lia. }
    assert (2 ^ to = 2 ^ (to - fb) * 2 ^ fb) as Es by (apply pow_split; lia).
    assert (0 < 2 ^ (to - fb)) by (apply Z.pow_pos_nonneg; lia).
    eexists _, (to - fb). split; [reflexivity|]. split_and!; [|lia|lia|..].
    + apply digits_snoc; [done|]. rewrite Es. nia.
    + rewrite value_snoc, <- V, Es. ring.
    + rewrite length_app, Nat2Z.inj_add. cbn [length]. lia.
  - assert (fb = 0) as -> by lia. cbn in Hnb, V. cbn.
    exists rg, 0. split_and!; [done..|lia|lia|lia|lia].
Qed.

(** And without padding, on a number whose superfluous low bits, fewer than
    five, are zero. *)
Lemma ConvertBits_nopad data from to p v :
  1 <= from <= 8 -> 1 <= to <= 8 -> digits from data ->
  0 <= p < to -> p <= 4 -> value from data = v * 2 ^ p ->
  (from * Z.of_nat (length data)) mod to = p ->
  exists rg, ConvertBits data from to false = Ok rg /\ digits to rg /\ value to rg = v /\
    to * Z.of_nat (length rg) + p = from * Z.of_nat (length data).
Proof.
  intros Hf Ht Hd Hp Hp4 Hv Hm. unfold ConvertBits. rewrite groups_ok by done.
  destruct (convert_data data from to 0 0 []) as [[nb fb] rg] eqn:E.
  destruct (convert_data_start _ _ _ _ _ _ Hf Ht Hd E) as ([Hfb Hnb Hrg] & V & B).
  assert (fb = p) as ->.
  { rewrite <- B, Z.add_comm, Z.mul_comm, Z.mod_add, Z.mod_small in Hm; lia. }
  assert (value to rg = v /\ nb = 0) as [Ev ->].
  { apply (Z.div_mod_unique (2 ^ p)); [by left|left; assert (0 < 2 ^ p) by (apply Z.pow_pos_nonneg; lia); lia|lia]. }
  exists rg. cbn [andb Z.eqb negb]. rewrite orb_false_r.
  assert (p >? 4 = false) as -> by (rewrite Z.gtb_ltb; apply Z.ltb_ge; lia).
  rewrite andb_false_r. by split_and!.
Qed.

(** regrouping loses nothing.  For any group widths with [to] at most
    five, or any bytes put into 5-bit groups and back: padding into [to]-bit
    groups and regrouping to [from] bits without padding gives the data back. *)
Theorem ConvertBits_roundtrip (data : bytes) (from to : Z)
    (Hfrom : 1 <= from <= 8) (Hto : 1 <= to <= 5) (Hle : to <= from) (Hd : digits from data) :
  exists groups, ConvertBits data from to true = Ok groups /\ digits to groups /\
    ConvertBits groups to from false = Ok data.
Proof.
  destruct (ConvertBits_pad data from to) as (rg & p & E & Hrg & Hp & V & B); [lia..|done|].
  exists rg. split_and!; [done..|].
  destruct (ConvertBits_nopad rg to from p (value from data)) as (rg' & E' & Hrg' & V' & B');
    [lia..|done|lia|lia|done| |].
  { rewrite B, Z.add_comm, Z.mul_comm, Z.mod_add by lia. apply Z.mod_small. lia. }
  rewrite E'. f_equal. apply (value_inj from); [lia|done|done| |done].
  apply Nat2Z.inj. nia.
Qed.

Lemma ConvertBits_roundtrip_witness :
  exists groups, ConvertBits [255; 0; 18; 7] 8 5 true = Ok groups /\ digits 5 groups /\
    ConvertBits groups 5 8 false = Ok [255; 0; 18; 7].
Proof.
  apply (ConvertBits_roundtrip [255; 0; 18; 7] 8 5); [lia|lia|lia|].
  repeat (constructor; [lia|]). constructor.
Defined.

End BitGroups.
