(* ===== verification/Address.v ===== *)
(** Account addresses ([src/common/account.go], [src/common/types.go]): a
    20-byte hash with its human-readable part and its cached bech32 string.

    Chain parameters ([src/params]) that are derived by hashing. *)
From S2P Require Import Prelude Bech32.

Import Bech32 BitGroups.

Module Address.

Definition AddressLength : nat := 20.
Definition AccountPrefix : bytes := str "nts".
Definition ContractPrefix : bytes := str "nsc".
Definition emptyAddrJsonDecode : bytes := str "nts100000000000000000000000000000000000000".
Definition contractHashPrefix : bytes := [1; 1; 1; 1].

Record Address := mkAddress { hash : bytes; hrp : bytes; text : bytes }.

#[global] Instance Address_eq_dec : EqDecision Address.
Proof. solve_decision. Defined.

#[global] Instance Address_countable : Countable Address.
Proof.
  refine (inj_countable' (fun a => (hash a, hrp a, text a))
            (fun '(h, p, t) => mkAddress h p t) _).
  by intros [].
Defined.

(** [Address{}], the zero value. *)
Definition zeroAddress : Address := mkAddress (replicate AddressLength 0) [] [].

Definition Empty (a : Address) : bool := bool_decide (hash a = replicate AddressLength 0).
Definition Equal (a b : Address) : bool := bool_decide (hash a = hash b).
Definition IsContract (a : Address) : bool := bool_decide (hrp a = ContractPrefix).

Definition isContractAddressHash (h : bytes) : bool :=
  bool_decide (take (length contractHashPrefix) h = contractHashPrefix).

Inductive error :=
| ErrBech32 (e : Bech32.error)
| ErrDataLength
| ErrInvalidAddress
| ErrContractHash
| ErrPrefix.

Definition decodeSegWitAddress (address : bytes) : result error (bytes * bytes) :=
  match Decode address with
  | Err e => Err (ErrBech32 e)
  | Ok (hrp, data) =>
      match ConvertBits data 5 8 false with
      | Err e => Err (ErrBech32 e)
      | Ok regrouped =>
          if negb (length regrouped =? 20)%nat then Err ErrDataLength
          else Ok (hrp, regrouped)
      end
  end.

Definition encodeSegWitAddress (hrp pubkeyHash : bytes) : result error bytes :=
  match ConvertBits pubkeyHash 8 5 true with
  | Err e => Err (ErrBech32 e)
  | Ok converted =>
      match Encode hrp converted with
      | Err e => Err (ErrBech32 e)
      | Ok bech =>
          match decodeSegWitAddress bech with
          | Err e => Err ErrInvalidAddress
          | Ok (_, program) =>
              if negb (bool_decide (program = pubkeyHash)) then Err ErrInvalidAddress
              else Ok bech
          end
      end
  end.

(** [Address.String]. *)
Definition String_ (a : Address) : bytes :=
  if Empty a then emptyAddrJsonDecode
  else if negb (bool_decide (text a = [])) then text a
  else
    match encodeSegWitAddress (hrp a) (hash a) with
    | Err _ => str "<invalid address>"
    | Ok s => s
    end.

(** [copy(a.hash[AddressLength-len(b):], b)] after keeping the last 20 bytes. *)
Definition BytesToAddress (b : bytes) : Address :=
  let b := if (AddressLength <? length b)%nat then drop (length b - AddressLength) b else b in
  let h := replicate (AddressLength - length b) 0 ++ b in
  let hrp := if isContractAddressHash h then ContractPrefix else AccountPrefix in
  let a := mkAddress h hrp [] in
  mkAddress h hrp (String_ a).

Definition Big (a : Address) : Z := be_value (hash a).

Definition DecodeAddress (address : bytes) : result error Address :=
  if bool_decide (address = []) || bool_decide (address = emptyAddrJsonDecode)
  then Ok zeroAddress
  else
    match decodeSegWitAddress address with
    | Err e => Err e
    | Ok (hrp, pubkeyHash) =>
        if bool_decide (hrp = ContractPrefix) then
          if negb (isContractAddressHash pubkeyHash) then Err ErrContractHash
          else Ok (mkAddress pubkeyHash hrp address)
        else if bool_decide (hrp = AccountPrefix) then
          if isContractAddressHash pubkeyHash then Err ErrContractHash
          else Ok (mkAddress pubkeyHash hrp address)
        else Err ErrPrefix
    end.

(** ** Text round trip *)

Lemma digits_8 l : Forall (fun b => is_byte b) l -> digits 8 l.
Proof. done. Qed.

(** The text of a 20-byte hash under one of the two prefixes: it exists, it is
    not one of the special texts, and it decodes to prefix and hash. *)
Lemma segwit_roundtrip prefix h :
  prefix = AccountPrefix \/ prefix = ContractPrefix ->
  length h = AddressLength -> Forall (fun b => is_byte b) h ->
  exists t, encodeSegWitAddress prefix h = Ok t /\ decodeSegWitAddress t = Ok (prefix, h).
Proof.
  intros Hp Hl Hb.
  assert (length prefix = 3%nat /\ Forall lower_ascii prefix) as [Hp3 Hplow].
  { destruct Hp as [-> | ->]; (split; [done|]); vm_compute; repeat constructor; intros ?; discriminate. }
  destruct (ConvertBits_pad h 8 5) as (g & p & E & Hg & Hpp & V & B); [lia..|done|].
  rewrite Hl in B. change (Z.of_nat AddressLength) with 20 in B. assert (p = 0) as -> by lia.
  assert (length g = 32%nat) as Hlg by lia.
  destruct (ConvertBits_nopad g 5 8 0 (value 8 h)) as (h' & E' & Hh' & V' & B');
    [lia..|done|lia|lia|lia|by rewrite Hlg|].
  assert (h' = h) as ->.
  { apply (value_inj 8); [lia|done|by apply digits_8| |done]. unfold AddressLength in Hl. lia. }
  destruct (Decode_Encode_gen prefix g) as (t & Et & Dt);
    [done|by intros ->|exact Hg|rewrite Hp3, Hlg; lia|].
  assert (decodeSegWitAddress t = Ok (prefix, h)) as D.
  { unfold decodeSegWitAddress. by rewrite Dt, E', Hl. }
  exists t. split; [|done]. unfold encodeSegWitAddress. rewrite E, Et, D.
  by rewrite bool_decide_eq_true_2.
Qed.

Lemma not_special t prefix h : decodeSegWitAddress t = Ok (prefix, h) ->
  bool_decide (t = []) || bool_decide (t = emptyAddrJsonDecode) = false.
Proof.
  intros H. apply orb_false_iff. split; apply bool_decide_eq_false; intros ->.
  - by vm_compute in H.
  - by vm_compute in H.
Qed.

(** The hash [BytesToAddress] makes of a byte string: its last 20 bytes, zeros
    in front. *)
Definition hash_of (b : bytes) : bytes :=
  let b := if (AddressLength <? length b)%nat then drop (length b - AddressLength) b else b in
  replicate (AddressLength - length b) 0 ++ b.

Lemma hash_of_ok b :
  Forall (fun x => is_byte x) b ->
  length (hash_of b) = AddressLength /\ Forall (fun x => is_byte x) (hash_of b).
Proof.
  intros Hb. unfold hash_of. split.
  - rewrite length_app, length_replicate. destruct (Nat.ltb_spec AddressLength (length b)).
    + rewrite length_drop. lia.
    + lia.
  - apply Forall_app. split.
    + apply Forall_replicate. lia.
    + destruct (_ <? _)%nat; [by apply Forall_drop|done].
Qed.

(** an address survives being written and read: for every byte string
    that does not spell the zero address, decoding the text of the address
    made of it yields that very address: hash, prefix and text. *)
Theorem DecodeAddress_String (b : bytes)
    (Hb : Forall (fun x => is_byte x) b) (Hne : Empty (BytesToAddress b) = false) :
  DecodeAddress (String_ (BytesToAddress b)) = Ok (BytesToAddress b).
Proof.
  destruct (hash_of_ok b Hb) as [Hl Hh]. unfold BytesToAddress. fold (hash_of b).
  set (h := hash_of b) in *.
  set (p := if isContractAddressHash h then ContractPrefix else AccountPrefix).
  destruct (segwit_roundtrip p h) as (t & E & D);
    [unfold p; destruct (isContractAddressHash h); auto|done|done|].
  assert (Empty (mkAddress h p []) = false) as He by exact Hne.
  assert (String_ (mkAddress h p []) = t) as Et.
  { unfold String_. rewrite He. cbn [text]. rewrite bool_decide_eq_true_2 by done. cbn [negb hrp hash]. by rewrite E. }
  pose proof (not_special _ _ _ D) as Hs.
  assert (t <> []) as Ht by (intros ->; by vm_compute in D).
  rewrite Et. unfold String_. change (Empty (mkAddress h p t)) with (Empty (mkAddress h p [])).
  rewrite He. cbn [text]. rewrite bool_decide_eq_false_2 by done. cbn [negb].
  unfold DecodeAddress. rewrite Hs, D. unfold p.
  destruct (isContractAddressHash h) eqn:Hc; cbn.
  - rewrite bool_decide_eq_true_2 by done. done.
  - rewrite bool_decide_eq_false_2 by done. by rewrite bool_decide_eq_true_2.
Qed.

Lemma DecodeAddress_String_witness :
  DecodeAddress (String_ (BytesToAddress [1; 2; 3])) = Ok (BytesToAddress [1; 2; 3]).
Proof.
  apply (DecodeAddress_String [1; 2; 3]).
  - repeat (constructor; [lia|]). constructor.
  - vm_compute. reflexivity.
Defined.

End Address.


(** [params.SCAccount], the chain of the system contract. *)
Class Params := { SCAccount : Address.Address }.
