(* ===== verification/EvmWord.v ===== *)
(** Words, stack and memory of the virtual machine ([src/common/math],
    [src/core/vm/evm/stack.go], [memory.go], [common.go], [memory_table.go]).

    A [*big.Int] on the stack is a [Z].  The source recycles these objects
    through [intPool]; an instruction only ever overwrites integers it has
    popped (or the top it replaces) and copies what it keeps, so the values
    are modelled and the sharing is not.  [None] is a Go panic. *)
From S2P Require Import Prelude Bech32 Address.

Module Word.

(** ** common/math *)

Definition tt255 : Z := 2 ^ 255.
Definition tt256 : Z := 2 ^ 256.

Definition U256 (x : Z) : Z := Z.land x (tt256 - 1).

Definition S256 (x : Z) : Z := if x <? tt255 then x else x - tt256.

Definition BigMax (x y : Z) : Z := if x <? y then y else x.
Definition BigMin (x y : Z) : Z := if x >? y then y else x.

(** [big.Int.BitLen], [Uint64], [Int64], [Bytes] of a non-negative integer. *)
Definition BitLen (x : Z) : Z := if x =? 0 then 0 else Z.log2 x + 1.
Definition Uint64 (x : Z) : Z := u64 x.
Definition Int64 (x : Z) : Z := i64 x.
Definition Bytes (x : Z) : bytes := be_bytes (Z.to_nat ((BitLen x + 7) / 8)) x.

(** [big.Int.Bits]: the 64-bit words, least significant first. *)
Fixpoint big_words (n : nat) (x : Z) : list Z :=
  match n with
  | O => []
  | S n' => x mod 2 ^ 64 :: big_words n' (x / 2 ^ 64)
  end.
Definition Bits (x : Z) : list Z := big_words (Z.to_nat ((BitLen x + 63) / 64)) x.

(** The inner loop of [Exp]: [i] bits of one word of the exponent. *)
Fixpoint exp_word (i : nat) (word base result : Z) : Z * Z :=
  match i with
  | O => (base, result)
  | S i' =>
      let result := if Z.land word 1 =? 1 then U256 (result * base) else result in
      exp_word i' (Z.shiftr word 1) (U256 (base * base)) result
  end.

Fixpoint exp_words (ws : list Z) (base result : Z) : Z :=
  match ws with
  | [] => result
  | w :: ws' => let '(base, result) := exp_word 64 w base result in exp_words ws' base result
  end.

Definition Exp (base exponent : Z) : Z := exp_words (Bits exponent) base 1.

(** [words[i]], zero beyond the last word. *)
Definition bigEndianByteAt (x : Z) (n : Z) : Z :=
  let word := nth (Z.to_nat (n / 8)) (Bits x) 0 in
  u8 (Z.shiftr word (8 * (n mod 8))).

Definition Byte (x padlength n : Z) : Z :=
  if n >=? padlength then 0 else bigEndianByteAt x (padlength - 1 - n).

(** [ReadBits]: whole words are written from the end of the buffer on. *)
Definition ReadBits (x : Z) (buf : bytes) : bytes :=
  let k := Nat.min (8 * length (Bits x)) (length buf) in
  take (length buf - k) buf ++ be_bytes k x.

Definition SafeAdd (x y : Z) : Z * bool := (u64 (x + y), y >? MaxUint64 - x).
Definition SafeMul (x y : Z) : Z * bool :=
  if (x =? 0) || (y =? 0) then (0, false) else (u64 (x * y), y >? MaxUint64 / x).
Definition SafeSub (x y : Z) : Z * bool := (u64 (x - y), x <? y).
Definition ForceSafeSub (x y : Z) : Z := if x <=? y then 0 else x - y.

(** ** common.go *)

Definition calcMemSize (off l : Z) : Z := if l =? 0 then 0 else off + l.

(** [common.RightPadBytes]; [l] is an [int]. *)
Definition RightPadBytes (slice : bytes) (l : Z) : bytes :=
  if l <=? Z.of_nat (length slice) then slice
  else slice ++ replicate (Z.to_nat (l - Z.of_nat (length slice))) 0.

Definition getDataBig (data : bytes) (start size : Z) : bytes :=
  let dlen := Z.of_nat (length data) in
  let s := BigMin start dlen in
  let e := BigMin (s + size) dlen in
  RightPadBytes (take (Z.to_nat (e - s)) (drop (Z.to_nat s) data)) (Int64 size).

Definition bigUint64 (v : Z) : Z * bool := (Uint64 v, BitLen v >? 64).

Definition toWordSize (size : Z) : Z :=
  if size >? MaxUint64 - 31 then MaxUint64 / 32 + 1 else u64 (size + 31) / 32.

Definition BigToHash (b : Z) : Z := b mod tt256.
Definition BigToAddress (b : Z) : Address.Address := Address.BytesToAddress (Bytes b).

(** ** stack.go: the top of the stack comes first *)

Definition Stack := list Z.

Definition st_len (st : Stack) : Z := Z.of_nat (length st).

Definition pop (st : Stack) : option (Z * Stack) :=
  match st with [] => None | x :: st' => Some (x, st') end.

Definition Back (st : Stack) (n : nat) : option Z := st !! n.

(** [data[len-n] <-> data[len-1]]. *)
Definition swap (st : Stack) (n : nat) : option Stack :=
  match n, st with
  | S k, x :: st' =>
      match st !! k with
      | None => None
      | Some y => Some (<[k := x]> (<[0%nat := y]> st))
      end
  | _, _ => None
  end.

Definition dup (st : Stack) (n : nat) : option Stack :=
  match n with
  | O => None
  | S k => match st !! k with Some x => Some (x :: st) | None => None end
  end.

(** ** memory.go *)

Record Memory := mkMemory { store : bytes; lastGasCost : Z }.

Definition NewMemory : Memory := mkMemory [] 0.

Definition mem_len (m : Memory) : Z := Z.of_nat (length (store m)).

(** [copy(store[off:off+size], value)]. *)
Definition splice (s : bytes) (off size : nat) (value : bytes) : bytes :=
  let v := take size value in
  take off s ++ v ++ drop (off + length v) s.

(** [Set]; its explicit panic, and the slice bounds when [offset+size] wraps. *)
Definition mem_Set (m : Memory) (offset size : Z) (value : bytes) : option Memory :=
  if size >? 0 then
    if u64 (offset + size) >? mem_len m then None
    else if u64 (offset + size) <? offset then None
    else Some (mkMemory (splice (store m) (Z.to_nat offset) (Z.to_nat size) value) (lastGasCost m))
  else Some m.

Definition mem_Set32 (m : Memory) (offset val : Z) : option Memory :=
  if u64 (offset + 32) >? mem_len m then None
  else if u64 (offset + 32) <? offset then None
  else
    let area := ReadBits val (replicate 32 0) in
    Some (mkMemory (splice (store m) (Z.to_nat offset) 32 area) (lastGasCost m)).

(** The assignment of [opMstore8]. *)
Definition mem_Set8 (m : Memory) (off : Z) (b : Z) : option Memory :=
  if (off <? 0) || (off >=? mem_len m) then None
  else Some (mkMemory (<[Z.to_nat off := b]> (store m)) (lastGasCost m)).

Definition Resize (m : Memory) (size : Z) : Memory :=
  if mem_len m <? size
  then mkMemory (store m ++ replicate (Z.to_nat (size - mem_len m)) 0) (lastGasCost m)
  else m.

(** [Get] and [GetPtr] read the same bytes; both arguments are [int64].  A
    slice beyond [len] is taken to panic even where the capacity allows it. *)
Definition mem_Get (m : Memory) (offset size : Z) : option bytes :=
  if size =? 0 then Some []
  else if mem_len m >? offset then
    if (offset <? 0) || (size <? 0) || (offset + size >? mem_len m) then None
    else Some (take (Z.to_nat size) (drop (Z.to_nat offset) (store m)))
  else Some [].

(** ** memory_table.go *)

Definition mem_size (off l : option Z) : option Z :=
  match off, l with
  | Some off, Some l => Some (calcMemSize off l)
  | _, _ => None
  end.

Definition memorySha3 (st : Stack) : option Z := mem_size (Back st 0) (Back st 1).
Definition memoryCallDataCopy (st : Stack) : option Z := mem_size (Back st 0) (Back st 2).
Definition memoryReturnDataCopy (st : Stack) : option Z := mem_size (Back st 0) (Back st 2).
Definition memoryCodeCopy (st : Stack) : option Z := mem_size (Back st 0) (Back st 2).
Definition memoryExtCodeCopy (st : Stack) : option Z := mem_size (Back st 1) (Back st 3).
Definition memoryMLoad (st : Stack) : option Z := mem_size (Back st 0) (Some 32).
Definition memoryMStore8 (st : Stack) : option Z := mem_size (Back st 0) (Some 1).
Definition memoryMStore (st : Stack) : option Z := mem_size (Back st 0) (Some 32).
Definition memoryCreate (st : Stack) : option Z := mem_size (Back st 1) (Back st 2).
Definition memoryCreate2 (st : Stack) : option Z := mem_size (Back st 1) (Back st 2).

Definition mem_max (x y : option Z) : option Z :=
  match x, y with
  | Some x, Some y => Some (BigMax x y)
  | _, _ => None
  end.

Definition memoryCall (st : Stack) : option Z :=
  mem_max (mem_size (Back st 5) (Back st 6)) (mem_size (Back st 3) (Back st 4)).
Definition memoryDelegateCall (st : Stack) : option Z :=
  mem_max (mem_size (Back st 4) (Back st 5)) (mem_size (Back st 2) (Back st 3)).
Definition memoryStaticCall (st : Stack) : option Z :=
  mem_max (mem_size (Back st 4) (Back st 5)) (mem_size (Back st 2) (Back st 3)).
Definition memoryReturn (st : Stack) : option Z := mem_size (Back st 0) (Back st 1).
Definition memoryRevert (st : Stack) : option Z := mem_size (Back st 0) (Back st 1).
Definition memoryLog (st : Stack) : option Z := mem_size (Back st 0) (Back st 1).

End Word.
