(* ===== verification/EvmAnalysis.v ===== *)
(** Jump destination analysis ([src/core/vm/evm/analysis.go]): the bitmap that
    tells the bytes of a program that are instructions from those that are
    arguments of PUSH instructions. *)
From S2P Require Import Prelude.

Module Analysis.

Abbreviation bitvec := bytes.

(** [bits[pos/8] |= m]; [None] is an index out of range. *)
Definition or_byte (bits : bitvec) (i : Z) (m : Z) : option bitvec :=
  match bits !! Z.to_nat i with
  | Some b => Some (<[Z.to_nat i := Z.lor b m]> bits)
  | None => None
  end.

Definition bit_set (bits : bitvec) (pos : Z) : option bitvec :=
  or_byte bits (pos / 8) (Z.shiftr 0x80 (pos mod 8)).

(** [^(0xFF >> k)] is an 8-bit complement. *)
Definition bit_set8 (bits : bitvec) (pos : Z) : option bitvec :=
  match or_byte bits (pos / 8) (Z.shiftr 0xFF (pos mod 8)) with
  | Some bits => or_byte bits (pos / 8 + 1) (Z.lxor 0xFF (Z.shiftr 0xFF (pos mod 8)))
  | None => None
  end.

(** [codeSegment]; an index out of range panics. *)
Definition codeSegment (bits : bitvec) (pos : Z) : option bool :=
  match bits !! Z.to_nat (pos / 8) with
  | Some b => Some (Z.land b (Z.shiftr 0x80 (pos mod 8)) =? 0)
  | None => None
  end.

(** [for ; numbits >= 8; numbits -= 8], then [for ; numbits > 0; numbits--]:
    [numbits] is at most 32. *)
Fixpoint mark8 (fuel : nat) (bits : bitvec) (pc numbits : Z) : option (bitvec * Z * Z) :=
  match fuel with
  | O => Some (bits, pc, numbits)
  | S fuel' =>
      if numbits >=? 8 then
        match bit_set8 bits pc with
        | Some bits => mark8 fuel' bits (pc + 8) (numbits - 8)
        | None => None
        end
      else Some (bits, pc, numbits)
  end.

Fixpoint mark1 (fuel : nat) (bits : bitvec) (pc numbits : Z) : option (bitvec * Z) :=
  match fuel with
  | O => Some (bits, pc)
  | S fuel' =>
      if numbits >? 0 then
        match bit_set bits pc with
        | Some bits => mark1 fuel' bits (pc + 1) (numbits - 1)
        | None => None
        end
      else Some (bits, pc)
  end.

Definition PUSH1 : Z := 0x60.
Definition PUSH32 : Z := 0x7f.

Definition mark (bits : bitvec) (pc numbits : Z) : option (bitvec * Z) :=
  match mark8 4 bits pc numbits with
  | Some (bits, pc, numbits) => mark1 7 bits pc numbits
  | None => None
  end.

(** The outer loop; every round advances [pc], so as many rounds as bytes are
    enough. *)
Fixpoint bitmap_loop (fuel : nat) (code : bytes) (bits : bitvec) (pc : Z) : option bitvec :=
  match fuel with
  | O => Some bits
  | S fuel' =>
      match code !! Z.to_nat pc with
      | None => Some bits
      | Some op =>
          if (op >=? PUSH1) && (op <=? PUSH32) then
            match mark bits (pc + 1) (op - PUSH1 + 1) with
            | Some (bits, pc) => bitmap_loop fuel' code bits pc
            | None => None
            end
          else bitmap_loop fuel' code bits (pc + 1)
      end
  end.

Definition codeBitmap (code : bytes) : option bitvec :=
  bitmap_loop (length code) code (replicate (length code / 8 + 1 + 4) 0) 0.

End Analysis.
