(* ===== verification/EvmJumpdest.v ===== *)
(** The jump destination analysis is exact: a position is marked as code if
    and only if an instruction starts there. *)
From S2P Require Import Prelude EvmAnalysis.

Import Analysis.

Module Jumpdest.

(** ** Where instructions start *)

Definition push_size (op : Z) : Z :=
  if (op >=? PUSH1) && (op <=? PUSH32) then op - PUSH1 + 1 else 0.

Inductive starts (code : bytes) : Z -> Prop :=
| starts_first : starts code 0
| starts_next p op :
    starts code p -> code !! Z.to_nat p = Some op -> starts code (p + 1 + push_size op).

Lemma push_size_range op : 0 <= push_size op <= 32.
Proof. unfold push_size, PUSH1, PUSH32. repeat zcase; cbn; lia. Qed.

Lemma starts_nonneg code p : starts code p -> 0 <= p.
Proof. induction 1; [lia|]. pose proof (push_size_range op). lia. Qed.

(** The arguments of an instruction start no instruction. *)
Lemma starts_skip code n p q op :
  (Z.to_nat (p + q) < n)%nat -> starts code p -> starts code q -> p < q ->
  code !! Z.to_nat p = Some op -> p + 1 + push_size op <= q.
Proof.
  revert p q op. induction n as [|n IH]; intros p q op Hn Hp Hq Hlt Hop; [lia|].
  pose proof (starts_nonneg _ _ Hp). destruct Hq as [|r op' Hr Hop']; [lia|].
  pose proof (starts_nonneg _ _ Hr). pose proof (push_size_range op').
  destruct (Z.lt_trichotomy p r) as [Hc|[->|Hc]].
  - pose proof (IH p r op ltac:(lia) Hp Hr Hc Hop). lia.
  - rewrite Hop in Hop'. injection Hop' as ->. lia.
  - pose proof (IH r p op' ltac:(lia) Hr Hp Hc Hop'). lia.
Qed.

(** ** Single bits *)

Definition bit_at (bits : bitvec) (pos : Z) : bool :=
  Z.testbit (nth (Z.to_nat (pos / 8)) bits 0) (7 - pos mod 8).

Lemma split8 k : 0 <= k < 8 -> k = 0 \/ k = 1 \/ k = 2 \/ k = 3 \/ k = 4 \/ k = 5 \/ k = 6 \/ k = 7.
Proof. lia. Qed.

Lemma mask_bits k r : 0 <= k < 8 -> 0 <= r < 8 ->
  Z.testbit (Z.shiftr 0x80 k) (7 - r) = (r =? k) /\
  Z.testbit (Z.shiftr 0xFF k) (7 - r) = (k <=? r) /\
  Z.testbit (Z.lxor 0xFF (Z.shiftr 0xFF k)) (7 - r) = (r <? k).
Proof.
  intros Hk Hr.
  destruct (split8 k Hk) as [->|[->|[->|[->|[->|[->|[->| ->]]]]]]];
    destruct (split8 r Hr) as [->|[->|[->|[->|[->|[->|[->| ->]]]]]]]; vm_compute; auto.
Qed.

Lemma codeSegment_bit bits pos :
  0 <= pos -> (Z.to_nat (pos / 8) < length bits)%nat ->
  codeSegment bits pos = Some (negb (bit_at bits pos)).
Proof.
  intros Hp Hl. unfold codeSegment, bit_at.
  destruct (lookup_lt_is_Some_2 bits _ Hl) as [b Hb]. rewrite Hb.
  rewrite (nth_lookup_Some _ _ _ _ Hb). f_equal.
  pose proof (Z.mod_pos_bound pos 8 ltac:(lia)) as Hm. set (k := pos mod 8) in *.
  assert (Z.shiftr 0x80 k = 2 ^ (7 - k)) as ->.
  { destruct (split8 k Hm) as [->|[->|[->|[->|[->|[->|[->| ->]]]]]]]; done. }
  destruct (Z.testbit b (7 - k)) eqn:E; cbn.
  - apply Z.eqb_neq. intros H. apply (f_equal (fun z => Z.testbit z (7 - k))) in H.
    rewrite Z.land_spec, E, Z.pow2_bits_true, Z.bits_0 in H by lia. done.
  - apply Z.eqb_eq. apply Z.bits_inj'. intros i Hi. rewrite Z.land_spec, Z.bits_0.
    destruct (Z.eq_dec i (7 - k)) as [->|]; [by rewrite E|].
    rewrite Z.pow2_bits_false by lia. apply andb_false_r.
Qed.

Lemma or_byte_spec bits i m :
  0 <= i -> (Z.to_nat i < length bits)%nat ->
  exists bits', or_byte bits i m = Some bits' /\ length bits' = length bits /\
    forall q, 0 <= q ->
      bit_at bits' q = bit_at bits q || ((q / 8 =? i) && Z.testbit m (7 - q mod 8)).
Proof.
  intros Hi Hl. unfold or_byte. destruct (lookup_lt_is_Some_2 bits _ Hl) as [b Hb]. rewrite Hb.
  eexists. split; [done|]. split; [by rewrite length_insert|]. intros q Hq. unfold bit_at.
  assert (0 <= q / 8) by (apply Z.div_pos; lia).
  destruct (Z.eqb_spec (q / 8) i) as [->|Hne]; cbn [andb].
  - rewrite (nth_lookup_Some _ _ _ (Z.lor b m)) by (by apply list_lookup_insert_eq).
    rewrite (nth_lookup_Some _ _ _ _ Hb). by rewrite Z.lor_spec.
  - rewrite orb_false_r, !nth_lookup. by rewrite list_lookup_insert_ne by lia.
Qed.

Lemma bit_set_spec bits pos :
  0 <= pos -> (Z.to_nat (pos / 8) < length bits)%nat ->
  exists bits', bit_set bits pos = Some bits' /\ length bits' = length bits /\
    forall q, 0 <= q -> bit_at bits' q = bit_at bits q || (q =? pos).
Proof.
  intros Hp Hl. destruct (or_byte_spec bits (pos / 8) (Z.shiftr 0x80 (pos mod 8)))
    as (bits' & E & L & H); [apply Z.div_pos; lia|done|].
  exists bits'. split_and!; [done..|]. intros q Hq. rewrite H by done. f_equal.
  pose proof (Z.mod_pos_bound pos 8 ltac:(lia)). pose proof (Z.mod_pos_bound q 8 ltac:(lia)).
  destruct (mask_bits (pos mod 8) (q mod 8)) as (-> & _); [lia..|].
  apply eq_true_iff_eq. rewrite andb_true_iff, !Z.eqb_eq.
  split; [|by intros ->]. intros []. Z.div_mod_to_equations; lia.
Qed.

Lemma bit_set8_spec bits pos :
  0 <= pos -> (Z.to_nat (pos / 8 + 1) < length bits)%nat ->
  exists bits', bit_set8 bits pos = Some bits' /\ length bits' = length bits /\
    forall q, 0 <= q -> bit_at bits' q = bit_at bits q || ((pos <=? q) && (q <? pos + 8)).
Proof.
  intros Hp Hl. assert (0 <= pos / 8) by (apply Z.div_pos; lia). unfold bit_set8.
  destruct (or_byte_spec bits (pos / 8) (Z.shiftr 0xFF (pos mod 8))) as (b1 & E1 & L1 & H1); [lia..|].
  rewrite E1. destruct (or_byte_spec b1 (pos / 8 + 1) (Z.lxor 0xFF (Z.shiftr 0xFF (pos mod 8))))
    as (b2 & E2 & L2 & H2); [lia|by rewrite L1|].
  exists b2. split_and!; [done|by rewrite L2|]. intros q Hq. rewrite H2, H1 by done.
  pose proof (Z.mod_pos_bound pos 8 ltac:(lia)). pose proof (Z.mod_pos_bound q 8 ltac:(lia)).
  destruct (mask_bits (pos mod 8) (q mod 8)) as (_ & -> & ->); [lia..|].
  rewrite <- orb_assoc. f_equal. apply eq_true_iff_eq.
  rewrite orb_true_iff, !andb_true_iff, !Z.eqb_eq, !Z.leb_le, !Z.ltb_lt.
  Z.div_mod_to_equations; lia.
Qed.

(** ** Marking the arguments of one instruction *)

Definition marked (bits bits' : bitvec) (lo hi : Z) : Prop :=
  length bits' = length bits /\
  forall q, 0 <= q -> bit_at bits' q = bit_at bits q || ((lo <=? q) && (q <? hi)).

Lemma marked_trans b1 b2 b3 lo mid hi :
  lo <= mid <= hi -> marked b1 b2 lo mid -> marked b2 b3 mid hi -> marked b1 b3 lo hi.
Proof.
  intros Hle [L1 H1] [L2 H2]. split; [congruence|]. intros q Hq. rewrite H2, H1 by done.
  rewrite <- orb_assoc. f_equal. repeat zcase; cbn; lia || done.
Qed.

Lemma marked_nil b lo : marked b b lo lo.
Proof. split; [done|]. intros q Hq. repeat zcase; cbn; rewrite ?orb_false_r; lia || done. Qed.

Lemma mark1_spec fuel bits pc n :
  0 <= n <= Z.of_nat fuel -> 0 <= pc -> ((pc + n) / 8 < Z.of_nat (length bits)) ->
  exists bits', mark1 fuel bits pc n = Some (bits', pc + n) /\ marked bits bits' pc (pc + n).
Proof.
  revert bits pc n. induction fuel as [|fuel IH]; intros bits pc n Hn Hpc Hl; cbn [mark1].
  { assert (n = 0) as -> by lia. rewrite Z.add_0_r. exists bits. split; [done|apply marked_nil]. }
  rewrite Z.gtb_ltb. destruct (Z.ltb_spec 0 n).
  - destruct (bit_set_spec bits pc Hpc) as (b1 & -> & L1 & H1).
    { assert (pc / 8 <= (pc + n) / 8) by (apply Z.div_le_mono; lia).
      assert (0 <= pc / 8) by (apply Z.div_pos; lia). lia. }
    destruct (IH b1 (pc + 1) (n - 1)) as (b2 & E & Hm); [lia|lia| |].
    { rewrite L1. by replace (pc + 1 + (n - 1)) with (pc + n) by lia. }
    replace (pc + 1 + (n - 1)) with (pc + n) in * by lia. exists b2. split; [done|].
    eapply marked_trans; [|split; [exact L1|]|exact Hm]; [lia|].
    intros q Hq. rewrite H1 by done. f_equal. repeat zcase; cbn; lia || done.
  - assert (n = 0) as -> by lia. rewrite Z.add_0_r. exists bits. split; [done|apply marked_nil].
Qed.

Lemma mark8_spec fuel bits pc n :
  0 <= n <= 8 * Z.of_nat fuel -> 0 <= pc -> ((pc + n) / 8 < Z.of_nat (length bits)) ->
  exists bits' k, mark8 fuel bits pc n = Some (bits', pc + k, n - k) /\ 0 <= n - k < 8 /\ 0 <= k /\
    marked bits bits' pc (pc + k).
Proof.
  revert bits pc n. induction fuel as [|fuel IH]; intros bits pc n Hn Hpc Hl; cbn [mark8].
  { exists bits, 0. rewrite Z.add_0_r, Z.sub_0_r. split_and!; [done|lia|lia|lia|apply marked_nil]. }
  rewrite Z.geb_leb. destruct (Z.leb_spec 8 n).
  - destruct (bit_set8_spec bits pc Hpc) as (b1 & -> & L1 & H1).
    { assert (pc / 8 + 1 <= (pc + n) / 8).
      { replace (pc / 8 + 1) with ((pc + 1 * 8) / 8) by (by rewrite Z.div_add by lia).
        apply Z.div_le_mono; lia. }
      assert (0 <= pc / 8) by (apply Z.div_pos; lia). lia. }
    destruct (IH b1 (pc + 8) (n - 8)) as (b2 & k & E & Hk & Hk0 & Hm); [lia|lia| |].
    { rewrite L1. by replace (pc + 8 + (n - 8)) with (pc + n) by lia. }
    exists b2, (k + 8). replace (pc + (k + 8)) with (pc + 8 + k) by lia.
    replace (n - (k + 8)) with (n - 8 - k) by lia. split_and!; [done|lia|lia|lia|].
    by eapply marked_trans; [|split; [exact L1|exact H1]|exact Hm]; lia.
  - exists bits, 0. rewrite Z.add_0_r, Z.sub_0_r. split_and!; [done|lia|lia|lia|apply marked_nil].
Qed.

Lemma mark_spec bits pc n :
  0 <= n <= 32 -> 0 <= pc -> ((pc + n) / 8 < Z.of_nat (length bits)) ->
  exists bits', mark bits pc n = Some (bits', pc + n) /\ marked bits bits' pc (pc + n).
Proof.
  intros Hn Hpc Hl. unfold mark.
  destruct (mark8_spec 4 bits pc n) as (b1 & k & -> & Hk & Hk0 & [L1 H1]); [lia|done|done|].
  destruct (mark1_spec 7 b1 (pc + k) (n - k)) as (b2 & E & Hm); [lia|lia| |].
  { rewrite L1. by replace (pc + k + (n - k)) with (pc + n) by lia. }
  replace (pc + k + (n - k)) with (pc + n) in * by lia. exists b2. split; [done|].
  by eapply marked_trans; [|split; [exact L1|exact H1]|exact Hm]; lia.
Qed.

(** ** The whole analysis *)

(** Up to [pc] exactly the starts are unmarked, and nothing beyond it is. *)
Record analysed (code : bytes) (bits : bitvec) (pc : Z) : Prop := {
  an_length : length bits = (length code / 8 + 5)%nat;
  an_start : starts code pc;
  an_before q : 0 <= q < pc -> (bit_at bits q = false <-> starts code q);
  an_after q : pc <= q -> bit_at bits q = false
}.

Lemma analysed_start code :
  analysed code (replicate (length code / 8 + 1 + 4) 0) 0.
Proof.
  constructor.
  - rewrite length_replicate. lia.
  - constructor.
  - intros; lia.
  - intros q Hq. unfold bit_at. rewrite nth_lookup.
    destruct (_ !! _) as [b|] eqn:E; cbn; [|apply Z.bits_0].
    apply lookup_replicate in E as [-> _]. apply Z.bits_0.
Qed.

Lemma analysed_step code bits bits' pc op :
  analysed code bits pc -> code !! Z.to_nat pc = Some op ->
  marked bits bits' (pc + 1) (pc + 1 + push_size op) ->
  analysed code bits' (pc + 1 + push_size op).
Proof.
  intros [L St B A] Hop [L' H]. pose proof (push_size_range op). pose proof (starts_nonneg _ _ St).
  constructor.
  - congruence.
  - by apply starts_next.
  - intros q Hq. rewrite H by lia. rewrite orb_false_iff.
    destruct (Z.lt_trichotomy q pc) as [Hlt|[->|Hgt]].
    + rewrite B by lia. split; [by intros []|]. split; [done|]. repeat zcase; cbn; lia || done.
    + rewrite A by lia. split; [done|]. intros _. split; [done|]. repeat zcase; cbn; lia || done.
    + split.
      * intros [_ Hm]. exfalso. revert Hm. repeat zcase; cbn; lia || done.
      * intros Hq'. pose proof (starts_skip code (S (Z.to_nat (pc + q))) pc q op
          ltac:(lia) St Hq' Hgt Hop). lia.
  - intros q Hq. rewrite H, A by lia. repeat zcase; cbn; lia || done.
Qed.

Lemma bitmap_loop_spec fuel code bits pc :
  analysed code bits pc -> Z.of_nat (length code) <= pc + Z.of_nat fuel ->
  exists bits' pc', bitmap_loop fuel code bits pc = Some bits' /\ analysed code bits' pc' /\
    Z.of_nat (length code) <= pc'.
Proof.
  revert bits pc. induction fuel as [|fuel IH]; intros bits pc An Hf; cbn [bitmap_loop].
  { exists bits, pc. split_and!; [done|done|lia]. }
  pose proof (starts_nonneg _ _ (an_start _ _ _ An)) as Hpc.
  destruct (code !! Z.to_nat pc) as [op|] eqn:Hop; cycle 1.
  { apply lookup_ge_None in Hop. exists bits, pc. split_and!; [done|done|lia]. }
  pose proof (lookup_lt_Some _ _ _ Hop) as Hlt. pose proof (push_size_range op) as Hps.
  assert (exists bits', marked bits bits' (pc + 1) (pc + 1 + push_size op) /\
    (if (op >=? PUSH1) && (op <=? PUSH32) then
       match mark bits (pc + 1) (op - PUSH1 + 1) with
       | Some (bits, pc) => bitmap_loop fuel code bits pc
       | None => None
       end
     else bitmap_loop fuel code bits (pc + 1))
    = bitmap_loop fuel code bits' (pc + 1 + push_size op)) as (bits' & Hm & ->).
  { destruct ((op >=? PUSH1) && (op <=? PUSH32)) eqn:Ep.
    - assert (push_size op = op - PUSH1 + 1) as Es by (unfold push_size; by rewrite Ep).
      rewrite <- Es. destruct (mark_spec bits (pc + 1) (push_size op)) as (b' & -> & Hm); [lia|lia| |].
      { rewrite (an_length _ _ _ An).
        apply Z.lt_le_trans with (Z.of_nat (length code) / 8 + 5).
        - replace (Z.of_nat (length code) / 8 + 5) with ((Z.of_nat (length code) + 32) / 8 + 1)
            by (rewrite (Z.div_add _ 4 8) by lia; lia).
          assert ((pc + 1 + push_size op) / 8 <= (Z.of_nat (length code) + 32) / 8)
            by (apply Z.div_le_mono; lia). lia.
        - rewrite Nat2Z.inj_add, Nat2Z.inj_div. lia. }
      by exists b'.
    - assert (push_size op = 0) as -> by (unfold push_size; by rewrite Ep).
      rewrite Z.add_0_r. exists bits. split; [apply marked_nil|done]. }
  apply IH; [by eapply analysed_step|lia].
Qed.

Lemma codeBitmap_analysed code :
  exists bits pc, codeBitmap code = Some bits /\ analysed code bits pc /\
    Z.of_nat (length code) <= pc.
Proof. apply bitmap_loop_spec; [apply analysed_start|lia]. Qed.

Lemma analysed_segment code bits pc pos :
  analysed code bits pc -> 0 <= pos < Z.of_nat (length code) ->
  codeSegment bits pos = Some (negb (bit_at bits pos)).
Proof.
  intros An Hpos. apply codeSegment_bit; [lia|]. rewrite (an_length _ _ _ An).
  assert (pos / 8 <= Z.of_nat (length code) / 8) by (apply Z.div_le_mono; lia).
  assert (0 <= pos / 8) by (apply Z.div_pos; lia).
  apply Nat2Z.inj_lt. rewrite Nat2Z.inj_add, Nat2Z.inj_div, Z2Nat.id by lia. lia.
Qed.

Lemma codeBitmap_segment code bits pos :
  codeBitmap code = Some bits -> 0 <= pos < Z.of_nat (length code) ->
  exists b, codeSegment bits pos = Some b /\ (b = true <-> starts code pos).
Proof.
  intros E Hpos. destruct (codeBitmap_analysed code) as (b & pc & E' & An & Hpc).
  rewrite E in E'. injection E' as <-. exists (negb (bit_at bits pos)).
  split; [by eapply analysed_segment|]. rewrite negb_true_iff. apply (an_before _ _ _ An). lia.
Qed.

(** the analysis never fails, and a byte of the program passes for code
    exactly when an instruction starts there (so a JUMPDEST byte inside a PUSH
    argument is never a jump target). *)
Theorem codeBitmap_exact (code : bytes) :
  exists bits, codeBitmap code = Some bits /\
    forall pos, 0 <= pos < Z.of_nat (length code) ->
      exists b, codeSegment bits pos = Some b /\ (b = true <-> starts code pos).
Proof.
  destruct (codeBitmap_analysed code) as (bits & pc & E & _). exists bits. split; [exact E|].
  intros pos Hpos. by apply codeBitmap_segment.
Qed.

End Jumpdest.
