(* ===== verification/EvmState.v ===== *)
(** The state of the virtual machine ([src/core/vm/interface.go], [vm.go],
    [src/core/vm/evm/evm.go], [interpreter.go], [contract.go], [intpool.go])
    and the monad its instructions run in. *)
From S2P Require Import Prelude Bech32 Address EvmWord EvmAnalysis.

Import Word Analysis.

Module State.

Abbreviation Address := Address.Address.
(** A [common.Hash] is the integer of its 32 bytes. *)
Abbreviation Hash := Z.

Record Log := mkLog { log_Address : Address; Topics : list Hash; log_Data : bytes; UnitIndex : Z }.

(** ** [vm.StateDB], the interface to the account state *)

Class StateDB := {
  sdb : Type;
  CreateAccount : sdb -> Address -> sdb;
  AddBalance : sdb -> Address -> Z -> sdb;
  GetBalance : sdb -> Address -> Z;
  GetNonce : sdb -> Address -> Z;
  SetNonce : sdb -> Address -> Z -> sdb;
  GetCodeHash : sdb -> Address -> Hash;
  GetCode : sdb -> Address -> bytes;
  SetCode : sdb -> Address -> bytes -> sdb;
  GetCodeSize : sdb -> Address -> Z;
  AddRefund : sdb -> Z -> sdb;
  (** panics when the counter would go below zero *)
  SubRefund : sdb -> Z -> option sdb;
  GetState : sdb -> Address -> Hash -> Hash;
  SetState : sdb -> Address -> Hash -> Hash -> sdb;
  Suicide : sdb -> Address -> sdb;
  HasSuicided : sdb -> Address -> bool;
  Exist : sdb -> Address -> bool;
  Empty : sdb -> Address -> bool;
  Snapshot : sdb -> Z * sdb;
  RevertToSnapshot : sdb -> Z -> sdb;
  AddLog : sdb -> Log -> sdb;
  AddPreimage : sdb -> Hash -> bytes -> sdb
}.

(** ** Errors *)

Inductive verr :=
| ErrOutOfGas
| ErrCodeStoreOutOfGas
| ErrDepth
| ErrInsufficientBalance
| ErrContractAddressCollision
| ErrExecutionReverted
| ErrNotStrideChain
| ErrNoCompatibleInterpreter
| errGasUintOverflow
| errWriteProtection
| errReturnDataOutOfBounds
| errMaxCodeSizeExceeded
| errInvalidOpcode (op : Z)
| errStackUnderflow
| errStackLimit
| errInvalidJump (pos : Z)
| errPrecompile (code : Z).

#[global] Instance verr_eq_dec : EqDecision verr.
Proof. solve_decision. Defined.

(** ** Hash functions and native contracts

    Package [crypto] and the cryptographic native contracts are parameters:
    the instructions only pass bytes through them. *)
Class Crypto := {
  Keccak256 : bytes -> bytes;
  GenerateContractAddress : Address -> Z -> Address;
  ecrecover_Run : bytes -> result verr bytes;
  sha256_Run : bytes -> result verr bytes;
  ripemd160_Run : bytes -> result verr bytes
}.

Section State.
Context {D : StateDB}.

(** [vm.Context] and the options of [vm.Config] the machine reads. *)
Record Context_ := mkContext {
  CanTransfer : sdb -> Address -> Z -> bool;
  Transfer : sdb -> Address -> Address -> Z -> sdb;
  GetHash : Z -> Hash;
  IsToInnerAccount : option (Address -> bool);
  (** caller, own address, gas, input, value: the output, the gas left, the
      error and the state afterwards *)
  HandleInnerMessage : option (sdb -> Address -> Address -> Z -> bytes -> Z ->
                               bytes * Z * option verr * sdb);
  Origin : Address;
  GasPrice : Z;
  Coinbase : Address;
  GasLimit : Z;
  UnitMC : Address;
  SCNumber : Z;
  UnitNumber : Z;
  Time : Z;
  NoRecursion : bool;
  EnablePreimageRecording : bool;
  EnableSimulation : bool
}.

(** [Contract]; [caller] is only used for its address and, by
    [AsDelegate], for the caller and value of the calling contract. *)
Record Contract := mkContract {
  CallerAddress : Address;
  self : Address;
  Code : bytes;
  CodeHash : Hash;
  CodeAddr : option Address;
  Input : bytes;
  Gas : Z;
  value : Z;
  analysis : option bitvec
}.

(** [EVM] and [EVMInterpreter].  An [intPool] is represented by its flag
    [inited]: [pool] is the interpreter's ([None] for nil), [free_pools] the
    global [poolOfIntPools], last first.  [jumpdests] is the one map all
    contracts of a call tree share. *)
Record EVM := mkEVM {
  statedb : sdb;
  depth : Z;
  abort : Z;
  callGasTemp : Z;
  pool : option bool;
  free_pools : list bool;
  readOnly : bool;
  returnData : bytes;
  jumpdests : gmap Hash bitvec
}.

(** The local variables of [Run]. *)
Record frame := mkFrame {
  pc : Z;
  contract : Contract;
  mem : Memory;
  stack : Stack
}.

Record vm_state := mkState { ev : EVM; fr : frame }.

(** *** Updates *)

Definition set_statedb v e := mkEVM v (depth e) (abort e) (callGasTemp e) (pool e)
  (free_pools e) (readOnly e) (returnData e) (jumpdests e).
Definition set_depth v e := mkEVM (statedb e) v (abort e) (callGasTemp e) (pool e)
  (free_pools e) (readOnly e) (returnData e) (jumpdests e).
Definition set_callGasTemp v e := mkEVM (statedb e) (depth e) (abort e) v (pool e)
  (free_pools e) (readOnly e) (returnData e) (jumpdests e).
Definition set_pool v e := mkEVM (statedb e) (depth e) (abort e) (callGasTemp e) v
  (free_pools e) (readOnly e) (returnData e) (jumpdests e).
Definition set_free_pools v e := mkEVM (statedb e) (depth e) (abort e) (callGasTemp e) (pool e)
  v (readOnly e) (returnData e) (jumpdests e).
Definition set_readOnly v e := mkEVM (statedb e) (depth e) (abort e) (callGasTemp e) (pool e)
  (free_pools e) v (returnData e) (jumpdests e).
Definition set_returnData v e := mkEVM (statedb e) (depth e) (abort e) (callGasTemp e) (pool e)
  (free_pools e) (readOnly e) v (jumpdests e).
Definition set_jumpdests v e := mkEVM (statedb e) (depth e) (abort e) (callGasTemp e) (pool e)
  (free_pools e) (readOnly e) (returnData e) v.
Definition Cancel e := mkEVM (statedb e) (depth e) 1 (callGasTemp e) (pool e)
  (free_pools e) (readOnly e) (returnData e) (jumpdests e).

Definition set_Gas v c := mkContract (CallerAddress c) (self c) (Code c) (CodeHash c)
  (CodeAddr c) (Input c) v (value c) (analysis c).
Definition set_Input v c := mkContract (CallerAddress c) (self c) (Code c) (CodeHash c)
  (CodeAddr c) v (Gas c) (value c) (analysis c).
Definition set_analysis v c := mkContract (CallerAddress c) (self c) (Code c) (CodeHash c)
  (CodeAddr c) (Input c) (Gas c) (value c) v.

Definition set_pc v f := mkFrame v (contract f) (mem f) (stack f).
Definition set_contract v f := mkFrame (pc f) v (mem f) (stack f).
Definition set_mem v f := mkFrame (pc f) (contract f) v (stack f).
Definition set_stack v f := mkFrame (pc f) (contract f) (mem f) v.

(** *** contract.go *)

(** [NewContract]: the caller's address, the own address, value and gas. *)
Definition NewContract (caller object : Address) (val gas : Z) : Contract :=
  mkContract caller object [] 0 None [] gas val None.

Definition SetCallCode (addr : Address) (hash : Hash) (code : bytes) (c : Contract) : Contract :=
  mkContract (CallerAddress c) (self c) code hash (Some addr) (Input c) (Gas c) (value c)
    (analysis c).

(** [AsDelegate]: caller and value of the calling contract. *)
Definition AsDelegate (parent c : Contract) : Contract :=
  mkContract (CallerAddress parent) (self c) (Code c) (CodeHash c) (CodeAddr c) (Input c)
    (Gas c) (value parent) (analysis c).

Definition GetByte (c : Contract) (n : Z) : Z :=
  if n <? Z.of_nat (length (Code c)) then nth (Z.to_nat n) (Code c) 0 else 0.
Definition GetOp (c : Contract) (n : Z) : Z := GetByte c n.

Definition UseGas (gas : Z) (c : Contract) : option Contract :=
  if Gas c <? gas then None else Some (set_Gas (Gas c - gas) c).

(** ** The monad

    [Fail] is a returned error, [Panic] a Go panic, [NoFuel] the model's own
    bound on the number of steps ([EvmGas] shows how much is enough). *)
Inductive out (A : Type) :=
| Val (a : A) (s : vm_state)
| Fail (e : verr) (s : vm_state)
| Panic
| NoFuel.
#[global] Arguments Val {A}.
#[global] Arguments Fail {A}.
#[global] Arguments Panic {A}.
#[global] Arguments NoFuel {A}.

Definition M (A : Type) : Type := vm_state -> out A.

Definition ret {A} (a : A) : M A := fun s => Val a s.
Definition fail {A} (e : verr) : M A := fun s => Fail e s.
Definition panic {A} : M A := fun _ => Panic.
Definition bind {A B} (m : M A) (k : A -> M B) : M B :=
  fun s => match m s with
           | Val a s' => k a s'
           | Fail e s' => Fail e s'
           | Panic => Panic
           | NoFuel => NoFuel
           end.

Definition getf : M frame := fun s => Val (fr s) s.
Definition gete : M EVM := fun s => Val (ev s) s.
Definition modf (f : frame -> frame) : M unit := fun s => Val tt (mkState (ev s) (f (fr s))).
Definition mode (f : EVM -> EVM) : M unit := fun s => Val tt (mkState (f (ev s)) (fr s)).
(** A [None] is a panic. *)
Definition need {A} (o : option A) : M A :=
  match o with Some a => ret a | None => panic end.

End State.

Notation "'let!' x ':=' m 'in' k" := (bind m (fun x => k))
  (at level 10, x pattern, m at level 100, k at level 200).
Notation "m ';;;' k" := (bind m (fun _ => k)) (at level 60, right associativity).

Section Access.
Context {D : StateDB}.

Definition popM : M Z :=
  let! f := getf in
  let! p := need (pop (stack f)) in
  modf (set_stack (snd p)) ;;; ret (fst p).

Definition pushM (x : Z) : M unit := modf (fun f => set_stack (x :: stack f) f).

Definition backM (n : nat) : M Z := let! f := getf in need (Back (stack f) n).

(** [intPool.get] and [put] create the pool on first use; [getZero] reads it
    as it is: a pool not yet created is a nil pointer. *)
Definition pool_touch : M unit :=
  let! e := gete in
  let! _ := need (pool e) in
  mode (set_pool (Some true)).

Definition getZero : M Z :=
  let! e := gete in
  let! inited := need (pool e) in
  if inited then ret 0 else panic.

End Access.

(** ** Protocol parameters ([src/params]) *)

Definition QuadCoeffDiv : Z := 512.
Definition LogDataGas : Z := 8.
Definition CallStipend : Z := 2300.
Definition Sha3Gas : Z := 30.
Definition Sha3WordGas : Z := 6.
Definition NetSstoreNoopGas : Z := 200.
Definition NetSstoreInitGas : Z := 20000.
Definition NetSstoreCleanGas : Z := 5000.
Definition NetSstoreDirtyGas : Z := 200.
Definition NetSstoreClearRefund : Z := 15000.
Definition NetSstoreResetRefund : Z := 4800.
Definition NetSstoreResetClearRefund : Z := 19800.
Definition JumpdestGas : Z := 1.
Definition CreateDataGas : Z := 200.
Definition CallCreateDepth : Z := 1024.
Definition LogGas : Z := 375.
Definition CopyGas : Z := 3.
Definition StackLimit : Z := 1024.
Definition LogTopicGas : Z := 375.
Definition CreateGas : Z := 32000.
Definition Create2Gas : Z := 32000.
Definition SuicideRefundGas : Z := 24000.
Definition MemoryGas : Z := 3.
Definition MaxCodeSize : Z := 24576.
Definition CallValueTransferGas : Z := 9000.
Definition CallNewAccountGas : Z := 25000.

(** [params.GasTable]; [ChainConfig.GasTable] always answers
    [GasTableHomestead], and every fork test of [ChainConfig] answers true. *)
Record GasTable := mkGasTable {
  ExtcodeSize : Z;
  ExtcodeCopy : Z;
  ExtcodeHash : Z;
  Balance : Z;
  SLoad : Z;
  Calls : Z;
  SuicideGas : Z;
  ExpByte : Z;
  CreateBySuicide : Z
}.

Definition GasTableHomestead : GasTable := mkGasTable 700 700 400 400 200 700 5000 50 25000.

End State.
