(* ===== verification/EvmGas.v ===== *)
(** The price of every instruction ([src/core/vm/evm/gas_table.go], [gas.go]).
    A gas function reads the stack and the state, may move the memory fee
    already charged, [callGasTemp] and the refund counter, and answers the cost
    of the step or an overflow error. *)
From S2P Require Import Prelude Bech32 Address EvmWord EvmAnalysis EvmState.

Import Word State.

Module GasTab.

Definition GasQuickStep : Z := 2.
Definition GasFastestStep : Z := 3.
Definition GasFastStep : Z := 5.
Definition GasMidStep : Z := 8.
Definition GasSlowStep : Z := 10.
Definition GasExtStep : Z := 20.

(** [callGas]: all but one 64th of what is left, or what the caller asks for. *)
Definition callGas (gasTable : GasTable) (availableGas base callCost : Z) : result verr Z :=
  let capped :=
    if CreateBySuicide gasTable >? 0 then
      let availableGas := u64 (availableGas - base) in
      let gas := u64 (availableGas - availableGas / 64) in
      if (BitLen callCost >? 64) || (gas <? Uint64 callCost) then Some gas else None
    else None in
  match capped with
  | Some gas => Ok gas
  | None => if BitLen callCost >? 64 then Err errGasUintOverflow else Ok (Uint64 callCost)
  end.

Section Gas.
Context {D : StateDB}.

(** [if r, overflow = math.SafeAdd(x, y); overflow { return errGasUintOverflow }]. *)
Definition checked (r : Z * bool) : M Z :=
  let '(v, overflow) := r in if overflow then fail errGasUintOverflow else ret v.

Definition memoryGasCost (newMemSize : Z) : M Z :=
  if newMemSize =? 0 then ret 0
  else if newMemSize >? 0xffffffffe0 then fail errGasUintOverflow
  else
    let newMemSizeWords := toWordSize newMemSize in
    let newMemSize := u64 (newMemSizeWords * 32) in
    let! f := getf in
    if newMemSize >? mem_len (mem f) then
      let square := u64 (newMemSizeWords * newMemSizeWords) in
      let linCoef := u64 (newMemSizeWords * MemoryGas) in
      let quadCoef := square / QuadCoeffDiv in
      let newTotalFee := u64 (linCoef + quadCoef) in
      let fee := u64 (newTotalFee - lastGasCost (mem f)) in
      modf (set_mem (mkMemory (store (mem f)) newTotalFee)) ;;; ret fee
    else ret 0.

Definition constGasFunc (gas : Z) (gt : GasTable) (memorySize : Z) : M Z := ret gas.

(** The common tail of the copying instructions: [per] for every word of the
    stack item [n]. *)
Definition word_gas (n : nat) (per gas : Z) : M Z :=
  let! size := backM n in
  let! words := checked (bigUint64 size) in
  let! words := checked (SafeMul (toWordSize words) per) in
  checked (SafeAdd gas words).

Definition gasCallDataCopy (gt : GasTable) (memorySize : Z) : M Z :=
  let! gas := memoryGasCost memorySize in
  let! gas := checked (SafeAdd gas GasFastestStep) in
  word_gas 2 CopyGas gas.

Definition gasReturnDataCopy (gt : GasTable) (memorySize : Z) : M Z :=
  let! gas := memoryGasCost memorySize in
  let! gas := checked (SafeAdd gas GasFastestStep) in
  word_gas 2 CopyGas gas.

Definition refund (f : sdb -> option sdb) : M unit :=
  let! e := gete in
  let! db := need (f (statedb e)) in
  mode (set_statedb db).

Definition gasSStore (gt : GasTable) (memorySize : Z) : M Z :=
  let! y := backM 1 in
  let! x := backM 0 in
  let! f := getf in
  let! e := gete in
  let self := self (contract f) in
  let current := GetState (statedb e) self (BigToHash x) in
  let value := BigToHash y in
  if current =? value then ret NetSstoreNoopGas
  else
    let original := GetState (statedb e) self (BigToHash x) in
    if original =? current then
      if original =? 0 then ret NetSstoreInitGas
      else
        (if value =? 0 then refund (fun d => Some (AddRefund d NetSstoreClearRefund))
         else ret tt) ;;;
        ret NetSstoreCleanGas
    else
      (if negb (original =? 0) then
         if current =? 0 then refund (fun d => SubRefund d NetSstoreClearRefund)
         else if value =? 0 then refund (fun d => Some (AddRefund d NetSstoreClearRefund))
         else ret tt
       else ret tt) ;;;
      (if original =? value then
         if original =? 0 then refund (fun d => Some (AddRefund d NetSstoreResetClearRefund))
         else refund (fun d => Some (AddRefund d NetSstoreResetRefund))
       else ret tt) ;;;
      ret NetSstoreDirtyGas.

Definition makeGasLog (n : Z) (gt : GasTable) (memorySize : Z) : M Z :=
  let! size := backM 1 in
  let! requestedSize := checked (bigUint64 size) in
  let! gas := memoryGasCost memorySize in
  let! gas := checked (SafeAdd gas LogGas) in
  let! gas := checked (SafeAdd gas (u64 (n * LogTopicGas))) in
  let! memorySizeGas := checked (SafeMul requestedSize LogDataGas) in
  checked (SafeAdd gas memorySizeGas).

Definition gasSha3 (gt : GasTable) (memorySize : Z) : M Z :=
  let! gas := memoryGasCost memorySize in
  let! gas := checked (SafeAdd gas Sha3Gas) in
  word_gas 1 Sha3WordGas gas.

Definition gasCodeCopy (gt : GasTable) (memorySize : Z) : M Z :=
  let! gas := memoryGasCost memorySize in
  let! gas := checked (SafeAdd gas GasFastestStep) in
  word_gas 2 CopyGas gas.

Definition gasExtCodeCopy (gt : GasTable) (memorySize : Z) : M Z :=
  let! gas := memoryGasCost memorySize in
  let! gas := checked (SafeAdd gas (ExtcodeCopy gt)) in
  word_gas 3 CopyGas gas.

Definition gasExtCodeHash (gt : GasTable) (memorySize : Z) : M Z := ret (ExtcodeHash gt).

Definition gasMLoad (gt : GasTable) (memorySize : Z) : M Z :=
  let! gas := memoryGasCost memorySize in checked (SafeAdd gas GasFastestStep).
Definition gasMStore8 (gt : GasTable) (memorySize : Z) : M Z :=
  let! gas := memoryGasCost memorySize in checked (SafeAdd gas GasFastestStep).
Definition gasMStore (gt : GasTable) (memorySize : Z) : M Z :=
  let! gas := memoryGasCost memorySize in checked (SafeAdd gas GasFastestStep).

Definition gasCreate (gt : GasTable) (memorySize : Z) : M Z :=
  let! gas := memoryGasCost memorySize in checked (SafeAdd gas CreateGas).

Definition gasCreate2 (gt : GasTable) (memorySize : Z) : M Z :=
  let! gas := memoryGasCost memorySize in
  let! gas := checked (SafeAdd gas Create2Gas) in
  word_gas 2 Sha3WordGas gas.

Definition gasBalance (gt : GasTable) (memorySize : Z) : M Z := ret (Balance gt).
Definition gasExtCodeSize (gt : GasTable) (memorySize : Z) : M Z := ret (ExtcodeSize gt).
Definition gasSLoad (gt : GasTable) (memorySize : Z) : M Z := ret (SLoad gt).

Definition gasExp (gt : GasTable) (memorySize : Z) : M Z :=
  let! exponent := backM 1 in
  let expByteLen := (BitLen exponent + 7) / 8 in
  checked (SafeAdd (u64 (expByteLen * ExpByte gt)) GasSlowStep).

(** What the four call instructions do once their base price is known. *)
Definition call_gas (gt : GasTable) (gas : Z) : M Z :=
  let! f := getf in
  let! requested := backM 0 in
  match callGas gt (Gas (contract f)) gas requested with
  | Err e => mode (set_callGasTemp 0) ;;; fail e
  | Ok temp => mode (set_callGasTemp temp) ;;; checked (SafeAdd gas temp)
  end.

Definition gasCall (gt : GasTable) (memorySize : Z) : M Z :=
  let! val := backM 2 in
  let! to := backM 1 in
  let! e := gete in
  let address := BigToAddress to in
  let gas := Calls gt in
  let gas :=
    if negb (val =? 0) then
      let gas := if Empty (statedb e) address then u64 (gas + CallNewAccountGas) else gas in
      u64 (gas + CallValueTransferGas)
    else gas in
  let! memoryGas := memoryGasCost memorySize in
  let! gas := checked (SafeAdd gas memoryGas) in
  call_gas gt gas.

Definition gasCallCode (gt : GasTable) (memorySize : Z) : M Z :=
  let! val := backM 2 in
  let gas := if negb (val =? 0) then u64 (Calls gt + CallValueTransferGas) else Calls gt in
  let! memoryGas := memoryGasCost memorySize in
  let! gas := checked (SafeAdd gas memoryGas) in
  call_gas gt gas.

Definition gasReturn (gt : GasTable) (memorySize : Z) : M Z := memoryGasCost memorySize.
Definition gasRevert (gt : GasTable) (memorySize : Z) : M Z := memoryGasCost memorySize.

Definition gasSuicide (gt : GasTable) (memorySize : Z) : M Z :=
  let! to := backM 0 in
  let! f := getf in
  let! e := gete in
  let self := self (contract f) in
  let address := BigToAddress to in
  let gas :=
    if Empty (statedb e) address && negb (GetBalance (statedb e) self =? 0)
    then u64 (SuicideGas gt + CreateBySuicide gt) else SuicideGas gt in
  (if negb (HasSuicided (statedb e) self)
   then refund (fun d => Some (AddRefund d SuicideRefundGas)) else ret tt) ;;;
  ret gas.

Definition gasDelegateCall (gt : GasTable) (memorySize : Z) : M Z :=
  let! gas := memoryGasCost memorySize in
  let! gas := checked (SafeAdd gas (Calls gt)) in
  call_gas gt gas.

Definition gasStaticCall (gt : GasTable) (memorySize : Z) : M Z :=
  let! gas := memoryGasCost memorySize in
  let! gas := checked (SafeAdd gas (Calls gt)) in
  call_gas gt gas.

Definition gasPush (gt : GasTable) (memorySize : Z) : M Z := ret GasFastestStep.
Definition gasSwap (gt : GasTable) (memorySize : Z) : M Z := ret GasFastestStep.
Definition gasDup (gt : GasTable) (memorySize : Z) : M Z := ret GasFastestStep.

End Gas.
End GasTab.
