(* ===== verification/EvmInstr.v ===== *)
(** The instructions of the virtual machine
    ([src/core/vm/evm/instructions.go]), one definition per [op] function of
    the source.  The output is the byte slice the function returns ([nil] is
    the empty list). *)
From S2P Require Import Prelude Bech32 Address EvmWord EvmAnalysis EvmState.

Import Word Analysis State.

Module Instr.

Definition Second : Z := 10 ^ 9.
Definition JUMPDEST : Z := 0x5b.

Section Instr.
Context {D : StateDB} {K : Crypto}.

(** ** Calls of the machine from an instruction *)

Inductive request :=
| RCall (caller : Contract) (addr : Address) (input : bytes) (gas val : Z)
| RCallCode (caller : Contract) (addr : Address) (input : bytes) (gas val : Z)
| RDelegateCall (caller : Contract) (addr : Address) (input : bytes) (gas : Z)
| RStaticCall (caller : Contract) (addr : Address) (input : bytes) (gas : Z)
| RCreate (caller : Contract) (code : bytes) (gas val : Z).

Record answer := mkAnswer {
  a_ret : bytes;
  a_addr : Address;
  leftOverGas : Z;
  a_err : option verr
}.

Inductive response :=
| Answered (a : answer) (e : EVM)
| CallPanic
| CallNoFuel.

Context (cx : Context_) (call : request -> EVM -> response).

Definition invoke (r : request) : M answer := fun s =>
  match call r (ev s) with
  | Answered a e => Val a (mkState e (fr s))
  | CallPanic => Panic
  | CallNoFuel => NoFuel
  end.

(** ** Arithmetic and comparison *)

(** [x, y := pop, pop]; push the result; give an operand to the pool. *)
Definition binop (f : Z -> Z -> Z) : M bytes :=
  let! x := popM in
  let! y := popM in
  pushM (f x y) ;;; pool_touch ;;; ret [].

Definition ternop (f : Z -> Z -> Z -> Z) : M bytes :=
  let! x := popM in
  let! y := popM in
  let! z := popM in
  pushM (f x y z) ;;; pool_touch ;;; ret [].

Definition unop (f : Z -> Z) : M bytes := let! x := popM in pushM (f x) ;;; ret [].

Definition bool_word (b : bool) : Z := if b then 1 else 0.

Definition f_add (x y : Z) : Z := U256 (x + y).
Definition f_sub (x y : Z) : Z := U256 (x - y).
Definition f_mul (x y : Z) : Z := U256 (x * y).
Definition f_div (x y : Z) : Z := if negb (y =? 0) then U256 (x / y) else 0.
Definition f_sdiv (x y : Z) : Z :=
  let x := S256 x in
  let y := S256 y in
  if (y =? 0) || (x =? 0) then 0
  else if negb (Z.sgn x =? Z.sgn y) then U256 (- (Z.abs x / Z.abs y))
  else U256 (Z.abs x / Z.abs y).
Definition f_mod (x y : Z) : Z := if y =? 0 then 0 else U256 (x mod y).
Definition f_smod (x y : Z) : Z :=
  let x := S256 x in
  let y := S256 y in
  if y =? 0 then 0
  else if x <? 0 then U256 (- (Z.abs x mod Z.abs y))
  else U256 (Z.abs x mod Z.abs y).
Definition f_exp (base exponent : Z) : Z :=
  if exponent <? 1 then 1
  else if base =? 0 then 0
  else if exponent =? 1 then base
  else Exp base exponent.
Definition f_not (x : Z) : Z := U256 (Z.lnot x).
Definition f_lt (x y : Z) : Z := bool_word (x <? y).
Definition f_gt (x y : Z) : Z := bool_word (x >? y).
Definition f_slt (x y : Z) : Z :=
  if (x >=? tt255) && (y <? tt255) then 1
  else if (x <? tt255) && (y >=? tt255) then 0
  else bool_word (x <? y).
Definition f_sgt (x y : Z) : Z :=
  if (x >=? tt255) && (y <? tt255) then 0
  else if (x <? tt255) && (y >=? tt255) then 1
  else bool_word (x >? y).
Definition f_eq (x y : Z) : Z := bool_word (x =? y).
Definition f_iszero (x : Z) : Z := if x >? 0 then 0 else 1.
Definition f_byte (th val : Z) : Z := if th <? 32 then Byte val 32 (Int64 th) else 0.
Definition f_addmod (x y z : Z) : Z := if z >? 0 then U256 ((x + y) mod z) else 0.
Definition f_mulmod (x y z : Z) : Z := if z >? 0 then U256 ((x * y) mod z) else 0.
Definition f_shl (shift value : Z) : Z :=
  let shift := U256 shift in
  let value := U256 value in
  if shift >=? 256 then 0 else U256 (Z.shiftl value (Uint64 shift)).
Definition f_shr (shift value : Z) : Z :=
  let shift := U256 shift in
  let value := U256 value in
  if shift >=? 256 then 0 else U256 (Z.shiftr value (Uint64 shift)).
Definition f_sar (shift value : Z) : Z :=
  let shift := U256 shift in
  let value := S256 value in
  if shift >=? 256 then if value >=? 0 then U256 0 else U256 (-1)
  else U256 (Z.shiftr value (Uint64 shift)).
(** [opSignExtend] on a byte index below 31. *)
Definition f_signextend (back num : Z) : Z :=
  let bit := u64 (Uint64 back * 8 + 7) in
  let mask := Z.shiftl 1 bit - 1 in
  if Z.testbit num bit then U256 (Z.lor num (Z.lnot mask)) else U256 (Z.land num mask).

Definition opAdd : M bytes := binop f_add.
Definition opSub : M bytes := binop f_sub.
Definition opMul : M bytes := binop f_mul.
Definition opDiv : M bytes := binop f_div.
Definition opSdiv : M bytes :=
  let! x := popM in
  let! y := popM in
  let! _ := getZero in
  pushM (f_sdiv x y) ;;; pool_touch ;;; ret [].
Definition opMod : M bytes := binop f_mod.
Definition opSmod : M bytes :=
  let! x := popM in
  let! y := popM in
  let! _ := getZero in
  pushM (f_smod x y) ;;; pool_touch ;;; ret [].
Definition opExp : M bytes := binop f_exp.
Definition opSignExtend : M bytes :=
  let! back := popM in
  (if back <? 31 then let! num := popM in pushM (f_signextend back num) else ret tt) ;;;
  pool_touch ;;; ret [].
Definition opNot : M bytes := unop f_not.
Definition opLt : M bytes := binop f_lt.
Definition opGt : M bytes := binop f_gt.
Definition opSlt : M bytes := binop f_slt.
Definition opSgt : M bytes := binop f_sgt.
Definition opEq : M bytes := binop f_eq.
Definition opIszero : M bytes := unop f_iszero.
Definition opAnd : M bytes := binop Z.land.
Definition opOr : M bytes := binop Z.lor.
Definition opXor : M bytes := binop Z.lxor.
Definition opByte : M bytes := binop f_byte.
Definition opAddmod : M bytes := ternop f_addmod.
Definition opMulmod : M bytes := ternop f_mulmod.
Definition opSHL : M bytes := binop f_shl.
Definition opSHR : M bytes := binop f_shr.
Definition opSAR : M bytes := binop f_sar.

(** ** Memory access *)

Definition memGet (offset size : Z) : M bytes :=
  let! f := getf in need (mem_Get (mem f) offset size).
Definition memSet (offset size : Z) (v : bytes) : M unit :=
  let! f := getf in
  let! m := need (mem_Set (mem f) offset size v) in
  modf (set_mem m).

(** A word computed from the machine's surroundings; [pooled] if the integer
    holding it comes from the pool. *)
Definition push_env (pooled : bool) (f : EVM -> frame -> Z) : M bytes :=
  let! e := gete in
  let! fr := getf in
  (if pooled then pool_touch else ret tt) ;;;
  pushM (f e fr) ;;; ret [].

Definition opSha3 : M bytes :=
  let! offset := popM in
  let! size := popM in
  let! data := memGet (Int64 offset) (Int64 size) in
  let hasherBuf := be_value (Keccak256 data) in
  (if EnablePreimageRecording cx
   then mode (fun e => set_statedb (AddPreimage (statedb e) hasherBuf data) e) else ret tt) ;;;
  pool_touch ;;; pushM hasherBuf ;;; ret [].

(** ** Environment *)

Definition opAddress : M bytes := push_env false (fun _ f => Address.Big (self (contract f))).

Definition opBalance : M bytes :=
  let! slot := popM in
  let! e := gete in
  if Empty (statedb e) (BigToAddress slot) then fail ErrNotStrideChain
  else pushM (GetBalance (statedb e) (BigToAddress slot)) ;;; ret [].

Definition opOrigin : M bytes := push_env false (fun _ _ => Address.Big (Origin cx)).
Definition opCaller : M bytes :=
  push_env false (fun _ f => Address.Big (CallerAddress (contract f))).
Definition opCallValue : M bytes := push_env true (fun _ f => value (contract f)).

Definition opCallDataLoad : M bytes :=
  pool_touch ;;;
  let! start := popM in
  let! f := getf in
  pushM (be_value (getDataBig (Input (contract f)) start 32)) ;;; ret [].

Definition opCallDataSize : M bytes :=
  push_env true (fun _ f => Z.of_nat (length (Input (contract f)))).

(** The three pops and the copy of the COPY instructions. *)
Definition copy_to_memory (source : frame -> EVM -> bytes) : M bytes :=
  let! memOffset := popM in
  let! dataOffset := popM in
  let! length := popM in
  let! f := getf in
  let! e := gete in
  memSet (Uint64 memOffset) (Uint64 length) (getDataBig (source f e) dataOffset length) ;;;
  pool_touch ;;; ret [].

Definition opCallDataCopy : M bytes := copy_to_memory (fun f _ => Input (contract f)).

Definition opReturnDataSize : M bytes :=
  push_env true (fun e _ => Z.of_nat (length (returnData e))).

Definition opReturnDataCopy : M bytes :=
  let! memOffset := popM in
  let! dataOffset := popM in
  let! length_ := popM in
  pool_touch ;;;
  let! e := gete in
  let end_ := dataOffset + length_ in
  if (BitLen end_ >? 64) || (Z.of_nat (length (returnData e)) <? Uint64 end_)
  then fail errReturnDataOutOfBounds
  else
    let! data := need (if Uint64 dataOffset <=? Uint64 end_
                       then Some (take (Z.to_nat (Uint64 end_ - Uint64 dataOffset))
                                    (drop (Z.to_nat (Uint64 dataOffset)) (returnData e)))
                       else None) in
    memSet (Uint64 memOffset) (Uint64 length_) data ;;; ret [].

Definition opExtCodeSize : M bytes :=
  let! slot := popM in
  let! e := gete in
  pushM (u64 (GetCodeSize (statedb e) (BigToAddress slot))) ;;; ret [].

Definition opCodeSize : M bytes :=
  push_env true (fun _ f => Z.of_nat (length (Code (contract f)))).

Definition opCodeCopy : M bytes := copy_to_memory (fun f _ => Code (contract f)).

Definition opExtCodeCopy : M bytes :=
  let! addr := popM in
  copy_to_memory (fun _ e => GetCode (statedb e) (BigToAddress addr)).

Definition opExtCodeHash : M bytes :=
  let! slot := popM in
  let! e := gete in
  let address := BigToAddress slot in
  pushM (if Empty (statedb e) address then 0 else GetCodeHash (statedb e) address) ;;; ret [].

Definition opGasprice : M bytes := push_env true (fun _ _ => GasPrice cx).

(** ** The unit *)

Definition opBlockhash : M bytes :=
  let! num := popM in
  pool_touch ;;;
  let n := UnitNumber cx - 257 in
  (if (num >? n) && (num <? UnitNumber cx) then pushM (GetHash cx (Uint64 num))
   else let! z := getZero in pushM z) ;;;
  ret [].

Definition opCoinbase : M bytes := push_env false (fun _ _ => Address.Big (Coinbase cx)).
Definition opTimestamp : M bytes :=
  push_env true (fun _ _ => U256 (Z.quot (Int64 (Time cx)) Second)).
Definition opNumber : M bytes := push_env true (fun _ _ => U256 (UnitNumber cx)).
Definition opSCNumber : M bytes := push_env true (fun _ _ => U256 (SCNumber cx)).
Definition opGasLimit : M bytes := push_env true (fun _ _ => U256 (GasLimit cx)).

(** ** Stack, memory and storage *)

Definition opPop : M bytes := popM ;;; pool_touch ;;; ret [].

Definition opMload : M bytes :=
  let! offset := popM in
  pool_touch ;;;
  let! data := memGet (Int64 offset) 32 in
  pushM (be_value data) ;;; ret [].

Definition opMstore : M bytes :=
  let! mStart := popM in
  let! val := popM in
  let! f := getf in
  let! m := need (mem_Set32 (mem f) (Uint64 mStart) val) in
  modf (set_mem m) ;;; pool_touch ;;; ret [].

Definition opMstore8 : M bytes :=
  let! off := popM in
  let! val := popM in
  let! f := getf in
  let! m := need (mem_Set8 (mem f) (Int64 off) (u8 (Z.land (Int64 val) 0xff))) in
  modf (set_mem m) ;;; ret [].

Definition opSload : M bytes :=
  let! loc := popM in
  let! f := getf in
  let! e := gete in
  pushM (GetState (statedb e) (self (contract f)) (BigToHash loc)) ;;; ret [].

Definition opSstore : M bytes :=
  let! loc := popM in
  let! val := popM in
  let! f := getf in
  mode (fun e => set_statedb (SetState (statedb e) (self (contract f)) (BigToHash loc)
                                (BigToHash val)) e) ;;;
  pool_touch ;;; ret [].

(** ** Jumps *)

(** [contract.validJumpdest]: the analysis is looked up, or made and kept,
    under the code hash, or in the contract when there is none. *)
Definition validJumpdest (dest : Z) : M bool :=
  let! f := getf in
  let! e := gete in
  let c := contract f in
  let udest := Uint64 dest in
  if (BitLen dest >=? 63) || (udest >=? Z.of_nat (length (Code c))) then ret false
  else if negb (nth (Z.to_nat udest) (Code c) 0 =? JUMPDEST) then ret false
  else if negb (CodeHash c =? 0) then
    match jumpdests e !! CodeHash c with
    | Some bits => need (codeSegment bits udest)
    | None =>
        let! bits := need (codeBitmap (Code c)) in
        mode (fun e => set_jumpdests (<[CodeHash c := bits]> (jumpdests e)) e) ;;;
        need (codeSegment bits udest)
    end
  else
    match analysis c with
    | Some bits => need (codeSegment bits udest)
    | None =>
        let! bits := need (codeBitmap (Code c)) in
        modf (fun f => set_contract (set_analysis (Some bits) (contract f)) f) ;;;
        need (codeSegment bits udest)
    end.

Definition opJump : M bytes :=
  let! pos := popM in
  let! ok := validJumpdest pos in
  if negb ok then fail (errInvalidJump pos)
  else modf (set_pc (Uint64 pos)) ;;; pool_touch ;;; ret [].

Definition opJumpi : M bytes :=
  let! pos := popM in
  let! cond := popM in
  (if negb (cond =? 0) then
     let! ok := validJumpdest pos in
     if negb ok then fail (errInvalidJump pos) else modf (set_pc (Uint64 pos))
   else modf (fun f => set_pc (u64 (pc f + 1)) f)) ;;;
  pool_touch ;;; ret [].

Definition opJumpdest : M bytes := ret [].
Definition opPc : M bytes := push_env true (fun _ f => pc f).
Definition opMsize : M bytes := push_env true (fun _ f => mem_len (mem f)).
Definition opGas : M bytes := push_env true (fun _ f => Gas (contract f)).

(** ** Calls *)

Definition add_gas (g : Z) : M unit :=
  modf (fun f => set_contract (set_Gas (u64 (Gas (contract f) + g)) (contract f)) f).

(** [contract.UseGas(gas)] with the result ignored. *)
Definition use_gas (g : Z) : M unit :=
  modf (fun f => set_contract (default (contract f) (UseGas g (contract f))) f).

Definition opCreate : M bytes :=
  let! val := popM in
  let! offset := popM in
  let! size := popM in
  let! input := memGet (Int64 offset) (Int64 size) in
  let! f := getf in
  let gas := Gas (contract f) in
  let gas := u64 (gas - gas / 64) in
  use_gas gas ;;;
  let! f := getf in
  let! a := invoke (RCreate (contract f) input gas val) in
  (match a_err a with
   | Some ErrCodeStoreOutOfGas | None => pushM (Address.Big (a_addr a))
   | Some _ => let! z := getZero in pushM z
   end) ;;;
  add_gas (leftOverGas a) ;;;
  pool_touch ;;;
  ret (match a_err a with Some ErrExecutionReverted => a_ret a | _ => [] end).

(** [evm.Create2] always refuses and gives the gas back. *)
Definition opCreate2 : M bytes :=
  let! endowment := popM in
  let! offset := popM in
  let! size := popM in
  let! salt := popM in
  let! input := memGet (Int64 offset) (Int64 size) in
  let! f := getf in
  let gas := Gas (contract f) in
  let gas := u64 (gas - gas / 64) in
  use_gas gas ;;;
  let! z := getZero in
  pushM z ;;;
  add_gas gas ;;;
  pool_touch ;;; ret [].

(** What the four call instructions do with the answer. *)
Definition finish_call (retOffset retSize : Z) (a : answer) : M bytes :=
  (match a_err a with
   | Some _ => let! z := getZero in pushM z
   | None => pool_touch ;;; pushM 1
   end) ;;;
  (match a_err a with
   | None | Some ErrExecutionReverted =>
       memSet (Uint64 retOffset) (Uint64 retSize) (a_ret a)
   | Some _ => ret tt
   end) ;;;
  add_gas (leftOverGas a) ;;;
  pool_touch ;;; ret (a_ret a).

Definition with_stipend (val gas : Z) : Z :=
  if negb (val =? 0) && negb (EnableSimulation cx) then u64 (gas + CallStipend) else gas.

Definition opCall : M bytes :=
  popM ;;; pool_touch ;;;
  let! e := gete in
  let gas := callGasTemp e in
  let! addr := popM in
  let! val := popM in
  let! inOffset := popM in
  let! inSize := popM in
  let! retOffset := popM in
  let! retSize := popM in
  let toAddr := BigToAddress addr in
  let val := U256 val in
  let! args := memGet (Int64 inOffset) (Int64 inSize) in
  let! f := getf in
  let! a := invoke (RCall (contract f) toAddr args (with_stipend val gas) val) in
  finish_call retOffset retSize a.

Definition opCallCode : M bytes :=
  popM ;;; pool_touch ;;;
  let! e := gete in
  let gas := callGasTemp e in
  let! addr := popM in
  let! val := popM in
  let! inOffset := popM in
  let! inSize := popM in
  let! retOffset := popM in
  let! retSize := popM in
  let toAddr := BigToAddress addr in
  let val := U256 val in
  let! args := memGet (Int64 inOffset) (Int64 inSize) in
  let! f := getf in
  let! a := invoke (RCallCode (contract f) toAddr args (with_stipend val gas) val) in
  finish_call retOffset retSize a.

Definition opDelegateCall : M bytes :=
  popM ;;; pool_touch ;;;
  let! e := gete in
  let gas := callGasTemp e in
  let! addr := popM in
  let! inOffset := popM in
  let! inSize := popM in
  let! retOffset := popM in
  let! retSize := popM in
  let! args := memGet (Int64 inOffset) (Int64 inSize) in
  let! f := getf in
  let! a := invoke (RDelegateCall (contract f) (BigToAddress addr) args gas) in
  finish_call retOffset retSize a.

Definition opStaticCall : M bytes :=
  popM ;;; pool_touch ;;;
  let! e := gete in
  let gas := callGasTemp e in
  let! addr := popM in
  let! inOffset := popM in
  let! inSize := popM in
  let! retOffset := popM in
  let! retSize := popM in
  let! args := memGet (Int64 inOffset) (Int64 inSize) in
  let! f := getf in
  let! a := invoke (RStaticCall (contract f) (BigToAddress addr) args gas) in
  finish_call retOffset retSize a.

(** ** Leaving *)

Definition opReturn : M bytes :=
  let! offset := popM in
  let! size := popM in
  let! r := memGet (Int64 offset) (Int64 size) in
  pool_touch ;;; ret r.

Definition opRevert : M bytes :=
  let! offset := popM in
  let! size := popM in
  let! r := memGet (Int64 offset) (Int64 size) in
  pool_touch ;;; ret r.

Definition opStop : M bytes := ret [].

Definition opSuicide : M bytes :=
  let! f := getf in
  let! e := gete in
  let me := self (contract f) in
  let balance := GetBalance (statedb e) me in
  let! to := popM in
  mode (fun e => set_statedb
    (State.Suicide (AddBalance (statedb e) (BigToAddress to) balance) me) e) ;;;
  ret [].

(** ** Families *)

Fixpoint pop_topics (n : nat) : M (list Hash) :=
  match n with
  | O => ret []
  | S n' =>
      let! t := popM in
      let! ts := pop_topics n' in
      ret (BigToHash t :: ts)
  end.

Definition makeLog (size : nat) : M bytes :=
  let! mStart := popM in
  let! mSize := popM in
  let! topics := pop_topics size in
  let! d := memGet (Int64 mStart) (Int64 mSize) in
  let! f := getf in
  mode (fun e => set_statedb
    (AddLog (statedb e) (mkLog (self (contract f)) topics d (Uint64 (UnitNumber cx)))) e) ;;;
  pool_touch ;;; ret [].

(** [makePush size pushByteSize]: both are the number of bytes. *)
Definition makePush (size : Z) : M bytes :=
  let! f := getf in
  let code := Code (contract f) in
  let codeLen := Z.of_nat (length code) in
  let next := i64 (pc f + 1) in
  let startMin := if next <? codeLen then next else codeLen in
  let endMin := if startMin + size <? codeLen then startMin + size else codeLen in
  let! arg := need (if startMin <? 0 then None
                    else Some (take (Z.to_nat (endMin - startMin)) (drop (Z.to_nat startMin) code))) in
  pool_touch ;;;
  pushM (be_value (RightPadBytes arg size)) ;;;
  modf (fun f => set_pc (u64 (pc f + size)) f) ;;;
  ret [].

Definition makeDup (n : nat) : M bytes :=
  pool_touch ;;;
  let! f := getf in
  let! st := need (dup (stack f) n) in
  modf (set_stack st) ;;; ret [].

(** [makeSwap size] swaps with the item [size + 1]. *)
Definition makeSwap (size : nat) : M bytes :=
  let! f := getf in
  let! st := need (swap (stack f) (S size)) in
  modf (set_stack st) ;;; ret [].

End Instr.
End Instr.
