(* ===== verification/EvmArith.v ===== *)
(** What the arithmetic instructions compute: each agrees with the operation
    on 256-bit words (unsigned or two's complement) it is named after. *)
From S2P Require Import Prelude Bech32 Address EvmWord EvmAnalysis EvmState EvmInstr.

Import Word Analysis State Instr.

Module Arith.

Abbreviation is_word x := (0 <= x < 2 ^ 256).

(** ** Helpers *)

Lemma U256_mod x : U256 x = x mod 2 ^ 256.
Proof. unfold U256, tt256. by rewrite land_ones_mod. Qed.

Lemma U256_word x : is_word (U256 x).
Proof. rewrite U256_mod. by apply Z.mod_pos_bound. Qed.

Lemma U256_small x : is_word x -> U256 x = x.
Proof. intros. rewrite U256_mod. by apply Z.mod_small. Qed.

Lemma S256_range x : is_word x -> - 2 ^ 255 <= S256 x < 2 ^ 255.
Proof. unfold S256, tt255, tt256. intros. zcase; lia. Qed.

Lemma U256_S256 x : is_word x -> U256 (S256 x) = x.
Proof.
  intros H. rewrite U256_mod. unfold S256, tt255, tt256. zcase; [by apply Z.mod_small|].
  replace (x - 2 ^ 256) with (x + (-1) * 2 ^ 256) by lia. rewrite Z.mod_add by lia.
  by apply Z.mod_small.
Qed.

(** The two's complement reading of a word, as a predicate on integers. *)
Lemma S256_U256 v : - 2 ^ 255 <= v < 2 ^ 255 -> S256 (U256 v) = v.
Proof.
  intros H. rewrite U256_mod. unfold S256, tt255, tt256. destruct (Z.lt_ge_cases v 0).
  - replace (v mod 2 ^ 256) with (v + 2 ^ 256).
    + zcase; lia.
    + rewrite <- (Z.mod_small (v + 2 ^ 256) (2 ^ 256)) by lia.
      replace (v + 2 ^ 256) with (v + 1 * 2 ^ 256) by lia. by rewrite Z.mod_add.
  - rewrite Z.mod_small by lia. zcase; lia.
Qed.

Lemma BitLen_bound x : 0 <= x -> x < 2 ^ BitLen x.
Proof.
  intros Hx. unfold BitLen. zcase; [subst; cbn; lia|]. apply Z.log2_spec. lia.
Qed.

Lemma BitLen_nonneg x : 0 <= BitLen x.
Proof. unfold BitLen. pose proof (Z.log2_nonneg x). zcase; lia. Qed.

Lemma BitLen_gt x k : 0 <= x -> 0 <= k -> (BitLen x >? k) = (2 ^ k <=? x).
Proof.
  intros Hx Hk. apply eq_true_iff_eq. rewrite Z.gtb_ltb, Z.ltb_lt, Z.leb_le. unfold BitLen.
  destruct (Z.eqb_spec x 0) as [->|Hne].
  - pose proof (Z.pow_pos_nonneg 2 k). lia.
  - rewrite Z.log2_le_pow2 by lia. lia.
Qed.

(** ** Words of a big integer *)

Lemma big_words_value n x :
  0 <= x < 2 ^ (64 * Z.of_nat n) ->
  foldr (fun w acc => w + 2 ^ 64 * acc) 0 (big_words n x) = x.
Proof.
  revert x. induction n as [|n IH]; intros x Hx; cbn [big_words foldr].
  - cbn in Hx. lia.
  - rewrite IH.
    + pose proof (Z.div_mod x (2 ^ 64) ltac:(lia)). lia.
    + split; [apply Z.div_pos; lia|]. apply Z.div_lt_upper_bound; [lia|].
      rewrite <- Z.pow_add_r by lia. replace (64 + 64 * Z.of_nat n) with (64 * Z.of_nat (S n)) by lia. lia.
Qed.

Lemma Bits_value x : 0 <= x -> foldr (fun w acc => w + 2 ^ 64 * acc) 0 (Bits x) = x.
Proof.
  intros Hx. apply big_words_value. split; [done|].
  pose proof (BitLen_bound x Hx). pose proof (BitLen_nonneg x).
  eapply Z.lt_le_trans; [done|]. apply Z.pow_le_mono_r; [lia|].
  rewrite Z2Nat.id by (apply Z.div_pos; lia). Z.div_mod_to_equations; lia.
Qed.

Lemma big_words_range n x : Forall (fun w => is_u64 w) (big_words n x).
Proof.
  revert x; induction n as [|n IH]; intros x; cbn; constructor; [|done].
  apply Z.mod_pos_bound; lia.
Qed.

(** ** Exponentiation *)

Lemma exp_word_spec i w base result b r acc :
  is_word base -> 0 <= w < 2 ^ Z.of_nat i ->
  exp_word i w base result = (b, r) ->
  result = acc mod 2 ^ 256 ->
  b = base ^ (2 ^ Z.of_nat i) mod 2 ^ 256 /\ r = (acc * base ^ w) mod 2 ^ 256.
Proof.
  revert w base result acc. induction i as [|i IH]; intros w base result acc Hb Hw E Hr; cbn [exp_word] in E.
  - injection E as <- <-. cbn in Hw. assert (w = 0) as -> by lia.
    rewrite Z.pow_0_r, Z.mul_1_r. change (2 ^ Z.of_nat 0) with 1. rewrite Z.pow_1_r, Z.mod_small by lia. done.
  - rewrite Nat2Z.inj_succ in *. rewrite Z.pow_succ_r in Hw by lia.
    assert (Z.land w 1 = w mod 2) as El by (change 1 with (2 ^ 1 - 1); by rewrite land_ones_mod).
    assert (Z.shiftr w 1 = w / 2) as Es by (by rewrite Z.shiftr_div_pow2).
    rewrite El, Es, !U256_mod in E.
    pose proof (Z.div_mod w 2 ltac:(lia)) as Ew. pose proof (Z.mod_pos_bound w 2 ltac:(lia)) as Hm.
    set (acc' := if w mod 2 =? 1 then acc * base else acc).
    apply (IH _ _ _ acc') in E as [-> ->].
    + assert (base * base = base ^ 2) as -> by lia. rewrite Z.mod_pow_l, <- Z.pow_mul_r by lia.
      rewrite Z.pow_succ_r by lia. split; [done|].
      rewrite <- Z.mul_mod_idemp_r, Z.mod_pow_l, <- Z.pow_mul_r, Z.mul_mod_idemp_r
        by (try lia; apply Z.div_pos; lia).
      f_equal. unfold acc'.
      replace (base ^ w) with (base ^ (2 * (w / 2)) * base ^ (w mod 2))
        by (rewrite <- Z.pow_add_r by lia; f_equal; lia).
      destruct (Z.eqb_spec (w mod 2) 1) as [->|H0]; [lia|].
      assert (w mod 2 = 0) as -> by lia. lia.
    + by apply Z.mod_pos_bound.
    + split; [apply Z.div_pos; lia|]. apply Z.div_lt_upper_bound; lia.
    + unfold acc'. destruct (w mod 2 =? 1); [|done]. rewrite Hr, Z.mul_mod_idemp_l by lia. done.
Qed.

Lemma exp_words_spec ws base result acc :
  is_word base -> Forall (fun w => is_u64 w) ws -> result = acc mod 2 ^ 256 ->
  exp_words ws base result
  = (acc * base ^ foldr (fun w acc => w + 2 ^ 64 * acc) 0 ws) mod 2 ^ 256.
Proof.
  intros Hb Hws. revert base result acc Hb. induction Hws as [|w ws Hw Hws IH];
    intros base result acc Hb Hr; cbn [exp_words foldr].
  - by rewrite Z.pow_0_r, Z.mul_1_r.
  - destruct (exp_word 64 w base result) as [b r] eqn:E.
    apply (exp_word_spec _ _ _ _ _ _ acc) in E as [-> ->]; [|done|done|done].
    set (rest := foldr _ _ ws).
    assert (0 <= rest) by (unfold rest; clear -Hws; induction Hws; cbn [foldr]; lia).
    rewrite (IH _ _ (acc * base ^ w)) by (try done; by apply Z.mod_pos_bound).
    fold rest. change (Z.of_nat 64) with 64.
    rewrite <- Z.mul_mod_idemp_r, Z.mod_pow_l, <- Z.pow_mul_r, Z.mul_mod_idemp_r by lia.
    rewrite <- Z.mul_assoc, <- Z.pow_add_r by lia. done.
Qed.

Lemma Exp_spec base e : is_word base -> 0 <= e -> Exp base e = base ^ e mod 2 ^ 256.
Proof.
  intros Hb He. unfold Exp. rewrite (exp_words_spec _ _ _ 1).
  - rewrite Bits_value by done. by rewrite Z.mul_1_l.
  - done.
  - apply big_words_range.
  - done.
Qed.

(** ** Single bytes *)

Lemma nth_big_words n x k : 0 <= x -> (k < n)%nat ->
  nth k (big_words n x) 0 = x / 2 ^ (64 * Z.of_nat k) mod 2 ^ 64.
Proof.
  revert x k. induction n as [|n IH]; intros x k Hx Hk; [lia|]. cbn [big_words].
  destruct k as [|k]; cbn [nth]; [by rewrite Z.mul_0_r, Z.pow_0_r, Z.div_1_r|].
  rewrite IH by (try lia; apply Z.div_pos; lia). f_equal.
  rewrite Z.div_div by (try lia; apply Z.pow_pos_nonneg; lia).
  rewrite <- Z.pow_add_r by lia. do 2 f_equal. lia.
Qed.

Lemma length_big_words n x : length (big_words n x) = n.
Proof. revert x; induction n as [|n IH]; intros x; cbn; [done|]. by rewrite IH. Qed.

Lemma nth_Bits x k : 0 <= x -> nth k (Bits x) 0 = x / 2 ^ (64 * Z.of_nat k) mod 2 ^ 64.
Proof.
  intros Hx. unfold Bits. set (n := Z.to_nat _). destruct (Nat.lt_ge_cases k n).
  - by apply nth_big_words.
  - rewrite nth_overflow by (by rewrite length_big_words). rewrite Z.div_small; [done|].
    split; [done|]. eapply Z.lt_le_trans; [by apply BitLen_bound|].
    pose proof (BitLen_nonneg x). apply Z.pow_le_mono_r; [lia|]. unfold n in *.
    assert ((BitLen x + 63) / 64 <= Z.of_nat k) by lia. Z.div_mod_to_equations; lia.
Qed.

Lemma bigEndianByteAt_spec x n : 0 <= x -> 0 <= n ->
  bigEndianByteAt x n = x / 256 ^ n mod 256.
Proof.
  intros Hx Hn. unfold bigEndianByteAt. rewrite nth_Bits by done.
  pose proof (Z.div_mod n 8 ltac:(lia)) as E. pose proof (Z.mod_pos_bound n 8 ltac:(lia)) as Hm.
  rewrite Z2Nat.id by (apply Z.div_pos; lia).
  set (q := n / 8) in *. set (r := n mod 8) in *.
  rewrite Z.shiftr_div_pow2 by lia. unfold u8.
  assert (2 ^ 64 = 2 ^ (64 - 8 * r) * 2 ^ (8 * r)) as E64 by (rewrite <- Z.pow_add_r by lia; f_equal; lia).
  assert (2 ^ (64 - 8 * r) = 2 ^ (56 - 8 * r) * 2 ^ 8) as E56
    by (rewrite <- Z.pow_add_r by lia; f_equal; lia).
  assert (0 < 2 ^ (8 * r)) by (apply Z.pow_pos_nonneg; lia).
  assert (0 < 2 ^ (56 - 8 * r)) by (apply Z.pow_pos_nonneg; lia).
  change 256 with (2 ^ 8) at 1 2. rewrite <- Z.pow_mul_r by lia.
  replace (8 * n) with (64 * q + 8 * r) by lia.
  rewrite Z.pow_add_r, <- Z.div_div by lia.
  set (y := x / 2 ^ (64 * q)).
  rewrite E64, (Z.mul_comm (2 ^ (64 - 8 * r))), Z.rem_mul_r by lia.
  rewrite Z.add_comm, Z.mul_comm, Z.div_add_l by lia.
  rewrite (Z.div_small (y mod 2 ^ (8 * r))), Z.add_0_r by (apply Z.mod_pos_bound; lia).
  rewrite E56, (Z.mul_comm (2 ^ (56 - 8 * r))), Z.rem_mul_r by lia.
  rewrite (Z.mul_comm (2 ^ 8)), Z.add_comm, Z.add_comm, Z.mod_add, Z.mod_mod by lia. done.
Qed.

(** ** Sign extension and shifts *)

Lemma lor_lnot_ones x n :
  0 <= n -> Z.lor x (Z.lnot (Z.ones n)) = x mod 2 ^ n - 2 ^ n.
Proof.
  intros Hn. assert (Z.lor x (Z.lnot (Z.ones n)) = Z.lor (x mod 2 ^ n) (Z.lnot (Z.ones n))) as ->.
  { apply Z.bits_inj'. intros i Hi. rewrite !Z.lor_spec, Z.lnot_spec by done.
    destruct (Z.lt_ge_cases i n).
    - by rewrite Z.mod_pow2_bits_low by lia.
    - rewrite Z.ones_spec_high by lia. by rewrite !orb_true_r. }
  rewrite <- Z.lxor_lor, <- Z.add_nocarry_lxor; unfold Z.lnot.
  - rewrite Z.ones_equiv. lia.
  - apply Z.bits_inj'. intros i Hi. rewrite Z.land_spec, Z.bits_0.
    change (Z.pred (- Z.ones n)) with (Z.lnot (Z.ones n)). rewrite Z.lnot_spec by done.
    destruct (Z.lt_ge_cases i n); [rewrite Z.ones_spec_low by lia; by rewrite andb_false_r|].
    by rewrite Z.mod_pow2_bits_high by lia.
  - apply Z.bits_inj'. intros i Hi. rewrite Z.land_spec, Z.bits_0.
    change (Z.pred (- Z.ones n)) with (Z.lnot (Z.ones n)). rewrite Z.lnot_spec by done.
    destruct (Z.lt_ge_cases i n); [rewrite Z.ones_spec_low by lia; by rewrite andb_false_r|].
    by rewrite Z.mod_pow2_bits_high by lia.
Qed.

(** ** The properties *)

(** The two's complement value of the [n] low bits of [x]. *)
Definition low_signed (n x : Z) : Z :=
  let l := x mod 2 ^ n in if l <? 2 ^ (n - 1) then l else l - 2 ^ n.

(** SDIV and SMOD.  Both round towards zero on two's complement words;
    division by zero gives zero; the only quotient out of range, of [-2^255] by
    [-1], wraps around. *)
Theorem signed_division x y (Hx : is_word x) (Hy : is_word y) :
  f_sdiv x y = (if y =? 0 then 0 else U256 (Z.quot (S256 x) (S256 y))) /\
  f_smod x y = (if y =? 0 then 0 else U256 (Z.rem (S256 x) (S256 y))).
Proof.
  assert (S256 y = 0 <-> y = 0) as Hz by (unfold S256, tt255, tt256; zcase; lia).
  assert ((S256 y =? 0) = (y =? 0)) as Ez by (apply eq_true_iff_eq; rewrite !Z.eqb_eq; lia).
  unfold f_sdiv, f_smod. rewrite Ez. destruct (Z.eqb_spec y 0) as [|Hne]; [done|].
  assert (S256 y <> 0) as Hs by lia. set (a := S256 x) in *. set (b := S256 y) in *. cbn [orb]. split.
  - destruct (Z.eqb_spec a 0) as [->|Ha]; [by rewrite Z.quot_0_l|].
    destruct (Z.eqb_spec (Z.sgn a) (Z.sgn b)) as [Eq|Eq]; cbn [negb]; f_equal;
      rewrite <- Z.quot_div_nonneg by lia.
    + destruct (Z.lt_ge_cases a 0).
      * rewrite (Z.abs_neq a), (Z.abs_neq b) by lia. by rewrite Z.quot_opp_opp.
      * rewrite (Z.abs_eq a), (Z.abs_eq b) by lia. done.
    + destruct (Z.lt_ge_cases a 0).
      * rewrite (Z.abs_neq a), (Z.abs_eq b) by lia. rewrite Z.quot_opp_l by lia. lia.
      * rewrite (Z.abs_eq a), (Z.abs_neq b) by lia. rewrite Z.quot_opp_r by lia. lia.
  - rewrite <- Z.rem_mod_nonneg by lia. rewrite Z.rem_abs_r by lia.
    destruct (Z.ltb_spec a 0); f_equal.
    + rewrite Z.abs_neq, Z.rem_opp_l by lia. lia.
    + by rewrite Z.abs_eq by lia.
Qed.

Lemma signed_division_witness :
  f_sdiv (U256 (-7)) 2 = U256 (-3) /\ f_smod (U256 (-7)) 2 = U256 (-1).
Proof. apply (signed_division (U256 (-7)) 2); vm_compute; split; congruence. Defined.

(** C38: EXP is modular exponentiation, for every base and exponent. *)
Theorem exponentiation base e (Hb : is_word base) (He : is_word e) :
  f_exp base e = base ^ e mod 2 ^ 256.
Proof.
  unfold f_exp. destruct (Z.ltb_spec e 1).
  - assert (e = 0) as -> by lia. done.
  - destruct (Z.eqb_spec base 0) as [->|]; [by rewrite Z.pow_0_l by lia|].
    destruct (Z.eqb_spec e 1) as [->|]; [by rewrite Z.pow_1_r, Z.mod_small|].
    apply Exp_spec; lia.
Qed.

Lemma exponentiation_witness : f_exp 3 300 = 3 ^ 300 mod 2 ^ 256.
Proof. apply (exponentiation 3 300); lia. Defined.

(** SIGNEXTEND reads the [8*(k+1)] low bits as a two's complement number
    and gives the 256-bit word of that number. *)
Theorem sign_extension k x (Hk : 0 <= k < 31) (Hx : is_word x) :
  f_signextend k x = U256 (low_signed (8 * (k + 1)) x).
Proof.
  unfold f_signextend, Uint64. rewrite (u64_small k), u64_small by lia.
  set (bit := k * 8 + 7). replace (8 * (k + 1)) with (bit + 1) by lia.
  assert (0 <= bit) by lia. unfold low_signed. replace (bit + 1 - 1) with bit by lia.
  assert (Z.shiftl 1 bit - 1 = Z.ones bit) as -> by (rewrite Z.ones_equiv, Z.shiftl_1_l; lia).
  assert (x mod 2 ^ (bit + 1) = x mod 2 ^ bit + 2 ^ bit * Z.b2z (Z.testbit x bit)) as El.
  { rewrite Z.testbit_spec', Z.pow_add_r by lia. change (2 ^ 1) with 2.
    by rewrite Z.rem_mul_r by lia. }
  pose proof (Z.mod_pos_bound x (2 ^ bit) ltac:(apply Z.pow_pos_nonneg; lia)) as Hm.
  rewrite El. destruct (Z.testbit x bit); cbn [Z.b2z].
  - rewrite lor_lnot_ones by lia. destruct (Z.ltb_spec (x mod 2 ^ bit + 2 ^ bit * 1) (2 ^ bit)); [lia|].
    f_equal. rewrite Z.pow_add_r by lia. lia.
  - rewrite Z.land_ones by lia. destruct (Z.ltb_spec (x mod 2 ^ bit + 2 ^ bit * 0) (2 ^ bit)); [|lia].
    f_equal. lia.
Qed.

Lemma sign_extension_witness : f_signextend 0 0x1ff = U256 (low_signed (8 * (0 + 1)) 0x1ff).
Proof. apply (sign_extension 0 0x1ff); lia. Defined.

(** BYTE, SHL, SHR and SAR for every shift or index, however large: BYTE
    counts bytes from the most significant, SAR rounds towards minus infinity,
    and shifting by 256 or more leaves zero (or all ones, SAR of a negative
    word). *)
Theorem byte_and_shifts i x (Hi : is_word i) (Hx : is_word x) :
  f_byte i x = (if i <? 32 then x / 256 ^ (31 - i) mod 256 else 0) /\
  f_shl i x = (if i <? 256 then x * 2 ^ i mod 2 ^ 256 else 0) /\
  f_shr i x = (if i <? 256 then x / 2 ^ i else 0) /\
  f_sar i x = U256 (if i <? 256 then S256 x / 2 ^ i else if S256 x <? 0 then -1 else 0).
Proof.
  unfold f_byte, f_shl, f_shr, f_sar, Byte, Int64, Uint64.
  rewrite (U256_small i), (U256_small x) by done. rewrite !Z.geb_leb.
  split_and!.
  - destruct (Z.ltb_spec i 32); [|done]. rewrite i64_small by lia.
    destruct (Z.leb_spec 32 i); [lia|]. by rewrite bigEndianByteAt_spec by lia.
  - destruct (Z.leb_spec 256 i), (Z.ltb_spec i 256); try lia.
    rewrite u64_small, Z.shiftl_mul_pow2, U256_mod by lia. done.
  - destruct (Z.leb_spec 256 i), (Z.ltb_spec i 256); try lia.
    rewrite u64_small, Z.shiftr_div_pow2 by lia. apply U256_small.
    assert (0 < 2 ^ i) by (apply Z.pow_pos_nonneg; lia).
    split; [apply Z.div_pos; lia|]. eapply Z.le_lt_trans; [by apply Z.div_le_upper_bound with (q := x); nia|lia].
  - destruct (Z.leb_spec 256 i), (Z.ltb_spec i 256); try lia.
    + rewrite Z.leb_antisym. by destruct (S256 x <? 0).
    + by rewrite u64_small, Z.shiftr_div_pow2 by lia.
Qed.

Lemma byte_and_shifts_witness :
  f_byte 300 7 = 0 /\ f_shl 300 7 = 0 /\ f_shr 300 7 = 0 /\ f_sar 300 7 = U256 0.
Proof. apply (byte_and_shifts 300 7); lia. Defined.

End Arith.
