(* ===== verification/EvmTable.v ===== *)
(** The instruction set ([src/core/vm/evm/jump_table.go], [stack_table.go],
    [opcodes.go]): for every opcode its instruction, its price, the stack it
    needs, the memory it touches and its flags.  Every fork test of
    [ChainConfig] answers true, so the interpreter always runs the
    Constantinople set. *)
From S2P Require Import Prelude Bech32 Address EvmWord EvmAnalysis EvmState EvmGas EvmInstr.

Import Word Analysis State GasTab Instr.

Module Table.

Definition STOP : Z := 0x00.
Definition CALL : Z := 0xf1.

(** [makeStackFunc]: the items needed and the items left behind. *)
Definition makeStackFunc (pops pushes : Z) (st : Stack) : option verr :=
  if st_len st <? pops then Some errStackUnderflow
  else if st_len st + pushes - pops >? StackLimit then Some errStackLimit
  else None.

Definition makeDupStackFunc (n : Z) : Stack -> option verr := makeStackFunc n (n + 1).
Definition makeSwapStackFunc (n : Z) : Stack -> option verr := makeStackFunc n n.

Section Table.
Context {D : StateDB} {K : Crypto}.
Context (cx : Context_) (call : request -> EVM -> response).

Record operation := mkOp {
  execute : M bytes;
  gasCost : GasTable -> Z -> M Z;
  validateStack : Stack -> option verr;
  memorySize : option (Stack -> option Z);
  halts : bool;
  jumps : bool;
  writes : bool;
  reverts : bool;
  returns : bool
}.

Definition plain (ex : M bytes) (gas : GasTable -> Z -> M Z) (vs : Stack -> option verr)
    : option operation := Some (mkOp ex gas vs None false false false false false).
Definition with_mem (ex : M bytes) (gas : GasTable -> Z -> M Z) (vs : Stack -> option verr)
    (ms : Stack -> option Z) : option operation :=
  Some (mkOp ex gas vs (Some ms) false false false false false).

(** 0x00 to 0x20. *)
Definition frontier_arithmetic (op : Z) : option operation :=
  match op with
  | 0x00 => Some (mkOp opStop (constGasFunc 0) (makeStackFunc 0 0) None true false false false false)
  | 0x01 => plain opAdd (constGasFunc GasFastestStep) (makeStackFunc 2 1)
  | 0x02 => plain opMul (constGasFunc GasFastStep) (makeStackFunc 2 1)
  | 0x03 => plain opSub (constGasFunc GasFastestStep) (makeStackFunc 2 1)
  | 0x04 => plain opDiv (constGasFunc GasFastStep) (makeStackFunc 2 1)
  | 0x05 => plain opSdiv (constGasFunc GasFastStep) (makeStackFunc 2 1)
  | 0x06 => plain opMod (constGasFunc GasFastStep) (makeStackFunc 2 1)
  | 0x07 => plain opSmod (constGasFunc GasFastStep) (makeStackFunc 2 1)
  | 0x08 => plain opAddmod (constGasFunc GasMidStep) (makeStackFunc 3 1)
  | 0x09 => plain opMulmod (constGasFunc GasMidStep) (makeStackFunc 3 1)
  | 0x0a => plain opExp gasExp (makeStackFunc 2 1)
  | 0x0b => plain opSignExtend (constGasFunc GasFastStep) (makeStackFunc 2 1)
  | 0x10 => plain opLt (constGasFunc GasFastestStep) (makeStackFunc 2 1)
  | 0x11 => plain opGt (constGasFunc GasFastestStep) (makeStackFunc 2 1)
  | 0x12 => plain opSlt (constGasFunc GasFastestStep) (makeStackFunc 2 1)
  | 0x13 => plain opSgt (constGasFunc GasFastestStep) (makeStackFunc 2 1)
  | 0x14 => plain opEq (constGasFunc GasFastestStep) (makeStackFunc 2 1)
  | 0x15 => plain opIszero (constGasFunc GasFastestStep) (makeStackFunc 1 1)
  | 0x16 => plain opAnd (constGasFunc GasFastestStep) (makeStackFunc 2 1)
  | 0x17 => plain opOr (constGasFunc GasFastestStep) (makeStackFunc 2 1)
  | 0x18 => plain opXor (constGasFunc GasFastestStep) (makeStackFunc 2 1)
  | 0x19 => plain opNot (constGasFunc GasFastestStep) (makeStackFunc 1 1)
  | 0x1a => plain opByte (constGasFunc GasFastestStep) (makeStackFunc 2 1)
  | 0x20 => with_mem (opSha3 cx) gasSha3 (makeStackFunc 2 1) memorySha3
  | _ => None
  end.

(** 0x30 to 0x45. *)
Definition frontier_environment (op : Z) : option operation :=
  match op with
  | 0x30 => plain opAddress (constGasFunc GasQuickStep) (makeStackFunc 0 1)
  | 0x31 => plain opBalance gasBalance (makeStackFunc 1 1)
  | 0x32 => plain (opOrigin cx) (constGasFunc GasQuickStep) (makeStackFunc 0 1)
  | 0x33 => plain opCaller (constGasFunc GasQuickStep) (makeStackFunc 0 1)
  | 0x34 => plain opCallValue (constGasFunc GasQuickStep) (makeStackFunc 0 1)
  | 0x35 => plain opCallDataLoad (constGasFunc GasFastestStep) (makeStackFunc 1 1)
  | 0x36 => plain opCallDataSize (constGasFunc GasQuickStep) (makeStackFunc 0 1)
  | 0x37 => with_mem opCallDataCopy gasCallDataCopy (makeStackFunc 3 0) memoryCallDataCopy
  | 0x38 => plain opCodeSize (constGasFunc GasQuickStep) (makeStackFunc 0 1)
  | 0x39 => with_mem opCodeCopy gasCodeCopy (makeStackFunc 3 0) memoryCodeCopy
  | 0x3a => plain (opGasprice cx) (constGasFunc GasQuickStep) (makeStackFunc 0 1)
  | 0x3b => plain opExtCodeSize gasExtCodeSize (makeStackFunc 1 1)
  | 0x3c => with_mem opExtCodeCopy gasExtCodeCopy (makeStackFunc 4 0) memoryExtCodeCopy
  | 0x40 => plain (opBlockhash cx) (constGasFunc GasExtStep) (makeStackFunc 1 1)
  | 0x41 => plain (opCoinbase cx) (constGasFunc GasQuickStep) (makeStackFunc 0 1)
  | 0x42 => plain (opTimestamp cx) (constGasFunc GasQuickStep) (makeStackFunc 0 1)
  | 0x43 => plain (opNumber cx) (constGasFunc GasQuickStep) (makeStackFunc 0 1)
  | 0x44 => plain (opSCNumber cx) (constGasFunc GasQuickStep) (makeStackFunc 0 1)
  | 0x45 => plain (opGasLimit cx) (constGasFunc GasQuickStep) (makeStackFunc 0 1)
  | _ => None
  end.

(** 0x50 to 0x5b. *)
Definition frontier_storage (op : Z) : option operation :=
  match op with
  | 0x50 => plain opPop (constGasFunc GasQuickStep) (makeStackFunc 1 0)
  | 0x51 => with_mem opMload gasMLoad (makeStackFunc 1 1) memoryMLoad
  | 0x52 => with_mem opMstore gasMStore (makeStackFunc 2 0) memoryMStore
  | 0x53 => with_mem opMstore8 gasMStore8 (makeStackFunc 2 0) memoryMStore8
  | 0x54 => plain opSload gasSLoad (makeStackFunc 1 1)
  | 0x55 => Some (mkOp opSstore gasSStore (makeStackFunc 2 0) None false false true false false)
  | 0x56 => Some (mkOp opJump (constGasFunc GasMidStep) (makeStackFunc 1 0) None false true false false false)
  | 0x57 => Some (mkOp opJumpi (constGasFunc GasSlowStep) (makeStackFunc 2 0) None false true false false false)
  | 0x58 => plain opPc (constGasFunc GasQuickStep) (makeStackFunc 0 1)
  | 0x59 => plain opMsize (constGasFunc GasQuickStep) (makeStackFunc 0 1)
  | 0x5a => plain opGas (constGasFunc GasQuickStep) (makeStackFunc 0 1)
  | 0x5b => plain opJumpdest (constGasFunc JumpdestGas) (makeStackFunc 0 0)
  | _ => None
  end.

(** PUSH1 to PUSH32. *)
Definition frontier_push (op : Z) : option operation :=
  if (0x60 <=? op) && (op <=? 0x7f)
  then plain (makePush (op - 0x60 + 1)) gasPush (makeStackFunc 0 1) else None.

(** DUP1 to DUP16. *)
Definition frontier_dup (op : Z) : option operation :=
  if (0x80 <=? op) && (op <=? 0x8f)
  then plain (makeDup (Z.to_nat (op - 0x80 + 1))) gasDup (makeDupStackFunc (op - 0x80 + 1))
  else None.

(** SWAP1 to SWAP16. *)
Definition frontier_swap (op : Z) : option operation :=
  if (0x90 <=? op) && (op <=? 0x9f)
  then plain (makeSwap (Z.to_nat (op - 0x90 + 1))) gasSwap (makeSwapStackFunc (op - 0x90 + 2))
  else None.

(** LOG0 to LOG4. *)
Definition frontier_log (op : Z) : option operation :=
  if (0xa0 <=? op) && (op <=? 0xa4)
  then Some (mkOp (makeLog cx (Z.to_nat (op - 0xa0))) (makeGasLog (op - 0xa0))
               (makeStackFunc (op - 0xa0 + 2) 0) (Some memoryLog) false false true false false)
  else None.

(** CREATE to SELFDESTRUCT. *)
Definition frontier_system (op : Z) : option operation :=
  match op with
  | 0xf0 => Some (mkOp (opCreate call) gasCreate (makeStackFunc 3 1) (Some memoryCreate)
                    false false true false true)
  | 0xf1 => Some (mkOp (opCall cx call) gasCall (makeStackFunc 7 1) (Some memoryCall)
                    false false false false true)
  | 0xf2 => Some (mkOp (opCallCode cx call) gasCallCode (makeStackFunc 7 1) (Some memoryCall)
                    false false false false true)
  | 0xf3 => Some (mkOp opReturn gasReturn (makeStackFunc 2 0) (Some memoryReturn)
                    true false false false false)
  | 0xff => Some (mkOp opSuicide gasSuicide (makeStackFunc 1 0) None true false true false false)
  | _ => None
  end.

Definition or_else (a b : option operation) : option operation :=
  match a with Some _ => a | None => b end.

Definition newFrontierInstructionSet (op : Z) : option operation :=
  or_else (frontier_arithmetic op) (or_else (frontier_environment op)
    (or_else (frontier_storage op) (or_else (frontier_push op) (or_else (frontier_dup op)
      (or_else (frontier_swap op) (or_else (frontier_log op) (frontier_system op))))))).

Definition newHomesteadInstructionSet (op : Z) : option operation :=
  match op with
  | 0xf4 => Some (mkOp (opDelegateCall call) gasDelegateCall (makeStackFunc 6 1)
                    (Some memoryDelegateCall) false false false false true)
  | _ => newFrontierInstructionSet op
  end.

Definition newByzantiumInstructionSet (op : Z) : option operation :=
  match op with
  | 0xfa => Some (mkOp (opStaticCall call) gasStaticCall (makeStackFunc 6 1)
                    (Some memoryStaticCall) false false false false true)
  | 0x3d => plain opReturnDataSize (constGasFunc GasQuickStep) (makeStackFunc 0 1)
  | 0x3e => with_mem opReturnDataCopy gasReturnDataCopy (makeStackFunc 3 0) memoryReturnDataCopy
  | 0xfd => Some (mkOp opRevert gasRevert (makeStackFunc 2 0) (Some memoryRevert)
                    false false false true true)
  | _ => newHomesteadInstructionSet op
  end.

Definition newConstantinopleInstructionSet (op : Z) : option operation :=
  match op with
  | 0x1b => plain opSHL (constGasFunc GasFastestStep) (makeStackFunc 2 1)
  | 0x1c => plain opSHR (constGasFunc GasFastestStep) (makeStackFunc 2 1)
  | 0x1d => plain opSAR (constGasFunc GasFastestStep) (makeStackFunc 2 1)
  | 0x3f => plain opExtCodeHash gasExtCodeHash (makeStackFunc 1 1)
  | 0xf5 => Some (mkOp opCreate2 gasCreate2 (makeStackFunc 4 1) (Some memoryCreate2)
                    false false true false true)
  | _ => newByzantiumInstructionSet op
  end.

End Table.
End Table.
