(* ===== verification/EvmRun.v ===== *)
(** The interpreter loop ([src/core/vm/evm/interpreter.go]), the native
    contracts' dispatch ([contracts.go]) and the calls between contracts
    ([evm.go]).

    The source recurses through [Run], an instruction and [EVM.Call]; here
    [loop] recurses on [fuel], one unit per instruction and per nested call.
    Tracing code (all commented out in the source) is left out. *)
From S2P Require Import Prelude Bech32 Address EvmWord EvmAnalysis EvmState EvmGas EvmInstr EvmTable.

Import Word Analysis State GasTab Instr Table.

Module Run.

Section Run.
Context {D : StateDB} {K : Crypto}.
Context (cx : Context_).

(** ** Native contracts *)

Record PrecompiledContract := mkPrecompiled {
  RequiredGas : bytes -> Z;
  Run_ : bytes -> result verr bytes
}.

Definition input_words (input : bytes) : Z := (Z.of_nat (length input) + 31) / 32.

Definition ecrecover : PrecompiledContract := mkPrecompiled (fun _ => 3000) ecrecover_Run.
Definition sha256hash : PrecompiledContract :=
  mkPrecompiled (fun input => u64 (input_words input * 12 + 60)) sha256_Run.
Definition ripemd160hash : PrecompiledContract :=
  mkPrecompiled (fun input => u64 (input_words input * 120 + 600)) ripemd160_Run.
Definition dataCopy : PrecompiledContract :=
  mkPrecompiled (fun input => u64 (input_words input * 3 + 15)) (fun input => Ok input).

Definition is_precompile (addr : Address) (i : Z) : bool :=
  bool_decide (addr = Address.BytesToAddress [i]).

Definition PrecompiledContractsHomestead (addr : Address) : option PrecompiledContract :=
  if is_precompile addr 1 then Some ecrecover
  else if is_precompile addr 2 then Some sha256hash
  else if is_precompile addr 3 then Some ripemd160hash
  else if is_precompile addr 4 then Some dataCopy
  else None.

(** Only which addresses the Byzantium table holds is ever asked. *)
Definition in_PrecompiledContractsByzantium (addr : Address) : bool :=
  existsb (is_precompile addr) [1; 2; 3; 4; 5; 6; 7; 8].

(** ** Results of running a contract *)

Inductive run_result :=
| Ran (r : bytes) (err : option verr) (c : Contract) (e : EVM)
| RunPanic
| RunNoFuel.

Definition RunPrecompiledContract (p : PrecompiledContract) (input : bytes) (c : Contract)
    (e : EVM) : run_result :=
  match UseGas (RequiredGas p input) c with
  | Some c => match Run_ p input with
              | Ok r => Ran r None c e
              | Err er => Ran [] (Some er) c e
              end
  | None => Ran [] (Some ErrOutOfGas) c e
  end.

(** ** One round of the loop of [Run] *)

Section Step.
Context (call : request -> EVM -> response).

Definition enforceRestrictions (op : Z) (o : operation) : M unit :=
  let! e := gete in
  if readOnly e then
    if writes o then fail errWriteProtection
    else if op =? CALL then
      let! val := backM 2 in
      if BitLen val >? 0 then fail errWriteProtection else ret tt
    else ret tt
  else ret tt.

Definition memory_needed (o : operation) : M Z :=
  match memorySize o with
  | None => ret 0
  | Some ms =>
      let! f := getf in
      let! size := need (ms (stack f)) in
      let! memSize := checked (bigUint64 size) in
      checked (SafeMul (toWordSize memSize) 32)
  end.

(** Any error of the gas function is reported as out of gas. *)
Definition charge (o : operation) (memorySize : Z) : M unit := fun s =>
  match gasCost o GasTableHomestead memorySize s with
  | Fail _ s => Fail ErrOutOfGas s
  | Panic => Panic
  | NoFuel => NoFuel
  | Val cost s =>
      match UseGas cost (contract (fr s)) with
      | None => Fail ErrOutOfGas s
      | Some c => Val tt (mkState (ev s) (set_contract c (fr s)))
      end
  end.

(** Executing, then [returnData]. *)
Definition perform (o : operation) : M bytes := fun s =>
  let keep (res : bytes) (s : vm_state) : vm_state :=
    if returns o then mkState (set_returnData res (ev s)) (fr s) else s in
  match execute o s with
  | Val res s => Val res (keep res s)
  | Fail er s => Fail er (keep [] s)
  | Panic => Panic
  | NoFuel => NoFuel
  end.

(** [Some]: the loop ends with this output and error. *)
Definition conclude (o : operation) (res : bytes) : M (option (bytes * option verr)) :=
  if reverts o then ret (Some (res, Some ErrExecutionReverted))
  else if halts o then ret (Some (res, None))
  else if negb (jumps o) then modf (fun f => set_pc (u64 (pc f + 1)) f) ;;; ret None
  else ret None.

(** A round once the operation is found and the stack is deep enough. *)
Definition round (op : Z) (o : operation) : M (option (bytes * option verr)) :=
  enforceRestrictions op o ;;;
  let! memorySize := memory_needed o in
  charge o memorySize ;;;
  (if memorySize >? 0
   then modf (fun f => set_mem (Resize (mem f) memorySize) f) else ret tt) ;;;
  let! res := perform o in
  conclude o res.

Definition step : M (option (bytes * option verr)) :=
  let! f := getf in
  let op := GetOp (contract f) (pc f) in
  match newConstantinopleInstructionSet cx call op with
  | None => fail (errInvalidOpcode op)
  | Some o =>
      match validateStack o (stack f) with
      | Some er => fail er
      | None => round op o
      end
  end.
End Step.

(** ** [Run] *)

Definition poolDefaultCap : nat := 25.

Definition get_pool (e : EVM) : EVM :=
  match free_pools e with
  | p :: rest => set_free_pools rest (set_pool (Some p) e)
  | [] => set_pool (Some false) e
  end.

Definition put_pool (e : EVM) : EVM :=
  let e' := set_pool None e in
  match pool e with
  | Some p => if (length (free_pools e) <? poolDefaultCap)%nat
              then set_free_pools (p :: free_pools e) e' else e'
  | None => e'
  end.

(** [EVMInterpreter.Run] around its loop: what is set up before and undone
    by the deferred functions after. *)
Definition Run_with (lp : vm_state -> out (bytes * option verr))
    (c : Contract) (input : bytes) (ro : bool) (e : EVM) : run_result :=
  let outermost := bool_decide (pool e = None) in
  let e := if outermost then get_pool e else e in
  let e := set_depth (depth e + 1) e in
  let sets := ro && negb (readOnly e) in
  let e := if sets then set_readOnly true e else e in
  let e := set_returnData [] e in
  let leave (e : EVM) : EVM :=
    let e := if sets then set_readOnly false e else e in
    let e := set_depth (depth e - 1) e in
    if outermost then put_pool e else e in
  match Code c with
  | [] => Ran [] None c (leave e)
  | _ =>
      match lp (mkState e (mkFrame 0 (set_Input input c) NewMemory [])) with
      | Val (r, err) s => Ran r err (contract (fr s)) (leave (set_pool (Some true) (ev s)))
      | Fail er s => Ran [] (Some er) (contract (fr s)) (leave (set_pool (Some true) (ev s)))
      | Panic => RunPanic
      | NoFuel => RunNoFuel
      end
  end.

(** ** evm.go *)

Inductive ContractRef := ByAccount (a : Address) | ByContract (c : Contract).

Definition ref_address (r : ContractRef) : Address :=
  match r with ByAccount a => a | ByContract c => self c end.

(** [NewContract] shares the parent contract's analyses, or starts afresh. *)
Definition share_jumpdests (r : ContractRef) (e : EVM) : EVM :=
  match r with ByAccount _ => set_jumpdests ∅ e | ByContract _ => e end.

Section Calls.
Context (lp : vm_state -> out (bytes * option verr)).

Definition run (c : Contract) (input : bytes) (ro : bool) (e : EVM) : run_result :=
  match CodeAddr c with
  | Some a =>
      match PrecompiledContractsHomestead a with
      | Some p => RunPrecompiledContract p input c e
      | None => Run_with lp c input ro e
      end
  | None => Run_with lp c input ro e
  end.

Definition answer_of (r : bytes) (gas : Z) (err : option verr) : answer :=
  mkAnswer r Address.zeroAddress gas err.

(** What every call does with the outcome: an error undoes the state
    changes and, unless it is a revert, consumes the gas. *)
Definition settle (snapshot : Z) (r : run_result) : response :=
  match r with
  | RunPanic => CallPanic
  | RunNoFuel => CallNoFuel
  | Ran ret None c e => Answered (answer_of ret (Gas c) None) e
  | Ran ret (Some er) c e =>
      let e := set_statedb (RevertToSnapshot (statedb e) snapshot) e in
      let gas := if bool_decide (er = ErrExecutionReverted) then Gas c else 0 in
      Answered (answer_of ret gas (Some er)) e
  end.

Definition run_inner (c : Contract) (input : bytes) (val : Z) (e : EVM) : run_result :=
  match HandleInnerMessage cx with
  | None => RunPanic
  | Some handle =>
      let '(r, gas, err, db) := handle (statedb e) (CallerAddress c) (self c) (Gas c) input val in
      Ran r err (set_Gas gas c) (set_statedb db e)
  end.

Definition is_inner (addr : Address) : bool :=
  match IsToInnerAccount cx with Some f => f addr | None => false end.

Definition Call (caller : ContractRef) (addr : Address) (input : bytes) (gas val : Z)
    (e : EVM) : response :=
  let from := ref_address caller in
  if NoRecursion cx && (depth e >? 0) then Answered (answer_of [] gas None) e
  else if depth e >? CallCreateDepth then Answered (answer_of [] gas (Some ErrDepth)) e
  else if negb (CanTransfer cx (statedb e) from val)
  then Answered (answer_of [] gas (Some ErrInsufficientBalance)) e
  else
    let '(snapshot, db) := Snapshot (statedb e) in
    if negb (Exist db addr) && negb (in_PrecompiledContractsByzantium addr) && (val =? 0)
    then Answered (answer_of [] gas None) (set_statedb db e)
    else
      let db := if Exist db addr then db else CreateAccount db addr in
      let db := Transfer cx db from addr val in
      let c := SetCallCode addr (GetCodeHash db addr) (GetCode db addr)
                 (NewContract from addr val gas) in
      let e := share_jumpdests caller (set_statedb db e) in
      settle snapshot (if is_inner addr then run_inner c input val e else run c input false e).

Definition CallCode (caller : ContractRef) (addr : Address) (input : bytes) (gas val : Z)
    (e : EVM) : response :=
  let from := ref_address caller in
  if NoRecursion cx && (depth e >? 0) then Answered (answer_of [] gas None) e
  else if depth e >? CallCreateDepth then Answered (answer_of [] gas (Some ErrDepth)) e
  else if negb (CanTransfer cx (statedb e) from val)
  then Answered (answer_of [] gas (Some ErrInsufficientBalance)) e
  else
    let '(snapshot, db) := Snapshot (statedb e) in
    let c := SetCallCode addr (GetCodeHash db addr) (GetCode db addr)
               (NewContract from from val gas) in
    settle snapshot (run c input false (share_jumpdests caller (set_statedb db e))).

(** The caller must be a contract: the source asserts it. *)
Definition DelegateCall (caller : Contract) (addr : Address) (input : bytes) (gas : Z)
    (e : EVM) : response :=
  if NoRecursion cx && (depth e >? 0) then Answered (answer_of [] gas None) e
  else if depth e >? CallCreateDepth then Answered (answer_of [] gas (Some ErrDepth)) e
  else
    let '(snapshot, db) := Snapshot (statedb e) in
    let c := SetCallCode addr (GetCodeHash db addr) (GetCode db addr)
               (AsDelegate caller (NewContract (self caller) (self caller) 0 gas)) in
    settle snapshot (run c input false (set_statedb db e)).

Definition StaticCall (caller : ContractRef) (addr : Address) (input : bytes) (gas : Z)
    (e : EVM) : response :=
  if NoRecursion cx && (depth e >? 0) then Answered (answer_of [] gas None) e
  else if depth e >? CallCreateDepth then Answered (answer_of [] gas (Some ErrDepth)) e
  else
    let '(snapshot, db) := Snapshot (statedb e) in
    let c := SetCallCode addr (GetCodeHash db addr) (GetCode db addr)
               (NewContract (ref_address caller) addr 0 gas) in
    let db := AddBalance db addr 0 in
    settle snapshot (run c input true (share_jumpdests caller (set_statedb db e))).

Definition emptyCodeHash : Hash := be_value (Keccak256 []).

Definition create_answer (r : bytes) (addr : Address) (gas : Z) (err : option verr) : answer :=
  mkAnswer r addr gas err.

(** The end of [create]: storing the code, then reverting on an error. *)
Definition finish_create (snapshot : Z) (address : Address) (r : run_result) : response :=
  match r with
  | RunPanic => CallPanic
  | RunNoFuel => CallNoFuel
  | Ran ret err c e =>
      let exceeded := Z.of_nat (length ret) >? MaxCodeSize in
      let '(err, c, e) :=
        match err with
        | None =>
            if exceeded then (None, c, e)
            else
              match UseGas (u64 (Z.of_nat (length ret) * CreateDataGas)) c with
              | Some c => (None, c, set_statedb (SetCode (statedb e) address ret) e)
              | None => (Some ErrCodeStoreOutOfGas, c, e)
              end
        | Some _ => (err, c, e)
        end in
      let failed := exceeded || bool_decide (is_Some err) in
      let e := if failed then set_statedb (RevertToSnapshot (statedb e) snapshot) e else e in
      let gas := if failed && negb (bool_decide (err = Some ErrExecutionReverted))
                 then 0 else Gas c in
      let err := if exceeded && negb (bool_decide (is_Some err))
                 then Some errMaxCodeSizeExceeded else err in
      Answered (create_answer ret address gas err) e
  end.

Definition create (caller : ContractRef) (code : bytes) (gas val : Z) (address : Address)
    (e : EVM) : response :=
  let from := ref_address caller in
  if depth e >? CallCreateDepth
  then Answered (create_answer [] Address.zeroAddress gas (Some ErrDepth)) e
  else if negb (CanTransfer cx (statedb e) from val)
  then Answered (create_answer [] Address.zeroAddress gas (Some ErrInsufficientBalance)) e
  else
    let contractHash := GetCodeHash (statedb e) address in
    if negb (GetNonce (statedb e) address =? 0)
       || (negb (contractHash =? 0) && negb (contractHash =? emptyCodeHash))
    then Answered (create_answer [] Address.zeroAddress 0 (Some ErrContractAddressCollision)) e
    else
      let '(snapshot, db) := Snapshot (statedb e) in
      let db := SetNonce (CreateAccount db address) address 1 in
      let db := Transfer cx db from address val in
      let c := SetCallCode address 0 code (NewContract from address val gas) in
      let e := share_jumpdests caller (set_statedb db e) in
      if NoRecursion cx && (depth e >? 0)
      then Answered (create_answer [] address gas None) e
      else finish_create snapshot address (run c [] false e).

Definition Create (caller : ContractRef) (code : bytes) (gas val : Z) (e : EVM) : response :=
  let contractAddr :=
    if Address.IsContract (UnitMC cx) && (UnitNumber cx =? 1) then UnitMC cx
    else GenerateContractAddress (UnitMC cx) (GetNonce (statedb e) (UnitMC cx)) in
  create caller code gas val contractAddr e.

Definition handle_request (r : request) (e : EVM) : response :=
  match r with
  | RCall c addr input gas val => Call (ByContract c) addr input gas val e
  | RCallCode c addr input gas val => CallCode (ByContract c) addr input gas val e
  | RDelegateCall c addr input gas => DelegateCall c addr input gas e
  | RStaticCall c addr input gas => StaticCall (ByContract c) addr input gas e
  | RCreate c code gas val => Create (ByContract c) code gas val e
  end.
End Calls.

(** ** The loop *)

Fixpoint loop (fuel : nat) (s : vm_state) : out (bytes * option verr) :=
  match fuel with
  | O => NoFuel
  | S fuel' =>
      if negb (abort (ev s) =? 0) then Val ([], None) s
      else
        match step (handle_request (loop fuel')) s with
        | Val (Some r) s => Val r s
        | Val None s => loop fuel' s
        | Fail er s => Fail er s
        | Panic => Panic
        | NoFuel => NoFuel
        end
  end.

End Run.
End Run.
