(* ===== verification/EvmSafe.v ===== *)
(** The safety of single instructions: the invariant of a running frame, a
    small program logic for the machine's monad, and the specification of each
    instruction, price and memory function.

    An instruction that passed the checks of the loop (stack depth, memory
    size, gas) never panics, keeps every stack item a 256-bit word, leaves
    exactly the announced number of items, and gives back no more gas than was
    set aside for it. *)
From S2P Require Import Prelude Bech32 Address EvmWord EvmAnalysis EvmJumpdest EvmState EvmGas EvmInstr EvmArith EvmTable.

Import Word Analysis Jumpdest State GasTab Instr Arith Table.

Module Safe.

(** ** What is assumed of the surroundings *)

Definition bytes_ok (l : bytes) : Prop :=
  Forall (fun b => is_byte b) l /\ Z.of_nat (length l) < 2 ^ 62.

Definition addr_ok (a : Address) : Prop :=
  length (Address.hash a) = 20%nat /\ Forall (fun b => is_byte b) (Address.hash a).

(** Account states hold words; code is a slice of bytes that a hash
    identifies (no collisions). *)
Class StateDBOk (D : StateDB) := {
  code_of : Hash -> bytes;
  GetCode_ok d a : bytes_ok (GetCode d a);
  GetCode_hash d a : GetCodeHash d a <> 0 -> GetCode d a = code_of (GetCodeHash d a);
  GetCodeHash_ok d a : is_word (GetCodeHash d a);
  GetBalance_ok d a : is_word (GetBalance d a);
  GetState_ok d a k : is_word (GetState d a k)
}.

Class CryptoOk (K : Crypto) := {
  Keccak256_ok b : length (Keccak256 b) = 32%nat /\ Forall (fun b => is_byte b) (Keccak256 b);
  GenerateContractAddress_ok a n : addr_ok (GenerateContractAddress a n);
  ecrecover_ok b r : ecrecover_Run b = Ok r -> bytes_ok r;
  sha256_ok b r : sha256_Run b = Ok r -> bytes_ok r;
  ripemd160_ok b r : ripemd160_Run b = Ok r -> bytes_ok r
}.

Record context_ok {D : StateDB} (cx : Context_) : Prop := {
  cx_hash n : is_word (GetHash cx n);
  cx_origin : addr_ok (Origin cx);
  cx_price : is_u64 (GasPrice cx);
  cx_coinbase : addr_ok (Coinbase cx);
  cx_mc : addr_ok (UnitMC cx);
  cx_inner h d c a g i v : HandleInnerMessage cx = Some h -> is_u64 g ->
    let '(r, g', _, _) := h d c a g i v in bytes_ok r /\ 0 <= g' <= g;
  cx_inner_set f : IsToInnerAccount cx = Some f -> is_Some (HandleInnerMessage cx)
}.

(** ** The invariant *)

(** The most memory a price is ever computed for. *)
Definition max_mem : Z := 0xffffffffe0.

(** A memory is a whole number of words. *)
Record mem_ok (m : Memory) : Prop := {
  mo_len : exists w, mem_len m = 32 * w;
  mo_bytes : Forall (fun b => is_byte b) (store m);
  mo_max : mem_len m <= max_mem
}.

Section Inv.
Context {D : StateDB} {DO : StateDBOk D} {K : Crypto} {KO : CryptoOk K}.

Record contract_ok (c : Contract) : Prop := {
  ck_caller : addr_ok (CallerAddress c);
  ck_self : addr_ok (self c);
  ck_code : bytes_ok (Code c);
  ck_input : bytes_ok (Input c);
  ck_gas : is_u64 (Gas c);
  ck_value : is_word (value c);
  ck_hash : CodeHash c <> 0 -> Code c = code_of (CodeHash c);
  ck_analysis bits : analysis c = Some bits -> codeBitmap (Code c) = Some bits
}.

Definition code_len (c : Contract) : Z := Z.of_nat (length (Code c)).

Record frame_ok (f : frame) : Prop := {
  fk_contract : contract_ok (contract f);
  fk_mem : mem_ok (mem f);
  fk_words : Forall (fun x => is_word x) (stack f);
  fk_depth : st_len (stack f) <= StackLimit;
  fk_pc : 0 <= pc f <= code_len (contract f) + 33
}.

Record env_ok (e : EVM) : Prop := {
  ek_pool : pool e = Some true;
  ek_cache h bits : jumpdests e !! h = Some bits -> codeBitmap (code_of h) = Some bits;
  ek_ret : bytes_ok (returnData e)
}.

(** What no instruction changes of the machine. *)
Record env_same (e e' : EVM) : Prop := {
  es_depth : depth e' = depth e;
  es_readOnly : readOnly e' = readOnly e;
  es_abort : abort e' = abort e
}.

Record same_code (c c' : Contract) : Prop := {
  sc_code : Code c' = Code c;
  sc_hash : CodeHash c' = CodeHash c;
  sc_addr : CodeAddr c' = CodeAddr c;
  sc_self : self c' = self c
}.

Definition Inv (s : vm_state) : Prop := env_ok (ev s) /\ frame_ok (fr s).

(** Where an error may leave the machine. *)
Definition fail_ok (s s' : vm_state) : Prop :=
  env_ok (ev s') /\ env_same (ev s) (ev s') /\ is_u64 (Gas (contract (fr s'))) /\
  Gas (contract (fr s')) <= Gas (contract (fr s)).

(** ** The logic *)

(** [m] run in [s] neither panics nor runs out of fuel; its result satisfies
    [Q], its error [E]. *)
Definition wp {A} (m : M A) (E : vm_state -> Prop) (Q : A -> vm_state -> Prop) (s : vm_state)
    : Prop :=
  match m s with
  | Val a s' => Q a s'
  | Fail _ s' => E s'
  | Panic | NoFuel => False
  end.

Lemma wp_bind {A B} (m : M A) (k : A -> M B) E Q s :
  wp m E (fun a s' => wp (k a) E Q s') s -> wp (bind m k) E Q s.
Proof. unfold wp, bind. by destruct (m s). Qed.

Lemma wp_ret {A} (a : A) E (Q : A -> vm_state -> Prop) s : Q a s -> wp (ret a) E Q s.
Proof. done. Qed.

Lemma wp_mono {A} (m : M A) E E' (Q Q' : A -> vm_state -> Prop) s :
  wp m E Q s -> (forall s', E s' -> E' s') -> (forall a s', Q a s' -> Q' a s') -> wp m E' Q' s.
Proof. unfold wp. destruct (m s); eauto. Qed.

Lemma wp_need {A} (o : option A) a E (Q : A -> vm_state -> Prop) s :
  o = Some a -> Q a s -> wp (need o) E Q s.
Proof. by intros ->. Qed.

Lemma wp_checked r E (Q : Z -> vm_state -> Prop) s :
  (snd r = false -> Q (fst r) s) -> E s -> wp (checked r) E Q s.
Proof. unfold checked. destruct r as [v []]; cbn; auto. Qed.

(** ** Words *)

Lemma be_value_word l : Forall (fun b => is_byte b) l -> (length l <= 32)%nat -> is_word (be_value l).
Proof.
  intros Hb Hl. pose proof (be_value_range l Hb). split; [lia|].
  eapply Z.lt_le_trans; [apply H|]. change (2 ^ 256) with (256 ^ 32). apply Z.pow_le_mono_r; lia.
Qed.

Lemma Big_word a : addr_ok a -> is_word (Address.Big a).
Proof. intros [Hl Hb]. apply be_value_word; [done|]. unfold Address.Big. lia. Qed.

Lemma bytes_ok_len l : bytes_ok l -> is_word (Z.of_nat (length l)).
Proof. intros [_ H]. lia. Qed.

Lemma Bytes_byte x : Forall (fun b => is_byte b) (Bytes x).
Proof. apply be_bytes_range. Qed.

Lemma BigToAddress_ok x : addr_ok (BigToAddress x).
Proof. destruct (Address.hash_of_ok (Bytes x) (Bytes_byte x)). by split. Qed.

Lemma u64_word x : is_word (u64 x).
Proof. pose proof (u64_range x). lia. Qed.

Lemma bool_word_word b : is_word (bool_word b).
Proof. destruct b; cbn; lia. Qed.

Lemma land_word x y : is_word x -> is_word y -> is_word (Z.land x y).
Proof.
  intros Hx Hy. rewrite <- (U256_small x), <- (U256_small y) by done. unfold U256.
  assert (Z.land (Z.land x (tt256 - 1)) (Z.land y (tt256 - 1)) = Z.land (Z.land x y) (tt256 - 1)) as ->
    by (bitwise; Btauto.btauto).
  apply (U256_word (Z.land x y)).
Qed.

Lemma Hash_word x : is_word (BigToHash x).
Proof. unfold BigToHash, tt256. apply Z.mod_pos_bound. lia. Qed.

(** ** Symbolic execution *)

Lemma wp_popM e p c m x st E (Q : Z -> vm_state -> Prop) :
  Q x (mkState e (mkFrame p c m st)) -> wp popM E Q (mkState e (mkFrame p c m (x :: st))).
Proof. done. Qed.

Lemma wp_pushM x e p c m st E (Q : unit -> vm_state -> Prop) :
  Q tt (mkState e (mkFrame p c m (x :: st))) -> wp (pushM x) E Q (mkState e (mkFrame p c m st)).
Proof. done. Qed.

Lemma wp_touch e f E (Q : unit -> vm_state -> Prop) :
  pool e = Some true -> Q tt (mkState e f) -> wp pool_touch E Q (mkState e f).
Proof. destruct e; cbn. intros ->. done. Qed.

Lemma wp_getZero e f E (Q : Z -> vm_state -> Prop) :
  pool e = Some true -> Q 0 (mkState e f) -> wp getZero E Q (mkState e f).
Proof. destruct e; cbn. intros ->. done. Qed.

Lemma wp_getf s E (Q : frame -> vm_state -> Prop) : Q (fr s) s -> wp getf E Q s.
Proof. done. Qed.
Lemma wp_gete s E (Q : EVM -> vm_state -> Prop) : Q (ev s) s -> wp gete E Q s.
Proof. done. Qed.
Lemma wp_modf g s E (Q : unit -> vm_state -> Prop) :
  Q tt (mkState (ev s) (g (fr s))) -> wp (modf g) E Q s.
Proof. done. Qed.
Lemma wp_mode g s E (Q : unit -> vm_state -> Prop) :
  Q tt (mkState (g (ev s)) (fr s)) -> wp (mode g) E Q s.
Proof. done. Qed.
Lemma wp_fail {A} er s (E : vm_state -> Prop) (Q : A -> vm_state -> Prop) :
  E s -> wp (fail er) E Q s.
Proof. done. Qed.

(** ** The specification of an instruction *)

(** The memory an instruction announces is there. *)
Definition fits (ms : option (Stack -> option Z)) (f : frame) : Prop :=
  match ms with
  | None => True
  | Some g => exists z, g (stack f) = Some z /\ z <= mem_len (mem f)
  end.

(** The machine after an instruction that changed the stack's length by [n]
    and may have given back [al] units of gas. *)
Record after (s s' : vm_state) (n al : Z) : Prop := {
  af_env : env_ok (ev s');
  af_same : env_same (ev s) (ev s');
  af_contract : contract_ok (contract (fr s'));
  af_code : same_code (contract (fr s)) (contract (fr s'));
  af_mem : mem_ok (mem (fr s'));
  af_words : Forall (fun x => is_word x) (stack (fr s'));
  af_len : st_len (stack (fr s')) = st_len (stack (fr s)) + n;
  af_gas : Gas (contract (fr s')) <= Gas (contract (fr s)) + al;
  af_pc : 0 <= pc (fr s') <= code_len (contract (fr s)) + 32
}.

(** [m] takes [pops] items, leaves [pushes], finds its memory [ms] and may
    hand out [al] units beyond the gas of the contract; [N] bounds all the
    gas there is. *)
Definition exec_spec (N : Z) (pops pushes : Z) (ms : option (Stack -> option Z))
    (al : vm_state -> Z) (m : M bytes) : Prop :=
  forall s, Inv s -> pc (fr s) < code_len (contract (fr s)) -> pops <= st_len (stack (fr s)) ->
    fits ms (fr s) -> 0 <= al s -> Gas (contract (fr s)) + al s < N ->
    wp m (fail_ok s) (fun r s' => bytes_ok r /\ after s s' (pushes - pops) (al s)) s.

Definition no_gas (_ : vm_state) : Z := 0.

Lemma bytes_ok_nil : bytes_ok [].
Proof. split; [constructor|cbn; lia]. Qed.

Lemma same_code_refl c : same_code c c.
Proof. by constructor. Qed.
Lemma env_same_refl e : env_same e e.
Proof. by constructor. Qed.

Lemma after_intro_gen e p c m st e' p' c' m' st' n al :
  env_ok e' -> env_same e e' -> contract_ok c' -> same_code c c' -> mem_ok m' ->
  Forall (fun x => is_word x) st' -> st_len st' = st_len st + n -> Gas c' <= Gas c + al ->
  0 <= p' <= code_len c + 32 ->
  after (mkState e (mkFrame p c m st)) (mkState e' (mkFrame p' c' m' st')) n al.
Proof. by constructor. Qed.

Lemma after_intro e p c m st e' p' m' st' n al :
  Inv (mkState e (mkFrame p c m st)) ->
  env_ok e' -> env_same e e' -> mem_ok m' -> Forall (fun x => is_word x) st' ->
  st_len st' = st_len st + n -> 0 <= al -> 0 <= p' <= code_len c + 32 ->
  after (mkState e (mkFrame p c m st)) (mkState e' (mkFrame p' c m' st')) n al.
Proof.
  intros [Ek Fk] ? ? ? ? ? ? ?. apply after_intro_gen; try done; [apply Fk|lia].
Qed.

Lemma fail_ok_refl s : Inv s -> fail_ok s s.
Proof.
  intros [Ek Fk]. split_and!; [done|apply env_same_refl|..|lia]; apply (ck_gas _ (fk_contract _ Fk)).
Qed.

Lemma fail_keep e p c m st p' m' st' :
  Inv (mkState e (mkFrame p c m st)) ->
  fail_ok (mkState e (mkFrame p c m st)) (mkState e (mkFrame p' c m' st')).
Proof.
  intros [Ek Fk]. split_and!; [done|apply env_same_refl|..|cbn; lia];
    apply (ck_gas _ (fk_contract _ Fk)).
Qed.

Lemma set_statedb_env v e : env_ok e -> env_ok (set_statedb v e).
Proof. by intros []. Qed.

End Inv.

(** Open a specification of an instruction that pops [n] items. *)
Ltac spec_open :=
  let s := fresh "s" in let st := fresh "st" in let e := fresh "e" in let p := fresh "p" in
  let c := fresh "c" in let m := fresh "m" in
  intros s I Hpc Hlen Hfits Hal HN; pose proof I as [Ek Fk];
  pose proof (ek_pool _ Ek) as Hpool; pose proof (fk_words _ Fk) as Hwords;
  destruct s as [e [p c m st]]; cbn [fr ev contract mem stack pc] in *; unfold st_len in *.

(** ... and name the items it pops. *)
Ltac spec_start :=
  spec_open;
  repeat match goal with
  | Hlen : _ <= Z.of_nat ?l |- _ =>
      match l with
      | context [length ?st] =>
          is_var st; destruct st as [|? st]; [exfalso; cbn [length] in Hlen; lia|];
          cbn [length] in Hlen
      end
  end;
  repeat match goal with
  | H : Forall _ (_ :: _) |- _ => apply list.Forall_cons in H as [? H]
  end.

Ltac wp_step :=
  match goal with
  | |- wp (bind _ _) _ _ _ => apply wp_bind
  | |- wp (ret _) _ _ _ => apply wp_ret
  | |- wp popM _ _ _ => apply wp_popM
  | |- wp (pushM _) _ _ _ => apply wp_pushM
  | |- wp pool_touch _ _ _ => apply wp_touch; [done|]
  | |- wp getZero _ _ _ => apply wp_getZero; [done|]
  | |- wp getf _ _ _ => apply wp_getf
  | |- wp gete _ _ _ => apply wp_gete
  | |- wp (modf _) _ _ _ =>
      apply wp_modf; unfold set_mem, set_pc, set_contract, set_stack
  | |- wp (mode _) _ _ _ => apply wp_mode
  | |- wp (if ?x then _ else _) _ _ _ => destruct x eqn:?
  end; cbn [fr ev contract mem stack pc].

Create HintDb words_ok.

#[export] Hint Resolve U256_word u64_word bool_word_word Hash_word : words_ok.

End Safe.
