(* ===== verification/EvmOps.v ===== *)
(** Every instruction that does not call another contract meets its
    specification. *)
From S2P Require Import Prelude Bech32 Address EvmWord EvmAnalysis EvmJumpdest EvmState EvmGas EvmInstr EvmArith EvmTable EvmSafe.

Import Word Analysis Jumpdest State GasTab Instr Arith Table Safe.

Module Ops.

(** ** Word operations stay within words *)

Lemma zero_word : is_word 0.
Proof. lia. Qed.
Lemma one_word : is_word 1.
Proof. lia. Qed.
#[export] Hint Resolve zero_word one_word : words_ok.

Lemma div_word x y : is_word x -> is_word y -> y <> 0 -> is_word (x / y).
Proof.
  intros Hx Hy Hne. split; [apply Z.div_pos; lia|].
  eapply Z.le_lt_trans; [apply (Z.div_le_upper_bound x y x); nia|lia].
Qed.

Lemma f_div_word x y : is_word x -> is_word y -> is_word (f_div x y).
Proof. intros. unfold f_div. case_if; auto with words_ok. Qed.
Lemma f_sdiv_word x y : is_word x -> is_word y -> is_word (f_sdiv x y).
Proof. intros. unfold f_sdiv. repeat case_if; auto with words_ok. Qed.
Lemma f_mod_word x y : is_word x -> is_word y -> is_word (f_mod x y).
Proof. intros. unfold f_mod. case_if; auto with words_ok. Qed.
Lemma f_smod_word x y : is_word x -> is_word y -> is_word (f_smod x y).
Proof. intros. unfold f_smod. repeat case_if; auto with words_ok. Qed.
Lemma f_exp_word x y : is_word x -> is_word y -> is_word (f_exp x y).
Proof.
  intros. unfold f_exp. repeat case_if; auto with words_ok. rewrite Exp_spec by lia.
  by apply Z.mod_pos_bound.
Qed.
Lemma f_slt_word x y : is_word (f_slt x y).
Proof. unfold f_slt. repeat case_if; auto with words_ok. Qed.
Lemma f_sgt_word x y : is_word (f_sgt x y).
Proof. unfold f_sgt. repeat case_if; auto with words_ok. Qed.
Lemma f_iszero_word x : is_word (f_iszero x).
Proof. unfold f_iszero. repeat case_if; auto with words_ok. Qed.
Lemma f_byte_word x y : is_word x -> is_word y -> is_word (f_byte x y).
Proof.
  intros. unfold f_byte, Byte, bigEndianByteAt. repeat case_if; auto with words_ok.
  match goal with |- context [u8 ?a] => pose proof (u8_range a) end. lia.
Qed.
Lemma f_addmod_word x y z : is_word (f_addmod x y z).
Proof. unfold f_addmod. repeat case_if; auto with words_ok. Qed.
Lemma f_mulmod_word x y z : is_word (f_mulmod x y z).
Proof. unfold f_mulmod. repeat case_if; auto with words_ok. Qed.
Lemma f_shl_word x y : is_word (f_shl x y).
Proof. unfold f_shl. cbv zeta. case_if; auto with words_ok. Qed.
Lemma f_shr_word x y : is_word (f_shr x y).
Proof. unfold f_shr. cbv zeta. case_if; auto with words_ok. Qed.
Lemma f_sar_word x y : is_word (f_sar x y).
Proof. unfold f_sar. cbv zeta. repeat case_if; auto with words_ok. Qed.
Lemma f_signextend_word x y : is_word (f_signextend x y).
Proof. unfold f_signextend. cbv zeta. case_if; auto with words_ok. Qed.
Lemma lor_word x y : is_word x -> is_word y -> is_word (Z.lor x y).
Proof. intros. apply lor_bound; lia. Qed.
Lemma lxor_word x y : is_word x -> is_word y -> is_word (Z.lxor x y).
Proof. intros. apply lxor_bound; lia. Qed.

#[export] Hint Resolve f_div_word f_sdiv_word f_mod_word f_smod_word f_exp_word f_slt_word
  f_sgt_word f_iszero_word f_byte_word f_addmod_word f_mulmod_word f_shl_word f_shr_word f_sar_word
  f_signextend_word land_word lor_word lxor_word : words_ok.

(** ** Memory *)

Lemma i64_mem off : is_word off -> off <= max_mem -> Int64 off = off.
Proof. unfold Int64, max_mem. intros. apply i64_small. lia. Qed.

Lemma mem_Get_ok m off sz :
  mem_ok m -> is_word off -> is_word sz -> calcMemSize off sz <= mem_len m ->
  exists d, mem_Get m (Int64 off) (Int64 sz) = Some d /\ bytes_ok d /\
    (sz <> 0 -> Z.of_nat (length d) = sz).
Proof.
  intros [_ Hb Hx] Ho Hs Hc. unfold calcMemSize, max_mem in *.
  destruct (Z.eqb_spec sz 0) as [->|Hne].
  { exists []. split_and!; [done|apply bytes_ok_nil|done]. }
  unfold Int64. rewrite !i64_small by lia. unfold mem_Get.
  destruct (Z.eqb_spec sz 0); [done|]. rewrite !Z.gtb_ltb.
  destruct (Z.ltb_spec off (mem_len m)); [|lia].
  destruct (Z.ltb_spec off 0); [lia|]. destruct (Z.ltb_spec sz 0); [lia|].
  destruct (Z.ltb_spec (mem_len m) (off + sz)); [lia|]. cbn [orb]. eexists; split; [done|].
  unfold mem_len in *. split_and!.
  - split; [by apply Forall_take, Forall_drop|]. rewrite length_take, length_drop. lia.
  - intros _. rewrite length_take, length_drop. lia.
Qed.

Lemma splice_length s off size v :
  (off + Nat.min size (length v) <= length s)%nat -> length (splice s off size v) = length s.
Proof.
  intros H. unfold splice. rewrite !length_app, !length_take, length_drop. lia.
Qed.

Lemma splice_bytes s off size v :
  Forall (fun b => is_byte b) s -> Forall (fun b => is_byte b) v ->
  Forall (fun b => is_byte b) (splice s off size v).
Proof.
  intros. unfold splice. apply Forall_app; split; [by apply Forall_take|].
  apply Forall_app; split; [by apply Forall_take|by apply Forall_drop].
Qed.

Lemma mem_ok_store m l :
  mem_ok m -> length l = length (store m) -> Forall (fun b => is_byte b) l ->
  mem_ok (mkMemory l (lastGasCost m)).
Proof.
  intros [Hl Hb Hx] El Hb'. unfold mem_len in *. constructor; unfold mem_len; cbn [store];
    rewrite ?El; done.
Qed.

Lemma mem_Set_ok m off sz v :
  mem_ok m -> is_word off -> is_word sz -> calcMemSize off sz <= mem_len m ->
  Forall (fun b => is_byte b) v ->
  exists m', mem_Set m (Uint64 off) (Uint64 sz) v = Some m' /\ mem_ok m'.
Proof.
  intros Hm Ho Hs Hc Hv. pose proof Hm as [_ Hb Hx]. unfold calcMemSize, max_mem in *.
  destruct (Z.eqb_spec sz 0) as [->|Hne]; [by exists m|].
  unfold Uint64. rewrite !u64_small by lia. unfold mem_Set. rewrite !Z.gtb_ltb.
  destruct (Z.ltb_spec 0 sz); [|lia]. rewrite u64_small by lia.
  destruct (Z.ltb_spec (mem_len m) (off + sz)); [lia|]. destruct (Z.ltb_spec (off + sz) off); [lia|].
  eexists; split; [done|]. unfold mem_len in *. apply mem_ok_store; [done| |by apply splice_bytes].
  apply splice_length. lia.
Qed.

Lemma ReadBits_bytes x buf :
  Forall (fun b => is_byte b) buf -> Forall (fun b => is_byte b) (ReadBits x buf).
Proof. intros. apply Forall_app; split; [by apply Forall_take|apply be_bytes_range]. Qed.

Lemma mem_Set32_ok m off v :
  mem_ok m -> is_word off -> off + 32 <= mem_len m ->
  exists m', mem_Set32 m (Uint64 off) v = Some m' /\ mem_ok m'.
Proof.
  intros Hm Ho Hc. pose proof Hm as [_ Hb Hx]. unfold max_mem in *.
  unfold Uint64. rewrite !u64_small by lia. unfold mem_Set32. rewrite !Z.gtb_ltb, u64_small by lia.
  destruct (Z.ltb_spec (mem_len m) (off + 32)); [lia|]. destruct (Z.ltb_spec (off + 32) off); [lia|].
  eexists; split; [done|]. unfold mem_len in *.
  apply mem_ok_store; [done| |apply splice_bytes; [done|]].
  - apply splice_length. lia.
  - apply ReadBits_bytes, Forall_replicate. lia.
Qed.

Lemma mem_Set8_ok m off b :
  mem_ok m -> is_word off -> off + 1 <= mem_len m -> is_byte b ->
  exists m', mem_Set8 m (Int64 off) b = Some m' /\ mem_ok m'.
Proof.
  intros Hm Ho Hc Hb'. pose proof Hm as [_ Hb Hx]. unfold max_mem in *.
  unfold Int64. rewrite i64_small by lia. unfold mem_Set8. rewrite Z.geb_leb.
  destruct (Z.ltb_spec off 0); [lia|]. destruct (Z.leb_spec (mem_len m) off); [lia|]. cbn [orb].
  eexists; split; [done|]. apply mem_ok_store; [done|by rewrite length_insert|].
  by apply Forall_insert.
Qed.

Lemma RightPad_bytes l n :
  Forall (fun b => is_byte b) l -> Forall (fun b => is_byte b) (RightPadBytes l n).
Proof.
  intros. unfold RightPadBytes. case_if; [done|]. apply Forall_app; split; [done|].
  apply Forall_replicate. lia.
Qed.

Lemma getDataBig_bytes d s n :
  Forall (fun b => is_byte b) d -> Forall (fun b => is_byte b) (getDataBig d s n).
Proof. intros. unfold getDataBig. apply RightPad_bytes. by apply Forall_take, Forall_drop. Qed.

Lemma getDataBig_32 d s : is_word s -> length (getDataBig d s 32) = 32%nat.
Proof.
  intros Hs. unfold getDataBig, RightPadBytes. rewrite length_take, length_drop.
  change (Int64 32) with 32. set (n := Z.of_nat (length d)).
  set (s' := BigMin s n). assert (0 <= s' <= n) by (unfold s', BigMin; rewrite Z.gtb_ltb; zcase; lia).
  set (e' := BigMin (s' + 32) n).
  assert (s' <= e' <= n /\ e' <= s' + 32) by (unfold e', BigMin; rewrite Z.gtb_ltb; zcase; lia).
  zcase; rewrite ?length_app, ?length_replicate, ?length_take, ?length_drop; lia.
Qed.

(** ** Simple instructions *)

(** The state after an instruction that changed the stack, the memory or the
    account state. *)
Ltac finish_op :=
  split; [first [apply bytes_ok_nil | done]|];
  match goal with
  | Fk : frame_ok _ |- _ =>
      pose proof (fk_pc _ Fk); cbn [pc contract] in *;
      apply after_intro; unfold st_len, no_gas; cbn [length fr ev contract mem stack pc];
      [ assumption | first [assumption | by apply set_statedb_env] | by constructor | first [assumption | apply Fk]
      | repeat first [assumption | apply list.Forall_cons; split]; auto with words_ok
      | lia | lia | lia ]
  end.

Section Ops.
Context {D : StateDB} {DO : StateDBOk D} {K : Crypto} {KO : CryptoOk K}.
Context (cx : Context_) (CX : context_ok cx) (N : Z).

Lemma spec_binop f :
  (forall x y, is_word x -> is_word y -> is_word (f x y)) ->
  exec_spec N 2 1 None no_gas (binop f).
Proof. intros Hf. spec_start. unfold binop. repeat wp_step. finish_op. Qed.

Lemma spec_ternop f :
  (forall x y z, is_word (f x y z)) -> exec_spec N 3 1 None no_gas (ternop f).
Proof. intros Hf. spec_start. unfold ternop. repeat wp_step. finish_op. Qed.

Lemma spec_unop f : (forall x, is_word x -> is_word (f x)) -> exec_spec N 1 1 None no_gas (unop f).
Proof. intros Hf. spec_start. unfold unop. repeat wp_step. finish_op. Qed.

Lemma spec_push_env pooled f :
  (forall e fr, env_ok e -> frame_ok fr -> is_word (f e fr)) ->
  exec_spec N 0 1 None no_gas (push_env pooled f).
Proof.
  intros Hf. spec_start. unfold push_env. pose proof (Hf _ _ Ek Fk).
  destruct pooled; repeat wp_step; finish_op.
Qed.

Lemma spec_opSdiv : exec_spec N 2 1 None no_gas opSdiv.
Proof. spec_start. unfold opSdiv. repeat wp_step. finish_op. Qed.
Lemma spec_opSmod : exec_spec N 2 1 None no_gas opSmod.
Proof. spec_start. unfold opSmod. repeat wp_step. finish_op. Qed.
Lemma spec_opSignExtend : exec_spec N 2 1 None no_gas opSignExtend.
Proof. spec_start. unfold opSignExtend. repeat wp_step; finish_op. Qed.

Lemma spec_opPop : exec_spec N 1 0 None no_gas opPop.
Proof. spec_start. unfold opPop. repeat wp_step. finish_op. Qed.
Lemma spec_opStop : exec_spec N 0 0 None no_gas opStop.
Proof. spec_start. unfold opStop. repeat wp_step. finish_op. Qed.
Lemma spec_opJumpdest : exec_spec N 0 0 None no_gas opJumpdest.
Proof. spec_start. unfold opJumpdest. repeat wp_step. finish_op. Qed.

(** *** State access *)

Lemma spec_opBalance : exec_spec N 1 1 None no_gas opBalance.
Proof.
  spec_start. unfold opBalance. repeat wp_step.
  - apply wp_fail. by apply fail_keep.
  - pose proof (GetBalance_ok (statedb e) (BigToAddress z)). finish_op.
Qed.

Lemma spec_opSload : exec_spec N 1 1 None no_gas opSload.
Proof.
  spec_start. unfold opSload. repeat wp_step.
  pose proof (GetState_ok (statedb e) (self c) (BigToHash z)). finish_op.
Qed.

Lemma spec_opSstore : exec_spec N 2 0 None no_gas opSstore.
Proof.
  spec_start. unfold opSstore. repeat wp_step; try done. finish_op.
Qed.

Lemma spec_opExtCodeSize : exec_spec N 1 1 None no_gas opExtCodeSize.
Proof. spec_start. unfold opExtCodeSize. repeat wp_step. finish_op. Qed.

Lemma spec_opExtCodeHash : exec_spec N 1 1 None no_gas opExtCodeHash.
Proof.
  spec_start. unfold opExtCodeHash. repeat wp_step.
  pose proof (GetCodeHash_ok (statedb e) (BigToAddress z)).
  assert (is_word (if Empty (statedb e) (BigToAddress z) then 0
                   else GetCodeHash (statedb e) (BigToAddress z))) by (case_if; lia).
  finish_op.
Qed.

Lemma spec_opBlockhash : exec_spec N 1 1 None no_gas (opBlockhash cx).
Proof.
  spec_start. unfold opBlockhash. repeat wp_step.
  - pose proof (cx_hash _ CX (Uint64 z)). finish_op.
  - finish_op.
Qed.

(** *** Memory *)

Lemma spec_opMload : exec_spec N 1 1 (Some memoryMLoad) no_gas opMload.
Proof.
  spec_start. destruct Hfits as (n & Hn & Hle). injection Hn as <-. cbn in Hle.
  destruct (mem_Get_ok m z 32) as (d & E & [Hd Hdl] & Hl); [apply Fk|done|lia|done|].
  unfold opMload, memGet. repeat wp_step. change (Int64 32) with 32 in E.
  eapply wp_need; [exact E|]. repeat wp_step.
  assert (is_word (be_value d)) by (apply be_value_word; [done|]; specialize (Hl ltac:(lia)); lia).
  finish_op.
Qed.

Lemma spec_opMstore : exec_spec N 2 0 (Some memoryMStore) no_gas opMstore.
Proof.
  spec_start. destruct Hfits as (n & Hn & Hle). injection Hn as <-. cbn in Hle.
  destruct (mem_Set32_ok m z z0) as (m' & E & Hm'); [apply Fk|done|done|].
  unfold opMstore. repeat wp_step. eapply wp_need; [exact E|]. repeat wp_step. finish_op.
Qed.

Lemma spec_opMstore8 : exec_spec N 2 0 (Some memoryMStore8) no_gas opMstore8.
Proof.
  spec_start. destruct Hfits as (n & Hn & Hle). injection Hn as <-. cbn in Hle.
  destruct (mem_Set8_ok m z (u8 (Z.land (Int64 z0) 255))) as (m' & E & Hm');
    [apply Fk|done|done|apply u8_range|].
  unfold opMstore8. repeat wp_step. eapply wp_need; [exact E|]. repeat wp_step. finish_op.
Qed.

Lemma spec_opReturn : exec_spec N 2 0 (Some memoryReturn) no_gas opReturn.
Proof.
  spec_start. destruct Hfits as (n & Hn & Hle). injection Hn as <-.
  destruct (mem_Get_ok m z z0) as (d & E & Hd & _); [apply Fk|done..|].
  unfold opReturn, memGet. repeat wp_step. eapply wp_need; [exact E|]. repeat wp_step.
  finish_op.
Qed.

Lemma spec_opRevert : exec_spec N 2 0 (Some memoryRevert) no_gas opRevert.
Proof. exact spec_opReturn. Qed.

Lemma memSet_spec off sz v e p c m st (E : vm_state -> Prop) (Q : unit -> vm_state -> Prop) :
  mem_ok m -> is_word off -> is_word sz -> calcMemSize off sz <= mem_len m ->
  Forall (fun b => is_byte b) v ->
  (forall m', mem_ok m' -> Q tt (mkState e (mkFrame p c m' st))) ->
  wp (memSet (Uint64 off) (Uint64 sz) v) E Q (mkState e (mkFrame p c m st)).
Proof.
  intros Hm Ho Hs Hc Hv HQ. destruct (mem_Set_ok m off sz v) as (m' & Em & Hm'); [done..|].
  unfold memSet. repeat wp_step. eapply wp_need; [exact Em|]. repeat wp_step. by apply HQ.
Qed.

Lemma spec_copy source ms :
  (forall f e, frame_ok f -> env_ok e -> Forall (fun b => is_byte b) (source f e)) ->
  (forall st, ms st = mem_size (Back st 0) (Back st 2)) ->
  exec_spec N 3 0 (Some ms) no_gas (copy_to_memory source).
Proof.
  intros Hsrc Hms. spec_start. destruct Hfits as (n & Hn & Hle). rewrite Hms in Hn.
  injection Hn as <-. unfold copy_to_memory. repeat wp_step.
  apply memSet_spec; [apply Fk|done..| |].
  - apply getDataBig_bytes, Hsrc; [|done]. destruct Fk. constructor; cbn in *; try done.
    unfold st_len, StackLimit in *. cbn [length] in *. lia.
  - intros m' Hm'. repeat wp_step. finish_op.
Qed.

Lemma spec_opCallDataCopy : exec_spec N 3 0 (Some memoryCallDataCopy) no_gas opCallDataCopy.
Proof. apply spec_copy; [|done]. intros f e [Hc _ _ _ _] _. apply (ck_input _ Hc). Qed.
Lemma spec_opCodeCopy : exec_spec N 3 0 (Some memoryCodeCopy) no_gas opCodeCopy.
Proof. apply spec_copy; [|done]. intros f e [Hc _ _ _ _] _. apply (ck_code _ Hc). Qed.

Lemma spec_opReturnDataCopy : exec_spec N 3 0 (Some memoryReturnDataCopy) no_gas opReturnDataCopy.
Proof.
  spec_start. destruct Hfits as (n & Hn & Hle). injection Hn as <-.
  unfold opReturnDataCopy. repeat wp_step; [apply wp_fail; by apply fail_keep|].
  match goal with H : _ || _ = false |- _ => apply orb_false_iff in H as [Hb Hr] end.
  rewrite BitLen_gt in Hb by lia. apply Z.leb_gt in Hb. apply Z.ltb_ge in Hr.
  assert (Uint64 (z0 + z1) = z0 + z1) as E1 by (apply u64_small; lia).
  assert (Uint64 z0 = z0) as E0 by (apply u64_small; lia). rewrite E0, E1 in *.
  eapply wp_need; [destruct (Z.leb_spec z0 (z0 + z1)); [done|lia]|].
  apply wp_bind. apply memSet_spec; [apply Fk|done..| |].
  - apply Forall_take, Forall_drop. apply Ek.
  - intros m' Hm'. repeat wp_step. finish_op.
Qed.

Lemma spec_opCallDataLoad : exec_spec N 1 1 None no_gas opCallDataLoad.
Proof.
  spec_start. unfold opCallDataLoad. repeat wp_step.
  assert (is_word (be_value (getDataBig (Input c) z 32))).
  { apply be_value_word; [|by rewrite getDataBig_32].
    apply getDataBig_bytes. apply (ck_input _ (fk_contract _ Fk)). }
  finish_op.
Qed.

Lemma spec_opSha3 : exec_spec N 2 1 (Some memorySha3) no_gas (opSha3 cx).
Proof.
  spec_start. destruct Hfits as (n & Hn & Hle). injection Hn as <-.
  destruct (mem_Get_ok m z z0) as (d & E & Hd & _); [apply Fk|done..|].
  unfold opSha3, memGet. repeat wp_step; (eapply wp_need; [exact E|]); repeat wp_step;
    destruct (Keccak256_ok d) as [Hl Hk];
    assert (is_word (be_value (Keccak256 d))) by (apply be_value_word; [done|lia]); try done;
    finish_op.
Qed.

End Ops.
End Ops.
