(* ===== verification/EvmFlow.v ===== *)
(** The remaining instructions that do not call another contract: the
    environment, jumps, the PUSH, DUP, SWAP and LOG families, and SELFDESTRUCT. *)
From S2P Require Import Prelude Bech32 Address EvmWord EvmAnalysis EvmJumpdest EvmState EvmGas EvmInstr EvmArith EvmTable EvmSafe EvmOps.

Import Word Analysis Jumpdest State GasTab Instr Arith Table Safe Ops.

Module Flow.

Section Flow.
Context {D : StateDB} {DO : StateDBOk D} {K : Crypto} {KO : CryptoOk K}.
Context (cx : Context_) (CX : context_ok cx) (N : Z).

(** ** Environment *)

Ltac env_op := apply spec_push_env; intros ev_ fr_ He [Hc Hm _ _ Hp]; cbn.

Lemma spec_opAddress : exec_spec N 0 1 None no_gas opAddress.
Proof. env_op. apply Big_word, Hc. Qed.
Lemma spec_opOrigin : exec_spec N 0 1 None no_gas (opOrigin cx).
Proof. env_op. apply Big_word, CX. Qed.
Lemma spec_opCaller : exec_spec N 0 1 None no_gas opCaller.
Proof. env_op. apply Big_word, Hc. Qed.
Lemma spec_opCallValue : exec_spec N 0 1 None no_gas opCallValue.
Proof. env_op. apply Hc. Qed.
Lemma spec_opCallDataSize : exec_spec N 0 1 None no_gas opCallDataSize.
Proof. env_op. apply bytes_ok_len, Hc. Qed.
Lemma spec_opReturnDataSize : exec_spec N 0 1 None no_gas opReturnDataSize.
Proof. env_op. apply bytes_ok_len, He. Qed.
Lemma spec_opCodeSize : exec_spec N 0 1 None no_gas opCodeSize.
Proof. env_op. apply bytes_ok_len, Hc. Qed.
Lemma spec_opGasprice : exec_spec N 0 1 None no_gas (opGasprice cx).
Proof. env_op. pose proof (cx_price _ CX). lia. Qed.
Lemma spec_opCoinbase : exec_spec N 0 1 None no_gas (opCoinbase cx).
Proof. env_op. apply Big_word, CX. Qed.
Lemma spec_opTimestamp : exec_spec N 0 1 None no_gas (opTimestamp cx).
Proof. env_op. apply U256_word. Qed.
Lemma spec_opNumber : exec_spec N 0 1 None no_gas (opNumber cx).
Proof. env_op. apply U256_word. Qed.
Lemma spec_opSCNumber : exec_spec N 0 1 None no_gas (opSCNumber cx).
Proof. env_op. apply U256_word. Qed.
Lemma spec_opGasLimit : exec_spec N 0 1 None no_gas (opGasLimit cx).
Proof. env_op. apply U256_word. Qed.
Lemma spec_opPc : exec_spec N 0 1 None no_gas opPc.
Proof. env_op. pose proof (ck_code _ Hc) as [_ Hl]. unfold code_len in *. lia. Qed.
Lemma spec_opMsize : exec_spec N 0 1 None no_gas opMsize.
Proof. env_op. destruct Hm as [_ _ Hx]. unfold max_mem, mem_len in *. lia. Qed.
Lemma spec_opGas : exec_spec N 0 1 None no_gas opGas.
Proof. env_op. pose proof (ck_gas _ Hc). lia. Qed.

(** ** Jumps *)

(** A jump target: a JUMPDEST that an instruction starts with. *)
Definition valid (code : bytes) (dest : Z) : Prop :=
  starts code dest /\ code !! Z.to_nat dest = Some JUMPDEST.

Lemma valid_range code dest : valid code dest -> 0 <= dest < Z.of_nat (length code).
Proof. intros [Hs Hl%lookup_lt_Some]. pose proof (starts_nonneg _ _ Hs). lia. Qed.

(** The check may make an analysis, and passes for valid targets only. *)
Lemma validJumpdest_spec dest e p c m st (E : vm_state -> Prop) (Q : bool -> vm_state -> Prop) :
  env_ok e -> contract_ok c -> is_word dest ->
  (forall b e' c', env_ok e' -> env_same e e' -> contract_ok c' -> same_code c c' -> Gas c' = Gas c ->
    (b = true <-> valid (Code c) dest) -> Q b (mkState e' (mkFrame p c' m st))) ->
  wp (validJumpdest dest) E Q (mkState e (mkFrame p c m st)).
Proof.
  intros Ek Ck Hd HQ.
  assert (~ valid (Code c) dest -> Q false (mkState e (mkFrame p c m st))) as Hno.
  { intros Hv. apply (HQ false e c); try done. }
  pose proof (ck_code _ Ck) as [_ Hlen62].
  unfold validJumpdest. do 4 wp_step.
  destruct (Z.ltb_spec dest (Z.of_nat (length (Code c)))) as [Hl|Hl]; cycle 1.
  { assert ((BitLen dest >=? 63) || (Uint64 dest >=? Z.of_nat (length (Code c))) = true) as ->;
      [|apply Hno; intros Hv%valid_range; lia].
    rewrite Z.geb_leb. destruct (Z.leb_spec 63 (BitLen dest)) as [|Hb]; [done|].
    assert ((BitLen dest >? 62) = false) as Hb' by (rewrite Z.gtb_ltb; apply Z.ltb_ge; lia).
    rewrite BitLen_gt in Hb' by lia. apply Z.leb_gt in Hb'. cbn [orb].
    unfold Uint64. rewrite u64_small, Z.geb_leb by lia. by apply Z.leb_le. }
  assert (Uint64 dest = dest) as Eu by (apply u64_small; lia). rewrite Eu.
  assert ((BitLen dest >=? 63) || (dest >=? Z.of_nat (length (Code c))) = false) as ->.
  { rewrite !Z.geb_leb. apply orb_false_iff. split; [|apply Z.leb_gt; lia].
    pose proof (BitLen_gt dest 62 ltac:(lia) ltac:(lia)) as Hb.
    rewrite (proj2 (Z.leb_gt _ _)) in Hb by lia. rewrite Z.gtb_ltb in Hb. apply Z.ltb_ge in Hb.
    apply Z.leb_gt. lia. }
  destruct (lookup_lt_is_Some_2 (Code c) (Z.to_nat dest)) as [op Hop]; [lia|].
  rewrite (nth_lookup_Some _ _ _ _ Hop).
  destruct (Z.eqb_spec op JUMPDEST) as [->|Hne]; cbn [negb]; cycle 1.
  { apply Hno. intros [_ Hv]. rewrite Hop in Hv. by injection Hv. }
  assert (forall bits e' c', codeBitmap (Code c) = Some bits -> env_ok e' -> env_same e e' ->
    contract_ok c' -> same_code c c' -> Gas c' = Gas c ->
    wp (need (codeSegment bits dest)) E Q (mkState e' (mkFrame p c' m st))) as Hseg.
  { intros bits e' c' Hbits ? ? ? ? ?.
    destruct (codeBitmap_segment _ _ dest Hbits) as (b & E' & Hb); [lia|].
    eapply wp_need; [exact E'|]. apply HQ; try done. rewrite Hb. split; [by split|by intros []]. }
  destruct (codeBitmap_analysed (Code c)) as (bits & _ & Hbits & _).
  destruct (Z.eqb_spec (CodeHash c) 0) as [Hz|Hnz]; cbn [negb].
  - destruct (analysis c) as [b|] eqn:Ea.
    + apply (Hseg b e c); try done; by apply (ck_analysis _ Ck).
    + rewrite Hbits. repeat wp_step. apply (Hseg bits e); try done.
      destruct Ck. constructor; cbn; try done. by intros ? [= <-].
  - destruct (jumpdests e !! CodeHash c) as [b|] eqn:Ea.
    + apply (Hseg b e c); try done.
      rewrite (ck_hash _ Ck) by done. by apply (ek_cache _ Ek).
    + rewrite Hbits. repeat wp_step. apply (Hseg bits); try done.
      destruct Ek as [? Hcache ?]. constructor; cbn; try done. intros h b.
      destruct (decide (h = CodeHash c)) as [->|].
      * rewrite lookup_insert_eq. intros [= <-]. by rewrite <- (ck_hash _ Ck).
      * rewrite lookup_insert_ne by done. apply Hcache.
Qed.

Lemma fail_intro e p c m st e' p' c' m' st' :
  env_ok e' -> env_same e e' -> contract_ok c' -> Gas c' = Gas c ->
  fail_ok (mkState e (mkFrame p c m st)) (mkState e' (mkFrame p' c' m' st')).
Proof. intros ? ? Ck Hg. split_and!; cbn; try done; [apply (ck_gas _ Ck)..|lia]. Qed.

Lemma target_small x c : contract_ok c -> 0 <= x < code_len c -> Uint64 x = x.
Proof. intros Ck Hx. pose proof (ck_code _ Ck) as [_ Hl]. apply u64_small. unfold code_len in *. lia. Qed.

Ltac finish_jump :=
  match goal with Fk : frame_ok _ |- _ =>
    pose proof (fk_contract _ Fk) as Ck_; pose proof (fk_pc _ Fk) as Hpc_;
    cbn [contract pc] in Ck_, Hpc_;
    split; [apply bytes_ok_nil|]; apply after_intro_gen; try done; unfold st_len, no_gas;
    cbn [length]; [apply Fk|lia|lia|]
  end.

Lemma valid_u64 c dest : contract_ok c -> valid (Code c) dest -> Uint64 dest = dest.
Proof. intros Ck Hv. apply (target_small _ c); [done|]. by apply valid_range. Qed.

Lemma spec_opJump : exec_spec N 1 0 None no_gas opJump.
Proof.
  spec_start. unfold opJump. do 3 wp_step. apply validJumpdest_spec; [done|apply Fk|done|].
  intros b e' c' Ek' Es Ck' Sc Hg Hv. pose proof (ek_pool _ Ek').
  destruct b; cbn [negb]; repeat wp_step; [|apply wp_fail; by apply fail_intro].
  pose proof (proj1 Hv eq_refl) as Hv'. pose proof (valid_range _ _ Hv').
  finish_jump. rewrite (valid_u64 c z) by done. unfold code_len. lia.
Qed.

Lemma spec_opJumpi : exec_spec N 2 0 None no_gas opJumpi.
Proof.
  spec_start. unfold opJumpi. repeat wp_step.
  - apply validJumpdest_spec; [done|apply Fk|done|].
    intros b e' c' Ek' Es Ck' Sc Hg Hv. pose proof (ek_pool _ Ek').
    destruct b; cbn [negb]; repeat wp_step; [|apply wp_fail; by apply fail_intro].
    pose proof (proj1 Hv eq_refl) as Hv'. pose proof (valid_range _ _ Hv').
    finish_jump. rewrite (valid_u64 c z) by done. unfold code_len. lia.
  - finish_jump. pose proof (ck_code _ Ck_) as [_ Hl]. unfold code_len in *. rewrite u64_small; lia.
Qed.

(** ** PUSH, DUP and SWAP *)

Lemma RightPad_length l n :
  Z.of_nat (length l) <= n -> Z.of_nat (length (RightPadBytes l n)) = n.
Proof.
  intros Hn. unfold RightPadBytes. zcase; rewrite ?length_app, ?length_replicate; lia.
Qed.

Lemma spec_makePush n : 1 <= n <= 32 -> exec_spec N 0 1 None no_gas (makePush n).
Proof.
  intros Hn. spec_start. pose proof (fk_contract _ Fk) as Ck. cbn [contract] in Ck.
  pose proof (fk_pc _ Fk) as Hp. cbn [pc contract] in Hp.
  pose proof (ck_code _ Ck) as [Hb Hl]. unfold code_len in *. unfold makePush.
  do 2 wp_step. rewrite i64_small by lia. cbv zeta. set (len := Z.of_nat (length (Code c))) in *.
  set (a := if p + 1 <? len then p + 1 else len).
  set (b := if a + n <? len then a + n else len).
  assert (0 <= a /\ b - a <= n) as [Ha Hab] by (unfold b, a; repeat zcase; lia).
  destruct (Z.ltb_spec a 0); [lia|]. wp_step. eapply wp_need; [reflexivity|]. repeat wp_step.
  set (arg := take (Z.to_nat (b - a)) (drop (Z.to_nat a) (Code c))).
  assert (is_word (be_value (RightPadBytes arg n))).
  { apply be_value_word; [by apply RightPad_bytes, Forall_take, Forall_drop|].
    assert (Z.of_nat (length arg) <= n) by (unfold arg; rewrite length_take, length_drop; lia).
    apply Nat2Z.inj_le. rewrite RightPad_length by done. lia. }
  split; [apply bytes_ok_nil|]. apply after_intro; unfold st_len, no_gas; cbn [length];
    try done; try lia; [apply Fk|by apply list.Forall_cons|].
  unfold code_len. fold len. rewrite u64_small; lia.
Qed.

Lemma dup_Some (st : Stack) k x : st !! k = Some x -> dup st (S k) = Some (x :: st).
Proof. intros Hx. cbn. unfold Stack in *. by rewrite Hx. Qed.

Lemma swap_Some x (st : Stack) k y :
  (x :: st) !! S k = Some y -> swap (x :: st) (S (S k)) = Some (<[S k := x]> (<[0%nat := y]> (x :: st))).
Proof. intros Hy. cbn in *. unfold Stack in *. by rewrite Hy. Qed.

Lemma spec_makeDup n : (1 <= n)%nat ->
  exec_spec N (Z.of_nat n) (Z.of_nat n + 1) None no_gas (makeDup n).
Proof.
  intros Hn. spec_open. destruct n as [|k]; [lia|].
  destruct (lookup_lt_is_Some_2 st k) as [x Hx]; [lia|]. unfold makeDup. repeat wp_step.
  eapply wp_need; [by apply dup_Some|]. repeat wp_step.
  pose proof (Forall_lookup_1 _ _ _ _ Hwords Hx). finish_op.
Qed.

Lemma spec_makeSwap n : (1 <= n)%nat ->
  exec_spec N (Z.of_nat n + 1) (Z.of_nat n + 1) None no_gas (makeSwap n).
Proof.
  intros Hn. spec_open. destruct n as [|k]; [lia|]. destruct st as [|x st]; [cbn in Hlen; lia|].
  destruct (lookup_lt_is_Some_2 (x :: st) (S k)) as [y Hy]; [cbn in *; lia|].
  unfold makeSwap. repeat wp_step. eapply wp_need; [by apply swap_Some|]. repeat wp_step. pose proof (Forall_lookup_1 _ _ _ _ Hwords Hy).
  assert (is_word x) by (by apply list.Forall_cons in Hwords as []).
  split; [apply bytes_ok_nil|]. apply after_intro; unfold st_len, no_gas; try done; try lia.
  - apply Fk.
  - apply Forall_insert; [by apply Forall_insert|done].
  - rewrite !length_insert. lia.
  - pose proof (fk_pc _ Fk). cbn in *. lia.
Qed.

(** ** The rest *)

Lemma spec_opExtCodeCopy : exec_spec N 4 0 (Some memoryExtCodeCopy) no_gas opExtCodeCopy.
Proof.
  spec_start. destruct Hfits as (n & Hn & Hle). injection Hn as <-.
  unfold opExtCodeCopy, copy_to_memory. repeat wp_step.
  apply memSet_spec; [apply Fk|done..| |].
  - apply getDataBig_bytes, GetCode_ok.
  - intros m' Hm'. repeat wp_step. finish_op.
Qed.

Lemma pop_topics_spec n e p c m st (E : vm_state -> Prop) (Q : list Hash -> vm_state -> Prop) :
  (n <= length st)%nat ->
  (forall ts, Q ts (mkState e (mkFrame p c m (drop n st)))) ->
  wp (pop_topics n) E Q (mkState e (mkFrame p c m st)).
Proof.
  revert st Q. induction n as [|n IH]; intros st Q Hn HQ; cbn [pop_topics].
  { wp_step. apply HQ. }
  destruct st as [|x st]; [cbn in Hn; lia|]. repeat wp_step. apply IH; [cbn in Hn; lia|].
  intros ts. repeat wp_step. apply HQ.
Qed.

Lemma spec_makeLog n :
  exec_spec N (Z.of_nat n + 2) 0 (Some memoryLog) no_gas (makeLog cx n).
Proof.
  spec_open. destruct st as [|z [|z0 st]]; [cbn in Hlen; lia..|]. cbn [length] in Hlen.
  apply list.Forall_cons in Hwords as [? Hwords]. apply list.Forall_cons in Hwords as [? Hwords].
  destruct Hfits as (k & Hk & Hle). injection Hk as <-.
  destruct (mem_Get_ok m z z0) as (d & E & Hd & _); [apply Fk|done..|].
  unfold makeLog, memGet. repeat wp_step. apply pop_topics_spec; [lia|]. intros ts.
  repeat wp_step. eapply wp_need; [exact E|]. repeat wp_step.
  split; [apply bytes_ok_nil|]. pose proof (fk_pc _ Fk). cbn [pc contract] in *.
  apply after_intro; unfold st_len, no_gas; cbn [length]; try done; try lia.
  - by apply set_statedb_env.
  - apply Fk.
  - by apply Forall_drop.
  - rewrite length_drop. lia.
Qed.

Lemma spec_opSuicide : exec_spec N 1 0 None no_gas opSuicide.
Proof. spec_start. unfold opSuicide. repeat wp_step. finish_op. Qed.

Lemma memGet_spec off sz e p c m st (E : vm_state -> Prop) (Q : bytes -> vm_state -> Prop) :
  mem_ok m -> is_word off -> is_word sz -> calcMemSize off sz <= mem_len m ->
  (forall d, bytes_ok d -> Q d (mkState e (mkFrame p c m st))) ->
  wp (memGet (Int64 off) (Int64 sz)) E Q (mkState e (mkFrame p c m st)).
Proof.
  intros Hm Ho Hs Hc HQ. destruct (mem_Get_ok m off sz) as (d & Em & Hd & _); [done..|].
  unfold memGet. repeat wp_step. eapply wp_need; [exact Em|]. by apply HQ.
Qed.

Lemma contract_ok_gas g c : contract_ok c -> is_u64 g -> contract_ok (set_Gas g c).
Proof. intros [] Hg. by constructor. Qed.

(** [Gas - Gas/64] units are taken out. *)
Lemma use_gas_63 c :
  contract_ok c ->
  let g := u64 (Gas c - Gas c / 64) in
  g = Gas c - Gas c / 64 /\ UseGas g c = Some (set_Gas (Gas c / 64) c).
Proof.
  intros Ck. pose proof (ck_gas _ Ck) as Hg. cbv zeta.
  assert (0 <= Gas c / 64 <= Gas c) by (split; [apply Z.div_pos|apply Z.div_le_upper_bound]; lia).
  rewrite u64_small by lia. split; [done|]. unfold UseGas.
  destruct (Z.ltb_spec (Gas c) (Gas c - Gas c / 64)); [lia|]. do 3 f_equal. lia.
Qed.

Lemma spec_opCreate2 : N <= 2 ^ 64 -> exec_spec N 4 1 (Some memoryCreate2) no_gas opCreate2.
Proof.
  intros HN64. spec_start. destruct Hfits as (n & Hn & Hle). injection Hn as <-.
  pose proof (fk_contract _ Fk) as Ck. cbn [contract] in Ck. pose proof (ck_gas _ Ck) as Hg.
  destruct (use_gas_63 c Ck) as [Eg Eu].
  unfold opCreate2. repeat wp_step. apply memGet_spec; [apply Fk|done..|]. intros d Hd.
  unfold use_gas, add_gas. repeat wp_step. rewrite Eu. cbn [default Gas set_Gas].
  assert (0 <= Gas c / 64 <= Gas c) by (split; [apply Z.div_pos|apply Z.div_le_upper_bound]; lia).
  rewrite Eg. pose proof (fk_pc _ Fk). cbn [pc contract] in *.
  split; [apply bytes_ok_nil|]. unfold no_gas.
  apply after_intro_gen; unfold st_len; cbn [length]; try done; try lia.
  - apply contract_ok_gas; [|apply u64_range]. apply contract_ok_gas; [done|lia].
  - apply Fk.
  - apply list.Forall_cons; split; [lia|done].
  - cbn. rewrite u64_small; lia.
Qed.

End Flow.

Section Jump.
Context {D : StateDB} {DO : StateDBOk D} {K : Crypto} {KO : CryptoOk K}.

(** JUMP goes exactly to the JUMPDEST bytes that start an instruction,
    cached analysis or not, and refuses every other position with an error. *)
Theorem opJump_exact s pos rest :
  Inv s -> stack (fr s) = pos :: rest ->
  match opJump s with
  | Val r s' => valid (Code (contract (fr s))) pos /\ pc (fr s') = pos /\ stack (fr s') = rest
  | Fail er _ => ~ valid (Code (contract (fr s))) pos /\ er = errInvalidJump pos
  | Panic | NoFuel => False
  end.
Proof.
  intros [Ek Fk] Hst. pose proof (fk_contract _ Fk) as Ck. pose proof (fk_words _ Fk) as Hw.
  destruct s as [e [p c m st]]. cbn [fr ev contract mem stack pc] in *. subst st.
  apply list.Forall_cons in Hw as [Hpos _].
  assert (wp (validJumpdest pos) (fun _ => False)
    (fun b s' => (b = true <-> valid (Code c) pos) /\ pool (ev s') = Some true /\
       stack (fr s') = rest) (mkState e (mkFrame p c m rest))) as H.
  { apply validJumpdest_spec; [done..|]. intros b e' c' Ek' _ _ _ _ Hb. split_and!; try done. apply Ek'. }
  unfold opJump, popM, bind, getf, need, modf, ret. cbn [fr stack pop fst snd ev]. unfold set_stack.
  cbn [pc contract mem stack]. unfold wp in H. destruct (validJumpdest pos _) as [b s'|er s'| |]; try done.
  destruct H as (Hb & Hp & Hs). destruct b; cbn [negb].
  - pose proof (proj1 Hb eq_refl) as Hv. unfold pool_touch, bind, gete, need, mode, ret.
    cbn [ev fr]. rewrite Hp. cbn [fr set_pc pc stack]. split_and!; [done| |done].
    by apply (valid_u64 c).
  - split; [|done]. intros Hv. by apply Hb in Hv.
Qed.

End Jump.
End Flow.
