(* ===== verification/EvmCost.v ===== *)
(** What an instruction costs: every gas function answers a 64-bit price or an
    overflow error, never touches the stack or the bytes of the memory, and
    covers the gas a call hands on. *)
From S2P Require Import Prelude Bech32 Address EvmWord EvmAnalysis EvmJumpdest EvmState EvmGas EvmInstr EvmArith EvmTable EvmSafe EvmOps EvmFlow.

Import Word Analysis Jumpdest State GasTab Instr Arith Table Safe Ops Flow.

Module Cost.

Lemma SafeAdd_ok x y : is_u64 x -> is_u64 y -> snd (SafeAdd x y) = false ->
  fst (SafeAdd x y) = x + y /\ x + y < 2 ^ 64.
Proof.
  unfold SafeAdd, MaxUint64. cbn [fst snd]. rewrite Z.gtb_ltb. intros Hx Hy H.
  apply Z.ltb_ge in H. rewrite u64_small by lia. lia.
Qed.

Lemma SafeMul_u64 x y : is_u64 (fst (SafeMul x y)).
Proof. unfold SafeMul. case_if; cbn [fst]; [lia|apply u64_range]. Qed.

Section Cost.
Context {D : StateDB} {DO : StateDBOk D} {K : Crypto} {KO : CryptoOk K}.

(** The machine after a price was computed: only the fee recorded in the
    memory, [callGasTemp] and the refund counter may have changed. *)
Record priced (s s' : vm_state) : Prop := {
  pr_env : env_ok (ev s');
  pr_same : env_same (ev s) (ev s');
  pr_pc : pc (fr s') = pc (fr s);
  pr_contract : contract (fr s') = contract (fr s);
  pr_stack : stack (fr s') = stack (fr s);
  pr_store : store (mem (fr s')) = store (mem (fr s))
}.

(** A price of at least [lo] beyond what the instruction may hand on;
    [has_mem] if it bounds the memory [n]. *)
Definition gas_spec (pops : Z) (has_mem : bool) (lo : Z) (al : vm_state -> Z)
    (g : GasTable -> Z -> M Z) : Prop :=
  forall s n, Inv s -> pops <= st_len (stack (fr s)) -> is_u64 n ->
    wp (g GasTableHomestead n) (fail_ok s)
      (fun cost s' => priced s s' /\ is_u64 cost /\ 0 <= al s' /\ al s' + lo <= cost /\
        (has_mem = true -> n <= max_mem)) s.

Lemma priced_refl s : Inv s -> priced s s.
Proof. intros [Ek Fk]. constructor; try done. Qed.

Lemma priced_fail s s' : Inv s -> priced s s' -> fail_ok s s'.
Proof.
  intros [Ek Fk] [He Hs _ Hc _ _]. split_and!; [done|done|rewrite Hc; apply Fk..|rewrite Hc; lia].
Qed.

Lemma spec_constGas pops lo c : lo <= c -> is_u64 c ->
  gas_spec pops false lo no_gas (constGasFunc c).
Proof.
  intros Hlo Hc s n I Hl Hn. apply wp_ret. split_and!; try done; [by apply priced_refl|lia..].
Qed.

Lemma memoryGasCost_spec s n (E : vm_state -> Prop) (Q : Z -> vm_state -> Prop) :
  Inv s -> is_u64 n -> E s ->
  (forall fee s', n <= max_mem -> is_u64 fee -> priced s s' ->
     ev s' = ev s -> Q fee s') ->
  wp (memoryGasCost n) E Q s.
Proof.
  intros I Hn HE HQ. unfold memoryGasCost, max_mem in *.
  destruct (Z.eqb_spec n 0) as [->|Hne].
  { apply wp_ret. apply HQ; try done. by apply priced_refl. }
  rewrite Z.gtb_ltb. destruct (Z.ltb_spec 0xffffffffe0 n); [by apply wp_fail|].
  repeat wp_step; apply HQ; try done; try apply u64_range; [|by apply priced_refl].
  destruct I as [Ek Fk]. by constructor.
Qed.

Lemma wp_checked_add x y s E (Q : Z -> vm_state -> Prop) :
  is_u64 x -> is_u64 y -> E s -> (x + y < 2 ^ 64 -> Q (x + y) s) -> wp (checked (SafeAdd x y)) E Q s.
Proof.
  intros Hx Hy HE HQ. apply wp_checked; [|done]. intros Ho.
  destruct (SafeAdd_ok x y Hx Hy Ho) as [-> Hlt]. by apply HQ.
Qed.

Lemma wp_backM n s E (Q : Z -> vm_state -> Prop) :
  Z.of_nat n < st_len (stack (fr s)) ->
  (forall x, Back (stack (fr s)) n = Some x -> Q x s) -> wp (backM n) E Q s.
Proof.
  intros Hn HQ. unfold backM. do 2 wp_step. unfold st_len in Hn.
  destruct (lookup_lt_is_Some_2 (stack (fr s)) n) as [x Hx]; [lia|].
  eapply wp_need; [exact Hx|]. by apply HQ.
Qed.

Lemma wp_word_gas k per gas s E (Q : Z -> vm_state -> Prop) :
  Z.of_nat k < st_len (stack (fr s)) -> is_u64 gas -> E s ->
  (forall cost, gas <= cost -> is_u64 cost -> Q cost s) -> wp (word_gas k per gas) E Q s.
Proof.
  intros Hk Hg HE HQ. unfold word_gas. wp_step. apply wp_backM; [done|]. intros size _.
  wp_step. apply wp_checked; [|done]. intros _.
  wp_step. apply wp_checked; [|done]. intros _.
  pose proof (SafeMul_u64 (toWordSize (fst (bigUint64 size))) per) as Hm.
  apply wp_checked_add; [done..|]. intros Hlt. apply HQ; lia.
Qed.

(** Run the memory fee that starts a gas function. *)
Ltac mem_fee :=
  wp_step;
  apply memoryGasCost_spec; [done|done|by apply fail_ok_refl|];
  intros fee s' Hmax Hfee Hpr Hev; pose proof (priced_fail _ _ ltac:(eassumption) Hpr);
  pose proof (pr_stack _ _ Hpr) as Hst.

Lemma spec_copy_gas pops k base per :
  1 <= base < 2 ^ 64 -> Z.of_nat k < pops ->
  gas_spec pops true 1 no_gas (fun _ n =>
    let! gas := memoryGasCost n in
    let! gas := checked (SafeAdd gas base) in
    word_gas k per gas).
Proof.
  intros Hb Hk s n I Hl Hn. mem_fee.
  wp_step. apply wp_checked_add; [done|lia|done|]. intros Hlt.
  apply wp_word_gas; [rewrite Hst; lia|lia|done|]. intros cost Hc Hc'.
  unfold no_gas. split_and!; try done; lia.
Qed.

Lemma spec_gasCallDataCopy : gas_spec 3 true 1 no_gas gasCallDataCopy.
Proof. apply (spec_copy_gas 3 2 GasFastestStep CopyGas); [done|lia]. Qed.
Lemma spec_gasReturnDataCopy : gas_spec 3 true 1 no_gas gasReturnDataCopy.
Proof. apply (spec_copy_gas 3 2 GasFastestStep CopyGas); [done|lia]. Qed.
Lemma spec_gasCodeCopy : gas_spec 3 true 1 no_gas gasCodeCopy.
Proof. apply (spec_copy_gas 3 2 GasFastestStep CopyGas); [done|lia]. Qed.
Lemma spec_gasExtCodeCopy : gas_spec 4 true 1 no_gas gasExtCodeCopy.
Proof. apply (spec_copy_gas 4 3 700 CopyGas); [lia|lia]. Qed.
Lemma spec_gasSha3 : gas_spec 2 true 1 no_gas gasSha3.
Proof. apply (spec_copy_gas 2 1 Sha3Gas Sha3WordGas); [done|lia]. Qed.
Lemma spec_gasCreate2 : gas_spec 4 true 1 no_gas gasCreate2.
Proof. apply (spec_copy_gas 4 2 Create2Gas Sha3WordGas); [done|lia]. Qed.

Lemma spec_mem_gas pops base : 1 <= base < 2 ^ 64 ->
  gas_spec pops true 1 no_gas (fun _ n =>
    let! gas := memoryGasCost n in checked (SafeAdd gas base)).
Proof.
  intros Hb s n I Hl Hn. mem_fee. apply wp_checked_add; [done|lia|done|]. intros Hlt.
  unfold no_gas. split_and!; try done; lia.
Qed.

Lemma spec_gasMLoad : gas_spec 1 true 1 no_gas gasMLoad.
Proof. by apply (spec_mem_gas 1 GasFastestStep). Qed.
Lemma spec_gasMStore : gas_spec 2 true 1 no_gas gasMStore.
Proof. by apply (spec_mem_gas 2 GasFastestStep). Qed.
Lemma spec_gasMStore8 : gas_spec 2 true 1 no_gas gasMStore8.
Proof. by apply (spec_mem_gas 2 GasFastestStep). Qed.
Lemma spec_gasCreate : gas_spec 3 true 1 no_gas gasCreate.
Proof. by apply (spec_mem_gas 3 CreateGas). Qed.

(** RETURN and REVERT may be free. *)
Lemma spec_gasReturn : gas_spec 2 true 0 no_gas gasReturn.
Proof.
  intros s n I Hl Hn. apply memoryGasCost_spec; [done|done|by apply fail_ok_refl|].
  intros fee s' Hmax Hfee Hpr Hev. unfold no_gas. split_and!; try done; lia.
Qed.
Lemma spec_gasRevert : gas_spec 2 true 0 no_gas gasRevert.
Proof. exact spec_gasReturn. Qed.

Lemma spec_makeGasLog k : 0 <= k <= 4 -> gas_spec (k + 2) true 1 no_gas (makeGasLog k).
Proof.
  intros Hk s n I Hl Hn. unfold makeGasLog. wp_step. apply wp_backM; [lia|]. intros size _.
  wp_step. apply wp_checked; [|by apply fail_ok_refl]. intros _. mem_fee.
  assert (u64 (k * LogTopicGas) = k * LogTopicGas) as -> by (apply u64_small; unfold LogTopicGas; lia).
  unfold LogTopicGas, LogGas.
  wp_step. apply wp_checked_add; [done|lia|done|]. intros H1.
  wp_step. apply wp_checked_add; [lia|lia|done|]. intros H2.
  wp_step. apply wp_checked; [|done]. intros _.
  apply wp_checked_add; [lia|apply SafeMul_u64|done|]. intros H3.
  pose proof (SafeMul_u64 (fst (bigUint64 size)) LogDataGas).
  unfold no_gas. split_and!; try done; lia.
Qed.

Lemma spec_gasExp : gas_spec 2 false 1 no_gas gasExp.
Proof.
  intros s n I Hl Hn. unfold gasExp. wp_step. apply wp_backM; [lia|]. intros x _.
  apply wp_checked_add; [apply u64_range|done|by apply fail_ok_refl|]. intros Hlt.
  pose proof (u64_range ((BitLen x + 7) / 8 * ExpByte GasTableHomestead)).
  unfold no_gas, GasSlowStep in *. split_and!; try done; try lia. by apply priced_refl.
Qed.

(** *** Refunds *)

Lemma priced_statedb s db :
  Inv s -> priced s (mkState (set_statedb db (ev s)) (fr s)).
Proof. intros [Ek Fk]. constructor; try done. by apply set_statedb_env. Qed.

Lemma spec_gasSStore : gas_spec 2 false 1 no_gas gasSStore.
Proof.
  intros s n I Hl Hn. unfold gasSStore. wp_step. apply wp_backM; [lia|]. intros y _.
  wp_step. apply wp_backM; [lia|]. intros x _. cbv zeta. do 4 wp_step.
  set (cur := GetState _ _ _). rewrite (Z.eqb_refl cur).
  pose proof (priced_refl _ I).
  destruct (cur =? BigToHash y); [by apply wp_ret; split_and!|].
  destruct (cur =? 0); [by apply wp_ret; split_and!|].
  wp_step. unfold refund. repeat wp_step; split_and!; try done. by apply priced_statedb.
Qed.

Lemma spec_gasSuicide : gas_spec 1 false 0 no_gas gasSuicide.
Proof.
  intros s n I Hl Hn. unfold gasSuicide. wp_step. apply wp_backM; [lia|]. intros to _. cbv zeta.
  do 4 wp_step. pose proof (priced_refl _ I). set (cost := if _ && _ then _ else _).
  assert (is_u64 cost) by (unfold cost; case_if; [apply u64_range|done]). clearbody cost.
  unfold refund. repeat wp_step; unfold no_gas; split_and!; try done; try lia. by apply priced_statedb.
Qed.

(** *** Calls *)

Lemma callGas_u64 gt avail base cost temp : callGas gt avail base cost = Ok temp -> is_u64 temp.
Proof.
  unfold callGas. cbv zeta. repeat case_if; intros [= <-]; apply u64_range.
Qed.

Lemma priced_callGasTemp s s' v :
  priced s s' -> priced s (mkState (set_callGasTemp v (ev s')) (fr s')).
Proof. intros [[] [] ? ? ? ?]. constructor; try done; by constructor. Qed.

Lemma wp_call_gas gt gas s s0 (Q : Z -> vm_state -> Prop) :
  Inv s0 -> priced s0 s -> 0 < st_len (stack (fr s)) -> is_u64 gas ->
  (forall temp, is_u64 temp -> gas + temp < 2 ^ 64 ->
     Q (gas + temp) (mkState (set_callGasTemp temp (ev s)) (fr s))) ->
  wp (call_gas gt gas) (fail_ok s0) Q s.
Proof.
  intros I Hpr Hl Hg HQ. unfold call_gas. do 3 wp_step. apply wp_backM; [done|]. intros req _.
  destruct (callGas _ _ _ _) as [temp|er] eqn:E.
  - apply callGas_u64 in E. repeat wp_step.
    apply wp_checked_add; [done|done| |by apply HQ].
    eapply priced_fail; [done|by apply priced_callGasTemp].
  - repeat wp_step. apply wp_fail. eapply priced_fail; [done|by apply priced_callGasTemp].
Qed.

Context (cx : Context_).

(** The gas a call hands on: what was set aside, with the stipend of a call
    that carries value. *)
Definition al_call (s : vm_state) : Z :=
  with_stipend cx (U256 (default 0 (Back (stack (fr s)) 2))) (callGasTemp (ev s)).
Definition al_delegate (s : vm_state) : Z := callGasTemp (ev s).

Lemma al_call_bound s base temp val :
  is_word val -> Back (stack (fr s)) 2 = Some val -> callGasTemp (ev s) = temp ->
  is_u64 temp -> base + temp < 2 ^ 64 -> 700 <= base ->
  (val <> 0 -> 9700 <= base) ->
  0 <= al_call s /\ al_call s + 1 <= base + temp.
Proof.
  intros Hw Hv Ht Htu Hs Hb Hb'. unfold al_call, with_stipend. rewrite Hv, Ht. change (default 0 (Some val)) with val.
  rewrite U256_small by done. unfold CallStipend.
  destruct (Z.eqb_spec val 0); cbn [negb andb]; [lia|]. specialize (Hb' ltac:(done)).
  destruct (EnableSimulation cx); cbn [negb]; [lia|]. rewrite u64_small; lia.
Qed.

Lemma spec_delegate_gas :
  gas_spec 6 true 1 al_delegate (fun gt n =>
    let! gas := memoryGasCost n in
    let! gas := checked (SafeAdd gas (Calls gt)) in
    call_gas gt gas).
Proof.
  intros s n I Hl Hn. mem_fee. change (Calls GasTableHomestead) with 700.
  wp_step. apply wp_checked_add; [done|lia|done|]. intros H1.
  apply wp_call_gas; [done|done|rewrite Hst; lia|lia|]. intros temp Ht Hs.
  unfold al_delegate. cbn [ev callGasTemp set_callGasTemp]. split_and!; try done; try lia.
  by apply priced_callGasTemp.
Qed.

Lemma spec_gasDelegateCall : gas_spec 6 true 1 al_delegate gasDelegateCall.
Proof. exact spec_delegate_gas. Qed.
Lemma spec_gasStaticCall : gas_spec 6 true 1 al_delegate gasStaticCall.
Proof. exact spec_delegate_gas. Qed.

Lemma call_price s n val base :
  Inv s -> is_u64 n -> 7 <= st_len (stack (fr s)) -> Back (stack (fr s)) 2 = Some val ->
  700 <= base < 2 ^ 32 -> (val <> 0 -> 9700 <= base) ->
  wp (let! memoryGas := memoryGasCost n in
      let! gas := checked (SafeAdd base memoryGas) in
      call_gas GasTableHomestead gas) (fail_ok s)
     (fun cost s' => priced s s' /\ is_u64 cost /\ 0 <= al_call s' /\ al_call s' + 1 <= cost /\
        (true = true -> n <= max_mem)) s.
Proof.
  intros I Hn Hl Hv Hb Hb'. mem_fee.
  wp_step. apply wp_checked_add; [lia|done|done|]. intros H1.
  apply wp_call_gas; [done|done|rewrite Hst; lia|lia|]. intros temp Ht Hs.
  destruct (al_call_bound (mkState (set_callGasTemp temp (ev s')) (fr s')) (base + fee) temp val);
    try done; try lia; cbn [fr ev].
  - destruct I as [_ Fk]. eapply (Forall_lookup_1 _ _ _ _ (fk_words _ Fk) Hv).
  - by rewrite Hst.
  - split_and!; try done; try lia. by apply priced_callGasTemp.
Qed.

Lemma spec_gasCall : gas_spec 7 true 1 al_call gasCall.
Proof.
  intros s n I Hl Hn. unfold gasCall. wp_step. apply wp_backM; [lia|]. intros val Hv.
  wp_step. apply wp_backM; [lia|]. intros to _. cbv zeta. do 2 wp_step.
  apply (call_price s n val); try done; unfold CallNewAccountGas, CallValueTransferGas;
    change (Calls GasTableHomestead) with 700; destruct (Z.eqb_spec val 0); cbn [negb]; try done;
    case_if; rewrite ?(u64_small (700 + 25000)) by lia; rewrite ?u64_small by lia; lia.
Qed.

Lemma spec_gasCallCode : gas_spec 7 true 1 al_call gasCallCode.
Proof.
  intros s n I Hl Hn. unfold gasCallCode. wp_step. apply wp_backM; [lia|]. intros val Hv. cbv zeta.
  apply (call_price s n val); try done; unfold CallValueTransferGas;
    change (Calls GasTableHomestead) with 700; destruct (Z.eqb_spec val 0); cbn [negb]; try done;
    rewrite ?u64_small by lia; lia.
Qed.

End Cost.
End Cost.
