(* ===== verification/EvmSteps.v ===== *)
(** The instructions that call or create contracts, proved against what the
    machine promises about a nested call: it keeps the surroundings in order
    and gives back no more gas than it was handed.

    Every entry of the instruction set meets one specification: its stack
    check, its price, its memory and its effect agree.

    One round of the interpreter's loop keeps the invariant, and a round after
    which the loop goes on has consumed gas. *)
From S2P Require Import Prelude Bech32 Address EvmWord EvmAnalysis EvmJumpdest EvmState EvmGas EvmInstr EvmArith EvmTable EvmRun EvmSafe EvmOps EvmFlow EvmCost.

Import Word Analysis Jumpdest State GasTab Instr Arith Table Safe Ops Flow Cost.

Module Calls.

Section Calls.
Context {D : StateDB} {DO : StateDBOk D} {K : Crypto} {KO : CryptoOk K}.

Definition req_gas (r : request) : Z :=
  match r with
  | RCall _ _ _ g _ | RCallCode _ _ _ g _ | RDelegateCall _ _ _ g | RStaticCall _ _ _ g
  | RCreate _ _ g _ => g
  end.

Definition req_value (r : request) : Z :=
  match r with
  | RCall _ _ _ _ v | RCallCode _ _ _ _ v | RCreate _ _ _ v => v
  | _ => 0
  end.

Definition request_ok (r : request) : Prop :=
  0 <= req_gas r /\ is_word (req_value r) /\
  match r with
  | RCall c a i _ _ | RCallCode c a i _ _ | RDelegateCall c a i _ | RStaticCall c a i _ =>
      contract_ok c /\ addr_ok a /\ bytes_ok i
  | RCreate c i _ _ => contract_ok c /\ bytes_ok i
  end.

Definition response_ok (g : Z) (e : EVM) (r : response) : Prop :=
  match r with
  | Answered a e' =>
      env_ok e' /\ env_same e e' /\ 0 <= leftOverGas a <= g /\ bytes_ok (a_ret a) /\
      addr_ok (a_addr a)
  | CallPanic | CallNoFuel => False
  end.

(** What an instruction may rely on when it calls: for requests of less than
    [N] units of gas. *)
Class CallsOk (N : Z) (call : request -> EVM -> response) : Prop :=
  call_ok r e : request_ok r -> env_ok e -> req_gas r < N -> response_ok (req_gas r) e (call r e).

Context (cx : Context_) (CX : context_ok cx) (N : Z) (HN64 : N <= 2 ^ 64).
Context (call : request -> EVM -> response) {CO : CallsOk N call}.

Lemma wp_invoke r e f E (Q : answer -> vm_state -> Prop) :
  request_ok r -> env_ok e -> req_gas r < N ->
  (forall a e', env_ok e' -> env_same e e' -> 0 <= leftOverGas a <= req_gas r ->
     bytes_ok (a_ret a) -> addr_ok (a_addr a) -> Q a (mkState e' f)) ->
  wp (invoke call r) E Q (mkState e f).
Proof.
  intros Hr He Hg HQ. unfold wp, invoke. cbn [ev fr]. pose proof (call_ok r e Hr He Hg) as H.
  destruct (call r e); [|done..]. destruct H as (? & ? & ? & ? & ?). by apply HQ.
Qed.

Lemma wp_add_gas g e p c m st E (Q : unit -> vm_state -> Prop) :
  contract_ok c -> 0 <= g -> Gas c + g < 2 ^ 64 ->
  (forall c', contract_ok c' -> same_code c c' -> Gas c' = Gas c + g ->
     Q tt (mkState e (mkFrame p c' m st))) ->
  wp (add_gas g) E Q (mkState e (mkFrame p c m st)).
Proof.
  intros Ck Hg Hlt HQ. pose proof (ck_gas _ Ck). unfold add_gas. repeat wp_step. apply HQ.
  - apply contract_ok_gas; [done|apply u64_range].
  - by constructor.
  - cbn. rewrite u64_small; lia.
Qed.

Lemma wp_finish_call off sz a e p c m st E (Q : bytes -> vm_state -> Prop) :
  env_ok e -> contract_ok c -> mem_ok m -> is_word off -> is_word sz ->
  calcMemSize off sz <= mem_len m -> bytes_ok (a_ret a) -> 0 <= leftOverGas a ->
  Gas c + leftOverGas a < 2 ^ 64 ->
  (forall b m' c', is_word b -> mem_ok m' -> contract_ok c' -> same_code c c' ->
     Gas c' = Gas c + leftOverGas a -> Q (a_ret a) (mkState e (mkFrame p c' m' (b :: st)))) ->
  wp (finish_call off sz a) E Q (mkState e (mkFrame p c m st)).
Proof.
  intros Ek Ck Hm Ho Hs Hfit Hret Hl Hg HQ. pose proof (ek_pool _ Ek). unfold finish_call.
  assert (forall b m', is_word b -> mem_ok m' ->
    wp (add_gas (leftOverGas a) ;;; pool_touch ;;; ret (a_ret a)) E Q
       (mkState e (mkFrame p c m' (b :: st)))) as Hend.
  { intros b m' Hb Hm'. wp_step. apply wp_add_gas; [done..|]. intros c' Ck' Sc Eg.
    repeat wp_step. by apply HQ. }
  wp_step. destruct (a_err a) as [er|].
  - repeat wp_step.
    assert (forall m', mem_ok m' -> wp (add_gas (leftOverGas a) ;;; pool_touch ;;; ret (a_ret a)) E Q
      (mkState e (mkFrame p c m' (0 :: st)))) by (intros; apply Hend; [lia|done]).
    destruct er; try (by repeat wp_step; apply Hend);
      try (apply memSet_spec; [done..|apply Hret|done]); wp_step; auto.
  - repeat wp_step. apply memSet_spec; [done..|apply Hret|]. intros m' Hm'. apply Hend; [lia|done].
Qed.

Lemma BigMax_le x y z : BigMax x y <= z -> x <= z /\ y <= z.
Proof. unfold BigMax. zcase; lia. Qed.

(** After the answer: the result on the stack, the output in memory and the
    gas left over returned. *)
Ltac after_call :=
  intros a e' Ek' Es Hlo Hret Haddr;
  match goal with Fk : frame_ok _ |- _ =>
    pose proof (fk_pc _ Fk); cbn [pc contract] in *;
    apply wp_finish_call; try done; try lia; try apply Fk;
    try (cbn [req_gas] in *; lia);
    intros b m' c' Hb Hm' Ck' Sc Eg; split; [done|];
    apply after_intro_gen; try done; unfold st_len; cbn [length req_gas] in *; try lia;
    by apply list.Forall_cons
  end.

Ltac start_call :=
  spec_start;
  match goal with Hfits : fits _ _, Fk : frame_ok _ |- _ =>
    let n := fresh in
    destruct Hfits as (n & Hn & Hle); injection Hn as <-;
    apply BigMax_le in Hle as [Hout Hin]; cbn [fr mem] in *;
    pose proof (fk_contract _ Fk) as Ck; cbn [contract] in Ck; pose proof (ck_gas _ Ck) as Hg
  end.

Ltac request_ok_tac :=
  split_and!; cbn [req_gas req_value]; try done; try lia; try apply U256_word;
  try apply BigToAddress_ok.

Lemma spec_opCall : exec_spec N 7 1 (Some memoryCall) (al_call cx) (opCall cx call).
Proof.
  start_call. set (al := al_call cx _) in *.
  assert (with_stipend cx (U256 z1) (callGasTemp e) = al) as Eal by reflexivity.
  unfold opCall. repeat wp_step. apply memGet_spec; [apply Fk|done..|]. intros d Hd.
  repeat wp_step. rewrite Eal. apply wp_invoke; [request_ok_tac|done|cbn [req_gas]; lia|].
  after_call.
Qed.

Lemma spec_opCallCode : exec_spec N 7 1 (Some memoryCall) (al_call cx) (opCallCode cx call).
Proof.
  start_call. set (al := al_call cx _) in *.
  assert (with_stipend cx (U256 z1) (callGasTemp e) = al) as Eal by reflexivity.
  unfold opCallCode. repeat wp_step. apply memGet_spec; [apply Fk|done..|]. intros d Hd.
  repeat wp_step. rewrite Eal. apply wp_invoke; [request_ok_tac|done|cbn [req_gas]; lia|].
  after_call.
Qed.

Lemma spec_opDelegateCall :
  exec_spec N 6 1 (Some memoryDelegateCall) al_delegate (opDelegateCall call).
Proof.
  start_call. unfold al_delegate in *. cbn [ev] in *.
  unfold opDelegateCall. repeat wp_step. apply memGet_spec; [apply Fk|done..|]. intros d Hd.
  repeat wp_step. apply wp_invoke; [request_ok_tac|done|cbn [req_gas]; lia|].
  after_call.
Qed.

Lemma spec_opStaticCall :
  exec_spec N 6 1 (Some memoryStaticCall) al_delegate (opStaticCall call).
Proof.
  start_call. unfold al_delegate in *. cbn [ev] in *.
  unfold opStaticCall. repeat wp_step. apply memGet_spec; [apply Fk|done..|]. intros d Hd.
  repeat wp_step. apply wp_invoke; [request_ok_tac|done|cbn [req_gas]; lia|].
  after_call.
Qed.

Lemma spec_opCreate : exec_spec N 3 1 (Some memoryCreate) no_gas (opCreate call).
Proof.
  spec_start. destruct Hfits as (n & Hn & Hle). injection Hn as <-. cbn [fr mem] in *.
  pose proof (fk_contract _ Fk) as Ck. cbn [contract] in Ck. pose proof (ck_gas _ Ck) as Hg.
  destruct (use_gas_63 c Ck) as [Eg Eu]. unfold no_gas in *.
  unfold opCreate. repeat wp_step. apply memGet_spec; [apply Fk|done..|]. intros d Hd.
  repeat wp_step. unfold use_gas. repeat wp_step. rewrite Eu.
  change (default c (Some (set_Gas (Gas c / 64) c))) with (set_Gas (Gas c / 64) c). rewrite Eg.
  assert (0 <= Gas c / 64 <= Gas c) by (split; [apply Z.div_pos|apply Z.div_le_upper_bound]; lia).
  assert (contract_ok (set_Gas (Gas c / 64) c)) as Ck1 by (apply contract_ok_gas; [done|lia]).
  apply wp_invoke; [request_ok_tac|done|cbn [req_gas]; lia|].
  intros a e' Ek' Es Hlo Hret Haddr. cbn [req_gas] in Hlo. pose proof (ek_pool _ Ek').
  pose proof (fk_pc _ Fk). cbn [pc contract] in *.
  assert (forall b, is_word b ->
    wp (add_gas (leftOverGas a) ;;; pool_touch ;;;
        ret (match a_err a with Some ErrExecutionReverted => a_ret a | _ => [] end))
      (fail_ok (mkState e (mkFrame p c m (z :: z0 :: z1 :: st))))
      (fun r s' => bytes_ok r /\ after (mkState e (mkFrame p c m (z :: z0 :: z1 :: st))) s' (1 - 3) 0)
      (mkState e' (mkFrame p (set_Gas (Gas c / 64) c) m (b :: st)))) as Hend.
  { intros b Hb. wp_step. apply wp_add_gas; [done|lia|cbn [Gas set_Gas]; lia|].
    intros c' Ck' Sc' Eg'. repeat wp_step. cbn [Gas set_Gas] in Eg'. split.
    - destruct (a_err a) as [[]|]; try apply bytes_ok_nil; done.
    - apply after_intro_gen; unfold st_len; cbn [length]; try done; try lia.
      + destruct Sc'. by constructor.
      + apply Fk.
      + by apply list.Forall_cons. }
  pose proof (Big_word _ Haddr).
  wp_step. destruct (a_err a) as [[]|]; repeat wp_step; apply Hend; done || lia.
Qed.

End Calls.
End Calls.


Import Word Analysis Jumpdest State GasTab Instr Arith Table Safe Ops Flow Cost Calls.

Module Entry.

Create HintDb op_specs discriminated.
#[export] Hint Constants Opaque : op_specs.
#[export] Hint Resolve spec_opSdiv spec_opSmod spec_opSignExtend spec_opPop spec_opStop
  spec_opJumpdest spec_opBalance spec_opSload spec_opSstore spec_opExtCodeSize spec_opExtCodeHash
  spec_opBlockhash spec_opMload spec_opMstore spec_opMstore8 spec_opReturn spec_opRevert
  spec_opReturnDataCopy spec_opCallDataLoad spec_opSha3 spec_opAddress spec_opOrigin spec_opCaller
  spec_opCallValue spec_opCallDataSize spec_opReturnDataSize spec_opCodeSize spec_opGasprice
  spec_opCoinbase spec_opTimestamp spec_opNumber spec_opSCNumber spec_opGasLimit spec_opPc
  spec_opMsize spec_opGas spec_opJump spec_opJumpi spec_opExtCodeCopy spec_opSuicide
  spec_opCreate2 spec_opCallDataCopy spec_opCodeCopy spec_opCall spec_opCallCode spec_opDelegateCall spec_opStaticCall
  spec_opCreate : op_specs.
#[export] Hint Resolve spec_gasCallDataCopy spec_gasReturnDataCopy spec_gasCodeCopy
  spec_gasExtCodeCopy spec_gasSha3 spec_gasCreate2 spec_gasMLoad spec_gasMStore spec_gasMStore8
  spec_gasCreate spec_gasReturn spec_gasRevert spec_gasExp spec_gasSStore spec_gasSuicide
  spec_gasDelegateCall spec_gasStaticCall spec_gasCall spec_gasCallCode : op_specs.

Section Entry.
Context {D : StateDB} {DO : StateDBOk D} {K : Crypto} {KO : CryptoOk K}.
Context (cx : Context_) (CX : context_ok cx) (N : Z) (HN64 : N <= 2 ^ 64).
Context (call : request -> EVM -> response) {CO : CallsOk N call}.

(** The memory function answers on a stack that is deep enough. *)
Definition mem_total (pops : Z) (ms : option (Stack -> option Z)) : Prop :=
  match ms with
  | None => True
  | Some g => forall st, pops <= st_len st -> Forall (fun x => is_word x) st ->
      exists z, g st = Some z /\ 0 <= z
  end.

(** The gas handed on is read off the stack and [callGasTemp]. *)
Definition al_ext (al : vm_state -> Z) : Prop :=
  forall s s', stack (fr s) = stack (fr s') -> callGasTemp (ev s) = callGasTemp (ev s') ->
    al s = al s'.

Lemma no_gas_ext : al_ext no_gas.
Proof. done. Qed.
Lemma al_delegate_ext : al_ext al_delegate.
Proof. by intros s s' _. Qed.
Lemma al_call_ext : al_ext (al_call cx).
Proof. intros s s' Hs Ht. unfold al_call. by rewrite Hs, Ht. Qed.

(** A free instruction ends the frame and hands nothing on. *)
Definition gas_limit (lo : Z) : Z := if lo =? 0 then N + 1 else N.

Inductive op_spec (op : Z) (o : operation) : Prop :=
| OpSpec pops pushes lo has_mem al :
    (forall st, validateStack o st = makeStackFunc pops pushes st) ->
    gas_spec pops has_mem lo al (gasCost o) -> al_ext al ->
    exec_spec (gas_limit lo) pops pushes (memorySize o) al (execute o) ->
    mem_total pops (memorySize o) ->
    (memorySize o = None \/ has_mem = true) ->
    0 <= lo -> (halts o || reverts o = false -> lo = 1) ->
    (op = CALL -> 3 <= pops) -> op_spec op o.

Lemma mem_size_total (st : Stack) i j :
  Z.of_nat i < st_len st -> Z.of_nat j < st_len st -> Forall (fun x => is_word x) st ->
  exists z, mem_size (Back st i) (Back st j) = Some z /\ 0 <= z.
Proof.
  unfold st_len. intros Hi Hj Hw.
  destruct (lookup_lt_is_Some_2 st i) as [x Hx]; [lia|].
  destruct (lookup_lt_is_Some_2 st j) as [y Hy]; [lia|].
  pose proof (Forall_lookup_1 _ _ _ _ Hw Hx). pose proof (Forall_lookup_1 _ _ _ _ Hw Hy).
  unfold Back, Stack in *. rewrite Hx, Hy. eexists; split; [done|]. unfold calcMemSize. case_if; lia.
Qed.

Lemma mem_size_total1 (st : Stack) i l :
  Z.of_nat i < st_len st -> 0 <= l -> Forall (fun x => is_word x) st ->
  exists z, mem_size (Back st i) (Some l) = Some z /\ 0 <= z.
Proof.
  unfold st_len. intros Hi Hl Hw. destruct (lookup_lt_is_Some_2 st i) as [x Hx]; [lia|].
  pose proof (Forall_lookup_1 _ _ _ _ Hw Hx). unfold Back, Stack in *. rewrite Hx. eexists; split; [done|].
  unfold calcMemSize. case_if; lia.
Qed.

Lemma mem_max_total x y :
  (exists z, x = Some z /\ 0 <= z) -> (exists z, y = Some z /\ 0 <= z) ->
  exists z, mem_max x y = Some z /\ 0 <= z.
Proof.
  intros (a & -> & Ha) (b & -> & Hb). eexists; split; [done|]. unfold BigMax. case_if; lia.
Qed.

Ltac mem_tac :=
  first [ exact I
        | intros st_ Hl_ Hw_; first [ apply mem_max_total; apply mem_size_total; done || lia
                                    | apply mem_size_total; done || lia
                                    | apply mem_size_total1; done || lia ] ].

Ltac word_op :=
  intros; cbv [f_add f_sub f_mul f_not f_lt f_gt f_eq]; auto with words_ok.

Ltac exec_tac :=
  first [ change (gas_limit 1) with N | change (gas_limit 0) with (N + 1) ];
  first [ solve [eauto with op_specs]
        | apply spec_binop; solve [word_op]
        | apply spec_ternop; solve [word_op]
        | apply spec_unop; solve [word_op] ].

Ltac gas_tac :=
  first [ solve [eauto with op_specs]
        | eapply (spec_constGas _ 1); done
        | eapply (spec_constGas _ 0); done ].

Ltac entry :=
  eapply OpSpec; cbn [execute gasCost validateStack memorySize halts jumps writes reverts returns];
  [ reflexivity | gas_tac | first [apply no_gas_ext | apply al_delegate_ext | apply al_call_ext] | exec_tac
  | mem_tac | first [by left | by right] | lia | done | done ].

Ltac entries :=
  intros H; repeat (case_match; try discriminate); injection H as <-; entry.

Lemma arithmetic_spec op o : frontier_arithmetic cx op = Some o -> op_spec op o.
Proof. unfold frontier_arithmetic, plain, with_mem. entries. Qed.

Lemma environment_spec op o : frontier_environment cx op = Some o -> op_spec op o.
Proof. unfold frontier_environment, plain, with_mem. entries. Qed.

Lemma storage_spec op o : frontier_storage op = Some o -> op_spec op o.
Proof. unfold frontier_storage, plain, with_mem. entries. Qed.

Lemma system_spec op o : frontier_system cx call op = Some o -> op_spec op o.
Proof. unfold frontier_system. entries. Qed.

Ltac family :=
  match goal with |- context [if ?b then _ else _] => destruct b eqn:? end; [|done];
  match goal with H : _ && _ = true |- _ => apply andb_true_iff in H as [?%Z.leb_le ?%Z.leb_le] end;
  intros [= <-].

Lemma push_spec op o : frontier_push op = Some o -> op_spec op o.
Proof.
  unfold frontier_push, plain. family.
  apply (OpSpec _ _ 0 1 1 false no_gas); try done; [by apply spec_constGas| |by left|unfold CALL; lia].
  apply spec_makePush. lia.
Qed.

Lemma dup_spec op o : frontier_dup op = Some o -> op_spec op o.
Proof.
  unfold frontier_dup, plain. family. set (n := op - 0x80 + 1). assert (1 <= n) by lia.
  apply (OpSpec _ _ n (n + 1) 1 false no_gas); try done; [by apply spec_constGas| |by left|].
  - cbn [execute memorySize]. rewrite <- (Z2Nat.id n) at 1 2 by lia. apply spec_makeDup. lia.
  - unfold CALL. lia.
Qed.

Lemma swap_spec op o : frontier_swap op = Some o -> op_spec op o.
Proof.
  unfold frontier_swap, plain. family. set (n := op - 0x90 + 1). assert (1 <= n) by lia.
  replace (op - 0x90 + 2) with (n + 1) by lia.
  apply (OpSpec _ _ (n + 1) (n + 1) 1 false no_gas); try done; [by apply spec_constGas| |by left|].
  - cbn [execute memorySize]. rewrite <- (Z2Nat.id n) at 1 2 by lia. apply spec_makeSwap. lia.
  - unfold CALL. lia.
Qed.

Lemma log_spec op o : frontier_log cx op = Some o -> op_spec op o.
Proof.
  unfold frontier_log. family. set (n := op - 0xa0) in *.
  apply (OpSpec _ _ (n + 2) 0 1 true no_gas); try done.
  - apply spec_makeGasLog. lia.
  - cbn [execute memorySize]. rewrite <- (Z2Nat.id n) at 1 by lia. apply spec_makeLog.
  - intros st Hl Hw. apply mem_size_total; done || lia.
  - by right.
  - unfold CALL. lia.
Qed.

Lemma instruction_spec op o :
  newConstantinopleInstructionSet cx call op = Some o -> op_spec op o.
Proof.
  assert (newFrontierInstructionSet cx call op = Some o -> op_spec op o) as Hf.
  { unfold newFrontierInstructionSet, or_else.
    repeat match goal with |- context [match ?x with Some _ => _ | None => _ end] =>
      destruct x eqn:?; [intros [= <-]; eauto using arithmetic_spec, environment_spec, storage_spec,
        push_spec, dup_spec, swap_spec, log_spec|] end.
    apply system_spec. }
  unfold newConstantinopleInstructionSet, newByzantiumInstructionSet, newHomesteadInstructionSet,
    plain, with_mem.
  intros H; repeat (case_match; try discriminate); try (by apply Hf);
    injection H as <-; entry.
Qed.

End Entry.
End Entry.


Import Word Analysis Jumpdest State GasTab Instr Arith Table Run Safe Ops Flow Cost Calls Entry.

Module Steps.

Section Steps.
Context {D : StateDB} {DO : StateDBOk D} {K : Crypto} {KO : CryptoOk K}.
Context (cx : Context_) (CX : context_ok cx) (N : Z) (HN64 : N <= 2 ^ 64).
Context (call : request -> EVM -> response) {CO : CallsOk N call}.

Lemma validate_ok o pops pushes st :
  validateStack o st = makeStackFunc pops pushes st -> validateStack o st = None ->
  pops <= st_len st /\ st_len st + pushes - pops <= StackLimit.
Proof. intros ->. unfold makeStackFunc. repeat zcase; done || lia. Qed.

Lemma wp_enforce op o s (E : vm_state -> Prop) (Q : unit -> vm_state -> Prop) :
  (op = CALL -> 3 <= st_len (stack (fr s))) -> E s -> Q tt s ->
  wp (enforceRestrictions op o) E Q s.
Proof.
  intros Hc HE HQ. unfold enforceRestrictions. do 2 wp_step.
  destruct (readOnly (ev s)); [|done]. destruct (writes o); [done|].
  destruct (Z.eqb_spec op CALL) as [->|]; [|done].
  wp_step. apply wp_backM; [specialize (Hc eq_refl); lia|]. intros v _. by case_if.
Qed.

Lemma toWordSize_spec x : is_u64 x -> x <= 32 * toWordSize x /\ is_u64 (toWordSize x).
Proof.
  intros Hx. unfold toWordSize, MaxUint64. rewrite Z.gtb_ltb.
  destruct (Z.ltb_spec (2 ^ 64 - 1 - 31) x) as [H|H]; [change ((2 ^ 64 - 1) / 32 + 1) with (2 ^ 59); lia|].
  rewrite u64_small by lia. pose proof (Z.div_mod (x + 31) 32 ltac:(lia)).
  pose proof (Z.mod_pos_bound (x + 31) 32 ltac:(lia)). lia.
Qed.

Lemma SafeMul_ok x y : is_u64 x -> 0 < y < 2 ^ 64 -> snd (SafeMul x y) = false ->
  fst (SafeMul x y) = x * y /\ x * y < 2 ^ 64.
Proof.
  intros Hx Hy. unfold SafeMul, MaxUint64. destruct (Z.eqb_spec x 0) as [->|]; cbn [orb]; [done|].
  destruct (Z.eqb_spec y 0); [lia|]. cbn [fst snd]. rewrite Z.gtb_ltb, Z.ltb_ge. intros H.
  assert (x * y <= 2 ^ 64 - 1).
  { pose proof (Z.mul_div_le (2 ^ 64 - 1) x ltac:(lia)). nia. }
  rewrite u64_small by lia. lia.
Qed.

(** The memory of the next round: whole words, and room for the operands. *)
Lemma wp_memory_needed o pops s (E : vm_state -> Prop) (Q : Z -> vm_state -> Prop) :
  mem_total pops (memorySize o) -> pops <= st_len (stack (fr s)) ->
  Forall (fun x => is_word x) (stack (fr s)) -> E s ->
  (forall n, is_u64 n -> (memorySize o = None -> n = 0) -> (exists w, n = 32 * w) ->
     (forall g, memorySize o = Some g -> exists z, g (stack (fr s)) = Some z /\ z <= n) -> Q n s) ->
  wp (memory_needed o) E Q s.
Proof.
  intros Ht Hl Hw HE HQ. unfold memory_needed. destruct (memorySize o) as [g|].
  - do 2 wp_step. destruct (Ht _ Hl Hw) as (z & Hz & Hz0). wp_step. eapply wp_need; [exact Hz|].
    wp_step. apply wp_checked; [|done]. unfold bigUint64. cbn [fst snd]. intros Ho.
    rewrite BitLen_gt in Ho by lia. apply Z.leb_gt in Ho. unfold Uint64. rewrite u64_small by lia.
    destruct (toWordSize_spec z) as [Hs Hs']; [lia|].
    apply wp_checked; [|done]. intros Ho'. destruct (SafeMul_ok (toWordSize z) 32 Hs' ltac:(lia) Ho') as [-> Hlt].
    apply HQ; [lia|done|exists (toWordSize z); lia|]. intros g' [= <-]. exists z. split; [done|lia].
  - wp_step. apply HQ; try done; try lia. by exists 0.
Qed.

(** Paying: the price was computed and there is gas for it. *)
Lemma wp_charge o pops has_mem lo al n s (Q : unit -> vm_state -> Prop) :
  gas_spec pops has_mem lo al (gasCost o) -> Inv s -> pops <= st_len (stack (fr s)) ->
  is_u64 n -> (forall s' s'' cost, priced s s' -> 0 <= al s' -> al s' + lo <= cost ->
    (has_mem = true -> n <= max_mem) -> cost <= Gas (contract (fr s)) ->
    s'' = mkState (ev s') (set_contract (set_Gas (Gas (contract (fr s)) - cost) (contract (fr s))) (fr s')) ->
    Q tt s'') ->
  wp (charge o n) (fail_ok s) Q s.
Proof.
  intros Hg I Hl Hn HQ. specialize (Hg s n I Hl Hn). unfold wp in *. unfold charge.
  destruct (gasCost o GasTableHomestead n s) as [cost s'|er s'| |]; try done.
  destruct Hg as (Hp & Hc & Ha & Hlo & Hm). rewrite (pr_contract _ _ Hp). unfold UseGas.
  destruct (Z.ltb_spec (Gas (contract (fr s))) cost); [by apply priced_fail|].
  eapply HQ; try done.
Qed.

Lemma Resize_ok m n :
  mem_ok m -> (exists w, n = 32 * w) -> n <= max_mem ->
  let m' := if n >? 0 then Resize m n else m in mem_ok m' /\ n <= mem_len m'.
Proof.
  intros [[w Hw] Hb Hx] [k Hk] Hn. rewrite Z.gtb_ltb. destruct (Z.ltb_spec 0 n); cycle 1.
  { split; [constructor; eauto|]. unfold mem_len. lia. }
  unfold Resize. destruct (Z.ltb_spec (mem_len m) n); [|split; [constructor; eauto|done]].
  assert (mem_len (mkMemory (store m ++ replicate (Z.to_nat (n - mem_len m)) 0) (lastGasCost m)) = n)
    as El by (unfold mem_len in *; cbn [store]; rewrite length_app, length_replicate; lia).
  cbv zeta. split; [|lia]. constructor; rewrite ?El; [by exists k| |done].
  apply Forall_app; split; [done|]. apply Forall_replicate. lia.
Qed.

(** What a round promises. *)
Definition step_post (s : vm_state) (r : option (bytes * option verr)) (s' : vm_state) : Prop :=
  fail_ok s s' /\
  match r with
  | Some (out, _) => bytes_ok out
  | None => Inv s' /\ Gas (contract (fr s')) < Gas (contract (fr s))
  end.

Lemma after_fail s s' n al :
  after s s' n al -> Gas (contract (fr s)) + al <= Gas (contract (fr s)) -> fail_ok s s'.
Proof.
  intros A H. pose proof (af_gas _ _ _ _ A). split_and!; [apply A|apply A|..|lia];
    apply (ck_gas _ (af_contract _ _ _ _ A)).
Qed.

Lemma keep_ok o r s : env_ok (ev s) -> bytes_ok r ->
  env_ok (ev (if returns o then mkState (set_returnData r (ev s)) (fr s) else s)) /\
  env_same (ev s) (ev (if returns o then mkState (set_returnData r (ev s)) (fr s) else s)) /\
  fr (if returns o then mkState (set_returnData r (ev s)) (fr s) else s) = fr s.
Proof.
  intros [] Hr. destruct (returns o); split_and!; try done; by constructor.
Qed.

Lemma env_same_trans e1 e2 e3 : env_same e1 e2 -> env_same e2 e3 -> env_same e1 e3.
Proof. intros [] []. constructor; congruence. Qed.

Lemma wp_perform L o pops pushes al s (E : vm_state -> Prop) (Q : bytes -> vm_state -> Prop) :
  exec_spec L pops pushes (memorySize o) al (execute o) -> Inv s ->
  pc (fr s) < code_len (contract (fr s)) -> pops <= st_len (stack (fr s)) ->
  fits (memorySize o) (fr s) -> 0 <= al s -> Gas (contract (fr s)) + al s < L ->
  (forall s', fail_ok s s' -> E s') ->
  (forall r s', bytes_ok r -> after s s' (pushes - pops) (al s) -> Q r s') ->
  wp (perform o) E Q s.
Proof.
  intros Hx I Hpc Hl Hf Hal HN HE HQ. specialize (Hx s I Hpc Hl Hf Hal HN). unfold wp in *.
  unfold perform. destruct (execute o s) as [r s'|er s'| |]; try done.
  - destruct Hx as [Hr [Ae As Ac Aco Am Aw Al Ag Ap]]. destruct (keep_ok o r s' Ae Hr) as (K1 & K2 & K3).
    apply HQ; [done|]. constructor; rewrite ?K3; try done. by eapply env_same_trans.
  - destruct Hx as (Ae & As & Hg). destruct (keep_ok o [] s' Ae bytes_ok_nil) as (K1 & K2 & K3).
    apply HE. split_and!; rewrite ?K3; try apply Hg; [done|by eapply env_same_trans].
Qed.

(** How a round ends once its instruction has run. *)
Lemma wp_finish o s r s' pops pushes al lo cost :
  Inv s -> Gas (contract (fr s)) < 2 ^ 64 -> bytes_ok r ->
  after s s' (pushes - pops) al -> st_len (stack (fr s)) + pushes - pops <= StackLimit ->
  al + lo <= cost -> 0 <= lo -> (halts o || reverts o = false -> lo = 1) -> forall s0,
  env_same (ev s0) (ev s) -> Gas (contract (fr s)) + cost = Gas (contract (fr s0)) ->
  wp (conclude o r) (fail_ok s0) (step_post s0) s'.
Proof.
  intros I Hg Hr A Hst Hal Hlo Hh s0 Es EG. unfold conclude.
  assert (fail_ok s0 s') as F.
  { split_and!; [apply A|by eapply env_same_trans; [|apply A]|..|];
      try apply (ck_gas _ (af_contract _ _ _ _ A)). pose proof (af_gas _ _ _ _ A). lia. }
  destruct A as [Ae As Ac Aco Am Aw Al Ag Ap].
  destruct (reverts o); [by apply wp_ret|]. destruct (halts o); [by apply wp_ret|].
  specialize (Hh eq_refl). subst lo.
  assert (code_len (contract (fr s')) = code_len (contract (fr s))) as El
    by (unfold code_len; by rewrite (sc_code _ _ Aco)).
  pose proof (ck_code _ Ac) as [_ Hl]. unfold code_len in *.
  destruct s' as [e' [p' c' m' st']]; cbn [ev fr pc contract mem stack] in *.
  case_if; repeat wp_step; (split; [done|]); (split; [|cbn [fr contract]; lia]); (split; [done|]);
    constructor; cbn [fr contract mem stack pc]; try done; unfold code_len, st_len in *;
    rewrite ?u64_small by lia; lia.
Qed.

Lemma step_entry_spec op o s :
  op_spec N op o -> Inv s -> Gas (contract (fr s)) <= N ->
  pc (fr s) < code_len (contract (fr s)) -> validateStack o (stack (fr s)) = None ->
  wp (round op o) (fail_ok s) (step_post s) s.
Proof.
  intros [pops pushes lo has_mem al Hval Hgas Hext Hexec Htot Hhm Hlo Hh Hcall] I HN Hpc Hv. unfold round.
  destruct (validate_ok _ _ _ _ (Hval _) Hv) as [Hpops Hpush]. pose proof I as [Ek Fk].
  wp_step. apply wp_enforce; [lia|by apply fail_ok_refl|].
  wp_step. eapply wp_memory_needed; [done|done|apply Fk|by apply fail_ok_refl|].
  intros n Hn Hn0 Hw32 Hfit. wp_step. eapply wp_charge; [done..|].
  intros s' s'' cost Hp Ha Hlo' Hmax Hcost Es''.
  set (m := if n >? 0 then Resize (mem (fr s')) n else mem (fr s')).
  set (c := set_Gas (Gas (contract (fr s)) - cost) (contract (fr s))).
  assert (mem_ok (mem (fr s'))) as Hm0.
  { destruct Fk as [_ [Hml Hmb Hmx] _ _ _]. unfold mem_len in *.
    constructor; unfold mem_len; rewrite ?(pr_store _ _ Hp); done. }
  assert (n <= max_mem) as Hnmax.
  { destruct Hhm as [Hnone| ->]; [rewrite (Hn0 Hnone); unfold max_mem; lia|by apply Hmax]. }
  destruct (Resize_ok (mem (fr s')) n Hm0 Hw32 Hnmax) as [Hm Hml]. fold m in Hm, Hml.
  set (s1 := mkState (ev s') (mkFrame (pc (fr s)) c m (stack (fr s)))).
  assert (Inv s1) as I1.
  { split; [apply Hp|]. destruct Fk. constructor; cbn; try done.
    apply contract_ok_gas; [done|]. pose proof (ck_gas _ fk_contract0). lia. }
  assert (al s1 = al s') as Eal by (by apply Hext; [rewrite (pr_stack _ _ Hp)|]).
  assert (s'' = mkState (ev s') (mkFrame (pc (fr s)) c (mem (fr s')) (stack (fr s)))) as ->.
  { rewrite Es''. unfold set_contract. by rewrite (pr_pc _ _ Hp), (pr_stack _ _ Hp). }
  assert (wp (let! res := perform o in conclude o res) (fail_ok s) (step_post s) s1) as Hrest.
  { pose proof (ck_gas _ (fk_contract _ Fk)) as Hg.
    assert (Gas (contract (fr s1)) = Gas (contract (fr s)) - cost) as Eg1 by done.
    assert (env_same (ev s) (ev s1)) as Es1 by apply Hp.
    wp_step. apply (wp_perform (gas_limit N lo) o pops pushes al); try done; try lia.
    - unfold fits. destruct (memorySize o) as [g|]; [|done]. destruct (Hfit g eq_refl) as (z & Hz & Hle).
      exists z. split; [exact Hz|]. change (mem (fr s1)) with m. lia.
    - unfold gas_limit. destruct (Z.eqb_spec lo 0); lia.
    - intros e' (F1 & F2 & F3 & F4). split_and!; [done|by eapply env_same_trans|lia..].
    - intros r s2 Hr A. eapply (wp_finish o s1 r s2 pops pushes (al s1) lo cost); try done; try lia. }
  wp_step. unfold m in s1. case_if; wp_step; exact Hrest.
Qed.

(** Beyond the code every byte reads as STOP. *)
Lemma GetOp_beyond c n : 0 <= n -> code_len c <= n -> GetOp c n = STOP.
Proof.
  unfold GetOp, GetByte, code_len. intros Hn Hl. destruct (Z.ltb_spec n (Z.of_nat (length (Code c)))); [lia|done].
Qed.

Definition entry_STOP : operation :=
  mkOp opStop (constGasFunc 0) (makeStackFunc 0 0) None true false false false false.

Lemma round_STOP s :
  Inv s -> wp (round STOP entry_STOP) (fail_ok s) (step_post s) s.
Proof.
  intros I. unfold round. wp_step. apply wp_enforce; [done|by apply fail_ok_refl|].
  pose proof I as [Ek Fk]. pose proof (ck_gas _ (fk_contract _ Fk)) as Hg.
  unfold memory_needed. cbn [memorySize entry_STOP]. do 2 wp_step. unfold wp, charge.
  cbn [gasCost entry_STOP]. unfold constGasFunc, ret, UseGas, bind. 
  destruct (Z.ltb_spec (Gas (contract (fr s))) 0); [lia|].
  cbn. unfold ret. split; [|apply bytes_ok_nil].
  split_and!; cbn; try lia; [done|by constructor].
Qed.

Lemma step_spec s :
  Inv s -> Gas (contract (fr s)) <= N ->
  wp (step cx call) (fail_ok s) (step_post s) s.
Proof.
  intros I HN. unfold step. do 2 wp_step.
  destruct (Z.ltb_spec (pc (fr s)) (code_len (contract (fr s)))) as [Hpc|Hpc].
  - destruct (newConstantinopleInstructionSet _ _ _) as [o|] eqn:Eo;
      [|by apply wp_fail, fail_ok_refl].
    pose proof (instruction_spec cx CX N HN64 call _ _ Eo) as So.
    destruct (validateStack o (stack (fr s))) eqn:Ev; [by apply wp_fail, fail_ok_refl|].
    by apply step_entry_spec.
  - pose proof I as [Ek Fk]. rewrite (GetOp_beyond _ _ (proj1 (fk_pc _ Fk)) Hpc).
    change (newConstantinopleInstructionSet cx call STOP) with (Some entry_STOP). cbv iota beta.
    destruct (validateStack entry_STOP (stack (fr s))); [by apply wp_fail, fail_ok_refl|].
    by apply round_STOP.
Qed.

End Steps.
End Steps.
