(* ===== verification/EvmTotal.v ===== *)
(** The machine is total: with more fuel than gas every call returns, never
    panics, and gives back no more gas than it was handed. *)
From S2P Require Import Prelude Bech32 Address EvmWord EvmAnalysis EvmJumpdest EvmState EvmGas EvmInstr EvmArith EvmTable EvmRun EvmSafe EvmOps EvmFlow EvmCost EvmSteps.

Import Word Analysis Jumpdest State GasTab Instr Arith Table Run Safe Ops Flow Cost Calls Entry Steps.

Module Total.

Section Total.
Context {D : StateDB} {DO : StateDBOk D} {K : Crypto} {KO : CryptoOk K}.
Context (cx : Context_) (CX : context_ok cx).

(** An interpreter at rest has no pool; the one it will take from the global
    list has been used before. *)
Record env_ready (e : EVM) : Prop := {
  er_pool : pool e = Some true \/ (pool e = None /\ exists rest, free_pools e = true :: rest);
  er_cache h bits : jumpdests e !! h = Some bits -> codeBitmap (code_of h) = Some bits;
  er_ret : bytes_ok (returnData e)
}.

Lemma env_ok_ready e : env_ok e -> env_ready e.
Proof. intros []. constructor; auto. Qed.

(** Inside a call tree the surroundings are kept. *)
Record keeps (e e' : EVM) : Prop := {
  kept : env_ok e -> env_ok e' /\ env_same e e'
}.

Definition run_post (e : EVM) (g : Z) (r : run_result) : Prop :=
  match r with
  | Ran b _ c e' => keeps e e' /\ bytes_ok b /\ 0 <= Gas c <= g
  | RunPanic | RunNoFuel => False
  end.

Definition call_post (e : EVM) (g : Z) (r : response) : Prop :=
  match r with
  | Answered a e' =>
      keeps e e' /\ 0 <= leftOverGas a <= g /\ bytes_ok (a_ret a) /\ addr_ok (a_addr a)
  | CallPanic | CallNoFuel => False
  end.

Lemma keeps_refl e : keeps e e.
Proof. constructor. intros H. by split; [|constructor]. Qed.

Lemma keeps_statedb e e' db : keeps e e' -> keeps e (set_statedb db e').
Proof. intros [H]. constructor. intros He. destruct (H He) as [[] []]. split; by constructor. Qed.

Lemma keeps_trans e1 e2 e3 : keeps e1 e2 -> keeps e2 e3 -> keeps e1 e3.
Proof.
  intros [H1] [H2]. constructor. intros He. destruct (H1 He) as [He2 S1]. destruct (H2 He2) as [He3 S2].
  split; [done|by eapply env_same_trans].
Qed.

(** ** Running a contract *)

Context (lp : vm_state -> out (bytes * option verr)) (L : Z) (HL64 : L <= 2 ^ 64).
Context (lp_ok : forall s, Inv s -> Gas (contract (fr s)) < L ->
  wp lp (fail_ok s) (fun r s' => fail_ok s s' /\ bytes_ok (fst r)) s).

Definition enter (ro : bool) (e : EVM) : EVM :=
  let e := if bool_decide (pool e = None) then get_pool e else e in
  let e := set_depth (depth e + 1) e in
  let e := if ro && negb (readOnly e) then set_readOnly true e else e in
  set_returnData [] e.

Lemma enter_ok ro e : env_ready e -> env_ok (enter ro e).
Proof.
  intros [Hp Hc _]. unfold enter. destruct Hp as [Hp|[Hp [rest Hr]]].
  - rewrite bool_decide_eq_false_2 by congruence.
    destruct (ro && _); constructor; cbn; done || apply bytes_ok_nil.
  - rewrite bool_decide_eq_true_2 by done. unfold get_pool. rewrite Hr.
    destruct (ro && _); constructor; cbn; done || apply bytes_ok_nil.
Qed.

Definition leave (outermost sets : bool) (e : EVM) : EVM :=
  let e := if sets then set_readOnly false e else e in
  let e := set_depth (depth e - 1) e in
  if outermost then put_pool e else e.

Lemma leave_keeps ro e e' :
  env_ok e' -> env_same (enter ro e) e' ->
  keeps e (leave (bool_decide (pool e = None))
             (ro && negb (readOnly (if bool_decide (pool e = None) then get_pool e else e))) e').
Proof.
  intros [P C R] [Sd Sr Sa]. constructor. intros [P0 C0 R0]. rewrite bool_decide_eq_false_2 by congruence.
  unfold enter in *. rewrite bool_decide_eq_false_2 in * by congruence. unfold leave.
  cbn [readOnly set_depth] in *.
  destruct (ro && negb (readOnly e)) eqn:Es; cbn [depth abort readOnly set_returnData set_depth set_readOnly] in *.
  - apply andb_true_iff in Es as [_ Hr%negb_true_iff].
    split; constructor; cbn [pool jumpdests returnData set_returnData set_depth set_readOnly depth readOnly abort];
      try done; congruence || lia.
  - split; constructor; cbn [pool jumpdests returnData set_returnData set_depth set_readOnly depth readOnly abort];
      try done; congruence || lia.
Qed.

Lemma Run_with_eq c input ro e :
  Run_with lp c input ro e =
  let outermost := bool_decide (pool e = None) in
  let lv := leave outermost (ro && negb (readOnly (if outermost then get_pool e else e))) in
  match Code c with
  | [] => Ran [] None c (lv (enter ro e))
  | _ =>
      match lp (mkState (enter ro e) (mkFrame 0 (set_Input input c) NewMemory [])) with
      | Val (r, err) s => Ran r err (contract (fr s)) (lv (set_pool (Some true) (ev s)))
      | Fail er s => Ran [] (Some er) (contract (fr s)) (lv (set_pool (Some true) (ev s)))
      | Panic => RunPanic
      | NoFuel => RunNoFuel
      end
  end.
Proof. unfold Run_with, enter, leave. by destruct (bool_decide (pool e = None)). Qed.

Lemma first_frame ro c input e :
  env_ready e -> contract_ok c -> bytes_ok input ->
  Inv (mkState (enter ro e) (mkFrame 0 (set_Input input c) NewMemory [])).
Proof.
  intros He [] Hi. split; [by apply enter_ok|]. constructor; cbn.
  - by constructor.
  - constructor; [by exists 0|constructor|done].
  - constructor.
  - done.
  - unfold code_len. lia.
Qed.

Lemma set_pool_same e : env_ok e -> env_ok (set_pool (Some true) e) /\ env_same e (set_pool (Some true) e).
Proof. intros []. split; by constructor. Qed.

Lemma Run_with_spec c input ro e :
  env_ready e -> contract_ok c -> bytes_ok input -> Gas c < L ->
  run_post e (Gas c) (Run_with lp c input ro e).
Proof.
  intros He Ck Hi HL. pose proof (ck_gas _ Ck) as Hg. rewrite Run_with_eq. cbv zeta.
  pose proof (lp_ok _ (first_frame ro c input e He Ck Hi) HL) as Hlp. unfold wp in Hlp.
  assert (forall e', env_ok e' -> env_same (enter ro e) e' ->
    keeps e (leave (bool_decide (pool e = None))
      (ro && negb (readOnly (if bool_decide (pool e = None) then get_pool e else e)))
      (set_pool (Some true) e'))) as Hk.
  { intros e' He' Es. destruct (set_pool_same e' He'). apply leave_keeps; [done|].
    by eapply env_same_trans. }
  destruct (Code c).
  - split_and!; [|apply bytes_ok_nil|lia|lia]. apply leave_keeps; [by apply enter_ok|by constructor].
  - destruct (lp _) as [[r err] s|er s| |]; try done.
    + destruct Hlp as [(Fe & Fs & Fg & Fl) Hr]. cbn in *. split_and!; [by apply Hk|done|lia..].
    + destruct Hlp as (Fe & Fs & Fg & Fl). cbn in *. split_and!; [by apply Hk|apply bytes_ok_nil|lia..].
Qed.

(** Native contracts. *)
Lemma RunPrecompiled_spec p input c e :
  contract_ok c -> 0 <= RequiredGas p input -> (forall r, Run_ p input = Ok r -> bytes_ok r) ->
  run_post e (Gas c) (RunPrecompiledContract p input c e).
Proof.
  intros Ck Hg0 Hr. pose proof (ck_gas _ Ck) as Hg. unfold RunPrecompiledContract, UseGas.
  destruct (Z.ltb_spec (Gas c) (RequiredGas p input)).
  - split_and!; [apply keeps_refl|apply bytes_ok_nil|lia|lia].
  - destruct (Run_ p input) as [r|er] eqn:E;
      (split_and!; [apply keeps_refl| |cbn; lia|cbn; lia]); [by apply Hr|apply bytes_ok_nil].
Qed.

Lemma precompile_spec addr p input :
  bytes_ok input -> PrecompiledContractsHomestead addr = Some p ->
  0 <= RequiredGas p input /\ (forall r, Run_ p input = Ok r -> bytes_ok r).
Proof.
  intros Hi. unfold PrecompiledContractsHomestead.
  repeat (destruct (is_precompile _ _); [intros [= <-]; 
    unfold ecrecover, sha256hash, ripemd160hash, dataCopy; cbn [RequiredGas Run_]; split;
    [first [lia | apply (proj1 (u64_range _))]
      | first [apply ecrecover_ok | apply sha256_ok | apply ripemd160_ok | by intros r [= <-]]]|]).
  done.
Qed.

Lemma run_spec c input ro e :
  env_ready e -> contract_ok c -> bytes_ok input -> Gas c < L ->
  run_post e (Gas c) (run lp c input ro e).
Proof.
  intros He Ck Hi HL. unfold run. destruct (CodeAddr c) as [a|]; [|by apply Run_with_spec].
  destruct (PrecompiledContractsHomestead a) as [p|] eqn:E; [|by apply Run_with_spec].
  destruct (precompile_spec _ _ input Hi E). by apply RunPrecompiled_spec.
Qed.

(** ** The calls *)

Lemma settle_spec e e' g snapshot r :
  keeps e e' -> run_post e' g r -> call_post e g (settle snapshot r).
Proof.
  intros Hk. destruct r as [b err c e''| |]; cbn; [|done..]. intros (Hk' & Hb & Hg).
  pose proof (keeps_trans _ _ _ Hk Hk').
  destruct err as [er|]; cbn; split_and!; try done; try lia; try apply (BigToAddress_ok 0).
  - by apply keeps_statedb.
  - case_bool_decide; lia.
  - case_bool_decide; lia.
Qed.

Lemma contract_of_code from obj gas val d addr :
  addr_ok from -> addr_ok obj -> is_u64 gas -> is_word val ->
  contract_ok (SetCallCode addr (GetCodeHash d addr) (GetCode d addr) (NewContract from obj val gas)).
Proof.
  intros. constructor; cbn; try done; try apply GetCode_ok; try apply bytes_ok_nil; by apply GetCode_hash.
Qed.

Lemma share_ready caller e : env_ready e -> env_ready (share_jumpdests caller e).
Proof. intros []. destruct caller; constructor; cbn; done. Qed.

Lemma ready_statedb e d : env_ready e -> env_ready (set_statedb d e).
Proof. intros []. by constructor. Qed.

Lemma share_keeps caller e db : keeps e (share_jumpdests caller (set_statedb db e)).
Proof. constructor. intros []. destruct caller; split; by constructor. Qed.

Lemma refuse e gas err : is_u64 gas -> call_post e gas (Answered (answer_of [] gas err) e).
Proof.
  intros. split_and!; cbn; try lia; [apply keeps_refl|apply bytes_ok_nil|apply (BigToAddress_ok 0)].
Qed.

Lemma run_inner_spec c input val e :
  contract_ok c -> is_Some (HandleInnerMessage cx) ->
  run_post e (Gas c) (run_inner cx c input val e).
Proof.
  intros Ck [h Hh]. unfold run_inner. rewrite Hh.
  pose proof (cx_inner _ CX h (statedb e) (CallerAddress c) (self c) (Gas c) input val Hh (ck_gas _ Ck)) as H.
  destruct (h _ _ _ _ _ _) as [[[r g] er] db]. destruct H. split_and!; cbn; try done; try lia.
  by apply keeps_statedb, keeps_refl.
Qed.

Ltac guards :=
  repeat match goal with
  | |- call_post _ _ (if ?b then _ else _) => destruct b; [apply refuse; lia|]
  end.

Lemma Call_spec caller addr input gas val e :
  env_ready e -> addr_ok (ref_address caller) -> addr_ok addr -> bytes_ok input ->
  0 <= gas < L -> is_word val -> call_post e gas (Call cx lp caller addr input gas val e).
Proof.
  intros He Hf Ha Hi Hg Hv. unfold Call. cbv zeta. guards.
  destruct (Snapshot (statedb e)) as [snapshot db].
  destruct (_ && (val =? 0)).
  { split_and!; cbn; try lia; [apply keeps_statedb, keeps_refl|apply bytes_ok_nil|apply (BigToAddress_ok 0)]. }
  set (db' := Transfer _ _ _ _ _). set (c := SetCallCode _ _ _ _).
  assert (contract_ok c) as Ck by (apply contract_of_code; try done; lia).
  eapply settle_spec; [apply share_keeps|]. destruct (is_inner cx addr) eqn:Ein.
  - change gas with (Gas c). apply run_inner_spec; [done|]. unfold is_inner in Ein.
    destruct (IsToInnerAccount cx) eqn:E; [|done]. by eapply (cx_inner_set _ CX).
  - change gas with (Gas c). apply run_spec; [by apply share_ready, ready_statedb|done|done|cbn; lia].
Qed.

Lemma CallCode_spec caller addr input gas val e :
  env_ready e -> addr_ok (ref_address caller) -> bytes_ok input ->
  0 <= gas < L -> is_word val -> call_post e gas (CallCode cx lp caller addr input gas val e).
Proof.
  intros He Hf Hi Hg Hv. unfold CallCode. cbv zeta. guards.
  destruct (Snapshot (statedb e)) as [snapshot db]. set (c := SetCallCode _ _ _ _).
  assert (contract_ok c) as Ck by (apply contract_of_code; try done; lia).
  eapply settle_spec; [apply share_keeps|]. change gas with (Gas c).
  apply run_spec; [by apply share_ready, ready_statedb|done|done|cbn; lia].
Qed.

Lemma StaticCall_spec caller addr input gas e :
  env_ready e -> addr_ok (ref_address caller) -> addr_ok addr -> bytes_ok input ->
  0 <= gas < L -> call_post e gas (StaticCall cx lp caller addr input gas e).
Proof.
  intros He Hf Ha Hi Hg. unfold StaticCall. cbv zeta. guards.
  destruct (Snapshot (statedb e)) as [snapshot db]. set (c := SetCallCode _ _ _ _).
  assert (contract_ok c) as Ck by (apply contract_of_code; try done; lia).
  eapply settle_spec; [apply share_keeps|]. change gas with (Gas c).
  apply run_spec; [by apply share_ready, ready_statedb|done|done|cbn; lia].
Qed.

Lemma DelegateCall_spec caller addr input gas e :
  env_ready e -> contract_ok caller -> bytes_ok input ->
  0 <= gas < L -> call_post e gas (DelegateCall cx lp caller addr input gas e).
Proof.
  intros He Hc Hi Hg. unfold DelegateCall. cbv zeta. guards.
  destruct (Snapshot (statedb e)) as [snapshot db]. set (c := SetCallCode _ _ _ _).
  assert (contract_ok c) as Ck.
  { destruct Hc. constructor; cbn; try done; try lia; try apply GetCode_ok; try apply bytes_ok_nil; by apply GetCode_hash. }
  eapply settle_spec; [apply keeps_statedb, keeps_refl|]. change gas with (Gas c).
  apply run_spec; [by apply ready_statedb|done|done|cbn; lia].
Qed.

Lemma finish_create_spec e e' g snapshot address r :
  keeps e e' -> addr_ok address -> run_post e' g r ->
  call_post e g (finish_create snapshot address r).
Proof.
  intros Hk Ha. destruct r as [b err c e''| |]; cbn; [|done..]. intros (Hk' & Hb & Hg).
  pose proof (keeps_trans _ _ _ Hk Hk') as Hk2.
  assert (forall (err' : option verr) c' e3, keeps e e3 -> 0 <= Gas c' <= g -> forall failed : bool,
    call_post e g (Answered
      (create_answer b address
         (if failed && negb (bool_decide (err' = Some ErrExecutionReverted)) then 0 else Gas c')
         (if (Z.of_nat (length b) >? MaxCodeSize) && negb (bool_decide (is_Some err'))
          then Some errMaxCodeSizeExceeded else err'))
      (if failed then set_statedb (RevertToSnapshot (statedb e3) snapshot) e3 else e3))) as Hend.
  { intros err' c' e3 Hk3 Hg' failed. split_and!; cbn; try done.
    - destruct failed; [by apply keeps_statedb|done].
    - case_if; lia.
    - case_if; lia. }
  destruct err as [er|]; [by apply Hend|].
  destruct (Z.of_nat (length b) >? MaxCodeSize) eqn:Ex; [by apply Hend|].
  unfold UseGas. pose proof (u64_range (Z.of_nat (length b) * CreateDataGas)).
  destruct (Z.ltb_spec (Gas c) (u64 (Z.of_nat (length b) * CreateDataGas))); [by apply Hend|].
  apply Hend; [by apply keeps_statedb|cbn; lia].
Qed.

Lemma create_spec caller code gas val address e :
  env_ready e -> addr_ok (ref_address caller) -> addr_ok address -> bytes_ok code ->
  0 <= gas < L -> is_word val -> call_post e gas (create cx lp caller code gas val address e).
Proof.
  intros He Hf Ha Hi Hg Hv. unfold create. cbv zeta. guards.
  destruct (_ || _).
  { split_and!; cbn; try lia; [apply keeps_refl|apply bytes_ok_nil|apply (BigToAddress_ok 0)]. }
  destruct (Snapshot (statedb e)) as [snapshot db]. set (c := SetCallCode _ _ _ _).
  set (e1 := share_jumpdests _ _).
  assert (contract_ok c) as Ck by (constructor; cbn; try done; try lia; apply bytes_ok_nil).
  assert (keeps e e1) as Hk by apply share_keeps.
  destruct (NoRecursion cx && (depth e1 >? 0)).
  { split_and!; cbn; try done; try lia; apply bytes_ok_nil. }
  eapply finish_create_spec; [done|done|]. change gas with (Gas c).
  apply run_spec; [by apply share_ready, ready_statedb|done|apply bytes_ok_nil|cbn; lia].
Qed.

Lemma Create_spec caller code gas val e :
  env_ready e -> addr_ok (ref_address caller) -> bytes_ok code ->
  0 <= gas < L -> is_word val -> call_post e gas (Create cx lp caller code gas val e).
Proof.
  intros. unfold Create. apply create_spec; try done. case_if; [apply CX|apply GenerateContractAddress_ok].
Qed.

Lemma handle_request_ok : CallsOk L (handle_request cx lp).
Proof.
  intros r e (Hg0 & Hv & Hr) He HL. pose proof (env_ok_ready _ He) as Hrd.
  assert (call_post e (req_gas r) (handle_request cx lp r e)) as H.
  { destruct r; cbn [req_gas req_value handle_request] in *.
    - destruct Hr as ([] & ? & ?). by apply Call_spec.
    - destruct Hr as ([] & ? & ?). by apply CallCode_spec.
    - destruct Hr as (? & ? & ?). by apply DelegateCall_spec.
    - destruct Hr as ([] & ? & ?). by apply StaticCall_spec.
    - destruct Hr as ([] & ?). by apply Create_spec. }
  unfold call_post, response_ok in *. destruct (handle_request cx lp r e); try done.
  destruct H as ([Hk] & ? & ? & ?). by destruct (Hk He).
Qed.

End Total.

(** ** The loop *)

Section Loop.
Context {D : StateDB} {DO : StateDBOk D} {K : Crypto} {KO : CryptoOk K}.
Context (cx : Context_) (CX : context_ok cx).

Lemma loop_spec fuel s :
  Inv s -> Gas (contract (fr s)) < Z.of_nat fuel ->
  wp (loop cx fuel) (fail_ok s) (fun r s' => fail_ok s s' /\ bytes_ok (fst r)) s.
Proof.
  revert s. induction fuel as [|fuel IH]; intros s I Hf.
  { pose proof (ck_gas _ (fk_contract _ (proj2 I))). lia. }
  pose proof (ck_gas _ (fk_contract _ (proj2 I))) as Hg.
  unfold wp. cbn [loop]. destruct (negb (abort (ev s) =? 0)).
  { split; [by apply fail_ok_refl|apply bytes_ok_nil]. }
  set (L := Z.min (Z.of_nat fuel) (2 ^ 64)).
  assert (CallsOk L (handle_request cx (loop cx fuel))) as CO.
  { apply handle_request_ok; [done|unfold L; lia|]. intros s' I' Hs'. apply IH; [done|unfold L in *; lia]. }
  assert (Gas (contract (fr s)) <= L) as HL by (unfold L; lia).
  pose proof (step_spec cx CX L ltac:(unfold L; lia) _ s I HL) as Hs. unfold wp in Hs.
  destruct (step cx _ s) as [[[r er]|] s'|er s'| |]; try done.
  destruct Hs as (F & I' & Hlt). specialize (IH s' I' ltac:(lia)). unfold wp in IH.
  assert (forall s2, fail_ok s' s2 -> fail_ok s s2) as Htr.
  { intros s2 (A & B & C & E). destruct F as (F1 & F2 & F3 & F4).
    split_and!; [done|by eapply env_same_trans|lia..]. }
  destruct (loop cx fuel s') as [[r er] s2|er s2| |]; try done; [|by apply Htr].
  destruct IH as [? ?]. split; [by apply Htr|done].
Qed.

(** A call that was answered, with some of its gas. *)
Definition answered (gas : Z) (r : response) : Prop :=
  exists a e', r = Answered a e' /\ 0 <= leftOverGas a <= gas.

Lemma call_post_answered e gas r : call_post e gas r -> answered gas r.
Proof. destruct r as [a e'| |]; cbn; [|done..]. intros (_ & Hg & _). by exists a, e'. Qed.

Lemma call_hyps fuel gas :
  0 <= gas < 2 ^ 64 -> gas < Z.of_nat fuel ->
  exists L, L <= 2 ^ 64 /\ 0 <= gas < L /\
    forall s, Inv s -> Gas (contract (fr s)) < L ->
      wp (loop cx fuel) (fail_ok s) (fun r s' => fail_ok s s' /\ bytes_ok (fst r)) s.
Proof.
  intros Hg Hf. exists (gas + 1). split_and!; try lia. intros s I Hs. apply loop_spec; [done|lia].
Qed.

(** C2: the machine is total once its integer pool has been used.  Take an
    interpreter whose own pool of integers, or at rest the pool it will take
    from the global list, was used before ([env_ready]; a pool never used makes
    some programs panic at their first pooled operation, see
    [fresh_pool_panics] of [EvmDemo]), and at least one unit of fuel more than
    gas (fuel counts the instructions of the model; the source has no such
    bound).  Whatever code is run, a call, a call with borrowed code, a static
    call or a contract creation from an account is then answered: no panic, no
    endless loop, and never more gas back than was given. *)
Theorem machine_total fuel from addr input gas val e :
  env_ready e -> addr_ok from -> addr_ok addr -> bytes_ok input -> is_word val ->
  0 <= gas < 2 ^ 64 -> gas < Z.of_nat fuel ->
  answered gas (Call cx (loop cx fuel) (ByAccount from) addr input gas val e) /\
  answered gas (CallCode cx (loop cx fuel) (ByAccount from) addr input gas val e) /\
  answered gas (StaticCall cx (loop cx fuel) (ByAccount from) addr input gas e) /\
  answered gas (Create cx (loop cx fuel) (ByAccount from) input gas val e).
Proof.
  intros He Hf Ha Hi Hv Hg Hfuel. destruct (call_hyps fuel gas Hg Hfuel) as (L & HL & HgL & Hlp).
  split_and!; eapply (call_post_answered e).
  - by eapply Call_spec.
  - by eapply CallCode_spec.
  - by eapply StaticCall_spec.
  - by eapply Create_spec.
Qed.

(** one round of the interpreter.  Over any calls that are total, a
    round in a well-formed machine never panics; a round after which the loop
    goes on keeps the machine well-formed (256-bit stack words, at most 1024
    of them, whole words of memory, program counter in range) and has
    consumed gas; an error gives no gas back. *)
Theorem round_safe N call s :
  N <= 2 ^ 64 -> CallsOk N call -> Inv s -> Gas (contract (fr s)) <= N ->
  match step cx call s with
  | Val None s' => Inv s' /\ Gas (contract (fr s')) < Gas (contract (fr s))
  | Val (Some _) s' | Fail _ s' => 0 <= Gas (contract (fr s')) <= Gas (contract (fr s))
  | Panic | NoFuel => False
  end.
Proof.
  intros HN CO I Hg. pose proof (step_spec cx CX N HN call s I Hg) as H. unfold wp in H.
  destruct (step cx call s) as [[r|] s'|er s'| |]; try done.
  - destruct H as [(_ & _ & ? & ?) _]. lia.
  - by destruct H as [_ [? ?]].
  - destruct H as (_ & _ & ? & ?). lia.
Qed.

End Loop.

End Total.
