(* ===== verification/EvmFrame.v ===== *)
(** Programs of the machine that respect a relation between its states; the
    ones that touch neither the account state nor the read-only flag respect
    every relation that only looks at those.

    Failing calls: whatever a call did before it failed, the account state is
    afterwards what it was.  Proved against what the journal of the account
    state promises; [StateEvm] shows that it does.

    Static calls: whatever a contract does while the machine is read-only, the
    account state is only touched by the few operations listed here, none of
    which writes storage, code, nonces or logs, or moves value. *)
From S2P Require Import Prelude Bech32 Address EvmWord EvmAnalysis EvmState EvmGas EvmInstr EvmTable EvmRun.

Import Word Analysis State GasTab Instr Table Run.

Module Pres.

Section Pres.
Context {D : StateDB} {K : Crypto}.

Definition pres_at (R : vm_state -> vm_state -> Prop) {A} (m : M A) (s : vm_state) : Prop :=
  match m s with Val _ s' | Fail _ s' => R s s' | Panic | NoFuel => True end.
Definition pres (R : vm_state -> vm_state -> Prop) {A} (m : M A) : Prop := forall s, pres_at R m s.

Lemma pres_elim R {A} (m : M A) s : pres R m -> pres_at R m s.
Proof. done. Qed.

Section Rules.
Context (R : vm_state -> vm_state -> Prop) {RP : PreOrder R}.

Lemma pres_bind {A B} (m : M A) (k : A -> M B) :
  pres R m -> (forall a, pres R (k a)) -> pres R (bind m k).
Proof.
  intros Hm Hk s. unfold pres_at, bind. specialize (Hm s). unfold pres_at in Hm. destruct (m s) as [a s1|er s1| |]; try done.
  specialize (Hk a s1). unfold pres_at in Hk. destruct (k a s1); try done; by etrans.
Qed.

(** Knowing where the first part ends. *)
Lemma pres_at_bind {A B} (m : M A) (k : A -> M B) s :
  pres_at R m s -> (forall a s', m s = Val a s' -> pres_at R (k a) s') -> pres_at R (bind m k) s.
Proof.
  unfold pres_at, bind. intros Hm Hk. destruct (m s) as [a s1|er s1| |]; try done.
  specialize (Hk a s1 eq_refl). destruct (k a s1); try done; by etrans.
Qed.

Lemma pres_ret {A} (a : A) : pres R (ret a).
Proof. intros s. by cbn. Qed.
Lemma pres_fail {A} er : pres R (fail (A := A) er).
Proof. intros s. by cbn. Qed.
Lemma pres_need {A} (o : option A) : pres R (need o).
Proof. destruct o; intros s; by cbn. Qed.
Lemma pres_getf : pres R getf.
Proof. intros s. by cbn. Qed.
Lemma pres_gete : pres R gete.
Proof. intros s. by cbn. Qed.
Lemma pres_backM n : pres R (backM n).
Proof. apply pres_bind; [apply pres_getf|]. intros f. apply pres_need. Qed.
Lemma pres_checked r : pres R (checked r).
Proof. unfold checked. destruct r as [v []]; [apply pres_fail|apply pres_ret]. Qed.
Lemma pres_if {A} (b : bool) (m1 m2 : M A) : pres R m1 -> pres R m2 -> pres R (if b then m1 else m2).
Proof. by destruct b. Qed.


(** A relation that looks only at the account state and the read-only flag. *)
Class Local : Prop :=
  local s s' : readOnly (ev s') = readOnly (ev s) -> statedb (ev s') = statedb (ev s) -> R s s'.

Context {RL : Local}.

Lemma modf_local g : pres R (modf g).
Proof. intros s. by apply local. Qed.

Lemma mode_local g :
  (forall e, readOnly (g e) = readOnly e) -> (forall e, statedb (g e) = statedb e) -> pres R (mode g).
Proof. intros Hr Hs s. apply local; cbn; auto. Qed.

Lemma popM_local : pres R popM.
Proof.
  apply pres_bind; [apply pres_getf|]. intros f. apply pres_bind; [apply pres_need|]. intros p.
  apply pres_bind; [apply modf_local|]. intros _. apply pres_ret.
Qed.

Lemma pushM_local x : pres R (pushM x).
Proof. apply modf_local. Qed.

Lemma touch_local : pres R pool_touch.
Proof.
  apply pres_bind; [apply pres_gete|]. intros e. apply pres_bind; [apply pres_need|]. intros _.
  by apply mode_local.
Qed.

Lemma getZero_local : pres R getZero.
Proof.
  apply pres_bind; [apply pres_gete|]. intros e. apply pres_bind; [apply pres_need|].
  intros []; [apply pres_ret|]. by intros s.
Qed.
End Rules.
End Pres.

#[global] Arguments Local {_} _.

(** One construct of a program at a time. *)
Ltac pres_step :=
  match goal with
  | |- pres _ (bind _ _) => apply pres_bind; [apply _| |intros ?]
  | |- pres _ (ret _) => apply pres_ret, _
  | |- pres _ (fail _) => apply pres_fail, _
  | |- pres _ panic => by intros ?
  | |- pres _ (need _) => apply pres_need, _
  | |- pres _ getf => apply pres_getf, _
  | |- pres _ gete => apply pres_gete, _
  | |- pres _ (backM _) => apply pres_backM, _
  | |- pres _ (checked _) => apply pres_checked, _
  | |- pres _ popM => (apply popM_local; apply _)
  | |- pres _ (pushM _) => (apply pushM_local; apply _)
  | |- pres _ pool_touch => (apply touch_local; apply _)
  | |- pres _ getZero => (apply getZero_local; apply _)
  | |- pres _ (modf _) => (apply modf_local; apply _)
  | |- pres _ (mode _) => by (apply mode_local; [apply _|..])
  | |- pres _ (if _ then _ else _) => apply pres_if
  | |- pres _ (match ?x with _ => _ end) => destruct x
  end.

Ltac pres_tac := repeat first [progress cbv zeta | pres_step].

Section Instructions.
Context {D : StateDB} {K : Crypto}.
Context (R : vm_state -> vm_state -> Prop) {RP : PreOrder R} {RL : Local R}.

Lemma memGet_local off sz : pres R (memGet off sz).
Proof. unfold memGet. pres_tac. Qed.
Lemma memSet_local off sz v : pres R (memSet off sz v).
Proof. unfold memSet. pres_tac. Qed.
Lemma binop_local f : pres R (binop f).
Proof. unfold binop. pres_tac. Qed.
Lemma ternop_local f : pres R (ternop f).
Proof. unfold ternop. pres_tac. Qed.
Lemma unop_local f : pres R (unop f).
Proof. unfold unop. pres_tac. Qed.
Lemma push_env_local b f : pres R (push_env b f).
Proof. unfold push_env. pres_tac. Qed.
Lemma copy_local f : pres R (copy_to_memory f).
Proof. unfold copy_to_memory. pres_tac; apply memSet_local. Qed.
Lemma validJumpdest_local d : pres R (validJumpdest d).
Proof. unfold validJumpdest. pres_tac. Qed.
End Instructions.

End Pres.


Import Word Analysis State GasTab Instr Table Run Pres.

Module Frame.

(** What the account state promises the machine.  [later d d']: [d'] came from
    [d] by operations that left the snapshots of [d] good. *)
Class Journaled (D : StateDB) := {
  good : sdb -> Prop;
  later : sdb -> sdb -> Prop;
  alike : sdb -> sdb -> Prop;
  later_preorder :: PreOrder later;
  alike_refl :: Reflexive alike;
  later_CreateAccount d a : later d (CreateAccount d a);
  later_AddBalance d a n : later d (AddBalance d a n);
  later_SetNonce d a n : later d (SetNonce d a n);
  later_SetCode d a c : later d (SetCode d a c);
  later_AddRefund d n : later d (AddRefund d n);
  later_SubRefund d d' n : SubRefund d n = Some d' -> later d d';
  later_SetState d a k v : later d (SetState d a k v);
  later_Suicide d a : later d (Suicide d a);
  later_AddLog d l : later d (AddLog d l);
  later_AddPreimage d h b : later d (AddPreimage d h b);
  later_Snapshot d : later d (snd (Snapshot d));
  later_Revert d d' :
    later (snd (Snapshot d)) d' -> later d (RevertToSnapshot d' (fst (Snapshot d)));
  revert_alike d d' :
    good d -> later (snd (Snapshot d)) d' -> alike (RevertToSnapshot d' (fst (Snapshot d))) d
}.

(** The functions of the context keep to the interface too. *)
Record journaled_context {D : StateDB} {J : Journaled D} (cx : Context_) : Prop := {
  jc_Transfer d a b v : later d (Transfer cx d a b v);
  jc_Inner h d c a g i v : HandleInnerMessage cx = Some h -> later d (snd (h d c a g i v))
}.

Section Frame.
Context {D : StateDB} {K : Crypto} {J : Journaled D}.
Context (cx : Context_) (JC : journaled_context cx).

Definition Later (s s' : vm_state) : Prop := later (statedb (ev s)) (statedb (ev s')).

#[local] Instance Later_preorder : PreOrder Later.
Proof. unfold Later. split; [intros s; reflexivity|]. intros s1 s2 s3. by etrans. Qed.

#[local] Instance Later_local : Local Later.
Proof. intros s s' _ Hs. unfold Later. rewrite Hs. reflexivity. Qed.

Lemma mode_later g : (forall e, later (statedb e) (statedb (g e))) -> pres Later (mode g).
Proof. intros Hs s. apply Hs. Qed.

Create HintDb journal.
#[local] Hint Resolve later_CreateAccount later_AddBalance later_SetNonce later_SetCode
  later_AddRefund later_SetState later_Suicide later_AddLog later_AddPreimage : journal.

Lemma refund_later f : (forall d d', f d = Some d' -> later d d') -> pres Later (refund f).
Proof.
  intros Hf s. unfold pres_at, refund, bind, gete, need, mode. cbn.
  destruct (f (statedb (ev s))) as [d|] eqn:E; cbn; [|done]. by apply Hf in E.
Qed.

Lemma refund_add_later n : pres Later (refund (fun d => Some (AddRefund d n))).
Proof. apply refund_later. intros d d' [= <-]. apply later_AddRefund. Qed.
Lemma refund_sub_later n : pres Later (refund (fun d => SubRefund d n)).
Proof. apply refund_later. intros d d'. apply later_SubRefund. Qed.

Section Ops.
Context (call : request -> EVM -> response).

Definition answer_later (e : EVM) (r : response) : Prop :=
  match r with
  | Answered _ e' => later (statedb e) (statedb e')
  | CallPanic | CallNoFuel => True
  end.

Context (call_later : forall r e, answer_later e (call r e)).

Lemma invoke_later r : pres Later (invoke call r).
Proof.
  intros s. unfold pres_at, invoke. pose proof (call_later r (ev s)) as H.
  by destruct (call r (ev s)).
Qed.

(** Every program of the machine, leaves included. *)
Ltac later_tac :=
  repeat first
    [ progress cbv zeta
    | pres_step
    | match goal with
      | |- pres _ (invoke _ _) => apply invoke_later
      | |- pres _ (refund (fun _ => Some _)) => apply refund_add_later
      | |- pres _ (refund _) => apply refund_sub_later
      | |- pres _ (memGet _ _) => apply memGet_local; apply _
      | |- pres _ (memSet _ _ _) => apply memSet_local; apply _
      | |- pres _ (validJumpdest _) => apply validJumpdest_local; apply _
      | |- pres _ (copy_to_memory _) => apply copy_local; apply _
      | |- pres _ (mode _) => apply mode_later; intros ?; cbn; eauto with journal
      end ].

Lemma finish_call_later off sz a : pres Later (finish_call off sz a).
Proof. unfold finish_call, add_gas. later_tac. Qed.

Lemma pop_topics_later n : pres Later (pop_topics n).
Proof. induction n as [|n IH]; cbn; later_tac. apply IH. Qed.

Lemma memoryGasCost_later n : pres Later (memoryGasCost n).
Proof. unfold memoryGasCost. later_tac. Qed.
Lemma word_gas_later k per g : pres Later (word_gas k per g).
Proof. unfold word_gas. later_tac. Qed.
Lemma call_gas_later gt g : pres Later (call_gas gt g).
Proof. unfold call_gas. later_tac. Qed.

Lemma suicide_later : pres Later opSuicide.
Proof.
  unfold opSuicide. later_tac.
  etrans; [apply later_AddBalance|apply later_Suicide].
Qed.

Definition entry_later (o : operation) : Prop :=
  (forall n, pres Later (gasCost o GasTableHomestead n)) /\ pres Later (execute o).

Ltac gas_later :=
  intros n; cbn [gasCost];
  first [ by (intros s; unfold pres_at; cbn)
        | unfold gasCallDataCopy, gasReturnDataCopy, gasCodeCopy, gasExtCodeCopy, gasSha3, gasMLoad,
            gasMStore8, gasMStore, gasReturn, gasRevert, gasExp, gasCall, gasCallCode,
            gasDelegateCall, gasStaticCall, gasSStore, gasSuicide, gasCreate, gasCreate2, makeGasLog;
          later_tac;
          first [apply memoryGasCost_later | apply word_gas_later | apply call_gas_later] ].

Ltac exec_later :=
  cbn [execute];
  first [ apply binop_local; apply _ | apply ternop_local; apply _ | apply unop_local; apply _
        | apply push_env_local; apply _ | apply copy_local; apply _ | apply suicide_later
        | unfold opSdiv, opSmod, opSignExtend, opBalance, opCallDataLoad, opReturnDataCopy, opSha3,
            opExtCodeSize, opExtCodeCopy, opExtCodeHash, opBlockhash, opPop, opMload, opMstore,
            opMstore8, opSload, opSstore, opJump, opJumpi, opJumpdest, opReturn, opRevert, opStop,
            makePush, makeDup, makeSwap, makeLog, opCall, opCallCode, opDelegateCall, opStaticCall,
            opCreate, opCreate2, use_gas, add_gas;
          later_tac; first [apply finish_call_later | apply pop_topics_later] ].

Ltac later_entries :=
  intros H; repeat (case_match; try discriminate); injection H as <-; (split; [gas_later|exec_later]).

Lemma instruction_later op o :
  newConstantinopleInstructionSet cx call op = Some o -> entry_later o.
Proof.
  assert (newFrontierInstructionSet cx call op = Some o -> entry_later o) as Hf.
  { unfold newFrontierInstructionSet, or_else.
    repeat match goal with |- context [match ?x with Some _ => _ | None => _ end] =>
      destruct x eqn:E; [intros [= <-]; revert E; unfold frontier_arithmetic, frontier_environment,
        frontier_storage, frontier_push, frontier_dup, frontier_swap, frontier_log, plain, with_mem;
        later_entries|clear E] end.
    unfold frontier_system. later_entries. }
  unfold newConstantinopleInstructionSet, newByzantiumInstructionSet, newHomesteadInstructionSet,
    plain, with_mem.
  intros H; repeat (case_match; try discriminate); try (by apply Hf);
    injection H as <-; (split; [gas_later|exec_later]).
Qed.

(** ** A round of the loop *)

Lemma charge_later o n : pres Later (gasCost o GasTableHomestead n) -> pres Later (charge o n).
Proof.
  intros Hg s. unfold pres_at, charge. specialize (Hg s). unfold pres_at in Hg.
  destruct (gasCost o GasTableHomestead n s) as [c s'|er s'| |]; try done.
  unfold UseGas. by destruct (Gas (contract (fr s')) <? c).
Qed.

Lemma perform_later o : pres Later (execute o) -> pres Later (perform o).
Proof.
  intros Hx s. unfold pres_at, perform. specialize (Hx s). unfold pres_at in Hx.
  destruct (execute o s) as [r s'|er s'| |]; try done; by destruct (returns o).
Qed.

Lemma step_later : pres Later (step cx call).
Proof.
  unfold step. apply pres_bind; [apply _|apply pres_getf, _|]. intros f. cbv zeta.
  destruct (newConstantinopleInstructionSet _ _ _) as [o|] eqn:Eo; [|apply pres_fail, _].
  apply instruction_later in Eo as [Hg Hx]. destruct (validateStack o _); [apply pres_fail, _|].
  unfold round, enforceRestrictions, memory_needed, conclude. later_tac;
    first [by apply charge_later | by apply perform_later].
Qed.

End Ops.

(** ** The calls *)

Section Calls.
Context (lp : vm_state -> out (bytes * option verr)) (lp_later : pres Later lp).

Definition run_later (e : EVM) (r : run_result) : Prop :=
  match r with
  | Ran _ _ _ e' => later (statedb e) (statedb e')
  | RunPanic | RunNoFuel => True
  end.

Lemma put_pool_statedb e : statedb (put_pool e) = statedb e.
Proof. unfold put_pool. destruct (pool e); [case_if|]; done. Qed.

Lemma get_pool_statedb e : statedb (get_pool e) = statedb e.
Proof. unfold get_pool. by destruct (free_pools e). Qed.

Lemma Run_with_later c input ro e : run_later e (Run_with lp c input ro e).
Proof.
  unfold Run_with. cbv zeta. set (e0 := if bool_decide (pool e = None) then get_pool e else e).
  assert (statedb e0 = statedb e) as H0 by (unfold e0; case_if; [apply get_pool_statedb|done]).
  clearbody e0. generalize (bool_decide (pool e = None)) as om. intros om.
  set (sets := ro && _). clearbody sets.
  set (e1 := if sets then set_readOnly true (set_depth (depth e0 + 1) e0)
             else set_depth (depth e0 + 1) e0).
  assert (statedb e1 = statedb e) as H1 by (unfold e1; by destruct sets).
  clearbody e1.
  assert (forall lv : EVM,
    statedb (if om then put_pool (set_depth (depth (if sets then set_readOnly false lv else lv) - 1)
                                    (if sets then set_readOnly false lv else lv))
             else set_depth (depth (if sets then set_readOnly false lv else lv) - 1)
                    (if sets then set_readOnly false lv else lv)) = statedb lv) as Hlv.
  { intros lv. destruct om; [rewrite put_pool_statedb|]; by destruct sets. }
  destruct (Code c) as [|b code]; cbn [run_later].
  { rewrite Hlv. cbn. rewrite H1. reflexivity. }
  specialize (lp_later (mkState (set_returnData [] e1) (mkFrame 0 (set_Input input c) NewMemory []))).
  unfold pres_at, Later in lp_later. cbn [ev statedb set_returnData] in lp_later. rewrite H1 in lp_later.
  destruct (lp _) as [[r er] s|er s| |]; cbn [run_later]; try done; by rewrite Hlv.
Qed.

Lemma run_later_ok c input ro e : run_later e (run lp c input ro e).
Proof.
  unfold run.
  assert (forall p, run_later e (RunPrecompiledContract p input c e)) as Hp.
  { intros p. unfold RunPrecompiledContract. destruct (UseGas _ _); [destruct (Run_ p input)|];
      cbn; reflexivity. }
  destruct (CodeAddr c) as [a|]; [destruct (PrecompiledContractsHomestead a)|]; auto using Run_with_later.
Qed.

Lemma run_inner_later c input val e : run_later e (run_inner cx c input val e).
Proof.
  unfold run_inner. destruct (HandleInnerMessage cx) as [h|] eqn:Eh; [|done].
  pose proof (jc_Inner _ JC h (statedb e) (CallerAddress c) (self c) (Gas c) input val Eh) as Hi.
  by destruct (h _ _ _ _ _ _) as [[[r g] er] db].
Qed.

(** A call that came out: the state moved on, and not at all if it failed. *)
Definition call_kept (d : sdb) (r : response) : Prop :=
  match r with
  | Answered a e' =>
      later d (statedb e') /\ (good d -> a_err a <> None -> alike (statedb e') d)
  | CallPanic | CallNoFuel => True
  end.

Lemma kept_refl a e : call_kept (statedb e) (Answered a e).
Proof. split; intros; reflexivity. Qed.

Lemma kept_later e r : call_kept (statedb e) r -> answer_later e r.
Proof. destruct r; cbn; tauto. Qed.

Lemma settle_kept d e r :
  later (snd (Snapshot d)) (statedb e) -> run_later e r -> call_kept d (settle (fst (Snapshot d)) r).
Proof.
  intros Hd. destruct r as [b [er|] c e2| |]; cbn [settle call_kept]; try done; intros Hr; cbn.
  - assert (later (snd (Snapshot d)) (statedb e2)) as H by (by etrans).
    split; [by apply later_Revert|]. intros Hg _. by apply revert_alike.
  - split; [|done]. etrans; [apply later_Snapshot|]. by etrans.
Qed.

Lemma share_statedb caller e : statedb (share_jumpdests caller e) = statedb e.
Proof. by destruct caller. Qed.

Ltac guards_kept :=
  repeat match goal with
  | |- call_kept _ (if ?b then _ else _) => destruct b; [apply kept_refl|]
  end.

Lemma Call_kept caller addr input gas val e :
  call_kept (statedb e) (Call cx lp caller addr input gas val e).
Proof.
  unfold Call. cbv zeta. guards_kept. destruct (Snapshot (statedb e)) as [n db] eqn:Es.
  assert (n = fst (Snapshot (statedb e))) as -> by (by rewrite Es).
  assert (snd (Snapshot (statedb e)) = db) as Hs by (by rewrite Es).
  case_if. { split; [|done]. cbn. rewrite <- Hs. apply later_Snapshot. }
  set (db1 := if Exist db addr then db else CreateAccount db addr).
  assert (later db db1) as H1.
  { unfold db1. destruct (Exist db addr); [reflexivity|apply later_CreateAccount]. }
  set (db2 := Transfer cx db1 _ addr val).
  assert (later db db2) as H2 by (etrans; [done|apply JC]).
  eapply settle_kept.
  - rewrite Hs. instantiate (1 := share_jumpdests caller (set_statedb db2 e)). by rewrite share_statedb.
  - case_if; [apply run_inner_later|apply run_later_ok].
Qed.

Lemma CallCode_kept caller addr input gas val e :
  call_kept (statedb e) (CallCode cx lp caller addr input gas val e).
Proof.
  unfold CallCode. cbv zeta. guards_kept. destruct (Snapshot (statedb e)) as [n db] eqn:Es.
  assert (n = fst (Snapshot (statedb e))) as -> by (by rewrite Es).
  eapply settle_kept; [|apply run_later_ok]. rewrite share_statedb, Es. cbn. reflexivity.
Qed.

Lemma DelegateCall_kept caller addr input gas e :
  call_kept (statedb e) (DelegateCall cx lp caller addr input gas e).
Proof.
  unfold DelegateCall. cbv zeta. guards_kept. destruct (Snapshot (statedb e)) as [n db] eqn:Es.
  assert (n = fst (Snapshot (statedb e))) as -> by (by rewrite Es).
  eapply settle_kept; [|apply run_later_ok]. rewrite Es. cbn. reflexivity.
Qed.

Lemma StaticCall_kept caller addr input gas e :
  call_kept (statedb e) (StaticCall cx lp caller addr input gas e).
Proof.
  unfold StaticCall. cbv zeta. guards_kept. destruct (Snapshot (statedb e)) as [n db] eqn:Es.
  assert (n = fst (Snapshot (statedb e))) as -> by (by rewrite Es).
  eapply settle_kept; [|apply run_later_ok]. rewrite share_statedb, Es. apply later_AddBalance.
Qed.

Lemma finish_create_kept d e address r :
  later (snd (Snapshot d)) (statedb e) -> run_later e r ->
  call_kept d (finish_create (fst (Snapshot d)) address r).
Proof.
  intros Hd. destruct r as [b er c e2| |]; cbn [finish_create call_kept run_later]; try done. intros Hr.
  assert (later (snd (Snapshot d)) (statedb e2)) as H2 by (by etrans).
  assert (forall e3 : EVM, later (snd (Snapshot d)) (statedb e3) ->
    later d (RevertToSnapshot (statedb e3) (fst (Snapshot d))) /\
    (good d -> alike (RevertToSnapshot (statedb e3) (fst (Snapshot d))) d)) as Hrev.
  { intros e3 H3. split; [by apply later_Revert|]. intros. by apply revert_alike. }
  assert (forall e3 : EVM, later (snd (Snapshot d)) (statedb e3) -> later d (statedb e3)) as Hfwd.
  { intros e3 H3. etrans; [apply later_Snapshot|done]. }
  destruct er as [er|]; [destruct (_ >? _); cbn; destruct (Hrev e2 H2); auto|].
  destruct (_ >? _); cbn; [destruct (Hrev e2 H2); auto|].
  destruct (UseGas _ c) as [c'|]; cbn; [|destruct (Hrev e2 H2); auto].
  split; [|done]. etrans; [by apply Hfwd|apply later_SetCode].
Qed.

Lemma create_kept caller code gas val address e :
  call_kept (statedb e) (create cx lp caller code gas val address e).
Proof.
  unfold create. cbv zeta. guards_kept. destruct (Snapshot (statedb e)) as [n db] eqn:Es.
  assert (n = fst (Snapshot (statedb e))) as -> by (by rewrite Es).
  assert (snd (Snapshot (statedb e)) = db) as Hs by (by rewrite Es).
  set (db1 := Transfer cx _ _ _ _).
  assert (later db db1) as H1.
  { etrans; [apply later_CreateAccount|]. etrans; [apply later_SetNonce|apply JC]. }
  case_if.
  { split; [|done]. cbn. rewrite share_statedb. etrans; [apply later_Snapshot|]. by rewrite Hs. }
  eapply finish_create_kept; [|apply run_later_ok]. by rewrite share_statedb, Hs.
Qed.

Lemma handle_later r e : answer_later e (handle_request cx lp r e).
Proof.
  apply kept_later. destruct r; cbn;
    auto using Call_kept, CallCode_kept, DelegateCall_kept, StaticCall_kept, create_kept.
  apply create_kept.
Qed.

End Calls.

Lemma loop_later fuel : pres Later (loop cx fuel).
Proof.
  induction fuel as [|fuel IH]; intros s; [done|]. unfold pres_at. cbn [loop].
  destruct (negb (abort (ev s) =? 0)); [cbn; reflexivity|].
  pose proof (step_later (handle_request cx (loop cx fuel)) (handle_later _ IH) s) as Hs.
  unfold pres_at in Hs. destruct (step cx _ s) as [[[r er]|] s'|er s'| |]; try done.
  specialize (IH s'). unfold pres_at in IH. destruct (loop cx fuel s'); try done; by etrans.
Qed.

(** A call that fails, for whatever reason and however much nested code ran
    before, leaves an account state that cannot be told from the one it
    started from. *)
Lemma failed_call_restores fuel caller addr input gas val e a e' :
  good (statedb e) ->
  Call cx (loop cx fuel) caller addr input gas val e = Answered a e' \/
  CallCode cx (loop cx fuel) caller addr input gas val e = Answered a e' \/
  StaticCall cx (loop cx fuel) caller addr input gas e = Answered a e' \/
  Create cx (loop cx fuel) caller input gas val e = Answered a e' ->
  a_err a <> None -> alike (statedb e') (statedb e).
Proof.
  intros Hg H He. pose proof (loop_later fuel) as Hlp.
  assert (exists r, r = Answered a e' /\ call_kept (statedb e) r) as (r & -> & Hk).
  { destruct H as [H|[H|[H|H]]]; (eexists; split; [exact H|]);
      auto using Call_kept, CallCode_kept, StaticCall_kept. by apply create_kept. }
  by apply Hk.
Qed.

End Frame.
End Frame.


Import Word Analysis State GasTab Instr Table Run Pres.

Module Static.

Section Static.
Context {D : StateDB} {K : Crypto}.
Context (cx : Context_).

(** The operations on the account state a read-only machine performs itself. *)
Inductive quiet_op : sdb -> sdb -> Prop :=
| qo_snapshot d : quiet_op d (snd (Snapshot d))
| qo_revert d i : quiet_op d (RevertToSnapshot d i)
| qo_create d a : Exist d a = false -> quiet_op d (CreateAccount d a)
| qo_transfer d a b : quiet_op d (Transfer cx d a b 0)
| qo_balance d a : quiet_op d (AddBalance d a 0)
| qo_preimage d h b : quiet_op d (AddPreimage d h b).

(** A CALL of a system account without value is handed to its handler in a
    read-only machine as well, and the handler is not told that it may not
    write (evm.go:219). *)
Inductive static_op : sdb -> sdb -> Prop :=
| so_quiet d d' : quiet_op d d' -> static_op d d'
| so_inner h d c a g i : HandleInnerMessage cx = Some h -> is_inner cx a = true -> static_op d (snd (h d c a g i 0)).

Definition quiet : sdb -> sdb -> Prop := rtc quiet_op.
Definition static : sdb -> sdb -> Prop := rtc static_op.

Lemma static_once d d' : quiet_op d d' -> static d d'.
Proof. intros H. by apply rtc_once, so_quiet. Qed.

(** Up to the first call of a system account the operations are the machine's. *)
Lemma static_quiet d d' :
  static d d' -> quiet d d' \/
  exists d1 h c a g i, quiet d d1 /\ HandleInnerMessage cx = Some h /\ is_inner cx a = true /\ static (snd (h d1 c a g i 0)) d'.
Proof.
  induction 1 as [d|d d1 d' [? ? H|h ? c a g i Eh Ea] Hs IH]; [left; apply rtc_refl| |].
  - destruct IH as [IH|(d2 & h & c & a & g & i & Q & X)]; [left; by eapply rtc_l|]. right. exists d2, h, c, a, g, i.
    split; [by eapply rtc_l|done].
  - right. exists d0, h, c, a, g, i. split_and!; [apply rtc_refl|done..].
Qed.

(** Nothing but static operations while the machine is read-only. *)
Definition Ro (s s' : vm_state) : Prop :=
  readOnly (ev s) = true ->
  readOnly (ev s') = true /\ static (statedb (ev s)) (statedb (ev s')).

#[export] Instance Ro_preorder : PreOrder Ro.
Proof.
  split.
  - intros s H. split; [done|apply rtc_refl].
  - intros s1 s2 s3 H12 H23 H. destruct (H12 H) as [H2 S12]. destruct (H23 H2) as [H3 S23].
    split; [done|by etrans].
Qed.

(** Pricing leaves the stack and the account state alone. *)
Definition Price (s s' : vm_state) : Prop :=
  readOnly (ev s') = readOnly (ev s) /\ statedb (ev s') = statedb (ev s) /\
  stack (fr s') = stack (fr s).

#[export] Instance Price_preorder : PreOrder Price.
Proof. split; [done|]. intros s1 s2 s3 (?&?&?) (?&?&?). unfold Price. split_and!; congruence. Qed.

Lemma mode_ro g : (forall e, readOnly (g e) = readOnly e) ->
  (forall e, static (statedb e) (statedb (g e))) -> pres Ro (mode g).
Proof. intros Hr Hs s H. cbn. by rewrite Hr. Qed.

#[export] Instance Ro_local : Local Ro.
Proof. intros s s' Hr Hs H. rewrite Hr, Hs. split; [done|apply rtc_refl]. Qed.

Lemma modf_mem_price g : (forall f, stack (g f) = stack f) -> pres Price (modf g).
Proof. intros Hg s. unfold Price. cbn. by rewrite Hg. Qed.

Lemma mode_price v : pres Price (mode (set_callGasTemp v)).
Proof. by intros s. Qed.

(** Pricing changes nothing the relation of local programs sees. *)
Ltac price_tac :=
  repeat first
    [ progress cbv zeta
    | match goal with
      | |- pres Price (modf _) => by apply modf_mem_price
      | |- pres Price (mode _) => apply mode_price
      end
    | pres_step ].

Lemma sha3_ro : pres Ro (opSha3 cx).
Proof.
  unfold opSha3. pres_tac; try (apply memGet_local; apply _). apply mode_ro; [done|].
  intros e. apply static_once, qo_preimage.
Qed.

Lemma memoryGasCost_price n : pres Price (memoryGasCost n).
Proof. unfold memoryGasCost. price_tac. Qed.
Lemma word_gas_price k per g : pres Price (word_gas k per g).
Proof. unfold word_gas. price_tac. Qed.
Lemma call_gas_price gt g : pres Price (call_gas gt g).
Proof. unfold call_gas. price_tac. Qed.

(** ** Instructions *)

Section Ops.
Context (call : request -> EVM -> response).

(** A call that moves no value and creates nothing. *)
Definition req_static (r : request) : Prop :=
  match r with
  | RCall _ _ _ _ v => v = 0
  | RCreate _ _ _ _ => False
  | _ => True
  end.

Definition answer_static (e : EVM) (r : response) : Prop :=
  match r with
  | Answered _ e' => readOnly e' = true /\ static (statedb e) (statedb e')
  | CallPanic | CallNoFuel => True
  end.

Context (call_static : forall r e, req_static r -> readOnly e = true -> answer_static e (call r e)).

Lemma invoke_ro r : req_static r -> pres Ro (invoke call r).
Proof.
  intros Hr s. unfold pres_at, invoke. destruct (call r (ev s)) as [a e| |] eqn:E; try done.
  intros H. pose proof (call_static r _ Hr H) as Hs. by rewrite E in Hs.
Qed.

Lemma finish_call_ro off sz a : pres Ro (finish_call off sz a).
Proof. unfold finish_call, add_gas. pres_tac; (apply memSet_local; apply _). Qed.

Ltac call_tac := pres_tac; first [(apply memGet_local; apply _) | apply invoke_ro | apply finish_call_ro]; try done.

Lemma callcode_ro : pres Ro (opCallCode cx call).
Proof. unfold opCallCode. call_tac. Qed.
Lemma delegatecall_ro : pres Ro (opDelegateCall call).
Proof. unfold opDelegateCall. call_tac. Qed.
Lemma staticcall_ro : pres Ro (opStaticCall call).
Proof. unfold opStaticCall. call_tac. Qed.

Lemma popM_inv a s s' : popM s = Val a s' -> stack (fr s) = a :: stack (fr s').
Proof.
  destruct s as [e [p c m [|x st]]]; [done|]. cbn. by intros [= <- <-].
Qed.

Lemma touch_inv a s s' : pool_touch s = Val a s' -> stack (fr s') = stack (fr s).
Proof.
  unfold pool_touch, bind, gete, need, mode. destruct (pool (ev s)); cbn; [|done]. by intros [= _ <-].
Qed.

(** A CALL that passed the check of the loop carries no value. *)
Lemma call_ro s : Back (stack (fr s)) 2 = Some 0 -> pres_at Ro (opCall cx call) s.
Proof.
  intros Hb. unfold opCall. apply pres_at_bind; [apply _|(apply popM_local; apply _)|]. intros g s1 E1%popM_inv.
  apply pres_at_bind; [apply _|(apply touch_local; apply _)|]. intros u s2 E2%touch_inv.
  apply pres_at_bind; [apply _|apply pres_gete, _|]. intros e s3 [= <- <-]. cbv zeta.
  apply pres_at_bind; [apply _|(apply popM_local; apply _)|]. intros addr s4 E4%popM_inv.
  apply pres_at_bind; [apply _|(apply popM_local; apply _)|]. intros val s5 E5%popM_inv.
  assert (val = 0) as -> by (rewrite E1, <- E2, E4, E5 in Hb; by injection Hb).
  apply pres_elim. call_tac.
Qed.

Definition static_entry (op : Z) (o : operation) : Prop :=
  writes o = false ->
  (forall n, pres Price (gasCost o GasTableHomestead n)) /\
  (forall s, (op = CALL -> Back (stack (fr s)) 2 = Some 0) -> pres_at Ro (execute o) s).

Ltac gas_static :=
  intros n; cbn [gasCost];
  first [ by intros s
        | unfold gasCallDataCopy, gasReturnDataCopy, gasCodeCopy, gasExtCodeCopy, gasSha3, gasMLoad,
            gasMStore8, gasMStore, gasReturn, gasRevert, gasExp, gasCall, gasCallCode,
            gasDelegateCall, gasStaticCall;
          pres_tac; first [apply memoryGasCost_price | apply word_gas_price | apply call_gas_price] ].

Ltac exec_static :=
  intros s Hcall; cbn [execute];
  first [ apply call_ro; by apply Hcall
        | apply pres_elim;
          first [ (apply binop_local; apply _) | (apply ternop_local; apply _) | (apply unop_local; apply _) | (apply push_env_local; apply _) | (apply copy_local; apply _)
                | apply sha3_ro | apply callcode_ro | apply delegatecall_ro | apply staticcall_ro
                | unfold opSdiv, opSmod, opSignExtend, opBalance, opCallDataLoad, opReturnDataCopy,
                    opExtCodeSize, opExtCodeCopy, opExtCodeHash, opBlockhash, opPop, opMload, opMstore,
                    opMstore8, opSload, opJump, opJumpi, opJumpdest, opReturn, opRevert, opStop,
                    makePush, makeDup, makeSwap;
                  pres_tac;
                  first [(apply memGet_local; apply _) | (apply memSet_local; apply _) | (apply validJumpdest_local; apply _) | (apply copy_local; apply _)] ] ].

Ltac static_entries :=
  intros H; repeat (case_match; try discriminate); injection H as <-; intros Hw;
  try discriminate Hw; (split; [gas_static|exec_static]).

Lemma instruction_static op o :
  newConstantinopleInstructionSet cx call op = Some o -> static_entry op o.
Proof.
  assert (newFrontierInstructionSet cx call op = Some o -> static_entry op o) as Hf.
  { unfold newFrontierInstructionSet, or_else.
    repeat match goal with |- context [match ?x with Some _ => _ | None => _ end] =>
      destruct x eqn:E; [intros [= <-]; revert E; unfold frontier_arithmetic, frontier_environment,
        frontier_storage, frontier_push, frontier_dup, frontier_swap, frontier_log, plain, with_mem;
        static_entries|clear E] end.
    unfold frontier_system. static_entries. }
  unfold newConstantinopleInstructionSet, newByzantiumInstructionSet, newHomesteadInstructionSet,
    plain, with_mem.
  intros H; repeat (case_match; try discriminate); try (by apply Hf);
    injection H as <-; intros Hw; try discriminate Hw; (split; [gas_static|exec_static]).
Qed.

(** ** A round of the loop *)

Lemma Price_Ro s s' : Price s s' -> Ro s s'.
Proof. intros (Hr & Hd & _) H. rewrite Hr, Hd. split; [done|apply rtc_refl]. Qed.

Lemma not_readOnly {A} (m : M A) s : readOnly (ev s) = false -> pres_at Ro m s.
Proof. intros H. unfold pres_at, Ro. destruct (m s); try done; by rewrite H. Qed.

Lemma BitLen_pos x : (BitLen x >? 0) = false -> x = 0.
Proof.
  unfold BitLen. destruct (Z.eqb_spec x 0); [done|]. rewrite Z.gtb_ltb. intros H%Z.ltb_ge.
  pose proof (Z.log2_nonneg x). lia.
Qed.

Lemma enforce_inv op o s u s' :
  readOnly (ev s) = true -> enforceRestrictions op o s = Val u s' ->
  s' = s /\ writes o = false /\ (op = CALL -> Back (stack (fr s)) 2 = Some 0).
Proof.
  intros Hr. unfold enforceRestrictions, bind, gete. rewrite Hr.
  destruct (writes o); [done|]. destruct (Z.eqb_spec op CALL) as [->|]; [|by intros [= _ <-]].
  unfold backM, bind, getf, need. destruct (Back (stack (fr s)) 2) as [v|]; [|done]. cbn.
  destruct (BitLen v >? 0) eqn:E; [done|]. apply BitLen_pos in E. subst v. by intros [= _ <-].
Qed.

Lemma memory_needed_price o : pres Price (memory_needed o).
Proof. unfold memory_needed. destruct (memorySize o); pres_tac. Qed.

Lemma charge_price o n : pres Price (gasCost o GasTableHomestead n) -> pres Price (charge o n).
Proof.
  intros Hg s. unfold pres_at, charge. specialize (Hg s). unfold pres_at in Hg.
  destruct (gasCost o GasTableHomestead n s) as [c s'|er s'| |]; try done.
  unfold UseGas. by destruct (Gas (contract (fr s')) <? c).
Qed.

Lemma perform_ro o s : pres_at Ro (execute o) s -> pres_at Ro (perform o) s.
Proof.
  unfold pres_at, perform. destruct (execute o s) as [r s'|er s'| |]; try done; by destruct (returns o).
Qed.

Lemma conclude_ro o r : pres Ro (conclude o r).
Proof. unfold conclude. pres_tac. Qed.

(** A price that was paid left the stack where it was. *)
Lemma price_bind {A B} (m : M A) (k : A -> M B) s :
  pres Price m ->
  (forall a s', stack (fr s') = stack (fr s) -> pres_at Ro (k a) s') -> pres_at Ro (bind m k) s.
Proof.
  intros Hm Hk. specialize (Hm s). apply pres_at_bind; [apply _| |].
  - unfold pres_at in *. destruct (m s); try done; by apply Price_Ro.
  - intros a s' E. unfold pres_at in Hm. rewrite E in Hm. by apply Hk, Hm.
Qed.

Lemma step_ro : pres Ro (step cx call).
Proof.
  intros s. destruct (readOnly (ev s)) eqn:Hr; [|by apply not_readOnly].
  unfold step. apply pres_at_bind; [apply _|apply pres_getf, _|]. intros f s1 [= <- <-]. cbv zeta.
  destruct (newConstantinopleInstructionSet _ _ _) as [o|] eqn:Eo; [|apply pres_fail, _].
  apply instruction_static in Eo. destruct (validateStack o _); [apply pres_fail, _|]. unfold round.
  apply pres_at_bind; [apply _| |].
  { unfold enforceRestrictions. apply pres_elim. pres_tac. }
  intros u s1 [-> [Hw Hc]]%enforce_inv; [|done]. destruct (Eo Hw) as [Hg Hx].
  apply price_bind; [apply memory_needed_price|]. intros n s1 E1.
  apply price_bind; [by apply charge_price|]. intros _ s2 E2.
  apply price_bind; [apply pres_if; [by apply modf_mem_price|apply pres_ret, _]|]. intros _ s3 E3.
  apply pres_at_bind; [apply _| |intros r s4 _; apply conclude_ro].
  apply perform_ro, Hx. by rewrite E3, E2, E1.
Qed.

End Ops.

(** ** The calls *)

Section Calls.
Context (lp : vm_state -> out (bytes * option verr)) (lp_ro : pres Ro lp).

Definition run_static (e : EVM) (r : run_result) : Prop :=
  match r with
  | Ran _ _ _ e' => readOnly e' = readOnly e /\ static (statedb e) (statedb e')
  | RunPanic | RunNoFuel => True
  end.

Lemma put_pool_same e : readOnly (put_pool e) = readOnly e /\ statedb (put_pool e) = statedb e.
Proof. unfold put_pool. destruct (pool e); [case_if|]; done. Qed.

Lemma get_pool_same e : readOnly (get_pool e) = readOnly e /\ statedb (get_pool e) = statedb e.
Proof. unfold get_pool. by destruct (free_pools e). Qed.

Lemma Run_with_static c input ro e :
  ro || readOnly e = true -> run_static e (Run_with lp c input ro e).
Proof.
  intros Hro. unfold Run_with. cbv zeta.
  set (e0 := if bool_decide (pool e = None) then get_pool e else e).
  assert (readOnly e0 = readOnly e /\ statedb e0 = statedb e) as [Hr0 Hd0]
    by (unfold e0; case_if; [apply get_pool_same|done]).
  clearbody e0. generalize (bool_decide (pool e = None)) as om. intros om. cbn [readOnly set_depth].
  set (e1 := if ro && negb (readOnly e0) then set_readOnly true (set_depth (depth e0 + 1) e0)
             else set_depth (depth e0 + 1) e0).
  assert (readOnly e1 = true /\ statedb e1 = statedb e) as [Hr1 Hd1].
  { unfold e1. destruct ro, (readOnly e0) eqn:E; cbn in *; split; done || congruence. }
  clearbody e1.
  assert (forall (lv : EVM) d, readOnly lv = true -> statedb lv = d ->
    let lv' := set_depth (depth (if ro && negb (readOnly e0) then set_readOnly false lv else lv) - 1)
                 (if ro && negb (readOnly e0) then set_readOnly false lv else lv) in
    let lv'' := if om then put_pool lv' else lv' in
    readOnly lv'' = readOnly e /\ statedb lv'' = d) as Hlv.
  { intros lv d Hr Hd. cbv zeta. set (lv' := set_depth _ _).
    assert (readOnly lv' = readOnly e /\ statedb lv' = d) as [H1 H2].
    { unfold lv'. rewrite Hr0. destruct ro, (readOnly e); cbn in *; try done. }
    destruct om; [|done]. destruct (put_pool_same lv') as [-> ->]. done. }
  destruct (Code c) as [|b code].
  { destruct (Hlv (set_returnData [] e1) (statedb e) Hr1 Hd1) as [H1 H2]. cbn. rewrite H1, H2.
    split; [done|apply rtc_refl]. }
  specialize (lp_ro (mkState (set_returnData [] e1) (mkFrame 0 (set_Input input c) NewMemory []))).
  unfold pres_at, Ro in lp_ro. cbn [ev readOnly statedb set_returnData] in lp_ro.
  destruct (lp _) as [[r er] s|er s| |]; try done; destruct (lp_ro Hr1) as [H1 H2];
    destruct (Hlv (set_pool (Some true) (ev s)) _ H1 eq_refl) as [H3 H4]; cbn;
    rewrite H3, H4; (split; [done|]); by rewrite <- Hd1.
Qed.

Lemma run_ro c input ro e :
  ro || readOnly e = true -> run_static e (run lp c input ro e).
Proof.
  intros Hro. unfold run.
  assert (forall p, run_static e (RunPrecompiledContract p input c e)) as Hp.
  { intros p. unfold RunPrecompiledContract. destruct (UseGas _ _); [destruct (Run_ p input)|];
      (split; [done|apply rtc_refl]). }
  destruct (CodeAddr c) as [a|]; [destruct (PrecompiledContractsHomestead a)|]; auto using Run_with_static.
Qed.

(** What a call leaves behind: the read-only flag and a state reached by
    static operations. *)
Definition called_static (e : EVM) (r : response) : Prop :=
  match r with
  | Answered _ e' => readOnly e' = readOnly e /\ static (statedb e) (statedb e')
  | CallPanic | CallNoFuel => True
  end.

Lemma called_refl e a : called_static e (Answered a e).
Proof. split; [done|apply rtc_refl]. Qed.

Lemma settle_static e e' snapshot r :
  readOnly e' = readOnly e -> static (statedb e) (statedb e') -> run_static e' r ->
  called_static e (settle snapshot r).
Proof.
  intros Hr Hd. destruct r as [b [er|] c e2| |]; cbn; try done; intros [H1 H2].
  - split; [congruence|]. etrans; [done|]. etrans; [done|]. apply static_once, qo_revert.
  - split; [congruence|by etrans].
Qed.

Lemma share_same caller e :
  readOnly (share_jumpdests caller e) = readOnly e /\ statedb (share_jumpdests caller e) = statedb e.
Proof. by destruct caller. Qed.

Ltac guards_static :=
  repeat match goal with
  | |- called_static _ (if ?b then _ else _) => destruct b; [apply called_refl|]
  end.

Lemma snapshot_static e n db : Snapshot (statedb e) = (n, db) -> static (statedb e) db.
Proof. intros E. apply static_once. pose proof (qo_snapshot (statedb e)). by rewrite E in H. Qed.

Lemma Call_static caller addr input gas e :
  readOnly e = true -> called_static e (Call cx lp caller addr input gas 0 e).
Proof.
  intros Hr. unfold Call. cbv zeta. guards_static.
  destruct (Snapshot (statedb e)) as [n db] eqn:Es. pose proof (snapshot_static _ _ _ Es) as Hs.
  destruct (_ && (0 =? 0)); [by split|].
  set (db1 := if Exist db addr then db else CreateAccount db addr).
  assert (static (statedb e) db1) as H1.
  { unfold db1. destruct (Exist db addr) eqn:Ex; [done|]. etrans; [done|]. by apply static_once, qo_create. }
  assert (static (statedb e) (Transfer cx db1 (ref_address caller) addr 0)) as H2
    by (etrans; [done|apply static_once, qo_transfer]).
  set (db2 := Transfer _ _ _ _ _) in *.
  destruct (share_same caller (set_statedb db2 e)) as [S1 S2].
  set (e1 := share_jumpdests _ _) in *.
  assert (static (statedb e) (statedb e1)) as H3 by (by rewrite S2).
  apply (settle_static _ e1); [done|done|]. destruct (is_inner cx addr) eqn:Ea.
  - unfold run_inner. destruct (HandleInnerMessage cx) as [h|] eqn:Eh; [|done].
    set (c := SetCallCode _ _ _ _).
    pose proof (so_inner h (statedb e1) (CallerAddress c) (self c) (Gas c) input Eh Ea) as Hi.
    destruct (h _ _ _ _ _ _) as [[[r g] er] db3]. split; [done|]. by apply rtc_once.
  - apply run_ro. rewrite S1. cbn. by rewrite Hr.
Qed.

Lemma CallCode_static caller addr input gas val e :
  readOnly e = true -> called_static e (CallCode cx lp caller addr input gas val e).
Proof.
  intros Hr. unfold CallCode. cbv zeta. guards_static.
  destruct (Snapshot (statedb e)) as [n db] eqn:Es. pose proof (snapshot_static _ _ _ Es) as Hs.
  destruct (share_same caller (set_statedb db e)) as [S1 S2].
  apply (settle_static _ (share_jumpdests caller (set_statedb db e))); [done|by rewrite S2|].
  apply run_ro. rewrite S1. cbn. by rewrite Hr.
Qed.

Lemma DelegateCall_static caller addr input gas e :
  readOnly e = true -> called_static e (DelegateCall cx lp caller addr input gas e).
Proof.
  intros Hr. unfold DelegateCall. cbv zeta. guards_static.
  destruct (Snapshot (statedb e)) as [n db] eqn:Es. pose proof (snapshot_static _ _ _ Es) as Hs.
  apply (settle_static _ (set_statedb db e)); [done|done|]. apply run_ro. cbn. by rewrite Hr.
Qed.

(** Whether or not the machine is read-only already. *)
Lemma StaticCall_static caller addr input gas e :
  called_static e (StaticCall cx lp caller addr input gas e).
Proof.
  unfold StaticCall. cbv zeta. guards_static.
  destruct (Snapshot (statedb e)) as [n db] eqn:Es. pose proof (snapshot_static _ _ _ Es) as Hs.
  destruct (share_same caller (set_statedb (AddBalance db addr 0) e)) as [S1 S2].
  apply (settle_static _ (share_jumpdests caller (set_statedb (AddBalance db addr 0) e)));
    [done| |by apply run_ro].
  rewrite S2. etrans; [done|apply static_once, qo_balance].
Qed.

Lemma handle_static r e :
  req_static r -> readOnly e = true -> answer_static e (handle_request cx lp r e).
Proof.
  intros Hq Hr. assert (called_static e (handle_request cx lp r e)) as H.
  { destruct r; cbn in *; subst; try done;
      auto using Call_static, CallCode_static, DelegateCall_static, StaticCall_static. }
  unfold called_static, answer_static in *. destruct (handle_request cx lp r e); try done.
  by rewrite Hr in H.
Qed.

End Calls.

Lemma loop_ro fuel : pres Ro (loop cx fuel).
Proof.
  induction fuel as [|fuel IH]; intros s; [done|]. unfold pres_at. cbn [loop].
  destruct (negb (abort (ev s) =? 0)); [done|].
  pose proof (step_ro (handle_request cx (loop cx fuel)) (handle_static _ IH) s) as Hs.
  unfold pres_at in Hs. destruct (step cx _ s) as [[[r er]|] s'|er s'| |]; try done.
  specialize (IH s'). unfold pres_at in IH. destruct (loop cx fuel s'); try done; by etrans.
Qed.

(** C33: a static call, whatever code it runs and however deep, leaves the
    machine's read-only flag as it was, and as long as it calls no system account
    it changes the account state only by operations that write no storage, code,
    nonce or log and move no value: snapshots and reverts, accounts created empty,
    transfers and credits of nothing, preimages.  A call of a system account, which
    carries no value, is the one way out: the handler is run as in any other mode
    (evm.go:219), and what it writes stays; up to the first such call, and where
    there is none throughout, the state changes by those operations only. *)
Theorem StaticCall_readonly fuel caller addr input gas e a e' :
  StaticCall cx (loop cx fuel) caller addr input gas e = Answered a e' ->
  readOnly e' = readOnly e /\
  (quiet (statedb e) (statedb e') \/
   exists d h c a' g i, quiet (statedb e) d /\ HandleInnerMessage cx = Some h /\ is_inner cx a' = true /\
     static (snd (h d c a' g i 0)) (statedb e')).
Proof.
  intros E. pose proof (StaticCall_static _ (loop_ro fuel) caller addr input gas e) as H.
  rewrite E in H. destruct H as [H1 H2]. split; [done|]. by apply static_quiet.
Qed.

End Static.
End Static.
