(* ===== verification/EvmDemo.v ===== *)
(** The price of memory: what a frame pays for its memory is a function of how
    large the memory became, as long as the machine's arithmetic does not wrap.

    Two places where the machine does not do what it is meant to.

    A small concrete machine, on which the machine's theorems are applied and
    a program is run. *)
From S2P Require Import Prelude Bech32 Address EvmWord EvmAnalysis EvmJumpdest EvmState EvmGas EvmInstr EvmArith EvmTable EvmRun EvmSafe EvmOps EvmFlow EvmCost EvmSteps EvmTotal EvmFrame.

Import Word State GasTab.

Module Fee.

(** The fee of [w] words, in unbounded arithmetic. *)
Definition fee (w : Z) : Z := 3 * w + w * w / 512.

Lemma fee_mono a b : 0 <= a <= b -> 0 <= fee a <= fee b.
Proof.
  intros H. unfold fee. assert (0 <= a * a / 512) by (apply Z.div_pos; nia).
  assert (a * a / 512 <= b * b / 512) by (apply Z.div_le_mono; nia). lia.
Qed.

(** Beyond 2^32 words the square wraps. *)
Lemma fee_exact w : 0 <= w < 2 ^ 32 ->
  u64 (u64 (w * MemoryGas) + u64 (w * w) / QuadCoeffDiv) = fee w.
Proof.
  intros Hw. unfold MemoryGas, QuadCoeffDiv, fee.
  rewrite (u64_small (w * 3)), (u64_small (w * w)) by nia.
  assert (0 <= w * w / 512 <= w * w) by (split; [apply Z.div_pos|apply Z.div_le_upper_bound]; nia).
  assert (w * w / 512 < 2 ^ 55) by (apply Z.div_lt_upper_bound; nia).
  rewrite u64_small; lia.
Qed.

Section Fee.
Context {D : StateDB}.

(** A memory of [w] words for which the fee of [w] words was paid. *)
Definition paid (m : Memory) (w : Z) : Prop :=
  mem_len m = 32 * w /\ lastGasCost m = fee w /\ 0 <= w < 2 ^ 32.

(** growing a paid memory of [w] words to hold [n] bytes costs exactly
    the difference between the fees of the larger and the smaller size, and
    leaves the memory paid once it is resized; below 128 GiB nothing wraps. *)
Theorem memory_fee_telescopes s n w :
  paid (mem (fr s)) w -> 0 <= n <= 32 * (2 ^ 32 - 1) ->
  exists s', memoryGasCost n s = Val (fee (Z.max w (toWordSize n)) - fee w) s' /\
    ev s' = ev s /\ contract (fr s') = contract (fr s) /\ stack (fr s') = stack (fr s) /\
    store (mem (fr s')) = store (mem (fr s)) /\
    paid (Resize (mem (fr s')) (32 * toWordSize n)) (Z.max w (toWordSize n)).
Proof.
  intros (Hl & Hf & Hw) Hn. unfold memoryGasCost.
  assert (toWordSize n = (n + 31) / 32) as Et.
  { unfold toWordSize, MaxUint64. rewrite Z.gtb_ltb.
    destruct (Z.ltb_spec (2 ^ 64 - 1 - 31) n); [lia|]. by rewrite u64_small by lia. }
  pose proof (Z.div_mod (n + 31) 32 ltac:(lia)). pose proof (Z.mod_pos_bound (n + 31) 32 ltac:(lia)).
  rewrite <- Et in *. set (k := toWordSize n) in *.
  destruct (Z.eqb_spec n 0) as [E0|Hn0].
  { exists s. assert (k = 0) as -> by lia. rewrite Z.max_l, Z.sub_diag by lia.
    split_and!; try done. unfold Resize. destruct (Z.ltb_spec (mem_len (mem (fr s))) (32 * 0)); [lia|done]. }
  rewrite !Z.gtb_ltb. destruct (Z.ltb_spec 0xffffffffe0 n); [lia|].
  unfold bind, getf. rewrite (u64_small (k * 32)), Hl, Z.gtb_ltb by lia.
  destruct (Z.ltb_spec (32 * w) (k * 32)).
  - rewrite Z.max_r by lia. unfold modf, ret. cbn [fr]. rewrite fee_exact, Hf by lia.
    pose proof (fee_mono w k ltac:(lia)). pose proof (fee_mono k (2 ^ 32) ltac:(lia)).
    change (fee (2 ^ 32)) with 36028809903865856 in *. rewrite u64_small by lia.
    eexists; split_and!; try done. unfold Resize, mem_len in *. cbn [fr mem set_mem store lastGasCost].
    destruct (Z.ltb_spec (Z.of_nat (length (store (mem (fr s))))) (32 * k)); [|lia].
    split; [|split; [done|lia]]. unfold mem_len. cbn [store]. rewrite length_app, length_replicate. lia.
  - rewrite Z.max_l, Z.sub_diag by lia. exists s. split_and!; try done.
    unfold Resize. destruct (Z.ltb_spec (mem_len (mem (fr s))) (32 * k)); [lia|done].
Qed.

(** the largest size the function accepts is 256 times what its
    arithmetic can price: 128 GiB cost 12884901888 gas, less than the
    36028809887088637 of 32 bytes fewer. *)
Theorem memory_fee_wraps (e : EVM) (c : Contract) (st : Stack) (p : Z) :
  let s := mkState e (mkFrame p c NewMemory st) in
  (exists s', memoryGasCost (2 ^ 37 - 32) s = Val 36028809887088637 s') /\
  (exists s', memoryGasCost (2 ^ 37) s = Val 12884901888 s').
Proof. split; (eexists; vm_compute; reflexivity). Qed.

End Fee.
End Fee.


Import Word Analysis State GasTab Instr Table Run.

Module Quirks.

Section Quirks.
Context {D : StateDB} {K : Crypto}.

(** The program ADDRESS ADDRESS SDIV. *)
Definition sdiv_code : bytes := [0x30; 0x30; 0x05].

(** On an interpreter whose integer pool was never used, a program whose
    first pooled operation is SDIV reads a nil pool: [getZero] does not
    create the pool the way [get] does, and the run panics. *)
Theorem fresh_pool_panics cx c input e :
  pool e = None -> free_pools e = [] -> abort e = 0 -> readOnly e = false ->
  Code c = sdiv_code -> Gas c = 100 ->
  Run_with (loop cx 4) c input false e = RunPanic.
Proof.
  destruct e as [db dep ab cg po fp ro rd jd]. destruct c as [ca se co ch cad inp g va an].
  cbn. intros -> -> -> -> -> ->. reflexivity.
Qed.

(** The native contracts 5 to 8 are recognised by [Call] but never run:
    [run] looks them up in a table that ends at 4, finds no code, and reports
    success with no output at no cost. *)
Theorem native_5_to_8_do_nothing lp c input ro e i :
  5 <= i <= 8 -> CodeAddr c = Some (Address.BytesToAddress [i]) -> Code c = [] ->
  in_PrecompiledContractsByzantium (Address.BytesToAddress [i]) = true /\
  exists e', run lp c input ro e = Ran [] None c e' /\ statedb e' = statedb e.
Proof.
  intros Hi Ha Hc.
  assert (i = 5 \/ i = 6 \/ i = 7 \/ i = 8) as Hi' by lia.
  split; [destruct Hi' as [-> | [-> | [-> | ->]]]; reflexivity|].
  unfold run. rewrite Ha.
  assert (PrecompiledContractsHomestead (Address.BytesToAddress [i]) = None) as ->
    by (destruct Hi' as [-> | [-> | [-> | ->]]]; reflexivity).
  unfold Run_with. rewrite Hc. eexists; split; [done|].
  unfold put_pool, get_pool. cbv zeta.
  repeat case_match; try done.
Qed.

End Quirks.
End Quirks.


Import Word Analysis Jumpdest State GasTab Instr Arith Table Run Safe Ops Flow Cost Calls Entry Steps
  Total Fee Static Quirks.

Module EvmDemo.

(** Two accounts hold code; storage is an association list. *)
Definition adder : Address := BigToAddress 0x1001.
Definition caller_ : Address := BigToAddress 0x1002.

(** Adds 1 and 2, stores the sum in memory and in storage, returns it. *)
Definition adder_code : bytes :=
  [0x60; 1; 0x60; 2; 0x01; 0x80; 0x60; 0; 0x55; 0x60; 0; 0x52; 0x60; 32; 0x60; 0; 0xf3].

Definition demo_code (a : Address) : bytes := if bool_decide (a = adder) then adder_code else [].

#[export] Instance demo_db : StateDB := {|
  sdb := list (Z * Z);
  CreateAccount d _ := d;
  AddBalance d _ _ := d;
  GetBalance _ _ := 1000;
  GetNonce _ _ := 0;
  SetNonce d _ _ := d;
  GetCodeHash _ _ := 0;
  GetCode _ a := demo_code a;
  SetCode d _ _ := d;
  GetCodeSize _ a := Z.of_nat (length (demo_code a));
  AddRefund d _ := d;
  SubRefund d _ := Some d;
  GetState d _ k := U256 (default 0 (snd <$> find (fun p => fst p =? k) d));
  SetState d _ k v := (k, v) :: d;
  Suicide d _ := d;
  HasSuicided _ _ := false;
  Exist _ _ := true;
  State.Empty _ _ := false;
  Snapshot d := (Z.of_nat (length d), d);
  RevertToSnapshot d n := drop (length d - Z.to_nat n) d;
  AddLog d _ := d;
  AddPreimage d _ _ := d
|}.

#[export] Instance demo_crypto : Crypto := {|
  Keccak256 b := be_bytes 32 (be_value b);
  GenerateContractAddress a n := BigToAddress n;
  ecrecover_Run _ := Ok [];
  sha256_Run b := Ok (be_bytes 32 (be_value b));
  ripemd160_Run b := Ok (be_bytes 32 (be_value b))
|}.

Lemma be_bytes_ok n v : Z.of_nat n < 2 ^ 62 -> bytes_ok (be_bytes n v).
Proof. intros Hn. split; [apply be_bytes_range|by rewrite length_be_bytes]. Qed.

Lemma demo_code_ok a : bytes_ok (demo_code a).
Proof.
  unfold demo_code. case_bool_decide; [|apply bytes_ok_nil].
  split; [|done]. unfold adder_code. repeat (apply list.Forall_cons; split; [lia|]). constructor.
Qed.

#[export] Instance demo_db_ok : StateDBOk demo_db.
Proof.
  refine {| code_of _ := [] |}; cbn.
  - intros _. apply demo_code_ok.
  - by intros.
  - lia.
  - lia.
  - intros. apply U256_word.
Defined.

#[export] Instance demo_crypto_ok : CryptoOk demo_crypto.
Proof.
  split.
  - intros b. split; [apply (length_be_bytes 32)|apply (be_bytes_range 32)].
  - intros. apply BigToAddress_ok.
  - intros b r H. injection H as <-. apply bytes_ok_nil.
  - intros b r H. injection H as <-. by apply (be_bytes_ok 32).
  - intros b r H. injection H as <-. by apply (be_bytes_ok 32).
Defined.

Definition demo_cx : Context_ := {|
  CanTransfer _ _ _ := true;
  Transfer d _ _ _ := d;
  GetHash _ := 0;
  IsToInnerAccount := None;
  HandleInnerMessage := None;
  Origin := caller_;
  GasPrice := 1;
  Coinbase := caller_;
  GasLimit := 1000000;
  UnitMC := caller_;
  SCNumber := 1;
  UnitNumber := 2;
  Time := 0;
  NoRecursion := false;
  EnablePreimageRecording := false;
  EnableSimulation := false
|}.

Lemma demo_cx_ok : context_ok demo_cx.
Proof. constructor; cbn; try done; intros; try apply BigToAddress_ok; lia. Qed.

Definition demo_evm : EVM := mkEVM [] 0 0 0 None [true] false [] ∅.

Lemma demo_evm_ready : env_ready demo_evm.
Proof. constructor; cbn; [right; split; [done|by exists []]|done|apply bytes_ok_nil]. Qed.

(** The program runs: the sum is returned and stored. *)
Example demo_run :
  match Call demo_cx (loop demo_cx 30) (ByAccount caller_) adder [] 30000 0 demo_evm with
  | Answered a e =>
      be_value (a_ret a) = 3 /\ a_err a = None /\ statedb e = [(0, 3)] /\ leftOverGas a = 9970
  | _ => False
  end.
Proof. vm_compute. done. Qed.

(** A static call of the same program is refused at its SSTORE. *)
Example demo_static :
  match StaticCall demo_cx (loop demo_cx 30) (ByAccount caller_) adder [] 30000 demo_evm with
  | Answered a e => a_err a = Some errWriteProtection /\ statedb e = [] /\ leftOverGas a = 0
  | _ => False
  end.
Proof. vm_compute. done. Qed.

(** ** The theorems at these inputs *)

Lemma machine_total_witness :
  answered 50 (Call demo_cx (loop demo_cx 60) (ByAccount caller_) adder [] 50 0 demo_evm) /\
  answered 50 (CallCode demo_cx (loop demo_cx 60) (ByAccount caller_) adder [] 50 0 demo_evm) /\
  answered 50 (StaticCall demo_cx (loop demo_cx 60) (ByAccount caller_) adder [] 50 demo_evm) /\
  answered 50 (Create demo_cx (loop demo_cx 60) (ByAccount caller_) [] 50 0 demo_evm).
Proof.
  apply (machine_total demo_cx demo_cx_ok 60 caller_ adder [] 50 0 demo_evm).
  - exact demo_evm_ready.
  - apply BigToAddress_ok.
  - apply BigToAddress_ok.
  - exact bytes_ok_nil.
  - lia.
  - lia.
  - lia.
Defined.

Definition demo_contract : Contract :=
  SetCallCode adder 0 (demo_code adder) (NewContract caller_ adder 0 100).

Lemma demo_contract_ok : contract_ok demo_contract.
Proof. apply (contract_of_code caller_ adder 100 0 (statedb demo_evm) adder); try apply BigToAddress_ok; lia. Qed.

Definition demo_state : vm_state :=
  mkState (enter false demo_evm) (mkFrame 0 (set_Input [] demo_contract) NewMemory []).

Lemma demo_state_ok : Inv demo_state.
Proof. apply first_frame; [apply demo_evm_ready|apply demo_contract_ok|apply bytes_ok_nil]. Qed.

Lemma demo_calls_ok : CallsOk 100 (handle_request demo_cx (loop demo_cx 100)).
Proof.
  apply handle_request_ok; [apply demo_cx_ok|done|]. intros s I Hs. apply loop_spec; [apply demo_cx_ok|done|lia].
Qed.

Lemma round_safe_witness :
  match step demo_cx (handle_request demo_cx (loop demo_cx 100)) demo_state with
  | Val None s' => Inv s' /\ Gas (contract (fr s')) < 100
  | Val (Some _) s' | Fail _ s' => 0 <= Gas (contract (fr s')) <= 100
  | Panic | NoFuel => False
  end.
Proof.
  apply (round_safe demo_cx demo_cx_ok 100 _ demo_state); [lia|exact demo_calls_ok|exact demo_state_ok|].
  vm_compute. done.
Defined.

Lemma memory_fee_telescopes_witness :
  exists s', memoryGasCost 100 demo_state = Val (fee 4 - fee 0) s' /\
    paid (Resize (mem (fr s')) 128) 4.
Proof.
  destruct (memory_fee_telescopes demo_state 100 0) as (s' & E & _ & _ & _ & _ & P).
  - split; [done|]. split; [done|lia].
  - lia.
  - exists s'. split; [exact E|exact P].
Defined.

(** PUSH1 3 JUMP JUMPDEST, about to jump. *)
Definition jump_code : bytes := [0x60; 3; 0x56; 0x5b].
Definition jump_state : vm_state :=
  mkState (enter false demo_evm)
    (mkFrame 2 (SetCallCode adder 0 jump_code (NewContract caller_ adder 0 100)) NewMemory [3]).

Lemma jump_state_ok : Inv jump_state.
Proof.
  split; [apply enter_ok, demo_evm_ready|]. constructor; cbn.
  - constructor; cbn; try done; try apply BigToAddress_ok; try apply bytes_ok_nil.
    split; [|done]. unfold jump_code. repeat (apply list.Forall_cons; split; [lia|]). constructor.
  - constructor; [by exists 0|constructor|done].
  - apply list.Forall_cons. split; [lia|constructor].
  - done.
  - unfold code_len. cbn. lia.
Qed.

Lemma opJump_exact_witness :
  match opJump jump_state with
  | Val r s' => valid jump_code 3 /\ pc (fr s') = 3 /\ stack (fr s') = []
  | Fail er _ => ~ valid jump_code 3 /\ er = errInvalidJump 3
  | Panic | NoFuel => False
  end.
Proof. apply (opJump_exact jump_state 3 [] jump_state_ok). reflexivity. Defined.

Example jump_taken : exists s', opJump jump_state = Val [] s' /\ pc (fr s') = 3.
Proof. by eexists. Qed.

(** The static call above. *)
Abbreviation static_result :=
  (StaticCall demo_cx (loop demo_cx 30) (ByAccount caller_) adder [] 30000 demo_evm).
Definition the_answer (r : response) : answer :=
  match r with Answered a _ => a | _ => answer_of [] 0 None end.
Definition the_evm (r : response) : EVM := match r with Answered _ e => e | _ => demo_evm end.

Definition is_answered (r : response) : bool := match r with Answered _ _ => true | _ => false end.

Lemma answered_the r : is_answered r = true -> r = Answered (the_answer r) (the_evm r).
Proof. by destruct r. Qed.

Lemma static_answered : static_result = Answered (the_answer static_result) (the_evm static_result).
Proof. apply answered_the. vm_compute. reflexivity. Qed.

Lemma StaticCall_readonly_witness :
  static_result = Answered (the_answer static_result) (the_evm static_result) /\
  quiet demo_cx (statedb demo_evm) (statedb (the_evm static_result)) /\
  readOnly (the_evm static_result) = readOnly demo_evm.
Proof.
  split; [exact static_answered|].
  destruct (StaticCall_readonly demo_cx 30 (ByAccount caller_) adder [] 30000 demo_evm
           (the_answer static_result) (the_evm static_result) static_answered) as [H [Q|(d & h & c & a & g & i & _ & X & _)]].
  - split; [exact Q|exact H].
  - discriminate X.
Defined.

Definition fresh_evm : EVM := mkEVM [] 0 0 0 None [] false [] ∅.

Lemma fresh_pool_panics_witness :
  Run_with (loop demo_cx 4) (mkContract caller_ adder sdiv_code 0 None [] 100 0 None) [] false fresh_evm
  = RunPanic.
Proof. apply (fresh_pool_panics demo_cx); reflexivity. Defined.

Lemma native_5_to_8_do_nothing_witness :
  in_PrecompiledContractsByzantium (Address.BytesToAddress [5]) = true /\
  exists e', run (loop demo_cx 4)
    (mkContract caller_ adder [] 0 (Some (Address.BytesToAddress [5])) [] 100 0 None) [1] false demo_evm
    = Ran [] None (mkContract caller_ adder [] 0 (Some (Address.BytesToAddress [5])) [] 100 0 None) e' /\
    statedb e' = statedb demo_evm.
Proof.
  apply (native_5_to_8_do_nothing (loop demo_cx 4)
    (mkContract caller_ adder [] 0 (Some (Address.BytesToAddress [5])) [] 100 0 None) [1] false demo_evm 5).
  - lia.
  - reflexivity.
  - reflexivity.
Defined.

End EvmDemo.
