(* ===== verification/BftTypes.v ===== *)
(** The vocabulary of the BFT engine: messages, views, proposals, rounds and
    errors ([src/consensus/bft/types.go], [src/consensus/protocol/message.go],
    [src/consensus/bft/core/types.go], [errors.go]). *)
From S2P Require Import Prelude Bech32 Address.

Abbreviation Address := Address.Address.
(** A [common.Hash] is the integer of its 32 bytes; [common.Hash{}] is 0. *)
Abbreviation Hash := Z.

Definition EmptyHash (h : Hash) : bool := h =? 0.

(** ** Code outside the repository

    [payload] is the byte string package [rlp] makes of a message body and
    [signature] what package [crypto]'s native library makes of a digest; the
    repository holds the sources of neither. *)
Class Wire := {
  payload : Type;
  signature : Type
}.

(** ** Views and subjects *)

(** [bft.View]: both fields are [*big.Int]. *)
Record View := mkView { Round : Z; Sequence : Z }.

(** [View.Cmp]: the sequence first, then the round. *)
Definition View_Cmp (v y : View) : comparison :=
  match Z.compare (Sequence v) (Sequence y) with
  | Eq => Z.compare (Round v) (Round y)
  | c => c
  end.

Record Subject := mkSubject { sub_View : View; Digest : Hash; sub_Extra : bytes }.

(** [Subject.Cmp] ignores [Extra]. *)
Definition Subject_Cmp (b other : Subject) : bool :=
  match View_Cmp (sub_View b) (sub_View other) with
  | Eq => Digest b =? Digest other
  | _ => false
  end.

(** ** Proposals

    The parts of [types.Unit] the engine reads. *)
Record Unit := mkUnit { Number : Z; unit_Hash : Hash; MC : Address; SCHash : Hash }.

(** [bft.MiningResult]; [artifacts] names its receipts, logs and state. *)
Record MiningResult := mkMining { mining_Unit : Unit; artifacts : Z }.

Record Request := mkRequest { req_Proposal : MiningResult }.

Record Preprepare := mkPreprepare {
  pp_View : View;
  pp_Proposal : option Unit;
  pp_Mining : option MiningResult
}.

(** The parts of [types.Header] the engine reads. *)
Record Header := mkHeader { hd_Number : Z; hd_Hash : Hash; hd_Timestamp : Z }.

(** ** Messages *)

(** [protocol.ConsensusType], a [uint8]. *)
Definition MsgPreprepare : Z := 1.
Definition MsgPrepare : Z := 2.
Definition MsgCommit : Z := 3.
Definition MsgRoundChange : Z := 4.
Definition MsgCheckPendingTx : Z := 5.

Section Messages.
Context {W : Wire}.

(** [types.WitenssVote]: the seal a COMMIT carries. *)
Record WitenssVote := mkVote { vote_Extra : bytes; vote_Sign : signature }.

(** [protocol.Message] (the tracing fields left out). *)
Record Message := mkMessage {
  Code : Z;
  Msg : payload;
  msg_Address : Address;
  msg_Extra : bytes;
  msg_Sign : option signature;
  CommittedSeal : option WitenssVote;
  IsMe : bool
}.

(** [core.RoundView], what the round timer stores. *)
Record RoundView := mkRoundView {
  rv_Chain : Address;
  rv_Round : Z;
  rv_Sequence : Z;
  DeadLine : Z
}.

(** The events [core.Handle] dispatches on, with their arguments. *)
Inductive event :=
| NewNumber (number : Z) (hash : Hash)
| NewProposal (r : Request)
| NewTx
| NewMessage (m : Message)
| NewChangeRound (rv : RoundView).

End Messages.

Inductive State := StateAcceptRequest | StatePreprepared | StatePrepared | StateCommitted.

#[global] Instance State_eq_dec : EqDecision State.
Proof. solve_decision. Defined.
#[global] Instance View_eq_dec : EqDecision View.
Proof. solve_decision. Defined.

Definition State_to_Z (s : State) : Z :=
  match s with
  | StateAcceptRequest => 0
  | StatePreprepared => 1
  | StatePrepared => 2
  | StateCommitted => 3
  end.

(** [State.Cmp]. *)
Definition State_Cmp (s y : State) : Z :=
  if State_to_Z s <? State_to_Z y then -1
  else if State_to_Z s >? State_to_Z y then 1
  else 0.

(** ** Errors *)

Inductive err :=
| errInconsistentSubject
| errNotFromProposer
| errFutureMessage
| errOldMessage
| errInvalidMessage
| errFailedDecodePreprepare
| errFailedDecodePrepare
| errFailedDecodeCommit
| errFutureUnitMessage
| errWaitNewRound
| ErrUnauthorizedAddress
| ErrExistVoteMsg
| ErrInvalidCommitSeal
| ErrDifferentRoundCommitSeal
| ErrDifferentCommitSeal
| ErrKnownBlock
| ErrFutureBlock
| ErrInsertingBlock
| ErrInInArbitration
| ErrAlreadyExistStableUnit
| ErrUnknownAncestor
| errSignature
| errChainStopping
| errEmptyValidators
| errNotMyChain
| errNotWitness
| errOther (code : Z).

#[global] Instance err_eq_dec : EqDecision err.
Proof. solve_decision. Defined.

(** [consensus.IsBadUnitErr]. *)
Definition IsBadUnitErr (e : err) : bool :=
  match e with
  | ErrKnownBlock | ErrFutureBlock | ErrInsertingBlock | ErrInInArbitration
  | ErrAlreadyExistStableUnit | ErrUnknownAncestor => false
  | _ => true
  end.

(** ** Views are totally ordered *)

Definition view_lt (v y : View) : Prop := View_Cmp v y = Lt.
Definition view_le (v y : View) : Prop := view_lt v y \/ v = y.

Lemma View_Cmp_spec v y :
  View_Cmp v y = Lt /\ (Sequence v < Sequence y \/ Sequence v = Sequence y /\ Round v < Round y)
  \/ View_Cmp v y = Eq /\ v = y
  \/ View_Cmp v y = Gt /\ (Sequence y < Sequence v \/ Sequence v = Sequence y /\ Round y < Round v).
Proof.
  destruct v as [r1 s1], y as [r2 s2]; unfold View_Cmp; cbn.
  destruct (Z.compare_spec s1 s2) as [->| |]; [|by left; auto|by right; right; auto].
  destruct (Z.compare_spec r1 r2) as [->| |].
  - right; left; auto.
  - left; auto.
  - right; right; auto.
Qed.

Lemma View_Cmp_Eq v y : View_Cmp v y = Eq <-> v = y.
Proof.
  destruct (View_Cmp_spec v y) as [[E ?]|[[E ?]|[E ?]]]; rewrite E; split; try done;
    intros ->; lia.
Qed.

Lemma view_lt_spec v y :
  view_lt v y <-> Sequence v < Sequence y \/ Sequence v = Sequence y /\ Round v < Round y.
Proof.
  unfold view_lt.
  destruct (View_Cmp_spec v y) as [[E ?]|[[E ->]|[E ?]]]; rewrite E; split; try done; lia.
Qed.

Lemma View_Cmp_Gt v y : View_Cmp v y = Gt <-> view_lt y v.
Proof.
  rewrite view_lt_spec.
  destruct (View_Cmp_spec v y) as [[E ?]|[[E ->]|[E ?]]]; rewrite E; split; try done; lia.
Qed.

Lemma view_lt_irrefl v : ~ view_lt v v.
Proof. rewrite view_lt_spec; lia. Qed.

Lemma view_lt_trans v y z : view_lt v y -> view_lt y z -> view_lt v z.
Proof. rewrite !view_lt_spec; lia. Qed.

Lemma view_le_lt_trans v y z : view_le v y -> view_lt y z -> view_lt v z.
Proof. intros [?| ->]; [by eapply view_lt_trans|done]. Qed.

Lemma Subject_Cmp_spec b o :
  Subject_Cmp b o = true <-> sub_View b = sub_View o /\ Digest b = Digest o.
Proof.
  unfold Subject_Cmp. rewrite <- View_Cmp_Eq.
  destruct (View_Cmp _ _); rewrite ?Z.eqb_eq; intuition congruence.
Qed.
