(* ===== verification/BftValidators.v ===== *)
(** The validator set ([src/consensus/bft/validator.go]): membership, proposer
    selection and the vote thresholds. *)
From S2P Require Import Prelude Bech32 Address BftTypes.

Module Validators.

Definition ConfigParamsUCWitness : Z := 11.
Definition ConfigParamsUCMinVotings : Z := ConfigParamsUCWitness * 2 / 3 + 1.
Definition ConfigParamsSCWitness : Z := 11.
Definition ConfigParamsSCMinVotings : Z := ConfigParamsSCWitness * 2 / 3 + 1.

(** [defaultSet]; a [Validator] is its address. *)
Record ValidatorSet := mkSet {
  height : Z;
  preHash : Hash;
  validators : list Address;
  proposer : option Address;
  chain : Address;
  solt : Z
}.

(** [ValidatorsSort]: a stable sort by [strings.Compare] of the addresses'
    texts, that is insertion behind every element not greater. *)
Fixpoint insert_validator (v : Address) (l : list Address) : list Address :=
  match l with
  | [] => [v]
  | w :: l' =>
      if bytes_ltb (Address.String_ v) (Address.String_ w) then v :: w :: l'
      else w :: insert_validator v l'
  end.

Definition ValidatorsSort (vals : list Address) : list Address :=
  foldl (fun acc v => insert_validator v acc) [] vals.

Definition fnv32 (key : bytes) : Z :=
  foldl (fun hash b => Z.lxor (u32 (hash * 16777619)) b) 2166136261 key.

Definition Size (s : ValidatorSet) : Z := Z.of_nat (length (validators s)).

Definition newDefaultSet (blcHeight : Z) (preHash : Hash) (vals : list Address)
    (chain : Address) : ValidatorSet :=
  let sorted := ValidatorsSort vals in
  mkSet blcHeight preHash sorted (head sorted) chain (fnv32 (Address.String_ chain)).

(** [GetByAddress]: the index of the first validator with that address. *)
Definition GetByAddress (s : ValidatorSet) (addr : Address) : option (nat * Address) :=
  match find_index (fun v => bool_decide (v = addr)) (validators s) with
  | Some i => Some (i, addr)
  | None => None
  end.

Definition is_validator (s : ValidatorSet) (addr : Address) : bool :=
  match GetByAddress s addr with Some _ => true | None => false end.

(** [IsProposer]; a set without proposer would be a nil dereference. *)
Definition IsProposer (s : ValidatorSet) (address : Address) : option bool :=
  match proposer s with
  | None => None
  | Some valAddr =>
      Some (negb (Address.Empty valAddr || Address.Empty address)
              && bool_decide (valAddr = address))
  end.

Definition calcSeed (vals : list Address) (proposer : Address) (round : Z) : Z :=
  let offset :=
    match find_index (fun v => bool_decide (v = proposer)) vals with
    | Some i => Z.of_nat i
    | None => 0
    end in
  u64 (offset + round).

(** [nextRoundProposer]; [None] is the panic of [seed % 0] on an empty set. *)
Definition nextRoundProposer (vals : list Address) (proposer : Address) (round height : Z)
    : option Address :=
  let seed :=
    if Address.Empty proposer then u64 (height + round)
    else u64 (calcSeed vals proposer round + 1) in
  vals !! Z.to_nat (seed mod Z.of_nat (length vals)).

Definition IsNextProposer (s : ValidatorSet) (address : Address) (round : Z) : option bool :=
  match proposer s with
  | None => None
  | Some p =>
      match nextRoundProposer (validators s) p round (height s) with
      | None => None
      | Some v => Some (bool_decide (address = v))
      end
  end.

Definition CalcProposer (s : ValidatorSet) (proposer : Address) (round : Z)
    : option ValidatorSet :=
  match nextRoundProposer (validators s) proposer round (u64 (height s + solt s)) with
  | None => None
  | Some p => Some (mkSet (height s) (preHash s) (validators s) (Some p) (chain s) (solt s))
  end.

Definition AddValidator (s : ValidatorSet) (address : Address) : ValidatorSet * bool :=
  if existsb (fun v => bool_decide (v = address)) (validators s) then (s, false)
  else
    (mkSet (height s) (preHash s) (ValidatorsSort (validators s ++ [address]))
       (proposer s) (chain s) (solt s), true).

Fixpoint remove_first (address : Address) (l : list Address) : option (list Address) :=
  match l with
  | [] => None
  | v :: l' =>
      if bool_decide (v = address) then Some l'
      else option_map (cons v) (remove_first address l')
  end.

Definition RemoveValidator (s : ValidatorSet) (address : Address) : ValidatorSet * bool :=
  match remove_first address (validators s) with
  | None => (s, false)
  | Some l => (mkSet (height s) (preHash s) l (proposer s) (chain s) (solt s), true)
  end.

Definition F (s : ValidatorSet) : Z := Size s / 3.

Section Thresholds.
Context {P : Params}.

Definition TwoThirdsMajority (s : ValidatorSet) : Z :=
  if bool_decide (chain s = SCAccount) then ConfigParamsSCMinVotings - 1
  else ConfigParamsUCMinVotings - 1.

(** [params.GetChainMinVoting]. *)
Definition GetChainMinVoting (chain : Address) : Z :=
  if bool_decide (chain = SCAccount) then ConfigParamsSCMinVotings
  else ConfigParamsUCMinVotings.
End Thresholds.

End Validators.
