(* ===== verification/BftRound.v ===== *)
(** Vote collection and round state: [messageSet]
    ([src/consensus/bft/core/message_set.go]), [roundChangeSet]
    ([roundchange.go]) and [roundState] ([roundstate.go]).

    The locks of the source serialise calls and leave no trace here.  Go does
    not fix the order in which a map is ranged over; the model takes the
    canonical enumeration of [gmap], one of the orders Go may choose. *)
From S2P Require Import Prelude Bech32 Address BftTypes BftValidators.

Import Validators.

Module Round.

(** What the engine uses of package [rlp] and of signature recovery. *)
Class Codec {W : Wire} := {
  encode_subject : Subject -> option payload;
  decode_subject : payload -> option Subject;
  encode_preprepare : Preprepare -> option payload;
  decode_preprepare : payload -> option Preprepare;
  encode_packet : Message -> payload;
  (** [types.Sender]: the account whose key made [msg.Sign]. *)
  recover : Message -> option Address;
  (** [WitenssVote.Sender(digest)]. *)
  sealSender : WitenssVote -> Hash -> option Address
}.

(** ** messageSet *)

Section MessageSet.
Context {W : Wire}.

Record messageSet := mkMessageSet {
  ms_view : View;
  ms_valSet : ValidatorSet;
  messages : gmap Address Message
}.

Definition newMessageSet (valSet : ValidatorSet) : messageSet :=
  mkMessageSet (mkView 0 0) valSet ∅.

Definition verify (ms : messageSet) (msg : Message) : option err :=
  if negb (is_validator (ms_valSet ms) (msg_Address msg)) then Some ErrUnauthorizedAddress
  else
    match messages ms !! msg_Address msg with
    | Some _ => Some ErrExistVoteMsg
    | None => None
    end.

Definition addVerifiedMessage (ms : messageSet) (msg : Message) : messageSet :=
  mkMessageSet (ms_view ms) (ms_valSet ms) (<[msg_Address msg := msg]> (messages ms)).

Definition Add (ms : messageSet) (msg : Message) : messageSet * option err :=
  match verify ms msg with
  | Some e => (ms, Some e)
  | None => (addVerifiedMessage ms msg, None)
  end.

Definition Values (ms : messageSet) : list Message :=
  map snd (map_to_list (messages ms)).

Definition ms_Size (ms : messageSet) : Z := Z.of_nat (size (messages ms)).

Definition Get (ms : messageSet) (addr : Address) : option Message := messages ms !! addr.

End MessageSet.

(** ** roundChangeSet *)

Section RoundChangeSet.
Context {W : Wire}.

Record roundChangeSet := mkRoundChangeSet {
  rcs_validatorSet : ValidatorSet;
  roundChanges : gmap Z messageSet
}.

Definition newRoundChangeSet (valSet : ValidatorSet) : roundChangeSet :=
  mkRoundChangeSet valSet ∅.

(** [Add]: the number of votes now held for [r.Uint64()], and the error. *)
Definition rcs_Add (rcs : roundChangeSet) (r : Z) (msg : Message)
    : roundChangeSet * Z * option err :=
  let round := u64 r in
  let ms := default (newMessageSet (rcs_validatorSet rcs)) (roundChanges rcs !! round) in
  let '(ms', e) := Add ms msg in
  (mkRoundChangeSet (rcs_validatorSet rcs) (<[round := ms']> (roundChanges rcs)),
   ms_Size ms', e).

(** [MaxRound]: the loop over the map, keeping the largest round seen. *)
Definition max_round_step (num : Z) (k : Z) (rms : messageSet) (maxRound : option Z)
    : option Z :=
  if ms_Size rms <? num then maxRound
  else
    let r := i64 k in
    match maxRound with
    | None => Some r
    | Some m => if m <? r then Some r else maxRound
    end.

Definition MaxRound (rcs : roundChangeSet) (num : Z) : option Z :=
  map_fold (max_round_step num) None (roundChanges rcs).

Definition Clear (rcs : roundChangeSet) (round : Z) : roundChangeSet :=
  mkRoundChangeSet (rcs_validatorSet rcs)
    (filter (fun kv : Z * messageSet =>
               ~ (length (Values kv.2) = 0%nat \/ kv.1 < u64 round)) (roundChanges rcs)).

Definition RoundMessageSet (rcs : roundChangeSet) (r : Z) : option messageSet :=
  roundChanges rcs !! u64 r.

End RoundChangeSet.

(** ** roundState *)

Section RoundState.
Context {W : Wire} {C : Codec} {P : Params}.

Record polcRound := mkPolc { polc_view : View; lockedHash : Hash; signBytes : list payload }.

Record roundState := mkRoundState {
  rs_chainAddress : Address;
  rs_round : Z;
  rs_sequence : Z;
  rs_Preprepare : option Preprepare;
  Prepares : messageSet;
  Commits : messageSet;
  rs_polcRound : option polcRound;
  pendingRequest : option Request
}.

Definition newRoundState (view : View) (validatorSet : ValidatorSet) (chain : Address)
    (polc : option polcRound) (preprepare : option Preprepare) (pending : option Request)
    : roundState :=
  mkRoundState chain (Round view) (Sequence view) preprepare
    (newMessageSet validatorSet) (newMessageSet validatorSet) polc pending.

Definition LockHash_of (p : option polcRound) : Hash :=
  match p with None => 0 | Some p => lockedHash p end.

(** Prepare and commit votes, a validator that sent both counted once. *)
Definition GetPrepareOrCommitSize (s : roundState) : Z :=
  ms_Size (Prepares s) + ms_Size (Commits s)
  - Z.of_nat (length (filter (fun m => is_Some (Get (Commits s) (msg_Address m)))
                       (Values (Prepares s)))).

(** One of the two loops of [GetPrepareOrCommitBytes]. *)
Fixpoint collect_bytes (minVoteCount : Z) (msgs : list Message)
    (flag : gset Address) (buf : list payload) : gset Address * list payload :=
  match msgs with
  | [] => (flag, buf)
  | msg :: msgs' =>
      if Z.of_nat (length buf) >=? minVoteCount then (flag, buf)
      else if bool_decide (msg_Address msg ∈ flag) then
        collect_bytes minVoteCount msgs' flag buf
      else
        collect_bytes minVoteCount msgs' ({[msg_Address msg]} ∪ flag)
          (buf ++ [encode_packet msg])
  end.

Definition GetPrepareOrCommitBytes (s : roundState) : list payload :=
  let minVoteCount := GetChainMinVoting (rs_chainAddress s) in
  let '(flag, buf) := collect_bytes minVoteCount (Values (Prepares s)) ∅ [] in
  snd (collect_bytes minVoteCount (Values (Commits s)) flag buf).

Definition Proposal (s : roundState) : option Unit :=
  match rs_Preprepare s with
  | Some pp => pp_Proposal pp
  | None => None
  end.

Definition view_of (s : roundState) : View := mkView (rs_round s) (rs_sequence s).

Definition Subject_of (s : roundState) : Subject :=
  mkSubject (view_of s)
    (match Proposal s with Some u => unit_Hash u | None => 0 end) [].

Definition SetPreprepare (s : roundState) (pp : Preprepare) : roundState :=
  mkRoundState (rs_chainAddress s) (rs_round s) (rs_sequence s) (Some pp)
    (Prepares s) (Commits s) (rs_polcRound s) (pendingRequest s).

Definition set_polc (s : roundState) (p : option polcRound) : roundState :=
  mkRoundState (rs_chainAddress s) (rs_round s) (rs_sequence s) (rs_Preprepare s)
    (Prepares s) (Commits s) p (pendingRequest s).

(** [LockHash]: [None] is the nil dereference of a preprepare without
    proposal. *)
Definition LockHash (s : roundState) (view : View) (bytes : list payload)
    : option roundState :=
  match rs_Preprepare s with
  | None => Some s
  | Some pp =>
      match pp_Proposal pp with
      | None => None
      | Some u => Some (set_polc s (Some (mkPolc view (unit_Hash u) bytes)))
      end
  end.

Definition UnlockHash (s : roundState) : roundState := set_polc s None.

Definition IsHashLocked (s : roundState) : bool :=
  negb (EmptyHash (LockHash_of (rs_polcRound s))).

Definition set_Prepares (s : roundState) (ms : messageSet) : roundState :=
  mkRoundState (rs_chainAddress s) (rs_round s) (rs_sequence s) (rs_Preprepare s)
    ms (Commits s) (rs_polcRound s) (pendingRequest s).

Definition set_Commits (s : roundState) (ms : messageSet) : roundState :=
  mkRoundState (rs_chainAddress s) (rs_round s) (rs_sequence s) (rs_Preprepare s)
    (Prepares s) ms (rs_polcRound s) (pendingRequest s).

Definition set_pendingRequest (s : roundState) (r : Request) : roundState :=
  mkRoundState (rs_chainAddress s) (rs_round s) (rs_sequence s) (rs_Preprepare s)
    (Prepares s) (Commits s) (rs_polcRound s) (Some r).

End RoundState.

End Round.
