(* ===== verification/BftCore.v ===== *)
(** The consensus engine of one chain ([src/consensus/bft/core]): [core], its
    event loop [Handle] and every handler under it.

    A handler is a computation of the monad [M] over the engine's state and
    the log of what it did to the outside (messages broadcast, units committed,
    timers set, ...), newest entry first.  [None] is a Go panic.  What the
    engine reads from outside (chain tail, validator sets, unit verification,
    signatures, the clock) is the [Backend] an event is handled with; logging
    and tracing calls are left out.  The engine and its message sets share one
    validator set by pointer; only [CalcProposer] writes it, in the proposer
    alone, which the message sets never read, so each holds a value here. *)
From S2P Require Import Prelude Bech32 Address BftTypes BftValidators BftRound.

Import Validators Round.

Module Core.

Section Core.
Context {W : Wire} {C : Codec} {P : Params}.

(** ** State *)

Record core := mkCore {
  c_address : Address;
  chainAddress : Address;
  state : State;
  valSet : option ValidatorSet;
  waitingForRoundChange : bool;
  waitingTimes : Z;
  backlogs : list Message;
  current : option roundState;
  c_roundChangeSet : option roundChangeSet;
  activated : bool;
  roundchangeResetTime : Z;
  priorChan : option event;
  lockHashes : option (gmap Address Hash)
}.

Inductive effect :=
| EBroadcast (m : Message)
(** A call of [backend.Commit]; [view] notes the engine's view at the time. *)
| ECommit (view : View) (mining : option MiningResult) (committedSeals : list WitenssVote)
| EDisconnect (m : Message)
| ESetTimeout (rv : RoundView)
| EStopTimer (chain : Address)
| ESetChainStatus (chain : Address) (status : bool)
| EOnMessage (m : Message)
| ERollback (u : Unit)
| EGoPropose (chain : Address)
| EPackUnit (chain : Address)
| EReBroadTx (chain : Address).

Record world := mkWorld { node : core; log : list effect }.

(** What the backend and the callbacks given to [New] answer. *)
Record Backend := mkBackend {
  b_Validators : Address -> option Header -> result err ValidatorSet;
  TailHeader : Address -> Header * Address;
  Verify : Unit -> result err MiningResult;
  SignMsg : Message -> option signature;
  SignVote : bytes -> Hash -> option signature;
  WitnessLib : Address -> Hash -> list Address;
  WaitGenerateUnitTime : Z -> Z -> Z;
  ReBroadTx : Address -> Z;
  packUnit : Address -> option err;
  existTx : Address -> bool;
  now : Z;
  random : bytes
}.

(** [bft.Config]; both timeouts are in seconds. *)
Record Config := mkConfig { RequestTimeout : Z; ConsensusTimeout : Z }.

Definition Second : Z := 10 ^ 9.
(** [time.Time{}] on the clock of [now] (nanoseconds since 1970). *)
Definition zeroTime : Z := - 62135596800 * Second.

(** [New]. *)
Definition New (address mc : Address) : core :=
  mkCore address mc StateAcceptRequest None false 0 [] None None false zeroTime None None.

(** ** The monad *)

Definition M (A : Type) : Type := world -> option (A * world).

Definition ret {A} (a : A) : M A := fun w => Some (a, w).
Definition panic {A} : M A := fun _ => None.
Definition bind {A B} (m : M A) (k : A -> M B) : M B :=
  fun w => match m w with Some (a, w') => k a w' | None => None end.
Definition get : M core := fun w => Some (node w, w).
Definition modify (f : core -> core) : M unit :=
  fun w => Some (tt, mkWorld (f (node w)) (log w)).
Definition emit (e : effect) : M unit := fun w => Some (tt, mkWorld (node w) (e :: log w)).
(** Reading through a pointer: a nil pointer panics. *)
Definition deref {A} (o : option A) : M A :=
  match o with Some a => ret a | None => panic end.

Notation "'let!' x ':=' m 'in' k" := (bind m (fun x => k))
  (at level 10, x pattern, m at level 100, k at level 200).
Notation "m ';;;' k" := (bind m (fun _ => k)) (at level 60, right associativity).

Definition when (b : bool) (m : M unit) : M unit := if b then m else ret tt.

(** *** Field updates *)

Definition set_chainAddress v c := mkCore (c_address c) v (state c) (valSet c)
  (waitingForRoundChange c) (waitingTimes c) (backlogs c) (current c) (c_roundChangeSet c)
  (activated c) (roundchangeResetTime c) (priorChan c) (lockHashes c).
Definition set_state v c := mkCore (c_address c) (chainAddress c) v (valSet c)
  (waitingForRoundChange c) (waitingTimes c) (backlogs c) (current c) (c_roundChangeSet c)
  (activated c) (roundchangeResetTime c) (priorChan c) (lockHashes c).
Definition set_valSet v c := mkCore (c_address c) (chainAddress c) (state c) v
  (waitingForRoundChange c) (waitingTimes c) (backlogs c) (current c) (c_roundChangeSet c)
  (activated c) (roundchangeResetTime c) (priorChan c) (lockHashes c).
Definition set_waiting v c := mkCore (c_address c) (chainAddress c) (state c) (valSet c)
  v (waitingTimes c) (backlogs c) (current c) (c_roundChangeSet c)
  (activated c) (roundchangeResetTime c) (priorChan c) (lockHashes c).
Definition set_waitingTimes v c := mkCore (c_address c) (chainAddress c) (state c) (valSet c)
  (waitingForRoundChange c) v (backlogs c) (current c) (c_roundChangeSet c)
  (activated c) (roundchangeResetTime c) (priorChan c) (lockHashes c).
Definition set_backlogs v c := mkCore (c_address c) (chainAddress c) (state c) (valSet c)
  (waitingForRoundChange c) (waitingTimes c) v (current c) (c_roundChangeSet c)
  (activated c) (roundchangeResetTime c) (priorChan c) (lockHashes c).
Definition set_current v c := mkCore (c_address c) (chainAddress c) (state c) (valSet c)
  (waitingForRoundChange c) (waitingTimes c) (backlogs c) v (c_roundChangeSet c)
  (activated c) (roundchangeResetTime c) (priorChan c) (lockHashes c).
Definition set_roundChangeSet v c := mkCore (c_address c) (chainAddress c) (state c) (valSet c)
  (waitingForRoundChange c) (waitingTimes c) (backlogs c) (current c) v
  (activated c) (roundchangeResetTime c) (priorChan c) (lockHashes c).
Definition set_activated v c := mkCore (c_address c) (chainAddress c) (state c) (valSet c)
  (waitingForRoundChange c) (waitingTimes c) (backlogs c) (current c) (c_roundChangeSet c)
  v (roundchangeResetTime c) (priorChan c) (lockHashes c).
Definition set_resetTime v c := mkCore (c_address c) (chainAddress c) (state c) (valSet c)
  (waitingForRoundChange c) (waitingTimes c) (backlogs c) (current c) (c_roundChangeSet c)
  (activated c) v (priorChan c) (lockHashes c).
Definition set_priorChan v c := mkCore (c_address c) (chainAddress c) (state c) (valSet c)
  (waitingForRoundChange c) (waitingTimes c) (backlogs c) (current c) (c_roundChangeSet c)
  (activated c) (roundchangeResetTime c) v (lockHashes c).
Definition set_lockHashes v c := mkCore (c_address c) (chainAddress c) (state c) (valSet c)
  (waitingForRoundChange c) (waitingTimes c) (backlogs c) (current c) (c_roundChangeSet c)
  (activated c) (roundchangeResetTime c) (priorChan c) v.

(** [c.current.x] and [c.valSet.m()]: a nil pointer panics. *)
Definition get_current : M roundState := let! c := get in deref (current c).
Definition get_valSet : M ValidatorSet := let! c := get in deref (valSet c).
Definition get_roundChangeSet : M roundChangeSet := let! c := get in deref (c_roundChangeSet c).
Definition put_current (rs : roundState) : M unit := modify (set_current (Some rs)).

Section Handlers.
Context (cfg : Config) (b : Backend).

(** ** Views, proposer, timers *)

Definition currentView : M View := let! rs := get_current in ret (view_of rs).

Definition isProposer : M bool :=
  let! c := get in
  match valSet c with
  | None => ret false
  | Some v => deref (IsProposer v (c_address c))
  end.

Definition stopTimer : M unit :=
  let! c := get in
  emit (EStopTimer (chainAddress c)) ;;;
  modify (set_resetTime (now b)).

Definition setTimeoutDeadline (deadline : Z) : M unit :=
  let! c := get in
  let! rs := get_current in
  emit (ESetTimeout (mkRoundView (chainAddress c) (rs_round rs) (rs_sequence rs) deadline)).

Definition setTimeout (t : Z) : M unit := setTimeoutDeadline (now b + t * Second).

Definition updateWaitForRoundChange (f : bool) : M unit := modify (set_waiting f).

Definition catchUpRound (view : View) : M unit :=
  let! _ := get_current in
  let! _ := get_valSet in
  updateWaitForRoundChange true ;;;
  setTimeout (RequestTimeout cfg).

(** ** Sending *)

(** [finalizeMessage]: stamp the sender, then sign; [None] when the
    signature failed. *)
Definition finalizeMessage (me : Address) (msg : Message) : option Message :=
  let extra := if Code msg =? MsgRoundChange then random b else msg_Extra msg in
  let msg := mkMessage (Code msg) (Msg msg) me extra (msg_Sign msg) (CommittedSeal msg) true in
  match SignMsg b msg with
  | None => None
  | Some s => Some (mkMessage (Code msg) (Msg msg) me extra (Some s) (CommittedSeal msg) true)
  end.

Definition broadcast (msg : Message) : M unit :=
  let! c := get in
  if IsMe msg then ret tt
  else
    match finalizeMessage (c_address c) msg with
    | None => ret tt
    | Some msg => emit (EBroadcast msg)
    end.

Definition new_message (code : Z) (p : payload) (seal : option WitenssVote) : Message :=
  mkMessage code p Address.zeroAddress [] None seal false.

Definition sendPreprepare (request : Unit) : M unit :=
  let! rs := get_current in
  let! isPro := isProposer in
  if (rs_sequence rs =? Number request) && isPro then
    match encode_preprepare (mkPreprepare (view_of rs) (Some request) None) with
    | None => ret tt
    | Some preprepare => broadcast (new_message MsgPreprepare preprepare None)
    end
  else ret tt.

Definition sendGiveUpPreprepare : M unit :=
  let! isPro := isProposer in
  if isPro then
    let! rs := get_current in
    match pendingRequest rs with
    | Some _ => ret tt
    | None =>
        match encode_preprepare (mkPreprepare (view_of rs) None None) with
        | None => ret tt
        | Some preprepare => broadcast (new_message MsgPreprepare preprepare None)
        end
    end
  else ret tt.

Definition sendPrepare : M unit :=
  let! rs := get_current in
  match encode_subject (Subject_of rs) with
  | None => ret tt
  | Some encodedSubject => broadcast (new_message MsgPrepare encodedSubject None)
  end.

Definition ExtraSealSize : nat := 9.

Definition commit_extra (round : Z) : bytes := u8 MsgCommit :: le_bytes 8 (u64 round).

Definition broadcastCommit (sub : Subject) (seal : Hash) : M unit :=
  match encode_subject sub with
  | None => ret tt
  | Some encodedSubject =>
      let extra := commit_extra (Round (sub_View sub)) in
      match SignVote b extra seal with
      | None => ret tt
      | Some sign =>
          broadcast (new_message MsgCommit encodedSubject (Some (mkVote extra sign)))
      end
  end.

Definition sendCommit : M unit :=
  let! rs := get_current in
  let! p := deref (Proposal rs) in
  broadcastCommit (Subject_of rs) (unit_Hash p).

Definition sendCheckPendingTx : M unit :=
  let! rs := get_current in
  match encode_subject (Subject_of rs) with
  | None => ret tt
  | Some p => broadcast (new_message MsgCheckPendingTx p None)
  end.

Definition sendRoundChange (round : Z) : M unit :=
  let! cv := currentView in
  catchUpRound (mkView round (Sequence cv)) ;;;
  match encode_subject (mkSubject (mkView round (Sequence cv)) 0 []) with
  | None => ret tt
  | Some p => broadcast (new_message MsgRoundChange p None)
  end.

Definition sendNextRoundChange : M unit :=
  let! cv := currentView in
  let! rcs := get_roundChangeSet in
  let! vs := get_valSet in
  match MaxRound rcs (F vs + 1) with
  | Some maxRound =>
      if maxRound >? Round cv then sendRoundChange maxRound
      else sendRoundChange (Round cv + 1)
  | None => sendRoundChange (Round cv + 1)
  end.

(** ** Message admission *)

(** [checkMessage] on the engine's view and state. *)
Definition check_view (cv : View) (st : State) (msgCode : Z) (view : option View)
    : option err :=
  match view with
  | None => Some errInvalidMessage
  | Some view =>
      if msgCode =? MsgRoundChange then
        if Sequence view >? Sequence cv then Some errFutureUnitMessage
        else match View_Cmp view cv with Lt => Some errOldMessage | _ => None end
      else if Sequence view >? Sequence cv then Some errFutureUnitMessage
      else
        match View_Cmp view cv with
        | Gt => Some errFutureMessage
        | Lt => Some errOldMessage
        | Eq =>
            if bool_decide (st = StateAcceptRequest) then
              if (msgCode =? MsgPrepare) || (msgCode =? MsgCommit)
              then Some errFutureMessage else None
            else if bool_decide (st = StateCommitted) then Some errOldMessage
            else None
        end
  end.

Definition checkMessage (msgCode : Z) (view : option View) : M (option err) :=
  let! c := get in
  let! cv := currentView in
  ret (check_view cv (state c) msgCode view).

Definition storeBacklog (msg : Message) : M unit :=
  modify (fun c => set_backlogs (backlogs c ++ [msg]) c).

Definition backlog_view (msg : Message) : option View :=
  if Code msg =? MsgPreprepare then option_map pp_View (decode_preprepare (Msg msg))
  else option_map sub_View (decode_subject (Msg msg)).

(** The loop of [processBacklog]; [rest] are the messages kept. *)
Fixpoint process_backlog (msgs rest : list Message) : M (list Message) :=
  match msgs with
  | [] => ret rest
  | msg :: msgs' =>
      match backlog_view msg with
      | None => process_backlog msgs' rest
      | Some view =>
          let! e := checkMessage (Code msg) (Some view) in
          match e with
          | None => emit (EOnMessage msg) ;;; process_backlog msgs' rest
          | Some errFutureUnitMessage | Some errFutureMessage =>
              process_backlog msgs' (rest ++ [msg])
          | Some _ => process_backlog msgs' rest
          end
      end
  end.

Definition processBacklog : M unit :=
  let! c := get in
  match backlogs c with
  | [] => ret tt
  | msgs => let! rest := process_backlog msgs [] in modify (set_backlogs rest)
  end.

(** ** Activation *)

Definition activateChain : M unit :=
  let! c := get in
  if activated c then ret tt
  else
    modify (set_activated true) ;;;
    emit (ESetChainStatus (chainAddress c) true) ;;;
    let parent := fst (TailHeader b (chainAddress c)) in
    let workWait := WaitGenerateUnitTime b (hd_Number parent) (hd_Timestamp parent) in
    setTimeoutDeadline (now b + workWait + Second * RequestTimeout cfg) ;;;
    let! isPro := isProposer in
    when isPro (emit (EGoPropose (chainAddress c))).

Definition disabledChain : M unit :=
  modify (set_activated false) ;;;
  stopTimer ;;;
  let! c := get in
  emit (ESetChainStatus (chainAddress c) false).

Definition refreshChainStatus : M unit :=
  modify (set_activated false) ;;;
  let! c := get in
  if existTx b (chainAddress c) then activateChain else disabledChain.

Definition setState (st : State) : M unit :=
  let! c := get in
  if bool_decide (state c = st) then ret tt
  else
    when (bool_decide (state c = StateAcceptRequest) && bool_decide (st = StatePreprepared))
      activateChain ;;;
    modify (set_state st) ;;;
    processBacklog.

(** ** Rounds *)

Definition Stop : M unit :=
  stopTimer ;;;
  modify (set_chainAddress Address.zeroAddress) ;;;
  let! c := get in
  match current c with
  | Some rs =>
      match pendingRequest rs with
      | Some r => emit (ERollback (mining_Unit (req_Proposal r)))
      | None => ret tt
      end
  | None => ret tt
  end.

Definition refreshValidtors (last : option Header) : M (option err) :=
  let! c := get in
  if Address.Empty (chainAddress c) then ret (Some errChainStopping)
  else
    match b_Validators b (chainAddress c) last with
    | Err e => ret (Some e)
    | Ok vals =>
        if Size vals =? 0 then Stop ;;; ret (Some errEmptyValidators)
        else if negb (is_validator vals (c_address c)) then ret (Some errNotMyChain)
        else modify (set_valSet (Some vals)) ;;; ret None
    end.

(** [updateRoundState]: the lock, the preprepare it was taken on and the
    pending request survive a round change. *)
Definition updateRoundState (view : View) (validatorSet : ValidatorSet)
    (roundChange : bool) (round : Z) : M unit :=
  let! c := get in
  match roundChange, current c with
  | true, Some rs =>
      if IsHashLocked rs then
        put_current (newRoundState view validatorSet (chainAddress c)
                       (rs_polcRound rs) (rs_Preprepare rs) (pendingRequest rs))
      else
        put_current (newRoundState view validatorSet (chainAddress c)
                       None None (pendingRequest rs))
  | _, _ =>
      if u64 round =? 0 then
        put_current (newRoundState view validatorSet (chainAddress c) None None None)
      else ret tt
  end.

Definition generateProposal : M (option err) :=
  let! c := get in
  emit (EPackUnit (chainAddress c)) ;;;
  ret (packUnit b (chainAddress c)).

(** The votes per recorded hash, then the loop deciding whether to unlock. *)
Definition hash_votes (m : gmap Address Hash) (h : Hash) : Z :=
  Z.of_nat (length (filter (fun kv : Address * Hash => kv.2 = h) (map_to_list m))).

Definition least_voted (m : gmap Address Hash) (mine : Hash) : bool :=
  let mineSum := hash_votes m mine in
  negb (existsb (fun kv : Address * Hash =>
                   let v := hash_votes m kv.2 in (v >? 1) && (v <? mineSum))
          (map_to_list m)).

Definition checkDeadLock : M unit :=
  let! c := get in
  match lockHashes c with
  | None => ret tt
  | Some hashes =>
      let voteSum := if bool_decide (chainAddress c = SCAccount)
                     then ConfigParamsSCWitness else ConfigParamsUCWitness in
      let! rs := get_current in
      if negb (Z.rem (i64 (rs_round rs)) (voteSum * 2) =? 0) then ret tt
      else
        let! vs := get_valSet in
        if Z.of_nat (size hashes) >? TwoThirdsMajority vs then
          if least_voted hashes (LockHash_of (rs_polcRound rs)) then
            put_current (UnlockHash rs) ;;;
            modify (set_lockHashes None)
          else ret tt
        else ret tt
  end.

(** The part of [startNewRound] that runs once the new view and the
    validator set are known. *)
Definition enterRound (newView : View) (roundChange : bool) (round : Z)
    (lastProposer : Address) : M unit :=
  let! vs := get_valSet in
  modify (set_roundChangeSet (Some (newRoundChangeSet vs))) ;;;
  updateRoundState newView vs roundChange round ;;;
  let! vs' := deref (CalcProposer vs lastProposer (u64 (Round newView))) in
  modify (set_valSet (Some vs')) ;;;
  updateWaitForRoundChange false ;;;
  modify (set_waitingTimes 0) ;;;
  setState StateAcceptRequest ;;;
  let! isPro := isProposer in
  let! c := get in
  when (roundChange && isPro && bool_decide (is_Some (current c)))
    (let! rs := get_current in
     if IsHashLocked rs then
       let! p := deref (Proposal rs) in sendPreprepare p
     else
       match pendingRequest rs with
       | Some r => sendPreprepare (mining_Unit (req_Proposal r))
       | None =>
           let! e := generateProposal in
           match e with
           | None => ret tt
           | Some _ => sendGiveUpPreprepare
           end
       end) ;;;
  if roundChange then checkDeadLock ;;; setTimeout (RequestTimeout cfg)
  else modify (set_lockHashes None) ;;; stopTimer.

(** [startNewRound(0)]: a new sequence. *)
Definition startNewSequence : M unit :=
  let! c := get in
  let '(lastProposal, lastProposer) := TailHeader b (chainAddress c) in
  let stale :=
    match current c with
    | Some rs => i64 (hd_Number lastProposal) <? rs_sequence rs
    | None => false
    end in
  if stale then ret tt
  else
    let newView := mkView 0 (i64 (i64 (hd_Number lastProposal) + 1)) in
    let! e := refreshValidtors (Some lastProposal) in
    match e with
    | Some _ => ret tt
    | None => enterRound newView false 0 lastProposer
    end.

Definition startNewRound (round : Z) : M unit :=
  if round =? 0 then startNewSequence
  else
    let! c := get in
    let '(lastProposal, lastProposer) := TailHeader b (chainAddress c) in
    when (negb (bool_decide (is_Some (current c)))) startNewSequence ;;;
    let! rs := get_current in
    if rs_round rs >=? round then ret tt
    else enterRound (mkView round (rs_sequence rs)) true round lastProposer.

(** ** Handlers *)

Definition checkRequestMsg (seq : Z) (request : Unit) : option err :=
  if seq >? Number request then Some errOldMessage
  else if seq <? Number request then Some errFutureMessage
  else None.

Definition handleRequest (request : Request) : M (option err) :=
  let proposal := mining_Unit (req_Proposal request) in
  let! rs := get_current in
  match checkRequestMsg (rs_sequence rs) proposal with
  | Some e => ret (Some e)
  | None =>
      put_current (set_pendingRequest rs request) ;;;
      let! c := get in
      when (bool_decide (state c = StateAcceptRequest)) (sendPreprepare proposal) ;;;
      ret None
  end.

Definition verifyProposal (me : Address) (proposal : Unit) : result err MiningResult :=
  match Verify b proposal with
  | Err e => Err e
  | Ok res =>
      match WitnessLib b (MC proposal) (SCHash proposal) with
      | [] => Err errFutureMessage
      | wits => if existsb (fun wit => bool_decide (wit = me)) wits then Ok res
                else Err errNotWitness
      end
  end.

Definition noteDiffHash (address : Address) (hash : Hash) : M unit :=
  let! c := get in
  match lockHashes c with
  | Some m => modify (set_lockHashes (Some (<[address := hash]> m)))
  | None =>
      let! rs := get_current in
      if IsHashLocked rs then
        let lhash := LockHash_of (rs_polcRound rs) in
        if lhash =? hash then ret tt
        else modify (set_lockHashes (Some (<[address := hash]> {[c_address c := lhash]})))
      else ret tt
  end.

Definition acceptPreprepare (pp : Preprepare) : M unit :=
  let! rs := get_current in
  put_current (SetPreprepare rs pp) ;;;
  stopTimer ;;;
  setTimeout (ConsensusTimeout cfg).

(** The tail of [handlePreprepare], once the proposal is verified. *)
Definition enterPreprepared (src : Address) (pp : Preprepare) (proposalHash : Hash) : M unit :=
  let! c := get in
  if bool_decide (state c = StateAcceptRequest) then
    noteDiffHash src proposalHash ;;;
    let! rs := get_current in
    if IsHashLocked rs then
      if proposalHash =? LockHash_of (rs_polcRound rs) then
        acceptPreprepare pp ;;;
        setState StatePrepared ;;;
        sendCommit
      else sendNextRoundChange
    else
      acceptPreprepare pp ;;;
      setState StatePreprepared ;;;
      sendPrepare
  else ret tt.

Definition handlePreprepare (msg : Message) (src : Address) : M (option err) :=
  match decode_preprepare (Msg msg) with
  | None => ret (Some errFailedDecodePreprepare)
  | Some preprepare =>
      let! e := checkMessage MsgPreprepare (Some (pp_View preprepare)) in
      match e with
      | Some e => ret (Some e)
      | None =>
          let! vs := get_valSet in
          let! fromProposer := deref (IsProposer vs src) in
          if negb fromProposer then ret (Some errNotFromProposer)
          else
            match pp_Proposal preprepare with
            | None => sendNextRoundChange ;;; ret None
            | Some proposal =>
                let proposalHash := unit_Hash proposal in
                let! rs := get_current in
                let! c := get in
                let own :=
                  match pendingRequest rs with
                  | Some r =>
                      if proposalHash =? unit_Hash (mining_Unit (req_Proposal r))
                      then Some (req_Proposal r) else None
                  | None => None
                  end in
                match own with
                | Some u =>
                    enterPreprepared src
                      (mkPreprepare (pp_View preprepare) (Some proposal) (Some u))
                      proposalHash ;;;
                    ret None
                | None =>
                    match verifyProposal (c_address c) proposal with
                    | Err e =>
                        if negb (IsBadUnitErr e) then ret (Some errFutureMessage)
                        else sendNextRoundChange ;;; ret (Some e)
                    | Ok res =>
                        enterPreprepared src
                          (mkPreprepare (pp_View preprepare) (Some proposal) (Some res))
                          proposalHash ;;;
                        ret None
                    end
                end
            end
      end
  end.

(** [c.current.LockHash(c.currentView(), bytes)]. *)
Definition lockCurrent : M unit :=
  let! rs := get_current in
  let! rs' := deref (LockHash rs (view_of rs) (GetPrepareOrCommitBytes rs)) in
  put_current rs'.

Definition verifyPrepare (rs : roundState) (prepare : Subject) : option err :=
  if negb (Subject_Cmp prepare (Subject_of rs)) then Some errInconsistentSubject else None.

Definition handlePrepare (msg : Message) (src : Address) : M (option err) :=
  match decode_subject (Msg msg) with
  | None => ret (Some errFailedDecodePrepare)
  | Some prepare =>
      let! e := checkMessage MsgPrepare (Some (sub_View prepare)) in
      match e with
      | Some e => ret (Some e)
      | None =>
          let! rs := get_current in
          match verifyPrepare rs prepare with
          | Some e => ret (Some e)
          | None =>
              match Add (Prepares rs) msg with
              | (_, Some e) => ret (Some e)
              | (ms, None) =>
                  put_current (set_Prepares rs ms) ;;;
                  let! rs := get_current in
                  let! vs := get_valSet in
                  let! c := get in
                  when (((IsHashLocked rs && (Digest prepare =? LockHash_of (rs_polcRound rs)))
                         || (GetPrepareOrCommitSize rs >? TwoThirdsMajority vs))
                        && (State_Cmp (state c) StatePrepared <? 0))
                    (lockCurrent ;;;
                     setState StatePrepared ;;;
                     let! rs := get_current in
                     let! _ := deref (Proposal rs) in
                     sendCommit) ;;;
                  ret None
              end
          end
      end
  end.

(** [msg.Sender(c.sign)]: the recovered signer must be the stated one. *)
Definition Sender (msg : Message) : result err Address :=
  match recover msg with
  | None => Err errSignature
  | Some sender =>
      if negb (bool_decide (sender = msg_Address msg)) then Err ErrUnauthorizedAddress
      else Ok sender
  end.

Definition verifyCommit (rs : roundState) (msgSender : Address)
    (commitSeal : option WitenssVote) (commit : Subject) : option err :=
  match commitSeal with
  | None => Some ErrInvalidCommitSeal
  | Some seal =>
      if negb (length (vote_Extra seal) =? ExtraSealSize)%nat
         || negb (nth 0 (vote_Extra seal) 0 =? MsgCommit)
      then Some ErrInvalidCommitSeal
      else
        let round := le_value (drop 1 (vote_Extra seal)) in
        if negb (round =? u64 (Round (sub_View commit))) then Some ErrDifferentRoundCommitSeal
        else
          match sealSender seal (Digest commit) with
          | None => Some errSignature
          | Some signer =>
              if negb (bool_decide (signer = msgSender)) then Some ErrDifferentCommitSeal
              else if negb (Subject_Cmp (Subject_of rs) commit)
              then Some errInconsistentSubject
              else None
          end
  end.

Definition handleFinalCommitted : M unit :=
  stopTimer ;;; updateWaitForRoundChange false.

Fixpoint deref_seals (msgs : list Message) : M (list WitenssVote) :=
  match msgs with
  | [] => ret []
  | m :: msgs' =>
      let! s := deref (CommittedSeal m) in
      let! ss := deref_seals msgs' in
      ret (s :: ss)
  end.

Definition commit : M unit :=
  setState StateCommitted ;;;
  let! rs := get_current in
  let! proposal := deref (rs_Preprepare rs) in
  let! _ := deref (pp_Proposal proposal) in
  let! committedSeals := deref_seals (Values (Commits rs)) in
  emit (ECommit (view_of rs) (pp_Mining proposal) committedSeals) ;;;
  handleFinalCommitted.

Definition handleCommit (msg : Message) (src : Address) : M (option err) :=
  match decode_subject (Msg msg) with
  | None => ret (Some errFailedDecodeCommit)
  | Some sub =>
      let! e := checkMessage MsgCommit (Some (sub_View sub)) in
      match e with
      | Some e => ret (Some e)
      | None =>
          match Sender msg with
          | Err e => ret (Some e)
          | Ok sender =>
              let! rs := get_current in
              match verifyCommit rs sender (CommittedSeal msg) sub with
              | Some e => ret (Some e)
              | None =>
                  put_current (set_Commits rs (fst (Add (Commits rs) msg))) ;;;
                  let! rs := get_current in
                  let! vs := get_valSet in
                  let! c := get in
                  if (ms_Size (Commits rs) >? TwoThirdsMajority vs)
                     && (State_Cmp (state c) StateCommitted <? 0) then
                    lockCurrent ;;; commit ;;; ret None
                  else if (State_Cmp (state c) StatePrepared <? 0)
                          && (GetPrepareOrCommitSize rs >? TwoThirdsMajority vs)
                          && negb (IsHashLocked rs) then
                    lockCurrent ;;; setState StatePrepared ;;; sendCommit ;;; ret None
                  else ret None
              end
          end
      end
  end.

Definition handleRoundChange (msg : Message) (src : Address) : M (option err) :=
  match decode_subject (Msg msg) with
  | None => ret (Some errInvalidMessage)
  | Some rc =>
      let! e := checkMessage MsgRoundChange (Some (sub_View rc)) in
      match e with
      | Some e => ret (Some e)
      | None =>
          let! cv := currentView in
          let roundView := sub_View rc in
          let! rcs := get_roundChangeSet in
          let '(rcs', num, e) := rcs_Add rcs (Round roundView) msg in
          modify (set_roundChangeSet (Some rcs')) ;;;
          match e with
          | Some e => ret (Some e)
          | None =>
              let! vs := get_valSet in
              let! c := get in
              if (num =? F vs + 1) && negb (bool_decide (src = c_address c)) then
                sendRoundChange (Round roundView) ;;; ret None
              else if (num >? TwoThirdsMajority vs) && (Round cv <? Round roundView) then
                startNewRound (Round roundView) ;;; ret None
              else ret None
          end
      end
  end.

Definition handleCheckTx (msg : Message) (src : Address) : M (option err) :=
  let! c := get in
  if activated c then ret None
  else
    match decode_subject (Msg msg) with
    | None => ret (Some errFailedDecodePrepare)
    | Some prepare =>
        let! e := checkMessage MsgCheckPendingTx (Some (sub_View prepare)) in
        match e with
        | Some e => ret (Some e)
        | None =>
            let! c := get in
            when (negb (activated c)) refreshChainStatus ;;;
            ret None
        end
    end.

(** [verifyMsg]: signed by a validator, and the stated sender is one. *)
Definition verifyMsg (msg : Message) : M (result err Address) :=
  let! c := get in
  match current c with
  | None => ret (Err errWaitNewRound)
  | Some _ =>
      match Sender msg with
      | Err e => ret (Err e)
      | Ok signer =>
          let! vs := get_valSet in
          if negb (is_validator vs signer) then ret (Err ErrUnauthorizedAddress)
          else if negb (is_validator vs (msg_Address msg))
          then ret (Err ErrUnauthorizedAddress)
          else ret (Ok (msg_Address msg))
      end
  end.

Definition dispatch (msg : Message) (src : Address) : M (option err) :=
  if Code msg =? MsgPreprepare then handlePreprepare msg src
  else if Code msg =? MsgPrepare then handlePrepare msg src
  else if Code msg =? MsgCommit then handleCommit msg src
  else if Code msg =? MsgRoundChange then handleRoundChange msg src
  else if Code msg =? MsgCheckPendingTx then handleCheckTx msg src
  else ret (Some errInvalidMessage).

(** [handleCheckedMsg]: a message of the future goes to the backlog. *)
Definition handleCheckedMsg (msg : Message) (src : Address) : M (option err) :=
  let! e := dispatch msg src in
  match e with
  | Some errFutureMessage | Some errFutureUnitMessage => storeBacklog msg ;;; ret e
  | _ => ret e
  end.

Definition handleMsg (msg : Message) : M (option err) :=
  if IsMe msg then
    let! c := get in
    let! vs := get_valSet in
    if negb (is_validator vs (c_address c)) then ret (Some ErrUnauthorizedAddress)
    else handleCheckedMsg msg (c_address c)
  else
    let! r := verifyMsg msg in
    match r with
    | Err e => emit (EDisconnect msg) ;;; ret (Some e)
    | Ok src => handleCheckedMsg msg src
    end.

(** ** The event loop *)

(** The [NewChangeRound] case of [Handle]. *)
Definition handleTimeout (rv : RoundView) : M (option err) :=
  let! c := get in
  let! rs := get_current in
  if (rv_Sequence rv <? rs_sequence rs) || (rv_Round rv <? rs_round rs)
     || (roundchangeResetTime c >? DeadLine rv)
  then ret (Some errOldMessage)
  else
    let times := waitingTimes c + 1 in
    modify (set_waitingTimes times) ;;;
    if waitingForRoundChange c && (times mod 11 =? 0) then
      if rs_round rs =? 0 then
        if bool_decide (state c = StateAcceptRequest) then
          emit (EReBroadTx (chainAddress c)) ;;;
          if (ReBroadTx b (chainAddress c) <=? 0) && negb (existTx b (chainAddress c))
          then disabledChain ;;; ret None
          else sendCheckPendingTx ;;; sendNextRoundChange ;;; ret None
        else sendCheckPendingTx ;;; sendNextRoundChange ;;; ret None
      else sendNextRoundChange ;;; ret None
    else if waitingForRoundChange c && (times mod 29 =? 0) then
      let! rcs := get_roundChangeSet in
      match MaxRound rcs 1 with
      | Some max => sendRoundChange max ;;; ret None
      | None => sendNextRoundChange ;;; ret None
      end
    else if waitingForRoundChange c && (times mod 47 =? 0) then
      let! e := refreshValidtors None in
      match e with
      | None =>
          let! vs := get_valSet in
          modify (set_roundChangeSet (Some (newRoundChangeSet vs))) ;;;
          sendNextRoundChange ;;; ret None
      | Some _ => sendNextRoundChange ;;; ret e
      end
    else sendNextRoundChange ;;; ret None.

(** [Handle] below the priority queue. *)
Definition handleEvent (ev : event) : M (option err) :=
  let! c := get in
  match current c with
  | None => ret None
  | Some rs =>
      match ev with
      | NewNumber number _ =>
          if number <? u64 (rs_sequence rs) then ret None
          else startNewRound 0 ;;; refreshChainStatus ;;; ret None
      | NewProposal request => handleRequest request
      | NewMessage msg => handleMsg msg
      | NewChangeRound rv => handleTimeout rv
      | NewTx => when (negb (activated c)) refreshChainStatus ;;; ret None
      end
  end.

(** [Handle]: an event waiting in [priorChan] goes first; its own recursive
    call finds the queue empty. *)
Definition Handle (ev : event) : M (option err) :=
  let! c := get in
  if Address.Empty (chainAddress c) then ret None
  else
    match priorChan c with
    | None => handleEvent ev
    | Some prior => modify (set_priorChan None) ;;; handleEvent prior ;;; handleEvent ev
    end.

(** [PriorHandle]: a non-blocking send on a channel of capacity one. *)
Definition PriorHandle (ev : event) : M bool :=
  let! c := get in
  match priorChan c with
  | None => modify (set_priorChan (Some ev)) ;;; ret true
  | Some _ => ret false
  end.

Definition Start : M unit :=
  startNewRound 0 ;;;
  let! c := get in
  match current c with
  | Some _ => refreshChainStatus
  | None => disabledChain
  end.

Definition RollbackPackedTx (newUnit : Hash) : M unit :=
  let! c := get in
  match current c with
  | Some rs =>
      match pendingRequest rs with
      | Some r =>
          when (negb (newUnit =? unit_Hash (mining_Unit (req_Proposal r))))
            (emit (ERollback (mining_Unit (req_Proposal r))))
      | None => ret tt
      end
  | None => ret tt
  end.

End Handlers.
End Core.

Notation "'let!' x ':=' m 'in' k" := (bind m (fun x => k))
  (at level 10, x pattern, m at level 100, k at level 200).
Notation "m ';;;' k" := (bind m (fun _ => k)) (at level 60, right associativity).

End Core.
