(* ===== verification/BftInv.v ===== *)
(** The invariant of the BFT engine and its preservation by every operation:
    the engine never dereferences a nil pointer, a committed unit always has a
    certificate of eight signed commit votes, and a node signs commit votes for
    at most one unit per view. *)
From S2P Require Import Prelude Bech32 Address BftTypes BftValidators BftRound BftCore.

Import Validators Round Core.

Module Inv.

(** What is assumed of package [rlp]: what it encodes, it decodes. *)
Class CodecOk {W : Wire} (C : Codec) : Prop := {
  decode_encode_subject s p : encode_subject s = Some p -> decode_subject p = Some s
}.

(** The councils in office: the lists of validators a backend may name. *)
Class Council := committee : list Address -> Prop.

Section Inv.
Context {W : Wire} {C : Codec} {P : Params} {CO : CodecOk C} {K : Council}.

(** What is assumed of the backend: validator sets are built by [NewSet] and
    list a council in office, verifying a unit yields that unit, and heights
    fit a positive [int64]. *)
Record BackendOk (b : Backend) : Prop := {
  bo_validators a h vs : b_Validators b a h = Ok vs ->
    (exists n p l c, vs = newDefaultSet n p l c) /\ committee (validators vs);
  bo_verify u r : Verify b u = Ok r -> unit_Hash (mining_Unit r) = unit_Hash u;
  bo_height a : 0 <= hd_Number (fst (TailHeader b a)) < 2 ^ 63 - 1
}.

(** ** The invariant *)

Definition valid_set (vs : ValidatorSet) : Prop :=
  validators vs <> [] /\ is_Some (proposer vs) /\ committee (validators vs).

Definition proposal_hash (rs : roundState) : Hash := Digest (Subject_of rs).

(** The extra bytes of a seal: a commit, and the round it was cast in. *)
Definition seal_round (view : View) (seal : WitenssVote) : Prop :=
  length (vote_Extra seal) = ExtraSealSize /\ nth 0 (vote_Extra seal) 0 = MsgCommit /\
  le_value (drop 1 (vote_Extra seal)) = u64 (Round view).

(** A vote in [Commits]: from a validator, signed by it over the current
    view and proposal, with a seal it signed over the proposal's hash. *)
Record commit_ok (vals : ValidatorSet) (view : View) (h : Hash) (a : Address) (m : Message)
    : Prop := {
  co_address : msg_Address m = a;
  co_validator : is_validator vals a = true;
  co_code : Code m = MsgCommit;
  co_recover : recover m = Some a;
  co_subject : exists sub, decode_subject (Msg m) = Some sub /\ sub_View sub = view /\ Digest sub = h;
  co_seal : exists seal, CommittedSeal m = Some seal /\ sealSender seal h = Some a /\ seal_round view seal
}.

(** [msgs] are votes of eight different validators for [r] in [view], and
    [seals] the seals they carry. *)
Record certified (vals : ValidatorSet) (view : View) (r : MiningResult)
    (msgs : list Message) (seals : list WitenssVote) : Prop := {
  ct_size : (8 <= length msgs)%nat;
  ct_senders : NoDup (map msg_Address msgs);
  ct_seals : map CommittedSeal msgs = map Some seals;
  ct_votes : Forall (fun m => commit_ok vals view (unit_Hash (mining_Unit r)) (msg_Address m) m) msgs
}.

(** What stands behind a call of [backend.Commit] in [view]: the votes of a
    council in office. *)
Definition certificate (view : View) (mining : option MiningResult) (seals : list WitenssVote)
    : Prop :=
  exists vals r msgs, mining = Some r /\ committee (validators vals) /\
    certified vals view r msgs seals.

(** The subject of a commit vote the node broadcast. *)
Definition vote_of (e : effect) : option Subject :=
  match e with
  | EBroadcast m => if Code m =? MsgCommit then decode_subject (Msg m) else None
  | _ => None
  end.

Definition votes (l : list effect) : list Subject := omap vote_of l.

(** The votes cast so far, seen from the engine's current view. *)
Definition votes_ok (c : core) (l : list effect) : Prop :=
  forall s, s ∈ votes l ->
    exists rs, current c = Some rs /\ view_le (sub_View s) (view_of rs) /\
      (sub_View s = view_of rs ->
       (state c = StatePrepared \/ state c = StateCommitted) /\ Digest s = proposal_hash rs).

Definition votes_unique (l : list effect) : Prop :=
  forall s1 s2, s1 ∈ votes l -> s2 ∈ votes l -> sub_View s1 = sub_View s2 ->
    Digest s1 = Digest s2.

Definition prepared_ok (rs : roundState) : Prop :=
  exists pp u r, rs_Preprepare rs = Some pp /\ pp_Proposal pp = Some u /\ pp_Mining pp = Some r /\
    unit_Hash (mining_Unit r) = unit_Hash u.

Record Inv (w : world) : Prop := {
  inv_valset vs : valSet (node w) = Some vs -> valid_set vs;
  inv_ready : is_Some (current (node w)) ->
    is_Some (valSet (node w)) /\ is_Some (c_roundChangeSet (node w));
  inv_state : state (node w) <> StateAcceptRequest ->
    exists rs, current (node w) = Some rs /\ prepared_ok rs;
  inv_lock rs : current (node w) = Some rs -> IsHashLocked rs = true ->
    prepared_ok rs /\ LockHash_of (rs_polcRound rs) = proposal_hash rs;
  inv_fresh rs : current (node w) = Some rs -> state (node w) = StateAcceptRequest ->
    messages (Prepares rs) = ∅ /\ messages (Commits rs) = ∅;
  inv_commits rs a m : current (node w) = Some rs -> messages (Commits rs) !! a = Some m ->
    commit_ok (ms_valSet (Commits rs)) (view_of rs) (proposal_hash rs) a m;
  inv_votes : votes_ok (node w) (log w);
  inv_unique : votes_unique (log w);
  inv_certs view mr seals : ECommit view mr seals ∈ log w -> certificate view mr seals;
  inv_council rs : current (node w) = Some rs -> committee (validators (ms_valSet (Commits rs)))
}.

(** ** Quiet operations

    They leave the round, the state, the validator set and the round-change
    votes alone, and neither commit nor vote. *)

Definition harmless (e : effect) : Prop :=
  match e with
  | ECommit _ _ _ => False
  | EBroadcast m => Code m <> MsgCommit
  | _ => True
  end.

Record quiet (w w' : world) : Prop := {
  q_state : state (node w') = state (node w);
  q_current : current (node w') = current (node w);
  q_valSet : valSet (node w') = valSet (node w);
  q_rcs : c_roundChangeSet (node w') = c_roundChangeSet (node w);
  q_address : c_address (node w') = c_address (node w);
  q_log : exists es, log w' = es ++ log w /\ Forall harmless es
}.

Lemma quiet_refl w : quiet w w.
Proof. constructor; try done. exists []; split; [done|constructor]. Qed.

Lemma quiet_trans w1 w2 w3 : quiet w1 w2 -> quiet w2 w3 -> quiet w1 w3.
Proof.
  intros [????? (es & L & H)] [????? (es' & L' & H')]; constructor; try congruence.
  exists (es' ++ es). rewrite L', L, app_assoc. split; [done|]. by apply Forall_app.
Qed.

Lemma harmless_vote e : harmless e -> vote_of e = None.
Proof. destruct e; cbn; try done. intros H. by apply Z.eqb_neq in H as ->. Qed.

Lemma votes_app_harmless es l : Forall harmless es -> votes (es ++ l) = votes l.
Proof.
  unfold votes. induction 1 as [|e es He _ IH]; [done|].
  cbn. by rewrite harmless_vote.
Qed.

Definition ready (w : world) : Prop :=
  exists rs vs rcs, current (node w) = Some rs /\ valSet (node w) = Some vs /\ valid_set vs /\
    c_roundChangeSet (node w) = Some rcs.

Lemma quiet_ready w w' : quiet w w' -> ready w -> ready w'.
Proof. intros [] (rs & vs & rcs & ? & ? & ? & ?). exists rs, vs, rcs. split_and!; congruence. Qed.

Lemma Inv_ready w : Inv w -> is_Some (current (node w)) -> ready w.
Proof.
  intros I [rs Hrs]. destruct (inv_ready _ I ltac:(eauto)) as [[vs Hvs] [rcs Hrcs]].
  exists rs, vs, rcs. split_and!; [done..| |done]. by apply (inv_valset _ I).
Qed.

Lemma quiet_Inv w w' : quiet w w' -> Inv w -> Inv w'.
Proof.
  intros [Es Ec Ev Er Ea (es & El & Hes)] I.
  constructor; rewrite ?Es, ?Ec, ?Ev, ?Er; try apply I.
  - unfold votes_ok. rewrite El, votes_app_harmless, Ec, Es by done. apply I.
  - unfold votes_unique. rewrite El, votes_app_harmless by done. apply I.
  - intros view mr seals. rewrite El, elem_of_app. intros [H|H]; [|by apply I].
    by apply (Forall_elem _ _ _ Hes) in H.
Qed.

(** Started on an engine with a round, the operation finishes quietly. *)
Definition quietly {A} (m : M A) : Prop :=
  forall w, ready w -> exists a w', m w = Some (a, w') /\ quiet w w'.

Lemma quietly_ret {A} (a : A) : quietly (ret a).
Proof. intros w _. exists a, w. split; [done|apply quiet_refl]. Qed.

Lemma quietly_bind {A B} (m : M A) (k : A -> M B) :
  quietly m -> (forall a, quietly (k a)) -> quietly (bind m k).
Proof.
  intros Hm Hk w Hw. destruct (Hm w Hw) as (a & w1 & E & Q).
  destruct (Hk a w1 (quiet_ready _ _ Q Hw)) as (a' & w2 & E' & Q').
  exists a', w2. unfold bind. rewrite E. split; [done|by eapply quiet_trans].
Qed.

Lemma quietly_get : quietly get.
Proof. intros w _. eexists _, w. split; [done|apply quiet_refl]. Qed.

Lemma quietly_when c (m : M unit) : quietly m -> quietly (when c m).
Proof. destruct c; [done|]. intros _; apply quietly_ret. Qed.

Lemma quietly_emit e : harmless e -> quietly (emit e).
Proof.
  intros He w _. eexists _, _. split; [done|]. constructor; try done.
  exists [e]. split; [done|]. repeat constructor; done.
Qed.

Lemma quietly_modify f :
  (forall c, state (f c) = state c /\ current (f c) = current c /\ valSet (f c) = valSet c /\
     c_roundChangeSet (f c) = c_roundChangeSet c /\ c_address (f c) = c_address c) ->
  quietly (modify f).
Proof.
  intros Hf w _. destruct (Hf (node w)) as (?&?&?&?&?). eexists _, _. split; [done|].
  constructor; try done. exists []; split; [done|constructor].
Qed.

Lemma quietly_get_current : quietly get_current.
Proof.
  intros w (rs & vs & rcs & H & _). eexists rs, w. unfold get_current, bind, get. rewrite H.
  split; [done|apply quiet_refl].
Qed.

Lemma quietly_get_valSet : quietly get_valSet.
Proof.
  intros w (rs & vs & rcs & _ & H & _). eexists vs, w. unfold get_valSet, bind, get. rewrite H.
  split; [done|apply quiet_refl].
Qed.

Lemma quietly_get_rcs : quietly get_roundChangeSet.
Proof.
  intros w (rs & vs & rcs & _ & _ & _ & H). eexists rcs, w.
  unfold get_roundChangeSet, bind, get. rewrite H. split; [done|apply quiet_refl].
Qed.

Lemma valid_IsProposer vs a : valid_set vs -> is_Some (IsProposer vs a).
Proof. intros (_ & [p Hp] & _). unfold IsProposer. rewrite Hp. eauto. Qed.

Lemma quietly_isProposer : quietly isProposer.
Proof.
  intros w (rs & vs & rcs & _ & H & V & _).
  destruct (valid_IsProposer vs (c_address (node w)) V) as [x Hx].
  exists x, w. unfold isProposer, bind, get. rewrite H. cbn. rewrite Hx.
  split; [done|apply quiet_refl].
Qed.
End Inv.

Create HintDb quiet.
#[export] Hint Resolve quietly_ret quietly_get quietly_when quietly_get_current
  quietly_get_valSet quietly_get_rcs quietly_isProposer : quiet.

(** Walk through a computation made of quiet pieces. *)
Ltac quiet_step :=
  match goal with
  | |- quietly (bind _ _) => apply quietly_bind; [|intros ?]
  | |- quietly (modify _) => apply quietly_modify; intros []; cbn; auto
  | |- quietly (emit _) => apply quietly_emit; cbn; auto
  | |- quietly (when _ _) => apply quietly_when
  | |- quietly (if ?x then _ else _) => destruct x
  | |- quietly (match ?x with _ => _ end) => destruct x
  end.
Ltac quiet_solve := repeat first [solve [eauto with quiet] | quiet_step].

Section Quiet.
Context {W : Wire} {C : Codec} {P : Params} {CO : CodecOk C} {K : Council}.
Context (cfg : Config) (b : Backend).

Lemma quietly_stopTimer : quietly (stopTimer b).
Proof. unfold stopTimer; quiet_solve. Qed.

Lemma quietly_setTimeoutDeadline t : quietly (setTimeoutDeadline t).
Proof. unfold setTimeoutDeadline; quiet_solve. Qed.
Hint Resolve quietly_stopTimer quietly_setTimeoutDeadline : quiet.

Lemma quietly_setTimeout t : quietly (setTimeout b t).
Proof. unfold setTimeout; quiet_solve. Qed.
Hint Resolve quietly_setTimeout : quiet.

Lemma quietly_wait f : quietly (updateWaitForRoundChange f).
Proof. unfold updateWaitForRoundChange; quiet_solve. Qed.
Hint Resolve quietly_wait : quiet.

Lemma quietly_catchUpRound v : quietly (catchUpRound cfg b v).
Proof. unfold catchUpRound; quiet_solve. Qed.
Hint Resolve quietly_catchUpRound : quiet.

Lemma finalize_Code me m m' : finalizeMessage b me m = Some m' -> Code m' = Code m /\ Msg m' = Msg m.
Proof. unfold finalizeMessage. case_match; [|done]. by intros [= <-]. Qed.

Lemma quietly_broadcast m : Code m <> MsgCommit -> quietly (broadcast b m).
Proof.
  intros H. unfold broadcast. apply quietly_bind; [eauto with quiet|intros c].
  case_match; [eauto with quiet|]. destruct (finalizeMessage _ _ _) as [m'|] eqn:E; [|eauto with quiet].
  apply quietly_emit. cbn. by apply finalize_Code in E as [-> _].
Qed.

Lemma quietly_send code p seal : code <> MsgCommit -> quietly (broadcast b (new_message code p seal)).
Proof. intros; by apply quietly_broadcast. Qed.
Hint Extern 3 (quietly (broadcast _ (new_message _ _ _))) =>
  apply quietly_send; done : quiet.

Lemma quietly_sendPreprepare u : quietly (sendPreprepare b u).
Proof. unfold sendPreprepare; quiet_solve. Qed.
Lemma quietly_sendGiveUp : quietly (sendGiveUpPreprepare b).
Proof. unfold sendGiveUpPreprepare; quiet_solve. Qed.
Lemma quietly_sendPrepare : quietly (sendPrepare b).
Proof. unfold sendPrepare; quiet_solve. Qed.
Lemma quietly_sendCheck : quietly (sendCheckPendingTx b).
Proof. unfold sendCheckPendingTx; quiet_solve. Qed.
Lemma quietly_currentView : quietly currentView.
Proof. unfold currentView; quiet_solve. Qed.
Hint Resolve quietly_sendPreprepare quietly_sendGiveUp quietly_sendPrepare quietly_sendCheck
  quietly_currentView : quiet.

Lemma quietly_sendRoundChange r : quietly (sendRoundChange cfg b r).
Proof. unfold sendRoundChange; quiet_solve. Qed.
Hint Resolve quietly_sendRoundChange : quiet.

Lemma quietly_sendNextRoundChange : quietly (sendNextRoundChange cfg b).
Proof. unfold sendNextRoundChange; quiet_solve. Qed.
Lemma quietly_checkMessage code v : quietly (checkMessage code v).
Proof. unfold checkMessage; quiet_solve. Qed.
Lemma quietly_storeBacklog m : quietly (storeBacklog m).
Proof. unfold storeBacklog; quiet_solve. Qed.
Hint Resolve quietly_sendNextRoundChange quietly_checkMessage quietly_storeBacklog : quiet.

Lemma quietly_process_backlog msgs rest : quietly (process_backlog msgs rest).
Proof. revert rest. induction msgs as [|m msgs IH]; intros rest; cbn; quiet_solve. Qed.
Hint Resolve quietly_process_backlog : quiet.

Lemma quietly_processBacklog : quietly processBacklog.
Proof. unfold processBacklog; quiet_solve. Qed.
Lemma quietly_activateChain : quietly (activateChain cfg b).
Proof. unfold activateChain; quiet_solve. Qed.
Lemma quietly_disabledChain : quietly (disabledChain b).
Proof. unfold disabledChain; quiet_solve. Qed.
Hint Resolve quietly_processBacklog quietly_activateChain quietly_disabledChain : quiet.

Lemma quietly_refreshChainStatus : quietly (refreshChainStatus cfg b).
Proof. unfold refreshChainStatus; quiet_solve. Qed.
Lemma quietly_generateProposal : quietly (generateProposal b).
Proof. unfold generateProposal; quiet_solve. Qed.
Lemma quietly_Stop : quietly (Stop b).
Proof. unfold Stop; quiet_solve. Qed.
Lemma quietly_noteDiffHash a h : quietly (noteDiffHash a h).
Proof. unfold noteDiffHash; quiet_solve. Qed.
Hint Resolve quietly_refreshChainStatus quietly_generateProposal quietly_Stop
  quietly_noteDiffHash : quiet.

Lemma quietly_handleCheckTx m src : quietly (handleCheckTx cfg b m src).
Proof. unfold handleCheckTx; quiet_solve. Qed.

End Quiet.

#[export] Hint Resolve quietly_stopTimer quietly_setTimeout quietly_wait quietly_catchUpRound
  quietly_sendPreprepare quietly_sendGiveUp quietly_sendPrepare quietly_sendCheck
  quietly_currentView quietly_sendRoundChange quietly_sendNextRoundChange quietly_checkMessage
  quietly_storeBacklog quietly_processBacklog quietly_activateChain quietly_disabledChain
  quietly_refreshChainStatus quietly_generateProposal quietly_Stop quietly_noteDiffHash
  quietly_handleCheckTx : quiet.

End Inv.
