(* ===== verification/BftPreserve.v ===== *)
(** Every operation of the BFT engine keeps the invariant of [BftInv] and
    finishes without a panic. *)
From S2P Require Import Prelude Bech32 Address BftTypes BftValidators BftRound BftCore BftInv.

Import Validators Round Core Inv.

Module Preserve.

Section Preserve.
Context {W : Wire} {C : Codec} {P : Params} {CO : CodecOk C} {K : Council}.

(** From any state satisfying the invariant, the operation finishes in one. *)
Definition keeps {A} (m : M A) : Prop :=
  forall w, Inv w -> ready w -> exists a w', m w = Some (a, w') /\ Inv w' /\ ready w'.

Lemma keeps_quietly {A} (m : M A) : quietly m -> keeps m.
Proof.
  intros Hm w I R. destruct (Hm w R) as (a & w' & E & Q). exists a, w'.
  split_and!; [done|by eapply quiet_Inv|by eapply quiet_ready].
Qed.

Lemma keeps_bind {A B} (m : M A) (k : A -> M B) :
  keeps m -> (forall a, keeps (k a)) -> keeps (bind m k).
Proof.
  intros Hm Hk w I R. destruct (Hm w I R) as (a & w1 & E & I1 & R1).
  destruct (Hk a w1 I1 R1) as (a' & w2 & E' & I2 & R2).
  exists a', w2. unfold bind. by rewrite E.
Qed.

(** The test a computation about to run starts with. *)
Ltac branch_as H :=
  match goal with
  | |- exists _ _, (match ?x with _ => _ end) _ = _ /\ _ => destruct x eqn:H
  end.
Ltac branch := let H := fresh in branch_as H.

Lemma keeps_ret {A} (a : A) : keeps (ret a).
Proof. apply keeps_quietly, quietly_ret. Qed.

Lemma bind_Some {A B} (m : M A) (k : A -> M B) w a w' :
  m w = Some (a, w') -> bind m k w = k a w'.
Proof. unfold bind. by intros ->. Qed.

Lemma bind_get {B} (k : core -> M B) w : bind get k w = k (node w) w.
Proof. done. Qed.
Lemma bind_ret {A B} (a : A) (k : A -> M B) w : bind (ret a) k w = k a w.
Proof. done. Qed.
Lemma bind_modify {B} f (k : unit -> M B) w :
  bind (modify f) k w = k tt (mkWorld (f (node w)) (log w)).
Proof. done. Qed.
Lemma bind_emit {B} e (k : unit -> M B) w :
  bind (emit e) k w = k tt (mkWorld (node w) (e :: log w)).
Proof. done. Qed.
Lemma bind_assoc {A B D} (m : M A) (f : A -> M B) (g : B -> M D) w :
  bind (bind m f) g w = bind m (fun a => bind (f a) g) w.
Proof. unfold bind. by destruct (m w) as [[]|]. Qed.

(** Sequencing with the result of a quiet first step in hand. *)
Lemma keeps_quiet_bind {A B} (m : M A) (k : A -> M B) w :
  quietly m -> Inv w -> ready w ->
  (forall a w', m w = Some (a, w') -> quiet w w' -> Inv w' -> ready w' ->
     exists a' w'', k a w' = Some (a', w'') /\ Inv w'' /\ ready w'') ->
  exists a' w'', bind m k w = Some (a', w'') /\ Inv w'' /\ ready w''.
Proof.
  intros Hm I R Hk. destruct (Hm w R) as (a & w1 & E & Q).
  rewrite (bind_Some _ _ _ _ _ E).
  apply Hk; [done|done|by eapply quiet_Inv|by eapply quiet_ready].
Qed.

Lemma get_current_Some w rs : current (node w) = Some rs -> get_current w = Some (rs, w).
Proof. intros H. unfold get_current, bind, get. by rewrite H. Qed.

Lemma get_valSet_Some w vs : valSet (node w) = Some vs -> get_valSet w = Some (vs, w).
Proof. intros H. unfold get_valSet, bind, get. by rewrite H. Qed.

(** ** State changes *)

Definition with_state (st : State) (w : world) : world := mkWorld (set_state st (node w)) (log w).
Definition with_current (rs : roundState) (w : world) : world :=
  mkWorld (set_current (Some rs) (node w)) (log w).

Lemma quiet_with_state st w w' : quiet w w' -> quiet (with_state st w) (with_state st w').
Proof. by intros []. Qed.

Lemma ready_with_state st w : ready w -> ready (with_state st w).
Proof. done. Qed.

Lemma ready_with_current rs w : ready w -> ready (with_current rs w).
Proof. intros (? & vs & rcs & ? & ? & ? & ?). by exists rs, vs, rcs. Qed.

Lemma setState_spec cfg b st w :
  ready w -> exists w', setState cfg b st w = Some (tt, w') /\ quiet (with_state st w) w'.
Proof.
  intros R. unfold setState. rewrite bind_get.
  case_bool_decide as Hst.
  - exists w. split; [done|]. constructor; cbn; try done.
    exists []; split; [done|constructor].
  - set (x := _ && _).
    destruct (quietly_when x (activateChain cfg b) ltac:(eauto with quiet) w R)
      as ([] & w1 & E1 & Q1).
    rewrite (bind_Some _ _ _ _ _ E1), bind_modify.
    fold (with_state st w1).
    pose proof (quiet_ready _ _ Q1 R) as R1.
    destruct (quietly_processBacklog (with_state st w1) (ready_with_state st _ R1))
      as ([] & w2 & E2 & Q2).
    exists w2. split; [done|]. eapply quiet_trans; [|done]. by apply quiet_with_state.
Qed.

Lemma Inv_raise st w :
  Inv w -> state (node w) <> StateAcceptRequest ->
  st = StatePrepared \/ st = StateCommitted -> Inv (with_state st w).
Proof.
  intros I Hs Hst. constructor; cbn; try apply I.
  - intros _. by apply I.
  - intros rs Hc ->. destruct Hst; done.
  - intros s Hin. destruct (inv_votes _ I s Hin) as (rs & Hc & Hle & Hd).
    exists rs. split_and!; [done..|]. intros E. split; [done|]. by apply Hd.
Qed.

(** Accepting a verified proposal in the first state of a round. *)
Lemma Inv_accept st pp u r rs w :
  Inv w -> current (node w) = Some rs -> state (node w) = StateAcceptRequest ->
  pp_Proposal pp = Some u -> pp_Mining pp = Some r ->
  unit_Hash (mining_Unit r) = unit_Hash u ->
  (IsHashLocked rs = true -> LockHash_of (rs_polcRound rs) = unit_Hash u) ->
  st <> StateAcceptRequest ->
  Inv (with_state st (with_current (SetPreprepare rs pp) w)).
Proof.
  intros I Hc Hs Hu Hr Hh Hlock Hst.
  assert (prepared_ok (SetPreprepare rs pp)) as Hp by (exists pp, u, r; done).
  assert (proposal_hash (SetPreprepare rs pp) = unit_Hash u) as Hph.
  { unfold proposal_hash, Subject_of, Proposal; cbn. by rewrite Hu. }
  destruct (inv_fresh _ I rs Hc Hs) as [HP HC].
  constructor; cbn; try apply I.
  - intros _. apply (inv_ready _ I). by rewrite Hc.
  - intros _. by eexists.
  - intros rs' [= <-] HL. split; [done|]. etrans; [by apply Hlock|by rewrite <- Hph].
  - intros rs' [= <-] E. done.
  - intros rs' a m [= <-]. cbn. by rewrite HC, lookup_empty.
  - intros s Hin. destruct (inv_votes _ I s Hin) as (rs' & Hc' & Hle & Hd).
    rewrite Hc in Hc'. injection Hc' as <-. exists (SetPreprepare rs pp). split_and!; [done..|].
    intros E. destruct (Hd E) as [[?|?] _]; congruence.
  - intros ? [= <-]. exact (inv_council _ I rs Hc).
Qed.

(** ** Casting a commit vote *)

Lemma votes_cons_harmless e l : harmless e -> votes (e :: l) = votes l.
Proof. intros H. unfold votes. cbn. by rewrite harmless_vote. Qed.

Lemma Inv_vote w rs m s :
  Inv w -> current (node w) = Some rs ->
  state (node w) = StatePrepared \/ state (node w) = StateCommitted ->
  vote_of (EBroadcast m) = Some s -> sub_View s = view_of rs -> Digest s = proposal_hash rs ->
  Inv (mkWorld (node w) (EBroadcast m :: log w)).
Proof.
  intros I Hc Hst Hv HV HD.
  assert (votes (EBroadcast m :: log w) = s :: votes (log w)) as Evotes.
  { unfold votes. cbn -[vote_of]. by rewrite Hv. }
  assert (forall s', s' ∈ votes (log w) -> sub_View s' = view_of rs -> Digest s' = proposal_hash rs)
    as Hold.
  { intros s' Hin E. destruct (inv_votes _ I s' Hin) as (rs' & Hc' & _ & Hd).
    rewrite Hc in Hc'. injection Hc' as <-. by apply Hd. }
  constructor; cbn; try apply I.
  - intros s'. cbn -[votes]. rewrite Evotes, elem_of_cons. intros [->|Hin].
    + exists rs. split_and!; [done|by right|done].
    + by apply (inv_votes _ I).
  - intros s1 s2. rewrite Evotes, !elem_of_cons. intros [->|H1] [->|H2] E; [done|..].
    + rewrite HD. symmetry. apply Hold; [done|]. by rewrite <- E.
    + rewrite HD. apply Hold; [done|]. by rewrite E.
    + by apply (inv_unique _ I).
  - intros view mr seals. rewrite elem_of_cons. intros [?|?]; [done|]. by apply I.
Qed.

Lemma sendCommit_spec b w rs u :
  Inv w -> ready w -> current (node w) = Some rs -> Proposal rs = Some u ->
  state (node w) = StatePrepared \/ state (node w) = StateCommitted ->
  exists w', sendCommit b w = Some (tt, w') /\ Inv w' /\ ready w'.
Proof.
  intros I R Hc Hp Hst. unfold sendCommit.
  rewrite (bind_Some _ _ _ _ _ (get_current_Some _ _ Hc)). rewrite Hp; cbn [deref]; rewrite bind_ret.
  unfold broadcastCommit.
  destruct (encode_subject (Subject_of rs)) as [p|] eqn:Ep; [|by eexists].
  destruct (SignVote b _ _) as [sg|]; [|by eexists].
  unfold broadcast. rewrite bind_get; cbn.
  destruct (finalizeMessage b _ _) as [m|] eqn:Em; [|by eexists].
  eexists; split; [done|]. split; [|done].
  apply finalize_Code in Em as [EC EM]. cbn in EC, EM.
  eapply Inv_vote with (s := Subject_of rs); [done..| | |done].
  - cbn. rewrite EC, EM, Z.eqb_refl. by apply decode_encode_subject.
  - done.
Qed.

(** [LockHash] on the round in progress. *)
Lemma lockCurrent_spec w rs :
  Inv w -> ready w -> current (node w) = Some rs -> state (node w) <> StateAcceptRequest ->
  exists rs' w', lockCurrent w = Some (tt, w') /\ Inv w' /\ ready w' /\
    node w' = set_current (Some rs') (node w) /\ log w' = log w /\
    Proposal rs' = Proposal rs /\ Commits rs' = Commits rs /\ Prepares rs' = Prepares rs /\
    view_of rs' = view_of rs.
Proof.
  intros I R Hc Hs. destruct (inv_state _ I Hs) as (rs0 & Hc0 & Hp).
  rewrite Hc in Hc0; injection Hc0 as <-.
  destruct Hp as (pp & u & r & Hpp & Hu & Hr & Hh).
  unfold lockCurrent. rewrite (bind_Some _ _ _ _ _ (get_current_Some _ _ Hc)).
  unfold LockHash. rewrite Hpp, Hu; cbn [deref]; rewrite bind_ret.
  set (rs' := set_polc rs _). exists rs', (with_current rs' w). split; [done|].
  split_and!; try done; [|by apply ready_with_current].
  assert (prepared_ok rs') as Hp' by (exists pp, u, r; split_and!; assumption).
  constructor; cbn; try apply I.
  - intros _. apply (inv_ready _ I). by rewrite Hc.
  - intros _. by eexists.
  - intros ? [= <-] _. split; [done|]. cbn. unfold proposal_hash, Subject_of, Proposal; cbn.
    by rewrite Hpp, Hu.
  - intros ? [= <-]. exact (inv_fresh _ I rs Hc).
  - intros ? a m [= <-]. exact (inv_commits _ I rs a m Hc).
  - intros s Hin. destruct (inv_votes _ I s Hin) as (rs1 & Hc1 & ? & ?).
    rewrite Hc in Hc1; injection Hc1 as <-. by exists rs'.
  - intros ? [= <-]. exact (inv_council _ I rs Hc).
Qed.

(** ** Entering a round *)

Lemma Inv_enter w c' rs' :
  Inv w -> current c' = Some rs' -> state c' = StateAcceptRequest ->
  (exists vs, valSet c' = Some vs /\ valid_set vs) -> is_Some (c_roundChangeSet c') ->
  messages (Prepares rs') = ∅ -> messages (Commits rs') = ∅ ->
  committee (validators (ms_valSet (Commits rs'))) ->
  (IsHashLocked rs' = true -> prepared_ok rs' /\ LockHash_of (rs_polcRound rs') = proposal_hash rs') ->
  (forall rs, current (node w) = Some rs -> view_lt (view_of rs) (view_of rs')) ->
  Inv (mkWorld c' (log w)).
Proof.
  intros I Hc Hs (vs & Hvs & V) Hrcs HP HC HK HL Hlt. constructor; cbn; rewrite ?Hc, ?Hs, ?Hvs.
  - by intros ? [= <-].
  - eauto.
  - done.
  - by intros ? [= <-].
  - by intros ? [= <-] _.
  - intros ? a m [= <-]. by rewrite HC, lookup_empty.
  - intros s Hin. destruct (inv_votes _ I s Hin) as (rs & Hcr & Hle & _).
    exists rs'. split; [done|]. pose proof (view_le_lt_trans _ _ _ Hle (Hlt _ Hcr)) as Hl.
    split; [by left|]. intros E. rewrite E in Hl. by apply view_lt_irrefl in Hl.
  - apply I.
  - apply I.
  - by intros ? [= <-].
Qed.

Lemma nextRoundProposer_Some vals p r h :
  vals <> [] -> exists v, nextRoundProposer vals p r h = Some v /\ v ∈ vals.
Proof.
  intros Hne. unfold nextRoundProposer.
  match goal with |- context [?x mod _] => set (seed := x) end.
  assert (0 < Z.of_nat (length vals)) by (destruct vals; cbn; [done|lia]).
  pose proof (Z.mod_pos_bound seed (Z.of_nat (length vals)) ltac:(lia)).
  destruct (lookup_lt_is_Some_2 vals (Z.to_nat (seed mod Z.of_nat (length vals)))) as [v Hv]; [lia|].
  exists v. split; [done|]. by eapply list_elem_of_lookup_2.
Qed.

Lemma CalcProposer_Some vs p r :
  valid_set vs -> exists vs', CalcProposer vs p r = Some vs' /\ valid_set vs' /\
    validators vs' = validators vs /\ chain vs' = chain vs.
Proof.
  intros (Hne & _ & HK). unfold CalcProposer.
  destruct (nextRoundProposer_Some (validators vs) p r (u64 (height vs + solt vs)) Hne) as (v & -> & _).
  eexists. split_and!; [done| |done|done]. split_and!; cbn; eauto.
Qed.

Lemma quiet_eq_Inv c c' l :
  state c' = state c -> current c' = current c -> valSet c' = valSet c ->
  c_roundChangeSet c' = c_roundChangeSet c -> c_address c' = c_address c ->
  Inv (mkWorld c l) -> Inv (mkWorld c' l).
Proof.
  intros. eapply quiet_Inv; [|done]. constructor; try done.
  exists []; split; [done|constructor].
Qed.

Lemma keeps_checkDeadLock : keeps checkDeadLock.
Proof.
  intros w I R. unfold checkDeadLock. rewrite bind_get.
  destruct (lockHashes (node w)) as [hashes|]; [|by apply keeps_ret].
  destruct R as (rs & vs & rcs & Hc & Hv & V & Hr).
  assert (ready w) as R by (by exists rs, vs, rcs).
  rewrite (bind_Some _ _ _ _ _ (get_current_Some _ _ Hc)).
  branch; [by apply keeps_ret|].
  rewrite (bind_Some _ _ _ _ _ (get_valSet_Some _ _ Hv)).
  branch; [|by apply keeps_ret]. branch; [|by apply keeps_ret].
  unfold put_current, bind, modify. cbn. eexists _, _. split; [done|]. split.
  - apply (quiet_eq_Inv (set_current (Some (UnlockHash rs)) (node w))); try done.
    constructor; cbn; try apply I.
    + intros _. apply (inv_ready _ I). by rewrite Hc.
    + intros Hs. destruct (inv_state _ I Hs) as (rs0 & Hc0 & Hp).
      rewrite Hc in Hc0; injection Hc0 as <-. by exists (UnlockHash rs).
    + by intros ? [= <-].
    + intros ? [= <-]. exact (inv_fresh _ I rs Hc).
    + intros ? a m [= <-]. exact (inv_commits _ I rs a m Hc).
    + intros s Hin. destruct (inv_votes _ I s Hin) as (rs1 & Hc1 & ? & ?).
      rewrite Hc in Hc1; injection Hc1 as <-. by exists (UnlockHash rs).
    + intros ? [= <-]. exact (inv_council _ I rs Hc).
  - exists (UnlockHash rs), vs, rcs. done.
Qed.

Definition ends {A} (m : M A) (w : world) : Prop :=
  exists a w', m w = Some (a, w') /\ Inv w' /\ ready w'.

Lemma ends_quietly {A} (m : M A) w : quietly m -> Inv w -> ready w -> ends m w.
Proof. intros H. by apply keeps_quietly. Qed.

Lemma ends_bind {A B} (m : M A) (k : A -> M B) w :
  ends m w -> (forall a w', Inv w' -> ready w' -> ends (k a) w') -> ends (bind m k) w.
Proof.
  intros (a & w' & E & I & R) Hk. unfold ends. rewrite (bind_Some _ _ _ _ _ E). by apply Hk.
Qed.

Lemma ends_run {A B} (m : M A) (k : A -> M B) w a w' :
  m w = Some (a, w') -> ends (k a) w' -> ends (bind m k) w.
Proof. intros E. unfold ends. by rewrite (bind_Some _ _ _ _ _ E). Qed.

Lemma keeps_get_current {B} (k : roundState -> M B) :
  (forall w rs, Inv w -> ready w -> current (node w) = Some rs -> ends (k rs) w) ->
  keeps (bind get_current k).
Proof.
  intros H w I R. destruct R as (rs & R'). destruct R' as (vs & rcs & Hc & R').
  apply (ends_run _ _ _ _ _ (get_current_Some _ _ Hc)). apply H; [done| |done].
  exists rs, vs, rcs. by split.
Qed.

Lemma keeps_when x (m : M unit) : keeps m -> keeps (when x m).
Proof. destruct x; [done|]. intros _. apply keeps_ret. Qed.

Section Handlers.
Context (cfg : Config) (b : Backend) (Hb : BackendOk b).

Lemma Stop_quiet w : exists w', Stop b w = Some (tt, w') /\ quiet w w'.
Proof.
  unfold Stop, stopTimer, bind, get, modify, emit. cbn.
  destruct (current (node w)) as [rs|] eqn:Hc; [destruct (pendingRequest rs)|];
    eexists; (split; [done|]); constructor; try done; eexists; (split; [|shelve]); cbn.
  - by instantiate (1 := [_; _]).
  - by instantiate (1 := [_]).
  - by instantiate (1 := [_]).
  Unshelve. all: repeat constructor.
Qed.

Lemma Inv_valSet vs w :
  Inv w -> valid_set vs -> Inv (mkWorld (set_valSet (Some vs) (node w)) (log w)).
Proof.
  intros I V. constructor; cbn; try apply I.
  - by intros ? [= <-].
  - intros H. split; [eauto|]. by apply I.
Qed.

Lemma valid_newDefaultSet n p l c :
  Size (newDefaultSet n p l c) =? 0 = false -> committee (validators (newDefaultSet n p l c)) ->
  valid_set (newDefaultSet n p l c).
Proof.
  unfold Size, valid_set, newDefaultSet; cbn. destruct (ValidatorsSort l); cbn; [done|eauto].
Qed.

Lemma refreshValidtors_spec last w :
  Inv w -> exists e w', refreshValidtors b last w = Some (e, w') /\ Inv w' /\
    current (node w') = current (node w) /\ (ready w -> ready w') /\
    (e = None -> exists vs, valSet (node w') = Some vs /\ valid_set vs).
Proof.
  intros I. unfold refreshValidtors. rewrite bind_get.
  destruct (Address.Empty _); [by eexists _, w|].
  destruct (b_Validators b _ last) as [vals|e] eqn:Ev; [|by eexists _, w].
  destruct (bo_validators b Hb _ _ _ Ev) as ((n & p & l & c & ->) & HK).
  destruct (Size _ =? 0) eqn:Hz.
  - destruct (Stop_quiet w) as (w' & E & Q). rewrite (bind_Some _ _ _ _ _ E).
    eexists _, w'. split_and!; [done|by eapply quiet_Inv|by apply Q| |done].
    by apply quiet_ready.
  - destruct (negb _); [by eexists _, w|]. pose proof (valid_newDefaultSet _ _ _ _ Hz HK) as V.
    rewrite bind_modify. eexists _, _. split_and!; [done|by apply Inv_valSet|done|..].
    + intros (rs & vs & rcs & ? & ? & ? & ?). by eexists rs, _, rcs.
    + intros _. by eexists.
Qed.

Lemma updateRoundState_spec nv vs rc round w w1 :
  Inv w -> current (node w1) = current (node w) ->
  (rc = false /\ round = 0) \/ (rc = true /\ is_Some (current (node w))) ->
  exists rs', updateRoundState nv vs rc round w1 = Some (tt, with_current rs' w1) /\
    view_of rs' = nv /\ messages (Prepares rs') = ∅ /\ messages (Commits rs') = ∅ /\
    ms_valSet (Commits rs') = vs /\
    (IsHashLocked rs' = true ->
       prepared_ok rs' /\ LockHash_of (rs_polcRound rs') = proposal_hash rs').
Proof.
  intros I E [[-> ->]|[-> [rs Hc]]]; unfold updateRoundState; rewrite bind_get.
  - eexists. by destruct nv, (current (node w1)).
  - rewrite E, Hc. destruct (IsHashLocked rs) eqn:HL; eexists; destruct nv; [|done].
    split_and!; try done. intros _. by destruct (inv_lock _ I rs Hc HL).
Qed.

Lemma keeps_propose :
  keeps (let! rs := get_current in
         if IsHashLocked rs then
           let! p := deref (Proposal rs) in sendPreprepare b p
         else
           match pendingRequest rs with
           | Some r => sendPreprepare b (mining_Unit (req_Proposal r))
           | None =>
               let! e := generateProposal b in
               match e with
               | None => ret tt
               | Some _ => sendGiveUpPreprepare b
               end
           end).
Proof using CO.
  apply keeps_get_current. intros w rs I R Hc. destruct (IsHashLocked rs) eqn:HL.
  - destruct (inv_lock _ I rs Hc HL) as [(pp & u & r & Hpp & Hu & _) _].
    unfold Proposal. rewrite Hpp, Hu. apply (ends_run _ _ _ u w eq_refl).
    apply ends_quietly; [|done..]. quiet_solve.
  - apply ends_quietly; [|done..]. quiet_solve.
Qed.

Lemma enterRound_spec w nv rc round lp vs :
  Inv w -> valSet (node w) = Some vs -> valid_set vs ->
  (rc = false /\ round = 0) \/ (rc = true /\ is_Some (current (node w))) ->
  (forall rs, current (node w) = Some rs -> view_lt (view_of rs) nv) ->
  ends (enterRound cfg b nv rc round lp) w.
Proof using CO.
  intros I Hv V Hrc Hlt. unfold enterRound.
  apply (ends_run _ _ _ _ _ (get_valSet_Some _ _ Hv)).
  apply (ends_run _ _ _ _ _ eq_refl).
  set (w1 := mkWorld _ _).
  destruct (updateRoundState_spec nv vs rc round w w1 I eq_refl Hrc)
    as (rs' & E & Hview & HP & HC & HS & HL).
  apply (ends_run _ _ _ _ _ E). clear E.
  destruct (CalcProposer_Some vs lp (u64 (Round nv)) V) as (vs' & E & V' & _).
  rewrite E; cbn [deref]. apply (ends_run _ _ _ vs' _ eq_refl). clear E.
  do 3 apply (ends_run _ _ _ _ _ eq_refl). set (w2 := mkWorld _ _).
  assert (ready w2) as R2 by (eexists _, _, _; split_and!; [done..| |done]; done).
  destruct (setState_spec cfg b StateAcceptRequest w2 R2) as (w3 & E & Q).
  apply (ends_run _ _ _ _ _ E). clear E.
  assert (Inv w3) as I3.
  { eapply quiet_Inv; [done|]. apply (Inv_enter w _ rs'); cbn; try done; [by exists vs'|rewrite HS; apply V|].
    intros rs Hc. rewrite Hview. by apply Hlt. }
  assert (ready w3) as R3 by (eapply quiet_ready; done).
  revert I3 R3. generalize w3 as w'. clear - CO.
  change (keeps (let! isPro := isProposer in let! c := get in
    when (rc && isPro && bool_decide (is_Some (current c)))
      (let! rs := get_current in
       if IsHashLocked rs then
         let! p := deref (Proposal rs) in sendPreprepare b p
       else
         match pendingRequest rs with
         | Some r => sendPreprepare b (mining_Unit (req_Proposal r))
         | None =>
             let! e := generateProposal b in
             match e with
             | None => ret tt
             | Some _ => sendGiveUpPreprepare b
             end
         end) ;;;
    if rc then checkDeadLock ;;; setTimeout b (RequestTimeout cfg)
    else modify (set_lockHashes None) ;;; stopTimer b)).
  apply keeps_bind; [apply keeps_quietly; quiet_solve|intros isPro].
  apply keeps_bind; [apply keeps_quietly; quiet_solve|intros c].
  apply keeps_bind; [apply keeps_when, keeps_propose|intros _].
  destruct rc; [|apply keeps_quietly; quiet_solve].
  apply keeps_bind; [apply keeps_checkDeadLock|intros _]. apply keeps_quietly; quiet_solve.
Qed.

(** A new sequence: from any state, and an engine with a round keeps one. *)
Lemma startNewSequence_spec w :
  Inv w -> exists w', startNewSequence cfg b w = Some (tt, w') /\ Inv w' /\ (ready w -> ready w').
Proof using CO Hb.
  intros I. unfold startNewSequence. rewrite bind_get.
  pose proof (bo_height b Hb (chainAddress (node w))) as Hh.
  destruct (TailHeader b _) as [last lp]; cbn [fst] in Hh.
  set (stale := match _ with Some _ => _ | None => _ end). destruct stale eqn:Hstale; subst stale.
  { by exists w. }
  destruct (refreshValidtors_spec (Some last) w I) as (e & w1 & E & I1 & Ec & R1 & Hvs).
  rewrite (bind_Some _ _ _ _ _ E). destruct e as [e|]; [by exists w1|].
  destruct (Hvs eq_refl) as (vs & Hv & V).
  assert (i64 (hd_Number last) = hd_Number last) as E1 by (apply i64_small; lia).
  assert (i64 (hd_Number last + 1) = hd_Number last + 1) as E2 by (apply i64_small; lia).
  rewrite E1 in *. rewrite E2.
  destruct (enterRound_spec w1 (mkView 0 (hd_Number last + 1)) false 0 lp vs I1 Hv V)
    as ([] & w2 & E3 & I2 & R2); [by left| |by exists w2].
  intros rs Hc. rewrite Ec in Hc. rewrite Hc in Hstale. apply Z.ltb_ge in Hstale.
  apply view_lt_spec; cbn. lia.
Qed.

Lemma keeps_startNewRound round : keeps (startNewRound cfg b round).
Proof using CO Hb.
  intros w I R. unfold startNewRound. destruct (round =? 0).
  { destruct (startNewSequence_spec w I) as (w' & E & I' & R'). exists tt, w'. auto. }
  rewrite bind_get. destruct (TailHeader _ _) as [last lp].
  destruct R as (rs & vs & rcs & Hc & Hv & V & Hr).
  assert (ready w) as R by (by exists rs, vs, rcs).
  rewrite Hc. rewrite bool_decide_eq_true_2 by eauto. cbn [negb when].
  apply (ends_run _ _ _ _ _ eq_refl). apply (ends_run _ _ _ _ _ (get_current_Some _ _ Hc)).
  destruct (rs_round rs >=? round) eqn:Hge; [by apply ends_quietly; [apply quietly_ret|..]|].
  apply (enterRound_spec w _ true round lp vs I Hv V); [right; by rewrite Hc|].
  rewrite Hc. intros ? [= <-]. apply view_lt_spec; cbn. rewrite Z.geb_leb in Hge.
  apply Z.leb_gt in Hge. lia.
Qed.

Lemma keeps_handleRequest r : keeps (handleRequest b r).
Proof using CO.
  unfold handleRequest. apply keeps_get_current. intros w rs I R Hc.
  destruct (checkRequestMsg _ _); [by apply ends_quietly; [apply quietly_ret|..]|].
  apply (ends_run _ _ _ _ _ eq_refl). set (w1 := mkWorld _ _).
  assert (Inv w1) as I1.
  { constructor; cbn; try apply I.
    - intros _. apply (inv_ready _ I). by rewrite Hc.
    - intros Hs. destruct (inv_state _ I Hs) as (rs0 & Hc0 & Hp).
      rewrite Hc in Hc0; injection Hc0 as <-. eexists. split; [done|exact Hp].
    - intros ? [= <-]. exact (inv_lock _ I rs Hc).
    - intros ? [= <-]. exact (inv_fresh _ I rs Hc).
    - intros ? a m [= <-]. exact (inv_commits _ I rs a m Hc).
    - intros s Hin. destruct (inv_votes _ I s Hin) as (rs1 & Hc1 & ? & ?).
      rewrite Hc in Hc1; injection Hc1 as <-. by eexists.
    - intros ? [= <-]. exact (inv_council _ I rs Hc). }
  apply ends_quietly; [|done|by apply ready_with_current]. quiet_solve.
Qed.

(** Accepting a proposal, then moving on to state [st]. *)
Lemma accept_spec st pp u r rs w :
  Inv w -> ready w -> current (node w) = Some rs -> state (node w) = StateAcceptRequest ->
  pp_Proposal pp = Some u -> pp_Mining pp = Some r ->
  unit_Hash (mining_Unit r) = unit_Hash u ->
  (IsHashLocked rs = true -> LockHash_of (rs_polcRound rs) = unit_Hash u) ->
  st <> StateAcceptRequest ->
  exists w', (acceptPreprepare cfg b pp ;;; setState cfg b st) w = Some (tt, w') /\
    Inv w' /\ ready w' /\ current (node w') = Some (SetPreprepare rs pp) /\
    state (node w') = st.
Proof using CO.
  intros I R Hc Hs Hu Hr Hh HL Hst. unfold acceptPreprepare. rewrite bind_assoc.
  rewrite (bind_Some _ _ _ _ _ (get_current_Some _ _ Hc)), bind_assoc.
  unfold put_current. rewrite bind_modify. set (rs' := SetPreprepare rs pp).
  fold (with_current rs' w). set (w1 := with_current rs' w).
  assert (quietly (stopTimer b ;;; setTimeout b (ConsensusTimeout cfg))) as Hq by quiet_solve.
  assert (ready w1) as R1 by (by apply ready_with_current).
  destruct (Hq w1 R1) as ([] & w2 & E & Q). rewrite (bind_Some _ _ _ _ _ E).
  assert (ready w2) as R2 by (by eapply quiet_ready).
  destruct (setState_spec cfg b st w2 R2) as (w3 & E3 & Q3). exists w3.
  pose proof (quiet_with_state st _ _ Q) as Q'.
  pose proof (quiet_trans _ _ _ Q' Q3) as Q13.
  split_and!; [done|..].
  - eapply quiet_Inv; [done|]. by apply (Inv_accept st pp u r).
  - eapply quiet_ready; [done|]. by apply ready_with_state.
  - by rewrite (q_current _ _ Q13).
  - by rewrite (q_state _ _ Q13).
Qed.

Lemma enterPreprepared_spec src pp u r w :
  Inv w -> ready w -> pp_Proposal pp = Some u -> pp_Mining pp = Some r ->
  unit_Hash (mining_Unit r) = unit_Hash u ->
  ends (enterPreprepared cfg b src pp (unit_Hash u)) w.
Proof using CO.
  intros I R Hu Hr Hh. unfold enterPreprepared, ends. rewrite bind_get.
  case_bool_decide as Hs; [|by exists tt, w].
  destruct (quietly_noteDiffHash src (unit_Hash u) w R) as ([] & w1 & E1 & Q).
  rewrite (bind_Some _ _ _ _ _ E1).
  pose proof (quiet_Inv _ _ Q I) as I1. pose proof (quiet_ready _ _ Q R) as R1.
  rewrite <- (q_state _ _ Q) in Hs. destruct R1 as (rs & R'). pose proof R' as (vs & rcs & Hc & _).
  assert (ready w1) as R1 by (by exists rs). clear R'.
  rewrite (bind_Some _ _ _ _ _ (get_current_Some _ _ Hc)).
  destruct (IsHashLocked rs) eqn:HL; [case_if|].
  - assert (LockHash_of (rs_polcRound rs) = unit_Hash u) as Hlh by (symmetry; by apply Z.eqb_eq).
    destruct (accept_spec StatePrepared pp u r rs w1) as (w2 & E2 & I2 & R2 & Hc2 & Hs2);
      try done.
    rewrite <- bind_assoc, (bind_Some _ _ _ _ _ E2).
    edestruct (sendCommit_spec b w2 _ u I2 R2 Hc2) as (w3 & ? & ? & ?);
      [by rewrite <- Hu|by left|by exists tt, w3].
  - apply (ends_quietly (sendNextRoundChange cfg b) w1); [|done..]. quiet_solve.
  - destruct (accept_spec StatePreprepared pp u r rs w1) as (w2 & E2 & I2 & R2 & Hc2 & Hs2);
      try done; [by rewrite HL|].
    rewrite <- bind_assoc, (bind_Some _ _ _ _ _ E2).
    apply (ends_quietly (sendPrepare b) w2); [|done..]. quiet_solve.
Qed.

Lemma verifyProposal_hash me u r :
  verifyProposal b me u = Ok r -> unit_Hash (mining_Unit r) = unit_Hash u.
Proof using Hb.
  unfold verifyProposal. destruct (Verify b u) as [r'|] eqn:E; [|done].
  destruct (WitnessLib _ _ _); [done|]. case_if; [|done]. intros [= <-].
  by apply (bo_verify b Hb).
Qed.

Lemma keeps_handlePreprepare m src : keeps (handlePreprepare cfg b m src).
Proof using CO Hb.
  unfold handlePreprepare. destruct (decode_preprepare _) as [pp|]; [|apply keeps_ret].
  apply keeps_bind; [apply keeps_quietly; quiet_solve|intros [e|]]; [apply keeps_ret|].
  intros w I R. destruct R as (rs & vs & rcs & Hc & Hv & V & Hr).
  assert (ready w) as R by (by exists rs, vs, rcs).
  apply (ends_run _ _ _ _ _ (get_valSet_Some _ _ Hv)).
  destruct (valid_IsProposer vs src V) as [fp ->]. apply (ends_run _ _ _ fp w eq_refl).
  destruct fp; cbn [negb]; [|by apply ends_quietly; [apply quietly_ret|..]].
  destruct (pp_Proposal pp) as [u|]; [|by apply ends_quietly; [quiet_solve|..]].
  apply (ends_run _ _ _ _ _ (get_current_Some _ _ Hc)). unfold ends; rewrite bind_get.
  set (own := match pendingRequest rs with Some _ => _ | None => _ end).
  destruct own as [r|] eqn:Hown.
  - apply (ends_bind (enterPreprepared _ _ _ _ _)); [|by intros; apply keeps_ret].
    apply (enterPreprepared_spec src _ u r); [done..|]. subst own.
    destruct (pendingRequest rs); [|done]. case_if; [|done]. injection Hown as <-.
    symmetry. by apply Z.eqb_eq.
  - destruct (verifyProposal b _ u) as [r|e] eqn:Hver.
    + apply (ends_bind (enterPreprepared _ _ _ _ _)); [|by intros; apply keeps_ret].
      apply (enterPreprepared_spec src _ u r); [done..|]. by eapply verifyProposal_hash.
    + destruct (IsBadUnitErr e); cbn [negb]; by apply ends_quietly; [quiet_solve|..].
Qed.

(** ** Votes *)

Lemma checkMessage_run code v w rs :
  current (node w) = Some rs ->
  checkMessage code v w = Some (check_view (view_of rs) (state (node w)) code v, w).
Proof.
  intros Hc. unfold checkMessage, currentView. rewrite bind_get, bind_assoc.
  by rewrite (bind_Some _ _ _ _ _ (get_current_Some _ _ Hc)).
Qed.

(** PREPARE and COMMIT are admitted for the current view only, between
    the acceptance of a proposal and its commit. *)
Lemma check_view_vote cv st code v :
  code = MsgPrepare \/ code = MsgCommit -> check_view cv st code (Some v) = None ->
  v = cv /\ st <> StateAcceptRequest /\ st <> StateCommitted.
Proof.
  intros Hcode. unfold check_view.
  assert (code =? MsgRoundChange = false) as -> by (by destruct Hcode as [-> | ->]).
  assert ((code =? MsgPrepare) || (code =? MsgCommit) = true) as ->
    by (by destruct Hcode as [-> | ->]).
  destruct (_ >? _); [done|]. destruct (View_Cmp v cv) eqn:Ec; [|done..].
  apply View_Cmp_Eq in Ec. by destruct st.
Qed.

Lemma Inv_set_Prepares rs ms w :
  Inv w -> current (node w) = Some rs -> state (node w) <> StateAcceptRequest ->
  Inv (with_current (set_Prepares rs ms) w).
Proof.
  intros I Hc Hst. constructor; cbn; try apply I.
  - intros _. apply (inv_ready _ I). by rewrite Hc.
  - intros Hs. destruct (inv_state _ I Hs) as (rs0 & Hc0 & Hp).
    rewrite Hc in Hc0; injection Hc0 as <-. eexists. split; [done|exact Hp].
  - intros ? [= <-]. exact (inv_lock _ I rs Hc).
  - by intros ? [= <-] ?.
  - intros ? a m [= <-]. exact (inv_commits _ I rs a m Hc).
  - intros s Hin. destruct (inv_votes _ I s Hin) as (rs1 & Hc1 & ? & ?).
    rewrite Hc in Hc1; injection Hc1 as <-. by eexists.
  - intros ? [= <-]. exact (inv_council _ I rs Hc).
Qed.

Lemma Inv_add_Commits rs m w :
  Inv w -> current (node w) = Some rs -> state (node w) <> StateAcceptRequest ->
  (is_validator (ms_valSet (Commits rs)) (msg_Address m) = true ->
   commit_ok (ms_valSet (Commits rs)) (view_of rs) (proposal_hash rs) (msg_Address m) m) ->
  Inv (with_current (set_Commits rs (fst (Add (Commits rs) m))) w).
Proof.
  intros I Hc Hst Hok. constructor; cbn; try apply I.
  - intros _. apply (inv_ready _ I). by rewrite Hc.
  - intros Hs. destruct (inv_state _ I Hs) as (rs0 & Hc0 & Hp).
    rewrite Hc in Hc0; injection Hc0 as <-. eexists. split; [done|exact Hp].
  - intros ? [= <-]. exact (inv_lock _ I rs Hc).
  - by intros ? [= <-] ?.
  - intros ? a m' [= <-]. unfold Add, verify.
    destruct (is_validator _ _) eqn:Hv; cbn; [|exact (inv_commits _ I rs a m' Hc)].
    destruct (messages (Commits rs) !! msg_Address m); cbn; [exact (inv_commits _ I rs a m' Hc)|].
    destruct (decide (msg_Address m = a)) as [<-|Hne].
    + rewrite lookup_insert_eq. intros [= <-]. by apply Hok.
    + rewrite lookup_insert_ne by done. exact (inv_commits _ I rs a m' Hc).
  - intros s Hin. destruct (inv_votes _ I s Hin) as (rs1 & Hc1 & ? & ?).
    rewrite Hc in Hc1; injection Hc1 as <-. by eexists.
  - intros ? [= <-]. cbn. replace (ms_valSet (fst (Add (Commits rs) m))) with (ms_valSet (Commits rs)).
    + exact (inv_council _ I rs Hc).
    + unfold Add. by destruct (verify _ _).
Qed.

(** Locking the proposal and entering the prepared state. *)
Lemma lock_prepared_spec w rs :
  Inv w -> ready w -> current (node w) = Some rs -> state (node w) <> StateAcceptRequest ->
  exists w' rs' u, (lockCurrent ;;; setState cfg b StatePrepared) w = Some (tt, w') /\
    Inv w' /\ ready w' /\ current (node w') = Some rs' /\ Proposal rs' = Some u /\
    state (node w') = StatePrepared.
Proof.
  intros I R Hc Hs.
  destruct (lockCurrent_spec w rs I R Hc Hs)
    as (rs' & w1 & E1 & I1 & R1 & N1 & _ & HP & _).
  rewrite (bind_Some _ _ _ _ _ E1).
  destruct (setState_spec cfg b StatePrepared w1 R1) as (w2 & E2 & Q).
  destruct (inv_state _ I Hs) as (rs0 & Hc0 & (pp & u & r & Hpp & Hu & _)).
  rewrite Hc in Hc0; injection Hc0 as <-. exists w2, rs', u.
  assert (state (node w1) <> StateAcceptRequest) as Hs1 by (by rewrite N1).
  split_and!; [done|..].
  - eapply quiet_Inv; [done|]. apply Inv_raise; [done..|by left].
  - eapply quiet_ready; [done|]. by apply ready_with_state.
  - rewrite (q_current _ _ Q). cbn. by rewrite N1.
  - rewrite HP. unfold Proposal. by rewrite Hpp.
  - by rewrite (q_state _ _ Q).
Qed.

Lemma keeps_handlePrepare m src : keeps (handlePrepare cfg b m src).
Proof using CO.
  unfold handlePrepare. destruct (decode_subject _) as [sub|]; [|apply keeps_ret].
  intros w I R. destruct R as (rs & vs & rcs & Hc & Hv & V & Hr).
  assert (ready w) as R by (by exists rs, vs, rcs).
  apply (ends_run _ _ _ _ _ (checkMessage_run _ _ _ _ Hc)).
  destruct (check_view _ _ _ _) eqn:Ecv; [by apply ends_quietly; [apply quietly_ret|..]|].
  apply check_view_vote in Ecv as (_ & Hs & _); [|by left].
  apply (ends_run _ _ _ _ _ (get_current_Some _ _ Hc)).
  destruct (verifyPrepare rs sub); [by apply ends_quietly; [apply quietly_ret|..]|].
  destruct (Add (Prepares rs) m) as [ms [e|]]; [by apply ends_quietly; [apply quietly_ret|..]|].
  apply (ends_run _ _ _ tt (with_current (set_Prepares rs ms) w) eq_refl).
  pose proof (Inv_set_Prepares rs ms w I Hc Hs) as I1. set (w1 := with_current _ w) in *.
  assert (ready w1) as R1 by (by apply ready_with_current).
  apply (ends_run get_current _ w1 (set_Prepares rs ms) w1 eq_refl).
  apply (ends_run _ _ w1 vs w1 (get_valSet_Some w1 _ Hv)). unfold ends; rewrite bind_get.
  apply (ends_bind (when _ _)); [|by intros; apply keeps_ret].
  destruct (_ && _); cbn [when]; [|by apply ends_quietly; [apply quietly_ret|..]].
  destruct (lock_prepared_spec w1 (set_Prepares rs ms) I1 R1 eq_refl Hs)
    as (w2 & rs2 & u & E2 & I2 & R2 & Hc2 & Hp2 & Hs2).
  unfold ends. rewrite <- bind_assoc, (bind_Some _ _ _ _ _ E2).
  rewrite (bind_Some _ _ _ _ _ (get_current_Some _ _ Hc2)), Hp2; cbn [deref]; rewrite bind_ret.
  destruct (sendCommit_spec b w2 rs2 u I2 R2 Hc2 Hp2) as (w3 & ? & ? & ?); [by left|].
  by exists tt, w3.
Qed.

(** ** Commit *)

Lemma Inv_ECommit view mr seals w :
  Inv w -> certificate view mr seals ->
  Inv (mkWorld (node w) (ECommit view mr seals :: log w)).
Proof.
  intros I Hcert. constructor; cbn; try apply I.
  intros view' mr' seals'. rewrite elem_of_cons. intros [[= -> -> ->]|?]; [done|by apply I].
Qed.

Lemma deref_seals_run msgs w :
  Forall (fun m => is_Some (CommittedSeal m)) msgs ->
  exists seals, deref_seals msgs w = Some (seals, w) /\ map CommittedSeal msgs = map Some seals.
Proof.
  induction 1 as [|m msgs [s Hm] _ (seals & E & IH)]; [by exists []|].
  exists (s :: seals). cbn. rewrite Hm. unfold bind; cbn. by rewrite E, IH.
Qed.

Lemma Values_address w rs m :
  Inv w -> current (node w) = Some rs -> m ∈ Values (Commits rs) ->
  commit_ok (ms_valSet (Commits rs)) (view_of rs) (proposal_hash rs) (msg_Address m) m.
Proof.
  intros I Hc. unfold Values. rewrite list_elem_of_fmap. intros ([a m'] & -> & Hin). cbn.
  apply elem_of_map_to_list in Hin. pose proof (inv_commits _ I _ _ _ Hc Hin) as Hok.
  by rewrite (co_address _ _ _ _ _ Hok) in *.
Qed.

(** A set of votes keyed by their senders has distinct senders. *)
Lemma Values_NoDup (ms : messageSet) :
  (forall a m, messages ms !! a = Some m -> msg_Address m = a) ->
  NoDup (map msg_Address (Values ms)).
Proof.
  intros H. unfold Values. rewrite map_map.
  rewrite (List.map_ext_in (fun x => msg_Address x.2) fst).
  - apply NoDup_fst_map_to_list.
  - intros [a m] Hin. cbn. apply H, elem_of_map_to_list. by apply list_elem_of_In.
Qed.

Lemma length_Values (ms : messageSet) : Z.of_nat (length (Values ms)) = ms_Size ms.
Proof. unfold Values, ms_Size. by rewrite length_map, length_map_to_list. Qed.

Lemma TwoThirdsMajority_eq vs : TwoThirdsMajority vs = 7.
Proof. unfold TwoThirdsMajority. by case_bool_decide. Qed.

Lemma commit_spec w rs :
  Inv w -> ready w -> current (node w) = Some rs -> state (node w) <> StateAcceptRequest ->
  8 <= ms_Size (Commits rs) -> ends (commit cfg b) w.
Proof.
  intros I R Hc Hs Hsize. unfold commit.
  destruct (setState_spec cfg b StateCommitted w R) as (w1 & E1 & Q).
  apply (ends_run _ _ _ _ _ E1).
  assert (Inv w1) as I1 by (eapply quiet_Inv; [done|]; apply Inv_raise; [done..|by right]).
  assert (ready w1) as R1 by (by eapply quiet_ready; [|apply ready_with_state]).
  pose proof (q_current _ _ Q) as Hc1; cbn in Hc1; rewrite Hc in Hc1.
  apply (ends_run _ _ _ _ _ (get_current_Some _ _ Hc1)).
  destruct (inv_state _ I Hs) as (rs0 & Hc0 & (pp & u & r & Hpp & Hu & Hr & Hh)).
  rewrite Hc in Hc0; injection Hc0 as <-.
  rewrite Hpp; cbn [deref]. apply (ends_run _ _ _ pp w1 eq_refl).
  rewrite Hu; cbn [deref]. apply (ends_run _ _ _ u w1 eq_refl).
  pose proof (Values_address w1 rs) as Hval.
  destruct (deref_seals_run (Values (Commits rs)) w1) as (seals & E & Hseals).
  { apply List.Forall_forall. intros m Hin%list_elem_of_In.
    destruct (co_seal _ _ _ _ _ (Hval m I1 Hc1 Hin)) as (seal & -> & _ & _). eauto. }
  apply (ends_run _ _ _ _ _ E). unfold ends; rewrite bind_emit.
  apply (ends_quietly (handleFinalCommitted b)); [quiet_solve| |done].
  { unfold handleFinalCommitted; quiet_solve. }
  apply Inv_ECommit; [done|].
  exists (ms_valSet (Commits rs)), r, (Values (Commits rs)).
  assert (proposal_hash rs = unit_Hash (mining_Unit r)) as Eh.
  { unfold proposal_hash, Subject_of, Proposal; cbn. by rewrite Hpp, Hu. }
  split_and!; [done|by apply (inv_council _ I1)|]. constructor; [| |done|].
  - pose proof (length_Values (Commits rs)). lia.
  - apply Values_NoDup. intros a m Hm. by apply (co_address _ _ _ _ _ (inv_commits _ I _ _ _ Hc Hm)).
  - apply List.Forall_forall. intros m Hin%list_elem_of_In. rewrite <- Eh. by apply Hval.
Qed.

(** What [Sender] and [verifyCommit] establish of a commit vote. *)
Lemma verifyCommit_ok rs m a sub :
  Sender m = Ok a -> decode_subject (Msg m) = Some sub -> Code m = MsgCommit ->
  verifyCommit rs a (CommittedSeal m) sub = None ->
  is_validator (ms_valSet (Commits rs)) (msg_Address m) = true ->
  commit_ok (ms_valSet (Commits rs)) (view_of rs) (proposal_hash rs) (msg_Address m) m.
Proof.
  unfold Sender, verifyCommit. destruct (recover m) as [a'|] eqn:Er; [|done].
  case_bool_decide as Ha; cbn [negb]; [|done]. intros [= <-] Hsub HC Hv Hval. subst a'.
  destruct (CommittedSeal m) as [seal|] eqn:Es; [|done].
  destruct (Nat.eqb_spec (length (vote_Extra seal)) ExtraSealSize) as [El|]; cbn [negb orb] in Hv; [|done].
  destruct (Z.eqb_spec (nth 0 (vote_Extra seal) 0) MsgCommit) as [Ek|]; cbn [negb] in Hv; [|done].
  destruct (Z.eqb_spec (le_value (drop 1 (vote_Extra seal))) (u64 (Round (sub_View sub)))) as [En|]; cbn [negb] in Hv; [|done].
  destruct (sealSender seal _) as [sg|] eqn:Esg; [|done].
  case_bool_decide as Hsg; cbn [negb] in Hv; [subst sg|done].
  destruct (Subject_Cmp _ _) eqn:Ec; cbn [negb] in Hv; [|done].
  apply Subject_Cmp_spec in Ec as [Ev Ed]; cbn in Ev.
  constructor; try done.
  - exists sub. by rewrite Ev, <- Ed.
  - exists seal. split; [done|]. unfold proposal_hash. rewrite Ed. split; [done|]. unfold seal_round. by rewrite Ev.
Qed.

Lemma keeps_handleCommit m src : Code m = MsgCommit -> keeps (handleCommit cfg b m src).
Proof using CO.
  intros HC. unfold handleCommit. destruct (decode_subject _) as [sub|] eqn:Hsub; [|apply keeps_ret].
  intros w I R. destruct R as (rs & vs & rcs & Hc & Hv & V & Hr).
  assert (ready w) as R by (by exists rs, vs, rcs).
  apply (ends_run _ _ _ _ _ (checkMessage_run _ _ _ _ Hc)).
  destruct (check_view _ _ _ _) eqn:Ecv; [by apply ends_quietly; [apply quietly_ret|..]|].
  apply check_view_vote in Ecv as (_ & Hs & _); [|by right].
  destruct (Sender m) as [a|] eqn:Hsend; [|by apply ends_quietly; [apply quietly_ret|..]].
  apply (ends_run _ _ _ _ _ (get_current_Some _ _ Hc)).
  destruct (verifyCommit rs a _ sub) eqn:Hver; [by apply ends_quietly; [apply quietly_ret|..]|].
  pose proof (Inv_add_Commits rs m w I Hc Hs (verifyCommit_ok _ _ _ _ Hsend Hsub HC Hver)) as I1.
  set (rs1 := set_Commits rs _) in *. set (w1 := with_current rs1 w) in *.
  apply (ends_run (put_current rs1) _ w tt w1 eq_refl).
  assert (ready w1) as R1 by (by apply ready_with_current).
  apply (ends_run get_current _ w1 rs1 w1 eq_refl).
  apply (ends_run _ _ w1 vs w1 (get_valSet_Some w1 _ Hv)). unfold ends; rewrite bind_get.
  assert (state (node w1) <> StateAcceptRequest) as Hs1 by done.
  branch_as Hq; [|branch].
  - destruct (lockCurrent_spec w1 rs1 I1 R1 eq_refl Hs1)
      as (rs2 & w2 & E2 & I2 & R2 & N2 & _ & _ & HCm & _).
    apply (ends_run _ _ _ _ _ E2).
    apply (ends_bind (commit cfg b)); [|by intros; apply keeps_ret].
    apply (commit_spec w2 rs2); [done..|by rewrite N2|by rewrite N2|].
    rewrite HCm. rewrite TwoThirdsMajority_eq in Hq.
    apply andb_prop in Hq as [Hq _]. rewrite Z.gtb_ltb in Hq. apply Z.ltb_lt in Hq. lia.
  - destruct (lock_prepared_spec w1 rs1 I1 R1 eq_refl Hs1)
      as (w2 & rs2 & u & E2 & I2 & R2 & Hc2 & Hp2 & Hs2).
    rewrite <- bind_assoc, (bind_Some _ _ _ _ _ E2).
    apply (ends_bind (sendCommit b)); [|by intros; apply keeps_ret].
    destruct (sendCommit_spec b w2 rs2 u I2 R2 Hc2 Hp2) as (w3 & ? & ? & ?); [by left|].
    by exists tt, w3.
  - by apply ends_quietly; [apply quietly_ret|..].
Qed.

(** ** The other events *)

Lemma keeps_set_roundChangeSet rcs : keeps (modify (set_roundChangeSet (Some rcs))).
Proof.
  intros w I (rs & vs & rcs0 & Hc & Hv & V & _). eexists _, _. split; [done|]. split.
  - constructor; cbn; try apply I. intros H. split; [by apply I|eauto].
  - exists rs, vs, rcs. done.
Qed.

Lemma keeps_refreshValidtors last : keeps (refreshValidtors b last).
Proof using Hb.
  intros w I R. destruct (refreshValidtors_spec last w I) as (e & w' & ? & ? & _ & ? & _).
  exists e, w'. auto.
Qed.

Ltac keep_step :=
  match goal with
  | |- keeps (bind _ _) => apply keeps_bind; [|intros ?]
  | |- keeps (if ?x then _ else _) => destruct x
  | |- keeps (match ?x with _ => _ end) => destruct x
  end.
Ltac keep_solve :=
  repeat first
    [ apply keeps_ret | apply keeps_set_roundChangeSet | apply keeps_refreshValidtors
    | apply keeps_startNewRound
    | solve [apply keeps_quietly; quiet_solve] | keep_step ].

Lemma keeps_handleRoundChange m src : keeps (handleRoundChange cfg b m src).
Proof using CO Hb. unfold handleRoundChange. keep_solve. Qed.

Lemma keeps_handleTimeout rv : keeps (handleTimeout cfg b rv).
Proof using CO Hb. unfold handleTimeout. keep_solve. Qed.

Lemma keeps_handleCheckedMsg m src : keeps (handleCheckedMsg cfg b m src).
Proof using CO Hb.
  unfold handleCheckedMsg, dispatch.
  apply keeps_bind; [|intros e; keep_solve].
  destruct (Z.eqb_spec (Code m) MsgPreprepare); [apply keeps_handlePreprepare|].
  destruct (Z.eqb_spec (Code m) MsgPrepare); [apply keeps_handlePrepare|].
  destruct (Z.eqb_spec (Code m) MsgCommit); [by apply keeps_handleCommit|].
  destruct (Z.eqb_spec (Code m) MsgRoundChange); [apply keeps_handleRoundChange|].
  keep_solve.
Qed.

Lemma keeps_handleMsg m : keeps (handleMsg cfg b m).
Proof using CO Hb.
  unfold handleMsg, verifyMsg. destruct (IsMe m).
  - keep_solve. all: apply keeps_handleCheckedMsg.
  - apply keeps_bind; [keep_solve|intros [a|e]]; [apply keeps_handleCheckedMsg|keep_solve].
Qed.

(** ** The event loop *)

(** The operation finishes in a state of the invariant, whether or not the
    engine has started its first round. *)
Definition runs {A} (m : M A) : Prop :=
  forall w, Inv w -> exists a w', m w = Some (a, w') /\ Inv w'.

Lemma keeps_runs {A} (m : M A) w :
  keeps m -> Inv w -> is_Some (current (node w)) -> exists a w', m w = Some (a, w') /\ Inv w'.
Proof.
  intros Hm I Hc. destruct (Hm w I (Inv_ready w I Hc)) as (a & w' & ? & ? & _). by exists a, w'.
Qed.

Lemma runs_bind {A B} (m : M A) (k : A -> M B) :
  runs m -> (forall a, runs (k a)) -> runs (bind m k).
Proof.
  intros Hm Hk w I. destruct (Hm w I) as (a & w1 & E & I1).
  rewrite (bind_Some _ _ _ _ _ E). by apply Hk.
Qed.

Lemma runs_handleEvent ev : runs (handleEvent cfg b ev).
Proof using CO Hb.
  intros w I. unfold handleEvent. rewrite bind_get.
  destruct (current (node w)) as [rs|] eqn:Hc; [|by exists None, w].
  assert (is_Some (current (node w))) as Hc' by eauto.
  destruct ev as [n h|r| |m|rv]; (apply keeps_runs; [|done..]).
  - keep_solve.
  - apply keeps_handleRequest.
  - keep_solve.
  - apply keeps_handleMsg.
  - apply keeps_handleTimeout.
Qed.

Lemma runs_Handle ev : runs (Handle cfg b ev).
Proof using CO Hb.
  intros w I. unfold Handle. rewrite bind_get. destruct (Address.Empty _); [by eexists _, w|].
  destruct (priorChan _) as [prior|]; [|by apply runs_handleEvent].
  rewrite bind_modify. apply (runs_bind (handleEvent cfg b prior) (fun _ => handleEvent cfg b ev));
    [apply runs_handleEvent|intros _; apply runs_handleEvent|].
  destruct w as [c l]. by apply (quiet_eq_Inv c).
Qed.

Lemma runs_PriorHandle ev : runs (PriorHandle ev).
Proof.
  intros w I. unfold PriorHandle. rewrite bind_get.
  destruct (priorChan _); [by eexists _, w|]. eexists _, _. split; [done|].
  destruct w as [c l]. by apply (quiet_eq_Inv c).
Qed.

Lemma runs_Start : runs (Start cfg b).
Proof using CO Hb.
  unfold Start. apply runs_bind.
  { intros w I. destruct (startNewSequence_spec w I) as (w' & E & I' & _). by exists tt, w'. }
  intros _ w I. rewrite bind_get. destruct (current (node w)) as [rs|] eqn:Hc.
  - apply keeps_runs; [keep_solve|done|eauto].
  - unfold disabledChain, stopTimer, bind, get, modify, emit; cbn.
    eexists _, _; (split; [done|]). eapply quiet_Inv; [|done].
    constructor; try done. cbn. eexists [_; _]. split; [done|by repeat constructor].
Qed.

Lemma runs_Stop : runs (Stop b).
Proof.
  intros w I. destruct (Stop_quiet w) as (w' & ? & Q). exists tt, w'. split; [done|].
  by eapply quiet_Inv.
Qed.

Lemma runs_RollbackPackedTx h : runs (RollbackPackedTx h).
Proof.
  intros w I. unfold RollbackPackedTx. rewrite bind_get.
  destruct (current (node w)) as [rs|] eqn:Hc; [|by exists tt, w].
  apply keeps_runs; [|done|eauto]. keep_solve.
Qed.

End Handlers.
End Preserve.
End Preserve.
