(* ===== verification/BftSafety.v ===== *)
(** Who proposes and how votes are counted: the order of a validator set, the
    rotation of proposers, the admission of messages, and the vote counts of
    [Validators] and [Round].

    What the BFT engine guarantees: from its creation on it never panics, it
    commits only on a certificate of eight signed votes, it votes for at most
    one unit per view, and two honest engines never commit different units in
    the same view. *)
From S2P Require Import Prelude Bech32 Address BftTypes BftValidators BftRound BftCore BftInv BftPreserve.

Import Validators Round Core.

Module Election.

(** ** Byte order *)

Lemma bytes_ltb_irrefl a : bytes_ltb a a = false.
Proof. induction a as [|x a IH]; cbn; [done|]. by rewrite Z.ltb_irrefl, Z.eqb_refl. Qed.

Lemma bytes_ltb_trans a b c : bytes_ltb a b = true -> bytes_ltb b c = true -> bytes_ltb a c = true.
Proof.
  revert b c. induction a as [|x a IH]; intros [|y b] [|z c]; cbn; try done.
  repeat zcase; try done; try lia. apply IH.
Qed.

Lemma bytes_ltb_total a b : bytes_ltb a b = true \/ a = b \/ bytes_ltb b a = true.
Proof.
  revert b. induction a as [|x a IH]; intros [|y b]; cbn; auto.
  repeat zcase; subst; try lia; auto.
  destruct (IH b) as [|[->|]]; auto.
Qed.

(** ** The order of a validator set *)

Definition addr_le (a b : Address) : Prop :=
  a = b \/ bytes_ltb (Address.String_ a) (Address.String_ b) = true.

#[export] Instance addr_le_trans : Transitive addr_le.
Proof. intros a b c [->|H] [<-|H']; unfold addr_le; eauto using bytes_ltb_trans. Qed.

#[export] Instance addr_le_antisymm : AntiSymm (=) addr_le.
Proof.
  intros a b [->|H] [?|H']; try done.
  pose proof (bytes_ltb_trans _ _ _ H H'). by rewrite bytes_ltb_irrefl in *.
Qed.

Lemma insert_validator_perm v l : insert_validator v l ≡ₚ v :: l.
Proof.
  induction l as [|w l IH]; cbn; [done|]. destruct (bytes_ltb _ _); [done|].
  rewrite IH. apply Permutation_swap.
Qed.

Lemma insert_validator_sorted v l :
  Address.String_ v ∉ map Address.String_ l -> Sorted addr_le l -> Sorted addr_le (insert_validator v l).
Proof.
  intros Hv H. induction H as [|w l H IH Hd]; cbn; [by repeat constructor|].
  cbn in Hv. rewrite not_elem_of_cons in Hv. destruct Hv as [Hw Hl].
  destruct (bytes_ltb _ _) eqn:E.
  - constructor; [by constructor|constructor; by right].
  - constructor; [by apply IH|].
    assert (addr_le w v) as Hwv.
    { right. destruct (bytes_ltb_total (Address.String_ v) (Address.String_ w)) as [?|[?|?]]; congruence. }
    destruct Hd as [|u l Hwu]; cbn; [by constructor|].
    destruct (bytes_ltb (Address.String_ v) (Address.String_ u)); by constructor.
Qed.

Lemma ValidatorsSort_app l acc :
  foldl (fun acc v => insert_validator v acc) acc l ≡ₚ l ++ acc.
Proof.
  revert acc. induction l as [|v l IH]; intros acc; cbn [foldl app]; [done|].
  rewrite IH, insert_validator_perm. symmetry. apply Permutation_middle.
Qed.

Lemma ValidatorsSort_perm l : ValidatorsSort l ≡ₚ l.
Proof. unfold ValidatorsSort. by rewrite ValidatorsSort_app, app_nil_r. Qed.

Lemma ValidatorsSort_sorted l :
  NoDup (map Address.String_ l) -> Sorted addr_le (ValidatorsSort l).
Proof.
  unfold ValidatorsSort. induction l as [|v l IH] using rev_ind; [constructor|].
  rewrite map_app, foldl_app. cbn. intros [Hl [Hv _]]%list.NoDup_app.
  apply insert_validator_sorted; [|by apply IH].
  rewrite (ValidatorsSort_app l []), app_nil_r. intros H. apply (Hv _ H). by left.
Qed.

Lemma find_index_elem (l : list Address) p :
  p ∈ l -> exists i, find_index (fun v => bool_decide (v = p)) l = Some i /\ (i < length l)%nat.
Proof.
  intros Hp. destruct (find_index _ l) as [i|] eqn:E.
  - apply find_index_Some in E as E'. destruct E' as (x & Hx & _). exists i. split; [done|].
    by eapply lookup_lt_Some.
  - apply find_index_None in E. apply (Forall_elem _ _ _ E) in Hp. by rewrite bool_decide_eq_true_2 in Hp.
Qed.

Lemma rotation_index n i j :
  0 < n -> 0 <= i < n -> 0 <= j < n ->
  0 <= (j - i - 1) mod n < n /\ (i + (j - i - 1) mod n + 1) mod n = j.
Proof.
  intros Hn Hi Hj. split; [by apply Z.mod_pos_bound|].
  replace (i + (j - i - 1) mod n + 1) with ((j - i - 1) mod n + (i + 1)) by lia.
  rewrite Z.add_mod_idemp_l by lia. replace (j - i - 1 + (i + 1)) with j by lia. by apply Z.mod_small.
Qed.

(** ** Vote counts *)

Section Votes.
Context {W : Wire} {C : Codec}.

(** Every vote is filed under its sender, as [addVerifiedMessage] does. *)
Definition keyed (ms : messageSet) : Prop :=
  forall a m, messages ms !! a = Some m -> msg_Address m = a.

Lemma keyed_new vs : keyed (newMessageSet vs).
Proof. intros a m. cbn. by rewrite lookup_empty. Qed.

Lemma keyed_Add ms m : keyed ms -> keyed (fst (Add ms m)).
Proof.
  intros H a m'. unfold Add. destruct (verify ms m); [apply H|]. cbn.
  rewrite lookup_insert_Some. intros [[<- <-]|[_ Hm]]; [done|by apply H].
Qed.

Lemma common_votes p c :
  keyed p ->
  length (filter (fun m => is_Some (Get c (msg_Address m))) (Values p))
  = size (dom (messages p) ∩ dom (messages c)).
Proof.
  intros Hp. unfold Values, Get.
  transitivity (size (dom (filter (fun kv : Address * Message => is_Some (messages c !! kv.1)) (messages p)))).
  - rewrite size_dom. revert Hp. unfold keyed. generalize (messages p) as mp. clear p.
    induction mp as [|a m mp Ha Hf IH] using map_first_key_ind; intros Hp.
    { rewrite map_to_list_empty, map_filter_empty, map_size_empty. done. }
    rewrite map_to_list_insert_first_key by done. cbn [map snd]. rewrite filter_cons.
    assert (msg_Address m = a) as -> by (apply Hp; by rewrite lookup_insert_eq).
    assert (forall a' m', mp !! a' = Some m' -> msg_Address m' = a') as Hmp.
    { intros a' m' Hm'. apply Hp. rewrite lookup_insert_ne; [done|]. intros ->. congruence. }
    case_decide as Hd.
    + rewrite map_filter_insert_True by done. cbn. rewrite IH by done.
      rewrite map_size_insert_None; [done|]. apply map_lookup_filter_None. by left.
    + rewrite map_filter_insert_False by done. rewrite delete_id by done. by apply IH.
  - f_equal. apply leibniz_equiv. intros a. rewrite elem_of_intersection, !elem_of_dom.
    split.
    + intros [m Hm]. apply map_lookup_filter_Some in Hm as [Hm Hc]. split; [eauto|done].
    + intros [[m Hm] Hc]. exists m. by apply map_lookup_filter_Some.
Qed.
End Votes.

(** ** The properties *)

(** Nodes agree on the validator set whatever order the council lists it
    in: the set built from any permutation of the same validators has the same
    order (hence the same proposer in every round). *)
Theorem newDefaultSet_permutation h p l1 l2 c
    (Hperm : l1 ≡ₚ l2) (Htexts : NoDup (map Address.String_ l1)) :
  newDefaultSet h p l1 c = newDefaultSet h p l2 c /\
  validators (newDefaultSet h p l1 c) ≡ₚ l1 /\
  Sorted addr_le (validators (newDefaultSet h p l1 c)).
Proof.
  assert (ValidatorsSort l1 = ValidatorsSort l2) as E.
  { apply (Sorted_unique addr_le).
    - by apply ValidatorsSort_sorted.
    - apply ValidatorsSort_sorted. by rewrite <- Hperm.
    - by rewrite !ValidatorsSort_perm. }
  unfold newDefaultSet. rewrite E. split_and!; [done|..]; cbn; rewrite <- E.
  - apply ValidatorsSort_perm.
  - by apply ValidatorsSort_sorted.
Qed.

Definition three : list Address :=
  [Address.mkAddress [3] [] [99]; Address.mkAddress [1] [] [97]; Address.mkAddress [2] [] [98; 1]].

Lemma newDefaultSet_permutation_witness :
  newDefaultSet 1 2 three Address.zeroAddress = newDefaultSet 1 2 (rev three) Address.zeroAddress /\
  validators (newDefaultSet 1 2 three Address.zeroAddress) ≡ₚ three /\
  Sorted addr_le (validators (newDefaultSet 1 2 three Address.zeroAddress)).
Proof.
  apply (newDefaultSet_permutation 1 2 three (rev three) Address.zeroAddress).
  - apply Permutation_rev.
  - apply (bool_decide_unpack _). vm_compute. exact I.
Defined.

(** C39: rotation.  Starting from the proposer of the last unit, within as many
    rounds as there are validators every validator is the proposer of one. *)
Theorem every_validator_proposes s p v
    (Hp : p ∈ validators s) (Hne : Address.Empty p = false) (Hsize : 2 * Size s < 2 ^ 64)
    (Hv : v ∈ validators s) :
  exists round s', 0 <= round < Size s /\ CalcProposer s p round = Some s' /\
    proposer s' = Some v /\ validators s' = validators s.
Proof.
  destruct (find_index_elem _ _ Hp) as (i & Hi & Hil).
  apply list_elem_of_lookup in Hv as [j Hj]. pose proof (lookup_lt_Some _ _ _ Hj) as Hjl.
  unfold Size in *. set (n := Z.of_nat (length (validators s))) in *.
  destruct (rotation_index n (Z.of_nat i) (Z.of_nat j)) as [Hr E]; [lia..|].
  set (r := (Z.of_nat j - Z.of_nat i - 1) mod n) in *. exists r.
  unfold CalcProposer, nextRoundProposer, calcSeed. rewrite Hne, Hi.
  rewrite (u64_small (Z.of_nat i + r)), u64_small by lia. fold n. rewrite E, Nat2Z.id, Hj.
  by eexists.
Qed.

Lemma every_validator_proposes_witness :
  exists round s', 0 <= round < 3 /\
    CalcProposer (newDefaultSet 1 2 three Address.zeroAddress) (Address.mkAddress [3] [] [99]) round
      = Some s' /\
    proposer s' = Some (Address.mkAddress [2] [] [98; 1]) /\
    validators s' = validators (newDefaultSet 1 2 three Address.zeroAddress).
Proof.
  apply (every_validator_proposes (newDefaultSet 1 2 three Address.zeroAddress)).
  - vm_compute. set_solver.
  - reflexivity.
  - vm_compute. reflexivity.
  - vm_compute. set_solver.
Defined.

Section Properties.
Context {W : Wire} {C : Codec}.

(** the number of PREPARE-or-COMMIT votes is the number of distinct
    validators that sent either: nobody counts twice. *)
Theorem GetPrepareOrCommitSize_spec (s : roundState)
    (Hp : keyed (Prepares s)) :
  GetPrepareOrCommitSize s
  = Z.of_nat (size (dom (messages (Prepares s)) ∪ dom (messages (Commits s)))).
Proof.
  unfold GetPrepareOrCommitSize, ms_Size. rewrite common_votes by done.
  rewrite <- !size_dom.
  pose proof (size_union_alt (dom (messages (Prepares s))) (dom (messages (Commits s)))) as E.
  set (p := dom (messages (Prepares s))) in *. set (c := dom (messages (Commits s))) in *.
  assert (size c = size (p ∩ c) + size (c ∖ p))%nat as Ec.
  { rewrite <- size_union by set_solver. f_equal. apply leibniz_equiv. intros x.
    destruct (decide (x ∈ p)); set_solver. }
  lia.
Qed.

(** [MaxRound] answers the highest round with enough round-change votes,
    and nothing exactly when no round has enough. *)
Theorem MaxRound_spec (rcs : roundChangeSet) (num : Z) :
  match MaxRound rcs num with
  | None => forall k ms, roundChanges rcs !! k = Some ms -> ms_Size ms < num
  | Some m =>
      (exists k ms, roundChanges rcs !! k = Some ms /\ num <= ms_Size ms /\ m = i64 k) /\
      (forall k ms, roundChanges rcs !! k = Some ms -> num <= ms_Size ms -> i64 k <= m)
  end.
Proof.
  unfold MaxRound. apply (map_fold_weak_ind (fun o mp => match o with
    | None => forall k ms, mp !! k = Some ms -> ms_Size ms < num
    | Some m =>
        (exists k ms, mp !! k = Some ms /\ num <= ms_Size ms /\ m = i64 k) /\
        (forall k ms, mp !! k = Some ms -> num <= ms_Size ms -> i64 k <= m)
    end)).
  { intros k ms. by rewrite lookup_empty. }
  intros k ms mp o Hk IH. unfold max_round_step.
  assert (forall k' ms', mp !! k' = Some ms' -> <[k:=ms]> mp !! k' = Some ms') as Hold.
  { intros k' ms' H. rewrite lookup_insert_ne; [done|congruence]. }
  destruct (Z.ltb_spec (ms_Size ms) num) as [Hlt|Hge].
  - destruct o as [m|].
    + destruct IH as [(k0 & ms0 & H0 & H1 & H2) IH]. split; [exists k0, ms0; auto|].
      intros k' ms' [[<- <-]|[_ Hm]]%lookup_insert_Some ?; [lia|eauto].
    + intros k' ms' [[<- <-]|[_ Hm]]%lookup_insert_Some; [lia|eauto].
  - assert (exists k' ms', <[k:=ms]> mp !! k' = Some ms' /\ num <= ms_Size ms' /\ i64 k = i64 k') as Hnew.
    { exists k, ms. by rewrite lookup_insert_eq. }
    destruct o as [m|].
    + destruct IH as [(k0 & ms0 & H0 & H1 & H2) IH]. destruct (Z.ltb_spec m (i64 k)).
      * split; [done|]. intros k' ms' [[<- <-]|[_ Hm]]%lookup_insert_Some Hs; [lia|].
        specialize (IH k' ms' Hm Hs). lia.
      * split; [exists k0, ms0; auto|].
        intros k' ms' [[<- <-]|[_ Hm]]%lookup_insert_Some ?; [lia|eauto].
    + split; [done|]. intros k' ms' [[<- <-]|[_ Hm]]%lookup_insert_Some Hs; [lia|].
      specialize (IH k' ms' Hm). lia.
Qed.

(** what the engine lets in.  A round change is admitted for the current
    sequence and a round not behind; anything else for the current view only,
    votes not before a proposal is accepted and nothing once the unit is
    committed. *)
Theorem check_view_admits cv st code v :
  check_view cv st code (Some v) = None <->
  Sequence v = Sequence cv /\
  ((code = MsgRoundChange /\ Round cv <= Round v) \/
   (code <> MsgRoundChange /\ Round v = Round cv /\ st <> StateCommitted /\
    (st = StateAcceptRequest -> code <> MsgPrepare /\ code <> MsgCommit))).
Proof.
  unfold check_view.
  pose proof (View_Cmp_spec v cv) as Hc.
  destruct (Z.eqb_spec code MsgRoundChange) as [->|Hcode]; rewrite Z.gtb_ltb;
    destruct (Z.ltb_spec (Sequence cv) (Sequence v)).
  - split; [done|]. lia.
  - destruct Hc as [[-> Hc]|[[-> ->]|[-> Hc]]]; split; try done; try lia.
    all: intros _; split; [lia|]; left; split; [done|lia].
  - split; [done|]. lia.
  - destruct Hc as [[-> Hc]|[[-> ->]|[-> Hc]]]; [split; [done|]; lia| |split; [done|]; lia].
    destruct st; cbn [bool_decide decide decide_rel].
    all: repeat case_bool_decide; try done.
    all: destruct (Z.eqb_spec code MsgPrepare), (Z.eqb_spec code MsgCommit); cbn; naive_solver lia.
Qed.
End Properties.

End Election.


Import Validators Round Core Inv Preserve.

Module Safety.

Section Runs.
Context {W : Wire} {C : Codec} {P : Params} {CO : CodecOk C} {K : Council}.

(** ** Runs of one engine

    Any order of the operations the rest of the node may call, each with its
    own answers of the outside world. *)
Inductive step (cfg : Config) : world -> world -> Prop :=
| step_Start b w w' : BackendOk b -> Start cfg b w = Some (tt, w') -> step cfg w w'
| step_Stop b w w' : BackendOk b -> Stop b w = Some (tt, w') -> step cfg w w'
| step_Handle b ev e w w' : BackendOk b -> Handle cfg b ev w = Some (e, w') -> step cfg w w'
| step_PriorHandle ev ok w w' : PriorHandle ev w = Some (ok, w') -> step cfg w w'
| step_Rollback h w w' : RollbackPackedTx h w = Some (tt, w') -> step cfg w w'.

Definition init (me chain : Address) : world := mkWorld (New me chain) [].

Definition reachable (cfg : Config) (me chain : Address) : world -> Prop :=
  rtc (step cfg) (init me chain).

Lemma Inv_init me chain : Inv (init me chain).
Proof.
  constructor; cbn; try done; try (by intros []); by intros ? * ?%elem_of_nil.
Qed.

Lemma runs_Inv {A} (m : M A) w a w' : runs m -> Inv w -> m w = Some (a, w') -> Inv w'.
Proof. intros Hm I E. destruct (Hm w I) as (a' & w1 & E' & I'). rewrite E in E'. by injection E' as <- <-. Qed.

Lemma reachable_Inv cfg me chain w : reachable cfg me chain w -> Inv w.
Proof.
  intros H. unfold reachable in H. assert (Inv (init me chain)) as I by apply Inv_init.
  induction H as [w|w w1 w2 Hs _ IH]; [done|]. apply IH. clear IH.
  destruct Hs; (eapply runs_Inv; [|done..]).
  - by apply runs_Start.
  - apply runs_Stop.
  - by apply runs_Handle.
  - apply runs_PriorHandle.
  - apply runs_RollbackPackedTx.
Qed.
End Runs.

Section Safety.
Context {W : Wire} {C : Codec} {P : Params} {CO : CodecOk C}.

(** Runs in which the backend names [vals], in whatever order, as the
    validators each time it is asked. *)
Definition council_of (vals : list Address) : Council := fun l => l ≡ₚ vals.

(** Runs in which it may name any validators. *)
Definition any_council : Council := fun _ => True.

(** ** Quorums *)

Lemma is_validator_elem vs a : is_validator vs a = true -> a ∈ validators vs.
Proof.
  unfold is_validator, GetByAddress. destruct (find_index _ _) as [i|] eqn:E; [|done]. intros _.
  apply find_index_Some in E as (x & Hx & Ha & _). apply bool_decide_eq_true in Ha as <-.
  by eapply list_elem_of_lookup_2.
Qed.

Lemma certified_voters vals view r msgs seals a :
  certified vals view r msgs seals -> a ∈ map msg_Address msgs ->
  a ∈ validators vals /\
  exists m s, m ∈ msgs /\ recover m = Some a /\ Code m = MsgCommit /\
    decode_subject (Msg m) = Some s /\ sub_View s = view /\
    Digest s = unit_Hash (mining_Unit r).
Proof.
  intros Hc. rewrite list_elem_of_fmap. intros (m & -> & Hm).
  pose proof (Forall_elem _ _ _ (ct_votes _ _ _ _ _ Hc) Hm) as Hok. split.
  - eapply is_validator_elem, (co_validator _ _ _ _ _ Hok).
  - destruct (co_subject _ _ _ _ _ Hok) as (s & ? & ? & ?). exists m, s.
    split_and!; try done; apply Hok.
Qed.

(** Two quorums of 8 among 11 share a member outside any 4 - 1 others. *)
Lemma quorum_intersection (l l1 l2 : list Address) (honest : gset Address) :
  length l = 11%nat -> (length (filter (fun a => a ∉ honest) l) <= 3)%nat ->
  NoDup l1 -> NoDup l2 -> (8 <= length l1)%nat -> (8 <= length l2)%nat ->
  (forall a, a ∈ l1 -> a ∈ l) -> (forall a, a ∈ l2 -> a ∈ l) ->
  exists a, a ∈ l1 /\ a ∈ l2 /\ a ∈ honest.
Proof.
  intros Hl Hb N1 N2 H1 H2 S1 S2.
  set (A1 := list_to_set l1 : gset Address). set (A2 := list_to_set l2 : gset Address).
  set (A := list_to_set l : gset Address).
  set (B := list_to_set (filter (fun a => a ∉ honest) l) : gset Address).
  assert (size A1 = length l1) as E1 by (by apply size_list_to_set).
  assert (size A2 = length l2) as E2 by (by apply size_list_to_set).
  assert (size A <= 11)%nat as EA by (rewrite <- Hl; apply size_list_to_set_le).
  assert (size B <= 3)%nat as EB.
  { etrans; [apply size_list_to_set_le|done]. }
  assert (size (A1 ∪ A2) <= size A)%nat as EU by (apply subseteq_size; set_solver).
  assert (size (A1 ∪ A2) = size A1 + size (A2 ∖ A1))%nat as EU' by apply size_union_alt.
  assert (size A2 <= size (A1 ∩ A2) + size (A2 ∖ A1))%nat as ED.
  { rewrite <- size_union by set_solver. apply subseteq_size. intros x Hx.
    destruct (decide (x ∈ A1)); set_solver. }
  destruct (decide (A1 ∩ A2 ⊆ B)) as [Hsub|Hsub].
  { apply subseteq_size in Hsub. lia. }
  destruct (set_choose_or_empty ((A1 ∩ A2) ∖ B)) as [[a Ha]|He];
    [|by exfalso; apply Hsub; intros x Hx; destruct (decide (x ∈ B)); set_solver].
  exists a. destruct (decide (a ∈ honest)); [set_solver|]. exfalso.
  assert (a ∈ B); [|set_solver]. unfold B. rewrite elem_of_list_to_set, list_elem_of_filter.
  set_solver.
Qed.

(** ** Several engines

    The honest validators of one chain, each with the state its engine has
    reached.  The others may send anything, but cannot sign for an honest
    one: a COMMIT bearing an honest signature was sent by that validator. *)
Record network := mkNetwork {
  honest : gset Address;
  node_of : Address -> world
}.

Definition unforgeable (N : network) : Prop :=
  forall a m, a ∈ honest N -> Code m = MsgCommit -> recover m = Some a ->
    exists m', EBroadcast m' ∈ log (node_of N a) /\ Code m' = MsgCommit /\ Msg m' = Msg m.

Lemma vote_of_commit m m' s :
  Code m' = MsgCommit -> Msg m' = Msg m -> decode_subject (Msg m) = Some s ->
  vote_of (EBroadcast m') = Some s.
Proof. intros HC HM Hd. cbn. by rewrite HC, HM. Qed.

Lemma honest_voted N a m s :
  unforgeable N -> a ∈ honest N -> Code m = MsgCommit -> recover m = Some a ->
  decode_subject (Msg m) = Some s -> s ∈ votes (log (node_of N a)).
Proof.
  intros Hu Ha HC Hr Hd. destruct (Hu a m Ha HC Hr) as (m' & Hin & HC' & HM).
  unfold votes. apply list_elem_of_omap. exists (EBroadcast m'). split; [done|].
  by eapply vote_of_commit.
Qed.

(** ** The properties *)

(** C1: agreement.  Take eleven validators of which at most three are not
    honest, and two engines whose backends name these eleven whenever asked;
    whatever messages and events reached the engines in whatever order, units
    they handed to [backend.Commit] in the same view are the same unit.  (The
    honest validators run this engine too; the other three may send anything
    but cannot sign for an honest one.) *)
Theorem agreement cfg chain (N : network) (vals : list Address)
    (Hrun : forall a, a ∈ honest N -> reachable (K := any_council) cfg a chain (node_of N a))
    (Hsig : unforgeable N)
    (Hlen : length vals = 11%nat)
    (Hbyz : (length (filter (fun a => a ∉ honest N) vals) <= 3)%nat)
    cfg1 me1 chain1 w1 cfg2 me2 chain2 w2 view r1 r2 seals1 seals2
    (H1 : reachable (K := council_of vals) cfg1 me1 chain1 w1)
    (H2 : reachable (K := council_of vals) cfg2 me2 chain2 w2)
    (E1 : ECommit view (Some r1) seals1 ∈ log w1)
    (E2 : ECommit view (Some r2) seals2 ∈ log w2) :
  unit_Hash (mining_Unit r1) = unit_Hash (mining_Unit r2).
Proof.
  destruct (inv_certs _ (reachable_Inv _ _ _ _ H1) _ _ _ E1) as (vs1 & q1 & msgs1 & [= <-] & K1 & C1).
  destruct (inv_certs _ (reachable_Inv _ _ _ _ H2) _ _ _ E2) as (vs2 & q2 & msgs2 & [= <-] & K2 & C2).
  pose proof (ct_size _ _ _ _ _ C1). pose proof (ct_size _ _ _ _ _ C2).
  destruct (quorum_intersection vals (map msg_Address msgs1) (map msg_Address msgs2) (honest N))
    as (a & Ha1 & Ha2 & Hh); rewrite ?length_map; try done; try apply C1; try apply C2.
  { intros a Ha. unfold committee, council_of in K1. rewrite <- K1.
    by destruct (certified_voters _ _ _ _ _ _ C1 Ha). }
  { intros a Ha. unfold committee, council_of in K2. rewrite <- K2.
    by destruct (certified_voters _ _ _ _ _ _ C2 Ha). }
  destruct (certified_voters _ _ _ _ _ _ C1 Ha1) as (_ & m1 & s1 & _ & R1 & M1 & D1 & V1 & <-).
  destruct (certified_voters _ _ _ _ _ _ C2 Ha2) as (_ & m2 & s2 & _ & R2 & M2 & D2 & V2 & <-).
  apply (inv_unique _ (reachable_Inv _ _ _ _ (Hrun a Hh))); [..|congruence].
  - exact (honest_voted N a m1 s1 Hsig Hh M1 R1 D1).
  - exact (honest_voted N a m2 s2 Hsig Hh M2 R2 D2).
Qed.

(** C31: an engine never commits without a certificate: behind each call of
    [backend.Commit], whatever the engine was fed, stand the commit votes of at
    least eight different validators of a council its backend named, each
    recovered from the vote's own signature, all of the view the engine is in
    and for the unit committed, and the seals handed over are the ones these
    votes carry, each signed by its voter over that unit's hash and stamped as a
    commit of that round. *)
Theorem commit_has_certificate {K : Council} cfg me chain w view mr seals
    (Hr : reachable cfg me chain w) (Hin : ECommit view mr seals ∈ log w) :
  exists vals r msgs, mr = Some r /\ committee (validators vals) /\
    (8 <= length msgs)%nat /\ NoDup (map msg_Address msgs) /\
    map CommittedSeal msgs = map Some seals /\
    Forall (fun m => msg_Address m ∈ validators vals /\ Code m = MsgCommit /\
      recover m = Some (msg_Address m) /\
      (exists sub, decode_subject (Msg m) = Some sub /\ sub_View sub = view /\
         Digest sub = unit_Hash (mining_Unit r)) /\
      (exists seal, CommittedSeal m = Some seal /\
         sealSender seal (unit_Hash (mining_Unit r)) = Some (msg_Address m) /\
         length (vote_Extra seal) = ExtraSealSize /\ nth 0 (vote_Extra seal) 0 = MsgCommit /\
         le_value (drop 1 (vote_Extra seal)) = u64 (Round view))) msgs.
Proof.
  destruct (inv_certs _ (reachable_Inv _ _ _ _ Hr) _ _ _ Hin) as (vals & r & msgs & -> & HK & []).
  exists vals, r, msgs. split_and!; try done. eapply list.Forall_impl; [done|].
  intros m []. split_and!; try done. by apply is_validator_elem.
Qed.

(** an engine never casts commit votes for two units in one view. *)
Theorem one_vote_per_view {K : Council} cfg me chain w m1 m2 s1 s2
    (Hr : reachable cfg me chain w)
    (H1 : EBroadcast m1 ∈ log w) (H2 : EBroadcast m2 ∈ log w)
    (K1 : Code m1 = MsgCommit) (K2 : Code m2 = MsgCommit)
    (D1 : decode_subject (Msg m1) = Some s1) (D2 : decode_subject (Msg m2) = Some s2)
    (Hv : sub_View s1 = sub_View s2) :
  Digest s1 = Digest s2.
Proof.
  apply (inv_unique _ (reachable_Inv _ _ _ _ Hr)); [..|done]; apply list_elem_of_omap.
  - exists (EBroadcast m1). split; [done|]. by apply (vote_of_commit m1).
  - exists (EBroadcast m2). split; [done|]. by apply (vote_of_commit m2).
Qed.

(** C32: no event, however malformed or badly timed, makes the engine panic
    (dereference a nil round, set or proposal): [Handle] always returns. *)
Theorem Handle_never_panics {K : Council} cfg me chain w b ev
    (Hr : reachable cfg me chain w) (Hb : BackendOk b) :
  exists e w', Handle cfg b ev w = Some (e, w') /\ reachable cfg me chain w'.
Proof.
  destruct (runs_Handle cfg b Hb ev w (reachable_Inv _ _ _ _ Hr)) as (e & w' & E & _).
  exists e, w'. split; [done|]. eapply rtc_r; [done|]. by eapply step_Handle.
Qed.

End Safety.
End Safety.
