(* ===== verification/BftDemo.v ===== *)
(** Concrete runs of the BFT engine: a chain with eleven validators, a wire
    format and a signature scheme made of plain data, on which the properties
    of [BftSafety] are instantiated. *)
From S2P Require Import Prelude Bech32 Address BftTypes BftValidators BftRound BftCore BftInv BftPreserve BftSafety.

Import Validators Round Core Inv Preserve Safety Election.

Module Demo.

(** ** The outside world, made concrete *)

Inductive demo_payload := PSubject (s : Subject) | PPreprepare (p : Preprepare) | PPacket.

(** The signature of an account is its address. *)
#[global] Instance demo_wire : Wire := { payload := demo_payload; signature := Address }.

Definition account (i : Z) : Address := Address.mkAddress [i] (str "nts") [i].
Definition accounts : list Address := map (fun i => account (Z.of_nat i)) (seq 1 11).
Definition the_chain : Address := account 50.
Definition the_unit : Unit := mkUnit 1 77 the_chain 5.
Definition the_view : View := mkView 0 1.
Definition the_subject : Subject := mkSubject the_view 77 [].

#[global] Instance Subject_eq_dec : EqDecision Subject.
Proof. solve_decision. Defined.

Definition is_the_subject (p : demo_payload) : bool :=
  match p with PSubject s => bool_decide (s = the_subject) | _ => false end.

(** In this world the validators have signed no commit vote but one each. *)
Definition demo_recover (m : Message) : option Address :=
  match msg_Sign m with
  | Some a => if (Code m =? MsgCommit) && negb (is_the_subject (Msg m) && bool_decide (a ∈ accounts))
              then None else Some a
  | None => None
  end.

#[global] Instance demo_codec : Codec := {
  encode_subject s := Some (PSubject s);
  decode_subject p := match p with PSubject s => Some s | _ => None end;
  encode_preprepare p := Some (PPreprepare p);
  decode_preprepare p := match p with PPreprepare p => Some p | _ => None end;
  encode_packet _ := PPacket;
  recover := demo_recover;
  sealSender v _ := Some (vote_Sign v)
}.

#[global] Instance demo_codec_ok : CodecOk demo_codec.
Proof. constructor. by intros s p [= <-]. Qed.

#[global] Instance demo_params : Params := { SCAccount := account 60 }.

Definition demo_cfg : Config := mkConfig 3 8.

Definition demo_backend (me : Address) : Backend :=
  mkBackend (fun c _ => Ok (newDefaultSet 0 0 accounts c))
    (fun _ => (mkHeader 0 70 0, Address.zeroAddress))
    (fun u => Ok (mkMining u 1))
    (fun m => Some (msg_Address m))
    (fun _ _ => Some me)
    (fun _ _ => accounts)
    (fun _ _ => 0) (fun _ => 0) (fun _ => None) (fun _ => true) 0 [].

Lemma demo_backend_ok {K : Council} me :
  committee (ValidatorsSort accounts) -> BackendOk (demo_backend me).
Proof.
  intros HK. constructor; cbn.
  - intros a _ vs [= <-]. split; [by eexists _, _, _, _|done].
  - by intros u r [= <-].
  - lia.
Qed.

(** ** A run: every validator proposes nothing else than [the_unit] *)

Definition preprepare_from (a : Address) : Message :=
  mkMessage MsgPreprepare (PPreprepare (mkPreprepare the_view (Some the_unit) None)) a []
    (Some a) None false.
Definition prepare_from (a : Address) : Message :=
  mkMessage MsgPrepare (PSubject the_subject) a [] (Some a) None false.
Definition commit_from (a : Address) : Message :=
  mkMessage MsgCommit (PSubject the_subject) a [] (Some a)
    (Some (mkVote (commit_extra 0) a)) false.

(** The proposer of round 0 after a chain without proposer. *)
Definition first_proposer : Address :=
  match CalcProposer (newDefaultSet 0 0 accounts the_chain) Address.zeroAddress 0 with
  | Some vs => default Address.zeroAddress (proposer vs)
  | None => Address.zeroAddress
  end.

Definition the_events : list event :=
  NewMessage (preprepare_from first_proposer)
  :: map (fun a => NewMessage (prepare_from a)) (take 8 accounts)
  ++ map (fun a => NewMessage (commit_from a)) (take 8 accounts).

Definition handle_all (me : Address) (evs : list event) (w : world) : world :=
  foldl (fun w ev => match Handle demo_cfg (demo_backend me) ev w with
                     | Some (_, w') => w' | None => w end) w evs.

Definition started (me : Address) : world :=
  match Start demo_cfg (demo_backend me) (init me the_chain) with
  | Some (_, w) => w
  | None => init me the_chain
  end.

Definition run (me : Address) : world := handle_all me the_events (started me).

Lemma reachable_run {K : Council} me evs :
  committee (ValidatorsSort accounts) ->
  reachable demo_cfg me the_chain (handle_all me evs (started me)).
Proof.
  intros HK. assert (reachable demo_cfg me the_chain (started me)) as H.
  { destruct (runs_Start demo_cfg _ (demo_backend_ok me HK) _ (Inv_init me the_chain))
      as ([] & w & E & _).
    unfold started. rewrite E. apply rtc_once. eapply step_Start; [by apply demo_backend_ok|done]. }
  revert H. generalize (started me). induction evs as [|ev evs IH]; intros w H; [done|].
  apply IH. destruct (Handle _ _ ev w) as [[e w']|] eqn:E; [|done].
  eapply rtc_r; [done|]. eapply step_Handle; [by apply demo_backend_ok|done].
Qed.

Definition sent_commit (e : effect) : bool :=
  match e with
  | EBroadcast m => (Code m =? MsgCommit) && is_the_subject (Msg m)
  | _ => false
  end.

Definition did_commit (e : effect) : bool :=
  match e with ECommit _ (Some r) _ => unit_Hash (mining_Unit r) =? 77 | _ => false end.

Definition demo_network : network := mkNetwork (list_to_set accounts) run.
Definition the_result : MiningResult := mkMining the_unit 1.
Definition the_set : ValidatorSet := newDefaultSet 0 0 accounts the_chain.
(** The first eight validators in the order their votes are listed. *)
Definition voters : list Address := map account [7; 3; 6; 5; 1; 2; 4; 8].
Definition the_seals : list WitenssVote := map (fun a => mkVote (commit_extra 0) a) voters.

(** ** Facts about the run *)

Lemma all_sent_commit a : a ∈ accounts -> existsb sent_commit (log (run a)) = true.
Proof.
  intros Ha. assert (Forall (fun a => existsb sent_commit (log (run a)) = true) accounts) as H.
  { repeat (constructor; [vm_compute; reflexivity|]). constructor. }
  exact (Forall_elem _ _ _ H Ha).
Qed.

Lemma reachable_the_run {K : Council} me :
  committee (ValidatorsSort accounts) -> reachable demo_cfg me the_chain (run me).
Proof. exact (reachable_run me the_events). Qed.

Lemma council_accounts : council_of accounts (ValidatorsSort accounts).
Proof. apply ValidatorsSort_perm. Qed.

#[local] Opaque run.

Lemma demo_unforgeable : unforgeable demo_network.
Proof.
  intros a m Ha HC Hr. unfold demo_network in Ha. cbn [honest] in Ha.
  apply elem_of_list_to_set in Ha.
  pose proof (all_sent_commit a Ha) as Hs. apply existsb_exists in Hs as (e & Hin & He).
  destruct e as [m'| | | | | | | | | |]; try done.
  cbn in He. apply andb_prop in He as [HC' Hm']. exists m'. split_and!.
  - by apply list_elem_of_In.
  - by apply Z.eqb_eq.
  - cbn in Hr. unfold demo_recover in Hr. destruct (msg_Sign m); [|done].
    rewrite HC in Hr. cbn in Hr. destruct (is_the_subject (Msg m)) eqn:Hm; [|done].
    unfold is_the_subject in *. destruct (Msg m), (Msg m'); try done.
    apply bool_decide_eq_true in Hm, Hm'. by subst.
Qed.

(** ** Witnesses *)

Lemma commit_1 : ECommit the_view (Some the_result) the_seals ∈ log (run (account 1)).
Proof. vm_compute. set_solver. Qed.

Lemma commit_3 : ECommit the_view (Some the_result) the_seals ∈ log (run (account 3)).
Proof. vm_compute. set_solver. Qed.

Lemma agreement_witness :
  ECommit the_view (Some the_result) the_seals ∈ log (run (account 1)) /\
  ECommit the_view (Some the_result) the_seals ∈ log (run (account 3)) /\
  unit_Hash (mining_Unit the_result) = unit_Hash (mining_Unit the_result).
Proof.
  split_and!; [apply commit_1|apply commit_3|].
  apply (agreement demo_cfg the_chain demo_network accounts)
    with (cfg1 := demo_cfg) (me1 := account 1) (chain1 := the_chain) (w1 := run (account 1))
      (cfg2 := demo_cfg) (me2 := account 3) (chain2 := the_chain) (w2 := run (account 3))
      (view := the_view) (seals1 := the_seals) (seals2 := the_seals).
  - intros a _. by apply reachable_the_run.
  - apply demo_unforgeable.
  - reflexivity.
  - vm_compute. lia.
  - apply reachable_the_run, council_accounts.
  - apply reachable_the_run, council_accounts.
  - apply commit_1.
  - apply commit_3.
Defined.

Lemma commit_has_certificate_witness :
  exists vals r msgs, Some the_result = Some r /\ council_of accounts (validators vals) /\
    (8 <= length msgs)%nat /\ NoDup (map msg_Address msgs) /\
    map CommittedSeal msgs = map Some the_seals /\
    Forall (fun m => msg_Address m ∈ validators vals /\ Code m = MsgCommit /\
      recover m = Some (msg_Address m) /\
      (exists sub, decode_subject (Msg m) = Some sub /\ sub_View sub = the_view /\
         Digest sub = unit_Hash (mining_Unit r)) /\
      (exists seal, CommittedSeal m = Some seal /\
         sealSender seal (unit_Hash (mining_Unit r)) = Some (msg_Address m) /\
         length (vote_Extra seal) = ExtraSealSize /\ nth 0 (vote_Extra seal) 0 = MsgCommit /\
         le_value (drop 1 (vote_Extra seal)) = u64 (Round the_view))) msgs.
Proof.
  apply (commit_has_certificate (K := council_of accounts) demo_cfg (account 1) the_chain
    (run (account 1))); [apply reachable_the_run, council_accounts|apply commit_1].
Defined.

(** The COMMIT validator 1 broadcasts in its run. *)
Definition own_commit : Message :=
  mkMessage MsgCommit (PSubject the_subject) (account 1) [] (Some (account 1))
    (Some (mkVote (commit_extra 0) (account 1))) true.

Lemma one_vote_per_view_witness :
  EBroadcast own_commit ∈ log (run (account 1)) /\ Digest the_subject = Digest the_subject.
Proof.
  assert (EBroadcast own_commit ∈ log (run (account 1))) as H by (vm_compute; set_solver).
  split; [exact H|].
  apply (one_vote_per_view (K := any_council) demo_cfg (account 1) the_chain (run (account 1)) own_commit own_commit);
    [by apply reachable_the_run|exact H|exact H|reflexivity..].
Defined.

Lemma Handle_never_panics_witness :
  exists e w', Handle demo_cfg (demo_backend (account 2)) NewTx (run (account 2)) = Some (e, w') /\
    reachable (K := council_of accounts) demo_cfg (account 2) the_chain w'.
Proof.
  apply Handle_never_panics;
    [apply reachable_the_run, council_accounts|apply demo_backend_ok, council_accounts].
Defined.

(** A round in which validators 1 to 8 prepared and 3 to 8 committed. *)
Definition collect (l : list Message) : messageSet :=
  foldl (fun ms m => fst (Add ms m)) (newMessageSet the_set) l.
Definition busy_round : roundState :=
  set_Commits (set_Prepares (newRoundState the_view the_set the_chain None None None)
                 (collect (map prepare_from (take 8 accounts))))
    (collect (map commit_from (drop 2 (take 9 accounts)))).

Lemma GetPrepareOrCommitSize_spec_witness :
  GetPrepareOrCommitSize busy_round = 9 /\
  GetPrepareOrCommitSize busy_round
  = Z.of_nat (size (dom (messages (Prepares busy_round)) ∪ dom (messages (Commits busy_round)))).
Proof.
  split; [vm_compute; reflexivity|]. apply GetPrepareOrCommitSize_spec.
  repeat apply keyed_Add. apply keyed_new.
Defined.

End Demo.
