(* ===== verification/StateDb.v ===== *)
(** The account state ([src/core/state/statedb.go], [state_object.go],
    [journal.go]): live account objects over a trie, and the journal that
    undoes changes.

    A [*stateObject] is only ever mutated while it is the object its database
    holds for its address, so objects are values and a method returns the
    changed object and database; [put] writes it back through the pointer.
    A [*big.Int] balance is replaced, never changed in place.  The journal is
    kept newest entry first.  A [common.Hash] is the integer of its bytes.
    [None] is a Go panic. *)
From S2P Require Import Prelude Bech32 Address EvmWord EvmAnalysis EvmState.

Module Db.

Abbreviation Address := Address.Address.
Abbreviation Hash := Z.

(** [common.BytesToHash] and [hash[:]]. *)
Definition BytesToHash (b : bytes) : Hash :=
  be_value (if (32 <? length b)%nat then drop (length b - 32) b else b).
Definition hash_bytes (h : Hash) : bytes := be_bytes 32 h.

(** [Account]; a nil [Balance] or [CodeHash] is [None]. *)
Record Account := mkAccount {
  acc_Nonce : Z;
  acc_Balance : option Z;
  acc_Root : Hash;
  acc_CodeHash : option bytes
}.
Definition zeroAccount : Account := mkAccount 0 None 0 None.

(** The interfaces [Trie] and [Database] and the encodings of package [rlp].
    [open_empty] is [OpenStorageTrie] at the zero root, which reads nothing. *)
Class Backing := {
  trie : Type;
  terr : Type;
  TryGet : trie -> bytes -> result terr bytes;
  TryUpdate : trie -> bytes -> bytes -> trie * option terr;
  TryDelete : trie -> bytes -> trie * option terr;
  trie_Hash : trie -> Hash;
  OpenTrie : bytes -> Hash -> result terr trie;
  OpenStorageTrie : bytes -> Hash -> Hash -> result terr trie;
  open_empty : bytes -> Hash -> trie;
  ContractCode : bytes -> Hash -> Hash -> result terr bytes;
  ContractCodeSize : bytes -> Hash -> Hash -> Z * option terr;
  rlp_account : Account -> option bytes;
  rlp_decode_account : bytes -> result terr Account;
  rlp_bytes : bytes -> bytes;
  rlp_Split : bytes -> bytes * option terr
}.

Section Db.
Context {B : Backing} {K : State.Crypto}.
(** [config.IgnoreAcctCheck]. *)
Context (IgnoreAcctCheck : bool).

Definition Keccak256Hash (b : bytes) : Hash := BytesToHash (State.Keccak256 b).
Definition emptyCodeHash : bytes := State.Keccak256 [].

(** ** Data *)

Record stateObject := mkObject {
  address : Address;
  addrHash : Hash;
  data : Account;
  o_dbErr : option terr;
  o_trie : option trie;
  code : option bytes;
  cachedStorage : gmap Hash Hash;
  dirtyStorage : gmap Hash Hash;
  flow : Z;
  dirtyCode : bool;
  suicided : bool;
  touched : bool;
  deleted : bool;
  onDirty : bool;  (* whether the callback is still set *)
  initBalance : Z
}.

Inductive journalEntry :=
| createObjectChange (account : Address)
| resetObjectChange (prev : stateObject)
| suicideChange (account : Address) (prev : bool) (prevbalance : Z)
| balanceChange (account : Address) (prev : Z)
| nonceChange (account : Address) (prev : Z)
| storageChange (account : Address) (key prevalue : Hash)
| codeChange (account : Address) (prevcode : option bytes) (prevhash : bytes)
| refundChange (prev : Z)
| addLogChange (txhash : Hash)
| addPreimageChange (hash : Hash)
| touchChange (account : Address) (prev prevDirty : bool).

(** A stored log: what the machine gave and what [AddLog] adds. *)
Record StoredLog := mkStoredLog {
  log_Log : State.Log;
  log_TxHash : Hash;
  log_UnitHash : Hash;
  log_TxIndex : Z;
  log_Index : Z
}.

Record revision := mkRevision { id : Z; journalIndex : nat }.

Record StateDB := mkDB {
  dataPrefix : bytes;
  db_trie : trie;
  stateObjects : gmap Address stateObject;
  stateObjectsDirty : gset Address;
  dbErr : option terr;
  refund : Z;
  thash : Hash;
  bhash : Hash;
  txIndex : Z;
  unitNumber : Z;
  logs : gmap Hash (list StoredLog);
  logSize : Z;
  preimages : gmap Hash bytes;
  journal : list journalEntry;
  validRevisions : list revision;
  nextRevisionId : Z;
  balanceChanges : gmap Address Z
}.

(** *** Field updates *)

Definition with_trie v s := mkDB (dataPrefix s) v (stateObjects s) (stateObjectsDirty s)
  (dbErr s) (refund s) (thash s) (bhash s) (txIndex s) (unitNumber s) (logs s) (logSize s)
  (preimages s) (journal s) (validRevisions s) (nextRevisionId s) (balanceChanges s).
Definition with_objects v s := mkDB (dataPrefix s) (db_trie s) v (stateObjectsDirty s)
  (dbErr s) (refund s) (thash s) (bhash s) (txIndex s) (unitNumber s) (logs s) (logSize s)
  (preimages s) (journal s) (validRevisions s) (nextRevisionId s) (balanceChanges s).
Definition with_dirty v s := mkDB (dataPrefix s) (db_trie s) (stateObjects s) v
  (dbErr s) (refund s) (thash s) (bhash s) (txIndex s) (unitNumber s) (logs s) (logSize s)
  (preimages s) (journal s) (validRevisions s) (nextRevisionId s) (balanceChanges s).
Definition with_dbErr v s := mkDB (dataPrefix s) (db_trie s) (stateObjects s)
  (stateObjectsDirty s) v (refund s) (thash s) (bhash s) (txIndex s) (unitNumber s) (logs s)
  (logSize s) (preimages s) (journal s) (validRevisions s) (nextRevisionId s) (balanceChanges s).
Definition with_refund v s := mkDB (dataPrefix s) (db_trie s) (stateObjects s)
  (stateObjectsDirty s) (dbErr s) v (thash s) (bhash s) (txIndex s) (unitNumber s) (logs s)
  (logSize s) (preimages s) (journal s) (validRevisions s) (nextRevisionId s) (balanceChanges s).
Definition with_tx t b i n s := mkDB (dataPrefix s) (db_trie s) (stateObjects s)
  (stateObjectsDirty s) (dbErr s) (refund s) t b i n (logs s) (logSize s) (preimages s)
  (journal s) (validRevisions s) (nextRevisionId s) (balanceChanges s).
Definition with_logs v s := mkDB (dataPrefix s) (db_trie s) (stateObjects s)
  (stateObjectsDirty s) (dbErr s) (refund s) (thash s) (bhash s) (txIndex s) (unitNumber s) v
  (logSize s) (preimages s) (journal s) (validRevisions s) (nextRevisionId s) (balanceChanges s).
Definition with_logSize v s := mkDB (dataPrefix s) (db_trie s) (stateObjects s)
  (stateObjectsDirty s) (dbErr s) (refund s) (thash s) (bhash s) (txIndex s) (unitNumber s)
  (logs s) v (preimages s) (journal s) (validRevisions s) (nextRevisionId s) (balanceChanges s).
Definition with_preimages v s := mkDB (dataPrefix s) (db_trie s) (stateObjects s)
  (stateObjectsDirty s) (dbErr s) (refund s) (thash s) (bhash s) (txIndex s) (unitNumber s)
  (logs s) (logSize s) v (journal s) (validRevisions s) (nextRevisionId s) (balanceChanges s).
Definition with_journal v s := mkDB (dataPrefix s) (db_trie s) (stateObjects s)
  (stateObjectsDirty s) (dbErr s) (refund s) (thash s) (bhash s) (txIndex s) (unitNumber s)
  (logs s) (logSize s) (preimages s) v (validRevisions s) (nextRevisionId s) (balanceChanges s).
Definition with_revisions v s := mkDB (dataPrefix s) (db_trie s) (stateObjects s)
  (stateObjectsDirty s) (dbErr s) (refund s) (thash s) (bhash s) (txIndex s) (unitNumber s)
  (logs s) (logSize s) (preimages s) (journal s) v (nextRevisionId s) (balanceChanges s).
Definition with_nextRevisionId v s := mkDB (dataPrefix s) (db_trie s) (stateObjects s)
  (stateObjectsDirty s) (dbErr s) (refund s) (thash s) (bhash s) (txIndex s) (unitNumber s)
  (logs s) (logSize s) (preimages s) (journal s) (validRevisions s) v (balanceChanges s).
Definition with_balanceChanges v s := mkDB (dataPrefix s) (db_trie s) (stateObjects s)
  (stateObjectsDirty s) (dbErr s) (refund s) (thash s) (bhash s) (txIndex s) (unitNumber s)
  (logs s) (logSize s) (preimages s) (journal s) (validRevisions s) (nextRevisionId s) v.

Definition set_data v o := mkObject (address o) (addrHash o) v (o_dbErr o) (o_trie o) (code o)
  (cachedStorage o) (dirtyStorage o) (flow o) (dirtyCode o) (suicided o) (touched o) (deleted o)
  (onDirty o) (initBalance o).
Definition set_o_dbErr v o := mkObject (address o) (addrHash o) (data o) v (o_trie o) (code o)
  (cachedStorage o) (dirtyStorage o) (flow o) (dirtyCode o) (suicided o) (touched o) (deleted o)
  (onDirty o) (initBalance o).
Definition set_o_trie v o := mkObject (address o) (addrHash o) (data o) (o_dbErr o) v (code o)
  (cachedStorage o) (dirtyStorage o) (flow o) (dirtyCode o) (suicided o) (touched o) (deleted o)
  (onDirty o) (initBalance o).
Definition set_code v o := mkObject (address o) (addrHash o) (data o) (o_dbErr o) (o_trie o) v
  (cachedStorage o) (dirtyStorage o) (flow o) (dirtyCode o) (suicided o) (touched o) (deleted o)
  (onDirty o) (initBalance o).
Definition set_cachedStorage v o := mkObject (address o) (addrHash o) (data o) (o_dbErr o)
  (o_trie o) (code o) v (dirtyStorage o) (flow o) (dirtyCode o) (suicided o) (touched o)
  (deleted o) (onDirty o) (initBalance o).
Definition set_dirtyStorage v o := mkObject (address o) (addrHash o) (data o) (o_dbErr o)
  (o_trie o) (code o) (cachedStorage o) v (flow o) (dirtyCode o) (suicided o) (touched o)
  (deleted o) (onDirty o) (initBalance o).
Definition set_flow v o := mkObject (address o) (addrHash o) (data o) (o_dbErr o) (o_trie o)
  (code o) (cachedStorage o) (dirtyStorage o) v (dirtyCode o) (suicided o) (touched o) (deleted
  o) (onDirty o) (initBalance o).
Definition set_dirtyCode v o := mkObject (address o) (addrHash o) (data o) (o_dbErr o) (o_trie
  o) (code o) (cachedStorage o) (dirtyStorage o) (flow o) v (suicided o) (touched o) (deleted o)
  (onDirty o) (initBalance o).
Definition set_suicided v o := mkObject (address o) (addrHash o) (data o) (o_dbErr o) (o_trie o)
  (code o) (cachedStorage o) (dirtyStorage o) (flow o) (dirtyCode o) v (touched o) (deleted o)
  (onDirty o) (initBalance o).
Definition set_touched v o := mkObject (address o) (addrHash o) (data o) (o_dbErr o) (o_trie o)
  (code o) (cachedStorage o) (dirtyStorage o) (flow o) (dirtyCode o) (suicided o) v (deleted o)
  (onDirty o) (initBalance o).
Definition set_deleted v o := mkObject (address o) (addrHash o) (data o) (o_dbErr o) (o_trie o)
  (code o) (cachedStorage o) (dirtyStorage o) (flow o) (dirtyCode o) (suicided o) (touched o) v
  (onDirty o) (initBalance o).
Definition set_onDirty v o := mkObject (address o) (addrHash o) (data o) (o_dbErr o) (o_trie o)
  (code o) (cachedStorage o) (dirtyStorage o) (flow o) (dirtyCode o) (suicided o) (touched o)
  (deleted o) v (initBalance o).
Definition set_initBalance v o := mkObject (address o) (addrHash o) (data o) (o_dbErr o) (o_trie
  o) (code o) (cachedStorage o) (dirtyStorage o) (flow o) (dirtyCode o) (suicided o) (touched o)
  (deleted o) (onDirty o) v.

Definition acc_set_Nonce v d := mkAccount v (acc_Balance d) (acc_Root d) (acc_CodeHash d).
Definition acc_set_Balance v d := mkAccount (acc_Nonce d) (Some v) (acc_Root d) (acc_CodeHash d).
Definition acc_set_Root v d := mkAccount (acc_Nonce d) (acc_Balance d) v (acc_CodeHash d).
Definition acc_set_CodeHash v d := mkAccount (acc_Nonce d) (acc_Balance d) (acc_Root d) (Some v).

(** [setError] remembers the first error. *)
Definition first_error (old new : option terr) : option terr :=
  match old with Some e => Some e | None => new end.
Definition setError (err : option terr) (s : StateDB) : StateDB :=
  with_dbErr (first_error (dbErr s) err) s.
Definition o_setError (err : option terr) (o : stateObject) : stateObject :=
  set_o_dbErr (first_error (o_dbErr o) err) o.

Definition record (e : journalEntry) (s : StateDB) : StateDB := with_journal (e :: journal s) s.

(** ** State objects ([state_object.go]) *)

(** Never nil after [newObject]. *)
Definition Balance (o : stateObject) : Z := default 0 (acc_Balance (data o)).
Definition Nonce (o : stateObject) : Z := acc_Nonce (data o).
Definition CodeHash (o : stateObject) : bytes := default [] (acc_CodeHash (data o)).

Definition empty (o : stateObject) : bool :=
  (Nonce o =? 0) && (Balance o =? 0) && bool_decide (CodeHash o = emptyCodeHash).

Definition OnChain (o : stateObject) (chain : Address) : bool :=
  if bool_decide (address o = chain) then true
  else if Address.IsContract chain then
    if negb (Address.IsContract (address o)) then false else (0 <? length (CodeHash o))%nat
  else false.

Definition newObject (addr : Address) (d : Account) : stateObject :=
  let balance := default 0 (acc_Balance d) in
  let codeHash := default emptyCodeHash (acc_CodeHash d) in
  let balance := if IgnoreAcctCheck && (balance =? 0) then 2 ^ 32 else balance in
  mkObject addr (Keccak256Hash (Address.hash addr))
    (mkAccount (acc_Nonce d) (Some balance) (acc_Root d) (Some codeHash))
    None None None ∅ ∅ 0 false false false false true balance.

Definition MarkStateObjectDirty (addr : Address) (s : StateDB) : StateDB :=
  with_dirty ({[addr]} ∪ stateObjectsDirty s) s.

(** A method's receiver and its database. *)
Definition cell : Type := StateDB * stateObject.

(** [if o.onDirty != nil { o.onDirty(o.Address()); o.onDirty = nil }]. *)
Definition mark (p : cell) : cell :=
  let '(s, o) := p in
  if onDirty o then (MarkStateObjectDirty (address o) s, set_onDirty false o) else p.

Definition markSuicided (p : cell) : cell :=
  let '(s, o) := p in mark (s, set_suicided true o).

Definition touch (p : cell) : cell :=
  let '(s, o) := p in
  let s := record (touchChange (address o) (touched o) (negb (onDirty o))) s in
  let '(s, o) := mark (s, o) in
  (s, set_touched true o).

Definition setBalance (amount : Z) (p : cell) : cell :=
  let '(s, o) := p in mark (s, set_data (acc_set_Balance amount (data o)) o).
Definition SetBalance (amount : Z) (p : cell) : cell :=
  let '(s, o) := p in
  setBalance amount (record (balanceChange (address o) (Balance o)) s, o).

Definition AddBalance (amount : Z) (p : cell) : cell :=
  let '(s, o) := p in
  if amount =? 0 then (if empty o then touch p else p)
  else
    let '(s, o) := SetBalance (Balance o + amount) p in
    (s, set_flow (flow o + amount) o).

Definition SubBalance (amount : Z) (p : cell) : cell :=
  let '(s, o) := p in
  if amount =? 0 then p
  else
    let '(s, o) := SetBalance (Balance o - amount) p in
    (s, set_flow (flow o - amount) o).

Definition setNonce (nonce : Z) (p : cell) : cell :=
  let '(s, o) := p in mark (s, set_data (acc_set_Nonce nonce (data o)) o).
Definition SetNonce (nonce : Z) (p : cell) : cell :=
  let '(s, o) := p in setNonce nonce (record (nonceChange (address o) (Nonce o)) s, o).

(** [Code]: the cached code, or the code read and cached. *)
Definition Code (s : StateDB) (o : stateObject) : option bytes * stateObject :=
  match code o with
  | Some c => (Some c, o)
  | None =>
      if bool_decide (CodeHash o = emptyCodeHash) then (None, o)
      else
        match ContractCode (dataPrefix s) (addrHash o) (BytesToHash (CodeHash o)) with
        | Ok c => (Some c, set_code (Some c) o)
        | Err e => (None, set_code None (o_setError (Some e) o))
        end
  end.

Definition setCode (codeHash : Hash) (c : option bytes) (p : cell) : cell :=
  let '(s, o) := p in
  let o := set_code c o in
  let o := set_data (acc_set_CodeHash (hash_bytes codeHash) (data o)) o in
  mark (s, set_dirtyCode true o).
Definition SetCode (codeHash : Hash) (c : option bytes) (p : cell) : cell :=
  let '(s, o) := p in
  let '(prevcode, o) := Code s o in
  setCode codeHash c (record (codeChange (address o) prevcode (CodeHash o)) s, o).

(** [getTrie] opens the storage trie on first use. *)
Definition getTrie (s : StateDB) (o : stateObject) : trie * stateObject :=
  match o_trie o with
  | Some t => (t, o)
  | None =>
      match OpenStorageTrie (dataPrefix s) (addrHash o) (acc_Root (data o)) with
      | Ok t => (t, set_o_trie (Some t) o)
      | Err e =>
          let t := open_empty (dataPrefix s) (addrHash o) in
          (t, o_setError (Some e) (set_o_trie (Some t) o))
      end
  end.

Definition o_GetState (s : StateDB) (o : stateObject) (key : Hash) : Hash * stateObject :=
  match cachedStorage o !! key with
  | Some value => (value, o)
  | None =>
      let '(t, o) := getTrie s o in
      match TryGet t (hash_bytes key) with
      | Err e => (0, o_setError (Some e) o)
      | Ok enc =>
          let '(value, o) :=
            if (0 <? length enc)%nat then
              let '(content, err) := rlp_Split enc in
              (BytesToHash content, o_setError err o)
            else (0, o) in
          if negb (value =? 0)
          then (value, set_cachedStorage (<[key := value]> (cachedStorage o)) o)
          else (value, o)
      end
  end.

Definition o_setState (key value : Hash) (p : cell) : cell :=
  let '(s, o) := p in
  let o := set_cachedStorage (<[key := value]> (cachedStorage o)) o in
  mark (s, set_dirtyStorage (<[key := value]> (dirtyStorage o)) o).
Definition o_SetState (key value : Hash) (p : cell) : cell :=
  let '(s, o) := p in
  let '(prevalue, o) := o_GetState s o key in
  o_setState key value (record (storageChange (address o) key prevalue) s, o).

(** [bytes.TrimLeft(value[:], 0)]. *)
Fixpoint trim_zeros (b : bytes) : bytes :=
  match b with
  | x :: b' => if x =? 0 then trim_zeros b' else b
  | [] => []
  end.

(** One round of [updateTrie]'s loop. *)
Definition write_slot (kv : Hash * Hash) (to : trie * stateObject) : trie * stateObject :=
  let '(t, o) := to in
  let '(t, err) :=
    if kv.2 =? 0 then TryDelete t (hash_bytes kv.1)
    else TryUpdate t (hash_bytes kv.1) (rlp_bytes (trim_zeros (hash_bytes kv.2))) in
  (t, o_setError err (set_dirtyStorage (delete kv.1 (dirtyStorage o)) o)).

Definition updateTrie (s : StateDB) (o : stateObject) : trie * stateObject :=
  let '(t, o) := getTrie s o in
  let '(t, o) := foldr write_slot (t, o) (map_to_list (dirtyStorage o)) in
  (t, set_o_trie (Some t) o).

Definition updateRoot (s : StateDB) (o : stateObject) : stateObject :=
  let '(t, o) := updateTrie s o in
  set_data (acc_set_Root (trie_Hash t) (data o)) o.

(** [GetBalanceChanges]: before, now, difference. *)
Definition GetBalanceChanges (reset : bool) (o : stateObject) : Z * Z * Z * stateObject :=
  let b := initBalance o in
  let n := Balance o in
  (b, n, n - b, if reset then set_initBalance n o else o).

Definition deepCopy (o : stateObject) : stateObject :=
  let c := newObject (address o) (data o) in
  mkObject (address c) (addrHash c) (data c) None (o_trie o) (code o)
    (dirtyStorage o) (dirtyStorage o) (flow c) (dirtyCode o) (suicided o) (touched c)
    (deleted o) (onDirty c) (initBalance o).

(** ** The database ([statedb.go]) *)

Definition new_StateDB (prefix : bytes) (t : trie) : StateDB :=
  mkDB prefix t ∅ ∅ None 0 0 0 0 0 ∅ 0 ∅ [] [] 0 ∅.

Definition New (prefix : bytes) (root : Hash) : result terr StateDB :=
  match OpenTrie prefix root with
  | Err e => Err e
  | Ok t => Ok (new_StateDB prefix t)
  end.

Definition clearJournalAndRefund (s : StateDB) : StateDB :=
  with_refund 0 (with_revisions [] (with_journal [] s)).

Definition Reset (prefix : bytes) (root : Hash) (s : StateDB) : StateDB * option terr :=
  match OpenTrie prefix root with
  | Err e => (s, Some e)
  | Ok t =>
      let s := with_dirty ∅ (with_objects ∅ (with_trie t s)) in
      let s := with_tx 0 0 0 (unitNumber s) s in
      let s := with_balanceChanges ∅ (with_preimages ∅ (with_logSize 0 (with_logs ∅ s))) in
      (clearJournalAndRefund s, None)
  end.

Definition setStateObject (o : stateObject) (s : StateDB) : StateDB :=
  let s :=
    match balanceChanges s !! address o with
    | Some _ => s
    | None => with_balanceChanges (<[address o := Balance o]> (balanceChanges s)) s
    end in
  with_objects (<[address o := o]> (stateObjects s)) s.

(** [getStateObject]: the live object, or the account read from the trie and
    made live. *)
Definition getStateObject (addr : Address) (s : StateDB) : option stateObject * StateDB :=
  match stateObjects s !! addr with
  | Some obj => (if deleted obj then None else Some obj, s)
  | None =>
      match TryGet (db_trie s) (Address.hash addr) with
      | Err e => (None, setError (Some e) s)
      | Ok enc =>
          if (length enc =? 0)%nat then (None, s)
          else
            match rlp_decode_account enc with
            | Err _ => (None, s)
            | Ok d => let obj := newObject addr d in (Some obj, setStateObject obj s)
            end
      end
  end.

(** Writing through a pointer to a live object. *)
Definition put (p : cell) : StateDB :=
  let '(s, o) := p in with_objects (<[address o := o]> (stateObjects s)) s.

(** [createObject]: the new object, live, and the one it replaces. *)
Definition createObject (addr : Address) (s : StateDB) : option stateObject * cell :=
  let '(prev, s) := getStateObject addr s in
  let '(s, newobj) := setNonce 0 (s, newObject addr zeroAccount) in
  let s :=
    match prev with
    | None => record (createObjectChange addr) s
    | Some p => record (resetObjectChange p) s
    end in
  (prev, (setStateObject newobj s, newobj)).

Definition GetOrNewStateObject (addr : Address) (s : StateDB) : cell :=
  match getStateObject addr s with
  | (Some o, s) => if deleted o then snd (createObject addr s) else (s, o)
  | (None, s) => snd (createObject addr s)
  end.

Definition CreateAccount (addr : Address) (s : StateDB) : StateDB :=
  match createObject addr s with
  | (Some prev, p) => put (setBalance (Balance prev) p)
  | (None, (s, _)) => s
  end.

Definition AddLog (l : State.Log) (s : StateDB) : StateDB :=
  let s := record (addLogChange (thash s)) s in
  let l := mkStoredLog (State.mkLog (State.log_Address l) (State.Topics l) (State.log_Data l)
                          (unitNumber s))
             (thash s) (bhash s) (txIndex s) (logSize s) in
  let s := with_logs (<[thash s := default [] (logs s !! thash s) ++ [l]]> (logs s)) s in
  with_logSize (logSize s + 1) s.

Definition GetLogs (h : Hash) (s : StateDB) : list StoredLog := default [] (logs s !! h).

Definition AddPreimage (h : Hash) (preimage : bytes) (s : StateDB) : StateDB :=
  match preimages s !! h with
  | Some _ => s
  | None =>
      let s := record (addPreimageChange h) s in
      with_preimages (<[h := preimage]> (preimages s)) s
  end.

Definition AddRefund (gas : Z) (s : StateDB) : StateDB :=
  let s := record (refundChange (refund s)) s in
  with_refund (u64 (refund s + gas)) s.

Definition SubRefund (gas : Z) (s : StateDB) : option StateDB :=
  let s := record (refundChange (refund s)) s in
  if gas >? refund s then None else Some (with_refund (refund s - gas) s).

(** *** Getters; each also answers the database, whose caches may have grown. *)

Definition Exist (addr : Address) (s : StateDB) : bool * StateDB :=
  let '(o, s) := getStateObject addr s in (bool_decide (is_Some o), s).

Definition Empty (addr : Address) (s : StateDB) : bool * StateDB :=
  let '(o, s) := getStateObject addr s in
  (match o with None => true | Some o => empty o end, s).

Definition GetBalance (addr : Address) (s : StateDB) : Z * StateDB :=
  match getStateObject addr s with
  | (Some o, s) => (Balance o, s)
  | (None, s) => (if IgnoreAcctCheck then 2 ^ 32 else 0, s)
  end.

Definition GetNonce (addr : Address) (s : StateDB) : Z * StateDB :=
  match getStateObject addr s with
  | (Some o, s) => (Nonce o, s)
  | (None, s) => (0, s)
  end.

Definition GetCode (addr : Address) (s : StateDB) : option bytes * StateDB :=
  match getStateObject addr s with
  | (Some o, s) => let '(c, o) := Code s o in (c, put (s, o))
  | (None, s) => (None, s)
  end.

Definition GetCodeSize (addr : Address) (s : StateDB) : Z * StateDB :=
  match getStateObject addr s with
  | (None, s) => (0, s)
  | (Some o, s) =>
      match code o with
      | Some c => (Z.of_nat (length c), s)
      | None =>
          let '(size, err) :=
            ContractCodeSize (dataPrefix s) (addrHash o) (BytesToHash (CodeHash o)) in
          (size, match err with Some _ => setError err s | None => s end)
      end
  end.

Definition GetCodeHash (addr : Address) (s : StateDB) : Hash * StateDB :=
  match getStateObject addr s with
  | (Some o, s) => (BytesToHash (CodeHash o), s)
  | (None, s) => (0, s)
  end.

Definition GetState (addr : Address) (key : Hash) (s : StateDB) : Hash * StateDB :=
  match getStateObject addr s with
  | (Some o, s) => let '(v, o) := o_GetState s o key in (v, put (s, o))
  | (None, s) => (0, s)
  end.

Definition HasSuicided (addr : Address) (s : StateDB) : bool * StateDB :=
  match getStateObject addr s with
  | (Some o, s) => (suicided o, s)
  | (None, s) => (false, s)
  end.

Definition GetRefund (s : StateDB) : Z := refund s.

(** *** Setters *)

Definition db_AddBalance (addr : Address) (amount : Z) (s : StateDB) : StateDB :=
  put (AddBalance amount (GetOrNewStateObject addr s)).
Definition db_SubBalance (addr : Address) (amount : Z) (s : StateDB) : StateDB :=
  put (SubBalance amount (GetOrNewStateObject addr s)).
Definition db_SetBalance (addr : Address) (amount : Z) (s : StateDB) : StateDB :=
  put (SetBalance amount (GetOrNewStateObject addr s)).
Definition db_SetNonce (addr : Address) (nonce : Z) (s : StateDB) : StateDB :=
  put (SetNonce nonce (GetOrNewStateObject addr s)).
(** A nil slice hashes like an empty one. *)
Definition db_SetCode (addr : Address) (c : option bytes) (s : StateDB) : StateDB :=
  put (SetCode (Keccak256Hash (default [] c)) c (GetOrNewStateObject addr s)).
Definition SetState (addr : Address) (key value : Hash) (s : StateDB) : StateDB :=
  put (o_SetState key value (GetOrNewStateObject addr s)).

Definition Suicide (addr : Address) (s : StateDB) : bool * StateDB :=
  match getStateObject addr s with
  | (None, s) => (false, s)
  | (Some o, s) =>
      let s := record (suicideChange addr (suicided o) (Balance o)) s in
      let '(s, o) := markSuicided (s, o) in
      (true, put (s, set_data (acc_set_Balance 0 (data o)) o))
  end.

(** ** The journal ([journal.go]) *)

Definition ripemd : Address := Address.BytesToAddress [3].

(** Applying a method to the live object of an address; [None] dereferences
    a nil object. *)
Definition on_object (addr : Address) (f : cell -> cell) (s : StateDB) : option StateDB :=
  match getStateObject addr s with
  | (Some o, s) => Some (put (f (s, o)))
  | (None, _) => None
  end.

Definition undo (e : journalEntry) (s : StateDB) : option StateDB :=
  match e with
  | createObjectChange a =>
      Some (with_dirty (stateObjectsDirty s ∖ {[a]})
              (with_objects (delete a (stateObjects s)) s))
  | resetObjectChange prev => Some (setStateObject prev s)
  | suicideChange a prev prevbalance =>
      match getStateObject a s with
      | (None, s) => Some s
      | (Some o, s) => Some (put (setBalance prevbalance (s, set_suicided prev o)))
      end
  | touchChange a prev prevDirty =>
      if negb prev && negb (bool_decide (a = ripemd)) then
        match on_object a (fun '(s, o) => (s, set_touched prev o)) s with
        | None => None
        | Some s =>
            Some (if negb prevDirty then with_dirty (stateObjectsDirty s ∖ {[a]}) s else s)
        end
      else Some s
  | balanceChange a prev => on_object a (setBalance prev) s
  | nonceChange a prev => on_object a (setNonce prev) s
  | codeChange a prevcode prevhash => on_object a (setCode (BytesToHash prevhash) prevcode) s
  | storageChange a key prevalue => on_object a (o_setState key prevalue) s
  | refundChange prev => Some (with_refund prev s)
  | addLogChange h =>
      let l := default [] (logs s !! h) in
      if (length l =? 1)%nat then Some (with_logs (delete h (logs s)) s)
      else if (length l =? 0)%nat then None
      else Some (with_logs (<[h := take (length l - 1) l]> (logs s)) s)
  | addPreimageChange h => Some (with_preimages (delete h (preimages s)) s)
  end.

(** The loop of [RevertToSnapshot], newest entry first. *)
Fixpoint undo_all (es : list journalEntry) (s : StateDB) : option StateDB :=
  match es with
  | [] => Some s
  | e :: es' => match undo e s with None => None | Some s => undo_all es' s end
  end.

Definition Snapshot (s : StateDB) : Z * StateDB :=
  let i := nextRevisionId s in
  let s := with_nextRevisionId (i + 1) s in
  (i, with_revisions (validRevisions s ++ [mkRevision i (length (journal s))]) s).

(** [sort.Search(n, f)]: binary search; the interval halves each round, so the
    starting length is enough fuel. *)
Fixpoint sort_search_loop (fuel : nat) (f : nat -> bool) (i j : nat) : nat :=
  match fuel with
  | O => i
  | S fuel' =>
      if (i <? j)%nat then
        let h := ((i + j) / 2)%nat in
        if negb (f h) then sort_search_loop fuel' f (h + 1) j
        else sort_search_loop fuel' f i h
      else i
  end.
Definition sort_Search (n : nat) (f : nat -> bool) : nat := sort_search_loop n f 0 n.

Definition RevertToSnapshot (revid : Z) (s : StateDB) : option StateDB :=
  let revs := validRevisions s in
  let idx := sort_Search (length revs)
               (fun i => match revs !! i with Some r => id r >=? revid | None => false end) in
  match revs !! idx with
  | None => None
  | Some r =>
      if negb (id r =? revid) then None
      else
        let snapshot := journalIndex r in
        let n := length (journal s) in
        match undo_all (take (n - snapshot) (journal s)) s with
        | None => None
        | Some s =>
            if (n <? snapshot)%nat then None
            else Some (with_revisions (take idx revs)
                         (with_journal (drop (n - snapshot) (journal s)) s))
        end
  end.

(** ** Between transactions *)

Definition Prepare (th bh : Hash) (ti number : Z) (s : StateDB) : StateDB :=
  with_tx th bh ti number s.

(** [updateStateObject] panics when the account cannot be encoded. *)
Definition updateStateObject (p : cell) : option cell :=
  let '(s, o) := p in
  let o := set_flow 0 o in
  match rlp_account (data o) with
  | None => None
  | Some enc =>
      let '(t, err) := TryUpdate (db_trie s) (Address.hash (address o)) enc in
      Some (setError err (with_trie t s), o)
  end.

Definition deleteStateObject (p : cell) : cell :=
  let '(s, o) := p in
  let o := set_deleted true o in
  let '(t, err) := TryDelete (db_trie s) (Address.hash (address o)) in
  (setError err (with_trie t s), o).

(** One round of [Finalise]. *)
Definition finalise_object (chain : Address) (addr : Address) (o : stateObject) (s : StateDB)
    : option StateDB :=
  let isDirty := bool_decide (addr ∈ stateObjectsDirty s) in
  if suicided o || (isDirty && empty o) then
    Some (put (deleteStateObject (s, o)))
  else if isDirty && (Address.Empty chain || OnChain o chain) then
    match updateStateObject (s, updateRoot s o) with
    | None => None
    | Some p => Some (put p)
    end
  else Some s.

Definition Finalise (chain : Address) (s : StateDB) : option StateDB :=
  match
    foldl (fun acc kv => match acc with
                         | None => None
                         | Some s => finalise_object chain kv.1 kv.2 s
                         end)
      (Some s) (map_to_list (stateObjects s))
  with
  | None => None
  | Some s => Some (clearJournalAndRefund s)
  end.

Record BalanceJourna := mkBalanceJourna {
  bj_Address : Address; Before : Z; Now : Z; Diff : Z
}.

(** [sort.Slice] and [sort.Sort] on entries no two of which are equal. *)
Fixpoint insert_sorted {A} (less : A -> A -> bool) (x : A) (l : list A) : list A :=
  match l with
  | [] => [x]
  | y :: l' => if less y x then y :: insert_sorted less x l' else x :: l
  end.
Definition sort_by {A} (less : A -> A -> bool) (l : list A) : list A :=
  foldr (insert_sorted less) [] l.

Definition GetBalanceChanged (s : StateDB) : list BalanceJourna * StateDB :=
  let entry (kv : Address * stateObject) :=
    let '(before, now, diff, _) := GetBalanceChanges true kv.2 in
    mkBalanceJourna kv.1 before now diff in
  let changes := map entry (map_to_list (stateObjects s)) in
  (sort_by (fun x y => bytes_ltb (Address.hash (bj_Address x)) (Address.hash (bj_Address y)))
     changes,
   with_objects ((fun o => snd (GetBalanceChanges true o)) <$> stateObjects s) s).

Definition IntermediateRoot (chain : Address) (s : StateDB)
    : option (Hash * list BalanceJourna * StateDB) :=
  let '(changes, s) := GetBalanceChanged s in
  match Finalise chain s with
  | None => None
  | Some s => Some (trie_Hash (db_trie s), changes, s)
  end.

Definition delete_suicided (addr : Address) (s : StateDB) : option StateDB :=
  match stateObjects s !! addr with
  | None => None
  | Some o =>
      let o := if suicided o then set_deleted true o else o in
      Some (with_dirty (stateObjectsDirty s ∖ {[addr]})
              (with_objects (<[addr := o]> (stateObjects s)) s))
  end.

Definition DeleteSuicides (s : StateDB) : option StateDB :=
  foldl (fun acc addr => match acc with None => None | Some s => delete_suicided addr s end)
    (Some (clearJournalAndRefund s)) (elements (stateObjectsDirty s)).

(** [obj.flow], the sum of what was added and taken since [ClearFlow]. *)
Definition ClearFlow (s : StateDB) : StateDB :=
  with_objects (set_flow 0 <$> stateObjects s) s.

(** [Coinflows.Less]: descending addresses, then descending amounts. *)
Definition Coinflows_Less (x y : Address * Z) : bool :=
  if bool_decide (x.1 = y.1) then x.2 >? y.2
  else Address.Big x.1 >? Address.Big y.1.

Definition GetCoinflows (s : StateDB) : list (Address * Z) :=
  sort_by Coinflows_Less
    (map (fun kv : Address * stateObject => (address kv.2, flow kv.2))
       (List.filter (fun kv : Address * stateObject => negb (flow kv.2 <=? 0))
          (map_to_list (stateObjects s)))).

Definition GetObjects (s : StateDB) : list Address :=
  map fst (List.filter (fun kv : Address * stateObject => negb (deleted kv.2 || empty kv.2))
             (map_to_list (stateObjects s))).

Definition Copy (s : StateDB) : option StateDB :=
  let copy addr (acc : option (gmap Address stateObject)) :=
    match acc, stateObjects s !! addr with
    | Some m, Some o => Some (<[addr := deepCopy o]> m)
    | _, _ => None
    end in
  match foldr copy (Some ∅) (elements (stateObjectsDirty s)) with
  | None => None
  | Some m =>
      Some (mkDB (dataPrefix s) (db_trie s) m (stateObjectsDirty s) None (refund s)
              0 0 0 0 (logs s) (logSize s) (preimages s) [] [] 0 (balanceChanges s))
  end.

Definition NewCopyTrie (s : StateDB) : StateDB := new_StateDB (dataPrefix s) (db_trie s).

End Db.

End Db.
