(* ===== verification/Ovm.v ===== *)
(** The ledger's side of the machine ([src/core/ovm.go]): transfers, the
    free gas of system transactions, and the recognition of contract
    creations ([src/core/sc/sc_common.go]). *)
From Stdlib Require Import Strings.String.
From S2P Require Import Prelude Bech32 Address EvmWord EvmAnalysis EvmState StateDb.

Import Db.

Module Ovm.

(** [common.Bytes2Hex]: two lower-case hexadecimal digits per byte. *)
Definition hex_digit (d : Z) : Ascii.ascii :=
  default Ascii.zero (String.get (Z.to_nat d) "0123456789abcdef").
Fixpoint Bytes2Hex (b : bytes) : string :=
  match b with
  | [] => EmptyString
  | x :: b' => String (hex_digit (x / 16)) (String (hex_digit (x mod 16)) (Bytes2Hex b'))
  end.

(** ** Function identifiers of the system contract *)

Definition FuncIdRemoveInvalid : string := "d81b740e".
Definition FuncIdSystemHeartbeat : string := "6bb43e01".
Definition FuncIdMemberHeartbeat : string := "9a42f192".
Definition FuncCreateContract : string := "09e46464".
Definition FuncReplaceWitnessID : string := "6f410bb7".
Definition FuncApplyWitnessID : string := "778c2cad".
Definition FuncReplaceWitnessExecuteID : string := "f05b5cf3".
Definition FuncReportDishonest : string := "fd4322ea".
Definition FuncIdAllSystemWitnessReplace : string := "f82263f5".

Section Ovm.
Context {P : Params}.

Definition FreeGas (recipient : Address) (unitNumber : Z) (data : bytes) : Z :=
  if negb (bool_decide (recipient = SCAccount)) then 0
  else if unitNumber =? 0 then MaxUint64
  else if (length data <? 4)%nat then 0
  else
    let id := Bytes2Hex (take 4 data) in
    if bool_decide (id = FuncIdMemberHeartbeat) then 5000000
    else if bool_decide (id = FuncIdSystemHeartbeat) then 5000000
    else if bool_decide (id = FuncReplaceWitnessID) || bool_decide (id = FuncReplaceWitnessExecuteID)
            || bool_decide (id = FuncApplyWitnessID) then 5000000
    else if bool_decide (id = FuncIdRemoveInvalid) then 5000000
    else if bool_decide (id = FuncIdAllSystemWitnessReplace) then 5000000
    else if bool_decide (id = FuncReportDishonest) then 5000000
    else 0.

Definition MessageIsToInnerAccount (to : Address) : bool := bool_decide (to = SCAccount).

Definition IsCallCreateContractTx (to : Address) (input : bytes) : bool :=
  if bool_decide (to = SCAccount) then
    if (length input <? 4)%nat then false
    else bool_decide (Bytes2Hex (take 4 input) = FuncCreateContract)
  else false.

Section Transfer.
Context {B : Backing} {K : State.Crypto} (IgnoreAcctCheck : bool).

(** [CanTransfer] reads the balance, which may load the account. *)
Definition CanTransfer (addr : Address) (amount : Z) (d : StateDB) : bool * StateDB :=
  let '(b, d) := GetBalance IgnoreAcctCheck addr d in (b >=? amount, d).
Definition Transfer (sender recipient : Address) (amount : Z) (d : StateDB) : StateDB :=
  db_AddBalance IgnoreAcctCheck recipient amount (db_SubBalance IgnoreAcctCheck sender amount d).

End Transfer.
End Ovm.

End Ovm.
