(* ===== verification/StateView.v ===== *)
(** What can be seen of the account state: a database up to its caches.  Two
    states are [same] when every getter of [vm.StateDB] answers alike; undoing
    a journal entry respects this. *)
From S2P Require Import Prelude Bech32 Address EvmWord EvmAnalysis EvmState EvmSafe StateDb.

Import Db.

Module View.

Section View.
Context {B : Backing} {K : State.Crypto} {KO : Safe.CryptoOk K}.
Context (IgnoreAcctCheck : bool).

Local Abbreviation newObject := (newObject IgnoreAcctCheck).
Local Abbreviation getStateObject := (getStateObject IgnoreAcctCheck).
Local Abbreviation undo := (undo IgnoreAcctCheck).
Local Abbreviation undo_all := (undo_all IgnoreAcctCheck).
Local Abbreviation on_object := (on_object IgnoreAcctCheck).

(** ** What the getters of an object answer *)

Definition peek_code (p : bytes) (o : stateObject) : option bytes :=
  match code o with
  | Some c => Some c
  | None =>
      if bool_decide (CodeHash o = emptyCodeHash) then None
      else
        match ContractCode p (addrHash o) (BytesToHash (CodeHash o)) with
        | Ok c => Some c
        | Err _ => None
        end
  end.

Definition peek_size (p : bytes) (o : stateObject) : Z :=
  match code o with
  | Some c => Z.of_nat (length c)
  | None => fst (ContractCodeSize p (addrHash o) (BytesToHash (CodeHash o)))
  end.

Definition peek_trie (p : bytes) (o : stateObject) : trie :=
  match o_trie o with
  | Some t => t
  | None =>
      match OpenStorageTrie p (addrHash o) (acc_Root (data o)) with
      | Ok t => t
      | Err _ => open_empty p (addrHash o)
      end
  end.

Definition peek_state (p : bytes) (o : stateObject) (key : Hash) : Hash :=
  match cachedStorage o !! key with
  | Some v => v
  | None =>
      match TryGet (peek_trie p o) (hash_bytes key) with
      | Err _ => 0
      | Ok enc => if (0 <? length enc)%nat then BytesToHash (fst (rlp_Split enc)) else 0
      end
  end.

Record same_obj (p : bytes) (o o' : stateObject) : Prop := {
  so_address : address o = address o';
  so_addrHash : addrHash o = addrHash o';
  so_Nonce : Nonce o = Nonce o';
  so_Balance : Balance o = Balance o';
  so_CodeHash : CodeHash o = CodeHash o';
  so_suicided : suicided o = suicided o';
  so_code : peek_code p o = peek_code p o';
  so_size : peek_size p o = peek_size p o';
  so_state k : peek_state p o k = peek_state p o' k
}.

#[export] Instance same_obj_equiv p : Equivalence (same_obj p).
Proof.
  split.
  - by intros o.
  - intros o o' []. split; intros; symmetry; auto.
  - intros o1 o2 o3 [] []. split; intros; etrans; eauto.
Qed.

(** ** The live objects of a database *)

Definition loaded (s : StateDB) (a : Address) : option stateObject :=
  match TryGet (db_trie s) (Address.hash a) with
  | Err _ => None
  | Ok enc =>
      if (length enc =? 0)%nat then None
      else match rlp_decode_account enc with Err _ => None | Ok d => Some (newObject a d) end
  end.

Definition live (s : StateDB) (a : Address) : option stateObject :=
  match stateObjects s !! a with
  | Some o => if deleted o then None else Some o
  | None => loaded s a
  end.

(** Every object is stored under its own address. *)
Definition keyed (s : StateDB) : Prop :=
  forall a o, stateObjects s !! a = Some o -> address o = a.

(** A deleted object has left the trie. *)
Definition buried (s : StateDB) : Prop :=
  forall a o, stateObjects s !! a = Some o -> deleted o = true -> loaded s a = None.

(** The fields outside the objects that can be seen. *)
Record same_fields (s t : StateDB) : Prop := {
  sf_prefix : dataPrefix s = dataPrefix t;
  sf_trie : db_trie s = db_trie t;
  sf_refund : refund s = refund t;
  sf_thash : thash s = thash t;
  sf_bhash : bhash s = bhash t;
  sf_txIndex : txIndex s = txIndex t;
  sf_unitNumber : unitNumber s = unitNumber t;
  sf_logs : logs s = logs t;
  sf_preimages : preimages s = preimages t
}.

#[export] Instance same_fields_equiv : Equivalence same_fields.
Proof.
  split.
  - by intros s.
  - intros s t []. by split.
  - intros s t u [] []. split; by etrans.
Qed.

Record same (s t : StateDB) : Prop := {
  same_fields_of : same_fields s t;
  same_live a : option_Forall2 (same_obj (dataPrefix s)) (live s a) (live t a)
}.

#[export] Instance same_equiv : Equivalence same.
Proof.
  split.
  - intros s. split; [done|]. intros a. by destruct (live s a); constructor.
  - intros s t [F L]. split; [done|]. intros a. specialize (L a).
    rewrite <- (sf_prefix _ _ F). inversion L; constructor. by symmetry.
  - intros s t u [F L] [F' L']. split; [by etrans|]. intros a.
    specialize (L a). specialize (L' a). rewrite <- (sf_prefix _ _ F) in L'.
    destruct L as [o1 o2 H|]; [|by inversion L'; constructor].
    inversion L' as [? o3 H'|]; constructor. by etrans.
Qed.

Lemma loaded_trie s t a : db_trie s = db_trie t -> loaded s a = loaded t a.
Proof. unfold loaded. by intros ->. Qed.

Lemma loaded_address s a o : loaded s a = Some o -> address o = a.
Proof. unfold loaded. intros E. repeat (case_match; try done). by injection E as <-. Qed.

Lemma live_address s a o : keyed s -> live s a = Some o -> address o = a.
Proof.
  unfold live. intros Hk. destruct (stateObjects s !! a) eqn:E; [|apply loaded_address].
  destruct (deleted s0); [done|]. intros [= <-]. by apply Hk.
Qed.

Lemma loaded_deleted s a o : loaded s a = Some o -> deleted o = false.
Proof. unfold loaded. intros E. repeat (case_match; try done). by injection E as <-. Qed.

Lemma live_deleted s a o : live s a = Some o -> deleted o = false.
Proof.
  unfold live. destruct (stateObjects s !! a) as [o'|]; [|apply loaded_deleted].
  destruct (deleted o') eqn:E; [done|]. by intros [= <-].
Qed.

(** ** Steps that cannot be seen *)

(** Only the caches, the dirty set and the remembered error may differ. *)
Record quiet (s t : StateDB) : Prop := {
  q_fields : same_fields s t;
  q_live a : live t a = live s a;
  q_journal : journal t = journal s;
  q_revisions : validRevisions t = validRevisions s;
  q_next : nextRevisionId t = nextRevisionId s;
  q_keyed : keyed s -> keyed t;
  q_buried : buried s -> buried t
}.

#[export] Instance quiet_preorder : PreOrder quiet.
Proof.
  split.
  - intros s. by split.
  - intros s t u [] []. split; intros; first [by auto | etrans; by eauto].
Qed.

Lemma quiet_same s t : quiet s t -> same s t.
Proof.
  intros Q. split; [apply Q|]. intros a. rewrite (q_live _ _ Q).
  by destruct (live s a); constructor.
Qed.

(** Nothing but fields that are not objects changes. *)
Lemma quiet_fields s t :
  same_fields s t -> stateObjects t = stateObjects s -> journal t = journal s ->
  validRevisions t = validRevisions s -> nextRevisionId t = nextRevisionId s -> quiet s t.
Proof.
  intros F O J R N. pose proof (sf_trie _ _ F) as T. split; try done.
  - intros a. unfold live. rewrite O. by rewrite (loaded_trie s t).
  - unfold keyed. by rewrite O.
  - unfold buried. rewrite O. intros H a o E D. rewrite <- (loaded_trie s t) by done. by eapply H.
Qed.

Lemma same_objects s t : same_fields s t -> stateObjects t = stateObjects s -> same s t.
Proof.
  intros F O. split; [done|]. intros a. unfold live. rewrite O, (loaded_trie t s) by (symmetry; apply F).
  destruct (match stateObjects s !! a with Some _ => _ | None => _ end); constructor; reflexivity.
Qed.

Lemma quiet_dirty s d : quiet s (with_dirty d s).
Proof. by apply quiet_fields. Qed.
Lemma quiet_setError s e : quiet s (setError e s).
Proof. by apply quiet_fields. Qed.

Lemma quiet_mark s o : exists s', mark (s, o) = (s', set_onDirty false o) /\ quiet s s'.
Proof.
  unfold mark. destruct o as [? ? ? ? ? ? ? ? ? ? ? ? ? [] ?]; cbn.
  - eexists. split; [done|]. apply quiet_dirty.
  - by exists s.
Qed.

(** ** Reading and writing a live object *)

Lemma setStateObject_fields o s :
  same_fields s (setStateObject o s) /\
  stateObjects (setStateObject o s) = <[address o := o]> (stateObjects s) /\
  journal (setStateObject o s) = journal s /\
  validRevisions (setStateObject o s) = validRevisions s /\
  nextRevisionId (setStateObject o s) = nextRevisionId s.
Proof. unfold setStateObject. by destruct (balanceChanges s !! address o). Qed.

Lemma live_insert s t o a :
  db_trie t = db_trie s -> stateObjects t = <[address o := o]> (stateObjects s) ->
  deleted o = false ->
  live t a = if decide (a = address o) then Some o else live s a.
Proof.
  intros T O D. unfold live. rewrite O. destruct (decide (a = address o)) as [->|N].
  - by rewrite lookup_insert_eq, D.
  - rewrite lookup_insert_ne by done. by rewrite (loaded_trie t s).
Qed.

Lemma keyed_insert s t o :
  stateObjects t = <[address o := o]> (stateObjects s) -> keyed s -> keyed t.
Proof. intros O H a o'. rewrite O. intros [[<- <-]|[_ ?]]%lookup_insert_Some; [done|by apply H]. Qed.

Lemma buried_insert s t o :
  db_trie t = db_trie s -> stateObjects t = <[address o := o]> (stateObjects s) ->
  deleted o = false -> buried s -> buried t.
Proof.
  intros T O D H a o'. rewrite O, (loaded_trie t s) by done.
  intros [[<- <-]|[_ ?]]%lookup_insert_Some; [congruence|by eapply H].
Qed.

Lemma getStateObject_spec a s :
  exists s', getStateObject a s = (live s a, s') /\ quiet s s'.
Proof.
  unfold Db.getStateObject, live, loaded.
  destruct (stateObjects s !! a) as [o|] eqn:E.
  { exists s. split; [by destruct (deleted o)|done]. }
  destruct (TryGet (db_trie s) (Address.hash a)) as [enc|e] eqn:T.
  2: { eexists. split; [done|]. apply quiet_setError. }
  destruct (length enc =? 0)%nat eqn:L; [by exists s|].
  destruct (rlp_decode_account enc) as [d|e] eqn:R; [|by exists s].
  set (o := newObject a d). eexists. split; [done|].
  destruct (setStateObject_fields o s) as (F & O & J & V & N).
  pose proof (sf_trie _ _ F) as Ht. split; try done.
  - intros b. rewrite (live_insert s _ o b) by done. case_decide as D; [subst b|done].
    unfold live, loaded. cbn. by rewrite E, T, L, R.
  - by eapply keyed_insert.
  - by eapply buried_insert.
Qed.

Lemma put_spec s o a :
  let t := put (s, o) in
  same_fields s t /\ stateObjects t = <[address o := o]> (stateObjects s) /\
  journal t = journal s /\ validRevisions t = validRevisions s /\
  nextRevisionId t = nextRevisionId s /\
  (deleted o = false ->
   live t a = if decide (a = address o) then Some o else live s a).
Proof. cbn. split_and!; try done. intros D. by apply live_insert. Qed.

(** A method of an object that touches nothing of the database that can be
    seen, and leaves the object its address. *)
Record acts (f : cell -> cell) (h : stateObject -> stateObject) : Prop := {
  act_run s o : exists s', f (s, o) = (s', h o) /\ quiet s s';
  act_address o : address (h o) = address o;
  act_deleted o : deleted (h o) = deleted o
}.

Lemma acts_setBalance n :
  acts (setBalance n) (fun o => set_onDirty false (set_data (acc_set_Balance n (data o)) o)).
Proof. split; try done. intros s o. apply quiet_mark. Qed.

Lemma acts_setNonce n :
  acts (setNonce n) (fun o => set_onDirty false (set_data (acc_set_Nonce n (data o)) o)).
Proof. split; try done. intros s o. apply quiet_mark. Qed.

Lemma acts_setState k v :
  acts (o_setState k v)
    (fun o => set_onDirty false
       (set_dirtyStorage (<[k := v]> (dirtyStorage o))
          (set_cachedStorage (<[k := v]> (cachedStorage o)) o))).
Proof. split; try done. intros s o. apply quiet_mark. Qed.

Lemma acts_setCode h c :
  acts (setCode h c)
    (fun o => set_onDirty false
       (set_dirtyCode true
          (set_data (acc_set_CodeHash (hash_bytes h) (data o)) (set_code c o)))).
Proof. split; try done. intros s o. apply quiet_mark. Qed.

Lemma acts_touched b : acts (fun '(s, o) => (s, set_touched b o)) (set_touched b).
Proof. split; try done. intros s o. by exists s. Qed.

Lemma acts_suicided b n :
  acts (fun '(s, o) => setBalance n (s, set_suicided b o))
    (fun o => set_onDirty false
       (set_data (acc_set_Balance n (data o)) (set_suicided b o))).
Proof. split; try done. intros s o. apply quiet_mark. Qed.

(** What a change of one live object leaves behind. *)
Record changed (s t : StateDB) (a : Address) (o : stateObject) : Prop := {
  ch_fields : same_fields s t;
  ch_live b : live t b = if decide (b = a) then Some o else live s b;
  ch_journal : journal t = journal s;
  ch_revisions : validRevisions t = validRevisions s;
  ch_next : nextRevisionId t = nextRevisionId s;
  ch_keyed : keyed t;
  ch_buried : buried s -> buried t
}.

Lemma put_changed s s1 a o :
  quiet s s1 -> keyed s -> address o = a -> deleted o = false -> changed s (put (s1, o)) a o.
Proof.
  intros Q Hk Ha Hd. pose proof (q_fields _ _ Q) as F.
  assert (stateObjects (put (s1, o)) = <[address o := o]> (stateObjects s1)) as O by done.
  split; try apply Q.
  - by etrans; [apply F|].
  - intros b. destruct (put_spec s1 o b) as (_ & _ & _ & _ & _ & L).
    rewrite L, Ha by done. by rewrite (q_live _ _ Q).
  - eapply keyed_insert; [done|]. by apply Q.
  - intros Hb. eapply buried_insert; [| |done|by apply Q]; done.
Qed.

Lemma acts_changed f h s s1 a o :
  acts f h -> quiet s s1 -> keyed s -> live s a = Some o -> changed s (put (f (s1, o))) a (h o).
Proof.
  intros A Q Hk E. destruct (act_run _ _ A s1 o) as (s2 & -> & Q2).
  apply put_changed; [by etrans|done| |].
  - rewrite (act_address _ _ A). by eapply live_address.
  - rewrite (act_deleted _ _ A). by eapply live_deleted.
Qed.

Lemma on_object_spec f h s a o :
  acts f h -> keyed s -> live s a = Some o ->
  exists t, on_object a f s = Some t /\ changed s t a (h o).
Proof.
  intros A Hk E. unfold Db.on_object. destruct (getStateObject_spec a s) as (s1 & -> & Q).
  rewrite E. eexists. split; [done|]. by apply acts_changed.
Qed.

Lemma on_object_None f s a : live s a = None -> on_object a f s = None.
Proof. intros E. unfold Db.on_object. destruct (getStateObject_spec a s) as (s1 & -> & Q). by rewrite E. Qed.

(** ** Undoing respects [same] *)

Lemma changed_same s t s' t' a o o' :
  changed s s' a o -> changed t t' a o' -> same s t -> same_obj (dataPrefix s) o o' -> same s' t'.
Proof.
  intros C C' [F L] Ho. split.
  - etrans; [symmetry; apply C|]. etrans; [done|apply C'].
  - intros b. rewrite (ch_live _ _ _ _ C), (ch_live _ _ _ _ C').
    rewrite <- (sf_prefix _ _ (ch_fields _ _ _ _ C)). case_decide; [by constructor|apply L].
Qed.

(** A change that the view of an object survives. *)
Definition respects (h : stateObject -> stateObject) : Prop :=
  forall p o o', same_obj p o o' -> same_obj p (h o) (h o').

Ltac respects_tac :=
  let H := fresh "H" in
  intros p o o' H; destruct H as [? ? ? ? ? ? ? ? ?];
  split; by auto.

Lemma respects_setBalance n :
  respects (fun o => set_onDirty false (set_data (acc_set_Balance n (data o)) o)).
Proof. respects_tac. Qed.
Lemma respects_setNonce n :
  respects (fun o => set_onDirty false (set_data (acc_set_Nonce n (data o)) o)).
Proof. respects_tac. Qed.
Lemma respects_touched b : respects (set_touched b).
Proof. respects_tac. Qed.
Lemma respects_suicided b n :
  respects (fun o => set_onDirty false (set_data (acc_set_Balance n (data o)) (set_suicided b o))).
Proof. respects_tac. Qed.

Lemma peek_state_set p o k v k' :
  peek_state p (set_onDirty false
       (set_dirtyStorage (<[k := v]> (dirtyStorage o))
          (set_cachedStorage (<[k := v]> (cachedStorage o)) o))) k' =
  if decide (k' = k) then v else peek_state p o k'.
Proof.
  unfold peek_state, peek_trie. cbn. case_decide as E; [subst; by rewrite lookup_insert_eq|].
  by rewrite lookup_insert_ne.
Qed.

Lemma respects_setState k v :
  respects (fun o => set_onDirty false
       (set_dirtyStorage (<[k := v]> (dirtyStorage o))
          (set_cachedStorage (<[k := v]> (cachedStorage o)) o))).
Proof.
  intros p o o' []. split; try by auto. intros k'. rewrite !peek_state_set. by case_decide.
Qed.

Lemma respects_setCode h c :
  respects (fun o => set_onDirty false
       (set_dirtyCode true
          (set_data (acc_set_CodeHash (hash_bytes h) (data o)) (set_code c o)))).
Proof.
  intros p o o' [Ha Hh Hn Hb Hc Hs Hco Hsz Hst]. split; try done.
  - unfold peek_code, CodeHash. cbn. by rewrite Hh.
  - unfold peek_size, CodeHash. cbn. by rewrite Hh.
Qed.

Lemma same_changed s t a o o' s' t' :
  changed s s' a o -> changed t t' a o' -> same s t -> same_obj (dataPrefix s) o o' ->
  same s' t' /\ keyed s' /\ keyed t'.
Proof. intros C C' S O. split_and!; [by eapply changed_same|apply C|apply C']. Qed.

Lemma same_on_object s t a f h s' :
  acts f h -> respects h -> same s t -> keyed s -> keyed t -> on_object a f s = Some s' ->
  exists t', on_object a f t = Some t' /\ same s' t' /\ keyed s' /\ keyed t'.
Proof.
  intros A R S Hs Ht E. pose proof (same_live _ _ S a) as La.
  destruct (live s a) as [o|] eqn:Lo; [|by rewrite on_object_None in E].
  inversion La as [? o' Ho Eo Lo'|]; subst. symmetry in Lo'.
  destruct (on_object_spec f h s a o A Hs Lo) as (s1 & E1 & C1).
  destruct (on_object_spec f h t a o' A Ht Lo') as (t1 & E2 & C2).
  rewrite E1 in E. injection E as <-. exists t1. split; [done|].
  eapply same_changed; [done..|]. by apply R.
Qed.

(** Updates of the visible fields alone. *)
Lemma same_fields_update (s t s' t' : StateDB) :
  same s t -> same_fields s' t' -> dataPrefix s' = dataPrefix s ->
  db_trie s' = db_trie s -> db_trie t' = db_trie t ->
  stateObjects s' = stateObjects s -> stateObjects t' = stateObjects t -> same s' t'.
Proof.
  intros [F L] F' P Ts Tt Os Ot. split; [done|]. intros a. rewrite P.
  unfold live. rewrite Os, Ot, (loaded_trie s' s), (loaded_trie t' t) by done. apply L.
Qed.

Lemma keyed_update (s s' : StateDB) : keyed s -> stateObjects s' = stateObjects s -> keyed s'.
Proof. unfold keyed. by intros ? ->. Qed.

Lemma keyed_delete (s s' : StateDB) a :
  keyed s -> stateObjects s' = delete a (stateObjects s) -> keyed s'.
Proof. intros H O b o. rewrite O. intros [_ ?]%lookup_delete_Some. by apply H. Qed.

Lemma same_set_object s t p :
  same s t -> keyed s -> keyed t ->
  same (setStateObject p s) (setStateObject p t) /\
  keyed (setStateObject p s) /\ keyed (setStateObject p t).
Proof.
  intros [F L] Hs Ht. destruct (setStateObject_fields p s) as (Fs & Os & _).
  destruct (setStateObject_fields p t) as (Ft & Ot & _). split_and!; [|by apply (keyed_insert s _ p)|by apply (keyed_insert t _ p)].
  split. { etrans; [symmetry; apply Fs|]. etrans; [apply F|apply Ft]. }
  intros a.
  rewrite <- (sf_prefix _ _ Fs). unfold live. rewrite Os, Ot.
  destruct (decide (a = address p)) as [->|N].
  - rewrite !lookup_insert_eq. destruct (deleted p); constructor; reflexivity.
  - rewrite !lookup_insert_ne by done.
    rewrite <- (loaded_trie s (setStateObject p s)) by apply Fs.
    rewrite <- (loaded_trie t (setStateObject p t)) by apply Ft. apply L.
Qed.

(** The goal of every case of [undo_same] but the changes of objects. *)
Lemma same_plain s t s' t' (u : option StateDB) :
  u = Some t' -> same s t -> keyed s -> keyed t -> same_fields s' t' ->
  dataPrefix s' = dataPrefix s -> db_trie s' = db_trie s -> db_trie t' = db_trie t ->
  stateObjects s' = stateObjects s -> stateObjects t' = stateObjects t ->
  exists t1, u = Some t1 /\ same s' t1 /\ keyed s' /\ keyed t1.
Proof.
  intros -> S Hs Ht F P Ts Tt Os Ot. exists t'. split; [done|].
  split_and!; [by apply (same_fields_update s t)|by apply (keyed_update s)|by apply (keyed_update t)].
Qed.

Lemma undo_created s t a (s' := with_dirty (stateObjectsDirty s ∖ {[a]})
    (with_objects (delete a (stateObjects s)) s)) (t' := with_dirty (stateObjectsDirty t ∖ {[a]})
    (with_objects (delete a (stateObjects t)) t)) :
  same s t -> keyed s -> keyed t -> same s' t' /\ keyed s' /\ keyed t'.
Proof.
  intros [F L] Hs Ht. split_and!; [|by apply (keyed_delete s _ a)|by apply (keyed_delete t _ a)].
  assert (same_fields s' t') as F' by (destruct F; by split). split; [done|].
  intros b. unfold live, s', t'; cbn [stateObjects with_dirty with_objects].
  destruct (decide (b = a)) as [->|N].
  - rewrite !lookup_delete_eq, (loaded_trie _ t') by apply F'.
    unfold t'. destruct (loaded _ a); constructor; reflexivity.
  - rewrite !lookup_delete_ne by done. apply L.
Qed.

(** What [undo] does to a [suicideChange], as a change of an object or none. *)
Lemma undo_suicide_Some s a b n o :
  keyed s -> live s a = Some o ->
  exists t, undo (suicideChange a b n) s = Some t /\
    changed s t a (set_onDirty false (set_data (acc_set_Balance n (data o)) (set_suicided b o))).
Proof.
  intros Hk E. cbn [Db.undo]. destruct (getStateObject_spec a s) as (s1 & -> & Q). rewrite E.
  eexists. split; [done|]. exact (acts_changed _ _ s s1 a o (acts_suicided b n) Q Hk E).
Qed.

Lemma undo_suicide_None s a b n :
  live s a = None -> exists t, undo (suicideChange a b n) s = Some t /\ quiet s t.
Proof.
  intros E. cbn [Db.undo]. destruct (getStateObject_spec a s) as (s1 & -> & Q). rewrite E. eauto.
Qed.

Lemma same_quiet s t s' t' :
  quiet s s' -> quiet t t' -> same s t -> keyed s -> keyed t ->
  same s' t' /\ keyed s' /\ keyed t'.
Proof.
  intros Q Q' S Hs Ht. split_and!; [|by apply Q|by apply Q'].
  etrans; [symmetry; by apply quiet_same|]. etrans; [done|by apply quiet_same].
Qed.

Lemma undo_same e s t s' :
  same s t -> keyed s -> keyed t -> undo e s = Some s' ->
  exists t', undo e t = Some t' /\ same s' t' /\ keyed s' /\ keyed t'.
Proof.
  intros S Hs Ht E. pose proof (same_fields_of _ _ S) as F.
  destruct e as [a|prev|a b n|a n|a n|a k v|a c h|n|h|h|a b d]; cbn [Db.undo] in E |- *.
  - injection E as <-. eexists. split; [done|]. by apply undo_created.
  - injection E as <-. eexists. split; [done|]. by apply same_set_object.
  - pose proof (same_live _ _ S a) as La. destruct (live s a) as [o|] eqn:Ls.
    + inversion La as [? o' Ho Eo Lt|]; subst. symmetry in Lt.
      destruct (undo_suicide_Some s a b n o Hs Ls) as (s1 & E1 & C1).
      destruct (undo_suicide_Some t a b n o' Ht Lt) as (t1 & E2 & C2).
      cbn [Db.undo] in E1, E2. rewrite E1 in E. injection E as <-. exists t1. split; [done|].
      eapply same_changed; [done..|]. by apply respects_suicided.
    + assert (live t a = None) as Lt by (by inversion La).
      destruct (undo_suicide_None s a b n Ls) as (s1 & E1 & C1).
      destruct (undo_suicide_None t a b n Lt) as (t1 & E2 & C2).
      cbn [Db.undo] in E1, E2. rewrite E1 in E. injection E as <-. exists t1. split; [done|].
      by apply (same_quiet s t).
  - by eapply same_on_object; [apply acts_setBalance|apply respects_setBalance|..].
  - by eapply same_on_object; [apply acts_setNonce|apply respects_setNonce|..].
  - by eapply same_on_object; [apply acts_setState|apply respects_setState|..].
  - by eapply same_on_object; [apply acts_setCode|apply respects_setCode|..].
  - injection E as <-. eapply (same_plain s t); try done. by destruct F; split.
  - rewrite <- (sf_logs _ _ F). case_if; [|case_if; [done|]]; injection E as <-;
      (eapply (same_plain s t); try done; by destruct F; split).
  - injection E as <-. rewrite <- (sf_preimages _ _ F).
    eapply (same_plain s t); try done. by destruct F; split.
  - case_if; [|injection E as <-; by eexists].
    destruct (on_object a (fun '(s, o) => (s, set_touched b o)) s) as [s1|] eqn:E1; [|done].
    destruct (same_on_object s t a _ _ s1 (acts_touched b) (respects_touched b) S Hs Ht E1)
      as (t1 & -> & S1 & K1 & K2). injection E as <-. eexists. split; [done|].
    case_if; [|done]. by eapply same_quiet; [apply quiet_dirty..|done|done|done].
Qed.

Lemma undo_all_same es s t s' :
  same s t -> keyed s -> keyed t -> undo_all es s = Some s' ->
  exists t', undo_all es t = Some t' /\ same s' t' /\ keyed s' /\ keyed t'.
Proof.
  revert s t. induction es as [|e es IH]; intros s t S Hs Ht E; cbn [Db.undo_all] in *.
  - injection E as <-. by exists t.
  - destruct (undo e s) as [s1|] eqn:E1; [|done].
    destruct (undo_same e s t s1 S Hs Ht E1) as (t1 & -> & S1 & K1 & K2). by eapply IH.
Qed.

Lemma undo_all_app es1 es2 s :
  undo_all (es1 ++ es2) s = match undo_all es1 s with Some t => undo_all es2 t | None => None end.
Proof.
  revert s. induction es1 as [|e es1 IH]; intros s; cbn [app Db.undo_all]; [done|].
  by destruct (undo e s).
Qed.

(** What [undo] leaves alone. *)
Lemma getStateObject_meta a s :
  let s' := snd (getStateObject a s) in
  journal s' = journal s /\ validRevisions s' = validRevisions s /\
  nextRevisionId s' = nextRevisionId s.
Proof. destruct (getStateObject_spec a s) as (s' & -> & []). done. Qed.

End View.
End View.
