(* ===== verification/StateRevert.v ===== *)
(** Reverting to a snapshot restores the account state, whatever operations ran
    since; the identifiers handed out by [Snapshot] stay good until an older
    one is reverted to. *)
From S2P Require Import Prelude Bech32 Address EvmWord EvmAnalysis EvmState EvmSafe StateDb StateView.

Import Db View.

Module Revert.

(** ** Binary search *)

Lemma sort_search_loop_spec fuel f i j n :
  (i <= j <= n)%nat -> (j - i <= fuel)%nat ->
  (forall x y, (x <= y < n)%nat -> f x = true -> f y = true) ->
  (forall x, (x < i)%nat -> f x = false) -> (forall x, (j <= x < n)%nat -> f x = true) ->
  let r := sort_search_loop fuel f i j in
  (r <= n)%nat /\ (forall x, (x < r)%nat -> f x = false) /\ (forall x, (r <= x < n)%nat -> f x = true).
Proof.
  revert i j. induction fuel as [|fuel IH]; intros i j Hij Hf Hm Hlo Hhi; cbn [sort_search_loop].
  - assert (i = j) as -> by lia. split_and!; [lia|done..].
  - destruct (Nat.ltb_spec i j) as [L|G]; [|assert (i = j) as -> by lia; split_and!; [lia|done..]].
    set (h := ((i + j) / 2)%nat).
    assert (i <= h < j)%nat as Hh.
    { unfold h. pose proof (Nat.div_mod_eq (i + j) 2). pose proof (Nat.mod_upper_bound (i + j) 2). lia. }
    destruct (f h) eqn:E; cbn [negb]; apply IH; try done; try lia.
    + intros x Hx. destruct (decide (x < j)%nat); [|apply Hhi; lia]. apply (Hm h x); [lia|done].
    + intros x Hx. destruct (f x) eqn:Ex; [|done]. rewrite (Hm x h) in E; [done|lia|done].
Qed.

Lemma sort_Search_spec n f :
  (forall x y, (x <= y < n)%nat -> f x = true -> f y = true) ->
  let r := sort_Search n f in
  (r <= n)%nat /\ (forall x, (x < r)%nat -> f x = false) /\ (forall x, (r <= x < n)%nat -> f x = true).
Proof. intros H. apply sort_search_loop_spec; try done; intros; lia. Qed.

Section Revert.
Context {B : Backing} {K : State.Crypto} {KO : Safe.CryptoOk K}.
Context (IgnoreAcctCheck : bool).

Local Abbreviation newObject := (newObject IgnoreAcctCheck).
Local Abbreviation getStateObject := (getStateObject IgnoreAcctCheck).
Local Abbreviation undo := (undo IgnoreAcctCheck).
Local Abbreviation undo_all := (undo_all IgnoreAcctCheck).
Local Abbreviation on_object := (on_object IgnoreAcctCheck).
Local Abbreviation live := (live IgnoreAcctCheck).
Local Abbreviation loaded := (loaded IgnoreAcctCheck).
Local Abbreviation same := (same IgnoreAcctCheck).
Local Abbreviation quiet := (quiet IgnoreAcctCheck).
Local Abbreviation changed := (changed IgnoreAcctCheck).
Local Abbreviation buried := (buried IgnoreAcctCheck).
Local Abbreviation RevertToSnapshot := (RevertToSnapshot IgnoreAcctCheck).

(** ** Well-formed databases *)

(** A code hash as the code writes it: thirty-two bytes. *)
Definition hash_ok (h : bytes) : Prop := length h = 32%nat /\ Forall (fun b => is_byte b) h.

Lemma hash_ok_roundtrip h : hash_ok h -> hash_bytes (BytesToHash h) = h.
Proof.
  intros [L F]. unfold hash_bytes, BytesToHash. rewrite L. cbn [Nat.ltb Nat.leb].
  rewrite <- L. by apply be_bytes_be_value.
Qed.

Lemma emptyCodeHash_ok : hash_ok emptyCodeHash.
Proof. apply Safe.Keccak256_ok. Qed.

Lemma hash_bytes_ok h : hash_ok (hash_bytes h).
Proof. split; [apply length_be_bytes|apply be_bytes_range]. Qed.

Definition entry_ok (e : journalEntry) : Prop :=
  match e with
  | resetObjectChange p => deleted p = false /\ hash_ok (CodeHash p)
  | _ => True
  end.

(** Identifiers ascend, and so do the journal lengths they stand for. *)
Record revisions_ok (s : StateDB) : Prop := {
  ro_ids i r : validRevisions s !! i = Some r -> id r < nextRevisionId s;
  ro_asc i j r r' : (i < j)%nat -> validRevisions s !! i = Some r ->
    validRevisions s !! j = Some r' -> id r < id r' /\ (journalIndex r <= journalIndex r')%nat;
  ro_len i r : validRevisions s !! i = Some r -> (journalIndex r <= length (journal s))%nat
}.

Record wf (s : StateDB) : Prop := {
  wf_keyed : keyed s;
  wf_buried : buried s;
  wf_hashes a o : live s a = Some o -> hash_ok (CodeHash o);
  wf_trie a o : loaded s a = Some o -> hash_ok (CodeHash o);
  wf_journal : Forall entry_ok (journal s);
  wf_logs h : logs s !! h <> Some [];
  wf_revisions : revisions_ok s
}.

(** ** Steps the journal can take back *)

Record step (s s' : StateDB) : Prop := {
  st_wf : wf s';
  st_undo : exists es t, journal s' = es ++ journal s /\ undo_all es s' = Some t /\ same t s;
  st_revisions : validRevisions s' = validRevisions s;
  st_next : nextRevisionId s' = nextRevisionId s
}.

Lemma step_trans s1 s2 s3 : wf s1 -> step s1 s2 -> step s2 s3 -> step s1 s3.
Proof.
  intros W [W2 (es1 & t1 & J1 & U1 & S1) R1 N1] [W3 (es2 & t2 & J2 & U2 & S2) R2 N2].
  split; [done| |by etrans..].
  assert (keyed t2) as K2.
  { destruct (undo_all_same IgnoreAcctCheck es2 s3 s3 t2) as (u & E & _ & H & _); try done; apply W3. }
  destruct (undo_all_same IgnoreAcctCheck es1 s2 t2 t1) as (u & E & S & _ & _); [by symmetry|apply W2|done..|].
  exists (es2 ++ es1), u. split_and!.
  - by rewrite J2, J1, app_assoc.
  - by rewrite undo_all_app, U2.
  - etrans; [by symmetry|done].
Qed.

Lemma revisions_ok_grow s s' es :
  revisions_ok s -> journal s' = es ++ journal s -> validRevisions s' = validRevisions s ->
  nextRevisionId s' = nextRevisionId s -> revisions_ok s'.
Proof.
  intros [I A L] J R N. split.
  - rewrite R, N. apply I.
  - rewrite R. apply A.
  - rewrite R, J, length_app. intros i r E. specialize (L i r E). lia.
Qed.

Lemma wf_quiet s s' : wf s -> quiet s s' -> wf s'.
Proof.
  intros [? ? ? ? ? ? ?] Q. split.
  - by apply Q.
  - by apply Q.
  - intros a o. rewrite (q_live _ _ _ Q). eauto.
  - intros a o. rewrite (loaded_trie _ s' s) by (symmetry; apply Q). eauto.
  - by rewrite (q_journal _ _ _ Q).
  - by rewrite <- (sf_logs _ _ (q_fields _ _ _ Q)).
  - eapply (revisions_ok_grow s s' []); [done|by apply Q..].
Qed.

Lemma step_quiet s s' : wf s -> quiet s s' -> step s s'.
Proof.
  intros W Q. split; [by eapply wf_quiet| |by apply Q..].
  exists [], s'. split_and!; [by apply Q|done|]. symmetry. by apply quiet_same.
Qed.

Lemma step_refl s : wf s -> step s s.
Proof. intros W. by apply step_quiet. Qed.

(** Recording an entry and changing one live object. *)
Record recorded (s s' : StateDB) (e : journalEntry) (a : Address) (o : stateObject) : Prop := {
  rc_fields : same_fields s s';
  rc_live b : live s' b = if decide (b = a) then Some o else live s b;
  rc_journal : journal s' = e :: journal s;
  rc_revisions : validRevisions s' = validRevisions s;
  rc_next : nextRevisionId s' = nextRevisionId s;
  rc_keyed : keyed s';
  rc_buried : buried s'
}.

Lemma wf_recorded s s' e a o :
  wf s -> recorded s s' e a o -> entry_ok e -> hash_ok (CodeHash o) -> wf s'.
Proof.
  intros W C He Ho. split.
  - apply C.
  - apply C.
  - intros b o'. rewrite (rc_live _ _ _ _ _ C). case_decide; [|apply W]. by intros [= <-].
  - intros b o'. rewrite (loaded_trie _ s' s) by (symmetry; apply C). apply W.
  - rewrite (rc_journal _ _ _ _ _ C). constructor; [done|apply W].
  - rewrite <- (sf_logs _ _ (rc_fields _ _ _ _ _ C)). apply W.
  - by eapply (revisions_ok_grow s s' [e]); [apply W|apply C..].
Qed.

Lemma step_recorded s s' e a o :
  wf s -> recorded s s' e a o -> entry_ok e -> hash_ok (CodeHash o) ->
  (exists t, undo e s' = Some t /\ same t s) -> step s s'.
Proof.
  intros W C He Ho (t & U & S). split; [by eapply wf_recorded| |apply C|apply C].
  exists [e], t. split_and!; [apply C| |done]. cbn [Db.undo_all]. by rewrite U.
Qed.

Lemma put_recorded s s1 a o o1 e f h :
  wf s -> live s a = Some o -> quiet s s1 -> acts IgnoreAcctCheck f h ->
  address o1 = a -> deleted o1 = false ->
  recorded s (put (f (record e s1, o1))) e a (h o1).
Proof.
  intros W L Q A Ha Hd. destruct (act_run _ _ _ A (record e s1) o1) as (s2 & E & Q2). rewrite E.
  assert (keyed (record e s1)) as Hk by (by apply Q; apply W).
  assert (changed (record e s1) (put (s2, h o1)) a (h o1)) as C.
  { apply put_changed; [done|done| |]; [by rewrite (act_address _ _ _ A)|by rewrite (act_deleted _ _ _ A)]. }
  split.
  - etrans; [apply Q|]. etrans; [|apply (ch_fields _ _ _ _ _ C)]. by split.
  - intros b. rewrite (ch_live _ _ _ _ _ C). case_decide; [done|]. apply (q_live _ _ _ Q).
  - rewrite (ch_journal _ _ _ _ _ C). cbn. by rewrite (q_journal _ _ _ Q).
  - rewrite (ch_revisions _ _ _ _ _ C). apply (q_revisions _ _ _ Q).
  - rewrite (ch_next _ _ _ _ _ C). apply (q_next _ _ _ Q).
  - apply C.
  - apply (ch_buried _ _ _ _ _ C). apply Q, W.
Qed.

(** Taking the change of the object back. *)
Lemma same_back s s' t e a o o' o'' :
  live s a = Some o -> recorded s s' e a o' -> changed s' t a o'' ->
  same_obj (dataPrefix s) o'' o -> same t s.
Proof.
  intros L C C' Ho. split.
  - etrans; [symmetry; apply C'|symmetry; apply C].
  - intros b. rewrite (ch_live _ _ _ _ _ C'), (rc_live _ _ _ _ _ C).
    rewrite <- (sf_prefix _ _ (ch_fields _ _ _ _ _ C')), <- (sf_prefix _ _ (rc_fields _ _ _ _ _ C)).
    case_decide; [subst; rewrite L; by constructor|].
    destruct (live s b); constructor; reflexivity.
Qed.

Lemma step_object s s1 a o o1 e f h g k :
  wf s -> live s a = Some o -> quiet s s1 -> acts IgnoreAcctCheck f h ->
  acts IgnoreAcctCheck g k -> (forall t, undo e t = on_object a g t) ->
  address o1 = a -> deleted o1 = false -> hash_ok (CodeHash (h o1)) -> entry_ok e ->
  same_obj (dataPrefix s) (k (h o1)) o ->
  step s (put (f (record e s1, o1))).
Proof.
  intros W L Q A A' U Ha Hd Hh He Ho.
  pose proof (put_recorded s s1 a o o1 e f h W L Q A Ha Hd) as C.
  apply (step_recorded s _ e a (h o1)); [done..|]. rewrite U.
  destruct (on_object_spec IgnoreAcctCheck g k (put (f (record e s1, o1))) a (h o1) A') as (t & E & Ct).
  - apply C.
  - rewrite (rc_live _ _ _ _ _ C). by rewrite decide_True.
  - exists t. split; [done|]. by eapply same_back.
Qed.

(** ** The caches of an object *)

Lemma getTrie_same s o :
  fst (getTrie s o) = peek_trie (dataPrefix s) o /\
  same_obj (dataPrefix s) (snd (getTrie s o)) o /\
  cachedStorage (snd (getTrie s o)) = cachedStorage o /\
  deleted (snd (getTrie s o)) = deleted o.
Proof.
  assert (forall t e, peek_trie (dataPrefix s) o = t ->
            same_obj (dataPrefix s) (o_setError e (set_o_trie (Some t) o)) o) as H.
  { intros t e <-. by split. }
  unfold getTrie, peek_trie in *. destruct (o_trie o) as [t|]; [done|].
  destruct (OpenStorageTrie _ _ _) as [t|e]; cbn [fst snd].
  - split_and!; try done. assert (same_obj (dataPrefix s) (o_setError (o_dbErr o) (set_o_trie (Some t) o)) o)
      as Hs by (by apply H). by destruct Hs; split.
  - split_and!; try done. by apply H.
Qed.

(** An object whose view of a slot is cached. *)
Lemma same_cached p o o1 k :
  same_obj p o1 o ->
  same_obj p (set_cachedStorage (<[k := peek_state p o k]> (cachedStorage o1)) o1) o.
Proof.
  intros [? ? ? ? ? ? ? ? Hst]. split; try done. intros k'.
  destruct (decide (k' = k)) as [->|N].
  - unfold peek_state at 1. cbn. by rewrite lookup_insert_eq.
  - rewrite <- (Hst k'). unfold peek_state, peek_trie. cbn. by rewrite lookup_insert_ne.
Qed.

Lemma same_o_setError p o o1 e : same_obj p o1 o -> same_obj p (o_setError e o1) o.
Proof. intros [? ? ? ? ? ? ? ? ?]. by split. Qed.

Lemma o_GetState_same s o k :
  fst (o_GetState s o k) = peek_state (dataPrefix s) o k /\
  same_obj (dataPrefix s) (snd (o_GetState s o k)) o /\
  deleted (snd (o_GetState s o k)) = deleted o.
Proof.
  unfold o_GetState. destruct (cachedStorage o !! k) as [v|] eqn:Ec.
  { cbn. split_and!; [|reflexivity|done]. unfold peek_state. by rewrite Ec. }
  destruct (getTrie_same s o) as (Et & So & Ec' & Ed). destruct (getTrie s o) as [t o1].
  cbn [fst snd] in Et, So, Ec', Ed.
  assert (peek_state (dataPrefix s) o k =
    match TryGet t (hash_bytes k) with
    | Err _ => 0
    | Ok enc => if (0 <? length enc)%nat then BytesToHash (fst (rlp_Split enc)) else 0
    end) as Ep by (unfold peek_state; by rewrite Ec, Et).
  destruct (TryGet t (hash_bytes k)) as [enc|e]; cbn [fst snd].
  2: { split_and!; [done|by apply same_o_setError|done]. }
  destruct (0 <? length enc)%nat; [|by cbn; split_and!].
  destruct (rlp_Split enc) as [content err]. cbn [fst] in Ep. rewrite <- Ep.
  case_if; cbn [fst snd]; split_and!; try done; [|by apply same_o_setError].
  apply same_cached. by apply same_o_setError.
Qed.

Lemma Code_same s o :
  fst (Code s o) = peek_code (dataPrefix s) o /\
  (fst (ContractCodeSize (dataPrefix s) (addrHash o) (BytesToHash (CodeHash o))) =
     match ContractCode (dataPrefix s) (addrHash o) (BytesToHash (CodeHash o)) with
     | Ok c => Z.of_nat (length c)
     | Err _ => 0
     end -> same_obj (dataPrefix s) (snd (Code s o)) o) /\
  deleted (snd (Code s o)) = deleted o /\ address (snd (Code s o)) = address o /\
  CodeHash (snd (Code s o)) = CodeHash o.
Proof.
  unfold Code, peek_code. destruct (code o) as [c|] eqn:Ec; [by split_and!|].
  case_bool_decide as Eh; [by split_and!|].
  destruct (ContractCode _ _ _) as [c|e] eqn:Ek; cbn [fst snd]; split_and!; try done; intros Hs.
  - split; try done; unfold peek_code, peek_size; rewrite Ec; cbn [code set_code].
    + by rewrite bool_decide_eq_false_2, Ek.
    + by rewrite Hs.
  - split; try done; unfold peek_code, peek_size; by rewrite Ec.
Qed.

(** ** The operations are such steps *)

(** The size the database knows for a code is the length of that code. *)
Context (size_of_code : forall p a h,
  fst (ContractCodeSize p a h) =
  match ContractCode p a h with Ok c => Z.of_nat (length c) | Err _ => 0 end).

(** Closing a view goal on an object changed and changed back. *)
Ltac same_tac := split; intros; unfold Balance, Nonce, CodeHash; cbn; try done.

Lemma acts_SetBalance_flow n m :
  acts IgnoreAcctCheck (fun p => let '(s, o) := setBalance n p in (s, set_flow (m + flow o) o))
    (fun o => set_flow (m + flow o)
       (set_onDirty false (set_data (acc_set_Balance n (data o)) o))).
Proof.
  split; try done. intros s o. destruct (act_run _ _ _ (acts_setBalance IgnoreAcctCheck n) s o)
    as (s' & -> & Q). by exists s'.
Qed.

Lemma acts_touch_mark :
  acts IgnoreAcctCheck (fun p => let '(s, o) := mark p in (s, set_touched true o))
    (fun o => set_touched true (set_onDirty false o)).
Proof.
  split; try done. intros s o. destruct (quiet_mark IgnoreAcctCheck s o) as (s' & -> & Q).
  by exists s'.
Qed.

Lemma step_SetBalance s a o n m :
  wf s -> live s a = Some o ->
  step s (put (let '(s', o') := SetBalance n (s, o) in (s', set_flow (m + flow o') o'))).
Proof.
  intros W L. pose proof (live_address _ s a o (wf_keyed _ W) L) as Ha.
  refine (step_object s s a o o (balanceChange (address o) (Balance o)) _ _ _ _ W L _
    (acts_SetBalance_flow n m) (acts_setBalance IgnoreAcctCheck (Balance o)) _ Ha
    (live_deleted _ _ _ _ L) (wf_hashes _ W _ _ L) I _); [done|by rewrite Ha|].
  same_tac.
Qed.

Lemma set_flow_same o : set_flow (flow o) o = o.
Proof. by destruct o. Qed.

Lemma step_put_SetBalance s a o n :
  wf s -> live s a = Some o -> step s (put (SetBalance n (s, o))).
Proof.
  intros W L. pose proof (step_SetBalance s a o n 0 W L) as H.
  destruct (SetBalance n (s, o)) as [s' o']. by rewrite Z.add_0_l, set_flow_same in H.
Qed.

Lemma step_SetNonce s a o n :
  wf s -> live s a = Some o -> step s (put (SetNonce n (s, o))).
Proof.
  intros W L. pose proof (live_address _ s a o (wf_keyed _ W) L) as Ha.
  refine (step_object s s a o o (nonceChange (address o) (Nonce o)) _ _ _ _ W L _
    (acts_setNonce IgnoreAcctCheck n) (acts_setNonce IgnoreAcctCheck (Nonce o)) _ Ha
    (live_deleted _ _ _ _ L) (wf_hashes _ W _ _ L) I _); [done|by rewrite Ha|].
  same_tac.
Qed.

Lemma step_touch s a o :
  wf s -> live s a = Some o -> step s (put (touch (s, o))).
Proof.
  intros W L. pose proof (live_address _ s a o (wf_keyed _ W) L) as Ha.
  set (e := touchChange (address o) (touched o) (negb (onDirty o))).
  pose proof (put_recorded s s a o o e _ _ W L ltac:(done) acts_touch_mark Ha
                (live_deleted _ _ _ _ L)) as C.
  apply (step_recorded s _ e a (set_touched true (set_onDirty false o))); try done.
  - exact (wf_hashes _ W _ _ L).
  - cbn [Db.undo e]. set (s' := put _) in *. case_if.
    + destruct (on_object_spec IgnoreAcctCheck _ _ s' a (set_touched true (set_onDirty false o))
                  (acts_touched IgnoreAcctCheck (touched o))) as (t & E & Ct).
      * apply C.
      * rewrite (rc_live _ _ _ _ _ C). by rewrite decide_True.
      * rewrite Ha, E.
        assert (same t s) as S by (eapply same_back; [done..|]; same_tac).
        eexists. split; [done|]. case_if; [|done]. etrans; [|done].
        symmetry. apply quiet_same, quiet_dirty.
    + exists s'. split; [done|]. split; [symmetry; apply C|]. intros b.
      rewrite (rc_live _ _ _ _ _ C). rewrite <- (sf_prefix _ _ (rc_fields _ _ _ _ _ C)).
      destruct (decide (b = a)) as [->|]; [rewrite L; constructor; same_tac|].
      destruct (live s b); constructor; reflexivity.
Qed.

Lemma step_SetState s a o k v :
  wf s -> live s a = Some o -> step s (put (o_SetState k v (s, o))).
Proof.
  intros W L. pose proof (live_address _ s a o (wf_keyed _ W) L) as Ha.
  pose proof (live_deleted _ _ _ _ L) as Hd. pose proof (wf_hashes _ W _ _ L) as Hh.
  unfold o_SetState. destruct (o_GetState_same s o k) as (Ev & So & Ed).
  destruct (o_GetState s o k) as [pv o1]. cbn [fst snd] in *.
  refine (step_object s s a o o1 (storageChange (address o1) k pv) _ _ _ _ W L _
    (acts_setState IgnoreAcctCheck k v) (acts_setState IgnoreAcctCheck k pv) _ _ _ _ I _); try done.
  - intros t. cbn [Db.undo]. by rewrite (so_address _ _ _ So), Ha.
  - by rewrite (so_address _ _ _ So).
  - by rewrite Ed.
  - pose proof (so_CodeHash _ _ _ So) as E. unfold CodeHash in *. cbn. by rewrite E.
  - etrans; [|exact So]. split; try done. intros k'. rewrite !peek_state_set.
    case_decide; [|done]. subst. by rewrite (so_state _ _ _ So).
Qed.

Lemma step_SetCode s a o h c :
  wf s -> live s a = Some o -> step s (put (SetCode h c (s, o))).
Proof.
  intros W L. pose proof (live_address _ s a o (wf_keyed _ W) L) as Ha.
  pose proof (live_deleted _ _ _ _ L) as Hd. pose proof (wf_hashes _ W _ _ L) as Hh.
  unfold SetCode. destruct (Code_same s o) as (Ec & So & Ed & Eh & Ek).
  specialize (So (size_of_code _ _ _)).
  destruct (Code s o) as [pc o1]. cbn [fst snd] in *.
  refine (step_object s s a o o1 (codeChange (address o1) pc (CodeHash o1)) _ _ _ _ W L _
    (acts_setCode IgnoreAcctCheck h c)
    (acts_setCode IgnoreAcctCheck (BytesToHash (CodeHash o1)) pc) _ _ _ _ I _); try done.
  - intros t. cbn [Db.undo]. by rewrite Eh, Ha.
  - by rewrite Eh.
  - by rewrite Ed.
  - unfold CodeHash. cbn. apply hash_bytes_ok.
  - rewrite Ek, hash_ok_roundtrip by done. destruct So as [? Hah ? ? ? ? Hco Hsz ?].
    split; try done; unfold peek_code, peek_size, CodeHash; cbn -[BytesToHash]; rewrite Ec, Hah.
    + unfold peek_code, CodeHash. destruct (code o); [done|].
      case_bool_decide; [done|]. by destruct (ContractCode _ _ _).
    + unfold peek_code, CodeHash. destruct (code o); [done|].
      case_bool_decide; [done|]. destruct (ContractCode _ _ _) eqn:Ek'; [|done].
      by rewrite size_of_code, Ek'.
Qed.

Lemma step_Suicide s a : wf s -> step s (snd (Suicide IgnoreAcctCheck a s)).
Proof.
  intros W. unfold Suicide. destruct (getStateObject_spec IgnoreAcctCheck a s) as (s1 & -> & Q).
  destruct (live s a) as [o|] eqn:L; [|by apply step_quiet].
  pose proof (live_address _ s a o (wf_keyed _ W) L) as Ha.
  set (e := suicideChange a (suicided o) (Balance o)).
  assert (acts IgnoreAcctCheck
            (fun p => let '(s, o) := markSuicided p in (s, set_data (acc_set_Balance 0 (data o)) o))
            (fun o => set_data (acc_set_Balance 0 (data o)) (set_onDirty false (set_suicided true o))))
    as A.
  { split; try done. intros s' o'. unfold markSuicided.
    destruct (quiet_mark IgnoreAcctCheck s' (set_suicided true o')) as (s2 & -> & Q2). by exists s2. }
  pose proof (put_recorded s s1 a o o e _ _ W L Q A Ha (live_deleted _ _ _ _ L)) as C.
  cbv beta in C. destruct (markSuicided (record e s1, o)) as [s2 o2]. cbn [snd].
  apply (step_recorded s _ e a _ W C I (wf_hashes _ W a o L)).
  pose proof (rc_live _ _ _ _ _ C a) as La. rewrite decide_True in La by done.
  destruct (undo_suicide_Some IgnoreAcctCheck _ a (suicided o) (Balance o) _
              (rc_keyed _ _ _ _ _ C) La) as (t & E & Ct).
  exists t. split; [done|]. eapply same_back; [done..|]. same_tac.
Qed.

(** *** Creating accounts *)

Definition creation (s : StateDB) (a : Address) : journalEntry :=
  match live s a with Some p => resetObjectChange p | None => createObjectChange a end.

(** A created object, whatever else was done to it since. *)
Lemma step_created s s' a o :
  wf s -> recorded s s' (creation s a) a o -> hash_ok (CodeHash o) -> step s s'.
Proof.
  intros W C Ho. pose proof (sf_trie _ _ (rc_fields _ _ _ _ _ C)) as Ht.
  apply (step_recorded s s' (creation s a) a o); [done..| |done|].
  { unfold creation. destruct (live s a) as [p|] eqn:L; [|done].
    split; [by eapply live_deleted|]. exact (wf_hashes _ W _ _ L). }
  unfold creation in *. destruct (live s a) as [p|] eqn:L; cbn [Db.undo]; (eexists; split; [done|]).
  - pose proof (live_address _ s a p (wf_keyed _ W) L) as Ha.
    destruct (setStateObject_fields p s') as (F & O & _).
    split; [by etrans; [symmetry; apply F|]; symmetry; apply C|]. intros b.
    rewrite (live_insert IgnoreAcctCheck s' _ p b); [|by symmetry; apply F|done|by eapply live_deleted].
    rewrite Ha, (rc_live _ _ _ _ _ C). destruct (decide (b = a)) as [->|].
    + rewrite L. constructor. reflexivity.
    + destruct (live s b); constructor; reflexivity.
  - split; [by destruct (rc_fields _ _ _ _ _ C); split|]. intros b.
    pose proof (rc_live _ _ _ _ _ C b) as Lb. unfold View.live in Lb |- *. cbn [stateObjects with_dirty with_objects].
    destruct (decide (b = a)) as [->|N].
    + rewrite lookup_delete_eq. unfold View.live in L.
      rewrite (loaded_trie _ _ s) by done. unfold View.live.
      destruct (stateObjects s !! a) as [o'|] eqn:E; [|rewrite L; constructor].
      destruct (deleted o') eqn:D; [|done]. rewrite (wf_buried _ W a o' E D). constructor.
    + rewrite lookup_delete_ne by done. rewrite (loaded_trie _ _ s') by done.
      rewrite Lb. destruct (match stateObjects s !! b with Some _ => _ | None => _ end);
        constructor; reflexivity.
Qed.

Lemma createObject_spec s a :
  wf s ->
  exists s' o, createObject IgnoreAcctCheck a s = (live s a, (s', o)) /\
    recorded s s' (creation s a) a o /\ hash_ok (CodeHash o) /\ address o = a /\ deleted o = false.
Proof.
  intros W. unfold createObject. destruct (getStateObject_spec IgnoreAcctCheck a s) as (s1 & -> & Q).
  set (o := set_onDirty false (set_data (acc_set_Nonce 0 (data (newObject a zeroAccount)))
              (newObject a zeroAccount))).
  destruct (act_run _ _ _ (acts_setNonce IgnoreAcctCheck 0) s1 (newObject a zeroAccount))
    as (s2 & E & Q2). rewrite E. fold o.
  assert (quiet s s2) as Q3 by (by etrans).
  set (s3 := match live s a with None => _ | Some p => _ end).
  assert (s3 = record (creation s a) s2) as -> by (unfold s3, creation; by destruct (live s a)).
  set (s3 := record _ s2). destruct (setStateObject_fields o s3) as (F & O & J & R & N).
  exists (setStateObject o s3), o. split_and!; [done| |apply emptyCodeHash_ok|done|done].
  split.
  - etrans; [apply Q3|]. etrans; [|apply F]. by split.
  - intros b. rewrite (live_insert _ s3 _ o b); [|by symmetry; apply F|done..].
    change (address o) with a. case_decide; [done|]. apply (q_live _ _ _ Q3).
  - rewrite J. cbn. by rewrite (q_journal _ _ _ Q3).
  - rewrite R. apply (q_revisions _ _ _ Q3).
  - rewrite N. apply (q_next _ _ _ Q3).
  - eapply keyed_insert; [done|]. apply (q_keyed _ _ _ Q3), W.
  - eapply (buried_insert _ s3); [by symmetry; apply F|done|done|]. apply (q_buried _ _ _ Q3), W.
Qed.

Lemma GetOrNewStateObject_spec s a :
  wf s -> exists s' o, GetOrNewStateObject IgnoreAcctCheck a s = (s', o) /\
                       step s s' /\ live s' a = Some o.
Proof.
  intros W. unfold GetOrNewStateObject.
  destruct (getStateObject_spec IgnoreAcctCheck a s) as (s1 & -> & Q).
  assert (step s s1) as S1 by (by apply step_quiet).
  assert (exists s' o, snd (createObject IgnoreAcctCheck a s1) = (s', o) /\
            step s s' /\ live s' a = Some o) as H.
  { destruct (createObject_spec s1 a (st_wf _ _ S1)) as (s' & o & -> & C & Ho & Ha & Hd).
    exists s', o. split_and!; [done| |].
    - eapply step_trans; [done..|]. by eapply step_created; [apply S1|..].
    - rewrite (rc_live _ _ _ _ _ C). by rewrite decide_True. }
  destruct (live s a) as [o|] eqn:L; [|done].
  rewrite (live_deleted _ _ _ _ L). exists s1, o. split_and!; [done..|].
  by rewrite (q_live _ _ _ Q).
Qed.

(** A method on the object an address has or gets. *)
Lemma step_setter s a (f : cell -> cell) :
  wf s -> (forall s1 o, wf s1 -> live s1 a = Some o -> step s1 (put (f (s1, o)))) ->
  step s (put (f (GetOrNewStateObject IgnoreAcctCheck a s))).
Proof.
  intros W H. destruct (GetOrNewStateObject_spec s a W) as (s1 & o & -> & S & L).
  eapply step_trans; [done..|]. apply H; [apply S|done].
Qed.

Lemma step_put_same s a o : wf s -> live s a = Some o -> step s (put (s, o)).
Proof.
  intros W L. apply step_quiet; [done|].
  pose proof (live_address _ s a o (wf_keyed _ W) L) as Ha.
  pose proof (put_changed IgnoreAcctCheck s s a o ltac:(done) (wf_keyed _ W) Ha (live_deleted _ _ _ _ L)) as C.
  split; try apply C.
  - intros b. rewrite (ch_live _ _ _ _ _ C). case_decide; [by subst|done].
  - intros _. apply C.
Qed.

Lemma step_AddBalance s a n : wf s -> step s (db_AddBalance IgnoreAcctCheck a n s).
Proof.
  intros W. apply step_setter; [done|]. clear s W. intros s o W L. unfold AddBalance.
  case_if; [case_if; [by eapply step_touch|by eapply step_put_same]|].
  pose proof (step_SetBalance s a o (Balance o + n) n W L) as H.
  destruct (SetBalance (Balance o + n) (s, o)) as [s' o']. by rewrite (Z.add_comm (flow o')).
Qed.

Lemma step_SubBalance s a n : wf s -> step s (db_SubBalance IgnoreAcctCheck a n s).
Proof.
  intros W. apply step_setter; [done|]. clear s W. intros s o W L. unfold SubBalance.
  case_if; [by eapply step_put_same|].
  pose proof (step_SetBalance s a o (Balance o - n) (-n) W L) as H.
  destruct (SetBalance (Balance o - n) (s, o)) as [s' o'].
  by replace (flow o' - n) with (- n + flow o') by lia.
Qed.

Lemma step_CreateAccount s a : wf s -> step s (CreateAccount IgnoreAcctCheck a s).
Proof.
  intros W. unfold CreateAccount.
  destruct (createObject_spec s a W) as (s1 & o & -> & C & Ho & Ha & Hd).
  destruct (live s a) as [p|] eqn:L; [|by eapply step_created].
  destruct (acts_changed _ _ _ s1 s1 a o (acts_setBalance IgnoreAcctCheck (Balance p)))
    as [F V J R N Hk Hb]; [done|apply C| |].
  { rewrite (rc_live _ _ _ _ _ C). by rewrite decide_True. }
  eapply (step_created s _ a (set_onDirty false (set_data (acc_set_Balance (Balance p) (data o)) o)));
    [done| |done].
  destruct C as [CF CL CJ CR CN CK CB]. split; try (by etrans); try done.
  - intros b. rewrite V, CL. by case_decide.
  - auto.
Qed.

(** *** Refunds, logs and preimages *)

Lemma step_plain s s' e :
  wf s -> journal s' = e :: journal s -> stateObjects s' = stateObjects s -> db_trie s' = db_trie s ->
  validRevisions s' = validRevisions s -> nextRevisionId s' = nextRevisionId s ->
  entry_ok e -> (forall h, logs s' !! h <> Some []) ->
  (exists t, undo e s' = Some t /\ same_fields t s /\ stateObjects t = stateObjects s) ->
  step s s'.
Proof.
  intros W J O T R N He Hl (t & U & F & Ot).
  assert (forall b, live s' b = live s b) as L.
  { intros b. unfold View.live. rewrite O. by rewrite (loaded_trie _ s' s). }
  split; try done.
  - split; [by apply (keyed_update s); [apply W|]| |intros b o; rewrite L; apply W
      |intros b o; rewrite (loaded_trie _ s' s) by done; apply W| |done|].
    + intros b o. rewrite O. rewrite (loaded_trie _ s' s) by done. apply W.
    + rewrite J. constructor; [done|apply W].
    + by eapply (revisions_ok_grow s s' [e]); [apply W|..].
  - exists [e], t. split_and!; [done|by cbn [Db.undo_all]; rewrite U|]. split; [done|].
    intros b. unfold View.live. rewrite Ot, (loaded_trie _ t s) by apply F.
    destruct (match stateObjects s !! b with Some _ => _ | None => _ end);
      constructor; reflexivity.
Qed.

Lemma step_AddRefund s n : wf s -> step s (AddRefund n s).
Proof.
  intros W. eapply (step_plain s _ (refundChange (refund s))); try done; [apply W|].
  eexists. split; [done|]. split; [|done]. by split.
Qed.

Lemma step_SubRefund s s' n : wf s -> SubRefund n s = Some s' -> step s s'.
Proof.
  intros W. unfold SubRefund. case_if; [done|]. intros [= <-].
  eapply (step_plain s _ (refundChange (refund s))); try done; [apply W|].
  eexists. split; [done|]. split; [|done]. by split.
Qed.

Lemma step_AddLog s l : wf s -> step s (AddLog l s).
Proof.
  intros W. pose proof (wf_logs _ W (thash s)) as Hn.
  eapply (step_plain s _ (addLogChange (thash s))); try done.
  - intros h. cbn. destruct (decide (h = thash s)) as [->|]; [|by rewrite lookup_insert_ne; [apply W|]].
    rewrite lookup_insert_eq. by destruct (default [] (logs s !! thash s)).
  - unfold Db.undo. set (s' := AddLog l s).
    assert (exists x, logs s' = <[thash s := default [] (logs s !! thash s) ++ [x]]> (logs s))
      as (x & El) by (by eexists).
    assert (same_fields (with_logs (logs s) s') s) as F by (by split).
    rewrite El, lookup_insert_eq. cbn [from_option Datatypes.id]. rewrite length_app. cbn [length].
    destruct (logs s !! thash s) as [[|y l']|] eqn:E; [done| |].
    + cbn [from_option Datatypes.id length]. rewrite Nat.add_1_r. cbn [Nat.eqb].
      replace (S (S (length l')) - 1)%nat with (length (y :: l')) by (cbn; lia).
      rewrite take_app_length, insert_insert_eq, insert_id by done.
      eexists. by split_and!.
    + cbn [from_option Datatypes.id length Nat.add Nat.eqb]. rewrite delete_insert_id by done.
      eexists. by split_and!.
Qed.

Lemma step_AddPreimage s h b : wf s -> step s (AddPreimage h b s).
Proof.
  intros W. unfold AddPreimage. destruct (preimages s !! h) eqn:E; [by apply step_refl|].
  eapply (step_plain s _ (addPreimageChange h)); try done; [apply W|].
  eexists. split; [done|]. split; [|done]. split; try done. cbn. by rewrite delete_insert_id.
Qed.

(** ** Reverting *)

(** The position of a live identifier. *)
Lemma search_revision s i r revid :
  revisions_ok s -> validRevisions s !! i = Some r -> id r = revid ->
  sort_Search (length (validRevisions s))
    (fun i => match validRevisions s !! i with Some r => id r >=? revid | None => false end) = i.
Proof.
  intros W E Hid. assert (i < length (validRevisions s))%nat as Hi by (by apply lookup_lt_Some in E).
  set (f := fun i => match validRevisions s !! i with Some r => id r >=? revid | None => false end).
  assert (forall x y, (x <= y < length (validRevisions s))%nat -> f x = true -> f y = true) as Hm.
  { intros x y Hxy. unfold f.
    destruct (lookup_lt_is_Some_2 (validRevisions s) x) as (rx & Ex); [lia|].
    destruct (lookup_lt_is_Some_2 (validRevisions s) y) as (ry & Ey); [lia|].
    rewrite Ex, Ey. destruct (decide (x = y)) as [->|]; [by simplify_eq|].
    pose proof (ro_asc _ W x y rx ry ltac:(lia) Ex Ey). lia. }
  destruct (sort_Search_spec (length (validRevisions s)) f Hm) as (Hr & Hlo & Hhi).
  set (k := sort_Search _ f) in *.
  destruct (lt_eq_lt_dec k i) as [[Hk|Hk]|Hk]; [|done|].
  - specialize (Hhi k ltac:(lia)). unfold f in Hhi.
    destruct (validRevisions s !! k) as [rk|] eqn:Ek; [|done].
    pose proof (ro_asc _ W k i rk r Hk Ek E). lia.
  - specialize (Hlo i Hk). unfold f in Hlo. rewrite E in Hlo. lia.
Qed.

(** What [RevertToSnapshot] does when it does not panic. *)
Record reverted (s : StateDB) (revid : Z) (i : nat) (r : revision) (u t : StateDB) : Prop := {
  rv_at : validRevisions s !! i = Some r;
  rv_id : id r = revid;
  rv_undo : undo_all (take (length (journal s) - journalIndex r) (journal s)) s = Some u;
  rv_out : t = with_revisions (take i (validRevisions s))
                 (with_journal (drop (length (journal s) - journalIndex r) (journal s)) u)
}.

Lemma undo_meta e s t :
  undo e s = Some t ->
  journal t = journal s /\ validRevisions t = validRevisions s /\ nextRevisionId t = nextRevisionId s.
Proof.
  assert (forall a f, (forall p, let '(s', o') := f p in journal s' = journal p.1 /\
            validRevisions s' = validRevisions p.1 /\ nextRevisionId s' = nextRevisionId p.1) ->
          forall s t, on_object a f s = Some t ->
            journal t = journal s /\ validRevisions t = validRevisions s /\
            nextRevisionId t = nextRevisionId s) as H.
  { intros a f Hf s' t'. unfold Db.on_object.
    destruct (getStateObject_spec IgnoreAcctCheck a s') as (s1 & -> & Q).
    destruct (live s' a) as [o|]; [|done]. intros [= <-]. specialize (Hf (s1, o)).
    destruct (f (s1, o)) as [s2 o2]. cbn in *.
    destruct Hf as (? & ? & ?), Q. split_and!; congruence. }
  assert (forall p, let '(s', o') := mark p in journal s' = journal p.1 /\
            validRevisions s' = validRevisions p.1 /\ nextRevisionId s' = nextRevisionId p.1) as Hm.
  { intros [s' o']. unfold mark. by destruct (onDirty o'). }
  destruct e as [a|p|a b n|a n|a n|a k v|a c h|n|h|h|a b d]; cbn [Db.undo].
  - by intros [= <-].
  - intros [= <-]. by destruct (setStateObject_fields p s) as (_ & _ & ? & ? & ?).
  - destruct (getStateObject_spec IgnoreAcctCheck a s) as (s1 & -> & Q).
    destruct (live s a) as [o|]; intros [= <-]; [|by destruct Q].
    cbn. destruct Q, (onDirty o); cbn; split_and!; congruence.
  - apply H. intros [s' o']. exact (Hm (s', _)).
  - apply H. intros [s' o']. exact (Hm (s', _)).
  - apply H. intros [s' o']. exact (Hm (s', _)).
  - apply H. intros [s' o']. exact (Hm (s', _)).
  - by intros [= <-].
  - case_if; [by intros [= <-]|]. case_if; [done|]. by intros [= <-].
  - by intros [= <-].
  - case_if; [|by intros [= <-]].
    destruct (on_object a (fun '(s, o) => (s, set_touched b o)) s) as [s1|] eqn:E; [|done].
    apply H in E; [|by intros [s' o']]. intros [= <-]. by case_if.
Qed.

Lemma undo_all_meta es s t :
  undo_all es s = Some t ->
  journal t = journal s /\ validRevisions t = validRevisions s /\ nextRevisionId t = nextRevisionId s.
Proof.
  revert s. induction es as [|e es IH]; intros s; cbn [Db.undo_all]; [by intros [= <-]|].
  destruct (undo e s) as [s1|] eqn:E; [|done]. intros Hu.
  destruct (undo_meta _ _ _ E) as (? & ? & ?). destruct (IH _ Hu) as (? & ? & ?).
  split_and!; congruence.
Qed.

Lemma RevertToSnapshot_spec s revid t :
  wf s ->
  RevertToSnapshot revid s = Some t <-> exists i r u, reverted s revid i r u t.
Proof.
  intros W. unfold Db.RevertToSnapshot. split.
  - set (idx := sort_Search _ _). destruct (validRevisions s !! idx) as [r|] eqn:E; [|done].
    destruct (Z.eqb_spec (id r) revid) as [Hid|]; [|done]. cbn [negb].
    destruct (undo_all _ s) as [u|] eqn:U; [|done].
    destruct (undo_all_meta _ _ _ U) as (J & _ & _).
    case_if; [done|]. intros [= <-]. exists idx, r, u. split; try done. by rewrite J.
  - intros (i & r & u & [E Hid U ->]).
    rewrite (search_revision s i r revid (wf_revisions _ W) E Hid), E.
    destruct (Z.eqb_spec (id r) revid) as [_|]; [|done]. cbn [negb]. rewrite U.
    destruct (undo_all_meta _ _ _ U) as (-> & _ & _).
    pose proof (ro_len _ (wf_revisions _ W) _ _ E).
    destruct (Nat.ltb_spec (length (journal s)) (journalIndex r)); [lia|done].
Qed.

(** The part of well-formedness that does not look at the journal. *)
Definition sound (s : StateDB) : Prop :=
  keyed s /\ buried s /\ (forall a o, live s a = Some o -> hash_ok (CodeHash o)) /\
  (forall a o, loaded s a = Some o -> hash_ok (CodeHash o)) /\ (forall h, logs s !! h <> Some []).

Lemma sound_changed s t a o :
  sound s -> changed s t a o -> hash_ok (CodeHash o) -> sound t.
Proof.
  intros (Sk & Sb & Sh & Sl & Sg) C Ho. split_and!.
  - apply C.
  - by apply C.
  - intros b o'. rewrite (ch_live _ _ _ _ _ C). case_decide; [by intros [= <-]|apply Sh].
  - intros b o'. rewrite (loaded_trie _ t s) by (symmetry; apply C). apply Sl.
  - by rewrite <- (sf_logs _ _ (ch_fields _ _ _ _ _ C)).
Qed.

Lemma sound_quiet s t : sound s -> quiet s t -> sound t.
Proof.
  intros (Sk & Sb & Sh & Sl & Sg) Q. split_and!.
  - by apply Q.
  - by apply Q.
  - intros b o'. rewrite (q_live _ _ _ Q). apply Sh.
  - intros b o'. rewrite (loaded_trie _ t s) by (symmetry; apply Q). apply Sl.
  - by rewrite <- (sf_logs _ _ (q_fields _ _ _ Q)).
Qed.

Lemma sound_on_object s t a f h :
  acts IgnoreAcctCheck f h -> (forall o, hash_ok (CodeHash o) -> hash_ok (CodeHash (h o))) ->
  sound s -> on_object a f s = Some t -> sound t.
Proof.
  intros A Hh S E. destruct (live s a) as [o|] eqn:L; [|by rewrite on_object_None in E].
  destruct (on_object_spec IgnoreAcctCheck f h s a o A (proj1 S) L) as (t' & E' & C).
  rewrite E in E'. injection E' as <-. eapply sound_changed; [done..|]. apply Hh.
  by apply (proj1 (proj2 (proj2 S)) a).
Qed.

(** Other fields only. *)
Lemma sound_fields s t :
  sound s -> stateObjects t = stateObjects s -> db_trie t = db_trie s ->
  (forall h, logs t !! h <> Some []) -> sound t.
Proof.
  intros (Sk & Sb & Sh & Sl & Sg) O T Hl.
  assert (forall b, loaded t b = loaded s b) as Ll by (intros b; by apply loaded_trie).
  split_and!; [by apply (keyed_update s)| | | |done].
  - intros b o. rewrite O, Ll. apply Sb.
  - intros b o. unfold View.live. rewrite O, Ll. apply Sh.
  - intros b o. rewrite Ll. apply Sl.
Qed.

Lemma undo_sound e s t : entry_ok e -> sound s -> undo e s = Some t -> sound t.
Proof.
  intros He S. pose proof S as (Sk & Sb & Sh & Sl & Sg).
  destruct e as [a|p|a b n|a n|a n|a k v|a c h|n|h|h|a b d]; cbn [Db.undo].
  - intros [= <-]. split_and!; try done.
    + by apply (keyed_delete s _ a).
    + intros b o. cbn. rewrite (loaded_trie _ _ s) by done. intros [_ ?]%lookup_delete_Some. by apply Sb.
    + intros b o. unfold View.live. cbn. rewrite (loaded_trie _ _ s) by done.
      destruct (decide (b = a)) as [->|]; [rewrite lookup_delete_eq; apply Sl|].
      rewrite lookup_delete_ne by done. apply Sh.
  - intros [= <-]. destruct He as [Hd Hh]. destruct (setStateObject_fields p s) as (F & O & _).
    pose proof (sf_trie _ _ F) as T. split_and!.
    + by eapply keyed_insert.
    + by eapply buried_insert.
    + intros b o. rewrite (live_insert _ s _ p b) by done. case_decide; [by intros [= <-]|apply Sh].
    + intros b o. rewrite (loaded_trie _ _ s) by done. apply Sl.
    + by rewrite <- (sf_logs _ _ F).
  - destruct (live s a) as [o|] eqn:L.
    + destruct (undo_suicide_Some IgnoreAcctCheck s a b n o Sk L) as (t' & E & C). cbn [Db.undo] in E.
      rewrite E. intros [= <-]. eapply sound_changed; [done..|]. exact (Sh a o L).
    + destruct (undo_suicide_None IgnoreAcctCheck s a b n L) as (t' & E & Q). cbn [Db.undo] in E.
      rewrite E. intros [= <-]. by eapply sound_quiet.
  - by apply (sound_on_object _ _ _ _ _ (acts_setBalance IgnoreAcctCheck n)).
  - by apply (sound_on_object _ _ _ _ _ (acts_setNonce IgnoreAcctCheck n)).
  - by apply (sound_on_object _ _ _ _ _ (acts_setState IgnoreAcctCheck k v)).
  - apply (sound_on_object _ _ _ _ _ (acts_setCode IgnoreAcctCheck _ c)); [|done].
    intros. unfold CodeHash. cbn. apply hash_bytes_ok.
  - intros [= <-]. by apply (sound_fields s).
  - case_if; [|case_if; [done|]]; intros [= <-]; apply (sound_fields s); try done; intros h'; cbn.
    + destruct (decide (h' = h)) as [->|]; [by rewrite lookup_delete_eq|]. by rewrite lookup_delete_ne.
    + destruct (decide (h' = h)) as [->|]; [rewrite lookup_insert_eq|by rewrite lookup_insert_ne].
      destruct (default [] (logs s !! h)) as [|x [|y l]]; [done..|].
      done.
  - intros [= <-]. by apply (sound_fields s).
  - case_if; [|by intros [= <-]].
    destruct (on_object a (fun '(s, o) => (s, set_touched b o)) s) as [s1|] eqn:E; [|done].
    pose proof (sound_on_object s s1 a _ _ (acts_touched IgnoreAcctCheck b) ltac:(done) S E) as S1.
    intros [= <-]. case_if; [|done]. by apply (sound_quiet s1); [|apply quiet_dirty].
Qed.

Lemma undo_all_sound es s t :
  Forall entry_ok es -> sound s -> undo_all es s = Some t -> sound t.
Proof.
  intros He. revert s. induction He as [|e es He _ IH]; intros s S; cbn [Db.undo_all]; [by intros [= <-]|].
  destruct (undo e s) as [s1|] eqn:E; [|done]. apply IH. by eapply undo_sound.
Qed.

Lemma wf_sound s : wf s -> sound s.
Proof. intros []. by split_and!. Qed.

Lemma wf_reverted s revid i r u t : wf s -> reverted s revid i r u t -> wf t.
Proof.
  intros W [E Hid U ->]. pose proof (wf_journal _ W) as J.
  rewrite <- (take_drop (length (journal s) - journalIndex r) (journal s)) in J.
  apply Forall_app in J as [Jt Jd].
  assert (sound u) as (Sk & Sb & Sh & Sl & Sg) by (eapply undo_all_sound; [exact Jt|by apply wf_sound|done]).
  destruct (undo_all_meta _ _ _ U) as (_ & _ & N).
  pose proof (wf_revisions _ W) as R. pose proof (ro_len _ R _ _ E) as Hlen.
  assert (i < length (validRevisions s))%nat as Hi by (by apply lookup_lt_Some in E).
  split; [exact Sk|exact Sb|exact Sh|exact Sl|exact Jd|exact Sg|].
  split; cbn [validRevisions with_revisions with_journal nextRevisionId journal].
  - intros j rj [Ej _]%lookup_take_Some. rewrite N. by eapply (ro_ids _ R).
  - intros j k rj rk Hjk [Ej _]%lookup_take_Some [Ek _]%lookup_take_Some. by eapply (ro_asc _ R).
  - intros j rj [Ej Hj]%lookup_take_Some. rewrite length_drop.
    pose proof (ro_asc _ R j i rj r Hj Ej E). lia.
Qed.

(** ** Snapshots stay good *)

Record agree (s t : StateDB) : Prop := {
  ag_same : same s t;
  ag_journal : journal s = journal t;
  ag_revisions : validRevisions s = validRevisions t
}.

(** From [s] to [s'] no snapshot taken before [s] has changed its meaning. *)
Record keeps (s s' : StateDB) : Prop := {
  kp_wf : wf s';
  kp_next : nextRevisionId s <= nextRevisionId s';
  kp_revert i t : i < nextRevisionId s -> RevertToSnapshot i s = Some t ->
    exists t', RevertToSnapshot i s' = Some t' /\ agree t t'
}.

Lemma agree_trans s t u : agree s t -> agree t u -> agree s u.
Proof. intros [] []. split; by etrans. Qed.

Lemma snapshots_keep_refl s : wf s -> keeps s s.
Proof. intros W. split; [done|lia|]. intros i t _ E. by exists t. Qed.

Lemma snapshots_keep_trans s1 s2 s3 : keeps s1 s2 -> keeps s2 s3 -> keeps s1 s3.
Proof.
  intros [W1 N1 R1] [W2 N2 R2]. split; [done|lia|]. intros i t Hi E.
  destruct (R1 i t Hi E) as (t2 & E2 & A2). destruct (R2 i t2 ltac:(lia) E2) as (t3 & E3 & A3).
  exists t3. split; [done|]. by eapply agree_trans.
Qed.

Lemma keeps_step s s' : wf s -> step s s' -> keeps s s'.
Proof.
  intros W [W' (es & w & J & U & S) R N]. split; [done|lia|]. intros i t _.
  rewrite RevertToSnapshot_spec by done. intros (k & r & u & [E Hid Ur ->]).
  pose proof (ro_len _ (wf_revisions _ W) _ _ E) as Hlen.
  set (n := (length (journal s) - journalIndex r)%nat) in *.
  assert (length (journal s') - journalIndex r = length es + n)%nat as Hn by (rewrite J, length_app; lia).
  destruct (undo_all_same IgnoreAcctCheck es s' s' w) as (w' & Ew & _ & Kw & _); [done|apply W'..|done|].
  destruct (undo_all_same IgnoreAcctCheck (take n (journal s)) s w u) as (u' & Eu & Su & _ & _);
    [by symmetry|apply W|done|done|].
  exists (with_revisions (take k (validRevisions s')) (with_journal (drop n (journal s)) u')). split.
  - apply RevertToSnapshot_spec; [done|]. exists k, r, u'. split; [by rewrite R|done| |].
    + rewrite Hn, J, take_app_add, undo_all_app, U. done.
    + by rewrite Hn, J, drop_app_add.
  - split; [|done|by rewrite R]. by destruct Su as [[] ?]; split.
Qed.

Lemma Snapshot_keeps s : wf s -> keeps s (snd (Snapshot s)).
Proof.
  intros W. pose proof (wf_revisions _ W) as R. cbn. set (s' := with_revisions _ _).
  assert (wf s') as W'.
  { destruct W. split; try done. split; cbn.
    - intros i r [E|[_ [_ <-]%list_lookup_singleton_Some]]%lookup_app_Some; [|cbn; lia].
      pose proof (ro_ids _ R _ _ E). lia.
    - intros i j r r' Hij.
      intros [E|[Hi [? <-]%list_lookup_singleton_Some]]%lookup_app_Some
             [E'|[Hj [? <-]%list_lookup_singleton_Some]]%lookup_app_Some; cbn; try lia.
      + by eapply (ro_asc _ R).
      + pose proof (ro_ids _ R _ _ E). pose proof (ro_len _ R _ _ E). lia.
      + apply lookup_lt_Some in E'. lia.
    - intros i r [E|[_ [_ <-]%list_lookup_singleton_Some]]%lookup_app_Some; [|done].
      by eapply (ro_len _ R). }
  split; [done|cbn; lia|]. intros i t Hi. rewrite !RevertToSnapshot_spec by done.
  intros (k & r & u & [E Hid U ->]).
  assert (k < length (validRevisions s))%nat as Hk by (by apply lookup_lt_Some in E).
  assert (same s s') as S by (apply same_objects; [by split|done]).
  destruct (undo_all_same IgnoreAcctCheck _ s s' u S (wf_keyed _ W) (wf_keyed _ W') U)
    as (u' & U' & Su & _ & _).
  exists (with_revisions (take k (validRevisions s'))
            (with_journal (drop (length (journal s') - journalIndex r) (journal s')) u')).
  split; [apply RevertToSnapshot_spec; [done|]; exists k, r, u'; split; try done|].
  - cbn. by rewrite lookup_app_l.
  - split; [|done|].
    + by destruct Su as [[] ?]; split.
    + cbn. by rewrite take_app_le by lia.
Qed.

(** Undoing nothing: what the newest snapshot stands for. *)
Lemma revert_newest s :
  wf s -> let s1 := snd (Snapshot s) in
  exists t, RevertToSnapshot (fst (Snapshot s)) s1 = Some t /\ agree t s.
Proof.
  intros W. pose proof (kp_wf _ _ (Snapshot_keeps s W)) as W1. cbn. set (s1 := with_revisions _ _).
  set (r := mkRevision (nextRevisionId s) (length (journal s))).
  exists (with_revisions (take (length (validRevisions s)) (validRevisions s1))
            (with_journal (drop (length (journal s1) - journalIndex r) (journal s1)) s1)). split.
  - apply RevertToSnapshot_spec; [done|]. exists (length (validRevisions s)), r, s1. split; try done.
    + cbn. rewrite lookup_app_r by done. by rewrite Nat.sub_diag.
    + cbn. by rewrite Nat.sub_diag.
  - split; cbn; [|by rewrite Nat.sub_diag|by rewrite take_app_length].
    symmetry. by apply same_objects; [split|].
Qed.

(** Reverting to a younger snapshot. *)
Lemma keeps_revert s0 s i t :
  keeps s0 s -> nextRevisionId s0 <= i -> RevertToSnapshot i s = Some t -> keeps s0 t.
Proof.
  intros [W N R] Hi Et. pose proof Et as Et'. rewrite RevertToSnapshot_spec in Et by done.
  destruct Et as (k & r & u & V). pose proof (wf_reverted _ _ _ _ _ _ W V) as Wt.
  destruct V as [E Hid U ->]. destruct (undo_all_meta _ _ _ U) as (Ju & Ru & Nu).
  split; [done|cbn; lia|]. intros j v Hj Ej.
  destruct (R j v Hj Ej) as (v' & Ev & A). rewrite RevertToSnapshot_spec in Ev by done.
  destruct Ev as (k' & r' & u' & [E' Hid' U' ->]).
  assert (k' < k)%nat as Hk.
  { destruct (decide (k' < k)%nat); [done|]. exfalso. destruct (decide (k' = k)) as [->|].
    - rewrite E in E'. injection E' as <-. lia.
    - pose proof (ro_asc _ (wf_revisions _ W) k k' _ _ ltac:(lia) E E'). lia. }
  pose proof (ro_asc _ (wf_revisions _ W) _ _ _ _ Hk E' E) as [_ Hle].
  pose proof (ro_len _ (wf_revisions _ W) _ _ E) as Hlen.
  set (n := (length (journal s) - journalIndex r)%nat) in *.
  assert (length (journal s) - journalIndex r' = n + (journalIndex r - journalIndex r'))%nat as Hn by lia.
  assert (take (length (journal s) - journalIndex r') (journal s) =
          take n (journal s) ++ take (journalIndex r - journalIndex r') (drop n (journal s))) as Hsplit.
  { by rewrite Hn, take_take_drop. }
  rewrite Hsplit, undo_all_app, U in U'.
  set (t := with_revisions _ _) in *.
  assert (same u t) as S by (apply same_objects; [by split|done]).
  assert (keyed u) as Ku by exact (wf_keyed _ Wt).
  destruct (undo_all_same IgnoreAcctCheck _ u t u' S Ku (wf_keyed _ Wt) U') as (w & Uw & Sw & _ & _).
  assert (length (journal t) - journalIndex r' = journalIndex r - journalIndex r')%nat as Hnt
    by (cbn; rewrite length_drop; lia).
  eexists. split.
  - apply RevertToSnapshot_spec; [done|]. exists k', r', w. split; [|done| |reflexivity].
    + cbn. by rewrite lookup_take_lt.
    + by rewrite Hnt.
  - eapply agree_trans; [done|]. split.
    + by destruct Sw as [[] ?]; split.
    + cbn [journal with_revisions with_journal]. rewrite Hnt. cbn. by rewrite drop_drop, <- Hn.
    + cbn. rewrite take_take. by rewrite Nat.min_l by lia.
Qed.

(** ** Sequences of operations *)

(** What the machine and the transactions do to a state ([vm.StateDB]). *)
Inductive op :=
| OpCreateAccount (a : Address)
| OpAddBalance (a : Address) (n : Z)
| OpSubBalance (a : Address) (n : Z)
| OpSetBalance (a : Address) (n : Z)
| OpSetNonce (a : Address) (n : Z)
| OpSetCode (a : Address) (c : option bytes)
| OpSetState (a : Address) (k v : Hash)
| OpSuicide (a : Address)
| OpAddRefund (n : Z)
| OpSubRefund (n : Z)
| OpAddLog (l : State.Log)
| OpAddPreimage (h : Hash) (b : bytes)
| OpExist (a : Address)
| OpGetCode (a : Address)
| OpGetCodeSize (a : Address)
| OpGetState (a : Address) (k : Hash)
| OpSnapshot
| OpRevert (i : Z).

Definition exec (o : op) (s : StateDB) : option StateDB :=
  match o with
  | OpCreateAccount a => Some (CreateAccount IgnoreAcctCheck a s)
  | OpAddBalance a n => Some (db_AddBalance IgnoreAcctCheck a n s)
  | OpSubBalance a n => Some (db_SubBalance IgnoreAcctCheck a n s)
  | OpSetBalance a n => Some (db_SetBalance IgnoreAcctCheck a n s)
  | OpSetNonce a n => Some (db_SetNonce IgnoreAcctCheck a n s)
  | OpSetCode a c => Some (db_SetCode IgnoreAcctCheck a c s)
  | OpSetState a k v => Some (SetState IgnoreAcctCheck a k v s)
  | OpSuicide a => Some (snd (Suicide IgnoreAcctCheck a s))
  | OpAddRefund n => Some (AddRefund n s)
  | OpSubRefund n => SubRefund n s
  | OpAddLog l => Some (AddLog l s)
  | OpAddPreimage h b => Some (AddPreimage h b s)
  | OpExist a => Some (snd (Exist IgnoreAcctCheck a s))
  | OpGetCode a => Some (snd (GetCode IgnoreAcctCheck a s))
  | OpGetCodeSize a => Some (snd (GetCodeSize IgnoreAcctCheck a s))
  | OpGetState a k => Some (snd (GetState IgnoreAcctCheck a k s))
  | OpSnapshot => Some (snd (Snapshot s))
  | OpRevert i => RevertToSnapshot i s
  end.

Fixpoint run (os : list op) (s : StateDB) : option StateDB :=
  match os with
  | [] => Some s
  | o :: os' => match exec o s with None => None | Some s => run os' s end
  end.

(** Only snapshots younger than [i] are reverted to. *)
Definition after_snapshot (i : Z) (o : op) : Prop :=
  match o with OpRevert j => i < j | _ => True end.

Lemma step_getStateObject s a : wf s -> step s (snd (getStateObject a s)).
Proof.
  intros W. destruct (getStateObject_spec IgnoreAcctCheck a s) as (s1 & -> & Q). by apply step_quiet.
Qed.

(** Writing back an object with fuller caches. *)
Lemma step_cache s s1 a o o1 :
  wf s -> quiet s s1 -> live s a = Some o -> same_obj (dataPrefix s) o1 o -> deleted o1 = deleted o ->
  step s (put (s1, o1)).
Proof.
  intros W Q L So Hd. pose proof (live_address _ s a o (wf_keyed _ W) L) as Ha.
  pose proof (live_deleted _ _ _ _ L) as Hl.
  assert (changed s (put (s1, o1)) a o1) as C.
  { apply put_changed; [done|apply W| |by rewrite Hd]. by rewrite (so_address _ _ _ So). }
  split; [|exists [], (put (s1, o1))|apply C|apply C].
  - pose proof (sound_changed _ _ _ _ (wf_sound _ W) C) as S.
    rewrite (so_CodeHash _ _ _ So) in S. specialize (S (wf_hashes _ W _ _ L)).
    destruct S as (? & ? & ? & ? & ?). split; try done.
    + rewrite (ch_journal _ _ _ _ _ C). apply W.
    + by eapply (revisions_ok_grow s _ []); [apply W|apply C..].
  - split_and!; [by rewrite (ch_journal _ _ _ _ _ C)|done|]. split; [symmetry; apply C|].
    intros b. rewrite (ch_live _ _ _ _ _ C), <- (sf_prefix _ _ (ch_fields _ _ _ _ _ C)).
    destruct (decide (b = a)) as [->|]; [rewrite L; by constructor|].
    destruct (live s b); constructor; reflexivity.
Qed.

Lemma quiet_prefix s t : quiet s t -> dataPrefix t = dataPrefix s.
Proof. intros Q. symmetry. apply Q. Qed.

Lemma exec_step s o t :
  wf s -> exec o s = Some t -> step s t \/ o = OpSnapshot \/ exists i, o = OpRevert i.
Proof.
  intros W. destruct o as [a|a n|a n|a n|a n|a c|a k v|a|n|n|l|h b|a|a|a|a k| |i]; cbn [exec];
    intros E; try (injection E as <-); eauto; left.
  - by apply step_CreateAccount.
  - by apply step_AddBalance.
  - by apply step_SubBalance.
  - apply step_setter; [done|]. intros. by eapply step_put_SetBalance.
  - apply step_setter; [done|]. intros. by eapply step_SetNonce.
  - apply step_setter; [done|]. intros. by eapply step_SetCode.
  - apply step_setter; [done|]. intros. by eapply step_SetState.
  - by apply step_Suicide.
  - by apply step_AddRefund.
  - by eapply step_SubRefund.
  - by apply step_AddLog.
  - by apply step_AddPreimage.
  - pose proof (step_getStateObject s a W) as S. unfold Exist. by destruct (getStateObject a s).
  - unfold GetCode. destruct (getStateObject_spec IgnoreAcctCheck a s) as (s1 & -> & Q).
    destruct (live s a) as [o|] eqn:L; [|by apply step_quiet].
    destruct (Code_same s1 o) as (_ & So & Hd & _). specialize (So (size_of_code _ _ _)).
    rewrite (quiet_prefix _ _ Q) in So. destruct (Code s1 o) as [c o1]. by eapply step_cache.
  - unfold GetCodeSize. destruct (getStateObject_spec IgnoreAcctCheck a s) as (s1 & -> & Q).
    destruct (live s a) as [o|] eqn:L; [|by apply step_quiet].
    destruct (code o); [by apply step_quiet|]. destruct (ContractCodeSize _ _ _) as [z [e|]];
      apply step_quiet; try done. etrans; [done|apply quiet_setError].
  - unfold GetState. destruct (getStateObject_spec IgnoreAcctCheck a s) as (s1 & -> & Q).
    destruct (live s a) as [o|] eqn:L; [|by apply step_quiet].
    destruct (o_GetState_same s1 o k) as (_ & So & Hd).
    rewrite (quiet_prefix _ _ Q) in So. destruct (o_GetState s1 o k) as [v o1]. by eapply step_cache.
Qed.

Lemma exec_keeps s0 s o t :
  keeps s0 s -> after_snapshot (nextRevisionId s0 - 1) o -> exec o s = Some t -> keeps s0 t.
Proof.
  intros Kp Hs E. destruct (exec_step s o t (kp_wf _ _ Kp) E) as [S|[->|[i ->]]].
  - eapply snapshots_keep_trans; [done|]. apply keeps_step; [apply Kp|done].
  - cbn in E. injection E as <-. eapply snapshots_keep_trans; [done|]. apply Snapshot_keeps, Kp.
  - cbn in E, Hs. eapply keeps_revert; [done| |done]. lia.
Qed.

Lemma run_keeps s0 s os t :
  keeps s0 s -> Forall (after_snapshot (nextRevisionId s0 - 1)) os -> run os s = Some t -> keeps s0 t.
Proof.
  intros Kp Hs. revert s Kp. induction Hs as [|o os Ho _ IH]; intros s Kp; cbn [run]; [by intros [= <-]|].
  destruct (exec o s) as [s1|] eqn:E; [|done]. apply IH. by eapply exec_keeps.
Qed.

(** ** Progress *)

(** Taking the whole journal back leads to [s0]. *)
Definition leads_back (s0 : StateDB) (es : list journalEntry) (s : StateDB) : Prop :=
  exists t, undo_all es s = Some t /\ same t s0.
Definition undoable (s0 s : StateDB) : Prop := leads_back s0 (journal s) s.

(** The operations that panic: a refund below zero, and a revision that is not
    valid. *)
Definition forbidden (o : op) (s : StateDB) : Prop :=
  match o with
  | OpSubRefund n => refund s < n
  | OpRevert i => forall k r, validRevisions s !! k = Some r -> id r <> i
  | _ => False
  end.

Lemma same_seen s t : same_fields s t -> (forall a, live t a = live s a) -> same s t.
Proof. intros F L. split; [done|]. intros a. rewrite L. by destruct (live s a); constructor. Qed.

Lemma leads_back_same s0 es s t :
  same s t -> keyed s -> keyed t -> leads_back s0 es s -> leads_back s0 es t.
Proof.
  intros S Hs Ht (u & E & Su). destruct (undo_all_same IgnoreAcctCheck es s t u S Hs Ht E) as (u' & E' & S' & _).
  exists u'. split; [done|]. by transitivity u.
Qed.

Lemma undoable_step s0 s t : wf s -> step s t -> undoable s0 s -> undoable s0 t.
Proof.
  intros W [W' (es & u & J & U & S) _ _] H. unfold undoable, leads_back. rewrite J, undo_all_app, U.
  apply (leads_back_same s0 _ s u); [by symmetry|apply W| |done].
  destruct (undo_all_same IgnoreAcctCheck es t t u) as (? & _ & _ & Ku & _); [done|apply W'..|done|exact Ku].
Qed.

Lemma undoable_reverted s0 s i k r u t : wf s -> reverted s i k r u t -> undoable s0 s -> undoable s0 t.
Proof.
  intros W R H. pose proof (wf_reverted _ _ _ _ _ _ W R) as Wt. destruct R as [_ _ U ->].
  unfold undoable, leads_back in H.
  rewrite <- (take_drop (length (journal s) - journalIndex r) (journal s)), undo_all_app, U in H.
  unfold undoable. cbn [journal with_revisions with_journal].
  apply (leads_back_same s0 _ u); [by apply same_seen|apply Wt..|done].
Qed.

Lemma undoable_exec s0 s o t : wf s -> exec o s = Some t -> undoable s0 s -> undoable s0 t.
Proof.
  intros W E U. destruct (exec_step s o t W E) as [S|[->|[i ->]]].
  - by eapply undoable_step.
  - injection E as <-. apply (leads_back_same s0 _ s); [by apply same_seen|apply W..|done].
  - apply (RevertToSnapshot_spec s i t W) in E as (k & r & u & R). by eapply undoable_reverted.
Qed.

Lemma wf_exec s o t : wf s -> exec o s = Some t -> wf t.
Proof.
  intros W E. destruct (exec_step s o t W E) as [S|[->|[i ->]]].
  - apply S.
  - injection E as <-. apply (kp_wf _ _ (Snapshot_keeps s W)).
  - apply (RevertToSnapshot_spec s i t W) in E as (k & r & u & R). by eapply wf_reverted.
Qed.

Lemma exec_panics s0 s o : wf s -> undoable s0 s -> exec o s = None <-> forbidden o s.
Proof.
  intros W (v & U & _). destruct o as [a|a n|a n|a n|a n|a c|a k x|a|n|n|l|h b|a|a|a|a k| |i]; cbn [exec forbidden];
    try (by split).
  - unfold SubRefund. cbn. destruct (Z.gtb_spec n (refund s)); split; try done; lia.
  - split.
    + intros E k r Er Hid. set (n := (length (journal s) - journalIndex r)%nat).
      rewrite <- (take_drop n (journal s)), undo_all_app in U.
      destruct (undo_all (take n (journal s)) s) as [u|] eqn:Eu; [|done].
      assert (reverted s i k r u (with_revisions (take k (validRevisions s))
                (with_journal (drop n (journal s)) u))) as R by (by split).
      enough (Some (with_revisions (take k (validRevisions s)) (with_journal (drop n (journal s)) u)) = None)
        by done.
      rewrite <- E. symmetry. apply (RevertToSnapshot_spec s i _ W). by eexists _, _, _.
    + intros N. destruct (RevertToSnapshot i s) as [t|] eqn:E; [|done].
      apply (RevertToSnapshot_spec s i t W) in E as (k & r & u & [Er Hid _ _]). by destruct (N k r Er).
Qed.

Lemma run_undoable s0 os s t : wf s -> undoable s0 s -> run os s = Some t -> wf t /\ undoable s0 t.
Proof.
  revert s. induction os as [|o os IH]; intros s W U; cbn [run]; [by intros [= <-]|].
  destruct (exec o s) as [s1|] eqn:E; [|done]. apply IH; [by eapply wf_exec|by eapply undoable_exec].
Qed.

(** C35: the operations of the account state are sound.  Whatever sequence of
    operations is run, in any order and with snapshots reverted to at will, on a
    well-formed state without history: the state stays well formed; an operation
    panics if and only if it takes more than the refund or reverts to a revision
    that is not valid; and the journal takes everything back, to a state whose
    accounts, refund, logs and preimages are the first one's. *)
Theorem operations_sound s0 os s :
  wf s0 -> journal s0 = [] -> run os s0 = Some s ->
  wf s /\ (forall o, exec o s = None <-> forbidden o s) /\
  exists t, undo_all (journal s) s = Some t /\ same t s0.
Proof.
  intros W J E. assert (undoable s0 s0) as U by (unfold undoable; rewrite J; by exists s0).
  destruct (run_undoable s0 os s0 s W U E) as [Ws Us]. split_and!; [done| |done].
  intros o. by eapply exec_panics.
Qed.

(** ** What a caller sees *)

Record answers_alike (s t : StateDB) : Prop := {
  an_Exist a : fst (Exist IgnoreAcctCheck a s) = fst (Exist IgnoreAcctCheck a t);
  an_Empty a : fst (Empty IgnoreAcctCheck a s) = fst (Empty IgnoreAcctCheck a t);
  an_GetBalance a : fst (GetBalance IgnoreAcctCheck a s) = fst (GetBalance IgnoreAcctCheck a t);
  an_GetNonce a : fst (GetNonce IgnoreAcctCheck a s) = fst (GetNonce IgnoreAcctCheck a t);
  an_GetCode a : fst (GetCode IgnoreAcctCheck a s) = fst (GetCode IgnoreAcctCheck a t);
  an_GetCodeSize a : fst (GetCodeSize IgnoreAcctCheck a s) = fst (GetCodeSize IgnoreAcctCheck a t);
  an_GetCodeHash a : fst (GetCodeHash IgnoreAcctCheck a s) = fst (GetCodeHash IgnoreAcctCheck a t);
  an_GetState a k : fst (GetState IgnoreAcctCheck a k s) = fst (GetState IgnoreAcctCheck a k t);
  an_HasSuicided a : fst (HasSuicided IgnoreAcctCheck a s) = fst (HasSuicided IgnoreAcctCheck a t);
  an_GetRefund : GetRefund s = GetRefund t;
  an_GetLogs h : GetLogs h s = GetLogs h t;
  an_Preimages : preimages s = preimages t
}.

(** What the getters read of two states is the same. *)
Record seen_alike (s t : StateDB) : Prop := {
  sn_prefix : dataPrefix s = dataPrefix t;
  sn_refund : refund s = refund t;
  sn_logs : logs s = logs t;
  sn_preimages : preimages s = preimages t;
  sn_live a : option_Forall2 (same_obj (dataPrefix s)) (live s a) (live t a)
}.

(** Both sides of a getter, by cases on the live object. *)
Ltac getter S a s1 :=
  let Q := fresh "Q" in let Q' := fresh "Q'" in let L := fresh "L" in
  pose proof (sn_live _ _ S a) as L;
  match goal with
  | |- context [Db.getStateObject ?f a ?s] =>
      destruct (getStateObject_spec f a s) as (s1 & -> & Q)
  end;
  match goal with
  | |- context [Db.getStateObject ?f a ?t] =>
      let t1 := fresh "t1" in destruct (getStateObject_spec f a t) as (t1 & -> & Q')
  end;
  destruct L as [o o' Ho|]; cbn [fst]; try done.

Lemma seen_answers s t : seen_alike s t -> answers_alike s t.
Proof.
  intros S. split; try apply S; intros a.
  - unfold Exist. by getter S a s1.
  - unfold Empty. getter S a s1. unfold empty.
    by rewrite (so_Nonce _ _ _ Ho), (so_Balance _ _ _ Ho), (so_CodeHash _ _ _ Ho).
  - unfold GetBalance. getter S a s1. apply Ho.
  - unfold GetNonce. getter S a s1. apply Ho.
  - unfold GetCode. getter S a s1.
    destruct (Code_same s1 o) as (E & _), (Code_same t1 o') as (E' & _).
    destruct (Code s1 o), (Code t1 o'). cbn [fst] in *. rewrite E, E'.
    rewrite (quiet_prefix _ _ Q), (quiet_prefix _ _ Q'), <- (sn_prefix _ _ S). apply Ho.
  - unfold GetCodeSize. getter S a s1.
    pose proof (so_size _ _ _ Ho) as Hs. unfold peek_size in Hs.
    rewrite (quiet_prefix _ _ Q), (quiet_prefix _ _ Q'), <- (sn_prefix _ _ S).
    destruct (code o), (code o'); repeat destruct (ContractCodeSize _ _ _); cbn [fst] in *; done.
  - unfold GetCodeHash. getter S a s1. by rewrite (so_CodeHash _ _ _ Ho).
  - intros k. unfold GetState. getter S a s1.
    destruct (o_GetState_same s1 o k) as (E & _), (o_GetState_same t1 o' k) as (E' & _).
    destruct (o_GetState s1 o k), (o_GetState t1 o' k). cbn [fst] in *. rewrite E, E'.
    rewrite (quiet_prefix _ _ Q), (quiet_prefix _ _ Q'), <- (sn_prefix _ _ S). apply Ho.
  - unfold HasSuicided. getter S a s1. apply Ho.
  - unfold GetLogs. by rewrite (sn_logs _ _ S).
Qed.

Lemma same_answers s t : same s t -> answers_alike s t.
Proof. intros [[] L]. by apply seen_answers. Qed.

(** C34: reverting is exact.  After any sequence of operations that reverts to
    younger snapshots only, reverting to a snapshot does not panic, and every
    getter then answers what it answered when the snapshot was taken. *)
Theorem RevertToSnapshot_exact s os s' :
  wf s -> Forall (after_snapshot (fst (Snapshot s))) os ->
  run os (snd (Snapshot s)) = Some s' ->
  exists t, RevertToSnapshot (fst (Snapshot s)) s' = Some t /\
    wf t /\ answers_alike t s /\ validRevisions t = validRevisions s.
Proof.
  intros W Hos E. pose proof (Snapshot_keeps s W) as Kp.
  destruct (revert_newest s W) as (t0 & E0 & A0).
  assert (keeps (snd (Snapshot s)) s') as K2.
  { eapply run_keeps; [apply snapshots_keep_refl, Kp| |done].
    replace (nextRevisionId (snd (Snapshot s)) - 1) with (fst (Snapshot s)) by (cbn; lia). done. }
  destruct (kp_revert _ _ K2 (fst (Snapshot s)) t0) as (t & Et & At); [cbn; lia|done|].
  exists t. split; [done|]. split.
  { pose proof Et as Er. rewrite RevertToSnapshot_spec in Er by apply K2.
    destruct Er as (k & r & u & V). eapply wf_reverted; [apply K2|done]. }
  destruct A0 as [S0 _ R0], At as [St _ Rt]. split; [|congruence].
  apply same_answers. etrans; [by symmetry|done].
Qed.

(** ** A fresh database *)

(** The accounts of a trie carry hashes of thirty-two bytes. *)
Definition stored_hashes_ok (t : trie) : Prop :=
  forall a enc d h, TryGet t (Address.hash a) = Ok enc -> rlp_decode_account enc = Ok d ->
    acc_CodeHash d = Some h -> hash_ok h.

Lemma wf_new prefix t : stored_hashes_ok t -> wf (new_StateDB prefix t).
Proof.
  intros H.
  assert (forall a o, loaded (new_StateDB prefix t) a = Some o -> hash_ok (CodeHash o)) as Hl.
  { intros a o. unfold View.loaded. cbn. destruct (TryGet t _) as [enc|] eqn:T; [|done].
    destruct (length enc =? 0)%nat; [done|]. destruct (rlp_decode_account enc) as [d|] eqn:R; [|done].
    intros [= <-]. unfold CodeHash, Db.newObject. cbn.
    destruct (acc_CodeHash d) as [h|] eqn:E; [by eapply H|apply emptyCodeHash_ok]. }
  split; try done.
Qed.

(** ** What reverting forgets *)

(** Taking back the one entry recorded since the snapshot. *)
Lemma revert_one s s' e t :
  wf s -> step (snd (Snapshot s)) s' -> journal s' = e :: journal s -> undo e s' = Some t ->
  RevertToSnapshot (fst (Snapshot s)) s' =
    Some (with_revisions (validRevisions s) (with_journal (journal s) t)).
Proof.
  intros W S J U. apply RevertToSnapshot_spec; [apply S|].
  exists (length (validRevisions s)), (mkRevision (nextRevisionId s) (length (journal s))), t.
  assert (length (journal s') - length (journal s) = 1)%nat as Hn by (rewrite J; cbn [length]; lia).
  split; cbn [id journalIndex].
  - rewrite (st_revisions _ _ S). cbn. rewrite lookup_app_r by done. by rewrite Nat.sub_diag.
  - done.
  - rewrite Hn, J. cbn [take Db.undo_all]. by rewrite U.
  - rewrite Hn, J, (st_revisions _ _ S). cbn. rewrite drop_0. by rewrite take_app_length.
Qed.

(** Two records of a transaction survive the revert that takes the
    transaction back: the flow of an account ([GetCoinflows] reports money that
    never moved), and the log counter (later logs skip an index). *)
Theorem revert_keeps_flow_and_log_counter s a o n l :
  wf s -> stateObjects s !! a = Some o -> deleted o = false -> n <> 0 ->
  (exists t o', RevertToSnapshot (fst (Snapshot s))
                  (db_AddBalance IgnoreAcctCheck a n (snd (Snapshot s))) = Some t /\
     stateObjects t !! a = Some o' /\ Balance o' = Balance o /\ flow o' = flow o + n) /\
  (exists t, RevertToSnapshot (fst (Snapshot s)) (AddLog l (snd (Snapshot s))) = Some t /\
     logs t = logs s /\ logSize t = logSize s + 1).
Proof.
  intros W E D Hn. pose proof (kp_wf _ _ (Snapshot_keeps s W)) as W1.
  pose proof (wf_keyed _ W a o E) as Ha.
  set (s1 := snd (Snapshot s)). assert (stateObjects s1 !! a = Some o) as E1 by done. split.
  - pose proof (step_AddBalance s1 a n W1) as S.
    unfold db_AddBalance, GetOrNewStateObject, Db.getStateObject in S |- *.
    rewrite E1, D, D in S |- *. unfold AddBalance, SetBalance, setBalance in S |- *.
    destruct (Z.eqb_spec n 0) as [|_]; [done|]. set (r := record _ s1) in *.
    destruct (quiet_mark IgnoreAcctCheck r (set_data (acc_set_Balance (Balance o + n) (data o)) o))
      as (s2 & Em & Q). rewrite Em in S |- *. set (o2 := set_flow _ _) in *.
    assert (address o2 = a) as Ha2 by done.
    assert (stateObjects (put (s2, o2)) !! a = Some o2) as E2
      by (cbn; rewrite Ha; apply lookup_insert_eq).
    assert (undo (balanceChange (address o) (Balance o)) (put (s2, o2)) =
            Some (put (setBalance (Balance o) (put (s2, o2), o2)))) as U.
    { cbn [Db.undo]. unfold Db.on_object, Db.getStateObject. rewrite Ha, E2.
      by change (deleted o2) with (deleted o); rewrite D. }
    assert (journal (put (s2, o2)) = balanceChange (address o) (Balance o) :: journal s) as J
      by exact (q_journal _ _ _ Q).
    eexists _, (set_onDirty false (set_data (acc_set_Balance (Balance o) (data o2)) o2)).
    split_and!; [by eapply revert_one| |done|cbn; lia].
    cbn [stateObjects with_revisions with_journal]. unfold setBalance.
    destruct (quiet_mark IgnoreAcctCheck (put (s2, o2)) (set_data (acc_set_Balance (Balance o) (data o2)) o2))
      as (s3 & -> & _). cbn. rewrite Ha. apply lookup_insert_eq.
  - pose proof (step_AddLog s1 l W1) as S.
    destruct (step_AddLog s1 l W1) as [_ (es & t & J & U & St) _ _].
    destruct es as [|e [|? ?]]; [by apply (f_equal length) in J; cbn in J; lia| |
      by apply (f_equal length) in J; cbn in J; rewrite ?length_app in J; cbn in J; lia].
    cbn [app] in J. cbn [Db.undo_all] in U. destruct (undo e (AddLog l s1)) as [t'|] eqn:Ue; [|done].
    injection U as ->. eexists. split_and!; [by eapply revert_one| |].
    + cbn. by rewrite (sf_logs _ _ (same_fields_of _ _ _ St)).
    + cbn in J. injection J as <-. cbn [Db.undo] in Ue. revert Ue.
      case_if; [|case_if; [done|]]; intros [= <-]; done.
Qed.

End Revert.
End Revert.
