(* ===== verification/StateEvm.v ===== *)
(** The account state under the machine: [state.StateDB] as the machine's
    [vm.StateDB] and [core.Transfer] ([src/core/ovm.go]) on it; a failing call
    on the real journal.

    The machine's interface reads without changing the state.  The getters
    here fill caches, which no getter can see ([StateRevert.step_cache]); the
    instance drops the fuller caches.

    A small concrete account state: tries are finite maps held in memory.  The
    theorems about the journal are applied on it, and a failing contract is
    run on it. *)
From S2P Require Import Prelude Bech32 Address EvmWord EvmAnalysis EvmState EvmGas EvmInstr EvmTable EvmRun EvmSafe EvmFrame EvmDemo StateDb Ovm StateView StateRevert.

Import Db View Revert.

Module StateEvm.

Section StateEvm.
Context {B : Backing} {K : State.Crypto} {KO : Safe.CryptoOk K}.
Context (IgnoreAcctCheck : bool).
Context (size_of_code : forall p a h,
  fst (ContractCodeSize p a h) =
  match ContractCode p a h with Ok c => Z.of_nat (length c) | Err _ => 0 end).

(** [RevertToSnapshot] panics on an unknown identifier; the machine only uses
    those it was given, which stay known ([RevertToSnapshot_exact]). *)
Definition machine_db : State.StateDB := {|
  State.sdb := Db.StateDB;
  State.CreateAccount d a := CreateAccount IgnoreAcctCheck a d;
  State.AddBalance d a n := db_AddBalance IgnoreAcctCheck a n d;
  State.GetBalance d a := fst (GetBalance IgnoreAcctCheck a d);
  State.GetNonce d a := fst (GetNonce IgnoreAcctCheck a d);
  State.SetNonce d a n := db_SetNonce IgnoreAcctCheck a n d;
  State.GetCodeHash d a := fst (GetCodeHash IgnoreAcctCheck a d);
  State.GetCode d a := default [] (fst (GetCode IgnoreAcctCheck a d));
  State.SetCode d a c := db_SetCode IgnoreAcctCheck a (Some c) d;
  State.GetCodeSize d a := fst (GetCodeSize IgnoreAcctCheck a d);
  State.AddRefund d n := AddRefund n d;
  State.SubRefund d n := SubRefund n d;
  State.GetState d a k := fst (GetState IgnoreAcctCheck a k d);
  State.SetState d a k v := SetState IgnoreAcctCheck a k v d;
  State.Suicide d a := snd (Suicide IgnoreAcctCheck a d);
  State.HasSuicided d a := fst (HasSuicided IgnoreAcctCheck a d);
  State.Exist d a := fst (Exist IgnoreAcctCheck a d);
  State.Empty d a := fst (Empty IgnoreAcctCheck a d);
  State.Snapshot d := Snapshot d;
  State.RevertToSnapshot d i := default d (RevertToSnapshot IgnoreAcctCheck i d);
  State.AddLog d l := AddLog l d;
  State.AddPreimage d h b := AddPreimage h b d
|}.

(** The transfer functions [NewEVMContext] hands to the machine. *)
Definition machine_CanTransfer (d : Db.StateDB) (addr : Address) (amount : Z) : bool :=
  fst (Ovm.CanTransfer IgnoreAcctCheck addr amount d).
Definition machine_Transfer (d : Db.StateDB) (sender recipient : Address) (amount : Z)
    : Db.StateDB :=
  Ovm.Transfer IgnoreAcctCheck sender recipient amount d.

Local Abbreviation wf := (wf IgnoreAcctCheck).
Local Abbreviation keeps := (keeps IgnoreAcctCheck).

(** [d'] came from [d] and kept its snapshots. *)
Definition db_later (d d' : Db.StateDB) : Prop := wf d -> keeps d d'.

#[local] Instance db_later_preorder : PreOrder db_later.
Proof.
  split.
  - intros d W. by apply snapshots_keep_refl.
  - intros d1 d2 d3 H1 H2 W. specialize (H1 W). eapply snapshots_keep_trans; [done|]. apply H2, H1.
Qed.

Lemma db_later_step d d' : (wf d -> step IgnoreAcctCheck d d') -> db_later d d'.
Proof. intros H W. apply keeps_step; auto. Qed.

Lemma db_later_exec d d' o :
  exec IgnoreAcctCheck o d = Some d' -> after_snapshot (nextRevisionId d - 1) o -> db_later d d'.
Proof.
  intros E Ho W. eapply (exec_keeps IgnoreAcctCheck size_of_code d d o); [|done..].
  by apply snapshots_keep_refl.
Qed.

Lemma db_later_Revert d d' :
  db_later (snd (Snapshot d)) d' ->
  db_later d (default d' (RevertToSnapshot IgnoreAcctCheck (fst (Snapshot d)) d')).
Proof.
  intros H W. pose proof (Snapshot_keeps IgnoreAcctCheck d W) as K1.
  specialize (H (kp_wf _ _ _ K1)).
  destruct (RevertToSnapshot IgnoreAcctCheck (fst (Snapshot d)) d') as [t|] eqn:E; cbn [default].
  - eapply keeps_revert; [by eapply snapshots_keep_trans| |exact E]. cbn. lia.
  - by eapply snapshots_keep_trans.
Qed.

Lemma db_revert_alike d d' :
  wf d -> db_later (snd (Snapshot d)) d' ->
  answers_alike IgnoreAcctCheck
    (default d' (RevertToSnapshot IgnoreAcctCheck (fst (Snapshot d)) d')) d.
Proof.
  intros W H. pose proof (Snapshot_keeps IgnoreAcctCheck d W) as K1.
  specialize (H (kp_wf _ _ _ K1)). destruct (revert_newest IgnoreAcctCheck d W) as (t & Et & At).
  destruct (kp_revert _ _ _ H (fst (Snapshot d)) t) as (t' & Et' & At'); [cbn; lia|done|].
  rewrite Et'. cbn. apply same_answers. etrans; [symmetry; apply At'|apply At].
Qed.

#[export] Instance db_journaled : Frame.Journaled machine_db.
Proof.
  refine (Frame.Build_Journaled machine_db wf db_later (answers_alike IgnoreAcctCheck) _
    _ _ _ _ _ _ _ _ _ _ _ _ db_later_Revert db_revert_alike).
  - by intros d.
  - intros d a. by apply (db_later_exec d _ (OpCreateAccount a)).
  - intros d a n. by apply (db_later_exec d _ (OpAddBalance a n)).
  - intros d a n. by apply (db_later_exec d _ (OpSetNonce a n)).
  - intros d a c. by apply (db_later_exec d _ (OpSetCode a (Some c))).
  - intros d n. by apply (db_later_exec d _ (OpAddRefund n)).
  - intros d d' n E. by apply (db_later_exec d _ (OpSubRefund n)).
  - intros d a k v. by apply (db_later_exec d _ (OpSetState a k v)).
  - intros d a. by apply (db_later_exec d _ (OpSuicide a)).
  - intros d l. by apply (db_later_exec d _ (OpAddLog l)).
  - intros d h b. by apply (db_later_exec d _ (OpAddPreimage h b)).
  - intros d. by apply (db_later_exec d _ OpSnapshot).
Defined.

Lemma db_later_Transfer d a b v : db_later d (machine_Transfer d a b v).
Proof.
  etrans; [by apply (db_later_exec d _ (OpSubBalance a v))|].
  by eapply (db_later_exec _ _ (OpAddBalance b v)).
Qed.

(** A handler of system accounts built from the operations of [vm.StateDB],
    reverting only to snapshots of its own. *)
Definition handler_ok
    (h : Db.StateDB -> Address -> Address -> Z -> bytes -> Z ->
         bytes * Z * option State.verr * Db.StateDB) : Prop :=
  forall d c a g i v, exists os,
    Forall (after_snapshot (nextRevisionId d - 1)) os /\
    run IgnoreAcctCheck os d = Some (snd (h d c a g i v)).

(** C36: a failing call leaves no trace.  On a well-formed database with
    [core.Transfer], a call, a call-code, a static call or a creation that
    fails, however much nested code ran before, ends in a database whose
    getters all answer as before the call. *)
Theorem failed_call_leaves_no_trace (cx : @State.Context_ machine_db) fuel caller addr input gas val
    (e : @State.EVM machine_db) a (e' : @State.EVM machine_db) :
  State.Transfer cx = machine_Transfer ->
  (forall h, State.HandleInnerMessage cx = Some h -> handler_ok h) ->
  wf (State.statedb e) ->
  Run.Call cx (Run.loop cx fuel) caller addr input gas val e = Instr.Answered a e' \/
  Run.CallCode cx (Run.loop cx fuel) caller addr input gas val e = Instr.Answered a e' \/
  Run.StaticCall cx (Run.loop cx fuel) caller addr input gas e = Instr.Answered a e' \/
  Run.Create cx (Run.loop cx fuel) caller input gas val e = Instr.Answered a e' ->
  Instr.a_err a <> None ->
  answers_alike IgnoreAcctCheck (State.statedb e') (State.statedb e).
Proof.
  intros Ht Hh W H He.
  assert (Frame.journaled_context cx) as JC.
  { split.
    - intros d s r v. rewrite Ht. apply db_later_Transfer.
    - intros h d c x g i v Eh Wd. destruct (Hh h Eh d c x g i v) as (os & Hos & E).
      eapply (run_keeps IgnoreAcctCheck size_of_code d d os); [by apply snapshots_keep_refl|done|done]. }
  exact (Frame.failed_call_restores cx JC fuel caller addr input gas val e a e' W H He).
Qed.

End StateEvm.
End StateEvm.


Import Db View Revert StateEvm.

Module StateDemo.

Definition encode (d : Account) : option bytes :=
  Some (acc_Nonce d :: default 0 (acc_Balance d) :: acc_Root d :: default [] (acc_CodeHash d)).
Definition decode (b : bytes) : result unit Account :=
  match b with
  | n :: v :: r :: h => Ok (mkAccount n (Some v) r (Some h))
  | _ => Err tt
  end.

#[export] Instance mem_backing : Backing := {|
  trie := gmap bytes bytes;
  terr := unit;
  TryGet t k := Ok (default [] (t !! k));
  TryUpdate t k v := (<[k := v]> t, None);
  TryDelete t k := (delete k t, None);
  trie_Hash t := Z.of_nat (size t);
  OpenTrie _ _ := Ok ∅;
  OpenStorageTrie _ _ _ := Ok ∅;
  open_empty _ _ := ∅;
  ContractCode _ _ _ := Err tt;
  ContractCodeSize _ _ _ := (0, Some tt);
  rlp_account := encode;
  rlp_decode_account := decode;
  rlp_bytes b := b;
  rlp_Split b := (b, None)
|}.

#[local] Existing Instance EvmDemo.demo_crypto.
#[local] Existing Instance EvmDemo.demo_crypto_ok.

Lemma mem_sizes p a h :
  fst (ContractCodeSize p a h) =
  match ContractCode p a h with Ok c => Z.of_nat (length c) | Err _ => 0 end.
Proof. done. Qed.

Definition alice : Address := Address.BytesToAddress [1; 2; 3].
Definition bob : Address := Address.BytesToAddress [4; 5; 6].

Definition empty_db : StateDB := new_StateDB [] (∅ : gmap bytes bytes).

Lemma empty_db_wf : wf false empty_db.
Proof. apply wf_new. intros a enc d h. cbn. rewrite lookup_empty. intros [= <-]. done. Qed.

(** Alice is given ten coins, a contract and a slot. *)
Definition setup : list op :=
  [OpAddBalance alice 10; OpSetState alice 1 7; OpSetCode alice (Some [0x60; 0])].

Definition start : StateDB := default empty_db (run false setup empty_db).

Definition succeeds (os : list op) (s : StateDB) : bool :=
  match run false os s with Some _ => true | None => false end.

Lemma run_succeeds os s d : succeeds os s = true -> run false os s = Some (default d (run false os s)).
Proof. unfold succeeds. by destruct (run false os s). Qed.

Lemma start_wf : wf false start.
Proof.
  refine (kp_wf _ _ _ (run_keeps false mem_sizes empty_db empty_db setup start
                         (snapshots_keep_refl false _ empty_db_wf) _ _)).
  - repeat (apply list.Forall_cons; split; [exact I|]). apply Forall_nil_2.
  - apply run_succeeds. vm_compute. reflexivity.
Qed.

(** Money moves, an account is created and destroyed, a nested snapshot is
    taken and reverted. *)
Definition work : list op :=
  [OpSubBalance alice 4; OpAddBalance bob 4; OpSetState alice 1 8; OpSnapshot; OpSuicide alice;
   OpCreateAccount alice; OpRevert 1; OpAddLog (State.mkLog alice [1] [2] 3); OpAddRefund 5;
   OpSetCode alice None; OpSuicide bob].

Definition after_work : StateDB := default start (run false work (snd (Snapshot start))).

Example work_changes :
  (fst (GetBalance false alice after_work), fst (GetState false alice 1 after_work),
   fst (HasSuicided false bob after_work), GetRefund after_work) = (6, 8, true, 5).
Proof. vm_compute. done. Qed.

Lemma RevertToSnapshot_exact_witness :
  exists t, RevertToSnapshot false (fst (Snapshot start)) after_work = Some t /\
    wf false t /\ answers_alike false t start /\ validRevisions t = validRevisions start.
Proof.
  apply (RevertToSnapshot_exact false mem_sizes start work after_work).
  - exact start_wf.
  - repeat (apply list.Forall_cons; split; [first [exact I|vm_compute; reflexivity]|]). apply Forall_nil_2.
  - apply run_succeeds. vm_compute. reflexivity.
Defined.

Lemma operations_sound_witness :
  wf false start /\
  (forall o, exec false o start = None <-> forbidden o start) /\
  exists t, undo_all false (journal start) start = Some t /\ same false t empty_db.
Proof.
  apply (operations_sound false mem_sizes empty_db setup start).
  - exact empty_db_wf.
  - reflexivity.
  - apply run_succeeds. vm_compute. reflexivity.
Defined.

Definition alice_object : stateObject :=
  default (newObject false alice zeroAccount) (stateObjects start !! alice).

Lemma revert_keeps_flow_and_log_counter_witness :
  (exists t o', RevertToSnapshot false (fst (Snapshot start))
                  (db_AddBalance false alice 3 (snd (Snapshot start))) = Some t /\
     stateObjects t !! alice = Some o' /\ Balance o' = Balance alice_object /\
     flow o' = flow alice_object + 3) /\
  (exists t, RevertToSnapshot false (fst (Snapshot start))
               (AddLog (State.mkLog alice [] [] 0) (snd (Snapshot start))) = Some t /\
     logs t = logs start /\ logSize t = logSize start + 1).
Proof.
  apply (revert_keeps_flow_and_log_counter false start alice alice_object 3
           (State.mkLog alice [] [] 0)).
  - exact start_wf.
  - vm_compute. reflexivity.
  - vm_compute. reflexivity.
  - done.
Defined.

(** ** A contract that stores and then fails *)

(** PUSH1 9, PUSH1 1, SSTORE, then an invalid opcode. *)
Definition failing_code : bytes := [0x60; 9; 0x60; 1; 0x55; 0xfe].

Definition with_contract : StateDB :=
  default start (run false [OpSetCode alice (Some failing_code)] start).

Lemma with_contract_wf : wf false with_contract.
Proof.
  refine (kp_wf _ _ _ (run_keeps false mem_sizes start start [OpSetCode alice (Some failing_code)]
                         with_contract (snapshots_keep_refl false _ start_wf) _ _)).
  - apply list.Forall_cons. split; [exact I|apply Forall_nil_2].
  - apply run_succeeds. vm_compute. reflexivity.
Qed.

Definition cx : @State.Context_ (machine_db false) :=
  @State.mkContext (machine_db false) (machine_CanTransfer false) (machine_Transfer false) (fun _ => 0) None None
    bob 1 bob 1000000 bob 1 2 0 false false false.

Definition evm : @State.EVM (machine_db false) :=
  @State.mkEVM (machine_db false) with_contract 0 0 0 None [true] false [] ∅.

Abbreviation outcome := (Run.Call cx (Run.loop cx 10) (Run.ByAccount bob) alice [] 50000 0 evm).

Definition the_answer (r : @Instr.response (machine_db false)) : Instr.answer :=
  match r with Instr.Answered a _ => a | _ => Run.answer_of [] 0 None end.
Definition the_evm (r : @Instr.response (machine_db false)) : @State.EVM (machine_db false) :=
  match r with Instr.Answered _ e => e | _ => evm end.
Definition is_answered (r : @Instr.response (machine_db false)) : bool :=
  match r with Instr.Answered _ _ => true | _ => false end.

Lemma outcome_the r : is_answered r = true -> r = Instr.Answered (the_answer r) (the_evm r).
Proof. by destruct r. Qed.

Lemma outcome_answered : outcome = Instr.Answered (the_answer outcome) (the_evm outcome).
Proof. apply outcome_the. vm_compute. reflexivity. Qed.

Example outcome_fails : Instr.a_err (the_answer outcome) = Some (State.errInvalidOpcode 0xfe).
Proof. vm_compute. reflexivity. Qed.

Lemma failed_call_leaves_no_trace_witness :
  answers_alike false (State.statedb (the_evm outcome)) with_contract.
Proof.
  apply (failed_call_leaves_no_trace false mem_sizes cx 10 (Run.ByAccount bob) alice [] 50000 0 evm
           (the_answer outcome) (the_evm outcome)).
  - reflexivity.
  - intros h H. discriminate H.
  - exact with_contract_wf.
  - left. exact outcome_answered.
  - rewrite outcome_fails. discriminate.
Defined.

End StateDemo.
