(* ===== verification/Bloom.v ===== *)
(** Log blooms ([src/core/types/bloom9.go]): a 2048-bit filter of the
    addresses and topics of logs. *)
From S2P Require Import Prelude Bech32 Address EvmWord EvmAnalysis EvmState EvmGas EvmInstr EvmArith StateDb.

Import Db.

Module Bloom.

Definition BloomByteLength : nat := 256.
(** The bytes of the filter, most significant first. *)
Definition Bloom : Type := bytes.

(** [SetBytes] panics on more bytes than the filter has. *)
Definition SetBytes (d : bytes) (b : Bloom) : option Bloom :=
  if (length b <? length d)%nat then None
  else Some (take (BloomByteLength - length d) b ++ d).
Definition BytesToBloom (b : bytes) : option Bloom := SetBytes b (replicate BloomByteLength 0).
Definition Big (b : Bloom) : Z := be_value b.

Section Bloom.
Context {K : State.Crypto}.

(** One of three bits: a big-endian pair of bytes of the hash. *)
Definition bloom_bit (b : bytes) (i : nat) : Z :=
  Z.shiftl 1 (Z.land (nth (i + 1) b 0 + Z.shiftl (nth i b 0) 8) 2047).
Definition bloom9 (b : bytes) : Z :=
  let h := State.Keccak256 b in
  foldl (fun r i => Z.lor r (bloom_bit h i)) 0 [0; 2; 4]%nat.

Definition Add (d : bytes) (b : Bloom) : option Bloom :=
  let bin := Z.lor (Big b) (bloom9 d) in
  SetBytes (Word.Bytes bin) b.

Definition log_bloom (bin : Z) (l : StoredLog) : Z :=
  foldl (fun bin t => Z.lor bin (bloom9 (hash_bytes t)))
    (Z.lor bin (bloom9 (Address.hash (State.log_Address (log_Log l)))))
    (State.Topics (log_Log l)).
Definition LogsBloom (ls : list StoredLog) : Z := foldl log_bloom 0 ls.

(** [CreateBloom] of receipts, given by their logs. *)
Definition CreateBloom (receipts : list (list StoredLog)) : option Bloom :=
  BytesToBloom (Word.Bytes (foldl (fun bin ls => Z.lor bin (LogsBloom ls)) 0 receipts)).

Definition BloomLookup (bin : Bloom) (topic : bytes) : bool :=
  Z.land (Big bin) (bloom9 topic) =? bloom9 topic.

(** ** The filter holds what was added *)

(** The bits of [y] are set in [x]. *)
Definition covers (x y : Z) : Prop := Z.land x y = y.

Lemma covers_refl x : covers x x.
Proof. apply Z.land_diag. Qed.

Lemma covers_lor_l x y z : covers x z -> covers (Z.lor x y) z.
Proof.
  unfold covers. intros H. apply Z.bits_inj. intros n. rewrite Z.land_spec, Z.lor_spec.
  assert (Z.testbit (Z.land x z) n = Z.testbit z n) as E by (by rewrite H).
  rewrite Z.land_spec in E. destruct (Z.testbit x n), (Z.testbit y n), (Z.testbit z n); done.
Qed.

Lemma covers_lor_r x y z : covers y z -> covers (Z.lor x y) z.
Proof. rewrite Z.lor_comm. apply covers_lor_l. Qed.

Lemma bloom_bit_bound h i : 0 <= bloom_bit h i < 2 ^ 2048.
Proof.
  unfold bloom_bit. set (k := Z.land _ 2047).
  assert (0 <= k < 2048) as Hk.
  { unfold k. change 2047 with (Z.ones 11). rewrite Z.land_ones by lia. by apply Z.mod_pos_bound. }
  rewrite Z.shiftl_1_l. split; [lia|]. apply Z.pow_lt_mono_r; lia.
Qed.

(** Joining bounded filters. *)
Lemma foldl_lor_bound {A} (f : Z -> A -> Z) l z :
  (forall z x, 0 <= z < 2 ^ 2048 -> 0 <= f z x < 2 ^ 2048) ->
  0 <= z < 2 ^ 2048 -> 0 <= foldl f z l < 2 ^ 2048.
Proof. intros Hf. revert z. induction l as [|x l IH]; intros z Hz; cbn [foldl]; auto. Qed.

Lemma bloom9_bound b : 0 <= bloom9 b < 2 ^ 2048.
Proof.
  unfold bloom9. apply foldl_lor_bound; [|lia]. intros z i Hz.
  apply lor_bound; [lia|done|apply bloom_bit_bound].
Qed.

Lemma log_bloom_bound z l : 0 <= z < 2 ^ 2048 -> 0 <= log_bloom z l < 2 ^ 2048.
Proof.
  intros Hz. unfold log_bloom. apply foldl_lor_bound.
  - intros y t Hy. apply lor_bound; [lia|done|apply bloom9_bound].
  - apply lor_bound; [lia|done|apply bloom9_bound].
Qed.

Lemma LogsBloom_bound ls : 0 <= LogsBloom ls < 2 ^ 2048.
Proof. apply foldl_lor_bound; [apply log_bloom_bound|lia]. Qed.

(** What a fold of joins covers: what any of its steps joins. *)
Lemma foldl_covers {A} (f : Z -> A -> Z) l z y :
  (forall z x, covers z y -> covers (f z x) y) ->
  (covers z y \/ exists x, In x l /\ forall z, covers (f z x) y) -> covers (foldl f z l) y.
Proof.
  intros Hm. revert z. induction l as [|x l IH]; intros z H; cbn [foldl].
  - by destruct H as [H|(x & [] & _)].
  - apply IH. destruct H as [H|(x' & [->|Hx] & H)]; [left; auto|left; apply H|right; exists x'; by split].
Qed.

Lemma log_bloom_keeps z l y : covers z y -> covers (log_bloom z l) y.
Proof.
  intros H. apply foldl_covers; [|left; by apply covers_lor_l]. intros z' t. apply covers_lor_l.
Qed.

Lemma Bytes_spec x n :
  0 <= x < 2 ^ (8 * Z.of_nat n) -> be_value (Word.Bytes x) = x /\ (length (Word.Bytes x) <= n)%nat.
Proof.
  intros Hx. unfold Word.Bytes. set (k := Z.to_nat ((Word.BitLen x + 7) / 8)).
  pose proof (Arith.BitLen_nonneg x) as Hb.
  assert (Word.BitLen x <= 8 * Z.of_nat k) as Hk.
  { unfold k. rewrite Z2Nat.id by (apply Z.div_pos; lia).
    pose proof (Z.mul_succ_div_gt (Word.BitLen x + 7) 8). lia. }
  split.
  - rewrite be_value_be_bytes. apply Z.mod_small. split; [lia|].
    change 256 with (2 ^ 8). rewrite <- Z.pow_mul_r by lia.
    pose proof (Arith.BitLen_bound x ltac:(lia)). pose proof (Z.pow_le_mono_r 2 (Word.BitLen x) (8 * Z.of_nat k)). lia.
  - rewrite length_be_bytes. assert (Word.BitLen x <= 8 * Z.of_nat n).
    { unfold Word.BitLen. destruct (Z.eqb_spec x 0); [lia|].
      assert (Z.log2 x < 8 * Z.of_nat n); [|lia]. apply Z.log2_lt_pow2; lia. }
    unfold k. apply Nat2Z.inj_le. rewrite Z2Nat.id by (apply Z.div_pos; lia).
    apply Z.lt_succ_r, Z.div_lt_upper_bound; lia.
Qed.

Lemma be_value_zeros n l : be_value (replicate n 0 ++ l) = be_value l.
Proof.
  unfold be_value. rewrite foldl_app. f_equal. induction n as [|n IH]; [done|]. exact IH.
Qed.

Lemma BytesToBloom_spec x :
  0 <= x < 2 ^ 2048 -> exists b, BytesToBloom (Word.Bytes x) = Some b /\ Big b = x /\ length b = 256%nat.
Proof.
  intros Hx. destruct (Bytes_spec x 256 Hx) as [Hv Hl]. unfold BytesToBloom, SetBytes, BloomByteLength.
  rewrite length_replicate. assert ((256 <? length (Word.Bytes x))%nat = false) as -> by (by apply Nat.ltb_ge).
  eexists. split; [done|]. rewrite take_replicate. split.
  - unfold Big. by rewrite be_value_zeros.
  - rewrite length_app, length_replicate. lia.
Qed.

Lemma CreateBloom_spec rs :
  exists b, CreateBloom rs = Some b /\ length b = 256%nat /\
    Big b = foldl (fun bin ls => Z.lor bin (LogsBloom ls)) 0 rs.
Proof.
  destruct (BytesToBloom_spec (foldl (fun bin ls => Z.lor bin (LogsBloom ls)) 0 rs)) as (b & E & V & L).
  { apply foldl_lor_bound; [|lia]. intros z ls Hz. apply lor_bound; [lia|done|apply LogsBloom_bound]. }
  by exists b.
Qed.

(** a bloom has no false negatives.  The filter of a list of receipts is
    always built, has its fixed size, and answers yes for the address and every
    topic of every log. *)
Theorem CreateBloom_complete rs ls l :
  In ls rs -> In l ls ->
  exists b, CreateBloom rs = Some b /\ length b = BloomByteLength /\
    BloomLookup b (Address.hash (State.log_Address (log_Log l))) = true /\
    forall t, In t (State.Topics (log_Log l)) -> BloomLookup b (hash_bytes t) = true.
Proof.
  intros Hls Hl. destruct (CreateBloom_spec rs) as (b & E & L & V). exists b. split_and!; [done..| |].
  all: assert (forall y, (forall z, covers (log_bloom z l) y) -> (Z.land (Big b) y =? y) = true) as H.
  all: try (intros y Hy; apply Z.eqb_eq; rewrite V; apply foldl_covers;
    [intros z ls'; apply covers_lor_l|right; exists ls; split; [done|]; intros z; apply covers_lor_r;
     apply foldl_covers; [intros z' l'; apply log_bloom_keeps|right; by exists l]]).
  - apply H. intros z. apply foldl_covers; [intros z' t; apply covers_lor_l|].
    left. apply covers_lor_r, covers_refl.
  - intros t Ht. apply H. intros z. apply foldl_covers; [intros z' t'; apply covers_lor_l|].
    right. exists t. split; [done|]. intros z'. apply covers_lor_r, covers_refl.
Qed.

End Bloom.

End Bloom.
