(* ===== verification/TxTransition.v ===== *)
(** One transaction on one chain ([src/core/state_transition.go],
    [gaspool.go]): buying gas, paying for the transaction's own size, running
    the machine, paying back what is left.

    A [*StateTransition] is owned by its caller, so a method is a computation
    of [M] over its fields; the gas pool and the account state, which outlive
    it, are two of them.  An error keeps the changes made so far, as in the
    source.  The machine is the record [CallContext]. *)
From S2P Require Import Prelude Bech32 Address EvmWord EvmAnalysis EvmState StateDb Ovm.

Import Db Ovm.

Module Transition.

(** ** Transactions ([core/types/transaction.go], [unit.go]) *)

Inductive TxAction :=
| ActionTransferPayment
| ActionTransferReceipt
| ActionContractFreeze
| ActionContractDeal
| ActionPowTxContractDeal
| ActionSCIdleContractDeal
| ActionContractRefund
| ActionContractReceipt.

#[global] Instance TxAction_eq_dec : EqDecision TxAction.
Proof. solve_decision. Defined.

Definition TxAction_to_Z (a : TxAction) : Z :=
  match a with
  | ActionTransferPayment => 0
  | ActionTransferReceipt => 1
  | ActionContractFreeze => 2
  | ActionContractDeal => 3
  | ActionPowTxContractDeal => 4
  | ActionSCIdleContractDeal => 5
  | ActionContractRefund => 6
  | ActionContractReceipt => 7
  end.

(** [txdata]. *)
Record Transaction := mkTransaction {
  tx_Time : Z;
  tx_Price : Z;
  tx_GasLimit : Z;
  tx_Sender : Address;
  tx_Recipient : Address;
  tx_Amount : Z;
  tx_Payload : bytes;
  tx_Seed : Z;
  tx_Timeout : Z;
  tx_Sign : bytes
}.

(** Encodings of package [rlp] and the recovery of a signer from a signature
    ([signer.PublicKey], [crypto.Pubkey2Address]). *)
Class TxCodec := {
  rlp_sign_struct : Transaction -> bytes;
  rlp_action_key : bytes -> Hash -> Z -> bytes;
  signer : Transaction -> option Address
}.

(** [Message]. *)
Record Message := mkMessage {
  m_tx : Transaction;
  m_gasLimit : Z;
  m_from : Address;
  m_to : Address
}.

Inductive error :=
| ErrVM (e : State.verr)
| ErrGasPriceOverflow
| ErrInsufficientBalanceForGas (balance paygas : Z)
| ErrGasLimitReached
| ErrRepeatTransaction
| ErrInvalidSender
| ErrNilTransaction
| ErrMissingTransaction
| ErrChainStopped
| ErrCannotHandleAction
| ErrPaymentToContract
| ErrNotContract
| ErrInvalidIdle
| ErrEmptySource
| ErrMissingReceipt
| ErrPreviousFailed
| ErrMissingGenesis
| ErrInvalidReceiver
| ErrToYourself
| ErrFreezeTarget
| ErrEmptyCoinflows
| ErrNoCoinflow
| ErrRollbackTx
| ErrInvalidTx.

#[global] Instance error_eq_dec : EqDecision error.
Proof. solve_decision. Defined.

(** ** Computations over a state [S]

    An error keeps the state it happened in; [Panicked] is a Go panic. *)
Inductive outcome (S A : Type) :=
| Done (a : A) (s : S)
| Failed (e : error) (s : S)
| Panicked.
Arguments Done {S A} a s.
Arguments Failed {S A} e s.
Arguments Panicked {S A}.

Definition M (S A : Type) : Type := S -> outcome S A.

Section Monad.
Context {S : Type}.

Definition ret {A} (a : A) : M S A := fun s => Done a s.
Definition fail {A} (e : error) : M S A := fun s => Failed e s.
Definition panic {A} : M S A := fun _ => Panicked.
Definition bind {A A'} (m : M S A) (k : A -> M S A') : M S A' :=
  fun s => match m s with
           | Done a s => k a s
           | Failed e s => Failed e s
           | Panicked => Panicked
           end.
Definition get {A} (f : S -> A) : M S A := fun s => Done (f s) s.
Definition modify (f : S -> S) : M S unit := fun s => Done tt (f s).
(** An error value ends the computation. *)
Definition try {A} (r : result error A) : M S A :=
  match r with Ok a => ret a | Err e => fail e end.
Definition guard (b : bool) (e : error) : M S unit := if b then ret tt else fail e.

End Monad.

Notation "'let!' x ':=' m 'in' k" := (bind m (fun x => k))
  (at level 10, x pattern, m at level 100, k at level 200).
Notation "m ';;;' k" := (bind m (fun _ => k)) (at level 60, right associativity).

Section Transition.
Context {P : Params} {B : Backing} {K : State.Crypto} {C : TxCodec} (IgnoreAcctCheck : bool).

Definition SafeHash256_tx (t : Transaction) : Hash := Keccak256Hash (rlp_sign_struct t).

(** [tx.Hash], recomputed where the source keeps it. *)
Definition tx_Hash (t : Transaction) : Hash := SafeHash256_tx t.

(** [Sender]: the recovered signer, who is no contract and the one named in
    the transaction. *)
Definition Sender (t : Transaction) : result error Address :=
  match signer t with
  | None => Err ErrInvalidSender
  | Some addr =>
      if Address.IsContract addr then Err ErrInvalidSender
      else if negb (bool_decide (tx_Sender t = addr)) then Err ErrInvalidSender
      else Ok addr
  end.

Definition AsMessage (t : Transaction) (gasLimit : Z) : result error Message :=
  (let? addr := Sender t in Ok (mkMessage t gasLimit addr (tx_Recipient t)))%result.

Definition ID (m : Message) : Hash := tx_Hash (m_tx m).
Definition m_GasPrice (m : Message) : Z := tx_Price (m_tx m).
Definition m_Value (m : Message) : Z := tx_Amount (m_tx m).
Definition m_Data (m : Message) : bytes := tx_Payload (m_tx m).
Definition GasSub (useGas : Z) (m : Message) : Message :=
  mkMessage (m_tx m) (Word.ForceSafeSub (m_gasLimit m) useGas) (m_from m) (m_to m).

Definition IsFreeTx (t : Transaction) : bool :=
  FreeGas (tx_Recipient t) 1 (take 4 (tx_Payload t ++ replicate 4 0)) >? 0.

(** ** GasPool *)

Definition AddGas (amount gp : Z) : Z := gp + amount.
Definition SubGas (amount gp : Z) : result error Z :=
  if Word.Uint64 gp <? amount then Err ErrGasLimitReached else Ok (gp - amount).

(** ** The machine *)

(** What a call or a creation answers: the output, the gas left, the error and
    the account state; [None] is a panic. *)
Definition vm_answer : Type := option (bytes * Z * option State.verr * StateDB).

Record CallContext := mkCallContext {
  ctx_UnitMC : Address;
  ctx_UnitNumber : Z;
  ctx_FreeGas : Address -> Z -> bytes -> Z;
  vm_EnableSimulation : bool;
  vm_Call : Address -> Address -> bytes -> Z -> Z -> StateDB -> vm_answer;
  vm_Create : Address -> bytes -> Z -> Z -> StateDB -> vm_answer
}.

Record StateTransition := mkST {
  gp : Z;
  msg : Message;
  action : TxAction;
  gas : Z;
  gasPrice : Z;
  initialGas : Z;
  freeGas : Z;
  value : Z;
  data : bytes;
  state : StateDB;
  vm : option CallContext;
  mc : Address
}.

Definition set_gp v s := mkST v (msg s) (action s) (gas s) (gasPrice s) (initialGas s) (freeGas s)
  (value s) (data s) (state s) (vm s) (mc s).
Definition set_gas v s := mkST (gp s) (msg s) (action s) v (gasPrice s) (initialGas s) (freeGas s)
  (value s) (data s) (state s) (vm s) (mc s).
Definition set_initialGas v s := mkST (gp s) (msg s) (action s) (gas s) (gasPrice s) v (freeGas s)
  (value s) (data s) (state s) (vm s) (mc s).
Definition set_value v s := mkST (gp s) (msg s) (action s) (gas s) (gasPrice s) (initialGas s)
  (freeGas s) v (data s) (state s) (vm s) (mc s).
Definition set_state v s := mkST (gp s) (msg s) (action s) (gas s) (gasPrice s) (initialGas s)
  (freeGas s) (value s) (data s) v (vm s) (mc s).

(** *** Computations *)

Local Abbreviation M := (M StateTransition).

Definition on_state {A} (f : StateDB -> A * StateDB) : M A :=
  fun s => let '(a, d) := f (state s) in Done a (set_state d s).
Definition do_state (f : StateDB -> StateDB) : M unit := on_state (fun d => (tt, f d)).

(** ** Gas *)

Definition TxGas : Z := 21000.
Definition TxGasContractCreation : Z := 53000.
Definition TxDataZeroGas : Z := 4.
Definition TxDataNonZeroGas : Z := 68.

Definition getGasByData (data : bytes) : Z :=
  if (0 <? length data)%nat then
    let nz := Z.of_nat (length (List.filter (fun b => negb (b =? 0)) data)) in
    u64 (u64 (nz * TxDataNonZeroGas) + u64 (u64 (Z.of_nat (length data) - nz) * TxDataZeroGas))
  else 0.

Definition IntrinsicGas (data : bytes) (contractCreation : bool) : Z :=
  let igas := if contractCreation then TxGasContractCreation else TxGas in
  u64 (igas + getGasByData data).

Definition NewStateTransition (v : option CallContext) (d : StateDB) (a : TxAction) (m : Message)
    (pool : Z) (chain : Address) : StateTransition :=
  let free :=
    match v with
    | Some v =>
        if bool_decide (ctx_UnitMC v = SCAccount)
        then ctx_FreeGas v (m_to m) (Word.Uint64 (ctx_UnitNumber v)) (m_Data m) else 0
    | None => 0
    end in
  mkST pool m a 0 (m_GasPrice m) 0 free (m_Value m) (m_Data m) d v chain.

(** [from] and [to] create the account they name. *)
Definition ensure (a : Address) : M Address :=
  let! e := on_state (Exist IgnoreAcctCheck a) in
  (if e then ret tt else do_state (CreateAccount IgnoreAcctCheck a)) ;;; ret a.
Definition from : M Address := let! m := get msg in ensure (m_from m).
Definition to : M Address := let! m := get msg in ensure (m_to m).

Definition useGas (amount : Z) : M (option State.verr) :=
  let! g := get gas in
  if g <? amount then ret (Some State.ErrOutOfGas)
  else modify (set_gas (g - amount)) ;;; ret None.

Definition buyGas : M unit :=
  let! st := get (fun s => s) in
  let mgas := m_gasLimit (msg st) in
  let '(mgval, overflow) := Word.SafeMul mgas (gasPrice st) in
  if overflow then fail ErrGasPriceOverflow
  else
    let '(mgval, mgas) :=
      if freeGas st >? 0 then
        let gas := u64 (freeGas st * gasPrice st) in
        (if mgval <? gas then 0 else u64 (mgval - gas), u64 (mgas + freeGas st))
      else (mgval, mgas) in
    let! sender := from in
    let! balance := on_state (GetBalance IgnoreAcctCheck sender) in
    if balance <? mgval then fail (ErrInsufficientBalanceForGas balance mgval)
    else
      match SubGas mgas (gp st) with
      | Err e => fail e
      | Ok pool =>
          modify (set_gp pool) ;;;
          let! g := get gas in
          modify (set_gas (u64 (g + mgas))) ;;;
          modify (set_initialGas mgas) ;;;
          do_state (db_SubBalance IgnoreAcctCheck sender mgval)
      end.

Definition preCheck : M unit := buyGas.

(** [gasUsed]. *)
Definition gasUsed (s : StateTransition) : Z := u64 (initialGas s - gas s).

Definition charge_intrinsic (contractCreation : bool) : M unit :=
  let! d := get data in
  let! err := useGas (IntrinsicGas d contractCreation) in
  match err with None => ret tt | Some e => fail (ErrVM e) end.

Definition preApply : M unit :=
  preCheck ;;;
  let! a := get action in
  let! m := get msg in
  match a with
  | ActionSCIdleContractDeal => charge_intrinsic false
  | ActionContractFreeze | ActionTransferPayment =>
      charge_intrinsic (IsCallCreateContractTx (m_to m) (m_Data m))
  | _ => ret tt
  end.

(** [PreApplayMessage]; with [justCheck] the account state, but nothing else,
    is taken back when it returns. *)
Definition PreApplayMessage (justCheck : bool) : M unit :=
  if justCheck then
    let! snapshot := on_state Snapshot in
    fun s =>
      let back s := match RevertToSnapshot IgnoreAcctCheck snapshot (state s) with
                    | None => None
                    | Some d => Some (set_state d s)
                    end in
      match preApply s with
      | Done a s => match back s with None => Panicked | Some s => Done a s end
      | Failed e s => match back s with None => Panicked | Some s => Failed e s end
      | Panicked => Panicked
      end
  else preApply.

(** ** The mark of an executed action *)

Definition txIDStateValue : Hash := BytesToHash [1].
Definition txIDStatePrefix : bytes := str "ts_".
Definition GetTxActionStoreKey (txID : Hash) (a : TxAction) : Hash :=
  Keccak256Hash (rlp_action_key txIDStatePrefix txID (TxAction_to_Z a)).

Definition CheckTxActionInChain (chain : Address) (txID : Hash) (a : TxAction) (d : StateDB)
    : option error * StateDB :=
  let '(v, d) := GetState IgnoreAcctCheck chain (GetTxActionStoreKey txID a) d in
  (if negb (v =? 0) then Some ErrRepeatTransaction else None, d).

Definition SetTxActionStateInChain (chain : Address) (txID : Hash) (a : TxAction) (d : StateDB)
    : StateDB :=
  SetState IgnoreAcctCheck chain (GetTxActionStoreKey txID a) txIDStateValue d.

(** ** Running the machine *)

(** [st.vm]: a nil machine panics. *)
Definition need_vm : M CallContext :=
  let! v := get vm in match v with Some v => ret v | None => panic end.

Definition answered (a : StateDB -> vm_answer) : M (bytes * option State.verr) :=
  fun s => match a (state s) with
           | None => Panicked
           | Some (out, left_gas, err, d) =>
               Done (out, err) (set_gas left_gas (set_state d s))
           end.

(** The three ways to execute a message; the second component is [vmerr]. *)
Definition execute (contractCreation : bool) (sender : Address) : M (bytes * option State.verr) :=
  let! st := get (fun s => s) in
  if contractCreation then
    let! v := need_vm in
    if bool_decide (ctx_UnitMC v = SCAccount) then
      modify (set_value 0) ;;;
      let! t := to in
      let! g := get gas in
      answered (vm_Call v sender t (data st) g 0)
    else if (length (data st) <? 4)%nat then panic
    else answered (vm_Create v sender (drop 4 (data st)) (gas st) (value st))
  else if Address.IsContract (m_to (msg st)) then
    let! v := need_vm in
    let! t := to in
    let! g := get gas in
    answered (vm_Call v sender t (data st) g (value st))
  else
    let! can := on_state (CanTransfer IgnoreAcctCheck sender (m_Value (msg st))) in
    if negb can then fail (ErrVM State.ErrInsufficientBalance)
    else
      let! t := to in
      do_state (Transfer IgnoreAcctCheck sender t (value st)) ;;; ret ([], None).

(** The chain's counter moves on, except at the first unit of a new contract's
    chain. *)
Definition count_nonce (contractCreation : bool) : M unit :=
  let! chain := get mc in
  let! skip :=
    if contractCreation && negb (bool_decide (chain = SCAccount)) then
      let! v := need_vm in ret (Word.Uint64 (ctx_UnitNumber v) =? 1)
    else ret false in
  if skip then ret tt
  else
    let! n := on_state (GetNonce IgnoreAcctCheck chain) in
    do_state (db_SetNonce IgnoreAcctCheck chain (u64 (n + 1))).

Definition simulating (v : option CallContext) : bool :=
  match v with Some v => vm_EnableSimulation v | None => false end.

Definition calcRefundValue : M Z :=
  fun s =>
    let s :=
      match vm s with
      | Some v =>
          if negb (vm_EnableSimulation v) then
            let uhalf := gasUsed s / 2 in
            let uhalf := if uhalf >? GetRefund (state s) then GetRefund (state s) else uhalf in
            set_gas (u64 (gas s + uhalf)) s
          else s
      | None => s
      end in
    let userPayGas := u64 (initialGas s - freeGas s) in
    let used := gasUsed s in
    Done (if used <=? freeGas s then userPayGas * gasPrice s
          else u64 (userPayGas - u64 (used - freeGas s)) * gasPrice s) s.

Definition refundGas : M unit :=
  let! sender := from in
  let! v := calcRefundValue in
  (if v >? 0 then do_state (db_AddBalance IgnoreAcctCheck sender v) else ret tt) ;;;
  let! g := get gas in
  let! pool := get gp in
  modify (set_gp (AddGas g pool)).

(** What [TransitionDb] returns beside the error: the output, the required
    and the used gas, and whether the machine failed. *)
Record result_ := mkResult {
  r_ret : bytes; requiredGas : Z; usedGas : Z; r_failed : bool
}.

(** The parts of [TransitionDb]: up to the execution, ... *)
Definition begin (contractCreation : bool) : M Address :=
  PreApplayMessage false ;;;
  let! sender := from in
  let! st := get (fun s => s) in
  do_state (SetTxActionStateInChain (mc st) (ID (msg st)) (action st)) ;;;
  count_nonce contractCreation ;;;
  ret sender.

(** ... what the output costs, ... *)
Definition charge_output (out : bytes) (vmerr : option State.verr) : M (option State.verr) :=
  match vmerr with
  | None => if (0 <? length out)%nat then useGas (getGasByData out) else ret None
  | Some e => ret (Some e)
  end.

(** ... and what follows the execution. *)
Definition conclude (out : bytes) (vmerr : option State.verr) : M result_ :=
  let! v := get vm in
  match vmerr with
  | Some e =>
      (* the log line reads the machine's context *)
      need_vm ;;;
      (if simulating v then fail (ErrVM e)
       else if bool_decide (e = State.ErrInsufficientBalance) then fail (ErrVM e)
       else ret tt)
  | None => ret tt
  end ;;;
  let! required := get gasUsed in
  (if negb (simulating v) then refundGas else ret tt) ;;;
  let! used := get gasUsed in
  ret (mkResult out required used (negb (bool_decide (vmerr = None)))).

Definition TransitionDb : M result_ :=
  let! m := get msg in
  let contractCreation := IsCallCreateContractTx (m_to m) (m_Data m) in
  let! sender := begin contractCreation in
  let! (out, vmerr) := execute contractCreation sender in
  let! vmerr := charge_output out vmerr in
  conclude out vmerr.

(** [ApplyMessage]; beside the result, the gas pool and the account state, which
    the caller shares, on success and on failure. *)
Definition ApplyMessage (v : option CallContext) (d : StateDB) (a : TxAction) (m : Message)
    (pool : Z) (chain : Address) : outcome (Z * StateDB) (bytes * Z * bool) :=
  match TransitionDb (NewStateTransition v d a m pool chain) with
  | Done r s => Done (r_ret r, usedGas r, r_failed r) (gp s, state s)
  | Failed e s => Failed e (gp s, state s)
  | Panicked => Panicked
  end.

End Transition.

End Transition.
