(* ===== verification/TxProcess.v ===== *)
(** The transactions of a unit ([src/core/state_processor.go]).

    A transfer or a contract call is executed in steps on several chains: a
    transfer is paid on the sender's chain and received on the receiver's; a
    call is frozen on the sender's chain, dealt with on the contract's, and
    what is left is refunded on the sender's and received on the chains the
    contract paid.  A step reads the receipt of the step before it.

    A handler is a computation over the gas pool, the gas total and the account
    state it shares with its caller.  What it asks of the chain database is the
    record [Chain]. *)
From S2P Require Import Prelude Bech32 Address EvmWord EvmAnalysis EvmState StateDb Ovm Bloom TxTransition.

Import Db Ovm Transition.

Module Process.

Record UnitID := mkUnitID { ChainID : Address; Height : Z; unit_Hash : Hash }.
Definition UnitID_IsEmpty (u : UnitID) : bool :=
  (Height u =? 0) || Address.Empty (ChainID u) || (unit_Hash u =? 0).
(** [Equal]; its last test compares [id.Hash] with itself. *)
Definition UnitID_Equal (u v : UnitID) : bool :=
  if negb (Height u =? Height v) then false
  else if negb (Address.Equal (ChainID u) (ChainID v)) then false
  else if negb (unit_Hash u =? unit_Hash u) then false
  else true.
Definition noUnit : UnitID := mkUnitID Address.zeroAddress 0 0.

Record TransactionExec := mkExec {
  Action : TxAction;
  PreStep : UnitID;
  TxHash : Hash;
  Tx : option Transaction
}.

Record Header := mkHeader {
  MC : Address;
  Number : Z;
  ParentHash : Hash;
  SCHash : Hash;
  SCNumber : Z;
  Proposer : Address;
  Timestamp : Z
}.

Record Receipt := mkReceipt {
  Failed_ : bool;
  CumulativeGasUsed : Z;
  rc_Bloom : Bloom.Bloom;
  rc_Logs : list StoredLog;
  rc_Action : TxAction;
  rc_PreStep : UnitID;
  rc_TxHash : Hash;
  GasRemaining : Z;
  GasUsed : Z;
  Coinflows : list (Address * Z);
  Output : bytes
}.
Definition set_Coinflows v r := mkReceipt (Failed_ r) (CumulativeGasUsed r) (rc_Bloom r) (rc_Logs r)
  (rc_Action r) (rc_PreStep r) (rc_TxHash r) (GasRemaining r) (GasUsed r) v (Output r).

(** [vm.Context], the fields [NewEVMContext] takes from the message and the
    header. *)
Record EVMContext := mkEVMContext {
  cx_Origin : Address;
  cx_UnitMC : Address;
  cx_UnitParent : Hash;
  cx_UnitSCHash : Hash;
  cx_SCNumber : Z;
  cx_UnitNumber : Z;
  cx_Time : Z;
  cx_GasLimit : Z;
  cx_GasPrice : Z;
  cx_Coinbase : Address
}.

Section Process.
Context {P : Params} {B : Backing} {K : State.Crypto} {C : TxCodec} (IgnoreAcctCheck : bool).

Definition NewEVMContext (m : Message) (h : Header) : EVMContext :=
  mkEVMContext (m_from m) (MC h) (ParentHash h) (SCHash h) (SCNumber h) (Number h) (Timestamp h)
    (m_gasLimit m) (m_GasPrice m) (Proposer h).

(** The chain database ([DagChain]), the virtual machines registered under the
    fixed magic number ([vm.New]), and the addresses stored in a trie. *)
Record Chain := mkChain {
  GetTransaction : Hash -> option Transaction;
  GetTxReceiptAtUnit : Hash -> Hash -> option Receipt;
  GetStoppedChainFlag : Address -> Z;
  GenesisState : option StateDB;
  GenesisHash : Hash;
  vm_New : EVMContext -> result error CallContext;
  trie_Keys : trie -> list bytes
}.

(** What the handlers share: [*GasPool], [toalUsedGas] and [*StateDB]. *)
Record Work := mkWork { w_gp : Z; w_total : Z; w_db : StateDB }.
Definition set_w_gp v w := mkWork v (w_total w) (w_db w).
Definition set_w_total v w := mkWork (w_gp w) v (w_db w).
Definition set_w_db v w := mkWork (w_gp w) (w_total w) v.

Local Abbreviation M := (M Work).

Definition on_db {A} (f : StateDB -> A * StateDB) : M A :=
  fun w => let '(a, d) := f (w_db w) in Done a (set_w_db d w).
Definition do_db (f : StateDB -> StateDB) : M unit := on_db (fun d => (tt, f d)).

Definition check_action (chain : Address) (txID : Hash) (a : TxAction) : M unit :=
  let! err := on_db (CheckTxActionInChain IgnoreAcctCheck chain txID a) in
  match err with None => ret tt | Some e => fail e end.
Definition mark_action (chain : Address) (txID : Hash) (a : TxAction) : M unit :=
  do_db (SetTxActionStateInChain IgnoreAcctCheck chain txID a).
Definition next_nonce (a : Address) : M unit :=
  let! n := on_db (GetNonce IgnoreAcctCheck a) in
  do_db (db_SetNonce IgnoreAcctCheck a (u64 (n + 1))).

(** [ApplyMessage] on the shared pool and state. *)
Definition apply_message (v : option CallContext) (a : TxAction) (m : Message) (chain : Address)
    : M (bytes * Z * bool) :=
  fun w =>
    match ApplyMessage IgnoreAcctCheck v (w_db w) a m (w_gp w) chain with
    | Done r (pool, d) => Done r (mkWork pool (w_total w) d)
    | Failed e (pool, d) => Failed e (mkWork pool (w_total w) d)
    | Panicked => Panicked
    end.

(** ** Receipts *)

(** On the first unit of a chain the genesis accounts of other chains go. *)
Definition prune_other (chain addr : Address) (d : StateDB) : StateDB :=
  let '(d, o) := GetOrNewStateObject IgnoreAcctCheck addr d in
  if negb (OnChain o chain) then snd (Suicide IgnoreAcctCheck addr d) else d.
Definition prune_others (c : Chain) (chain : Address) (d : StateDB) : StateDB :=
  foldl (fun d k => prune_other chain (Address.BytesToAddress k) d) d (trie_Keys c (db_trie d)).

(** Whether a change of balance is reported. *)
Definition reported (keepFlows : option Address) (v : BalanceJourna) : bool :=
  if Diff v <=? 0 then
    match keepFlows with None => false | Some a => bool_decide (bj_Address v = a) end
  else true.

Fixpoint collect_flows (keepFlows : option Address) (flows : list BalanceJourna) (d : StateDB)
    : list (Address * Z) * StateDB :=
  match flows with
  | [] => ([], d)
  | v :: flows =>
      if negb (reported keepFlows v) then collect_flows keepFlows flows d
      else
        let '(on_chain, d) :=
          if Address.IsContract (bj_Address v) then
            let '(h, d) := GetCodeHash IgnoreAcctCheck (bj_Address v) d in (negb (h =? 0), d)
          else (false, d) in
        let '(rest, d) := collect_flows keepFlows flows d in
        (if on_chain then rest else (bj_Address v, Diff v) :: rest, d)
  end.

Definition createReceipt (c : Chain) (preStep : UnitID) (h : Header) (txHash : Hash)
    (action : TxAction) (output : bytes) (failed : bool) (remaininGas usedGas : Z)
    (keepFlows : option Address) : M Receipt :=
  let! flows := on_db GetBalanceChanged in
  let! coinflows :=
    if negb failed then
      (if Number h =? 1 then do_db (prune_others c (MC h)) else ret tt) ;;;
      on_db (collect_flows keepFlows flows)
    else ret [] in
  modify (fun w => set_w_total (w_total w + usedGas) w) ;;;
  let! total := get w_total in
  let! d := get w_db in
  match Bloom.CreateBloom [GetLogs txHash d] with
  | None => panic
  | Some bloom =>
      ret (mkReceipt failed total bloom (GetLogs txHash d) action preStep txHash
             (Word.ForceSafeSub remaininGas usedGas) usedGas coinflows
             (if negb failed then output else []))
  end.

(** ** The steps *)

Definition tx_message (msg : option Message) (t : Transaction) (gasLimit : Z) : M Message :=
  match msg with Some m => ret m | None => try (AsMessage t gasLimit) end.

Definition ApplyPayment (c : Chain) (h : Header) (t : Transaction) (msg : option Message) : M Receipt :=
  let! m := tx_message msg t (tx_GasLimit t) in
  guard (negb (Address.IsContract (m_to m))) ErrPaymentToContract ;;;
  let action := ActionTransferPayment in
  check_action (MC h) (ID m) action ;;;
  let! (output, gas, failed) := apply_message None action m (MC h) in
  createReceipt c noUnit h (tx_Hash t) action output failed (tx_GasLimit t) gas None.

Definition ApplyFreeze (c : Chain) (h : Header) (t : Transaction) (msg : option Message) : M Receipt :=
  let! m := tx_message msg t (tx_GasLimit t) in
  guard (IsCallCreateContractTx (m_to m) (m_Data m) || Address.IsContract (m_to m)) ErrFreezeTarget ;;;
  let action := ActionContractFreeze in
  check_action (MC h) (ID m) action ;;;
  mark_action (MC h) (ID m) action ;;;
  let! vmenv := try (vm_New c (NewEVMContext m h)) in
  let! st :=
    fun w =>
      let st := NewStateTransition (Some vmenv) (w_db w) action m (w_gp w) (MC h) in
      match PreApplayMessage IgnoreAcctCheck true st with
      | Done _ st => Done st (mkWork (gp st) (w_total w) (state st))
      | Failed e st => Failed e (mkWork (gp st) (w_total w) (state st))
      | Panicked => Panicked
      end in
  let sender := m_from m in
  let doUsedGas := gasUsed st in
  let freeze := m_gasLimit m * m_GasPrice m + m_Value m in
  let! can := on_db (CanTransfer IgnoreAcctCheck sender freeze) in
  guard can (ErrVM State.ErrInsufficientBalance) ;;;
  do_db (db_SubBalance IgnoreAcctCheck sender freeze) ;;;
  next_nonce sender ;;;
  createReceipt c noUnit h (tx_Hash t) action [] false (tx_GasLimit t) doUsedGas None.

(** *** Executing a contract *)

(** The last loop of [applyToContract]: what the contract paid to the sender is
    the change of its balance, plus what the call cost it. *)
Fixpoint adjust_flows (sender : Address) (cost : Z) (flows : list (Address * Z))
    : list (Address * Z) :=
  match flows with
  | [] => []
  | (a, v) :: flows =>
      if bool_decide (a = sender) then
        if v + cost =? 0 then flows else (a, v + cost) :: flows
      else (a, v) :: adjust_flows sender cost flows
  end.

Definition run_contract (c : Chain) (h : Header) (t : Transaction) (m : Message)
    (gasRemaining : Z) (source : UnitID) (refund : Z) : M Receipt :=
  let action := ActionContractDeal in
  let! vmenv := try (vm_New c (NewEVMContext m h)) in
  let initBalance := gasRemaining * m_GasPrice m + m_Value m in
  do_db (db_SetBalance IgnoreAcctCheck (m_from m) 0) ;;;
  do_db (db_AddBalance IgnoreAcctCheck (m_from m) initBalance) ;;;
  do_db (fun d => let '(d, o) := GetOrNewStateObject IgnoreAcctCheck (m_from m) d in
                  put (d, set_initBalance initBalance o)) ;;;
  let! (output, gas, failed) := apply_message (Some vmenv) action m (MC h) in
  guard (negb (failed && UnitID_IsEmpty source && IsFreeTx t)) (ErrVM State.ErrExecutionReverted) ;;;
  let '(gas, overflow) := if failed && negb (refund =? 0) then Word.SafeAdd gas refund
                          else (gas, false) in
  let! receipt := createReceipt c source h (tx_Hash t) action output failed gasRemaining gas
                    (Some (m_from m)) in
  do_db (db_SetBalance IgnoreAcctCheck (m_from m) 0) ;;;
  let deployed := negb failed && IsCallCreateContractTx (m_to m) (m_Data m)
                  && bool_decide (MC h = SCAccount) in
  let flows := if deployed then [] else Coinflows receipt in
  (if overflow then fail (ErrVM State.ErrOutOfGas) else ret tt) ;;;
  ret (set_Coinflows (adjust_flows (m_from m) (m_Value m + m_GasPrice m * gas) flows) receipt).

Definition checkIdle (currAction : TxAction) (h : Header) (m : Message) : M unit :=
  if bool_decide (currAction = ActionSCIdleContractDeal) then
    guard (negb (m_Value m >? 0)) ErrInvalidIdle ;;;
    guard (negb (negb (m_GasPrice m =? 0) || negb (m_gasLimit m =? 0))) ErrInvalidIdle ;;;
    guard (bool_decide (MC h = SCAccount)) ErrInvalidIdle
  else ret tt.

(** The header of the new contract's first unit. *)
Definition newHeader (c : Chain) (h : Header) (nonce : Z) : Header :=
  mkHeader (State.GenerateContractAddress (MC h) nonce) 1 (GenesisHash c) (SCHash h) (SCNumber h)
    Address.zeroAddress 0.

(** [applyToContract].  Deploying a contract first deploys it on the new
    chain; that call does not deploy again, so two units of fuel are enough
    when a new contract's address is not the system contract's. *)
Fixpoint applyToContract (fuel : nat) (c : Chain) (h : Header) (t : Transaction) (m : Message)
    (gasRemaining : Z) (currAction : TxAction) (source : UnitID) : M Receipt :=
  checkIdle currAction h m ;;;
  if IsCallCreateContractTx (m_to m) (m_Data m) && bool_decide (MC h = SCAccount) then
    match fuel, GenesisState c with
    | O, _ => panic
    | _, None => fail ErrMissingGenesis
    | S fuel', Some newdb =>
        let newdb := db_SetBalance IgnoreAcctCheck (m_from m) 0 newdb in
        let '(freeze, overflow) := Word.SafeMul gasRemaining (m_GasPrice m) in
        if overflow then fail (ErrVM State.ErrOutOfGas)
        else
          let newdb := db_AddBalance IgnoreAcctCheck (m_from m) (freeze + m_Value m) newdb in
          let! nonce := on_db (GetNonce IgnoreAcctCheck (MC h)) in
          let! before := get w_gp in
          fun w =>
            let failing pool gasUsed :=
              createReceipt c source h (tx_Hash t) ActionContractDeal [] true gasRemaining gasUsed None
                (set_w_gp pool w) in
            match applyToContract fuel' c (newHeader c h nonce) t m gasRemaining currAction source
                    (mkWork (w_gp w) 0 newdb) with
            | Panicked => Panicked
            | Failed ErrGasLimitReached w' => Failed ErrGasLimitReached (set_w_gp (w_gp w') w)
            | Failed _ w' =>
                let gasUsed := Word.ForceSafeSub (Word.Uint64 before) (Word.Uint64 (w_gp w')) in
                match SubGas gasUsed (w_gp w') with
                | Err e => Failed e (set_w_gp (w_gp w') w)
                | Ok pool => failing pool gasUsed
                end
            | Done r w' =>
                if Failed_ r then failing (w_gp w') (GasUsed r)
                else run_contract c h t (GasSub (GasUsed r) m) gasRemaining source (GasUsed r)
                       (set_w_gp (w_gp w') w)
            end
    end
  else run_contract c h t m gasRemaining source 0.

Definition ApplyToContract (c : Chain) (h : Header) (t : Transaction)
    (txexec : option TransactionExec) (msg : option Message) : M Receipt :=
  guard (Address.IsContract (tx_Recipient t)) ErrNotContract ;;;
  let action := ActionContractDeal in
  let txHash := tx_Hash t in
  check_action (MC h) txHash action ;;;
  mark_action (MC h) txHash action ;;;
  let! gasRemaining :=
    match txexec with
    | None => ret (tx_GasLimit t)
    | Some x =>
        if UnitID_IsEmpty (PreStep x) then
          match Tx x with
          | None => fail ErrEmptySource
          | Some _ => ret (tx_GasLimit t)
          end
        else
          match GetTxReceiptAtUnit c (unit_Hash (PreStep x)) (TxHash x) with
          | None => fail ErrMissingReceipt
          | Some r => if Failed_ r then fail ErrPreviousFailed else ret (GasRemaining r)
          end
    end in
  let! m := tx_message msg t gasRemaining in
  match txexec with
  | None => panic  (* [txexec.Action] *)
  | Some x => applyToContract 2 c h t m gasRemaining (Action x) (PreStep x)
  end.

Definition previous (c : Chain) (x : TransactionExec) : M Receipt :=
  match GetTxReceiptAtUnit c (unit_Hash (PreStep x)) (TxHash x) with
  | None => fail ErrMissingReceipt
  | Some r => ret r
  end.

Definition ApplyReceive (c : Chain) (h : Header) (t : Transaction) (x : TransactionExec) : M Receipt :=
  let! send := try (Sender t) in
  guard (negb (IsCallCreateContractTx (tx_Recipient t) (tx_Payload t)
               || Address.IsContract (tx_Recipient t)
               || negb (bool_decide (tx_Recipient t = MC h)))) ErrInvalidReceiver ;;;
  let action := ActionTransferReceipt in
  guard (negb (bool_decide (tx_Recipient t = send))) ErrToYourself ;;;
  check_action (MC h) (tx_Hash t) action ;;;
  mark_action (MC h) (tx_Hash t) action ;;;
  let! pre := previous c x in
  guard (negb (Failed_ pre)) ErrPreviousFailed ;;;
  do_db (db_AddBalance IgnoreAcctCheck (tx_Recipient t) (tx_Amount t)) ;;;
  next_nonce (tx_Recipient t) ;;;
  createReceipt c (PreStep x) h (tx_Hash t) action [] false (GasRemaining pre) 0 None.

Definition ApplyRefund (c : Chain) (h : Header) (t : Transaction) (x : TransactionExec) : M Receipt :=
  let! m := try (AsMessage t 0) in
  guard (bool_decide (MC h = m_from m)) ErrInvalidReceiver ;;;
  let action := ActionContractRefund in
  check_action (MC h) (ID m) action ;;;
  mark_action (MC h) (ID m) action ;;;
  let! pre := previous c x in
  let refund := GasRemaining pre * m_GasPrice m in
  let refund := if Failed_ pre then refund + m_Value m else refund in
  next_nonce (m_from m) ;;;
  do_db (db_AddBalance IgnoreAcctCheck (m_from m) refund) ;;;
  createReceipt c (PreStep x) h (TxHash x) action [] false (GasRemaining pre) 0 None.

(** [ActionContractReceipt], the function. *)
Definition ApplyContractReceipt (c : Chain) (h : Header) (x : TransactionExec) : M Receipt :=
  let action := ActionContractReceipt in
  let! pre := previous c x in
  guard (negb (Failed_ pre)) ErrPreviousFailed ;;;
  guard (negb (length (Coinflows pre) =? 0)%nat) ErrEmptyCoinflows ;;;
  check_action (MC h) (TxHash x) action ;;;
  mark_action (MC h) (TxHash x) action ;;;
  let addBalance :=
    foldl (fun sum '(a, v) => if bool_decide (a = MC h) then sum + v else sum) 0 (Coinflows pre) in
  guard (negb (addBalance <=? 0)) ErrNoCoinflow ;;;
  next_nonce (MC h) ;;;
  do_db (db_AddBalance IgnoreAcctCheck (MC h) addBalance) ;;;
  createReceipt c (PreStep x) h (TxHash x) action [] false (GasRemaining pre) 0 None.

(** ** A unit's transactions *)

Definition CheckChainIsStopped (c : Chain) (chain : Address) (number : Z) : option error :=
  if bool_decide (chain = SCAccount) then None
  else
    let stopped := GetStoppedChainFlag c chain in
    if (stopped >? 0) && (stopped <=? number) then Some ErrChainStopped else None.

Definition QueryOriginTx (c : Chain) (x : TransactionExec) : result error Transaction :=
  match Tx x with
  | Some t => Ok t
  | None => match GetTransaction c (TxHash x) with
            | Some t => Ok t
            | None => Err ErrMissingTransaction
            end
  end.

Definition ProcessTransaction (c : Chain) (h : Header) (tx : option TransactionExec)
    (msg : option Message) : M Receipt :=
  match tx with
  | None => fail ErrNilTransaction
  | Some x =>
      let! originTx := try (QueryOriginTx c x) in
      (if negb (Address.Empty (ChainID (PreStep x))) then
         match CheckChainIsStopped c (ChainID (PreStep x)) (Height (PreStep x)) with
         | Some e => fail e
         | None => ret tt
         end
       else ret tt) ;;;
      do_db ClearFlow ;;;
      match Action x with
      | ActionTransferPayment => ApplyPayment c h originTx msg
      | ActionContractFreeze => ApplyFreeze c h originTx msg
      | ActionContractDeal | ActionPowTxContractDeal | ActionSCIdleContractDeal =>
          ApplyToContract c h originTx (Some x) msg
      | ActionTransferReceipt => ApplyReceive c h originTx x
      | ActionContractReceipt => ApplyContractReceipt c h x
      | ActionContractRefund => ApplyRefund c h originTx x
      end
  end.

Definition ApplyTransaction (c : Chain) (h : Header) (t : Transaction) (msg : option Message)
    : M Receipt :=
  if Address.IsContract (tx_Recipient t) then ApplyToContract c h t None msg
  else ApplyPayment c h t msg.

Fixpoint process_all (c : Chain) (h : Header) (unitHash : Hash) (i : Z)
    (txs : list TransactionExec) : M (list Receipt * list StoredLog) :=
  match txs with
  | [] => ret ([], [])
  | x :: txs =>
      do_db (Prepare (TxHash x) unitHash i (Number h)) ;;;
      let! r := ProcessTransaction c h (Some x) None in
      let! (rs, ls) := process_all c h unitHash (i + 1) txs in
      ret (r :: rs, rc_Logs r ++ ls)
  end.

(** [Process]: the receipts, the logs and the gas used; the account state is
    left as the transactions made it. *)
Definition Process (c : Chain) (h : Header) (unitHash : Hash) (gasLimit : Z)
    (txs : list TransactionExec) (d : StateDB)
    : outcome StateDB (list Receipt * list StoredLog * Z) :=
  match process_all c h unitHash 0 txs (mkWork gasLimit 0 d) with
  | Done (rs, ls) w => Done (rs, ls, Word.Uint64 (w_total w)) (w_db w)
  | Failed e w => Failed e (w_db w)
  | Panicked => Panicked
  end.

(** [ProcessMultiTransaction] goes on with the state of a failing transaction. *)
Fixpoint process_multi (c : Chain) (h : Header) (i : Z) (txs : list TransactionExec)
    : M (list TransactionExec * list Receipt * list StoredLog) :=
  match txs with
  | [] => ret ([], [], [])
  | x :: txs =>
      do_db (Prepare (TxHash x) 0 i (Number h)) ;;;
      fun w =>
        match ProcessTransaction c h (Some x) None w with
        | Panicked => Panicked
        | Failed _ w => process_multi c h (i + 1) txs w
        | Done r w =>
            match process_multi c h (i + 1) txs w with
            | Done (xs, rs, ls) w => Done (x :: xs, r :: rs, rc_Logs r ++ ls) w
            | Failed e w => Failed e w
            | Panicked => Panicked
            end
        end
  end.
Definition ProcessMultiTransaction (c : Chain) (h : Header) (gasLimit : Z)
    (txs : list TransactionExec) (d : StateDB)
    : outcome StateDB (list TransactionExec * list Receipt * list StoredLog * Z) :=
  match process_multi c h 0 txs (mkWork gasLimit 0 d) with
  | Done (xs, rs, ls) w => Done (xs, rs, ls, Word.Uint64 (w_total w)) (w_db w)
  | Failed e w => Failed e (w_db w)
  | Panicked => Panicked
  end.

End Process.

End Process.
