(* ===== verification/SortSlice.v ===== *)
(** The priority list of jobs ([src/common/sort/sortslice/list.go]) over Go's
    [container/heap]: adding, popping and removing items that are ranked by
    [Compare] and told apart by [Key]. *)
From stdpp Require Import gmap list.
From S2P Require Import Prelude.

Module SortSlice.

(** [Item]. *)
Class Item (I K : Type) `{Countable K} := {
  Compare : I -> I -> Z;
  Key : I -> K
}.

Section SortSlice.
Context {I K : Type} `{IT : Item I K}.

(** ** [container/heap] on [ItemsHeap] *)

Definition Less (l : list I) (i j : nat) : bool :=
  match l !! i, l !! j with Some x, Some y => Compare x y >? 0 | _, _ => false end.
Definition Swap (l : list I) (i j : nat) : list I :=
  match l !! i, l !! j with Some x, Some y => <[i := y]> (<[j := x]> l) | _, _ => l end.

Definition parent (j : nat) : nat := (j - 1) / 2.

Fixpoint up (fuel : nat) (l : list I) (j : nat) : list I :=
  match fuel with
  | O => l
  | S fuel =>
      let i := parent j in
      if (i =? j)%nat || negb (Less l j i) then l else up fuel (Swap l i j) i
  end.

Fixpoint down (fuel : nat) (l : list I) (i n : nat) : list I :=
  match fuel with
  | O => l
  | S fuel =>
      let j1 := (2 * i + 1)%nat in
      if (n <=? j1)%nat then l
      else
        let j := if (j1 + 1 <? n)%nat && Less l (j1 + 1) j1 then (j1 + 1)%nat else j1 in
        if negb (Less l j i) then l else down fuel (Swap l i j) j n
  end.

Definition heap_Push (x : I) (l : list I) : list I :=
  let l := l ++ [x] in up (length l) l (length l - 1).

(** [heap.Pop] and [ItemsHeap.Pop]; a panic on the empty heap. *)
Definition heap_Pop (l : list I) : option (I * list I) :=
  let n := (length l - 1)%nat in
  let l := down (length l) (Swap l 0 n) 0 n in
  match l !! n with Some x => Some (x, take n l) | None => None end.

(** ** The list *)

Record List := mkList { items : list I; itemKeys : gset K }.

Definition NewList : List := mkList [] ∅.

Definition Add (x : I) (l : List) : bool * List :=
  if decide (Key x ∈ itemKeys l) then (false, l)
  else (true, mkList (heap_Push x (items l)) ({[Key x]} ∪ itemKeys l)).

Definition Get (i : nat) (l : List) : option I := items l !! i.

Definition Pop (l : List) : option I * List :=
  match heap_Pop (items l) with
  | None => (None, l)
  | Some (top, rest) => (Some top, mkList rest (itemKeys l ∖ {[Key top]}))
  end.

Definition Exist (k : K) (l : List) : bool :=
  if (length (items l) =? 0)%nat then false else bool_decide (k ∈ itemKeys l).

(** [remove]: the last item takes the place of the removed one, and nothing is
    put in order again. *)
Definition remove (i : nat) (l : List) : List :=
  if (i =? 0)%nat then snd (Pop l)
  else
    let last := (length (items l) - 1)%nat in
    let its := if (i =? last)%nat then items l else Swap (items l) i last in
    match its !! last with
    | Some x => mkList (take last its) (itemKeys l ∖ {[Key x]})
    | None => l
    end.

(** The index of the first item with a key. *)
Fixpoint find_key (k : K) (i : nat) (its : list I) : option nat :=
  match its with
  | [] => None
  | x :: its => if decide (Key x = k) then Some i else find_key k (i + 1) its
  end.

Definition Remove (k : K) (l : List) : bool * List :=
  if decide (k ∈ itemKeys l) then
    match find_key k 0 (items l) with
    | Some i => (true, remove i l)
    | None => (false, l)
    end
  else (false, l).

Definition Len (l : List) : nat := length (items l).
Definition Empty (l : List) : bool := (Len l =? 0)%nat.
Definition Release (_ : List) : List := mkList [] ∅.

(** ** Order *)

(** [Compare] is a total preorder on the items that are [good]. *)
Class Ranked (good : I -> Prop) : Prop := {
  Compare_total x y : good x -> good y -> 0 < Compare x y -> Compare y x <= 0;
  Compare_trans x y z : good x -> good y -> good z ->
    Compare x y <= 0 -> Compare y z <= 0 -> Compare x z <= 0
}.

Context (good : I -> Prop) {R : Ranked good}.

(** The first [n] items are in heap order, but for the items [except] allows. *)
Definition heaped_but (except : nat -> nat -> Prop) (n : nat) (l : list I) : Prop :=
  forall i x y, (0 < i < n)%nat -> ~ except i (parent i) -> l !! i = Some x -> l !! parent i = Some y ->
    Compare x y <= 0.
Definition heaped (l : list I) : Prop := heaped_but (fun _ _ => False) (length l) l.

(** The children of [j] do not beat its parent. *)
Definition bridged (j n : nat) (l : list I) : Prop :=
  forall i x z, (0 < i < n)%nat -> parent i = j -> (0 < j)%nat -> l !! i = Some x -> l !! parent j = Some z ->
    Compare x z <= 0.

Lemma parent_spec i p : (0 < i)%nat -> parent i = p <-> (i = 2 * p + 1 \/ i = 2 * p + 2)%nat.
Proof.
  intros Hi. unfold parent. pose proof (Nat.div_mod_eq (i - 1) 2). pose proof (Nat.mod_upper_bound (i - 1) 2).
  lia.
Qed.

Lemma parent_lt i : (0 < i)%nat -> (parent i < i)%nat.
Proof. intros Hi. pose proof (proj1 (parent_spec i _ Hi) eq_refl). lia. Qed.

Lemma length_Swap l i j : length (Swap l i j) = length l.
Proof. unfold Swap. destruct (l !! i), (l !! j); by rewrite ?length_insert. Qed.

Lemma lookup_Swap l i j k :
  (i < length l)%nat -> (j < length l)%nat ->
  Swap l i j !! k = if decide (k = i) then l !! j else if decide (k = j) then l !! i else l !! k.
Proof.
  intros Hi Hj. unfold Swap. destruct (lookup_lt_is_Some_2 l i Hi) as [x Ex].
  destruct (lookup_lt_is_Some_2 l j Hj) as [y Ey]. rewrite Ex, Ey.
  repeat case_decide; subst; rewrite ?list_lookup_insert_eq by (rewrite ?length_insert; lia); try done.
  - rewrite list_lookup_insert_ne by done. by rewrite list_lookup_insert_eq.
  - by rewrite !list_lookup_insert_ne.
Qed.

Lemma insert_perm (l : list I) i x y : l !! i = Some x -> x :: <[i := y]> l ≡ₚ y :: l.
Proof.
  revert i. induction l as [|z l IH]; intros i E; [done|]. destruct i as [|i]; cbn in *.
  - injection E as ->. by constructor.
  - etrans; [apply perm_swap|]. etrans; [|apply perm_swap]. by constructor; apply IH.
Qed.

Lemma Swap_perm l i j : Swap l i j ≡ₚ l.
Proof.
  unfold Swap. destruct (l !! i) as [x|] eqn:Ex, (l !! j) as [y|] eqn:Ey; try done.
  destruct (decide (i = j)) as [->|N].
  { rewrite Ex in Ey. injection Ey as ->. by rewrite !list_insert_id; rewrite ?list_insert_id. }
  apply (Permutation_cons_inv (a := x)). rewrite (insert_perm _ i x y) by (by rewrite list_lookup_insert_ne).
  by apply insert_perm.
Qed.

Lemma up_perm fuel l j : up fuel l j ≡ₚ l.
Proof.
  revert l j. induction fuel as [|fuel IH]; intros l j; cbn [up]; [done|].
  destruct (_ || _); [done|]. by rewrite IH, Swap_perm.
Qed.

Lemma down_perm fuel l i n : down fuel l i n ≡ₚ l.
Proof.
  revert l i. induction fuel as [|fuel IH]; intros l i; cbn [down]; [done|].
  destruct (n <=? _)%nat; [done|]. destruct (negb _); [done|]. by rewrite IH, Swap_perm.
Qed.

Lemma length_up fuel l j : length (up fuel l j) = length l.
Proof. by rewrite up_perm. Qed.
Lemma length_down fuel l i n : length (down fuel l i n) = length l.
Proof. by rewrite down_perm. Qed.

Lemma Less_spec l i j x y : l !! i = Some x -> l !! j = Some y -> Less l i j = (Compare x y >? 0).
Proof. unfold Less. by intros -> ->. Qed.

Lemma good_lookup l i x : Forall good l -> l !! i = Some x -> good x.
Proof. intros Hl E. by eapply Forall_lookup_1. Qed.

Lemma good_Swap l i j : Forall good l -> Forall good (Swap l i j).
Proof. intros Hl. by rewrite Swap_perm. Qed.

(** [up] mends the one place its item is out of order. *)
Lemma up_heaped fuel l j :
  Forall good l -> (j < length l)%nat -> (j <= fuel)%nat ->
  heaped_but (fun i _ => i = j) (length l) l -> bridged j (length l) l ->
  heaped (up fuel l j).
Proof.
  revert l j. induction fuel as [|fuel IH]; intros l j G Hj Hf Hh Hb; cbn [up].
  { intros i x y Hi _. apply Hh; [done|]. lia. }
  destruct (Nat.eqb_spec (parent j) j) as [Ep|Np]; cbn [orb].
  { assert (j = 0)%nat as -> by (destruct j; [done|]; pose proof (parent_lt (S j)); lia).
    intros i x y Hi _. apply Hh; [done|]. lia. }
  assert (0 < j)%nat as Hj0 by (destruct j; [done|lia]). pose proof (parent_lt j Hj0) as Hp.
  set (p := parent j) in *. destruct (lookup_lt_is_Some_2 l j Hj) as [x Ex].
  destruct (lookup_lt_is_Some_2 l p ltac:(lia)) as [y Ey].
  rewrite (Less_spec l j p x y Ex Ey), Z.gtb_ltb. destruct (Z.ltb_spec 0 (Compare x y)) as [Hlt|Hge]; cbn [negb].
  2: { intros i u v Hi _ Eu Ev. destruct (decide (i = j)) as [->|N]; [|by apply (Hh i)].
       fold p in Ev. congruence. }
  pose proof (good_lookup _ _ _ G Ex) as Gx. pose proof (good_lookup _ _ _ G Ey) as Gy.
  apply IH; rewrite ?length_Swap; [by apply good_Swap|lia|lia| |].
  - intros i u v Hi Ni Eu Ev. pose proof (parent_lt i ltac:(lia)).
    rewrite lookup_Swap in Eu, Ev by lia. rewrite (decide_False (P := i = p)) in Eu by done.
    destruct (decide (parent i = p)) as [D1|D1], (decide (i = j)) as [D2|D2].
    + subst i. rewrite Eu in Ey. rewrite Ev in Ex. simplify_eq. by apply Compare_total.
    + pose proof (good_lookup _ _ _ G Eu). rewrite Ev in Ex. simplify_eq.
      apply (Compare_trans u y x); try done; [|by apply Compare_total]. by apply (Hh i); rewrite ?D1.
    + subst i. done.
    + destruct (decide (parent i = j)) as [D3|D3]; [|by apply (Hh i)]. rewrite Ev in Ey. simplify_eq.
      apply (Hb i); [done|done|done|done|]. by fold p.
  - intros i u z Hi Epi Hp0 Eu Ez. pose proof (parent_lt p Hp0).
    rewrite lookup_Swap in Eu, Ez by lia.
    rewrite (decide_False (P := parent p = p)), (decide_False (P := parent p = j)) in Ez by lia.
    pose proof (parent_lt i ltac:(lia)). rewrite (decide_False (P := i = p)) in Eu by lia.
    pose proof (good_lookup _ _ _ G Ez) as Gz.
    assert (Compare y z <= 0) as Hyz by (apply (Hh p); [lia|lia|done|done]).
    destruct (decide (i = j)) as [D1|D1]; [by rewrite Eu in Ey; simplify_eq|].
    pose proof (good_lookup _ _ _ G Eu). apply (Compare_trans u y z); try done.
    apply (Hh i); [done|done|done|by rewrite Epi].
Qed.

Lemma heap_Push_heaped x l : good x -> Forall good l -> heaped l -> heaped (heap_Push x l).
Proof.
  intros Gx G Hh. unfold heap_Push. cbv zeta. rewrite length_app. cbn [length].
  replace (length l + 1 - 1)%nat with (length l) by lia. apply up_heaped; rewrite ?length_app; cbn [length].
  - apply Forall_app. by repeat constructor.
  - lia.
  - lia.
  - intros i u v Hi Ni Eu Ev. pose proof (parent_lt i ltac:(lia)).
    rewrite lookup_app_l in Eu, Ev by lia. apply (Hh i); [lia|by intros []|done|done].
  - intros i u z Hi Ep H0. pose proof (parent_lt i ltac:(lia)). lia.
Qed.

Lemma heap_Push_perm x l : heap_Push x l ≡ₚ x :: l.
Proof. unfold heap_Push. rewrite up_perm. by rewrite Permutation_app_comm. Qed.

(** [down] does the same from above, on the first [n] items. *)
Lemma down_outside fuel l i n k : (i < n <= k)%nat -> (k < length l)%nat -> down fuel l i n !! k = l !! k.
Proof.
  revert l i. induction fuel as [|fuel IH]; intros l i Hi Hk; cbn [down]; [done|].
  destruct (Nat.leb_spec n (2 * i + 1)); [done|].
  set (j := if _ && _ then _ else _).
  assert (j < n)%nat as Hj.
  { unfold j. destruct (Nat.ltb_spec (2 * i + 1 + 1) n); cbn [andb]; [|lia]. destruct (Less _ _ _); lia. }
  destruct (negb _); [done|]. rewrite IH by (rewrite ?length_Swap; lia).
  rewrite lookup_Swap by lia. rewrite !decide_False by lia. done.
Qed.

(** The child that [down] looks at beats or equals the other. *)
Lemma best_child l i n :
  Forall good l -> (2 * i + 1 < n <= length l)%nat ->
  exists j, (if (2 * i + 1 + 1 <? n)%nat && Less l (2 * i + 1 + 1) (2 * i + 1)
             then 2 * i + 1 + 1 else 2 * i + 1)%nat = j /\
    (i < j < n)%nat /\ parent j = i /\
    forall k u x, (0 < k < n)%nat -> parent k = i -> k <> j -> l !! k = Some u -> l !! j = Some x -> Compare u x <= 0.
Proof.
  intros G Hn. destruct (lookup_lt_is_Some_2 l (2 * i + 1) ltac:(lia)) as [x1 E1]. eexists. split; [done|].
  destruct (Nat.ltb_spec (2 * i + 1 + 1) n) as [H2|H2]; cbn [andb].
  - destruct (lookup_lt_is_Some_2 l (2 * i + 1 + 1) ltac:(lia)) as [x2 E2].
    rewrite (Less_spec _ _ _ _ _ E2 E1), Z.gtb_ltb.
    pose proof (good_lookup _ _ _ G E1). pose proof (good_lookup _ _ _ G E2).
    destruct (Z.ltb_spec 0 (Compare x2 x1)); (split; [lia|]); (split; [apply parent_spec; lia|]);
      intros k u x Hk Ek N Eu Ex; apply parent_spec in Ek; [|lia| |lia].
    + assert (k = 2 * i + 1)%nat as -> by lia. simplify_eq. by apply Compare_total.
    + assert (k = 2 * i + 1 + 1)%nat as -> by lia. by simplify_eq.
  - split; [lia|]. split; [apply parent_spec; lia|]. intros k u x Hk Ek N. apply parent_spec in Ek; lia.
Qed.

Lemma down_heaped fuel l i n :
  Forall good l -> (n <= length l)%nat -> (n <= i + fuel)%nat ->
  heaped_but (fun _ p => p = i) n l -> bridged i n l ->
  heaped_but (fun _ _ => False) n (down fuel l i n).
Proof.
  revert l i. induction fuel as [|fuel IH]; intros l i G Hn Hf Hh Hb; cbn [down].
  { intros k u v Hk _. apply Hh; [done|]. intros Ep. apply parent_spec in Ep; lia. }
  destruct (Nat.leb_spec n (2 * i + 1)) as [Hs|Hs].
  { intros k u v Hk _. apply Hh; [done|]. intros Ep. apply parent_spec in Ep; lia. }
  destruct (best_child l i n G) as (j & -> & Hj & Hpj & Hbest); [lia|].
  destruct (lookup_lt_is_Some_2 l j ltac:(lia)) as [x Ex].
  destruct (lookup_lt_is_Some_2 l i ltac:(lia)) as [y Ey].
  pose proof (good_lookup _ _ _ G Ex) as Gx. pose proof (good_lookup _ _ _ G Ey) as Gy.
  rewrite (Less_spec l j i x y Ex Ey), Z.gtb_ltb. destruct (Z.ltb_spec 0 (Compare x y)) as [Hlt|Hge]; cbn [negb].
  2: { intros k u v Hk _ Eu Ev. destruct (decide (parent k = i)) as [Epk|N]; [|by apply (Hh k)].
       rewrite Epk, Ey in Ev. injection Ev as <-. destruct (decide (k = j)) as [->|N]; [by simplify_eq|].
       pose proof (good_lookup _ _ _ G Eu). apply (Compare_trans u x y); try done. by apply (Hbest k). }
  apply IH; rewrite ?length_Swap; [by apply good_Swap|done|lia| |].
  - intros k u v Hk Nk Eu Ev. pose proof (parent_lt k ltac:(lia)).
    rewrite lookup_Swap in Eu, Ev by lia. rewrite (decide_False (P := parent k = j)) in Ev by done.
    destruct (decide (parent k = i)) as [D1|D1].
    + rewrite Ex in Ev. injection Ev as <-. rewrite (decide_False (P := k = i)) in Eu by lia.
      destruct (decide (k = j)) as [->|N].
      * simplify_eq. by apply Compare_total.
      * by apply (Hbest k).
    + destruct (decide (k = i)) as [->|N1].
      * rewrite Ex in Eu. injection Eu as <-. apply (Hb j); [lia|done|lia|done|done].
      * destruct (decide (k = j)) as [->|N2]; [done|]. by apply (Hh k).
  - intros k u z Hk Ek Hj0 Eu Ez. rewrite Hpj in Ez. pose proof (parent_lt k ltac:(lia)).
    rewrite lookup_Swap in Eu, Ez by lia. rewrite decide_True in Ez by done.
    rewrite !decide_False in Eu by lia. apply (Hh k); [done|lia|done|by rewrite Ek].
Qed.

Lemma heap_Pop_spec l :
  Forall good l -> heaped l ->
  match heap_Pop l with
  | None => l = []
  | Some (top, rest) => l !! 0%nat = Some top /\ l ≡ₚ top :: rest /\ heaped rest
  end.
Proof.
  intros G Hh. unfold heap_Pop. set (n := (length l - 1)%nat). destruct (decide (length l = 0)%nat) as [E0|N].
  { destruct l; [|done]. done. }
  assert (n < length l)%nat as Hn by lia.
  set (d := down (length l) (Swap l 0 n) 0 n).
  assert (length d = length l) as Ld by (unfold d; by rewrite length_down, length_Swap).
  assert (d ≡ₚ l) as Pd by (unfold d; by rewrite down_perm, Swap_perm).
  assert (d !! n = l !! 0%nat) as En.
  { unfold d. destruct (decide (n = 0)%nat) as [E|N0].
    - assert (down (length l) (Swap l 0 n) 0 n = Swap l 0 n) as ->.
      { rewrite E. by destruct (length l). }
      rewrite lookup_Swap by lia. by rewrite E, decide_True.
    - rewrite down_outside by (rewrite ?length_Swap; lia). rewrite lookup_Swap by lia.
      rewrite decide_False, decide_True by done. done. }
  assert (heaped_but (fun _ _ => False) n d) as Hd.
  { apply down_heaped; rewrite ?length_Swap; [by apply good_Swap|lia|lia| |by intros ? ? ? ? ? ?; lia].
    intros k u v Hk Nk Eu Ev. pose proof (parent_lt k ltac:(lia)). rewrite lookup_Swap in Eu, Ev by lia.
    cbv beta in Nk. rewrite !decide_False in Eu by lia. rewrite !decide_False in Ev by lia. apply (Hh k); [lia|by intros []|done|done]. }
  destruct (lookup_lt_is_Some_2 d n ltac:(lia)) as [x Ex]. rewrite Ex. rewrite Ex in En.
  split; [done|]. split.
  - rewrite <- Pd, <- (take_drop_middle d n x Ex) at 1.
    rewrite (drop_ge d (S n)) by lia. by rewrite Permutation_app_comm.
  - intros k u v Hk _ Eu Ev. rewrite length_take in Hk. pose proof (parent_lt k ltac:(lia)).
    rewrite lookup_take_lt in Eu, Ev by lia. by apply (Hd k); [lia|intros []|..].
Qed.

Lemma Compare_refl x : good x -> Compare x x <= 0.
Proof. intros G. destruct (Z.le_gt_cases (Compare x x) 0); [done|]. by apply Compare_total. Qed.

Lemma heaped_top l x : Forall good l -> heaped l -> l !! 0%nat = Some x -> Forall (fun y => Compare y x <= 0) l.
Proof.
  intros G Hh Ex. pose proof (good_lookup _ _ _ G Ex) as Gx. apply Forall_lookup_2. intros i.
  induction i as [i IH] using lt_wf_ind. intros y Ey. pose proof (good_lookup _ _ _ G Ey) as Gy.
  destruct (decide (i = 0)%nat) as [->|N]; [simplify_eq; by apply Compare_refl|].
  pose proof (parent_lt i ltac:(lia)) as Hp. pose proof (lookup_lt_Some _ _ _ Ey).
  destruct (lookup_lt_is_Some_2 l (parent i) ltac:(lia)) as [z Ez].
  pose proof (good_lookup _ _ _ G Ez). apply (Compare_trans y z x); try done; [|by apply (IH (parent i))].
  apply (Hh i); [lia|by intros []|done|done].
Qed.

(** ** The invariant of the list *)

(** The keys are those of the items, no two of which have the same. *)
Record list_ok (l : List) : Prop := {
  lo_keys k : k ∈ itemKeys l <-> k ∈ Key <$> items l;
  lo_nodup : NoDup (Key <$> items l);
  lo_good : Forall good (items l)
}.
Definition in_order (l : List) : Prop := heaped (items l).

Lemma NewList_ok : list_ok NewList /\ in_order NewList.
Proof.
  split; [split|]; cbn.
  - intros k. set_solver.
  - by constructor.
  - by constructor.
  - intros i x y Hi. cbn in Hi. lia.
Qed.

(** Exchanging the items for a permutation without one of them. *)
Lemma list_ok_minus l x its :
  list_ok l -> items l ≡ₚ x :: its -> list_ok (mkList its (itemKeys l ∖ {[Key x]})).
Proof.
  intros [Hk Hn Hg] Pm. rewrite Pm in Hn, Hg. cbn in Hn. apply list.NoDup_cons in Hn as [Hx Hn].
  split; cbn; [|done|by inversion Hg]. intros k. rewrite elem_of_difference, elem_of_singleton, Hk, Pm.
  cbn. rewrite elem_of_cons. split; [by intros [[->|] ]|]. intros Hin. split; [by right|]. by intros ->.
Qed.

Lemma list_ok_plus l x its :
  list_ok l -> good x -> Key x ∉ itemKeys l -> its ≡ₚ x :: items l ->
  list_ok (mkList its ({[Key x]} ∪ itemKeys l)).
Proof.
  intros [Hk Hn Hg] Gx Hx Pm. split; cbn.
  - intros k. rewrite elem_of_union, elem_of_singleton, Hk, Pm. cbn. by rewrite elem_of_cons.
  - rewrite Pm. cbn. apply list.NoDup_cons. by rewrite <- Hk.
  - rewrite Pm. by constructor.
Qed.

Lemma Add_spec x l :
  list_ok l -> good x ->
  let '(added, l') := Add x l in
  list_ok l' /\ (in_order l -> in_order l') /\
  (if added then (Key x ∉ Key <$> items l) /\ items l' ≡ₚ x :: items l
   else (Key x ∈ Key <$> items l) /\ l' = l).
Proof.
  intros L Gx. unfold Add. destruct (decide (Key x ∈ itemKeys l)) as [D|D].
  { split_and!; try done. by apply L. }
  pose proof (heap_Push_perm x (items l)) as Pm.
  split; [by apply list_ok_plus|]. split; [|split; [by rewrite <- (lo_keys _ L)|done]].
  intros O. apply heap_Push_heaped; [done|apply L|done].
Qed.

Lemma Pop_spec l :
  list_ok l -> in_order l ->
  match Pop l with
  | (None, l') => items l = [] /\ l' = l
  | (Some top, l') => list_ok l' /\ in_order l' /\ items l ≡ₚ top :: items l' /\
                      Forall (fun y => Compare y top <= 0) (items l)
  end.
Proof.
  intros L O. unfold Pop. pose proof (heap_Pop_spec (items l) (lo_good _ L) O) as Hp.
  destruct (heap_Pop (items l)) as [[top its]|]; [|done]. destruct Hp as (Et & Pm & Hh).
  split_and!; [by apply list_ok_minus|done|done|]. by apply heaped_top; [apply L|..].
Qed.

Lemma find_key_spec k i its j :
  find_key k i its = Some j -> exists x, (i <= j)%nat /\ its !! (j - i)%nat = Some x /\ Key x = k.
Proof.
  revert i. induction its as [|x its IH]; intros i; cbn [find_key]; [done|].
  destruct (decide (Key x = k)) as [E|N].
  - intros [= <-]. exists x. by rewrite Nat.sub_diag.
  - intros E. destruct (IH _ E) as (y & Hj & Ey & Ek). exists y. split; [lia|]. split; [|done].
    replace (j - i)%nat with (S (j - (i + 1))) by lia. done.
Qed.

Lemma find_key_None k i its : find_key k i its = None -> k ∉ Key <$> its.
Proof.
  revert i. induction its as [|x its IH]; intros i; cbn; [by intros _ ?%elem_of_nil|].
  destruct (decide (Key x = k)); [done|]. intros E. rewrite elem_of_cons. intros [->|Hin]; [done|].
  by apply (IH _ E).
Qed.

(** Removing takes out the item with the key and no other, but not in order. *)
Lemma Remove_spec k l :
  list_ok l -> in_order l ->
  let '(removed, l') := Remove k l in
  list_ok l' /\
  (if removed then exists x, Key x = k /\ items l ≡ₚ x :: items l'
   else (k ∉ Key <$> items l) /\ l' = l).
Proof.
  intros L O. unfold Remove. destruct (decide (k ∈ itemKeys l)) as [D|D].
  2: { split; [done|]. split; [|done]. by rewrite <- (lo_keys _ L). }
  destruct (find_key k 0 (items l)) as [j|] eqn:E.
  2: { apply find_key_None in E. apply (lo_keys _ L) in D. done. }
  apply find_key_spec in E as (x & _ & Ex & <-). rewrite Nat.sub_0_r in Ex.
  pose proof (lookup_lt_Some _ _ _ Ex) as Hj. unfold remove. destruct (Nat.eqb_spec j 0) as [->|N].
  { pose proof (Pop_spec l L O) as Hp. destruct (Pop l) as [[top|] l'] eqn:Ep.
    - cbn. destruct Hp as (L' & _ & Pm & _). split; [done|]. exists top. split; [|done].
      unfold Pop in Ep. pose proof (heap_Pop_spec (items l) (lo_good _ L) O) as Hp.
      destruct (heap_Pop (items l)) as [[top' its]|]; [|done]. injection Ep as <- <-.
      destruct Hp as (Et & _). by simplify_eq.
    - destruct Hp as (E & _). by rewrite E in Ex. }
  set (n := (length (items l) - 1)%nat). set (its := if (j =? n)%nat then _ else _).
  assert (its !! n = Some x /\ its ≡ₚ items l) as [En Pm].
  { unfold its. destruct (Nat.eqb_spec j n) as [E|N2]; [by rewrite <- E|]. split; [|apply Swap_perm].
    rewrite lookup_Swap by lia. rewrite decide_False, decide_True by done. done. }
  rewrite En. assert (items l ≡ₚ x :: take n its) as Pm2.
  { etrans; [symmetry; exact Pm|]. rewrite <- (take_drop_middle its n x En) at 1.
    rewrite (drop_ge its (S n)) by (rewrite Pm; lia). by rewrite Permutation_app_comm. }
  split; [by apply list_ok_minus|]. by exists x.
Qed.

End SortSlice.

End SortSlice.
