(* ===== verification/JobQueue.v ===== *)
(** The queue of a chain's jobs ([src/witness/txExecMsg.go], [queue.go]): the
    steps a witness still has to put into units, the most urgent first. *)
From stdpp Require Import gmap list.
From S2P Require Import Prelude Bech32 Address EvmWord EvmAnalysis EvmState StateDb Ovm TxTransition TxProcess SortSlice.

Import Db Ovm Transition Process SortSlice.

Module JobQueue.

Record TxExecMsg := mkTxExecMsg {
  msg_Action : TxAction;
  msg_TXHash : Hash;
  msg_MC : Address;
  msg_PreAction : UnitID;
  msg_Tx : option Transaction
}.

Definition actionPriority (a : TxAction) : Z :=
  match a with
  | ActionPowTxContractDeal => 1
  | ActionTransferPayment => 2
  | ActionContractDeal => 3
  | ActionContractFreeze => 4
  | ActionContractRefund => 5
  | ActionTransferReceipt => 6
  | ActionContractReceipt => 6
  | ActionSCIdleContractDeal => 10
  end.

(** [Compare] of two messages, neither of which is nil: the action's priority,
    then the price, then the age.  The transaction of [other] is read without a
    check; [None] is the panic. *)
Definition TxExecMsg_Compare (t other : TxExecMsg) : option Z :=
  let l1 := actionPriority (msg_Action t) in
  let l2 := actionPriority (msg_Action other) in
  let differ := negb (bool_decide (msg_Action t = msg_Action other)) in
  if differ && (l1 >? l2) then Some 1
  else if differ && (l1 <? l2) then Some (-1)
  else
    match msg_Tx t, msg_Tx other with
    | None, _ => Some 0
    | _, None => None
    | Some t, Some o =>
        let p1 := tx_Price t in
        let p2 := tx_Price o in
        if p1 >? p2 then Some 1
        else if p1 <? p2 then Some (-1)
        else
          let n1 := tx_Time t in
          let n2 := tx_Time o in
          if n1 <? n2 then Some 1 else if n1 =? n2 then Some 0 else Some (-1)
    end.

(** [GetMsgID]. *)
Definition GetMsgID (tx : Hash) (action : TxAction) : bytes :=
  TxAction_to_Z action mod 256 :: hash_bytes tx.
Definition TxExecMsg_Key (t : TxExecMsg) : bytes := GetMsgID (msg_TXHash t) (msg_Action t).

(** Jobs always carry their transaction ([newTask]). *)
Definition has_tx (t : TxExecMsg) : Prop := is_Some (msg_Tx t).

#[export] Instance TxExecMsg_Item : Item TxExecMsg bytes := {|
  Compare t o := default 0 (TxExecMsg_Compare t o);
  Key := TxExecMsg_Key
|}.

Section newTask.
Context {K : State.Crypto} {C : TxCodec}.
Definition newTask (a : TxAction) (mc : Address) (t : Transaction) : TxExecMsg :=
  mkTxExecMsg a (tx_Hash t) mc noUnit (Some t).
End newTask.

(** ** [ChainJobQueue]

    [ser_size] is the size its centre counts, if it has a centre. *)
Record ChainJobQueue := mkQueue {
  q_chain : Address;
  msgList : option (@List TxExecMsg bytes _ _);
  ser_size : option Z
}.

Definition addCount (n : Z) (q : ChainJobQueue) : ChainJobQueue :=
  mkQueue (q_chain q) (msgList q) (option_map (Z.add n) (ser_size q)).
Definition set_msgList l (q : ChainJobQueue) : ChainJobQueue :=
  mkQueue (q_chain q) (Some l) (ser_size q).

Definition q_Remove (txhash : Hash) (action : TxAction) (q : ChainJobQueue) : ChainJobQueue :=
  match msgList q with
  | None => q
  | Some l =>
      let '(ok, l) := Remove (GetMsgID txhash action) l in
      let q := set_msgList l q in
      if ok then addCount (-1) q else q
  end.

Definition q_Push (m : TxExecMsg) (q : ChainJobQueue) : bool * ChainJobQueue :=
  match msgList q with
  | None => (false, q)
  | Some l =>
      let '(ok, l) := Add m l in
      let q := set_msgList l q in
      (ok, if ok then addCount 1 q else q)
  end.

Definition q_Len (q : ChainJobQueue) : Z :=
  match msgList q with None => 0 | Some l => Z.of_nat (Len l) end.

(** The second answer: whether the centre is told that the chain has no jobs
    left ([onJobIsEmpty]). *)
Definition q_Pop (q : ChainJobQueue) : option TxExecMsg * bool * ChainJobQueue :=
  match msgList q with
  | None => (None, false, q)
  | Some l =>
      let '(item, l) := Pop l in
      let q := set_msgList l q in
      match item with
      | None => (None, false, q)
      | Some m =>
          let q := addCount (-1) q in
          (Some m, bool_decide (is_Some (ser_size q)) && (q_Len q =? 0), q)
      end
  end.

Definition q_Peek (q : ChainJobQueue) : option TxExecMsg :=
  match msgList q with None => None | Some l => Get 0 l end.
Definition q_Exist (m : TxExecMsg) (q : ChainJobQueue) : bool :=
  match msgList q with None => false | Some l => Exist (Key m) l end.

Section NeedWork.
Context {B : Backing} {K : State.Crypto} {C : TxCodec} (IgnoreAcctCheck : bool).

(** The jobs that are done already, up to the first that is not. *)
Fixpoint find_work (chain : Address) (ms : list TxExecMsg) (d : StateDB)
    : bool * list TxExecMsg * StateDB :=
  match ms with
  | [] => (false, [], d)
  | m :: ms =>
      let '(err, d) := CheckTxActionInChain IgnoreAcctCheck chain (msg_TXHash m) (msg_Action m) d in
      match err with
      | None => (true, [], d)
      | Some _ => let '(ok, done, d) := find_work chain ms d in (ok, m :: done, d)
      end
  end.

(** [NeedWork] on the chain's tail state. *)
Definition NeedWork (q : ChainJobQueue) (d : StateDB) : bool * ChainJobQueue * StateDB :=
  match msgList q with
  | None => (false, q, d)
  | Some l =>
      let '(ok, needRemove, d) := find_work (q_chain q) (items l) d in
      (ok, foldl (fun q m => q_Remove (msg_TXHash m) (msg_Action m) q) q needRemove, d)
  end.

End NeedWork.

(** [Stop] panics without a list. *)
Definition Stop (q : ChainJobQueue) : option ChainJobQueue :=
  match msgList q with
  | None => None
  | Some l => Some (set_msgList (Release l) (addCount (- Z.of_nat (Len l)) q))
  end.

(** ** Ranking *)

Lemma Compare_spec t o x y :
  msg_Tx t = Some x -> msg_Tx o = Some y ->
  let l1 := actionPriority (msg_Action t) in
  let l2 := actionPriority (msg_Action o) in
  0 < Compare t o <-> l2 < l1 \/ l1 = l2 /\ (tx_Price y < tx_Price x \/
                                            tx_Price x = tx_Price y /\ tx_Time x < tx_Time y).
Proof.
  intros Ex Ey l1 l2. cbn. unfold TxExecMsg_Compare. rewrite Ex, Ey. fold l1 l2.
  assert (msg_Action t = msg_Action o -> l1 = l2) as Eq by (by intros E; unfold l1, l2; rewrite E).
  rewrite !Z.gtb_ltb. case_bool_decide as D; cbn [negb andb];
    repeat match goal with
           | |- context [Z.ltb ?a ?b] => destruct (Z.ltb_spec a b)
           | |- context [Z.eqb ?a ?b] => destruct (Z.eqb_spec a b)
           end; cbn [default from_option Datatypes.id]; try specialize (Eq D); lia.
Qed.

#[export] Instance TxExecMsg_Ranked : Ranked has_tx.
Proof.
  split.
  - intros x y [t Et] [u Eu] Hlt. apply Z.nlt_ge. rewrite (Compare_spec _ _ _ _ Eu Et).
    rewrite (Compare_spec _ _ _ _ Et Eu) in Hlt. lia.
  - intros x y z [t Et] [u Eu] [v Ev] Hxy Hyz. apply Z.nlt_ge. apply Z.nlt_ge in Hxy, Hyz.
    rewrite (Compare_spec _ _ _ _ Et Ev). rewrite (Compare_spec _ _ _ _ Et Eu) in Hxy.
    rewrite (Compare_spec _ _ _ _ Eu Ev) in Hyz. lia.
Qed.

(** ** The queue *)

(** The queues that pushes and pops lead to, of a centre that counted [n] jobs
    on the other chains. *)
Inductive reachable (chain : Address) (n : Z) : ChainJobQueue -> Prop :=
| reach_new : reachable chain n (mkQueue chain (Some NewList) (Some n))
| reach_push m q : has_tx m -> reachable chain n q -> reachable chain n (snd (q_Push m q))
| reach_pop q : reachable chain n q -> reachable chain n (snd (q_Pop q)).

Record queue_ok (chain : Address) (n : Z) (q : ChainJobQueue) (l : @List TxExecMsg bytes _ _) : Prop := {
  qo_list : msgList q = Some l;
  qo_ok : list_ok has_tx l;
  qo_order : in_order l;
  qo_size : ser_size q = Some (n + Z.of_nat (Len l));
  qo_chain : q_chain q = chain
}.

Lemma push_ok chain n q l m :
  queue_ok chain n q l -> has_tx m ->
  let '(ok, q') := q_Push m q in
  exists l', queue_ok chain n q' l' /\
    (if ok then (Key m ∉ Key <$> items l) /\ items l' ≡ₚ m :: items l
     else (Key m ∈ Key <$> items l) /\ l' = l).
Proof.
  intros [E L O Z E1] Hm. unfold q_Push. rewrite E. pose proof (Add_spec has_tx m l L Hm) as H.
  destruct (Add m l) as [ok l']. destruct H as (L' & O' & H). exists l'. split; [|done].
  destruct ok; split; cbn; auto; rewrite Z; cbn; f_equal; unfold Len; destruct H as [_ Pm].
  - rewrite Pm. cbn [length]. lia.
  - by rewrite Pm.
Qed.

Lemma pop_ok chain n q l :
  queue_ok chain n q l ->
  match q_Pop q with
  | (None, told, q') => items l = [] /\ told = false /\ queue_ok chain n q' l
  | (Some m, told, q') =>
      exists l', queue_ok chain n q' l' /\ items l ≡ₚ m :: items l' /\
        Forall (fun m' => Compare m' m <= 0) (items l) /\ told = (Len l' =? 0)%nat
  end.
Proof.
  intros [E L O Z E1]. unfold q_Pop. rewrite E. pose proof (Pop_spec has_tx l L O) as H.
  destruct (Pop l) as [[m|] l'].
  - destruct H as (L' & O' & Pm & F). exists l'. split_and!; [|done|done|].
    + split; cbn; try done. rewrite Z. cbn. f_equal. unfold Len. rewrite Pm. cbn [length]. lia.
    + cbn. rewrite Z. cbn. unfold q_Len. cbn. by destruct (Len l').
  - destruct H as [E2 ->]. split_and!; [done..|]. by split.
Qed.

Lemma reachable_ok chain n q : reachable chain n q -> exists l, queue_ok chain n q l.
Proof.
  induction 1 as [|m q Hm _ [l IH]|q _ [l IH]].
  - exists NewList. destruct (NewList_ok has_tx). split; try done. cbn. f_equal. lia.
  - pose proof (push_ok _ _ _ _ _ IH Hm) as H. destruct (q_Push m q) as [ok q'].
    destruct H as (l' & H & _). by exists l'.
  - pose proof (pop_ok _ _ _ _ IH) as H. destruct (q_Pop q) as [[[m|] told] q'].
    + destruct H as (l' & H & _). by exists l'.
    + exists l. apply H.
Qed.

(** C37: a chain's jobs are served the most urgent first, as long as none is
    removed from the queue otherwise ([Remove] does not restore the order, see
    [Remove_breaks_order]).  After any pushes and pops, the queue holds no job twice, the centre's count is exact, a push is
    refused if and only if the job is there already, and a pop takes out a job
    that no queued job ranks above, and no other, and tells the centre exactly
    when it was the last. *)
Theorem jobs_served_in_order chain n q :
  reachable chain n q ->
  exists l, msgList q = Some l /\ ser_size q = Some (n + q_Len q) /\ NoDup (Key <$> items l) /\
    (forall m, has_tx m -> fst (q_Push m q) = true <-> Key m ∉ Key <$> items l) /\
    match q_Pop q with
    | (None, told, q') => items l = [] /\ told = false
    | (Some m, told, q') =>
        exists l', msgList q' = Some l' /\ items l ≡ₚ m :: items l' /\
          Forall (fun m' => Compare m' m <= 0) (items l) /\ told = (Len l' =? 0)%nat
    end.
Proof.
  intros R. destruct (reachable_ok _ _ _ R) as [l O]. exists l. pose proof (qo_list _ _ _ _ O) as El.
  split_and!; [done| |apply (qo_ok _ _ _ _ O)| |].
  - rewrite (qo_size _ _ _ _ O). unfold q_Len. by rewrite El.
  - intros m Hm. pose proof (push_ok _ _ _ _ _ O Hm) as H. destruct (q_Push m q) as [ok q'].
    destruct H as (l' & _ & H). cbn. destruct ok; [by destruct H|]. destruct H as [Hin _]. by split.
  - pose proof (pop_ok _ _ _ _ O) as H. destruct (q_Pop q) as [[[m|] told] q'].
    + destruct H as (l' & O' & Pm & F & T). exists l'. split_and!; try done. apply O'.
    + by destruct H as (E & T & _).
Qed.

(** ** Removing loses the order *)

Definition a_job (price : Z) : TxExecMsg :=
  mkTxExecMsg ActionTransferPayment price Address.zeroAddress noUnit
    (Some (mkTransaction 0 price 0 Address.zeroAddress Address.zeroAddress 0 [] 0 0 [])).
Definition six_jobs : ChainJobQueue :=
  foldl (fun q price => snd (q_Push (a_job price) q))
    (mkQueue Address.zeroAddress (Some NewList) None) [4; 5; 1; 6; 2; 3].
Definition prices (q : ChainJobQueue) : list Z :=
  (fix go (fuel : nat) q :=
     match fuel, q_Pop q with
     | S fuel, (Some m, _, q') => msg_TXHash m :: go fuel q'
     | _, _ => []
     end) 10%nat q.

Example six_jobs_in_order : prices six_jobs = [6; 5; 4; 3; 2; 1].
Proof. vm_compute. done. Qed.

(** [list.remove] says no new sorting is needed when an item inside is removed;
    after it, a job of price 3 is served before one of price 4. *)
Lemma Remove_breaks_order :
  prices (q_Remove 5 ActionTransferPayment six_jobs) = [6; 3; 4; 2; 1].
Proof. vm_compute. done. Qed.

End JobQueue.
