(* ===== verification/TxLedger.v ===== *)
(** The account state as a ledger: balances, and the marks of executed
    actions.  An operation [moves] money: it adds a known amount to every
    account, keeps marks, and keeps the snapshots taken before it. *)
From S2P Require Import Prelude Bech32 Address EvmWord EvmAnalysis EvmState EvmSafe StateDb Ovm StateView StateRevert.

Import Db Ovm View Revert.

Module Ledger.

Section Ledger.
Context {B : Backing} {K : State.Crypto} {KO : Safe.CryptoOk K}.
Context (IgnoreAcctCheck : bool).
Context (size_of_code : forall p a h,
  fst (ContractCodeSize p a h) =
  match ContractCode p a h with Ok c => Z.of_nat (length c) | Err _ => 0 end).

Local Abbreviation wf := (wf IgnoreAcctCheck).
Local Abbreviation keeps := (keeps IgnoreAcctCheck).
Local Abbreviation live := (live IgnoreAcctCheck).
Local Abbreviation step := (step IgnoreAcctCheck).

(** ** What the ledger shows *)

Definition balance_of (o : option stateObject) : Z :=
  match o with Some o => Balance o | None => if IgnoreAcctCheck then 2 ^ 32 else 0 end.
Definition balance (s : StateDB) (a : Address) : Z := balance_of (live s a).

(** A slot that holds the mark of an executed action. *)
Definition marked (s : StateDB) (a : Address) (k : Hash) : Prop :=
  exists o, live s a = Some o /\ peek_state (dataPrefix s) o k = 1.

(** What a change of the account [a] alone shows: its balance becomes [n]. *)
Record shows (s t : StateDB) (a : Address) (n : Z) : Prop := {
  sh_live b : b <> a -> live t b = live s b;
  sh_own : exists o, live t a = Some o /\ Balance o = n;
  sh_prefix : dataPrefix t = dataPrefix s;
  sh_refund : refund t = refund s;
  sh_marks k : marked s a k -> marked t a k
}.

(** ** Moving money *)

Definition delta (a : Address) (n : Z) (b : Address) : Z := if decide (b = a) then n else 0.

Record moves (s t : StateDB) (d : Address -> Z) : Prop := {
  mv_keeps : keeps s t;
  mv_balance b : balance t b = balance s b + d b;
  mv_refund : refund t = refund s;
  mv_marks a k : marked s a k -> marked t a k
}.

Lemma moves_wf s t d : moves s t d -> wf t.
Proof. intros M. apply M. Qed.

Lemma moves_trans s t u d e : moves s t d -> moves t u e -> moves s u (fun b => d b + e b).
Proof.
  intros M N. split.
  - eapply snapshots_keep_trans; [apply M|apply N].
  - intros b. rewrite (mv_balance _ _ _ N), (mv_balance _ _ _ M). lia.
  - by rewrite (mv_refund _ _ _ N), (mv_refund _ _ _ M).
  - intros a k H. by apply N, M.
Qed.

Lemma moves_ext s t d e : moves s t d -> (forall b, d b = e b) -> moves s t e.
Proof. intros M H. split; [apply M| |apply M..]. intros b. rewrite <- H. apply M. Qed.

(** What the account state shows alike. *)
Lemma same_shows s t : same IgnoreAcctCheck s t ->
  (forall b, balance t b = balance s b) /\ (forall a k, marked s a k -> marked t a k).
Proof.
  intros S. split.
  - intros b. unfold balance. destruct (same_live _ _ _ S b) as [o o' Ho|]; [|done].
    cbn. by rewrite (so_Balance _ _ _ Ho).
  - intros a k (o & L & E). pose proof (same_live _ _ _ S a) as H. rewrite L in H.
    inversion H as [? o' Ho Eo Eo'|]; subst. exists o'. split; [done|].
    rewrite <- (sf_prefix _ _ (same_fields_of _ _ _ S)), <- E. symmetry. apply Ho.
Qed.

Lemma moves_same s t : keeps s t -> same IgnoreAcctCheck s t -> moves s t (fun _ => 0).
Proof.
  intros Kp S. destruct (same_shows s t S) as [Hb Hm]. split; [done| | |done].
  - intros b. rewrite Hb. lia.
  - symmetry. apply (same_fields_of _ _ _ S).
Qed.

Lemma moves_quiet s t : wf s -> quiet IgnoreAcctCheck s t -> moves s t (fun _ => 0).
Proof.
  intros W Q. apply moves_same; [apply keeps_step; [done|by apply step_quiet]|].
  by apply quiet_same.
Qed.

Lemma moves_refl s : wf s -> moves s s (fun _ => 0).
Proof. intros W. by apply moves_quiet. Qed.

Lemma moves_shows s t a n :
  wf s -> step s t -> shows s t a n -> moves s t (delta a (n - balance s a)).
Proof.
  intros W S [L (o & E & Eb) P Rf Hm]. split; [by apply keeps_step| |done|].
  - intros b. unfold delta, balance. case_decide as D.
    + subst b. rewrite E. cbn. fold (balance s a). lia.
    + rewrite L by done. lia.
  - intros b k H. destruct (decide (b = a)) as [->|N]; [by apply Hm|].
    destruct H as (ob & Lb & Ek). exists ob. by rewrite L, P.
Qed.

(** ** The setters *)

(** A method that turns [o] into [h o] and shows nothing else. *)
Definition turns (f : cell -> cell) (h : stateObject -> stateObject) : Prop :=
  forall s o, exists s', f (s, o) = (s', h o) /\ (forall b, live s' b = live s b) /\
    dataPrefix s' = dataPrefix s /\ refund s' = refund s /\ db_trie s' = db_trie s /\
    stateObjects s' = stateObjects s /\ address (h o) = address o /\ deleted (h o) = deleted o.

Lemma turns_mark : turns mark (set_onDirty false).
Proof.
  intros s o. unfold mark. destruct o as [? ? ? ? ? ? ? ? ? ? ? ? ? [] ?]; cbn; by eexists.
Qed.

Lemma turns_record e f h : turns f h -> turns (fun '(s, o) => f (record (e o) s, o)) h.
Proof. intros F s o. destruct (F (record (e o) s) o) as (s' & E & L & ?). by exists s'. Qed.

(** Recording an entry and changing fields of the object before marking it. *)
Ltac turns_by s o :=
  match goal with
  | |- context [mark (?s1, ?o1)] =>
      let s' := fresh "s" in
      destruct (turns_mark s1 o1) as (s' & -> & ?); by exists s'
  end.

Lemma turns_setBalance n :
  turns (setBalance n) (fun o => set_onDirty false (set_data (acc_set_Balance n (data o)) o)).
Proof. intros s o. unfold setBalance. turns_by s o. Qed.

Lemma turns_SetBalance n :
  turns (SetBalance n) (fun o => set_onDirty false (set_data (acc_set_Balance n (data o)) o)).
Proof. intros s o. unfold SetBalance, setBalance. turns_by s o. Qed.

Lemma turns_SetNonce n :
  turns (SetNonce n) (fun o => set_onDirty false (set_data (acc_set_Nonce n (data o)) o)).
Proof. intros s o. unfold SetNonce, setNonce. turns_by s o. Qed.

Lemma turns_touch : turns touch (fun o => set_touched true (set_onDirty false o)).
Proof. intros s o. unfold touch. turns_by s o. Qed.

(** The object an address has or gets. *)
Lemma GetOrNewStateObject_shows s a :
  wf s -> exists s' o, GetOrNewStateObject IgnoreAcctCheck a s = (s', o) /\
    step s s' /\ live s' a = Some o /\ shows s s' a (balance s a) /\ Balance o = balance s a.
Proof.
  intros W. destruct (GetOrNewStateObject_spec IgnoreAcctCheck s a W) as (s' & o & E & S & L).
  exists s', o. split_and!; try done.
  - revert E. unfold GetOrNewStateObject.
    destruct (getStateObject_spec IgnoreAcctCheck a s) as (s1 & -> & Q).
    destruct (live s a) as [o1|] eqn:L1.
    + rewrite (live_deleted _ _ _ _ L1). intros [= <- <-]. split.
      * intros b _. apply (q_live _ _ _ Q).
      * exists o1. split; [done|]. unfold balance. by rewrite L1.
      * by apply (quiet_prefix _ _ _ Q).
      * symmetry. apply (q_fields _ _ _ Q).
      * intros k (o2 & L2 & Ek). exists o1. split; [done|]. rewrite (quiet_prefix _ _ _ Q). congruence.
    + intros E. pose proof (wf_quiet _ _ _ W Q) as W1.
      destruct (createObject_spec IgnoreAcctCheck s1 a W1) as (s2 & o2 & E2 & C & _).
      rewrite E2 in E. cbn in E. injection E as <- <-. split.
      * intros b N. rewrite (rc_live _ _ _ _ _ _ C). rewrite decide_False by done. apply (q_live _ _ _ Q).
      * exists o2. split; [rewrite (rc_live _ _ _ _ _ _ C); by rewrite decide_True|].
        unfold balance. rewrite L1. cbn.
        unfold createObject in E2. destruct (getStateObject IgnoreAcctCheck a s1) as [p s3].
        destruct (turns_mark s3 (set_data (acc_set_Nonce 0 (data (newObject IgnoreAcctCheck a zeroAccount)))
          (newObject IgnoreAcctCheck a zeroAccount))) as (s4 & E4 & _).
        unfold setNonce in E2. rewrite E4 in E2. injection E2 as _ _ <-. cbn.
        by destruct IgnoreAcctCheck.
      * rewrite <- (sf_prefix _ _ (rc_fields _ _ _ _ _ _ C)). by apply (quiet_prefix _ _ _ Q).
      * rewrite <- (sf_refund _ _ (rc_fields _ _ _ _ _ _ C)). symmetry. apply (q_fields _ _ _ Q).
      * intros k (o3 & L3 & _). congruence.
  - revert E. unfold GetOrNewStateObject, balance.
    destruct (getStateObject_spec IgnoreAcctCheck a s) as (s1 & -> & Q).
    destruct (live s a) as [o1|] eqn:L1.
    + rewrite (live_deleted _ _ _ _ L1). by intros [= <- <-].
    + unfold createObject. destruct (getStateObject IgnoreAcctCheck a s1) as [p s3].
      destruct (turns_mark s3 (set_data (acc_set_Nonce 0 (data (newObject IgnoreAcctCheck a zeroAccount)))
          (newObject IgnoreAcctCheck a zeroAccount))) as (s4 & E4 & _).
      unfold setNonce. rewrite E4. cbn. intros [= _ <-]. cbn. by destruct IgnoreAcctCheck.
Qed.

Lemma put_shows s a o f h :
  wf s -> live s a = Some o -> turns f h ->
  (forall p k, peek_state p o k = 1 -> peek_state p (h o) k = 1) ->
  shows s (put (f (s, o))) a (Balance (h o)).
Proof.
  intros W L F Hm. destruct (F s o) as (s' & -> & Ls & P & Rf & T & O & A & D).
  pose proof (live_address _ s a o (wf_keyed _ _ W) L) as Ha.
  pose proof (live_deleted _ _ _ _ L) as Hd.
  destruct (put_spec IgnoreAcctCheck s' (h o) a) as (Fs & _ & _ & _ & _ & La).
  rewrite A, Ha, D in La. specialize (La Hd). rewrite decide_True in La by done.
  assert (dataPrefix (put (s', h o)) = dataPrefix s) as Pp by (by rewrite <- (sf_prefix _ _ Fs)).
  split; [| |done|by rewrite <- (sf_refund _ _ Fs)|].
  - intros b N. destruct (put_spec IgnoreAcctCheck s' (h o) b) as (_ & _ & _ & _ & _ & Lb).
    rewrite A, Ha, D in Lb. rewrite Lb by done. by rewrite decide_False.
  - by exists (h o).
  - intros k (o2 & L2 & Ek). exists (h o). split; [done|]. rewrite Pp. apply Hm. congruence.
Qed.

Lemma shows_trans s t u a n m : shows s t a n -> shows t u a m -> shows s u a m.
Proof.
  intros [L1 O1 P1 R1 M1] [L2 O2 P2 R2 M2]. split; [|done|congruence..|auto].
  intros b N. by rewrite L2, L1.
Qed.

(** A setter of [StateDB] that acts on the object [a] has or gets. *)
Lemma moves_setter s a f h g :
  wf s -> turns f h ->
  (forall s1 o, wf s1 -> live s1 a = Some o -> step s1 (put (f (s1, o)))) ->
  (forall o, Balance (h o) = g (Balance o)) ->
  (forall p o k, peek_state p o k = 1 -> peek_state p (h o) k = 1) ->
  moves s (put (f (GetOrNewStateObject IgnoreAcctCheck a s))) (delta a (g (balance s a) - balance s a)).
Proof.
  intros W F S Hb Hm. destruct (GetOrNewStateObject_shows s a W) as (s1 & o & -> & S1 & L & Sh & Eb).
  apply moves_shows; [done| |].
  - eapply step_trans; [done..|]. apply S; [apply S1|done].
  - eapply shows_trans; [done|]. rewrite <- Eb, <- Hb.
    apply put_shows; [apply S1|done..|]. intros p k. apply Hm.
Qed.

Lemma peek_state_same_storage p o o' k :
  cachedStorage o' = cachedStorage o -> o_trie o' = o_trie o -> addrHash o' = addrHash o ->
  acc_Root (data o') = acc_Root (data o) -> peek_state p o' k = peek_state p o k.
Proof. unfold peek_state, peek_trie. by intros -> -> -> ->. Qed.

Lemma turns_ext f g h k :
  turns f h -> (forall p, g p = f p) -> (forall o, k o = h o) -> turns g k.
Proof. intros F E Eh s o. rewrite E, Eh. apply F. Qed.

Lemma turns_SetBalance_flow n m :
  turns (fun p => let '(s, o) := SetBalance (n + Balance p.2) p in (s, set_flow (m + flow o) o))
    (fun o => set_flow (m + flow o)
       (set_onDirty false (set_data (acc_set_Balance (n + Balance o) (data o)) o))).
Proof. intros s o. cbn [snd]. unfold SetBalance, setBalance. turns_by s o. Qed.

Lemma moves_AddBalance s a n :
  wf s -> moves s (db_AddBalance IgnoreAcctCheck a n s) (delta a n).
Proof.
  intros W. pose proof (step_AddBalance IgnoreAcctCheck s a n W) as St. unfold db_AddBalance in *.
  destruct (GetOrNewStateObject_shows s a W) as (s1 & o & E & S1 & L & Sh & Eb). rewrite E in *.
  pose proof (st_wf _ _ _ S1) as W1.
  assert (exists h, (forall p k, peek_state p (h o) k = peek_state p o k) /\
            Balance (h o) = n + Balance o /\ exists f, turns f h /\ AddBalance n (s1, o) = f (s1, o))
    as (h & Hm & Hb & f & F & Ef).
  { unfold AddBalance. destruct (Z.eqb_spec n 0) as [->|N].
    - destruct (empty o).
      + eexists. split; [|split; [|eexists; split; [apply turns_touch|done]]]; done.
      + exists (fun o => o). split_and!; try done. exists (fun p => p). split; [|done].
        intros s' o'. by exists s'.
    - eexists. split; [|split; [|eexists; split; [apply (turns_SetBalance_flow n n)|]]].
      + intros p k. by apply peek_state_same_storage.
      + done.
      + cbn [snd]. rewrite (Z.add_comm (Balance o)). destruct (SetBalance _ _) as [s' o'].
        by rewrite (Z.add_comm (flow o')). }
  rewrite Ef in *. eapply moves_ext; [apply moves_shows; [done..|]|].
  - eapply shows_trans; [done|]. apply put_shows; [done..|]. intros p k. by rewrite Hm.
  - intros b. unfold delta. case_decide; [|done]. rewrite Hb, Eb. lia.
Qed.

Lemma moves_SubBalance s a n :
  wf s -> moves s (db_SubBalance IgnoreAcctCheck a n s) (delta a (-n)).
Proof.
  intros W. pose proof (step_SubBalance IgnoreAcctCheck s a n W) as St. unfold db_SubBalance in *.
  destruct (GetOrNewStateObject_shows s a W) as (s1 & o & E & S1 & L & Sh & Eb). rewrite E in *.
  pose proof (st_wf _ _ _ S1) as W1.
  assert (exists h, (forall p k, peek_state p (h o) k = peek_state p o k) /\
            Balance (h o) = - n + Balance o /\ exists f, turns f h /\ SubBalance n (s1, o) = f (s1, o))
    as (h & Hm & Hb & f & F & Ef).
  { unfold SubBalance. destruct (Z.eqb_spec n 0) as [->|N].
    - exists (fun o => o). split_and!; try done. exists (fun p => p). split; [|done].
      intros s' o'. by exists s'.
    - eexists. split; [|split; [|eexists; split; [apply (turns_SetBalance_flow (-n) (-n))|]]].
      + intros p k. by apply peek_state_same_storage.
      + done.
      + cbn [snd]. replace (- n + Balance o) with (Balance o - n) by lia.
        destruct (SetBalance _ _) as [s' o']. by replace (- n + flow o') with (flow o' - n) by lia. }
  rewrite Ef in *. eapply moves_ext; [apply moves_shows; [done..|]|].
  - eapply shows_trans; [done|]. apply put_shows; [done..|]. intros p k. by rewrite Hm.
  - intros b. unfold delta. case_decide; [|done]. rewrite Hb, Eb. lia.
Qed.

Lemma moves_SetBalance s a n :
  wf s -> moves s (db_SetBalance IgnoreAcctCheck a n s) (delta a (n - balance s a)).
Proof.
  intros W. apply (moves_setter s a _ _ (fun _ => n) W (turns_SetBalance n)); try done.
  intros s1 o W1 L1. by apply (step_put_SetBalance IgnoreAcctCheck s1 a).
Qed.

Lemma moves_SetNonce s a n : wf s -> moves s (db_SetNonce IgnoreAcctCheck a n s) (fun _ => 0).
Proof.
  intros W. eapply moves_ext.
  - apply (moves_setter s a _ _ (fun b => b) W (turns_SetNonce n)); try done.
    intros s1 o W1 L1. by apply (step_SetNonce IgnoreAcctCheck s1 a).
  - intros b. unfold delta. case_decide; lia.
Qed.

(** Writing a mark: no balance changes, and the mark is there. *)
Lemma moves_SetState_mark s a k :
  wf s -> moves s (SetState IgnoreAcctCheck a k 1 s) (fun _ => 0) /\
          marked (SetState IgnoreAcctCheck a k 1 s) a k.
Proof.
  intros W. unfold SetState. destruct (GetOrNewStateObject_shows s a W) as (s1 & o & E & S1 & L & Sh & Eb).
  rewrite E. pose proof (st_wf _ _ _ S1) as W1.
  pose proof (step_SetState IgnoreAcctCheck s1 a o k 1 W1 L) as St. unfold o_SetState in *.
  destruct (o_GetState_same s1 o k) as (_ & So & Ed).
  destruct (o_GetState s1 o k) as [pv o1]. cbn [fst snd] in *.
  set (s2 := record _ s1) in *.
  unfold o_setState in *.
  match type of St with
  | context [mark (_, ?o2)] => destruct (turns_mark s2 o2) as (s3 & E3 & L3 & P3 & Rf3 & T3 & _)
  end.
  rewrite E3 in *. set (o3 := set_onDirty false _) in *.
  pose proof (live_address _ s1 a o (wf_keyed _ _ W1) L) as Ha.
  pose proof (live_deleted _ _ _ _ L) as Hd.
  assert (forall p k', peek_state p o3 k' = if decide (k' = k) then 1 else peek_state p o1 k') as Pk
    by (intros p k'; exact (peek_state_set p o1 k 1 k')).
  assert (address o3 = a) as A3 by (cbn; by rewrite (so_address _ _ _ So)).
  assert (deleted o3 = false) as D3 by (cbn; by rewrite Ed).
  assert (Balance o3 = balance s a) as B3.
  { rewrite <- Eb, <- (so_Balance _ _ _ So). done. }
  assert (forall b, live (put (s3, o3)) b = if decide (b = a) then Some o3 else live s1 b) as Lp.
  { intros b. destruct (put_spec IgnoreAcctCheck s3 o3 b) as (_ & _ & _ & _ & _ & H).
    rewrite A3 in H. rewrite H by done. case_decide; [done|]. apply L3. }
  assert (dataPrefix (put (s3, o3)) = dataPrefix s1) as Pp.
  { destruct (put_spec IgnoreAcctCheck s3 o3 a) as (F & _). by rewrite <- (sf_prefix _ _ F), P3. }
  assert (marked (put (s3, o3)) a k) as Mk.
  { exists o3. split; [rewrite Lp; by rewrite decide_True|].
    rewrite Pk. by rewrite decide_True. }
  split; [|done]. eapply moves_ext; [apply (moves_shows _ _ a (balance s a) W)|].
  - by eapply step_trans.
  - eapply shows_trans; [done|]. split; [| |done| |].
    + intros b N. rewrite Lp. by rewrite decide_False.
    + exists o3. split; [rewrite Lp; by rewrite decide_True|done].
    + destruct (put_spec IgnoreAcctCheck s3 o3 a) as (F & _). by rewrite <- (sf_refund _ _ F), Rf3.
    + intros k' (o' & L' & Ek). exists o3. split; [rewrite Lp; by rewrite decide_True|].
      rewrite Pp, Pk. case_decide; [done|].
      rewrite (so_state _ _ _ So). congruence.
  - intros b. unfold delta. case_decide; lia.
Qed.

(** ** The getters *)

Lemma getStateObject_moves s a :
  wf s -> exists s', getStateObject IgnoreAcctCheck a s = (live s a, s') /\ moves s s' (fun _ => 0).
Proof.
  intros W. destruct (getStateObject_spec IgnoreAcctCheck a s) as (s1 & -> & Q). exists s1.
  split; [done|]. by apply moves_quiet.
Qed.

Lemma Exist_moves s a :
  wf s -> exists s', Exist IgnoreAcctCheck a s = (bool_decide (is_Some (live s a)), s') /\
                     quiet IgnoreAcctCheck s s'.
Proof.
  intros W. unfold Exist. destruct (getStateObject_spec IgnoreAcctCheck a s) as (s1 & -> & Q).
  by exists s1.
Qed.

Lemma GetBalance_moves s a :
  wf s -> exists s', GetBalance IgnoreAcctCheck a s = (balance s a, s') /\ moves s s' (fun _ => 0).
Proof.
  intros W. unfold GetBalance, balance. destruct (getStateObject_moves s a W) as (s1 & -> & M).
  exists s1. by destruct (live s a).
Qed.

Lemma GetNonce_moves s a :
  wf s -> exists n s', GetNonce IgnoreAcctCheck a s = (n, s') /\ moves s s' (fun _ => 0).
Proof.
  intros W. unfold GetNonce. destruct (getStateObject_moves s a W) as (s1 & -> & M).
  destruct (live s a); by eexists _, s1.
Qed.

Lemma GetCodeHash_moves s a :
  wf s -> exists h s', GetCodeHash IgnoreAcctCheck a s = (h, s') /\ moves s s' (fun _ => 0).
Proof.
  intros W. unfold GetCodeHash. destruct (getStateObject_moves s a W) as (s1 & -> & M).
  destruct (live s a); by eexists _, s1.
Qed.

Lemma CanTransfer_moves s a n :
  wf s -> exists s', CanTransfer IgnoreAcctCheck a n s = (balance s a >=? n, s') /\
                     moves s s' (fun _ => 0).
Proof.
  intros W. unfold CanTransfer. destruct (GetBalance_moves s a W) as (s1 & -> & M). by exists s1.
Qed.

(** A slot that reads as the mark is marked, any other is not. *)
Lemma GetState_moves s a k :
  wf s -> exists v s', GetState IgnoreAcctCheck a k s = (v, s') /\ moves s s' (fun _ => 0) /\
                       (marked s a k -> v = 1).
Proof.
  intros W. unfold GetState, marked. destruct (getStateObject_spec IgnoreAcctCheck a s) as (s1 & E & Q).
  assert (exec IgnoreAcctCheck (OpGetState a k) s = Some (snd (GetState IgnoreAcctCheck a k s))) as Ex by done.
  rewrite E. destruct (live s a) as [o|] eqn:L.
  - destruct (o_GetState_same s1 o k) as (Ev & So & Hd).
    rewrite (quiet_prefix _ _ _ Q) in So, Ev.
    pose proof (step_cache IgnoreAcctCheck s s1 a o (snd (o_GetState s1 o k)) W Q L So Hd) as St.
    destruct (o_GetState s1 o k) as [v o1]. cbn [fst snd] in *.
    exists v, (put (s1, o1)). split_and!; [done| |].
    + eapply moves_ext; [apply (moves_shows s _ a (balance s a) W St)|].
      * pose proof (live_address _ s a o (wf_keyed _ _ W) L) as Ha.
        assert (changed IgnoreAcctCheck s (put (s1, o1)) a o1) as C.
        { apply put_changed; [done|apply W| |].
          - by rewrite (so_address _ _ _ So).
          - rewrite Hd. by eapply live_deleted. }
        split.
        -- intros b N. rewrite (ch_live _ _ _ _ _ C). by rewrite decide_False.
        -- exists o1. rewrite (ch_live _ _ _ _ _ C). rewrite decide_True by done. split; [done|].
           unfold balance. rewrite L. apply So.
        -- by rewrite <- (sf_prefix _ _ (ch_fields _ _ _ _ _ C)).
        -- symmetry. apply (ch_fields _ _ _ _ _ C).
        -- intros k' (o' & L' & Ek). exists o1. rewrite (ch_live _ _ _ _ _ C), decide_True by done.
           split; [done|]. rewrite <- (sf_prefix _ _ (ch_fields _ _ _ _ _ C)), (so_state _ _ _ So). congruence.
      * intros b. unfold delta. case_decide; lia.
    + intros (o' & L' & Ek). rewrite Ev. congruence.
  - exists 0, s1. split_and!; [done|by apply moves_quiet|]. intros (o & L' & _). congruence.
Qed.

Lemma moves_Suicide s a :
  wf s -> exists n, moves s (snd (Suicide IgnoreAcctCheck a s)) (delta a n).
Proof.
  intros W. pose proof (step_Suicide IgnoreAcctCheck s a W) as St. unfold Suicide in *.
  destruct (getStateObject_spec IgnoreAcctCheck a s) as (s1 & E & Q). rewrite E in *.
  destruct (live s a) as [o|] eqn:L.
  2: { exists 0. eapply moves_ext; [by apply moves_quiet|]. intros b. unfold delta. by case_decide. }
  exists (0 - balance s a). apply moves_shows; [done..|]. cbn [snd].
  set (s2 := record _ s1) in *. pose proof (wf_quiet _ _ _ W Q) as W1.
  assert (turns (fun p => let '(s', o') := markSuicided p in (s', set_data (acc_set_Balance 0 (data o')) o'))
            (fun o => set_data (acc_set_Balance 0 (data o)) (set_onDirty false (set_suicided true o)))) as F.
  { intros s' o'. unfold markSuicided. turns_by s' o'. }
  assert (live s1 a = Some o) as L1 by (by rewrite (q_live _ _ _ Q)).
  pose proof (put_shows s1 a o _ _ W1 L1
    (turns_record (fun o' => suicideChange a (suicided o') (Balance o')) _ _ F)
    (fun p k E1 => eq_trans (peek_state_same_storage p o _ k eq_refl eq_refl eq_refl eq_refl) E1)) as Sh.
  cbv beta iota in Sh. fold s2 in Sh.
  assert (shows s s1 a (balance s a)) as Sq.
  { split; [intros b _; apply (q_live _ _ _ Q)| |by apply (quiet_prefix _ _ _ Q)
      |symmetry; apply (q_fields _ _ _ Q)|].
    - exists o. split; [done|]. unfold balance. by rewrite L.
    - intros k (o2 & L2 & Ek). exists o2. rewrite (q_live _ _ _ Q), (quiet_prefix _ _ _ Q). done. }
  eapply shows_trans; [exact Sq|]. destruct (markSuicided (s2, o)) as [s3 o3]. exact Sh.
Qed.

Lemma moves_CreateAccount s a :
  wf s -> live s a = None -> moves s (CreateAccount IgnoreAcctCheck a s) (fun _ => 0).
Proof.
  intros W L. pose proof (step_CreateAccount IgnoreAcctCheck s a W) as St.
  unfold CreateAccount in *.
  destruct (createObject_spec IgnoreAcctCheck s a W) as (s3 & o3 & E3 & C & _). rewrite E3, L in *.
  eapply moves_ext; [apply (moves_shows _ _ a (balance s a) W St)|].
  - split.
    + intros b N. rewrite (rc_live _ _ _ _ _ _ C). by rewrite decide_False.
    + exists o3. split; [rewrite (rc_live _ _ _ _ _ _ C); by rewrite decide_True|].
      unfold createObject in E3. destruct (getStateObject IgnoreAcctCheck a s) as [p s4].
      unfold balance. rewrite L. cbn.
      destruct (turns_mark s4 (set_data (acc_set_Nonce 0 (data (newObject IgnoreAcctCheck a zeroAccount)))
          (newObject IgnoreAcctCheck a zeroAccount))) as (s5 & E5 & _).
      unfold setNonce in E3. rewrite E5 in E3. injection E3 as _ _ <-. cbn. by destruct IgnoreAcctCheck.
    + by rewrite <- (sf_prefix _ _ (rc_fields _ _ _ _ _ _ C)).
    + symmetry. apply (rc_fields _ _ _ _ _ _ C).
    + intros k (o4 & L4 & _). congruence.
  - intros b. unfold delta. case_decide; lia.
Qed.

(** ** Changes of fields nobody sees *)

Lemma step_map s g :
  wf s -> (forall o, (forall p, same_obj p (g o) o) /\ deleted (g o) = deleted o) ->
  step s (with_objects (g <$> stateObjects s) s) /\
  same IgnoreAcctCheck s (with_objects (g <$> stateObjects s) s).
Proof.
  intros W G. set (t := with_objects _ s).
  assert (forall b, live t b = match stateObjects s !! b with
                               | Some o => if deleted o then None else Some (g o)
                               | None => loaded IgnoreAcctCheck s b end) as L.
  { intros b. unfold View.live. cbn. rewrite lookup_fmap. destruct (stateObjects s !! b) as [o|]; [|done].
    cbn. by rewrite (proj2 (G o)). }
  assert (same IgnoreAcctCheck s t) as S.
  { split; [by split|]. intros b. rewrite L. unfold View.live.
    destruct (stateObjects s !! b) as [o|]; [destruct (deleted o); constructor|].
    - symmetry. apply G.
    - destruct (loaded IgnoreAcctCheck s b); constructor. reflexivity. }
  split; [|done]. split; [|exists [], t|done|done].
  - split; try apply W.
    + intros a o. cbn. rewrite lookup_fmap, fmap_Some. intros (o' & E & ->).
      rewrite (so_address _ _ _ (proj1 (G o') [])). by apply W.
    + intros a o. cbn. rewrite lookup_fmap, fmap_Some. intros (o' & E & ->). rewrite (proj2 (G o')).
      intros D. by eapply (wf_buried _ _ W).
    + intros a o. rewrite L. destruct (stateObjects s !! a) as [o'|] eqn:E; [|apply W].
      destruct (deleted o') eqn:D; [done|]. intros [= <-].
      rewrite (so_CodeHash _ _ _ (proj1 (G o') [])). apply (wf_hashes _ _ W a).
      unfold View.live. by rewrite E, D.
    + by eapply (revisions_ok_grow s t []); [apply W|..].
  - split_and!; [done..|]. by symmetry.
Qed.

Lemma moves_map s g :
  wf s -> (forall o, (forall p, same_obj p (g o) o) /\ deleted (g o) = deleted o) ->
  moves s (with_objects (g <$> stateObjects s) s) (fun _ => 0).
Proof.
  intros W G. destruct (step_map s g W G) as [St S]. apply moves_same; [|done]. by apply keeps_step.
Qed.

Lemma moves_ClearFlow s : wf s -> moves s (ClearFlow s) (fun _ => 0).
Proof. intros W. apply moves_map; [done|]. intros o. split; [|done]. by intros p. Qed.

Lemma moves_GetBalanceChanged s : wf s -> moves s (snd (GetBalanceChanged s)) (fun _ => 0).
Proof. intros W. apply moves_map; [done|]. intros o. split; [|done]. by intros p. Qed.

Lemma moves_initBalance s a n :
  wf s ->
  moves s (let '(d, o) := GetOrNewStateObject IgnoreAcctCheck a s in put (d, set_initBalance n o))
    (fun _ => 0).
Proof.
  intros W.
  assert (forall p : cell, (let '(d, o) := p in put (d, set_initBalance n o)) =
                           put (let '(d, o) := p in (d, set_initBalance n o))) as -> by (by intros []).
  eapply moves_ext.
  - apply (moves_setter s a (fun '(d, o) => (d, set_initBalance n o)) (set_initBalance n) (fun b => b) W);
      try done.
    + intros s1 o. by exists s1.
    + intros s1 o W1 L1. by apply (step_cache IgnoreAcctCheck s1 s1 a o).
  - intros b. unfold delta. case_decide; lia.
Qed.

Lemma moves_Transfer s a b n :
  wf s -> moves s (Transfer IgnoreAcctCheck a b n s) (fun c => delta a (-n) c + delta b n c).
Proof.
  intros W. pose proof (moves_SubBalance s a n W) as M. eapply moves_trans; [done|].
  apply moves_AddBalance. by eapply moves_wf.
Qed.

(** Checking first and taking everything back afterwards. *)
Lemma moves_revert s t d :
  wf s -> moves (snd (Snapshot s)) t d ->
  exists u, RevertToSnapshot IgnoreAcctCheck (fst (Snapshot s)) t = Some u /\
            moves s u (fun _ => 0) /\ answers_alike IgnoreAcctCheck u s.
Proof.
  intros W M. pose proof (Snapshot_keeps IgnoreAcctCheck s W) as K1.
  destruct (revert_newest IgnoreAcctCheck s W) as (t0 & E0 & A0).
  destruct (kp_revert _ _ _ (mv_keeps _ _ _ M) (fst (Snapshot s)) t0) as (u & E & A); [cbn; lia|done|].
  exists u. split; [done|].
  assert (same IgnoreAcctCheck u s) as S by (etrans; [symmetry; apply A|apply A0]).
  split; [|by apply same_answers]. apply moves_same; [|by symmetry].
  eapply keeps_revert; [by eapply snapshots_keep_trans; [|apply M]| |exact E]. cbn. lia.
Qed.

End Ledger.

End Ledger.
