(* ===== verification/TxSettle.v ===== *)
(** What a transaction costs: the gas it buys, uses and gets back, in the
    sender's account and in the unit's gas pool. *)
From S2P Require Import Prelude Bech32 Address EvmWord EvmAnalysis EvmState EvmSafe StateDb Ovm StateView StateRevert Bloom TxTransition TxLedger.

Import Db Ovm View Revert Transition Ledger.

Module Settle.

(** ** Weakest preconditions *)

Section Wp.
Context {S : Type}.

Definition wp {A} (m : M S A) (Q : A -> S -> Prop) (F : error -> S -> Prop) (s : S) : Prop :=
  match m s with Done a s' => Q a s' | Failed e s' => F e s' | Panicked => False end.

Lemma twp_ret {A} (a : A) Q F (s : S) : Q a s -> wp (ret a) Q F s.
Proof. done. Qed.
Lemma twp_fail {A} e (Q : A -> S -> Prop) F (s : S) : F e s -> wp (fail e) Q F s.
Proof. done. Qed.
Lemma twp_bind {A A'} (m : M S A) (k : A -> M S A') Q F (s : S) :
  wp m (fun a s' => wp (k a) Q F s') F s -> wp (bind m k) Q F s.
Proof. unfold wp, bind. by destruct (m s). Qed.
Lemma wp_get {A} (f : S -> A) Q F (s : S) : Q (f s) s -> wp (get f) Q F s.
Proof. done. Qed.
Lemma wp_modify (f : S -> S) Q F (s : S) : Q tt (f s) -> wp (modify f) Q F s.
Proof. done. Qed.
Lemma wp_guard b e Q F (s : S) : (b = true -> Q tt s) -> (b = false -> F e s) -> wp (guard b e) Q F s.
Proof. destruct b; cbn; auto. Qed.
Lemma twp_mono {A} (m : M S A) (Q Q' : A -> S -> Prop) (F F' : error -> S -> Prop) s :
  (forall a s', Q a s' -> Q' a s') -> (forall e s', F e s' -> F' e s') -> wp m Q F s -> wp m Q' F' s.
Proof. unfold wp. destruct (m s); auto. Qed.

End Wp.

Section Settle.
Context {P : Params} {B : Backing} {K : State.Crypto} {KO : Safe.CryptoOk K} {C : TxCodec}.
Context (IgnoreAcctCheck : bool).
Context (size_of_code : forall p a h,
  fst (ContractCodeSize p a h) =
  match ContractCode p a h with Ok c => Z.of_nat (length c) | Err _ => 0 end).

Local Abbreviation wf := (wf IgnoreAcctCheck).
Local Abbreviation balance := (balance IgnoreAcctCheck).
Local Abbreviation marked := (marked IgnoreAcctCheck).
Local Abbreviation moves := (moves IgnoreAcctCheck).
Local Abbreviation M := (M StateTransition).

(** ** Intrinsic gas *)

Lemma getGasByData_bounds d :
  Z.of_nat (length d) < 2 ^ 50 ->
  4 * Z.of_nat (length d) <= getGasByData d <= 68 * Z.of_nat (length d).
Proof.
  intros H. unfold getGasByData, TxDataZeroGas, TxDataNonZeroGas. destruct d as [|x d']; [cbn; lia|].
  set (d := x :: d') in *. assert ((0 <? length d)%nat = true) as -> by done.
  cbv zeta.
  pose proof (filter_length_le (fun b => negb (b =? 0)) d) as Hn.
  set (nz := Z.of_nat (length (List.filter _ d))) in *.
  rewrite (u64_small (nz * 68)), (u64_small (Z.of_nat (length d) - nz)) by lia.
  rewrite (u64_small ((Z.of_nat (length d) - nz) * 4)), u64_small by lia. lia.
Qed.

Lemma IntrinsicGas_bounds d b :
  Z.of_nat (length d) < 2 ^ 50 -> 21000 <= IntrinsicGas d b < 2 ^ 60.
Proof.
  intros H. pose proof (getGasByData_bounds d H). unfold IntrinsicGas, TxGas, TxGasContractCreation.
  rewrite u64_small by (destruct b; lia). destruct b; lia.
Qed.

(** ** Steps on the account state *)

Lemma wp_on_state {A} (f : StateDB -> A * StateDB) (Q : A -> StateTransition -> Prop) F s a d :
  f (state s) = (a, d) -> Q a (set_state d s) -> wp (on_state f) Q F s.
Proof. intros E H. unfold wp, on_state. by rewrite E. Qed.

Lemma wp_do_state (f : StateDB -> StateDB) (Q : unit -> StateTransition -> Prop) F s :
  Q tt (set_state (f (state s)) s) -> wp (do_state f) Q F s.
Proof. done. Qed.

Lemma wp_ensure a (Q : Address -> StateTransition -> Prop) F s :
  wf (state s) -> (forall d, moves (state s) d (fun _ => 0) -> Q a (set_state d s)) ->
  wp (ensure IgnoreAcctCheck a) Q F s.
Proof.
  intros W H. unfold ensure. apply twp_bind.
  destruct (Exist_moves IgnoreAcctCheck (state s) a W) as (d & E & Qd).
  eapply wp_on_state; [exact E|]. apply twp_bind.
  pose proof (moves_quiet IgnoreAcctCheck (state s) d W Qd) as M1. case_bool_decide as L.
  - apply twp_ret, twp_ret, H. done.
  - apply wp_do_state, twp_ret. cbn [state set_state]. apply H. eapply moves_ext.
    + eapply moves_trans; [exact M1|]. apply moves_CreateAccount; [by eapply moves_wf|].
      rewrite (q_live _ _ _ Qd). by destruct (View.live IgnoreAcctCheck (state s) a); [destruct L|].
    + done.
Qed.

(** ** Buying gas *)

(** What is paid and what is bought. *)
Definition bill (s : StateTransition) : Z * Z :=
  let cost := m_gasLimit (msg s) * gasPrice s in
  if freeGas s >? 0 then
    let free := u64 (freeGas s * gasPrice s) in
    (if cost <? free then 0 else cost - free, u64 (m_gasLimit (msg s) + freeGas s))
  else (cost, m_gasLimit (msg s)).

Lemma SafeMul_spec x y :
  is_u64 x -> is_u64 y ->
  Word.SafeMul x y = if 2 ^ 64 <=? x * y then (u64 (x * y), true) else (x * y, false).
Proof.
  intros Hx Hy. unfold Word.SafeMul.
  destruct (Z.eqb_spec x 0) as [->|Nx]; [done|]. destruct (Z.eqb_spec y 0) as [->|Ny].
  { rewrite Z.mul_0_r. done. }
  cbn [orb]. unfold MaxUint64. destruct (Z.leb_spec (2 ^ 64) (x * y)) as [H|H].
  - f_equal. apply Z.gtb_lt. apply Z.div_lt_upper_bound; lia.
  - rewrite u64_small by nia. f_equal. rewrite Z.gtb_ltb. apply Z.ltb_ge.
    apply Z.div_le_lower_bound; lia.
Qed.

Record price_ok (s : StateTransition) : Prop := {
  po_limit : is_u64 (m_gasLimit (msg s));
  po_price : is_u64 (gasPrice s);
  po_free : is_u64 (freeGas s);
  po_pool : is_u64 (gp s);
  po_fresh : gas s = 0
}.

Lemma wp_buyGas (Q : unit -> StateTransition -> Prop) F s :
  wf (state s) -> price_ok s ->
  let cost := m_gasLimit (msg s) * gasPrice s in
  let '(paid, bought) := bill s in
  let a := m_from (msg s) in
  (2 ^ 64 <= cost -> F ErrGasPriceOverflow s) ->
  (forall d, moves (state s) d (fun _ => 0) -> balance (state s) a < paid ->
     F (ErrInsufficientBalanceForGas (balance (state s) a) paid) (set_state d s)) ->
  (forall d, moves (state s) d (fun _ => 0) -> gp s < bought -> F ErrGasLimitReached (set_state d s)) ->
  (forall d, cost < 2 ^ 64 -> paid <= balance (state s) a -> bought <= gp s ->
     moves (state s) d (delta a (- paid)) ->
     Q tt (set_state d (set_initialGas bought (set_gas bought (set_gp (gp s - bought) s))))) ->
  wp (buyGas IgnoreAcctCheck) Q F s.
Proof.
  intros W [Hl Hp Hf Hg Hz] cost. destruct (bill s) as [paid bought] eqn:Eb. intros a H1 H2 H3 H4.
  unfold buyGas. apply twp_bind, wp_get. cbv zeta. rewrite SafeMul_spec by done. fold cost.
  destruct (Z.leb_spec (2 ^ 64) cost) as [Ho|Ho]; [apply twp_fail; auto|].
  set (m := if freeGas s >? 0 then _ else _).
  assert (m = (paid, bought) /\ is_u64 bought) as [-> Hb].
  { unfold m, bill in *. fold cost in Eb. cbv zeta in Eb. destruct (freeGas s >? 0).
    - injection Eb as <- <-. split; [|apply u64_range]. destruct (Z.ltb_spec cost (u64 (freeGas s * gasPrice s))) as [|Hge]; [done|].
      pose proof (u64_range (freeGas s * gasPrice s)). rewrite u64_small by lia. done.
    - injection Eb as <- <-. done. }
  cbv iota. apply twp_bind. unfold from. apply twp_bind, wp_get. apply wp_ensure; [done|]. intros d M1.
  pose proof (moves_wf _ _ _ _ M1) as W1. apply twp_bind.
  destruct (GetBalance_moves IgnoreAcctCheck d a W1) as (d2 & E2 & M2).
  eapply wp_on_state; [exact E2|]. pose proof (moves_wf _ _ _ _ M2) as W2.
  assert (balance d a = balance (state s) a) as Ebal by (rewrite (mv_balance _ _ _ _ M1); lia).
  rewrite Ebal. assert (moves (state s) d2 (fun _ => 0)) as M12.
  { eapply moves_ext; [by eapply moves_trans|done]. }
  destruct (Z.ltb_spec (balance (state s) a) paid) as [Hlt|Hge]; [apply twp_fail; by apply H2|].
  unfold SubGas, Word.Uint64. cbn [gp set_state]. rewrite (u64_small (gp s)) by done.
  destruct (Z.ltb_spec (gp s) bought) as [Hgp|Hgp]; [apply twp_fail; by apply H3|].
  apply twp_bind, wp_modify, twp_bind, wp_get, twp_bind, wp_modify, twp_bind, wp_modify, wp_do_state.
  cbn [gas set_gp set_state state msg set_initialGas set_gas]. rewrite Hz, Z.add_0_l, u64_small by done.
  apply (H4 _ Ho Hge Hgp). eapply moves_ext; [eapply moves_trans; [exact M12|by apply moves_SubBalance]|].
  done.
Qed.

(** ** Paying for the transaction itself *)

Lemma wp_useGas n (Q : option State.verr -> StateTransition -> Prop) F s :
  (n <= gas s -> Q None (set_gas (gas s - n) s)) -> (gas s < n -> Q (Some State.ErrOutOfGas) s) ->
  wp (useGas n) Q F s.
Proof.
  intros H1 H2. unfold useGas. apply twp_bind, wp_get. destruct (Z.ltb_spec (gas s) n).
  - by apply twp_ret, H2.
  - by apply twp_bind, wp_modify, twp_ret, H1.
Qed.

Lemma wp_charge_intrinsic b (Q : unit -> StateTransition -> Prop) F s :
  let n := IntrinsicGas (data s) b in
  (n <= gas s -> Q tt (set_gas (gas s - n) s)) -> (gas s < n -> F (ErrVM State.ErrOutOfGas) s) ->
  wp (charge_intrinsic b) Q F s.
Proof.
  intros n H1 H2. unfold charge_intrinsic. apply twp_bind, wp_get, twp_bind, wp_useGas; intros H.
  - by apply twp_ret, H1.
  - by apply twp_fail, H2.
Qed.

(** What an action pays before anything runs. *)
Definition own_gas (a : TxAction) (m : Message) : Z :=
  match a with
  | ActionSCIdleContractDeal => IntrinsicGas (m_Data m) false
  | ActionContractFreeze | ActionTransferPayment =>
      IntrinsicGas (m_Data m) (IsCallCreateContractTx (m_to m) (m_Data m))
  | _ => 0
  end.

Lemma wp_preApply (Q : unit -> StateTransition -> Prop) F s :
  wf (state s) -> price_ok s -> data s = m_Data (msg s) ->
  let cost := m_gasLimit (msg s) * gasPrice s in
  let '(paid, bought) := bill s in
  let a := m_from (msg s) in
  let own := own_gas (action s) (msg s) in
  let after d g := set_state d (set_initialGas bought (set_gas g (set_gp (gp s - bought) s))) in
  (2 ^ 64 <= cost -> F ErrGasPriceOverflow s) ->
  (forall d, moves (state s) d (fun _ => 0) -> balance (state s) a < paid ->
     F (ErrInsufficientBalanceForGas (balance (state s) a) paid) (set_state d s)) ->
  (forall d, moves (state s) d (fun _ => 0) -> gp s < bought -> F ErrGasLimitReached (set_state d s)) ->
  (forall d, moves (state s) d (delta a (- paid)) -> bought < own ->
     F (ErrVM State.ErrOutOfGas) (after d bought)) ->
  (forall d, cost < 2 ^ 64 -> paid <= balance (state s) a -> bought <= gp s -> own <= bought ->
     0 <= bought -> moves (state s) d (delta a (- paid)) -> Q tt (after d (bought - own))) ->
  wp (preApply IgnoreAcctCheck) Q F s.
Proof.
  intros W Hp Hd cost. pose proof (wp_buyGas (fun _ s1 =>
    wp (let! a := get action in
        let! m := get msg in
        match a with
        | ActionSCIdleContractDeal => charge_intrinsic false
        | ActionContractFreeze | ActionTransferPayment =>
            charge_intrinsic (IsCallCreateContractTx (m_to m) (m_Data m))
        | _ => ret tt
        end) Q F s1) F s W Hp) as Hbuy.
  assert (0 <= snd (bill s)) as Hb.
  { unfold bill. destruct (freeGas s >? 0); cbn [snd]; [apply u64_range|apply Hp]. }
  destruct (bill s) as [paid bought]. cbn [snd] in Hb. intros a own after H1 H2 H3 H4 H5.
  unfold preApply, preCheck. apply twp_bind. apply Hbuy; [done..|]. clear Hbuy.
  intros d Hc Hpaid Hg M. apply twp_bind, wp_get, twp_bind, wp_get.
  change (action (set_state _ _)) with (action s). change (msg (set_state _ _)) with (msg s).
  specialize (H4 d M). specialize (H5 d Hc Hpaid Hg).
  assert (forall b, own = IntrinsicGas (data s) b ->
            wp (charge_intrinsic b) Q F (set_state d (set_initialGas bought (set_gas bought (set_gp (gp s - bought) s))))) as Hch.
  { intros b Eo. apply wp_charge_intrinsic; change (data (set_state _ _)) with (data s);
      change (gas (set_state _ _)) with bought; rewrite <- Eo; auto. }
  unfold own, own_gas in *. rewrite <- Hd in *.
  destruct (action s); try (by apply Hch); apply twp_ret; rewrite Z.sub_0_r in H5; apply H5; done || lia.
Qed.

(** ** Paying back *)

Lemma wp_refundGas (Q : unit -> StateTransition -> Prop) F s :
  wf (state s) -> freeGas s = 0 -> is_u64 (initialGas s) -> 0 <= gas s <= initialGas s ->
  0 <= gasPrice s -> 0 <= refund (state s) ->
  (forall d left, gas s <= left <= gas s + (initialGas s - gas s) / 2 ->
     (vm s = None -> left = gas s) ->
     moves (state s) d (delta (m_from (msg s)) (left * gasPrice s)) ->
     Q tt (set_gp (gp s + left) (set_state d (set_gas left s)))) ->
  wp (refundGas IgnoreAcctCheck) Q F s.
Proof.
  intros W Hf Hi Hg Hp Hr H. unfold refundGas. apply twp_bind. unfold from. apply twp_bind, wp_get.
  apply wp_ensure; [done|]. intros d0 M0. apply twp_bind. unfold wp at 1, calcRefundValue.
  set (s0 := match vm (set_state d0 s) with Some _ => _ | None => _ end).
  set (used := initialGas s - gas s).
  assert (exists left, s0 = set_gas left (set_state d0 s) /\
            gas s <= left <= gas s + used / 2 /\ (vm s = None -> left = gas s))
    as (left & E0 & Hl & Hn).
  { pose proof (mv_refund _ _ _ _ M0) as R. unfold s0. cbn [vm set_state].
    assert (0 <= used / 2) as Hh by (apply Z.div_pos; lia).
    assert (used / 2 <= used) as Hh' by (apply Z.div_le_upper_bound; lia).
    destruct (vm s) as [v|] eqn:Ev.
    - destruct (negb (vm_EnableSimulation v)).
      + unfold gasUsed. cbn [gas initialGas set_state state]. fold used.
        rewrite (u64_small used) by (unfold used; lia). unfold GetRefund. rewrite R.
        eexists. split; [done|]. split; [|done]. cbv zeta.
        destruct (Z.gtb_spec (used / 2) (refund (state s))); rewrite u64_small by (unfold used in *; lia); lia.
      + exists (gas s). split; [by destruct s|]. split; [lia|done].
    - exists (gas s). split; [by destruct s|]. split; [lia|done]. }
  rewrite E0. cbn [initialGas freeGas gasPrice set_gas set_state]. rewrite Hf, Z.sub_0_r.
  assert (0 <= used / 2 <= used) as Hu.
  { split; [apply Z.div_pos; lia|apply Z.div_le_upper_bound; lia]. }
  assert (0 <= left <= initialGas s) as Hli by (unfold used in *; lia).
  assert (gasUsed (set_gas left (set_state d0 s)) = initialGas s - left) as ->.
  { unfold gasUsed. cbn [gas initialGas set_gas set_state]. apply u64_small. lia. }
  assert ((if initialGas s - left <=? 0 then u64 (initialGas s) * gasPrice s
           else u64 (u64 (initialGas s) - u64 (initialGas s - left - 0)) * gasPrice s) = left * gasPrice s)
    as ->.
  { rewrite Z.sub_0_r, (u64_small (initialGas s)), (u64_small (initialGas s - left)) by lia.
    destruct (Z.leb_spec (initialGas s - left) 0); [f_equal; lia|]. rewrite u64_small by lia. f_equal. lia. }
  apply twp_bind.
  assert (forall d, moves d0 d (delta (m_from (msg s)) (left * gasPrice s)) ->
    wp (let! g := get gas in let! pool := get gp in modify (set_gp (AddGas g pool))) Q F
       (set_state d (set_gas left s))) as Hend.
  { intros d M. apply twp_bind, wp_get, twp_bind, wp_get, wp_modify. apply H; [done..|].
    eapply moves_ext; [by eapply moves_trans|]. done. }
  destruct (Z.gtb_spec (left * gasPrice s) 0) as [Hv|Hv].
  - apply wp_do_state. cbn [state set_gas set_state].
    apply (Hend (db_AddBalance IgnoreAcctCheck (m_from (msg s)) (left * gasPrice s) d0)).
    apply moves_AddBalance. by eapply moves_wf.
  - apply twp_ret. apply (Hend d0). assert (left * gasPrice s = 0) as -> by nia.
    eapply moves_ext; [apply moves_refl; by eapply moves_wf|]. intros b. unfold delta. by case_decide.
Qed.

(** ** The whole transition *)

(** What running the machine, or a plain transfer, may do to a transition: the
    ledger changes as [R] says, the gas shrinks. *)
Record executed (R : StateDB -> StateDB -> Prop) (s s' : StateTransition) : Prop := {
  ex_frame : exists d g v, s' = set_value v (set_gas g (set_state d s)) /\ 0 <= g <= gas s;
  ex_state : R (state s) (state s');
  ex_wf : wf (state s');
  ex_refund : 0 <= refund (state s')
}.

(** What a finished transition has done: [before] is the ledger the machine
    found, [after] the one it left. *)
Record settled (R : StateDB -> StateDB -> Prop) (s : StateTransition) (r : result_)
    (s' : StateTransition) : Prop := {
  se_used : 0 <= usedGas r <= m_gasLimit (msg s);
  se_pool : gp s' = gp s - usedGas r;
  se_afford : m_gasLimit (msg s) * gasPrice s <= balance (state s) (m_from (msg s));
  se_own : own_gas (action s) (msg s) <= m_gasLimit (msg s) <= gp s;
  se_ledger : exists before after,
    moves (state s) before (delta (m_from (msg s)) (- (m_gasLimit (msg s) * gasPrice s))) /\
    marked before (mc s) (GetTxActionStoreKey (ID (msg s)) (action s)) /\
    R before after /\
    moves after (state s') (delta (m_from (msg s)) ((m_gasLimit (msg s) - usedGas r) * gasPrice s));
  se_plain : vm s = None ->
    usedGas r = own_gas (action s) (msg s) /\ r_failed r = false /\ r_ret r = []
}.

Lemma set_state_id s : set_state (state s) s = s.
Proof. by destruct s. Qed.

Lemma set_state_eta d s : set_state d s = set_value (value s) (set_gas (gas s) (set_state d s)).
Proof. by destruct s. Qed.

Lemma own_gas_nonneg a m : 0 <= own_gas a m.
Proof. unfold own_gas, IntrinsicGas. destruct a; try lia; apply u64_range. Qed.

Lemma wp_count_nonce b (Q : unit -> StateTransition -> Prop) F s :
  wf (state s) -> (b = true -> vm s <> None) ->
  (forall d, moves (state s) d (fun _ => 0) -> Q tt (set_state d s)) ->
  wp (count_nonce IgnoreAcctCheck b) Q F s.
Proof.
  intros W Hv H. unfold count_nonce. apply twp_bind, wp_get, twp_bind.
  assert (forall k : bool, wp (if k then ret tt else
            (let! n := on_state (GetNonce IgnoreAcctCheck (mc s)) in
             do_state (db_SetNonce IgnoreAcctCheck (mc s) (u64 (n + 1))))) Q F s) as Hk.
  { intros [].
    - apply twp_ret. rewrite <- (set_state_id s). apply H. by apply moves_refl.
    - apply twp_bind. destruct (GetNonce_moves IgnoreAcctCheck (state s) (mc s) W) as (n & d & E & M).
      eapply wp_on_state; [exact E|]. apply wp_do_state. cbn [state set_state].
      apply H. eapply moves_ext; [eapply moves_trans; [exact M|]|done].
      apply moves_SetNonce. by eapply moves_wf. }
  destruct (b && negb (bool_decide (mc s = SCAccount))) eqn:Eb; [|apply twp_ret, (Hk false)].
  apply andb_true_iff in Eb as [-> _]. specialize (Hv eq_refl).
  apply twp_bind. unfold need_vm. apply twp_bind, wp_get.
  destruct (vm s); [|done]. apply twp_ret, twp_ret, Hk.
Qed.

Lemma wp_begin b (Q : Address -> StateTransition -> Prop) (F : error -> Prop) s :
  wf (state s) -> price_ok s -> freeGas s = 0 -> data s = m_Data (msg s) -> (b = true -> vm s <> None) ->
  let a := m_from (msg s) in
  let limit := m_gasLimit (msg s) in
  let cost := limit * gasPrice s in
  let own := own_gas (action s) (msg s) in
  (2 ^ 64 <= cost -> F ErrGasPriceOverflow) ->
  (balance (state s) a < cost -> F (ErrInsufficientBalanceForGas (balance (state s) a) cost)) ->
  (gp s < limit -> F ErrGasLimitReached) ->
  (limit < own -> F (ErrVM State.ErrOutOfGas)) ->
  (forall d, cost <= balance (state s) a -> own <= limit <= gp s ->
     moves (state s) d (delta a (- cost)) -> marked d (mc s) (GetTxActionStoreKey (ID (msg s)) (action s)) ->
     Q a (set_state d (set_initialGas limit (set_gas (limit - own) (set_gp (gp s - limit) s))))) ->
  wp (begin IgnoreAcctCheck b) Q (fun e _ => F e) s.
Proof.
  intros W Hp Hf Hd Hb a limit cost own F1 F2 F3 F4 HQ.
  assert (bill s = (cost, limit)) as Eb by (unfold bill; by rewrite Hf).
  unfold begin. apply twp_bind. unfold PreApplayMessage. cbv iota.
  match goal with |- wp _ ?Q ?G s => pose proof (wp_preApply Q G s W Hp Hd) as Hpre end.
  cbv zeta in Hpre. rewrite Eb in Hpre. apply Hpre; clear Hpre; try (by intros; auto).
  intros d Hov Hbal Hpool Hown Hlim M1. pose proof (moves_wf _ _ _ _ M1) as W1.
  apply twp_bind. unfold from. apply twp_bind, wp_get.
  apply wp_ensure; [done|]. intros d2 M2. pose proof (moves_wf _ _ _ _ M2) as W2.
  apply twp_bind, wp_get, twp_bind, wp_do_state.
  cbn [msg set_state set_initialGas set_gas set_gp state mc action].
  destruct (moves_SetState_mark IgnoreAcctCheck d2 (mc s) (GetTxActionStoreKey (ID (msg s)) (action s)) W2)
    as (M3 & Mk).
  change (SetTxActionStateInChain IgnoreAcctCheck (mc s) (ID (msg s)) (action s) d2)
    with (SetState IgnoreAcctCheck (mc s) (GetTxActionStoreKey (ID (msg s)) (action s)) 1 d2).
  set (d3 := SetState _ _ _ _ _) in *. pose proof (moves_wf _ _ _ _ M3) as W3.
  apply twp_bind, wp_count_nonce; [done|exact Hb|]. intros d4 M4. apply twp_ret. cbn [state set_state] in M4.
  apply (HQ d4); try done; [|by apply (mv_marks _ _ _ _ M4)].
  eapply moves_ext; [eapply moves_trans; [exact M1|]; eapply moves_trans; [exact M2|];
    eapply moves_trans; [exact M3|exact M4]|]. intros b'. subst a cost limit. cbn. lia.
Qed.

(** The end of a transition that has [limit] gas, of which [gas s] is left. *)
Lemma wp_conclude out vmerr (Q : result_ -> StateTransition -> Prop) (F : error -> Prop) s :
  wf (state s) -> simulating (vm s) = false -> freeGas s = 0 -> is_u64 (initialGas s) ->
  0 <= gas s <= initialGas s -> 0 <= gasPrice s -> 0 <= refund (state s) ->
  (vm s = None -> vmerr = None) -> (vm s <> None -> forall e, F (ErrVM e)) ->
  (forall d left, 0 <= left <= initialGas s -> (vm s = None -> left = gas s) ->
     moves (state s) d (delta (m_from (msg s)) (left * gasPrice s)) ->
     Q (mkResult out (initialGas s - gas s) (initialGas s - left) (negb (bool_decide (vmerr = None))))
       (set_gp (gp s + left) (set_state d (set_gas left s)))) ->
  wp (conclude IgnoreAcctCheck out vmerr) Q (fun e _ => F e) s.
Proof.
  intros W Hsim Hf Hi Hg Hp Hr Hn HF HQ. unfold conclude. apply twp_bind, wp_get. rewrite Hsim. cbn [negb].
  assert (gasUsed s = initialGas s - gas s) as Eu by (unfold gasUsed; apply u64_small; lia).
  assert (wp (match vmerr with
              | Some e =>
                  need_vm ;;;
                  (if bool_decide (e = State.ErrInsufficientBalance) then fail (ErrVM e) else ret tt)
              | None => ret tt
              end) (fun _ s' => s' = s) (fun e _ => F e) s) as Hfail.
  { destruct vmerr as [e|]; [|by apply twp_ret]. destruct (vm s) as [v|] eqn:Ev; [|by specialize (Hn eq_refl)].
    apply twp_bind. unfold need_vm. apply twp_bind, wp_get. rewrite Ev. apply twp_ret.
    destruct (bool_decide (e = State.ErrInsufficientBalance)); [exact (HF ltac:(done) _)|done]. }
  apply twp_bind. eapply twp_mono; [|intros e ? He; exact He|exact Hfail]. intros _ ? ->.
  apply twp_bind, wp_get, twp_bind. apply wp_refundGas; try done.
  intros d left Hleft Hnv M. apply twp_bind, wp_get, twp_ret. rewrite Eu.
  assert (0 <= (initialGas s - gas s) / 2 <= initialGas s - gas s) as Hh.
  { split; [apply Z.div_pos; lia|apply Z.div_le_upper_bound; lia]. }
  assert (gasUsed (set_gp (gp s + left) (set_state d (set_gas left s))) = initialGas s - left) as ->.
  { unfold gasUsed. cbn [gas initialGas set_gp set_state set_gas]. apply u64_small. lia. }
  apply HQ; [lia|done..].
Qed.

Lemma wp_charge_output out vmerr (Q : option State.verr -> StateTransition -> Prop) F s :
  0 <= gas s ->
  (forall e g, 0 <= g <= gas s -> (out = [] -> e = vmerr /\ g = gas s) -> Q e (set_gas g s)) ->
  wp (charge_output out vmerr) Q F s.
Proof.
  intros Hg H. assert (set_gas (gas s) s = s) as Es by (by destruct s).
  unfold charge_output. destruct vmerr as [e|].
  { apply twp_ret. rewrite <- Es. apply H; [lia|done]. }
  destruct out as [|x out]; cbn [length Nat.ltb Nat.leb]; [apply twp_ret; rewrite <- Es; apply H; [lia|done]|].
  assert (0 <= getGasByData (x :: out)) by apply u64_range.
  apply wp_useGas; intros Hle; [apply H; [lia|done]|]. rewrite <- Es. apply H; [lia|done].
Qed.

Lemma wp_TransitionDb R (F : error -> Prop) s :
  wf (state s) -> price_ok s -> freeGas s = 0 -> data s = m_Data (msg s) ->
  0 <= refund (state s) ->
  let a := m_from (msg s) in
  let cost := m_gasLimit (msg s) * gasPrice s in
  let creation := IsCallCreateContractTx (m_to (msg s)) (m_Data (msg s)) in
  (creation = true -> vm s <> None) -> simulating (vm s) = false ->
  (forall s1, wf (state s1) -> 0 <= gas s1 -> vm s1 = vm s -> msg s1 = msg s -> value s1 = value s ->
     data s1 = data s -> mc s1 = mc s -> gas s1 <= m_gasLimit (msg s) -> refund (state s1) = refund (state s) ->
     moves (state s) (state s1) (delta a (- cost)) ->
     wp (execute IgnoreAcctCheck creation a)
        (fun r s2 => executed R s1 s2 /\ (vm s = None -> r = ([], None) /\ gas s2 = gas s1))
        (fun e _ => F e) s1) ->
  (2 ^ 64 <= cost -> F ErrGasPriceOverflow) ->
  (balance (state s) a < cost -> F (ErrInsufficientBalanceForGas (balance (state s) a) cost)) ->
  (gp s < m_gasLimit (msg s) -> F ErrGasLimitReached) ->
  (m_gasLimit (msg s) < own_gas (action s) (msg s) -> F (ErrVM State.ErrOutOfGas)) ->
  (vm s <> None -> forall e, F (ErrVM e)) ->
  wp (TransitionDb IgnoreAcctCheck) (settled R s) (fun e _ => F e) s.
Proof.
  intros W Hp Hf Hd Hr a cost creation Hc Hsim Hex F1 F2 F3 F4 F5.
  unfold TransitionDb. apply twp_bind, wp_get. cbv zeta. fold creation.
  apply twp_bind, wp_begin; [done..|]. fold a cost. intros d Hbal Hown M Mk.
  set (s1 := set_state d _). set (own := own_gas (action s) (msg s)) in *.
  pose proof (own_gas_nonneg (action s) (msg s)) as Hon. fold own in Hon.
  assert (gas s1 = m_gasLimit (msg s) - own) as Eg by done. pose proof (moves_wf _ _ _ _ M) as W1.
  apply twp_bind.
  eapply twp_mono; [|intros e ? He; exact He|apply (Hex s1); try done; rewrite ?Eg; try lia;
    apply (mv_refund _ _ _ _ M)].
  intros [out vmerr] s2 [[(d2 & g2 & v2 & E2 & Hg2) HR W2 Hr2] Hplain]. rewrite Eg in Hg2, Hplain.
  assert (gas s2 = g2) as Eg2 by (by rewrite E2).
  apply twp_bind, wp_charge_output; [lia|]. intros e g Hg Hout.
  pose proof (po_limit _ Hp) as Hlu. pose proof (po_price _ Hp) as Hpu.
  assert (vm s2 = vm s /\ freeGas s2 = 0 /\ initialGas s2 = m_gasLimit (msg s) /\
          gasPrice s2 = gasPrice s /\ msg s2 = msg s /\ gp s2 = gp s - m_gasLimit (msg s))
    as (Ev & Ef & Ei & Ep & Em & Egp) by (rewrite E2; by split_and!).
  apply wp_conclude; cbn [state vm freeGas initialGas gas gasPrice msg gp set_gas];
    rewrite ?Ev, ?Ef, ?Ei, ?Ep, ?Em, ?Egp; try done; try lia.
  - intros Hv. destruct (Hplain Hv) as [[= -> ->] _]. by destruct (Hout eq_refl).
  - fold a. intros d3 left Hleft Hn M3. split; cbn [usedGas r_failed r_ret]; [lia| |done|lia| |].
    + cbn [gp set_gp]. lia.
    + exists d, (state s2). split_and!; [exact M|exact Mk|exact HR|].
      replace (m_gasLimit (msg s) - (m_gasLimit (msg s) - left)) with left by lia. exact M3.
    + intros Hv. destruct (Hplain Hv) as [[= -> ->] Hgas]. destruct (Hout eq_refl) as [-> ->].
      rewrite (Hn Hv). split_and!; [|done|done]. fold own. lia.
Qed.

(** ** A plain transfer *)

Lemma wp_execute_transfer (F : error -> Prop) s :
  wf (state s) -> 0 <= refund (state s) -> 0 <= gas s -> value s = m_Value (msg s) ->
  Address.IsContract (m_to (msg s)) = false ->
  let a := m_from (msg s) in
  (balance (state s) a < value s -> F (ErrVM State.ErrInsufficientBalance)) ->
  wp (execute IgnoreAcctCheck false a)
     (fun r s2 => executed (fun before after => value s <= balance before a /\
                    moves before after (fun b => delta a (- value s) b + delta (m_to (msg s)) (value s) b)) s s2 /\
                  r = ([], None) /\ gas s2 = gas s)
     (fun e _ => F e) s.
Proof.
  intros W Hr Hg Ev Hc a HF. unfold execute. apply twp_bind, wp_get. cbv iota. rewrite Hc.
  rewrite <- Ev. apply twp_bind.
  destruct (CanTransfer_moves IgnoreAcctCheck (state s) a (value s) W) as (d & E & M).
  eapply wp_on_state; [exact E|]. rewrite Z.geb_leb. destruct (Z.leb_spec (value s) (balance (state s) a)).
  2: { by apply twp_fail, HF. }
  cbn [negb]. apply twp_bind. unfold to. apply twp_bind, wp_get.
  apply wp_ensure; [by eapply moves_wf|]. intros d2 M2. cbn [state set_state] in M2.
  apply twp_bind, wp_do_state, twp_ret. cbn [state set_state msg].
  assert (moves (state s) d2 (fun _ => 0)) as M12.
  { eapply moves_ext; [by eapply moves_trans|done]. }
  assert (moves (state s) (Transfer IgnoreAcctCheck a (m_to (msg s)) (value s) d2)
            (fun b => delta a (- value s) b + delta (m_to (msg s)) (value s) b)) as M3.
  { eapply moves_ext; [eapply moves_trans; [exact M12|]|]; [|intros b; reflexivity].
    apply moves_Transfer. by eapply moves_wf. }
  split; [|done]. split; cbn [state set_state].
  - eexists _, (gas s), (value s). split; [exact (set_state_eta _ s)|lia].
  - done.
  - by eapply moves_wf.
  - by rewrite (mv_refund _ _ _ _ M3).
Qed.

(** What a payment costs and where the money goes. *)
Definition paid_out (m : Message) (b : Address) : Z :=
  let cost := own_gas ActionTransferPayment m * m_GasPrice m in
  delta (m_from m) (- (m_Value m + cost)) b + delta (m_to m) (m_Value m) b.

(** Why a payment is refused. *)
Definition payment_refused (d : StateDB) (m : Message) (pool : Z) (e : error) : Prop :=
  let cost := m_gasLimit m * m_GasPrice m in
  match e with
  | ErrGasPriceOverflow => 2 ^ 64 <= cost
  | ErrInsufficientBalanceForGas b c => b = balance d (m_from m) /\ c = cost /\ b < c
  | ErrGasLimitReached => pool < m_gasLimit m
  | ErrVM State.ErrOutOfGas => m_gasLimit m < own_gas ActionTransferPayment m
  | ErrVM State.ErrInsufficientBalance => balance d (m_from m) - cost < m_Value m
  | _ => False
  end.

Lemma ApplyMessage_payment d m pool chain :
  wf d -> 0 <= refund d -> is_u64 (m_gasLimit m) -> is_u64 (m_GasPrice m) -> is_u64 pool ->
  Address.IsContract (m_to m) = false -> IsCallCreateContractTx (m_to m) (m_Data m) = false ->
  match ApplyMessage IgnoreAcctCheck None d ActionTransferPayment m pool chain with
  | Done (out, used, failed) (pool', d') =>
      out = [] /\ failed = false /\ used = own_gas ActionTransferPayment m /\
      0 <= used <= m_gasLimit m /\ pool' = pool - used /\ moves d d' (paid_out m) /\
      marked d' chain (GetTxActionStoreKey (ID m) ActionTransferPayment) /\
      m_Value m <= balance d (m_from m) - m_gasLimit m * m_GasPrice m /\
      m_gasLimit m * m_GasPrice m <= balance d (m_from m) /\ m_gasLimit m <= pool
  | Failed e _ => payment_refused d m pool e
  | Panicked => False
  end.
Proof.
  intros W Hr Hl Hp Hpool Hc Hcr. unfold ApplyMessage, NewStateTransition.
  set (s := mkST pool m ActionTransferPayment 0 (m_GasPrice m) 0 0 (m_Value m) (m_Data m) d None chain).
  set (cost := m_gasLimit m * m_GasPrice m).
  pose proof (wp_TransitionDb (fun before after => m_Value m <= balance before (m_from m) /\
      moves before after (fun b => delta (m_from m) (- m_Value m) b + delta (m_to m) (m_Value m) b))
      (payment_refused d m pool) s W) as H.
  assert (wp (TransitionDb IgnoreAcctCheck)
            (settled (fun before after => m_Value m <= balance before (m_from m) /\
               moves before after (fun b => delta (m_from m) (- m_Value m) b + delta (m_to m) (m_Value m) b)) s)
            (fun e _ => payment_refused d m pool e) s) as Hwp.
  { apply H; clear H; cbn [state freeGas data msg s m_gasLimit gasPrice gp action vm]; try done; try lia.
    - by rewrite Hcr.
    - rewrite Hcr. intros s1 W1 Hg1 Ev Em Evl Ed Emc Hgl Hr1 M1. cbn [value s] in Evl.
      pose proof (wp_execute_transfer (payment_refused d m pool) s1 W1) as Hx. rewrite Em, Evl in Hx.
      eapply twp_mono; [|intros e ? He; exact He|apply Hx; try done].
      + by intros r s2 (Hex & Hr2 & Hg2).
      + by rewrite Hr1.
      + rewrite (mv_balance _ _ _ _ M1). unfold payment_refused, delta. rewrite decide_True by done.
        fold cost. lia.
  }
  clear H. unfold wp in Hwp. destruct (TransitionDb IgnoreAcctCheck s) as [r s'|e s'|]; [|done..].
  destruct Hwp as [Hu Hgp Ha Ho (before & after & M1 & Mk & [Hv M2] & M3) Hpl].
  destruct (Hpl eq_refl) as (Eu & -> & ->).
  cbn [msg s m_gasLimit gasPrice gp action mc state] in *. fold cost in Ha, M1 |- *.
  assert (m_Value m <= balance d (m_from m) - cost) as Hval.
  { rewrite (mv_balance _ _ _ _ M1) in Hv. unfold delta in Hv. rewrite decide_True in Hv by done. lia. }
  split_and!; try done; try lia.
  - eapply moves_ext; [eapply moves_trans; [exact M1|]; eapply moves_trans; [exact M2|exact M3]|].
    intros b. unfold paid_out, delta. rewrite <- Eu. unfold cost. repeat case_decide; lia.
  - apply (mv_marks _ _ _ _ M3), (mv_marks _ _ _ _ M2), Mk.
Qed.

End Settle.

End Settle.
