(* ===== verification/TxChains.v ===== *)
(** The handlers of a unit's transactions on the ledger: what each shows of the
    accounts, and the mark it leaves. *)
From S2P Require Import Prelude Bech32 Address EvmWord EvmAnalysis EvmState EvmSafe StateDb Ovm StateView StateRevert Bloom TxTransition TxProcess TxLedger TxSettle.

Import Db Ovm View Revert Transition Process Ledger Settle.

Module Chains.

Section Chains.
Context {P : Params} {B : Backing} {K : State.Crypto} {KO : Safe.CryptoOk K} {C : TxCodec}.
Context (IgnoreAcctCheck : bool).
Context (size_of_code : forall p a h,
  fst (ContractCodeSize p a h) =
  match ContractCode p a h with Ok c => Z.of_nat (length c) | Err _ => 0 end).

Local Abbreviation wf := (wf IgnoreAcctCheck).
Local Abbreviation balance := (balance IgnoreAcctCheck).
Local Abbreviation marked := (marked IgnoreAcctCheck).
Local Abbreviation moves := (moves IgnoreAcctCheck).
Local Abbreviation M := (M Work).

(** ** Steps on the shared state *)

Lemma wp_on_db {A} (f : StateDB -> A * StateDB) (Q : A -> Work -> Prop) F w a d :
  f (w_db w) = (a, d) -> Q a (set_w_db d w) -> wp (on_db f) Q F w.
Proof. intros E H. unfold wp, on_db. by rewrite E. Qed.

Lemma wp_do_db (f : StateDB -> StateDB) (Q : unit -> Work -> Prop) F w :
  Q tt (set_w_db (f (w_db w)) w) -> wp (do_db f) Q F w.
Proof. done. Qed.

Lemma wp_try {S A} (r : result error A) (Q : A -> S -> Prop) F s :
  (forall a, r = Ok a -> Q a s) -> (forall e, r = Err e -> F e s) -> wp (try r) Q F s.
Proof. destruct r; cbn; auto. Qed.

(** The slot in which a chain marks an action; it is empty while it holds zero. *)
Definition mark_slot (s : StateDB) (chain : Address) (k : Hash) : Z := fst (GetState IgnoreAcctCheck chain k s).

(** An action that is marked is refused. *)
Lemma wp_check_action chain txID a (Q : unit -> Work -> Prop) F w :
  wf (w_db w) ->
  (forall d, moves (w_db w) d (fun _ => 0) ->
     ~ marked (w_db w) chain (GetTxActionStoreKey txID a) -> Q tt (set_w_db d w)) ->
  (forall d, moves (w_db w) d (fun _ => 0) -> mark_slot (w_db w) chain (GetTxActionStoreKey txID a) <> 0 ->
     F ErrRepeatTransaction (set_w_db d w)) ->
  wp (check_action IgnoreAcctCheck chain txID a) Q F w.
Proof.
  intros W H1 H2. unfold check_action, CheckTxActionInChain. apply twp_bind.
  destruct (GetState_moves IgnoreAcctCheck (w_db w) chain (GetTxActionStoreKey txID a) W)
    as (v & d & E & Mv & Hm).
  eapply (wp_on_db _ _ _ _ (if negb (v =? 0) then Some ErrRepeatTransaction else None) d); [by rewrite E|].
  destruct (Z.eqb_spec v 0) as [->|N]; cbn [negb].
  - apply twp_ret, H1; [done|]. intros Hk. by specialize (Hm Hk).
  - apply twp_fail, H2; [done|]. unfold mark_slot. by rewrite E.
Qed.

Lemma wp_mark_action chain txID a (Q : unit -> Work -> Prop) F w :
  wf (w_db w) ->
  (forall d, moves (w_db w) d (fun _ => 0) -> marked d chain (GetTxActionStoreKey txID a) ->
     Q tt (set_w_db d w)) ->
  wp (mark_action IgnoreAcctCheck chain txID a) Q F w.
Proof.
  intros W H. unfold mark_action. apply wp_do_db.
  destruct (moves_SetState_mark IgnoreAcctCheck (w_db w) chain (GetTxActionStoreKey txID a) W) as [Mv Mk].
  by apply H.
Qed.

Lemma wp_next_nonce a (Q : unit -> Work -> Prop) F w :
  wf (w_db w) -> (forall d, moves (w_db w) d (fun _ => 0) -> Q tt (set_w_db d w)) ->
  wp (next_nonce IgnoreAcctCheck a) Q F w.
Proof.
  intros W H. unfold next_nonce. apply twp_bind.
  destruct (GetNonce_moves IgnoreAcctCheck (w_db w) a W) as (n & d & E & M1).
  eapply wp_on_db; [exact E|]. apply wp_do_db. cbn [w_db set_w_db]. apply H.
  eapply moves_ext; [eapply moves_trans; [exact M1|]|done]. apply moves_SetNonce. by eapply moves_wf.
Qed.

(** ** Receipts *)

(** What writing a receipt shows: nothing, but for the pruning of other chains'
    accounts on the first unit of a chain. *)
Definition pruned (h : Header) (s t : StateDB) : Prop :=
  exists e, moves s t e /\ e (MC h) = 0 /\ (Number h <> 1 -> forall b, e b = 0).

Lemma pruned_moves h s t : moves s t (fun _ => 0) -> pruned h s t.
Proof. intros M1. by exists (fun _ => 0). Qed.

Lemma pruned_trans h s t u : pruned h s t -> pruned h t u -> pruned h s u.
Proof.
  intros (e & M1 & E1 & Z1) (f & M2 & E2 & Z2). exists (fun b => e b + f b).
  split_and!; [by eapply moves_trans|lia|]. intros N b. rewrite Z1, Z2 by done. lia.
Qed.

Lemma prune_other_moves s chain a :
  wf s -> exists e, moves s (prune_other IgnoreAcctCheck chain a s) e /\ e chain = 0.
Proof.
  intros W. unfold prune_other.
  destruct (GetOrNewStateObject_shows IgnoreAcctCheck s a W) as (s1 & o & -> & S1 & L & Sh & _).
  assert (moves s s1 (fun _ => 0)) as M1.
  { eapply moves_ext; [by eapply moves_shows|]. intros b. unfold delta. case_decide; lia. }
  pose proof (moves_wf _ _ _ _ M1) as W1. pose proof (live_address _ _ _ _ (wf_keyed _ _ W1) L) as Ha.
  unfold OnChain. rewrite Ha. case_bool_decide as Hc; cbn [negb]; [by exists (fun _ => 0)|].
  destruct (negb _); [|by exists (fun _ => 0)].
  destruct (moves_Suicide IgnoreAcctCheck s1 a W1) as [n M2].
  exists (fun b => 0 + delta a n b). split; [by eapply moves_trans|].
  unfold delta. by rewrite decide_False.
Qed.

Lemma prune_others_moves s c chain :
  wf s -> exists e, moves s (prune_others IgnoreAcctCheck c chain s) e /\ e chain = 0.
Proof.
  unfold prune_others. generalize (trie_Keys c (db_trie s)). intros l. revert s.
  induction l as [|k l IH]; intros s W; cbn [foldl].
  - exists (fun _ => 0). split; [by apply moves_refl|done].
  - destruct (prune_other_moves s chain (Address.BytesToAddress k) W) as (e & M1 & E1).
    destruct (IH _ (moves_wf _ _ _ _ M1)) as (f & M2 & E2).
    exists (fun b => e b + f b). split; [by eapply moves_trans|lia].
Qed.

Lemma collect_flows_moves keep l s :
  wf s -> moves s (snd (collect_flows IgnoreAcctCheck keep l s)) (fun _ => 0).
Proof.
  revert s. induction l as [|v l IH]; intros s W; cbn [collect_flows]; [by apply moves_refl|].
  destruct (reported keep v); cbn [negb]; [|by apply IH].
  set (p := if Address.IsContract (bj_Address v) then _ else _).
  assert (moves s (snd p) (fun _ => 0)) as M1.
  { unfold p. destruct (Address.IsContract _); [|by apply moves_refl].
    destruct (GetCodeHash_moves IgnoreAcctCheck s (bj_Address v) W) as (x & d & -> & Mv). done. }
  destruct p as [b d]. cbn [snd] in M1. pose proof (IH d (moves_wf _ _ _ _ M1)) as M2.
  destruct (collect_flows IgnoreAcctCheck keep l d) as [rest d2]. cbn [snd] in M2 |- *.
  eapply moves_ext; [by eapply moves_trans|done].
Qed.

(** A receipt says what its arguments say. *)
Record receipt_says (r : Receipt) (preStep : UnitID) (txHash : Hash) (action : TxAction)
    (output : bytes) (failed : bool) (remaining used total : Z) : Prop := {
  rs_failed : Failed_ r = failed;
  rs_used : GasUsed r = used;
  rs_remaining : GasRemaining r = Word.ForceSafeSub remaining used;
  rs_total : CumulativeGasUsed r = total;
  rs_action : rc_Action r = action;
  rs_step : rc_PreStep r = preStep;
  rs_tx : rc_TxHash r = txHash;
  rs_output : Output r = if negb failed then output else [];
  rs_bloom : Bloom.CreateBloom [rc_Logs r] = Some (rc_Bloom r)
}.

Lemma wp_createReceipt c preStep h txHash action output failed remaining used keep
    (Q : Receipt -> Work -> Prop) F w :
  wf (w_db w) ->
  (forall r d, pruned h (w_db w) d ->
     receipt_says r preStep txHash action output failed remaining used (w_total w + used) ->
     Q r (mkWork (w_gp w) (w_total w + used) d)) ->
  wp (createReceipt IgnoreAcctCheck c preStep h txHash action output failed remaining used keep) Q F w.
Proof.
  intros W H. unfold createReceipt. apply twp_bind.
  pose proof (moves_GetBalanceChanged IgnoreAcctCheck (w_db w) W) as M1.
  destruct (GetBalanceChanged (w_db w)) as [flows d1] eqn:E1. cbn [snd] in M1.
  eapply wp_on_db; [exact E1|]. pose proof (moves_wf _ _ _ _ M1) as W1.
  assert (forall coinflows w2, w_gp w2 = w_gp w -> w_total w2 = w_total w -> pruned h (w_db w) (w_db w2) ->
    wp (modify (fun w => set_w_total (w_total w + used) w) ;;;
        let! total := get w_total in
        let! d := get w_db in
        match Bloom.CreateBloom [GetLogs txHash d] with
        | None => panic
        | Some bloom =>
            ret (mkReceipt failed total bloom (GetLogs txHash d) action preStep txHash
                   (Word.ForceSafeSub remaining used) used coinflows
                   (if negb failed then output else []))
        end) Q F w2) as Hend.
  { intros flows2 w2 Eg Et Mp. apply twp_bind, wp_modify, twp_bind, wp_get, twp_bind, wp_get.
    cbn [w_total set_w_total w_db]. destruct (Bloom.CreateBloom_spec [GetLogs txHash (w_db w2)]) as (b & Eb & _).
    rewrite Eb. apply twp_ret. unfold set_w_total. rewrite Eg, Et. by apply H. }
  apply twp_bind. destruct failed; cbn [negb].
  { apply twp_ret. apply Hend; [done..|by apply pruned_moves]. }
  assert (forall d, pruned h d1 d -> pruned h (w_db w) d) as Hto.
  { intros d Hd. eapply pruned_trans; [by apply pruned_moves|done]. }
  apply twp_bind. destruct (Z.eqb_spec (Number h) 1) as [N|N].
  - apply wp_do_db. cbn [w_db set_w_db].
    destruct (prune_others_moves d1 c (MC h) W1) as (e & M2 & E2).
    set (d2 := prune_others _ _ _ _) in *. pose proof (moves_wf _ _ _ _ M2) as W2.
    pose proof (collect_flows_moves keep flows d2 W2) as M3.
    destruct (collect_flows IgnoreAcctCheck keep flows d2) as [fs d3] eqn:E3.
    eapply wp_on_db; [exact E3|]. apply Hend; [done..|]. cbn [w_db set_w_db]. apply Hto.
    eapply pruned_trans; [by exists e|by apply pruned_moves].
  - apply twp_ret. cbn [w_db set_w_db].
    pose proof (collect_flows_moves keep flows d1 W1) as M3.
    destruct (collect_flows IgnoreAcctCheck keep flows d1) as [fs d3] eqn:E3.
    eapply wp_on_db; [exact E3|]. apply Hend; [done..|]. cbn [w_db set_w_db]. apply Hto.
    by apply pruned_moves.
Qed.

(** ** A payment *)

(** The message a handler works on. *)
Definition the_message (msg : option Message) (t : Transaction) (gasLimit : Z) : result error Message :=
  match msg with Some m => Ok m | None => AsMessage t gasLimit end.

Lemma AsMessage_fields t limit m :
  AsMessage t limit = Ok m ->
  m_tx m = t /\ m_gasLimit m = limit /\ m_GasPrice m = tx_Price t /\ m_Value m = tx_Amount t /\
  Sender t = Ok (m_from m).
Proof. unfold AsMessage. destruct (Sender t); [|done]. by intros [= <-]. Qed.

Lemma wp_tx_message msg t gasLimit (Q : Message -> Work -> Prop) F w :
  (forall m, the_message msg t gasLimit = Ok m -> Q m w) ->
  (forall e, the_message msg t gasLimit = Err e -> F e w) ->
  wp (tx_message msg t gasLimit) Q F w.
Proof.
  unfold tx_message, the_message. intros H1 H2.
  destruct msg as [m|]; [by apply twp_ret, H1|by apply wp_try].
Qed.

(** What a finished payment has done to the ledger, the pool and the receipt. *)
Record paid (h : Header) (t : Transaction) (m : Message) (w : Work) (r : Receipt) (w' : Work) : Prop := {
  pd_fresh : ~ marked (w_db w) (MC h) (GetTxActionStoreKey (ID m) ActionTransferPayment);
  pd_marked : marked (w_db w') (MC h) (GetTxActionStoreKey (ID m) ActionTransferPayment);
  pd_receiver : Address.IsContract (m_to m) = false;
  pd_gas : own_gas ActionTransferPayment m <= m_gasLimit m <= w_gp w;
  pd_afford : m_gasLimit m * m_GasPrice m + m_Value m <= balance (w_db w) (m_from m);
  pd_pool : w_gp w' = w_gp w - own_gas ActionTransferPayment m;
  pd_total : w_total w' = w_total w + own_gas ActionTransferPayment m;
  pd_home : balance (w_db w') (MC h) = balance (w_db w) (MC h) + paid_out m (MC h);
  pd_ledger : Number h <> 1 -> forall b, balance (w_db w') b = balance (w_db w) b + paid_out m b;
  pd_receipt : receipt_says r noUnit (tx_Hash t) ActionTransferPayment [] false (tx_GasLimit t)
                 (own_gas ActionTransferPayment m) (w_total w')
}.

Definition refusal (h : Header) (m : Message) (w : Work) (e : error) : Prop :=
  match e with
  | ErrPaymentToContract => Address.IsContract (m_to m) = true
  | ErrRepeatTransaction => mark_slot (w_db w) (MC h) (GetTxActionStoreKey (ID m) ActionTransferPayment) <> 0
  | _ => payment_refused IgnoreAcctCheck (w_db w) m (w_gp w) e
  end.

Lemma not_creation m :
  Address.IsContract SCAccount = true -> Address.IsContract (m_to m) = false ->
  IsCallCreateContractTx (m_to m) (m_Data m) = false.
Proof.
  intros Hsc Hc. unfold IsCallCreateContractTx. rewrite bool_decide_eq_false_2; [done|congruence].
Qed.

(** C13: a payment does exactly what it says.  For a well-formed state and
    machine-width price, gas limit and pool, [ApplyPayment] never panics.  When
    it succeeds, the action was not marked and now is; the receiver is no
    contract; the sender could afford the whole gas limit and the amount, and
    paid the amount and the transaction's own gas at its price and not a coin
    more, the receiver got the amount, and no other account changed, except in
    the first unit of a chain, whose receipts drop the accounts of other chains
    (there the chain's own account is shown to be exact); the pool lost and the
    total gained exactly the used gas, and the receipt says so.  When it fails,
    the error names a condition that holds; for a repeated transaction, that the
    slot of its mark is not empty. *)
Theorem payment_exact c h t msg w :
  Address.IsContract SCAccount = true -> wf (w_db w) -> 0 <= refund (w_db w) -> is_u64 (w_gp w) ->
  (forall m, the_message msg t (tx_GasLimit t) = Ok m -> is_u64 (m_gasLimit m) /\ is_u64 (m_GasPrice m)) ->
  match ApplyPayment IgnoreAcctCheck c h t msg w with
  | Done r w' => exists m, the_message msg t (tx_GasLimit t) = Ok m /\ paid h t m w r w'
  | Failed e _ => match the_message msg t (tx_GasLimit t) with
                  | Err e' => e = e'
                  | Ok m => refusal h m w e
                  end
  | Panicked => False
  end.
Proof.
  intros Hsc W Hr Hg Hm.
  change (wp (ApplyPayment IgnoreAcctCheck c h t msg)
    (fun r w' => exists m, the_message msg t (tx_GasLimit t) = Ok m /\ paid h t m w r w')
    (fun e _ => match the_message msg t (tx_GasLimit t) with Err e' => e = e' | Ok m => refusal h m w e end) w).
  unfold ApplyPayment. apply twp_bind, wp_tx_message; [|by intros e ->].
  intros m Em. rewrite Em. destruct (Hm m Em) as [Hl Hp]. apply twp_bind, wp_guard; intros Hc.
  2: { by apply negb_false_iff in Hc. }
  apply negb_true_iff in Hc. apply twp_bind, wp_check_action; [done| |by intros].
  intros d M1 Hfresh. pose proof (moves_wf _ _ _ _ M1) as W1. apply twp_bind. unfold wp at 1, apply_message.
  cbn [w_db w_gp w_total set_w_db].
  pose proof (ApplyMessage_payment IgnoreAcctCheck d m (w_gp w) (MC h) W1) as H.
  rewrite (mv_refund _ _ _ _ M1) in H. specialize (H Hr Hl Hp Hg Hc (not_creation m Hsc Hc)).
  assert (forall b, balance d b = balance (w_db w) b) as Eb by (intros b; rewrite (mv_balance _ _ _ _ M1); lia).
  destruct (ApplyMessage _ _ _ _ _ _ _) as [[[out used] failed] [pool d2]|e [pool d2]|]; [| |done].
  - destruct H as (-> & -> & -> & Hu & -> & M2 & Mk & Hv & Ha & Hlim). rewrite Eb in Hv, Ha.
    pose proof (moves_wf _ _ _ _ M2) as W2.
    apply wp_createReceipt; [done|]. cbn [w_db w_gp w_total]. intros r d3 (e & M3 & E3 & Z3) Hrc.
    exists m. split; [done|]. split; cbn [w_db w_gp w_total]; try done; try lia.
    + by apply (mv_marks _ _ _ _ M3).
    + rewrite (mv_balance _ _ _ _ M3), (mv_balance _ _ _ _ M2), Eb. lia.
    + intros N b. rewrite (mv_balance _ _ _ _ M3), (mv_balance _ _ _ _ M2), Eb, Z3 by done. lia.
  - unfold refusal, payment_refused in *. by destruct e; rewrite ?Eb in H.
Qed.

End Chains.

End Chains.
