(* ===== verification/TxSafe.v ===== *)
(** What a transaction cannot do, whatever it does: the interface the machine
    promises, and the transition over it.  A transition keeps the account state
    well formed, the snapshots and the protected marks, and takes no less gas
    from the pool than it reports, on success and on failure alike. *)
From S2P Require Import Prelude Bech32 Address EvmWord EvmAnalysis EvmState EvmSafe StateDb Ovm StateView StateRevert Bloom TxTransition TxLedger TxSettle.

Import Db Ovm View Revert Transition Ledger Settle.

Module Safely.

(** ** Partial correctness: a panic ends the program *)

Section Pwp.
Context {S : Type}.

Definition pwp {A} (m : M S A) (Q : A -> S -> Prop) (F : error -> S -> Prop) (s : S) : Prop :=
  match m s with Done a s' => Q a s' | Failed e s' => F e s' | Panicked => True end.

Lemma pwp_wp {A} (m : M S A) Q F s : wp m Q F s -> pwp m Q F s.
Proof. unfold wp, pwp. by destruct (m s). Qed.
Lemma pwp_ret {A} (a : A) (Q : A -> S -> Prop) F s : Q a s -> pwp (ret a) Q F s.
Proof. done. Qed.
Lemma pwp_fail {A} e (Q : A -> S -> Prop) (F : error -> S -> Prop) s : F e s -> pwp (fail e) Q F s.
Proof. done. Qed.
Lemma pwp_panic {A} (Q : A -> S -> Prop) F s : pwp panic Q F s.
Proof. done. Qed.
Lemma pwp_bind {A A'} (m : M S A) (k : A -> M S A') Q F s :
  pwp m (fun a s' => pwp (k a) Q F s') F s -> pwp (bind m k) Q F s.
Proof. unfold pwp, bind. by destruct (m s). Qed.
Lemma pwp_get {A} (f : S -> A) (Q : A -> S -> Prop) F s : Q (f s) s -> pwp (get f) Q F s.
Proof. done. Qed.
Lemma pwp_modify (f : S -> S) (Q : unit -> S -> Prop) F s : Q tt (f s) -> pwp (modify f) Q F s.
Proof. done. Qed.
Lemma pwp_guard b e (Q : unit -> S -> Prop) (F : error -> S -> Prop) s :
  (b = true -> Q tt s) -> (b = false -> F e s) -> pwp (guard b e) Q F s.
Proof. destruct b; cbn; auto. Qed.
Lemma pwp_try {A} (r : result error A) (Q : A -> S -> Prop) (F : error -> S -> Prop) s :
  (forall a, r = Ok a -> Q a s) -> (forall e, r = Err e -> F e s) -> pwp (try r) Q F s.
Proof. destruct r; cbn; auto. Qed.
Lemma pwp_mono {A} (m : M S A) (Q Q' : A -> S -> Prop) (F F' : error -> S -> Prop) s :
  (forall a s', Q a s' -> Q' a s') -> (forall e s', F e s' -> F' e s') -> pwp m Q F s -> pwp m Q' F' s.
Proof. unfold pwp. destruct (m s); auto. Qed.

End Pwp.

Section Safely.
Context {P : Params} {B : Backing} {K : State.Crypto} {KO : Safe.CryptoOk K} {C : TxCodec}.
Context (IgnoreAcctCheck : bool).

Local Abbreviation wf := (wf IgnoreAcctCheck).
Local Abbreviation keeps := (keeps IgnoreAcctCheck).
Local Abbreviation marked := (marked IgnoreAcctCheck).
Local Abbreviation moves := (moves IgnoreAcctCheck).

(** The slots whose marks nobody is to take away. *)
Context (protected : Address -> Hash -> Prop).

(** ** Safe changes of the account state *)

Record safe (s t : StateDB) : Prop := {
  sa_keeps : keeps s t;
  sa_refund : 0 <= refund s -> 0 <= refund t;
  sa_marks a k : protected a k -> marked s a k -> marked t a k
}.

Lemma safe_wf s t : safe s t -> wf t.
Proof. intros S. apply S. Qed.

Lemma safe_refl s : wf s -> safe s s.
Proof. intros W. split; [by apply snapshots_keep_refl|done..]. Qed.

Lemma safe_trans s t u : safe s t -> safe t u -> safe s u.
Proof.
  intros S T. split; [eapply snapshots_keep_trans; [apply S|apply T]| |].
  - intros H. by apply T, S.
  - intros a k Hp H. apply T; [done|]. by apply S.
Qed.

Lemma safe_moves s t d : moves s t d -> safe s t.
Proof.
  intros M1. split; [apply M1|by rewrite (mv_refund _ _ _ _ M1)|]. intros a k _. apply M1.
Qed.

Lemma safe_then s t u d : safe s t -> moves t u d -> safe s u.
Proof. intros S M1. eapply safe_trans; [done|by eapply safe_moves]. Qed.

(** Checking first and taking everything back afterwards. *)
Lemma safe_revert s t :
  wf s -> safe (snd (Snapshot s)) t ->
  exists u, RevertToSnapshot IgnoreAcctCheck (fst (Snapshot s)) t = Some u /\
            safe s u /\ answers_alike IgnoreAcctCheck u s.
Proof.
  intros W S. pose proof (Snapshot_keeps IgnoreAcctCheck s W) as K1.
  destruct (revert_newest IgnoreAcctCheck s W) as (t0 & E0 & A0).
  destruct (kp_revert _ _ _ (sa_keeps _ _ S) (fst (Snapshot s)) t0) as (u & E & A); [cbn; lia|done|].
  exists u. split; [done|].
  assert (same IgnoreAcctCheck u s) as Su by (etrans; [symmetry; apply A|apply A0]).
  split; [|by apply same_answers]. eapply safe_moves, moves_same; [|by symmetry].
  eapply keeps_revert; [by eapply snapshots_keep_trans; [|apply S]| |exact E]. cbn. lia.
Qed.

(** ** What the machine promises *)

Definition answers_safely (gas : Z) (d : StateDB) (a : vm_answer) : Prop :=
  match a with
  | None => True
  | Some (_, left_gas, _, d') => 0 <= left_gas <= gas /\ safe d d'
  end.

Class MachineSafe (v : CallContext) : Prop := {
  Call_safe from to input gas value d :
    wf d -> is_u64 gas -> answers_safely gas d (vm_Call v from to input gas value d);
  Create_safe from code gas value d :
    wf d -> is_u64 gas -> answers_safely gas d (vm_Create v from code gas value d)
}.

Definition machine_ok (v : option CallContext) : Prop :=
  match v with Some v => MachineSafe v | None => True end.

(** ** The transition *)

(** What a part of a transition does: [gas] and [initialGas] stay in bounds and
    the pool pays for all of [initialGas]. *)
Record goes (s s' : StateTransition) : Prop := {
  go_state : safe (state s) (state s');
  go_vm : vm s' = vm s;
  go_msg : msg s' = msg s;
  go_mc : mc s' = mc s;
  go_action : action s' = action s;
  go_gas : 0 <= gas s' <= initialGas s';
  go_width : is_u64 (initialGas s');
  go_pool : gp s' + initialGas s' = gp s + initialGas s;
  go_bound : is_u64 (gp s) -> is_u64 (gp s');
  go_free : freeGas s' = freeGas s;
  go_limit : freeGas s = 0 -> initialGas s <= m_gasLimit (msg s) -> initialGas s' <= m_gasLimit (msg s)
}.

(** A state in the middle of a transition. *)
Record under_way (s : StateTransition) : Prop := {
  uw_wf : wf (state s);
  uw_machine : machine_ok (vm s);
  uw_refund : 0 <= refund (state s);
  uw_gas : 0 <= gas s <= initialGas s;
  uw_width : is_u64 (initialGas s)
}.

Lemma goes_refl s : under_way s -> goes s s.
Proof. intros [W V R G I]. split; try done. by apply safe_refl. Qed.

Lemma goes_trans s t u : goes s t -> goes t u -> goes s u.
Proof.
  intros [S1 V1 M1 C1 A1 G1 I1 P1 B1 F1 L1] [S2 V2 M2 C2 A2 G2 I2 P2 B2 F2 L2].
  split; [by eapply safe_trans|congruence..|done|done|lia|auto|congruence|].
  rewrite M1 in L2. intros Hf Hl. apply L2; [congruence|auto].
Qed.

Lemma goes_under_way s s' : machine_ok (vm s) -> 0 <= refund (state s) -> goes s s' -> under_way s'.
Proof.
  intros V R G. split; [eapply safe_wf, go_state, G|by rewrite (go_vm _ _ G)| |apply G..].
  by apply (go_state _ _ G).
Qed.

(** A part that goes on from wherever the transition is. *)
Definition going {A} (m : M StateTransition A) : Prop :=
  forall s, under_way s -> pwp m (fun _ s' => goes s s') (fun _ s' => goes s s') s.

Lemma going_bind {A A'} (m : M StateTransition A) (k : A -> M StateTransition A') :
  going m -> (forall a, going (k a)) -> going (bind m k).
Proof.
  intros Hm Hk s U. apply pwp_bind. eapply pwp_mono; [| |by apply Hm]; [|done].
  intros a s1 G1. eapply pwp_mono; [| |apply Hk; eapply goes_under_way; [apply U|apply U|done]];
    intros ? ? G2; exact (goes_trans _ _ _ G1 G2).
Qed.

Lemma going_ret {A} (a : A) : going (ret a).
Proof. intros s U. by apply pwp_ret, goes_refl. Qed.
Lemma going_fail {A} e : going (A := A) (fail e).
Proof. intros s U. by apply pwp_fail, goes_refl. Qed.
Lemma going_panic {A} : going (A := A) panic.
Proof. intros s U. apply pwp_panic. Qed.
Lemma going_get {A} (f : StateTransition -> A) : going (get f).
Proof. intros s U. by apply pwp_get, goes_refl. Qed.

Lemma going_on_state {A} (f : StateDB -> A * StateDB) :
  (forall d, wf d -> safe d (snd (f d))) -> going (on_state f).
Proof.
  intros Hf s U. unfold pwp, on_state. pose proof (Hf _ (uw_wf _ U)) as S.
  destruct (f (state s)) as [a d]. cbn [snd] in S. by split; try apply U.
Qed.

Lemma going_do_state f : (forall d, wf d -> exists e, moves d (f d) e) -> going (do_state f).
Proof.
  intros Hf. apply going_on_state. intros d W. destruct (Hf d W) as [e M1]. by eapply safe_moves.
Qed.

Lemma going_set_value v : going (modify (set_value v)).
Proof. intros s U. apply pwp_modify. split; try apply U; try done. apply safe_refl, U. Qed.

Lemma going_useGas n : 0 <= n -> going (useGas n).
Proof.
  intros Hn s U. unfold useGas. apply pwp_bind, pwp_get. destruct (Z.ltb_spec (gas s) n).
  - by apply pwp_ret, goes_refl.
  - apply pwp_bind, pwp_modify, pwp_ret. pose proof (uw_gas _ U).
    split; cbn; try apply U; try done; [apply safe_refl, U|lia].
Qed.

Create HintDb going.
#[local] Hint Resolve going_ret going_fail going_panic going_get going_set_value : going.

Lemma getGasByData_nonneg d : 0 <= getGasByData d.
Proof. unfold getGasByData. destruct (0 <? length d)%nat; [apply u64_range|lia]. Qed.
Lemma IntrinsicGas_nonneg d b : 0 <= IntrinsicGas d b.
Proof. apply u64_range. Qed.

Ltac getter L := intros ? ?; edestruct L as (? & ? & -> & ?); [eassumption|by eapply safe_moves].
Ltac getter1 L := intros ? ?; edestruct L as (? & -> & ?); [eassumption|by eapply safe_moves].

Lemma going_Exist a : going (on_state (Exist IgnoreAcctCheck a)).
Proof.
  apply going_on_state. intros d W. destruct (Exist_moves IgnoreAcctCheck d a W) as (d' & -> & Q).
  by eapply safe_moves, moves_quiet.
Qed.
Lemma going_GetBalance a : going (on_state (GetBalance IgnoreAcctCheck a)).
Proof. apply going_on_state. getter1 GetBalance_moves. Qed.
Lemma going_GetNonce a : going (on_state (GetNonce IgnoreAcctCheck a)).
Proof. apply going_on_state. getter GetNonce_moves. Qed.
Lemma going_CanTransfer a n : going (on_state (CanTransfer IgnoreAcctCheck a n)).
Proof. apply going_on_state. getter1 CanTransfer_moves. Qed.
Lemma going_Transfer a b n : going (do_state (Transfer IgnoreAcctCheck a b n)).
Proof. apply going_do_state. intros d W. eexists. by apply moves_Transfer. Qed.
Lemma going_SetNonce a n : going (do_state (db_SetNonce IgnoreAcctCheck a n)).
Proof. apply going_do_state. intros d W. eexists. by apply moves_SetNonce. Qed.
Lemma going_mark a h x : going (do_state (SetTxActionStateInChain IgnoreAcctCheck a h x)).
Proof.
  apply going_do_state. intros d W. eexists. unfold SetTxActionStateInChain.
  by apply moves_SetState_mark.
Qed.
#[local] Hint Resolve going_Exist going_GetBalance going_GetNonce going_CanTransfer going_Transfer
  going_SetNonce going_mark : going.

Ltac going_step :=
  first [ solve [auto with going nocore]
        | simple apply going_bind; [|intros ?]
        | simple apply going_useGas; first [apply getGasByData_nonneg|apply IntrinsicGas_nonneg]
        | match goal with
          | |- going (if ?b then _ else _) => destruct b
          | |- going (match ?x with _ => _ end) => destruct x
          | |- going (let '(_, _) := ?x in _) => destruct x
          end ].
Ltac going_tac := repeat going_step.

Lemma going_ensure a : going (ensure IgnoreAcctCheck a).
Proof.
  intros s U. apply pwp_wp, wp_ensure; [apply U|]. intros d M1.
  split; try apply U; try done. by eapply safe_moves.
Qed.
#[local] Hint Resolve going_ensure : going.
Lemma going_from : going (from IgnoreAcctCheck).
Proof. unfold from. going_tac. Qed.
Lemma going_to : going (to IgnoreAcctCheck).
Proof. unfold to. going_tac. Qed.
#[local] Hint Resolve going_from going_to : going.

Lemma going_charge_intrinsic b : going (charge_intrinsic b).
Proof. unfold charge_intrinsic. going_tac. Qed.
Lemma going_charge_output out e : going (charge_output out e).
Proof. unfold charge_output. going_tac. Qed.
Lemma going_need_vm : going need_vm.
Proof. unfold need_vm. going_tac. Qed.
#[local] Hint Resolve going_charge_intrinsic going_charge_output going_need_vm : going.
Lemma going_count_nonce b : going (count_nonce IgnoreAcctCheck b).
Proof. unfold count_nonce. going_tac. Qed.
#[local] Hint Resolve going_count_nonce : going.

(** *** The machine *)

(** The gas handed to the machine is all that is left. *)
Lemma pwp_answered f s :
  under_way s -> answers_safely (gas s) (state s) (f (state s)) ->
  pwp (answered f) (fun _ s' => goes s s') (fun _ s' => goes s s') s.
Proof.
  intros U H. unfold pwp, answered, answers_safely in *.
  destruct (f (state s)) as [[[[out left_gas] err] d]|]; [|done]. destruct H as [Hg S].
  pose proof (uw_gas _ U). split; cbn; try apply U; try done. lia.
Qed.

Lemma goes_then {A} s s1 (m : M StateTransition A) :
  goes s s1 -> pwp m (fun _ s' => goes s1 s') (fun _ s' => goes s1 s') s1 ->
  pwp m (fun _ s' => goes s s') (fun _ s' => goes s s') s1.
Proof. intros G. apply pwp_mono; intros ? ? G2; exact (goes_trans _ _ _ G G2). Qed.

(** A part followed by another; the machine is still the one it was. *)
Lemma pwp_goes {A A'} (m : M StateTransition A) (k : A -> M StateTransition A') s :
  under_way s -> going m ->
  (forall a s1, under_way s1 -> vm s1 = vm s -> goes s s1 ->
     pwp (k a) (fun _ s' => goes s1 s') (fun _ s' => goes s1 s') s1) ->
  pwp (bind m k) (fun _ s' => goes s s') (fun _ s' => goes s s') s.
Proof.
  intros U Hm Hk. apply pwp_bind. eapply pwp_mono; [| |by apply Hm]; [|done].
  intros a s1 G. apply goes_then; [done|].
  apply Hk; [eapply goes_under_way; [apply U|apply U|done]|apply G|done].
Qed.

Lemma gas_is_u64 s : under_way s -> is_u64 (gas s).
Proof. intros [_ _ _ G I]. lia. Qed.

(** Calling the machine of the transition on what [to] answers. *)
Lemma going_call (sender : Address) (d : bytes) (v : Z) :
  going (let! vmenv := need_vm in
         let! t := to IgnoreAcctCheck in
         let! g := get gas in
         answered (vm_Call vmenv sender t d g v)).
Proof.
  intros s U. apply pwp_bind. unfold need_vm. apply pwp_bind, pwp_get.
  destruct (vm s) as [vmenv|] eqn:Ev; [|done]. apply pwp_ret.
  apply pwp_goes; [done|apply going_to|]. intros t s1 U1 V1 _. apply pwp_bind, pwp_get.
  apply pwp_answered; [done|]. pose proof (uw_machine _ U1) as Hm. rewrite V1, Ev in Hm.
  apply (Call_safe (MachineSafe := Hm)); [apply U1|by apply gas_is_u64].
Qed.

Lemma going_execute b sender : going (execute IgnoreAcctCheck b sender).
Proof.
  unfold execute. intros s U. apply pwp_bind, pwp_get. destruct b.
  - apply pwp_bind. unfold need_vm. apply pwp_bind, pwp_get.
    destruct (vm s) as [vmenv|] eqn:Ev; [|done]. apply pwp_ret.
    pose proof (uw_machine _ U) as Hm. rewrite Ev in Hm.
    destruct (bool_decide (ctx_UnitMC vmenv = SCAccount)).
    + apply pwp_goes; [done|apply going_set_value|]. intros _ s1 U1 V1 _.
      apply pwp_goes; [done|apply going_to|]. intros t s2 U2 V2 _. apply pwp_bind, pwp_get.
      apply pwp_answered; [done|]. apply (Call_safe (MachineSafe := Hm)); [apply U2|by apply gas_is_u64].
    + destruct (length (data s) <? 4)%nat; [done|]. apply pwp_answered; [done|].
      apply (Create_safe (MachineSafe := Hm)); [apply U|by apply gas_is_u64].
  - destruct (Address.IsContract _); [by apply (going_call sender (data s) (value s))|].
    revert s U. intros s. generalize (m_Value (msg s)) (value s). intros n v U.
    refine ((_ : going _) s U). going_tac.
Qed.

(** *** The whole transition *)

(** A transition begins without gas. *)
Record fresh (s : StateTransition) : Prop := {
  fr_wf : wf (state s);
  fr_machine : machine_ok (vm s);
  fr_refund : 0 <= refund (state s);
  fr_gas : gas s = 0;
  fr_initial : initialGas s = 0;
  fr_limit : is_u64 (m_gasLimit (msg s))
}.

Lemma fresh_under_way s : fresh s -> under_way s.
Proof. intros [W V R G I L]. split; try done; rewrite ?G, ?I; lia. Qed.

(** Two parts of which the second needs to know where the first ended. *)
Lemma pwp_buyGas s :
  fresh s -> pwp (buyGas IgnoreAcctCheck) (fun _ s' => goes s s') (fun _ s' => goes s s') s.
Proof.
  intros F. pose proof (fresh_under_way s F) as U. unfold buyGas. apply pwp_bind, pwp_get. cbv zeta.
  destruct (Word.SafeMul _ _) as [mgval overflow]. destruct overflow; [by apply pwp_fail, goes_refl|].
  set (b := if freeGas s >? 0 then _ else _).
  assert (is_u64 (snd b)) as Hb.
  { unfold b. destruct (freeGas s >? 0); [apply u64_range|apply F]. }
  assert (freeGas s = 0 -> snd b = m_gasLimit (msg s)) as Hb0.
  { intros E. unfold b. by rewrite E. }
  destruct b as [paid bought]. cbn [snd] in Hb, Hb0.
  apply pwp_bind. unfold from. apply pwp_bind, pwp_get, pwp_wp, wp_ensure; [apply F|]. intros d M1.
  apply pwp_bind. destruct (GetBalance_moves IgnoreAcctCheck d (m_from (msg s)) (moves_wf _ _ _ _ M1))
    as (d2 & E2 & M2). eapply pwp_wp, wp_on_state; [exact E2|].
  assert (goes s (set_state d2 s)) as G.
  { split; try apply U; try done. eapply safe_then; [by eapply safe_moves|exact M2]. }
  change (set_state d2 (set_state d s)) with (set_state d2 s).
  destruct (_ <? paid); [exact G|].
  unfold SubGas, Word.Uint64. cbn [gp set_state].
  destruct (Z.ltb_spec (u64 (gp s)) bought) as [|Hge]; [exact G|].
  apply pwp_bind, pwp_modify, pwp_bind, pwp_get, pwp_bind, pwp_modify, pwp_bind, pwp_modify, pwp_wp, wp_do_state.
  cbn [gas set_gp set_state state set_initialGas set_gas]. rewrite (fr_gas _ F), Z.add_0_l, u64_small by done.
  split; cbn; try done; try lia; try (rewrite (fr_initial _ F); lia);
    try (intros Hb2; rewrite u64_small in Hge by done; lia);
    try (intros Hf _; rewrite (Hb0 Hf); lia).
  eapply safe_then; [apply (go_state _ _ G)|]. apply moves_SubBalance. eapply moves_wf; exact M2.
Qed.

Lemma pwp_preApply s :
  fresh s -> pwp (preApply IgnoreAcctCheck) (fun _ s' => goes s s') (fun _ s' => goes s s') s.
Proof.
  intros F. unfold preApply, preCheck. apply pwp_bind.
  eapply pwp_mono; [| |by apply pwp_buyGas]; [|done]. intros ? s1 G. apply goes_then; [exact G|].
  assert (under_way s1) as U1 by (eapply goes_under_way; [apply F|apply F|exact G]).
  refine ((_ : going _) s1 U1). going_tac.
Qed.

(** A mark that is protected. *)
Definition mark_stays (s : StateDB) (chain : Address) (k : Hash) : Prop :=
  protected chain k -> marked s chain k.

Lemma mark_stays_safe s t chain k : mark_stays s chain k -> safe s t -> mark_stays t chain k.
Proof. intros H S Hp. apply S; [done|]. by apply H. Qed.

Definition transition_key (s : StateTransition) : Hash :=
  GetTxActionStoreKey (ID (msg s)) (action s).

Lemma pwp_begin b s :
  fresh s ->
  pwp (begin IgnoreAcctCheck b)
    (fun _ s' => goes s s' /\ mark_stays (state s') (mc s) (transition_key s)) (fun _ s' => goes s s') s.
Proof.
  intros F. unfold begin, PreApplayMessage. apply pwp_bind.
  eapply pwp_mono; [| |by apply pwp_preApply]; [|done]. intros ? s1 G.
  assert (under_way s1) as U1 by (eapply goes_under_way; [apply F|apply F|exact G]).
  apply pwp_bind. unfold from. apply pwp_bind, pwp_get, pwp_wp, wp_ensure; [apply U1|]. intros d M1.
  assert (goes s (set_state d s1)) as G2.
  { eapply goes_trans; [exact G|]. split; try apply U1; try done. by eapply safe_moves. }
  apply pwp_bind, pwp_get, pwp_bind, pwp_wp, wp_do_state. cbn [state set_state mc msg action].
  rewrite (go_mc _ _ G), (go_action _ _ G), (go_msg _ _ G). set (d2 := SetTxActionStateInChain _ _ _ _ _).
  assert (goes s (set_state d2 s1)) as G3.
  { eapply goes_trans; [exact G|]. split; try apply U1; try done.
    eapply safe_then; [by eapply safe_moves|]. apply moves_SetState_mark. by eapply moves_wf. }
  assert (mark_stays d2 (mc s) (transition_key s)) as Mk.
  { intros _. apply moves_SetState_mark. by eapply moves_wf. }
  change (set_state d2 (set_state d s1)) with (set_state d2 s1).
  assert (under_way (set_state d2 s1)) as U3 by (eapply goes_under_way; [apply F|apply F|exact G3]).
  apply pwp_bind. eapply pwp_mono; [| |apply (going_count_nonce b _ U3)].
  - intros ? s4 G4. apply pwp_ret. split; [exact (goes_trans _ _ _ G3 G4)|].
    eapply mark_stays_safe; [exact Mk|]. exact (go_state _ _ G4).
  - intros ? s4 G4. exact (goes_trans _ _ _ G3 G4).
Qed.

(** Paying back: what the pool gets back was never used. *)
Lemma pwp_refundGas s :
  under_way s ->
  pwp (refundGas IgnoreAcctCheck)
    (fun _ s' => safe (state s) (state s') /\ gp s' + gasUsed s' = gp s + initialGas s /\
                 0 <= gasUsed s' <= initialGas s)
    (fun _ _ => False) s.
Proof.
  intros U. unfold refundGas. apply pwp_bind. unfold from. apply pwp_bind, pwp_get, pwp_wp, wp_ensure; [apply U|].
  intros d M1. apply pwp_bind. unfold pwp at 1, calcRefundValue.
  set (s1 := match vm (set_state d s) with Some _ => _ | None => _ end).
  assert (state s1 = d /\ gp s1 = gp s /\ initialGas s1 = initialGas s /\ 0 <= gas s1 <= initialGas s)
    as (E1 & E2 & E3 & E4).
  { pose proof (uw_gas _ U) as Hg. pose proof (uw_width _ U) as Hi. pose proof (uw_refund _ U) as Hr.
    rewrite <- (mv_refund _ _ _ _ M1) in Hr.
    unfold s1. cbn [vm set_state]. destruct (vm s) as [v|]; [|done].
    destruct (negb (vm_EnableSimulation v)); [|done]. do 3 (split; [done|]).
    unfold gasUsed, GetRefund. cbn [gas initialGas state set_state set_gas]. set (used := initialGas s - gas s).
    assert (0 <= used / 2 <= used) as Hu.
    { split; [apply Z.div_pos; lia|apply Z.div_le_upper_bound; lia]. }
    rewrite (u64_small used) by lia.
    destruct (Z.gtb_spec (used / 2) (refund d)); rewrite u64_small by lia; lia. }
  apply pwp_bind.
  assert (forall d2, safe (state s) d2 ->
            pwp (let! g := get gas in let! pool := get gp in modify (set_gp (AddGas g pool)))
            (fun _ s' => safe (state s) (state s') /\ gp s' + gasUsed s' = gp s + initialGas s /\
                         0 <= gasUsed s' <= initialGas s)
            (fun _ _ => False) (set_state d2 s1)) as Hend.
  { intros d2 S2. apply pwp_bind, pwp_get, pwp_bind, pwp_get, pwp_modify. pose proof (uw_width _ U) as Hi.
    unfold gasUsed, AddGas. cbn [gp gas initialGas state set_gp set_state].
    rewrite E2, E3, u64_small by lia. split; [exact S2|lia]. }
  destruct (_ >? 0).
  - apply pwp_wp, wp_do_state. rewrite E1. apply Hend. eapply safe_then; [by eapply safe_moves|].
    apply moves_AddBalance. by eapply moves_wf.
  - apply pwp_ret. assert (s1 = set_state d s1) as -> by (by destruct s1; cbn in E1; subst).
    apply Hend. by eapply safe_moves.
Qed.

(** What a transition has done to what outlives it. *)
Definition ends (s s' : StateTransition) (used : Z) : Prop :=
  safe (state s) (state s') /\ 0 <= used /\ gp s' + used <= gp s /\ (is_u64 (gp s) -> is_u64 (gp s')) /\
  (freeGas s = 0 -> used <= m_gasLimit (msg s)).

Lemma goes_ends s s' : initialGas s = 0 -> is_u64 (m_gasLimit (msg s)) -> goes s s' -> ends s s' 0.
Proof.
  intros I L [S _ _ _ _ G W Pl Bd _ _]. split; [done|lia].
Qed.

Lemma pwp_conclude out vmerr s :
  under_way s ->
  pwp (conclude IgnoreAcctCheck out vmerr)
    (fun r s' => safe (state s) (state s') /\ 0 <= usedGas r /\ (is_u64 (gp s) -> 0 <= gp s') /\
                 gp s' + usedGas r <= gp s + initialGas s /\
                 (freeGas s = 0 -> initialGas s <= m_gasLimit (msg s) -> usedGas r <= m_gasLimit (msg s)))
    (fun _ s' => goes s s') s.
Proof.
  intros U. unfold conclude. apply pwp_bind, pwp_get, pwp_bind.
  assert (going (match vmerr with
                 | Some e =>
                     need_vm ;;;
                     (if simulating (vm s) then fail (ErrVM e)
                      else if bool_decide (e = State.ErrInsufficientBalance) then fail (ErrVM e)
                      else ret tt)
                 | None => ret tt
                 end)) as Hg by (destruct vmerr; going_tac).
  eapply pwp_mono; [| |apply Hg, U]; [|done]. intros ? s1 G.
  assert (under_way s1) as U1 by (eapply goes_under_way; [apply U|apply U|exact G]).
  apply pwp_bind, pwp_get, pwp_bind. destruct (simulating (vm s)); cbn [negb].
  - apply pwp_ret, pwp_bind, pwp_get, pwp_ret. cbn [usedGas]. pose proof (go_pool _ _ G). pose proof (go_gas _ _ G).
    pose proof (go_width _ _ G) as Hw. unfold gasUsed. rewrite u64_small by lia.
    pose proof (go_bound _ _ G) as Hb. split; [apply G|]. pose proof (go_limit _ _ G) as Hlim.
    split_and!; [lia| |lia|]; [intros Hg1; apply Hb in Hg1; lia|]. intros Hf Hl. specialize (Hlim Hf Hl). lia.
  - eapply pwp_mono; [| |apply (pwp_refundGas s1 U1)]; [|done]. intros ? s2 (S2 & Hp & Hu).
    apply pwp_bind, pwp_get, pwp_ret. cbn [usedGas]. pose proof (go_pool _ _ G).
    pose proof (go_bound _ _ G) as Hb. split; [eapply safe_trans; [apply (go_state _ _ G)|exact S2]|].
    pose proof (go_limit _ _ G) as Hlim.
    split_and!; [lia| |lia|]; [intros Hg1; specialize (Hb Hg1); lia|]. intros Hf Hl. specialize (Hlim Hf Hl). lia.
Qed.

Lemma pwp_TransitionDb s :
  fresh s ->
  pwp (TransitionDb IgnoreAcctCheck)
    (fun r s' => ends s s' (usedGas r) /\ mark_stays (state s') (mc s) (transition_key s))
    (fun _ s' => ends s s' 0) s.
Proof.
  intros F. assert (forall s', goes s s' -> ends s s' 0) as Hfail by (intros; apply goes_ends; [apply F|apply F|done]).
  unfold TransitionDb. apply pwp_bind, pwp_get. cbv zeta. set (b := IsCallCreateContractTx _ _).
  apply pwp_bind. eapply pwp_mono; [| |apply (pwp_begin b s F)]; [|intros ? s1 G; by apply Hfail].
  intros sender s1 [G1 Mk]. assert (under_way s1) as U1 by (eapply goes_under_way; [apply F|apply F|exact G1]).
  apply pwp_bind. eapply pwp_mono; [| |apply (going_execute b sender s1 U1)];
    [|intros ? s2 G2; apply Hfail; exact (goes_trans _ _ _ G1 G2)].
  intros [out vmerr] s2 G2. pose proof (goes_trans _ _ _ G1 G2) as G12.
  assert (under_way s2) as U2 by (eapply goes_under_way; [apply F|apply F|exact G12]).
  apply pwp_bind. eapply pwp_mono; [| |apply (going_charge_output out vmerr s2 U2)];
    [|intros ? s3 G3; apply Hfail; exact (goes_trans _ _ _ G12 G3)].
  intros e s3 G3. pose proof (goes_trans _ _ _ G12 G3) as G13.
  assert (under_way s3) as U3 by (eapply goes_under_way; [apply F|apply F|exact G13]).
  eapply pwp_mono; [| |apply (pwp_conclude out e s3 U3)];
    [|intros ? s4 G4; apply Hfail; exact (goes_trans _ _ _ G13 G4)].
  intros r s' (S4 & Hu & Hle & Hp & Hlim). pose proof (go_pool _ _ G13). rewrite (fr_initial _ F) in *.
  assert (safe (state s1) (state s')) as S14.
  { eapply safe_trans; [exact (go_state _ _ G2)|]. eapply safe_trans; [exact (go_state _ _ G3)|exact S4]. }
  split; [|by eapply mark_stays_safe].
  pose proof (go_bound _ _ G13) as Hb. split; [eapply safe_trans; [apply (go_state _ _ G13)|exact S4]|].
  pose proof (go_limit _ _ G13) as Hl13.
  rewrite (go_free _ _ G13), (go_msg _ _ G13) in Hlim. rewrite (fr_initial _ F) in Hl13.
  pose proof (fr_limit _ F). split_and!; [lia|lia| |].
  - intros Hg0. specialize (Hle (Hb Hg0)). lia.
  - intros Hf. apply Hlim; [done|]. apply Hl13; [done|lia].
Qed.

(** [ApplyMessage] with any machine that keeps its promise. *)
Lemma ApplyMessage_safe v d a m pool chain :
  wf d -> machine_ok v -> 0 <= refund d -> is_u64 (m_gasLimit m) ->
  match ApplyMessage IgnoreAcctCheck v d a m pool chain with
  | Done (_, used, _) (pool', d') =>
      safe d d' /\ 0 <= used /\ pool' + used <= pool /\ (is_u64 pool -> is_u64 pool') /\
      ((forall vmenv, v = Some vmenv -> ctx_UnitMC vmenv <> SCAccount) -> used <= m_gasLimit m) /\
      mark_stays d' chain (GetTxActionStoreKey (ID m) a)
  | Failed _ (pool', d') => safe d d' /\ pool' <= pool /\ (is_u64 pool -> is_u64 pool')
  | Panicked => True
  end.
Proof.
  intros W V R L. unfold ApplyMessage. set (s := NewStateTransition v d a m pool chain).
  assert (fresh s) as F by (by split).
  pose proof (pwp_TransitionDb s F) as H. unfold pwp in H.
  destruct (TransitionDb IgnoreAcctCheck s) as [r s'|e s'|]; [|destruct H as (S & _ & Hp & Hb & _)|done].
  { destruct H as [(S & Hu & Hp & Hb & Hl) Mk]. split_and!; try done. intros Hv. apply Hl.
    cbn. destruct v as [v|]; [|done]. by rewrite bool_decide_eq_false_2 by (by apply Hv). }
  split; [done|]. cbn in Hp. split; [lia|exact Hb].
Qed.

End Safely.

End Safely.
