(* ===== verification/TxHandlers.v ===== *)
(** The handlers of a unit's transactions over a machine that keeps its
    promise: what a handler leaves to its caller on success and on failure. *)
From S2P Require Import Prelude Bech32 Address EvmWord EvmAnalysis EvmState EvmSafe StateDb Ovm StateView StateRevert Bloom TxTransition TxProcess TxLedger TxSettle TxChains TxSafe.

Import Db Ovm View Revert Transition Process Ledger Settle Chains Safely.

Module Handlers.

Section Handlers.
Context {P : Params} {B : Backing} {K : State.Crypto} {KO : Safe.CryptoOk K} {C : TxCodec}.
Context (IgnoreAcctCheck : bool).

Local Abbreviation wf := (wf IgnoreAcctCheck).
Local Abbreviation marked := (marked IgnoreAcctCheck).
Local Abbreviation moves := (moves IgnoreAcctCheck).

Context (protected : Address -> Hash -> Prop).

Local Abbreviation safe := (safe IgnoreAcctCheck protected).

(** What a safe change cannot undo: a protected mark, or nothing. *)
Record lasting := mkLasting {
  holds :> StateDB -> Prop;
  lasts s t : holds s -> safe s t -> holds t
}.

Definition mark (chain : Address) (k : Hash) : lasting :=
  mkLasting (fun s => mark_stays IgnoreAcctCheck protected s chain k)
    (fun s t => mark_stays_safe IgnoreAcctCheck protected s t chain k).
Definition nothing : lasting := mkLasting (fun _ => True) (fun _ _ _ _ => I).

(** What the chain database promises. *)
Record chain_ok (c : Chain) : Prop := {
  co_machine cx v : vm_New c cx = Ok v -> MachineSafe IgnoreAcctCheck protected v;
  co_genesis d : GenesisState c = Some d -> wf d /\ 0 <= refund d;
  co_receipt u h r : GetTxReceiptAtUnit c u h = Some r -> is_u64 (GasRemaining r)
}.

Definition message_ok (msg : option Message) (t : Transaction) (limit : Z) : Prop :=
  forall m, the_message msg t limit = Ok m -> is_u64 (m_gasLimit m).

(** ** Parts of handlers *)

Record ready (w : Work) : Prop := {
  rd_wf : wf (w_db w);
  rd_refund : 0 <= refund (w_db w)
}.

(** [n] of gas is taken from the pool and not yet reported. *)
Record spent (n : Z) (w w' : Work) : Prop := {
  sp_state : safe (w_db w) (w_db w');
  sp_total : w_total w' = w_total w;
  sp_pool : w_gp w' + n <= w_gp w;
  sp_bound : is_u64 (w_gp w) -> is_u64 (w_gp w')
}.

(** What a failing handler leaves; [given] is gas that was already taken from
    the pool for it. *)
Record gave_up (given : Z) (w w' : Work) : Prop := {
  gu_state : safe (w_db w) (w_db w');
  gu_total : w_total w <= w_total w';
  gu_pool : w_gp w' + w_total w' <= w_gp w + w_total w + given;
  gu_bound : is_u64 (w_gp w) -> is_u64 (w_gp w')
}.

(** What a handler leaves that establishes [X]. *)
Record handled (given : Z) (X : lasting) (w : Work) (r : Receipt) (w' : Work) : Prop := {
  hd_state : safe (w_db w) (w_db w');
  hd_used : 0 <= GasUsed r;
  hd_total : w_total w' = w_total w + GasUsed r;
  hd_cumulative : CumulativeGasUsed r = w_total w';
  hd_pool : w_gp w' + GasUsed r <= w_gp w + given;
  hd_bound : is_u64 (w_gp w) -> is_u64 (w_gp w');
  hd_lasting : X (w_db w')
}.

Lemma ready_safe w w' : ready w -> safe (w_db w) (w_db w') -> ready w'.
Proof. intros [W R] S. split; [by eapply safe_wf|]. by apply S. Qed.

Lemma spent_refl w : ready w -> spent 0 w w.
Proof. intros [W R]. split; [by apply safe_refl|done|lia|done]. Qed.

Lemma spent_trans m n w1 w2 w3 : spent m w1 w2 -> spent n w2 w3 -> spent (m + n) w1 w3.
Proof. intros [S1 T1 P1 B1] [S2 T2 P2 B2]. split; [by eapply safe_trans|congruence|lia|auto]. Qed.

Lemma spent_moves w d e : ready w -> moves (w_db w) d e -> spent 0 w (set_w_db d w).
Proof. intros _ M1. split; [by eapply safe_moves|done|cbn; lia|done]. Qed.

Lemma spent_gave_up n g w w' : 0 <= n -> 0 <= g -> spent n w w' -> gave_up g w w'.
Proof. intros N G [S T Pl Bd]. split; [done|lia|lia|done]. Qed.

Lemma gave_up_spent n g w1 w2 w3 : spent n w1 w2 -> gave_up g w2 w3 -> gave_up (g - n) w1 w3.
Proof. intros [S1 T1 P1 B1] [S2 T2 P2 B2]. split; [by eapply safe_trans|lia|lia|auto]. Qed.

Lemma handled_spent n g X w1 w2 r w3 :
  spent n w1 w2 -> handled g X w2 r w3 -> handled (g - n) X w1 r w3.
Proof.
  intros [S1 T1 P1 B1] [S2 U T2 C2 P2 B2 Mk].
  split; [by eapply safe_trans|done|lia|done|lia|auto|done].
Qed.

Definition working {A} (m : M Work A) : Prop :=
  forall w, ready w -> pwp m (fun _ w' => spent 0 w w') (fun _ w' => spent 0 w w') w.

Definition handler (given : Z) (X : lasting) (m : M Work Receipt) : Prop :=
  forall w, ready w -> pwp m (handled given X w) (fun _ w' => gave_up given w w') w.

(** The rest of a handler, once [X] holds. *)
Definition rest (given : Z) (X : lasting) (m : M Work Receipt) : Prop :=
  forall w, ready w -> X (w_db w) ->
    pwp m (handled given X w) (fun _ w' => gave_up given w w') w.

Lemma working_bind {A A'} (m : M Work A) (k : A -> M Work A') :
  working m -> (forall a, working (k a)) -> working (bind m k).
Proof.
  intros Hm Hk w R. apply pwp_bind. eapply pwp_mono; [| |by apply Hm]; [|done].
  intros a w1 S1. eapply pwp_mono; [| |apply Hk; eapply ready_safe; [done|apply S1]];
    intros ? ? S2; exact (spent_trans _ _ _ _ _ S1 S2).
Qed.

Lemma handler_bind {A} g X (m : M Work A) (f : A -> M Work Receipt) :
  0 <= g -> working m -> (forall a, handler g X (f a)) -> handler g X (bind m f).
Proof.
  intros Hg Hm Hk w R. apply pwp_bind. eapply pwp_mono; [| |by apply Hm].
  - intros a w1 S1. eapply pwp_mono; [| |apply Hk; eapply ready_safe; [done|apply S1]].
    + intros r w2 H2. rewrite <- (Z.sub_0_r g). exact (handled_spent _ _ _ _ _ _ _ S1 H2).
    + intros e w2 H2. rewrite <- (Z.sub_0_r g). exact (gave_up_spent _ _ _ _ _ S1 H2).
  - intros e w1 S1. by apply (spent_gave_up 0).
Qed.

Lemma rest_bind {A} g X (m : M Work A) (f : A -> M Work Receipt) :
  0 <= g -> working m -> (forall a, rest g X (f a)) -> rest g X (bind m f).
Proof.
  intros Hg Hm Hk w R Mk. apply pwp_bind. eapply pwp_mono; [| |by apply Hm].
  - intros a w1 S1. eapply pwp_mono; [| |apply Hk; [eapply ready_safe; [done|apply S1]
                                                    |eapply lasts; [done|apply S1]]].
    + intros r w2 H2. rewrite <- (Z.sub_0_r g). exact (handled_spent _ _ _ _ _ _ _ S1 H2).
    + intros e w2 H2. rewrite <- (Z.sub_0_r g). exact (gave_up_spent _ _ _ _ _ S1 H2).
  - intros e w1 S1. by apply (spent_gave_up 0).
Qed.

Lemma handler_rest g X m : handler g X m -> rest g X m.
Proof. intros H w R _. by apply H. Qed.

Lemma working_ret {A} (a : A) : working (ret a).
Proof. intros w R. by apply pwp_ret, spent_refl. Qed.
Lemma working_fail {A} e : working (A := A) (fail e).
Proof. intros w R. by apply pwp_fail, spent_refl. Qed.
Lemma working_panic {A} : working (A := A) panic.
Proof. intros w R. apply pwp_panic. Qed.
Lemma working_get {A} (f : Work -> A) : working (get f).
Proof. intros w R. by apply pwp_get, spent_refl. Qed.
Lemma working_try {A} (r : result error A) : working (try r).
Proof. destruct r; [apply working_ret|apply working_fail]. Qed.
Lemma working_guard b e : working (guard b e).
Proof. destruct b; [apply working_ret|apply working_fail]. Qed.
Lemma rest_fail g X e : 0 <= g -> rest g X (fail e).
Proof. intros Hg w R _. apply pwp_fail. apply (spent_gave_up 0); [done..|by apply spent_refl]. Qed.
Lemma rest_panic g X : rest g X panic.
Proof. intros w R _. apply pwp_panic. Qed.
Lemma handler_fail g X e : 0 <= g -> handler g X (fail e).
Proof. intros Hg w R. apply pwp_fail. apply (spent_gave_up 0); [done..|by apply spent_refl]. Qed.
Lemma handler_panic g X : handler g X panic.
Proof. intros w R. apply pwp_panic. Qed.

Lemma working_do_db f : (forall d, wf d -> exists e, moves d (f d) e) -> working (do_db f).
Proof.
  intros Hf w R. destruct (Hf _ (rd_wf _ R)) as [e M1]. apply pwp_wp, wp_do_db. by eapply spent_moves.
Qed.

Lemma working_on_db {A} (f : StateDB -> A * StateDB) :
  (forall d, wf d -> exists e, moves d (snd (f d)) e) -> working (on_db f).
Proof.
  intros Hf w R. destruct (Hf _ (rd_wf _ R)) as [e M1]. unfold pwp, on_db.
  destruct (f (w_db w)) as [a d]. by eapply spent_moves.
Qed.

Lemma working_tx_message msg t limit : working (tx_message msg t limit).
Proof. unfold tx_message. destruct msg; [apply working_ret|apply working_try]. Qed.

Lemma working_check chain h a : working (check_action IgnoreAcctCheck chain h a).
Proof. intros w R. apply pwp_wp, wp_check_action; [apply R|..]; intros d M1 _; by eapply spent_moves. Qed.
Lemma working_next_nonce a : working (next_nonce IgnoreAcctCheck a).
Proof. intros w R. apply pwp_wp, wp_next_nonce; [apply R|]. intros d M1. by eapply spent_moves. Qed.
Lemma working_AddBalance a n : working (do_db (db_AddBalance IgnoreAcctCheck a n)).
Proof. apply working_do_db. intros d W. eexists. by apply moves_AddBalance. Qed.
Lemma working_SubBalance a n : working (do_db (db_SubBalance IgnoreAcctCheck a n)).
Proof. apply working_do_db. intros d W. eexists. by apply moves_SubBalance. Qed.
Lemma working_SetBalance a n : working (do_db (db_SetBalance IgnoreAcctCheck a n)).
Proof. apply working_do_db. intros d W. eexists. by apply moves_SetBalance. Qed.
Lemma working_ClearFlow : working (do_db ClearFlow).
Proof. apply working_do_db. intros d W. eexists. by apply moves_ClearFlow. Qed.
Lemma working_GetNonce a : working (on_db (GetNonce IgnoreAcctCheck a)).
Proof.
  apply working_on_db. intros d W.
  destruct (GetNonce_moves IgnoreAcctCheck d a W) as (n & d' & -> & M1). by eexists.
Qed.
Lemma working_CanTransfer a n : working (on_db (CanTransfer IgnoreAcctCheck a n)).
Proof.
  apply working_on_db. intros d W.
  destruct (CanTransfer_moves IgnoreAcctCheck d a n W) as (d' & -> & M1). by eexists.
Qed.
Lemma working_initBalance a n :
  working (do_db (fun d => let '(d, o) := GetOrNewStateObject IgnoreAcctCheck a d in
                           put (d, set_initBalance n o))).
Proof. apply working_do_db. intros d W. eexists. by apply moves_initBalance. Qed.

Lemma handler_mark g chain h a (f : unit -> M Work Receipt) :
  (forall u, rest g (mark chain (GetTxActionStoreKey h a)) (f u)) ->
  handler g (mark chain (GetTxActionStoreKey h a)) (bind (mark_action IgnoreAcctCheck chain h a) f).
Proof.
  intros Hf w R. apply pwp_bind, pwp_wp, wp_mark_action; [apply R|]. intros d M1 Mk.
  pose proof (spent_moves _ _ _ R M1) as S1.
  eapply pwp_mono; [| |apply Hf; [eapply ready_safe; [done|apply S1]|by intros _]].
  - intros r w2 H2. rewrite <- (Z.sub_0_r g). exact (handled_spent _ _ _ _ _ _ _ S1 H2).
  - intros e w2 H2. rewrite <- (Z.sub_0_r g). exact (gave_up_spent _ _ _ _ _ S1 H2).
Qed.

Lemma rest_createReceipt g c preStep h txHash action output failed remaining used keep X :
  0 <= used <= g ->
  rest g X
    (createReceipt IgnoreAcctCheck c preStep h txHash action output failed remaining used keep).
Proof.
  intros Hu w R Mk. apply pwp_wp, wp_createReceipt; [apply R|]. intros r d (e & M1 & _) Hr.
  pose proof (rs_used _ _ _ _ _ _ _ _ _ Hr) as Eu. pose proof (rs_total _ _ _ _ _ _ _ _ _ Hr) as Et.
  split; cbn [w_db w_gp w_total]; rewrite ?Eu; try done; try lia; [by eapply safe_moves|].
  eapply lasts; [done|by eapply safe_moves].
Qed.

Create HintDb working.
#[local] Hint Resolve working_ret working_fail working_panic working_get working_try working_guard
  working_tx_message working_check working_next_nonce working_AddBalance working_SubBalance
  working_SetBalance working_ClearFlow working_GetNonce working_CanTransfer working_initBalance
  rest_fail rest_panic handler_fail handler_panic : working.

Ltac working_step :=
  first [ solve [auto with working nocore]
        | solve [first [apply rest_fail|apply handler_fail]; lia]
        | simple apply handler_mark; intros ?
        | simple apply handler_bind; [lia| |intros ?]
        | simple apply rest_bind; [lia| |intros ?]
        | simple apply working_bind; [|intros ?]
        | match goal with
          | |- working (if ?b then _ else _) => destruct b
          | |- working (match ?x with _ => _ end) => destruct x
          end ].
Ltac working_tac := repeat working_step.

(** ** The steps without a machine *)

Lemma ApplyReceive_handler c h t x :
  handler 0 (mark (MC h) (GetTxActionStoreKey (tx_Hash t) ActionTransferReceipt))
    (ApplyReceive IgnoreAcctCheck c h t x).
Proof.
  unfold ApplyReceive, previous. working_tac. by apply rest_createReceipt.
Qed.

Lemma ApplyContractReceipt_handler c h x :
  handler 0 (mark (MC h) (GetTxActionStoreKey (TxHash x) ActionContractReceipt))
    (ApplyContractReceipt IgnoreAcctCheck c h x).
Proof.
  unfold ApplyContractReceipt, previous. working_tac. by apply rest_createReceipt.
Qed.

Lemma AsMessage_ID t limit m : AsMessage t limit = Ok m -> ID m = tx_Hash t.
Proof. intros (E & _)%AsMessage_fields. unfold ID. by rewrite E. Qed.

Lemma handler_try {A} g X (r : result error A) (f : A -> M Work Receipt) :
  0 <= g -> (forall a, r = Ok a -> handler g X (f a)) -> handler g X (bind (try r) f).
Proof.
  intros Hg H w R. apply pwp_bind, pwp_try.
  - intros a E. by apply H.
  - intros e _. apply (spent_gave_up 0); [done..|by apply spent_refl].
Qed.

Lemma rest_try {A} g X (r : result error A) (f : A -> M Work Receipt) :
  0 <= g -> (forall a, r = Ok a -> rest g X (f a)) -> rest g X (bind (try r) f).
Proof.
  intros Hg H w R Mk. apply pwp_bind, pwp_try.
  - intros a E. by apply H.
  - intros e _. apply (spent_gave_up 0); [done..|by apply spent_refl].
Qed.

Lemma ApplyRefund_handler c h t x :
  handler 0 (mark (MC h) (GetTxActionStoreKey (tx_Hash t) ActionContractRefund))
    (ApplyRefund IgnoreAcctCheck c h t x).
Proof.
  unfold ApplyRefund, previous. apply handler_try; [done|]. intros m Em. rewrite (AsMessage_ID _ _ _ Em).
  working_tac. by apply rest_createReceipt.
Qed.

(** ** The steps with a machine *)

(** A message is taken from the transaction or handed in. *)
Definition same_tx (msg : option Message) (t : Transaction) : Prop :=
  match msg with Some m => ID m = tx_Hash t | None => True end.

Lemma the_message_ID msg t limit m :
  same_tx msg t -> the_message msg t limit = Ok m -> ID m = tx_Hash t.
Proof. destruct msg; cbn; [by intros ? [= <-]|]. intros _. apply AsMessage_ID. Qed.

Lemma handler_message g X msg t limit (f : Message -> M Work Receipt) :
  0 <= g -> (forall m, the_message msg t limit = Ok m -> handler g X (f m)) ->
  handler g X (bind (tx_message msg t limit) f).
Proof.
  intros Hg H w R. apply pwp_bind, pwp_wp, wp_tx_message.
  - intros m Em. by apply H.
  - intros e _. apply (spent_gave_up 0); [done..|by apply spent_refl].
Qed.

(** Running a message spends what it reports. *)
Lemma pwp_apply_message v a m chain w :
  ready w -> machine_ok IgnoreAcctCheck protected v -> is_u64 (m_gasLimit m) ->
  pwp (apply_message IgnoreAcctCheck v a m chain)
    (fun '(_, used, _) w' => 0 <= used /\ spent used w w' /\
       ((forall vmenv, v = Some vmenv -> ctx_UnitMC vmenv <> SCAccount) -> used <= m_gasLimit m) /\
       mark chain (GetTxActionStoreKey (ID m) a) (w_db w'))
    (fun _ w' => spent 0 w w') w.
Proof.
  intros [W R] V L. unfold pwp, apply_message.
  pose proof (ApplyMessage_safe IgnoreAcctCheck protected v (w_db w) a m (w_gp w) chain W V R L) as H.
  destruct (ApplyMessage _ _ _ _ _ _ _) as [[[out used] failed] [pool d]|e [pool d]|]; [| |done].
  - destruct H as (S & Hu & Hp & Hb & Hl & Mk). split; [done|]. split; [by split|]. by split.
  - destruct H as (S & Hp & Hb). split; cbn; [done|done|lia|done].
Qed.

Lemma ApplyPayment_handler c h t msg :
  message_ok msg t (tx_GasLimit t) -> same_tx msg t ->
  handler 0 (mark (MC h) (GetTxActionStoreKey (tx_Hash t) ActionTransferPayment))
    (ApplyPayment IgnoreAcctCheck c h t msg).
Proof.
  intros Hm Ht. unfold ApplyPayment. apply handler_message; [done|]. intros m Em.
  rewrite <- (the_message_ID _ _ _ _ Ht Em). specialize (Hm m Em).
  do 2 (apply handler_bind; [done|auto with working|intros _]).
  intros w R. apply pwp_bind.
  eapply pwp_mono; [| |by apply pwp_apply_message]; [|intros e w1 S1; by apply (spent_gave_up 0)].
  intros [[out used] failed] w1 (Hu & S1 & _ & Mk).
  assert (ready w1) as R1 by (eapply ready_safe; [done|apply S1]).
  eapply pwp_mono; [| |apply (rest_createReceipt used); [lia|exact R1|exact Mk]].
  - intros r w2 H2. rewrite <- (Z.sub_diag used). exact (handled_spent _ _ _ _ _ _ _ S1 H2).
  - intros e w2 H2. rewrite <- (Z.sub_diag used). exact (gave_up_spent _ _ _ _ _ S1 H2).
Qed.

(** Checking a freeze takes the whole gas limit from the pool. *)
Lemma pwp_freeze_check v a m chain w :
  ready w -> machine_ok IgnoreAcctCheck protected (Some v) -> is_u64 (m_gasLimit m) ->
  let st := NewStateTransition (Some v) (w_db w) a m (w_gp w) chain in
  pwp (PreApplayMessage IgnoreAcctCheck true)
    (fun _ s => 0 <= gasUsed s /\ spent (gasUsed s) w (mkWork (gp s) (w_total w) (state s)))
    (fun _ s => spent 0 w (mkWork (gp s) (w_total w) (state s))) st.
Proof.
  intros [W R] V L st. unfold PreApplayMessage. apply pwp_bind.
  pose proof (safe_revert IgnoreAcctCheck protected (w_db w)) as Hrev.
  pose proof (Snapshot_keeps IgnoreAcctCheck (w_db w) W) as K0.
  destruct (Snapshot (w_db w)) as [i d1] eqn:E. cbn [fst snd] in Hrev, K0.
  eapply pwp_wp, wp_on_state; [exact E|].
  assert (refund d1 = refund (w_db w)) as Er by (injection E as _ <-; done).
  assert (fresh IgnoreAcctCheck protected (set_state d1 st)) as F.
  { split; try done; [apply K0|cbn; by rewrite Er]. }
  pose proof (pwp_preApply IgnoreAcctCheck protected _ F) as H. unfold pwp in H |- *.
  assert (forall s, goes IgnoreAcctCheck protected (set_state d1 st) s ->
            exists u, RevertToSnapshot IgnoreAcctCheck i (state s) = Some u /\ safe (w_db w) u /\
              0 <= gasUsed s /\ gp s + gasUsed s <= w_gp w /\ (is_u64 (w_gp w) -> is_u64 (gp s))) as Hback.
  { intros s G. destruct (Hrev (state s) W (go_state _ _ _ _ G)) as (u & Eu & Su & _).
    pose proof (go_gas _ _ _ _ G). pose proof (go_width _ _ _ _ G). pose proof (go_pool _ _ _ _ G) as Hp.
    cbn in Hp. exists u. unfold gasUsed. rewrite u64_small by lia.
    split_and!; [done..|lia|lia|apply (go_bound _ _ _ _ G)]. }
  destruct (preApply IgnoreAcctCheck (set_state d1 st)) as [? s|e s|]; [| |done].
  - destruct (Hback s H) as (u & -> & Su & Hu & Hp & Hb). split; [exact Hu|]. by split.
  - destruct (Hback s H) as (u & -> & Su & Hu & Hp & Hb). split; cbn; [exact Su|done|lia|exact Hb].
Qed.

Lemma ApplyFreeze_handler c h t msg :
  chain_ok c -> message_ok msg t (tx_GasLimit t) -> same_tx msg t ->
  handler 0 (mark (MC h) (GetTxActionStoreKey (tx_Hash t) ActionContractFreeze))
    (ApplyFreeze IgnoreAcctCheck c h t msg).
Proof.
  intros Hc Hm Ht. unfold ApplyFreeze. apply handler_message; [done|]. intros m Em.
  rewrite <- (the_message_ID _ _ _ _ Ht Em). specialize (Hm m Em).
  apply handler_bind; [done|auto with working|intros _]. apply handler_bind; [done|auto with working|intros _].
  apply handler_mark. intros _. apply rest_try; [done|]. intros v Ev. pose proof (co_machine _ Hc _ _ Ev) as V.
  intros w R Mk. apply pwp_bind. unfold pwp at 1.
  pose proof (pwp_freeze_check v ActionContractFreeze m (MC h) w R V Hm) as H. cbv zeta in H.
  unfold pwp in H. destruct (PreApplayMessage _ _ _) as [? s|e s|]; [| |done].
  2: { by apply (spent_gave_up 0). }
  destruct H as [Hu S1]. set (w1 := mkWork _ _ _) in *.
  assert (ready w1) as R1 by (eapply ready_safe; [done|apply S1]).
  assert (mark (MC h) (GetTxActionStoreKey (ID m) ActionContractFreeze) (w_db w1)) as Mk1.
  { eapply lasts; [exact Mk|apply S1]. }
  eapply pwp_mono.
  - intros r w2 H2. rewrite <- (Z.sub_diag (gasUsed s)). exact (handled_spent _ _ _ _ _ _ _ S1 H2).
  - intros e w2 H2. rewrite <- (Z.sub_diag (gasUsed s)). exact (gave_up_spent _ _ _ _ _ S1 H2).
  - refine ((_ : rest (gasUsed s) (mark (MC h) (GetTxActionStoreKey (ID m) ActionContractFreeze)) _) w1 R1 Mk1).
    cbv zeta. working_tac. apply rest_createReceipt. lia.
Qed.

(** ** Contracts *)

Lemma handled_then g X w r w1 w2 :
  handled g X w r w1 -> spent 0 w1 w2 -> handled g X w r w2.
Proof.
  intros [S1 U T1 C1 P1 B1 Mk] [S2 T2 P2 B2].
  split; [by eapply safe_trans|done|lia|lia|lia|auto|by eapply lasts].
Qed.

Lemma handled_gave_up g X w r w1 : handled g X w r w1 -> gave_up g w w1.
Proof. intros [S1 U T1 C1 P1 B1 Mk]. split; [done|lia|lia|done]. Qed.

Lemma handled_flows g X w r v w1 : handled g X w r w1 -> handled g X w (set_Coinflows v r) w1.
Proof. by intros []. Qed.

Lemma SafeAdd_bounds x y : 0 <= x -> 0 <= y -> 0 <= fst (Word.SafeAdd x y) <= x + y.
Proof.
  intros Hx Hy. unfold Word.SafeAdd. cbn [fst]. unfold u64. split; [apply Z.mod_pos_bound; lia|apply Z.mod_le; lia].
Qed.

Lemma run_contract_rest c h t m remaining source refund X :
  chain_ok c -> is_u64 (m_gasLimit m) -> 0 <= refund ->
  rest refund X (run_contract IgnoreAcctCheck c h t m remaining source refund).
Proof.
  intros Hc L Hr. unfold run_contract. apply rest_try; [done|]. intros v Ev.
  pose proof (co_machine _ Hc _ _ Ev) as V. cbv zeta.
  do 3 (apply rest_bind; [done|auto with working|intros _]).
  intros w R Mk. apply pwp_bind.
  eapply pwp_mono; [| |by apply pwp_apply_message]; [|intros e w1 S1; by apply (spent_gave_up 0)].
  intros [[out used] failed] w1 (Hu & S1 & _ & _).
  assert (ready w1) as R1 by (eapply ready_safe; [done|apply S1]).
  assert (X (w_db w1)) as Mk1 by (eapply lasts; [exact Mk|apply S1]).
  eapply pwp_mono.
  - intros r w2 H2. replace refund with (used + refund - used) by lia. exact (handled_spent _ _ _ _ _ _ _ S1 H2).
  - intros e w2 H2. replace refund with (used + refund - used) by lia. exact (gave_up_spent _ _ _ _ _ S1 H2).
  - refine ((_ : rest (used + refund) X _) w1 R1 Mk1).
    apply rest_bind; [lia|auto with working|intros _].
    pose proof (SafeAdd_bounds used refund Hu Hr) as Ha.
    set (p := if failed && _ then _ else _).
    assert (0 <= fst p <= used + refund) as Hp by (unfold p; destruct (_ && _); cbn [fst]; lia).
    destruct p as [gas overflow]. cbn [fst] in Hp.
    intros w2 R2 Mk2. apply pwp_bind.
    eapply pwp_mono; [| |apply (rest_createReceipt (used + refund)); [exact Hp|exact R2|exact Mk2]]; [|done].
    intros r w3 H3. apply pwp_bind.
    eapply pwp_mono; [| |apply working_SetBalance; eapply ready_safe; [exact R2|apply H3]].
    2: { intros e w4 S4. apply (handled_gave_up _ X _ r). by eapply handled_then. }
    intros ? w4 S4. pose proof (handled_then _ _ _ _ _ _ H3 S4) as H4. apply pwp_bind.
    destruct overflow; [by apply pwp_fail; eapply handled_gave_up|]. by apply pwp_ret, pwp_ret, handled_flows.
Qed.

Lemma working_checkIdle a h m : working (checkIdle a h m).
Proof. unfold checkIdle. working_tac. Qed.

Lemma ForceSafeSub_bounds x y : is_u64 x -> 0 <= y -> 0 <= Word.ForceSafeSub x y <= x.
Proof. intros Hx Hy. unfold Word.ForceSafeSub. destruct (Z.leb_spec x y); lia. Qed.

Lemma GasSub_ok n m : is_u64 (m_gasLimit m) -> 0 <= n -> is_u64 (m_gasLimit (GasSub n m)).
Proof. intros L N. cbn. pose proof (ForceSafeSub_bounds _ _ L N). lia. Qed.

(** The state a new contract is first deployed on. *)
Lemma ready_genesis pool d a n v :
  wf d -> 0 <= refund d ->
  ready (mkWork pool 0 (db_AddBalance IgnoreAcctCheck a n (db_SetBalance IgnoreAcctCheck a v d))).
Proof.
  intros W R. pose proof (moves_SetBalance IgnoreAcctCheck d a v W) as M1.
  pose proof (moves_AddBalance IgnoreAcctCheck _ a n (moves_wf _ _ _ _ M1)) as M2.
  split; cbn [w_db]; [by eapply moves_wf|]. by rewrite (mv_refund _ _ _ _ M2), (mv_refund _ _ _ _ M1).
Qed.

Lemma spent_pool n w pool :
  ready w -> pool + n <= w_gp w -> (is_u64 (w_gp w) -> is_u64 pool) -> spent n w (set_w_gp pool w).
Proof. intros R H Hb. split; cbn; [apply safe_refl, R|done..]. Qed.

(** Going on with the pool the first deployment left. *)
Lemma pwp_after_pool n (X : lasting) w pool (m : M Work Receipt) :
  ready w -> X (w_db w) -> pool + n <= w_gp w -> (is_u64 (w_gp w) -> is_u64 pool) -> rest n X m ->
  pwp m (handled 0 X w) (fun _ w' => gave_up 0 w w') (set_w_gp pool w).
Proof.
  intros R HX Hp Hb Hm. pose proof (spent_pool n w pool R Hp Hb) as S1.
  eapply pwp_mono; [| |apply Hm; [by destruct R|exact HX]].
  - intros r w2 H2. rewrite <- (Z.sub_diag n). exact (handled_spent _ _ _ _ _ _ _ S1 H2).
  - intros e w2 H2. rewrite <- (Z.sub_diag n). exact (gave_up_spent _ _ _ _ _ S1 H2).
Qed.

Lemma applyToContract_rest fuel c h t m remaining a source X :
  chain_ok c -> is_u64 (m_gasLimit m) ->
  rest 0 X (applyToContract IgnoreAcctCheck fuel c h t m remaining a source).
Proof.
  revert h X. induction fuel as [|fuel IH]; intros h X Hc L; cbn [applyToContract];
    (apply rest_bind; [done|apply working_checkIdle|intros _]);
    (destruct (_ && _); [|by apply run_contract_rest]).
  { destruct (GenesisState c); apply rest_panic. }
  destruct (GenesisState c) as [d|] eqn:Eg; [|by apply rest_fail].
  destruct (Word.SafeMul remaining (m_GasPrice m)) as [freeze overflow].
  destruct overflow; [by apply rest_fail|].
  apply rest_bind; [done|auto with working|intros nonce]. intros w R HX. apply pwp_bind, pwp_get.
  destruct (co_genesis _ Hc d Eg) as [Wd Rd].
  pose proof (IH (newHeader c h nonce) nothing Hc L _ (ready_genesis (w_gp w) d (m_from m) (freeze + m_Value m) 0 Wd Rd) I)
    as Hin.
  unfold pwp at 1. unfold pwp in Hin. cbn [w_gp w_total w_db].
  set (inner := applyToContract _ _ _ _ _ _ _ _ _ _) in *.
  assert (forall pool used, 0 <= used -> pool + used <= w_gp w -> (is_u64 (w_gp w) -> is_u64 pool) ->
            pwp (createReceipt IgnoreAcctCheck c source h (tx_Hash t) ActionContractDeal [] true remaining used None)
              (handled 0 X w) (fun _ w' => gave_up 0 w w') (set_w_gp pool w)) as Hfailing.
  { intros pool used Hu Hp Hb. apply (pwp_after_pool used); [done..|]. apply rest_createReceipt. lia. }
  destruct inner as [r w'|e w'|]; [| |done].
  - destruct Hin as [_ Hu Ht Hcu Hp Hb _]. cbn [w_total w_gp] in Hp, Hb. destruct (Failed_ r).
    + apply Hfailing; [lia|lia|exact Hb].
    + apply (pwp_after_pool (GasUsed r)); [done|done|lia|done|].
      apply run_contract_rest; [done|by apply GasSub_ok|done].
  - destruct Hin as [_ Ht Hp Hb]. cbn [w_total w_gp] in Ht, Hp, Hb.
    assert (gave_up 0 w (set_w_gp (w_gp w') w)) as Hgave.
    { apply (spent_gave_up 0); [done..|]. apply spent_pool; [done|lia|done]. }
    pose proof (ForceSafeSub_bounds (Word.Uint64 (w_gp w)) (Word.Uint64 (w_gp w')) (u64_range _)
                  (proj1 (u64_range _))) as Hf.
    set (used := Word.ForceSafeSub _ _) in *.
    destruct e; try (exact Hgave);
      (unfold SubGas, Word.Uint64 in *; destruct (Z.ltb_spec (u64 (w_gp w')) used); [exact Hgave|];
       apply Hfailing; [lia|lia|]; intros Hg; specialize (Hb Hg); rewrite u64_small in * by done; lia).
Qed.

(** The gas a contract step starts with. *)
Lemma ApplyToContract_handler c h t x msg :
  chain_ok c -> is_u64 (tx_GasLimit t) -> (forall limit, is_u64 limit -> message_ok msg t limit) ->
  handler 0 (mark (MC h) (GetTxActionStoreKey (tx_Hash t) ActionContractDeal))
    (ApplyToContract IgnoreAcctCheck c h t x msg).
Proof.
  intros Hc Lt Hm. unfold ApplyToContract. apply handler_bind; [done|auto with working|intros _]. cbv zeta.
  apply handler_bind; [done|auto with working|intros _]. apply handler_mark. intros _.
  set (g := match x with None => _ | Some _ => _ end).
  assert (forall w, ready w -> pwp g (fun limit w' => w' = w /\ is_u64 limit) (fun _ w' => w' = w) w) as Hg.
  { intros w R. unfold g. destruct x as [x|]; [|by apply pwp_ret].
    destruct (UnitID_IsEmpty (PreStep x)).
    - destruct (Tx x); [by apply pwp_ret|by apply pwp_fail].
    - destruct (GetTxReceiptAtUnit c _ _) as [r|] eqn:Er; [|by apply pwp_fail].
      destruct (Failed_ r); [by apply pwp_fail|]. apply pwp_ret. split; [done|]. by eapply co_receipt. }
  intros w R Mk. apply pwp_bind. eapply pwp_mono; [| |by apply Hg].
  2: { intros e ? ->. apply (spent_gave_up 0); [done..|by apply spent_refl]. }
  intros limit ? [-> Ll]. specialize (Hm limit Ll). apply pwp_bind, pwp_wp, wp_tx_message.
  2: { intros e _. apply (spent_gave_up 0); [done..|by apply spent_refl]. }
  intros m Em. destruct x as [x|]; [|done].
  refine ((_ : rest 0 _ _) w R Mk). apply applyToContract_rest; [done|by apply Hm].
Qed.

(** ** Any transaction *)

(** What the source's records hold of a transaction. *)
Record exec_ok (c : Chain) (x : TransactionExec) (msg : option Message) : Prop := {
  eo_limit t : QueryOriginTx c x = Ok t -> is_u64 (tx_GasLimit t);
  eo_message t limit : QueryOriginTx c x = Ok t -> is_u64 limit -> message_ok msg t limit;
  eo_same t : QueryOriginTx c x = Ok t -> same_tx msg t;
  eo_hash t : QueryOriginTx c x = Ok t -> tx_Hash t = TxHash x
}.

(** The action a step is marked with: all three deal actions are one. *)
Definition marked_action (a : TxAction) : TxAction :=
  match a with
  | ActionPowTxContractDeal | ActionSCIdleContractDeal => ActionContractDeal
  | a => a
  end.
Definition exec_key (x : TransactionExec) : Hash :=
  GetTxActionStoreKey (TxHash x) (marked_action (Action x)).

Lemma ProcessTransaction_handler c h x msg :
  chain_ok c -> exec_ok c x msg ->
  handler 0 (mark (MC h) (exec_key x)) (ProcessTransaction IgnoreAcctCheck c h (Some x) msg).
Proof.
  intros Hc Hx. unfold ProcessTransaction. apply handler_try; [done|]. intros t Et.
  pose proof (eo_limit _ _ _ Hx t Et) as L. pose proof (eo_same _ _ _ Hx t Et) as Hs.
  pose proof (fun limit => eo_message _ _ _ Hx t limit Et) as Hm. pose proof (eo_hash _ _ _ Hx t Et) as Hh.
  do 2 (apply handler_bind; [done|working_tac|intros _]).
  unfold exec_key. rewrite <- Hh. destruct (Action x); cbn [marked_action].
  - apply ApplyPayment_handler; auto.
  - apply ApplyReceive_handler.
  - apply ApplyFreeze_handler; auto.
  - by apply ApplyToContract_handler.
  - by apply ApplyToContract_handler.
  - by apply ApplyToContract_handler.
  - apply ApplyRefund_handler.
  - rewrite Hh. apply ApplyContractReceipt_handler.
Qed.

End Handlers.

End Handlers.
