(* ===== verification/TxUnit.v ===== *)
(** The transactions of one unit ([Process]): gas, marks and receipts. *)
From S2P Require Import Prelude Bech32 Address EvmWord EvmAnalysis EvmState EvmSafe StateDb Ovm StateView StateRevert Bloom TxTransition TxProcess TxLedger TxSettle TxChains TxSafe TxHandlers.

Import Db Ovm View Revert Transition Process Ledger Settle Chains Safely Handlers.

Module Unit.

Section Unit.
Context {P : Params} {B : Backing} {K : State.Crypto} {KO : Safe.CryptoOk K} {C : TxCodec}.
Context (IgnoreAcctCheck : bool).

Local Abbreviation wf := (wf IgnoreAcctCheck).
Local Abbreviation marked := (marked IgnoreAcctCheck).

Context (protected : Address -> Hash -> Prop).

Local Abbreviation ready := (ready IgnoreAcctCheck).
Local Abbreviation working := (working IgnoreAcctCheck protected).
Local Abbreviation lasting := (lasting IgnoreAcctCheck protected).
Local Abbreviation mark := (mark IgnoreAcctCheck protected).
Local Abbreviation holds := (holds IgnoreAcctCheck protected).
Local Abbreviation chain_ok := (chain_ok IgnoreAcctCheck protected).

(** ** Setting the transaction whose logs follow *)

Lemma wf_Prepare th bh i n s : wf s -> wf (Prepare th bh i n s).
Proof.
  intros [W1 W2 W3 W4 W5 W6 [W7 W8 W9]]. by split.
Qed.

Lemma Prepare_seen th bh i n s : seen_alike IgnoreAcctCheck (Prepare th bh i n s) s.
Proof.
  by split.
Qed.

Lemma ready_Prepare th bh i n w : ready w -> ready (set_w_db (Prepare th bh i n (w_db w)) w).
Proof. intros [W R]. split; [by apply wf_Prepare|done]. Qed.

Lemma marked_Prepare th bh i n s a k : marked (Prepare th bh i n s) a k <-> marked s a k.
Proof. done. Qed.

(** ** A marked step is refused *)

Definition refused {A} (X : lasting) (m : M Work A) : Prop :=
  forall w, ready w -> holds X (w_db w) -> pwp m (fun _ _ => False) (fun _ _ => True) w.

Lemma refused_bind {A A'} X (m : M Work A) (f : A -> M Work A') :
  working m -> (forall a, refused X (f a)) -> refused X (bind m f).
Proof.
  intros Hm Hf w R HX. apply pwp_bind. eapply pwp_mono; [| |by apply Hm]; [|done].
  intros a w1 S1. apply Hf.
  - eapply ready_safe; [done|apply S1].
  - eapply lasts; [exact HX|apply S1].
Qed.

Lemma refused_check {A} chain h a (f : unit -> M Work A) :
  protected chain (GetTxActionStoreKey h a) ->
  refused (mark chain (GetTxActionStoreKey h a)) (bind (check_action IgnoreAcctCheck chain h a) f).
Proof.
  intros Hp w R HX. apply pwp_bind, pwp_wp, wp_check_action; [apply R| |done].
  intros d _ N. by specialize (HX Hp).
Qed.

Lemma refused_try {A A'} X (r : result error A) (f : A -> M Work A') :
  (forall a, r = Ok a -> refused X (f a)) -> refused X (bind (try r) f).
Proof. intros H w R HX. apply pwp_bind, pwp_try; [|done]. intros a E. by apply H. Qed.

Lemma refused_message {A} X msg t limit (f : Message -> M Work A) :
  (forall m, the_message msg t limit = Ok m -> refused X (f m)) ->
  refused X (bind (tx_message msg t limit) f).
Proof. intros H w R HX. apply pwp_bind, pwp_wp, wp_tx_message; [|done]. intros m E. by apply H. Qed.

Create HintDb working.
Ltac refusing :=
  repeat first [ apply refused_check; assumption
               | apply refused_bind; [solve [auto with working nocore]|intros ?]
               | apply refused_bind; [match goal with |- _ (match ?x with _ => _ end) => destruct x end;
                                      solve [auto with working nocore]|intros ?] ].

#[local] Hint Resolve working_ret working_fail working_try working_guard working_check working_ClearFlow : working.

Lemma ProcessTransaction_refused c h x msg :
  exec_ok c x msg -> protected (MC h) (exec_key x) ->
  refused (mark (MC h) (exec_key x)) (ProcessTransaction IgnoreAcctCheck c h (Some x) msg).
Proof.
  intros Hx. unfold ProcessTransaction, exec_key. intros Hp. apply refused_try. intros t Et.
  pose proof (eo_same _ _ _ Hx t Et) as Hs. pose proof (eo_hash _ _ _ Hx t Et) as Hh.
  apply refused_bind; [destruct (negb _); [destruct (CheckChainIsStopped _ _ _)|]; auto with working nocore|intros _].
  apply refused_bind; [auto with working nocore|intros _].
  destruct (Action x); cbn [marked_action] in *; rewrite <- Hh in *.
  - unfold ApplyPayment. apply refused_message. intros m Em. rewrite <- (the_message_ID _ _ _ _ Hs Em) in *.
    refusing.
  - unfold ApplyReceive. refusing.
  - unfold ApplyFreeze. apply refused_message. intros m Em. rewrite <- (the_message_ID _ _ _ _ Hs Em) in *.
    refusing.
  - unfold ApplyToContract. cbv zeta. refusing.
  - unfold ApplyToContract. cbv zeta. refusing.
  - unfold ApplyToContract. cbv zeta. refusing.
  - unfold ApplyRefund. apply refused_try. intros m Em. rewrite <- (AsMessage_ID _ _ _ Em) in *. refusing.
  - rewrite Hh in *. unfold ApplyContractReceipt, previous. refusing.
Qed.

(** ** A whole unit *)

Definition total_gas (rs : list Receipt) : Z := foldr (fun r sum => GasUsed r + sum) 0 rs.

(** Every receipt counts the gas used so far. *)
Fixpoint cumulate (before : Z) (rs : list Receipt) : Prop :=
  match rs with
  | [] => True
  | r :: rs => CumulativeGasUsed r = before + GasUsed r /\ 0 <= GasUsed r /\
               cumulate (before + GasUsed r) rs
  end.

(** What executing the transactions [txs] of a chain leaves. *)
Record executed_all (chain : Address) (txs : list TransactionExec) (w : Work)
    (rs : list Receipt) (w' : Work) : Prop := {
  xa_ready : ready w';
  xa_length : length rs = length txs;
  xa_total : w_total w' = w_total w + total_gas rs;
  xa_cumulate : cumulate (w_total w) rs;
  xa_pool : w_gp w' + total_gas rs <= w_gp w;
  xa_bound : is_u64 (w_gp w) -> is_u64 (w_gp w');
  xa_marks k : protected chain k -> marked (w_db w) chain k -> marked (w_db w') chain k;
  xa_marked x : In x txs -> protected chain (exec_key x) -> marked (w_db w') chain (exec_key x);
  xa_fresh x : In x txs -> protected chain (exec_key x) -> ~ marked (w_db w) chain (exec_key x);
  xa_once : (forall x, In x txs -> protected chain (exec_key x)) -> NoDup (map exec_key txs)
}.

Lemma executed_none chain w : ready w -> executed_all chain [] w [] w.
Proof. intros R. split; try done; cbn; [lia|lia|by constructor]. Qed.

Lemma executed_cons chain x txs w th bh i n r w1 rs w2 :
  handled IgnoreAcctCheck protected 0 (mark chain (exec_key x))
    (set_w_db (Prepare th bh i n (w_db w)) w) r w1 -> ready w1 ->
  (protected chain (exec_key x) -> ~ marked (w_db w) chain (exec_key x)) ->
  executed_all chain txs w1 rs w2 -> executed_all chain (x :: txs) w (r :: rs) w2.
Proof.
  intros [S1 U1 T1 C1 P1 B1 Mk] R1 Fr [R2 L2 T2 C2 P2 B2 M2 Md2 F2 O2].
  assert (forall a k, protected a k -> marked (w_db w) a k -> marked (w_db w1) a k) as M1.
  { intros a k Hp H. by apply S1. }
  cbn [w_db w_gp w_total set_w_db] in *.
  split; cbn [length total_gas foldr cumulate]; fold (total_gas rs); try done; try lia.
  - rewrite <- T1. split_and!; [congruence|done|done].
  - auto.
  - intros y [<-|Hy] Hp; [apply M2; [done|by apply Mk]|by apply Md2].
  - intros y [<-|Hy] Hp H; [by apply Fr|]. apply (F2 y Hy Hp). by apply M1.
  - intros Hp. cbn [map]. apply NoDup_cons_2; [|apply O2; intros y Hy; apply Hp; by right].
    intros Hin. apply list_elem_of_In, in_map_iff in Hin as (y & Ey & Hy).
    assert (protected chain (exec_key y)) as Hpy by (apply Hp; by right).
    apply (F2 y Hy Hpy). rewrite Ey. apply Mk. apply Hp. by left.
Qed.

Lemma process_all_spec c h uh i txs w rs ls w' :
  chain_ok c -> (forall x, In x txs -> exec_ok c x None) -> ready w ->
  process_all IgnoreAcctCheck c h uh i txs w = Done (rs, ls) w' ->
  executed_all (MC h) txs w rs w' /\ ls = concat (map rc_Logs rs).
Proof.
  intros Hc. revert i w rs ls. induction txs as [|x txs IH]; intros i w rs ls Hx R; cbn [process_all].
  { intros [= <- <- <-]. split; [by apply executed_none|done]. }
  unfold bind at 1, do_db, on_db. set (w0 := set_w_db _ w).
  assert (ready w0) as R0 by (by apply ready_Prepare).
  assert (exec_ok c x None) as Hx1 by (apply Hx; by left).
  pose proof (ProcessTransaction_handler IgnoreAcctCheck protected c h x None Hc Hx1 w0 R0) as Hh.
  unfold pwp in Hh. unfold bind at 1.
  destruct (ProcessTransaction _ _ _ _ _ w0) as [r w1| |] eqn:E1; [|done..].
  assert (ready w1) as R1 by (eapply ready_safe; [exact R0|apply Hh]).
  unfold bind at 1. destruct (process_all _ _ _ _ _ _ w1) as [[rs1 ls1] w2| |] eqn:E2; [|done..].
  intros [= <- <- <-].
  destruct (IH (i + 1) w1 rs1 ls1) as [X ->]; [intros y Hy; apply Hx; by right|done|done|].
  split; [|done]. apply (executed_cons _ _ _ _ _ _ _ _ _ w1 _ _ Hh R1); [|done].
  intros Hp H. pose proof (ProcessTransaction_refused c h x None Hx1 Hp w0 R0 (fun _ => H)) as Hr.
  unfold pwp in Hr. by rewrite E1 in Hr.
Qed.
Lemma cumulate_nonneg b rs : cumulate b rs -> 0 <= total_gas rs.
Proof.
  revert b. induction rs as [|r rs IH]; intros b; cbn; [lia|]. intros (_ & U & H). specialize (IH _ H).
  unfold total_gas in IH. lia.
Qed.

Lemma Process_spec c h uh gasLimit txs d rs ls used d' :
  chain_ok c -> (forall x, In x txs -> exec_ok c x None) -> wf d -> 0 <= refund d ->
  Process IgnoreAcctCheck c h uh gasLimit txs d = Done (rs, ls, used) d' ->
  exists w', executed_all (MC h) txs (mkWork gasLimit 0 d) rs w' /\ ls = concat (map rc_Logs rs) /\
    used = u64 (total_gas rs) /\ d' = w_db w'.
Proof.
  intros Hc Hx W R. unfold Process. destruct (process_all _ _ _ _ _ _ _) as [[rs1 ls1] w'| |] eqn:E; [|done..].
  intros [= <- <- <- <-]. assert (ready (mkWork gasLimit 0 d)) as Rd by (by split).
  destruct (process_all_spec _ _ _ _ _ _ _ _ _ Hc Hx Rd E) as [X ->].
  exists w'. split_and!; try done. unfold Word.Uint64. by rewrite (xa_total _ _ _ _ _ X).
Qed.

End Unit.

Section Properties.
Context {P : Params} {B : Backing} {K : State.Crypto} {KO : Safe.CryptoOk K} {C : TxCodec}.
Context (IgnoreAcctCheck : bool).

(** C12: a unit's gas is accounted for.  When [Process] accepts the
    transactions of a unit, over a machine that gives back no more gas than it
    got, then there is one receipt per transaction, every receipt's cumulative
    gas is the sum of the gas used up to it, the unit's gas is the sum over all
    of them and within the unit's gas limit, the logs are the receipts' logs in
    order, and the account state is still well formed. *)
Theorem unit_gas_accounted c h uh gasLimit txs d rs ls used d' :
  chain_ok IgnoreAcctCheck (fun _ _ => False) c -> (forall x, In x txs -> exec_ok c x None) ->
  wf IgnoreAcctCheck d -> 0 <= refund d -> is_u64 gasLimit ->
  Process IgnoreAcctCheck c h uh gasLimit txs d = Done (rs, ls, used) d' ->
  length rs = length txs /\ cumulate 0 rs /\ used = total_gas rs /\ 0 <= used <= gasLimit /\
  ls = concat (map rc_Logs rs) /\ wf IgnoreAcctCheck d'.
Proof.
  intros Hc Hx W R Hg E.
  destruct (Process_spec IgnoreAcctCheck (fun _ _ => False) _ _ _ _ _ _ _ _ _ _ Hc Hx W R E) as (w' & X & Hl & -> & ->).
  pose proof (cumulate_nonneg _ _ (xa_cumulate _ _ _ _ _ _ _ X)) as Hn.
  pose proof (xa_pool _ _ _ _ _ _ _ X) as Hp. pose proof (xa_bound _ _ _ _ _ _ _ X Hg) as Hb. cbn [w_gp] in *.
  rewrite u64_small by lia. split_and!; try done; try lia; [apply X|apply X|apply (xa_ready _ _ _ _ _ _ _ X)].
Qed.

(** C11: no step is executed twice as long as no call of the contract machine
    clears a mark.  When [Process] accepts the transactions of a unit, and the
    machine keeps the marks of the steps in it ([protected], of which contract
    code has to leave the slots alone; nothing prevents it from clearing them), no
    two of them are the same step of the same transaction, none was executed on
    the chain before, and all are marked afterwards. *)
Theorem unit_steps_once protected c h uh gasLimit txs d rs ls used d' :
  chain_ok IgnoreAcctCheck protected c -> (forall x, In x txs -> exec_ok c x None) ->
  wf IgnoreAcctCheck d -> 0 <= refund d ->
  (forall x, In x txs -> protected (MC h) (exec_key x)) ->
  Process IgnoreAcctCheck c h uh gasLimit txs d = Done (rs, ls, used) d' ->
  NoDup (map exec_key txs) /\
  (forall x, In x txs -> ~ marked IgnoreAcctCheck d (MC h) (exec_key x) /\
                         marked IgnoreAcctCheck d' (MC h) (exec_key x)) /\
  (forall k, protected (MC h) k -> marked IgnoreAcctCheck d (MC h) k -> marked IgnoreAcctCheck d' (MC h) k).
Proof.
  intros Hc Hx W R Hp E.
  destruct (Process_spec IgnoreAcctCheck protected _ _ _ _ _ _ _ _ _ _ Hc Hx W R E) as (w' & X & _ & _ & ->).
  split; [by apply (xa_once _ _ _ _ _ _ _ X)|]. split; [|by apply (xa_marks _ _ _ _ _ _ _ X)].
  intros x Hin. split; [by apply (xa_fresh _ _ _ _ _ _ _ X), Hp|by apply (xa_marked _ _ _ _ _ _ _ X), Hp].
Qed.

End Properties.

End Unit.
