(* ===== verification/TxMining.v ===== *)
(** Building a unit ([src/witness/mining.go]): taking jobs off the chain's queue,
    trying each on the unit's state, keeping those that succeed.

    What other goroutines and the clock do is a list of events: a job arrives,
    the packing loop polls the queue, the time is over, the round is
    interrupted. *)
From stdpp Require Import gmap list.
From S2P Require Import Prelude Bech32 Address EvmWord EvmAnalysis EvmState StateDb Ovm Bloom TxTransition SortSlice JobQueue TxProcess.

Import Db Ovm Transition SortSlice JobQueue Process.

Module Mining.

Section Mining.
Context {P : Params} {B : Backing} {K : State.Crypto} {C : TxCodec} (IgnoreAcctCheck : bool).

(** What the miner asks of the chain database, the configuration and the trie
    of receipts ([types.DeriveSha]). *)
Record Miner := mkMiner {
  mi_chain : Chain;
  GetHeader : Hash -> option Header;
  LowestGasPrice : Z;
  is_testnet : bool;
  DeriveSha : list Receipt -> Hash
}.

(** [IsSCIdleContract]. *)
Definition IsSCIdleContract (inputData : bytes) : bool :=
  if (length inputData <? 4)%nat then false
  else
    let id := Bytes2Hex (take 4 inputData) in
    bool_decide (id = FuncIdSystemHeartbeat) || bool_decide (id = FuncIdMemberHeartbeat)
    || bool_decide (id = FuncReplaceWitnessExecuteID) || bool_decide (id = FuncReportDishonest)
    || bool_decide (id = FuncIdRemoveInvalid).

(** [ConvertToTxExec]; a message without its transaction panics. *)
Definition ConvertToTxExec (m : TxExecMsg) : option TransactionExec :=
  match msg_Tx m with
  | None => None
  | Some t =>
      let pre :=
        match msg_Action m with
        | ActionTransferPayment | ActionContractFreeze => noUnit
        | ActionPowTxContractDeal | ActionSCIdleContractDeal => noUnit
        | ActionContractDeal | ActionTransferReceipt =>
            if negb (IsSCIdleContract (tx_Payload t)) then msg_PreAction m else noUnit
        | ActionContractReceipt | ActionContractRefund => msg_PreAction m
        end in
      Some (mkExec (msg_Action m) pre (tx_Hash t) (Some t))
  end.

(** ** Times, in nanoseconds *)

Definition int64 (z : Z) : Z := if u64 z <? 2 ^ 63 then u64 z else u64 z - 2 ^ 64.
Definition second : Z := 1000000000.

(** [ExpirationTime]: no time is the zero time. *)
Definition ExpirationTime (t : Transaction) : option Z :=
  if tx_Timeout t >? 0 then Some (int64 (tx_Time t) + int64 (second * int64 (tx_Timeout t))) else None.

(** [Expired] and [IsFuture] at the time of a unit's stamp. *)
Definition Expired (t : Transaction) (stamp : Z) : bool :=
  if (tx_Seed t >? 0) && (u64 (tx_Time t + 3600 * second) <? u64 stamp) then true
  else match ExpirationTime t with None => false | Some e => int64 stamp >? e end.
Definition IsFuture (t : Transaction) (stamp : Z) : bool :=
  int64 (tx_Time t) - int64 stamp >? 120 * second.

(** ** One transaction *)

(** The checks of a step that is a transaction's first.  The price of a free
    transaction is not looked at. *)
Definition check_first (priceLimit : Z) (h : Header) (x : TransactionExec) : M Work unit :=
  if UnitID_IsEmpty (PreStep x) then
    match Tx x with
    | None => panic
    | Some t =>
        guard (negb (negb (IsFreeTx t) && (tx_Price t <? priceLimit))) ErrInvalidTx ;;;
        guard (negb (Expired t (Timestamp h))) ErrInvalidTx ;;;
        guard (negb (IsFuture t (Timestamp h))) ErrInvalidTx
    end
  else ret tt.

(** The transaction as it goes into the unit. *)
Definition stored (x : TransactionExec) : TransactionExec :=
  if UnitID_IsEmpty (PreStep x) then x else mkExec (Action x) (PreStep x) (TxHash x) None.

(** Executing on a snapshot, which a failure takes back; the gas pool is not
    part of it. *)
Definition attempt (mi : Miner) (h : Header) (index : Z) (x : TransactionExec) : M Work Receipt :=
  fun w =>
    let '(revid, d) := Snapshot (w_db w) in
    let d := Prepare (TxHash x) 0 index (Number h) d in
    match ProcessTransaction IgnoreAcctCheck (mi_chain mi) h (Some x) None (set_w_db d w) with
    | Done r w => Done r w
    | Failed e w =>
        match RevertToSnapshot IgnoreAcctCheck revid (w_db w) with
        | None => Panicked
        | Some d => Failed e (set_w_db d w)
        end
    | Panicked => Panicked
    end.

Definition handleTx (mi : Miner) (msg : TxExecMsg) (h : Header) (priceLimit index : Z)
    : M Work (TransactionExec * Receipt) :=
  (if negb (UnitID_IsEmpty (msg_PreAction msg)) then
     match GetHeader mi (unit_Hash (msg_PreAction msg)) with
     | None => ret tt
     | Some pre => guard (negb (Timestamp pre >=? Timestamp h)) ErrRollbackTx
     end
   else ret tt) ;;;
  match ConvertToTxExec msg, msg_Tx msg with
  | Some x, Some t =>
      guard (negb (bool_decide (MC h = SCAccount) && (tx_GasLimit t >=? 8000000) && is_testnet mi))
        ErrInvalidTx ;;;
      check_first priceLimit h x ;;;
      let! r := attempt mi h index x in
      ret (stored x, r)
  | _, _ => panic
  end.

(** ** Packing *)

Definition zeroGasUseMaxSum : Z := 200.
Definition MaxUint16 : Z := 65535.

Record Pack := mkPack {
  p_work : Work;
  zeroGasSum : Z;
  p_index : Z;
  p_result : list TransactionExec;
  p_success : list TxExecMsg;
  p_receipts : list Receipt;
  p_logs : list StoredLog;
  p_rollback : list TxExecMsg;
  p_errors : list TxExecMsg
}.

Definition set_work w p := mkPack w (zeroGasSum p) (p_index p) (p_result p) (p_success p) (p_receipts p)
  (p_logs p) (p_rollback p) (p_errors p).
Definition add_zero p := mkPack (p_work p) (zeroGasSum p + 1) (p_index p) (p_result p) (p_success p)
  (p_receipts p) (p_logs p) (p_rollback p) (p_errors p).
Definition add_rollback ms p := mkPack (p_work p) (zeroGasSum p) (p_index p) (p_result p) (p_success p)
  (p_receipts p) (p_logs p) (p_rollback p ++ ms) (p_errors p).
Definition add_error m p := mkPack (p_work p) (zeroGasSum p) (p_index p) (p_result p) (p_success p)
  (p_receipts p) (p_logs p) (p_rollback p) (p_errors p ++ [m]).
Definition add_success x m r p := mkPack (p_work p) (zeroGasSum p) (p_index p + 1) (p_result p ++ [x])
  (p_success p ++ [m]) (p_receipts p ++ [r]) (p_logs p ++ rc_Logs r) (p_rollback p) (p_errors p).

(** The steps that use next to no gas are counted. *)
Definition is_zero_gas (a : TxAction) : bool :=
  match a with
  | ActionTransferReceipt | ActionContractRefund | ActionSCIdleContractDeal => true
  | _ => false
  end.

(** [processTx]: whether to go on; [None] is a panic. *)
Definition processTx (mi : Miner) (h : Header) (priceLimit : Z) (m : TxExecMsg) (p : Pack)
    : option (bool * Pack) :=
  if Word.Uint64 (w_gp (p_work p)) <? TxGas then Some (false, add_rollback [m] p)
  else
    let zero := is_zero_gas (msg_Action m) in
    let p := if zero then add_zero p else p in
    if zero && (zeroGasSum p >=? zeroGasUseMaxSum) then Some (false, add_rollback [m] p)
    else
      match handleTx mi m h priceLimit (p_index p) (p_work p) with
      | Panicked => None
      | Failed e w =>
          let p := set_work w p in
          match e with
          | ErrGasLimitReached => Some (p_index p =? 0, add_rollback [m] p)
          | ErrInvalidTx => Some (true, p)
          | ErrRollbackTx => Some (true, add_rollback [m] p)
          | _ => Some (true, add_error m p)
          end
      | Done (x, r) w =>
          let p := add_success x m r (set_work w p) in
          Some (p_index p <=? MaxUint16, p)
      end.

(** The unit's own transactions; whether to go on does not matter. *)
Fixpoint process_own (mi : Miner) (h : Header) (priceLimit : Z) (ms : list TxExecMsg) (p : Pack)
    : option Pack :=
  match ms with
  | [] => Some p
  | m :: ms =>
      match processTx mi h priceLimit m p with
      | None => None
      | Some (_, p) => process_own mi h priceLimit ms p
      end
  end.

Inductive event := Poll | Arrive (m : TxExecMsg) | Timeout | Interrupt.

Inductive loop_end :=
| Crashed
| Running (q : ChainJobQueue) (p : Pack)
| Stopped (interrupted : bool) (q : ChainJobQueue) (p : Pack).

Fixpoint pack_loop (mi : Miner) (h : Header) (priceLimit : Z) (es : list event) (q : ChainJobQueue)
    (p : Pack) : loop_end :=
  match es with
  | [] => Running q p
  | Timeout :: _ => Stopped false q p
  | Interrupt :: _ => Stopped true q (add_rollback (p_success p) p)
  | Arrive m :: es => pack_loop mi h priceLimit es (snd (q_Push m q)) p
  | Poll :: es =>
      let '(item, _, q) := q_Pop q in
      match item with
      | None => pack_loop mi h priceLimit es q p
      | Some m =>
          match processTx mi h priceLimit m p with
          | None => Crashed
          | Some (true, p) => pack_loop mi h priceLimit es q p
          | Some (false, p) => Stopped false q p
          end
      end
  end.

Definition start_pack (gasLimit : Z) (d : StateDB) : Pack :=
  mkPack (mkWork gasLimit 0 d) 0 0 [] [] [] [] [] [].

Inductive pack_error := errConsensusInterrupt | errNoSuccessTx.

(** The header fields that the packed transactions determine. *)
Record PackedHeader := mkPackedHeader {
  ph_StateRoot : Hash;
  ph_GasUsed : Z;
  ph_ReceiptRoot : Hash;
  ph_Bloom : Bloom.Bloom
}.

Record Packed := mkPacked {
  pk_pack : Pack;
  pk_header : option PackedHeader;
  pk_error : option pack_error;
  pk_requeued : list TxExecMsg;
  pk_removed : list Hash
}.

(** The end of [packTxs]: the header, and what the deferred function does with
    the jobs that did not make it. *)
Definition finish_pack (mi : Miner) (h : Header) (own : list TxExecMsg) (interrupted : bool) (p : Pack)
    : option Packed :=
  let selfHash := map msg_TXHash own in
  let foreign m := negb (bool_decide (msg_TXHash m ∈ selfHash)) in
  let done hdr err d :=
    Some (mkPacked (set_work (set_w_db d (p_work p)) p) hdr err (List.filter foreign (p_rollback p))
            (map msg_TXHash (List.filter foreign (p_errors p)))) in
  if (length (p_result p) =? 0)%nat then done None (Some errNoSuccessTx) (w_db (p_work p))
  else
    match IntermediateRoot (MC h) (w_db (p_work p)), Bloom.CreateBloom (map rc_Logs (p_receipts p)) with
    | Some (root, _, d), Some bloom =>
        done (Some (mkPackedHeader root (Word.Uint64 (w_total (p_work p))) (DeriveSha mi (p_receipts p)) bloom))
          (if interrupted then Some errConsensusInterrupt else None) d
    | _, _ => None
    end.

(** [packTxs]; without a queue the loop ends at once.  [None] is a panic, or
    that the events do not end the loop. *)
Definition packTxs (mi : Miner) (h : Header) (gasLimit : Z) (own : list TxExecMsg) (es : list event)
    (q : option ChainJobQueue) (d : StateDB) : option (Packed * option ChainJobQueue) :=
  let priceLimit := LowestGasPrice mi in
  match process_own mi h priceLimit own (start_pack gasLimit d) with
  | None => None
  | Some p =>
      match q with
      | None => option_map (fun pk => (pk, None)) (finish_pack mi h own false p)
      | Some q =>
          match pack_loop mi h priceLimit es q p with
          | Stopped interrupted q p =>
              option_map (fun pk => (pk, Some q)) (finish_pack mi h own interrupted p)
          | _ => None
          end
      end
  end.

End Mining.

End Mining.
