(* ===== verification/TxPack.v ===== *)
(** What building a unit guarantees: a step that fails leaves no trace, and
    every job taken off the queue is accounted for. *)
From stdpp Require Import gmap list.
From S2P Require Import Prelude Bech32 Address EvmWord EvmAnalysis EvmState EvmSafe StateDb Ovm StateView StateRevert Bloom TxTransition TxProcess SortSlice JobQueue TxLedger TxSettle TxChains TxSafe TxHandlers TxUnit TxMining.

Import Db Ovm View Revert Transition Process SortSlice JobQueue Ledger Settle Chains Safely Handlers Unit Mining.

Module Packing.

Ltac pack_cbn := cbn [p_work p_index p_result p_success p_receipts p_logs p_rollback p_errors zeroGasSum
  set_work add_success start_pack w_db w_gp w_total].

Section Packing.
Context {P : Params} {B : Backing} {K : State.Crypto} {KO : Safe.CryptoOk K} {C : TxCodec}.
Context (IgnoreAcctCheck : bool).

Local Abbreviation wf := (wf IgnoreAcctCheck).
Local Abbreviation marked := (marked IgnoreAcctCheck).
Local Abbreviation ready := (ready IgnoreAcctCheck).
Local Abbreviation answers_alike := (answers_alike IgnoreAcctCheck).

Context (protected : Address -> Hash -> Prop).

Local Abbreviation safe := (safe IgnoreAcctCheck protected).

(** ** Attempts *)

Lemma conj_ready w : wf (w_db w) -> 0 <= refund (w_db w) -> ready w.
Proof. by split. Qed.

Lemma answers_trans s t u : answers_alike s t -> answers_alike t u -> answers_alike s u.
Proof.
  intros S T. split; intros; etrans;
    try (apply S); try (apply T).
Qed.

(** What an attempt that fails leaves of the shared state. *)
Record undone (w w' : Work) : Prop := {
  ud_ready : ready w';
  ud_alike : answers_alike (w_db w') (w_db w);
  ud_marks a k : protected a k -> marked (w_db w) a k -> marked (w_db w') a k;
  ud_total : w_total w <= w_total w';
  ud_pool : w_gp w' + w_total w' <= w_gp w + w_total w;
  ud_bound : is_u64 (w_gp w) -> is_u64 (w_gp w')
}.

Lemma undone_refl w : ready w -> undone w w.
Proof. intros R. split; try done; lia. Qed.

(** What an attempt that succeeds leaves. *)
Record kept_step (chain : Address) (x : TransactionExec) (w : Work) (r : Receipt) (w' : Work) : Prop := {
  ks_ready : ready w';
  ks_used : 0 <= GasUsed r;
  ks_total : w_total w' = w_total w + GasUsed r;
  ks_pool : w_gp w' + GasUsed r <= w_gp w;
  ks_bound : is_u64 (w_gp w) -> is_u64 (w_gp w');
  ks_fresh : protected chain (exec_key x) -> ~ marked (w_db w) chain (exec_key x);
  ks_mark : protected chain (exec_key x) -> marked (w_db w') chain (exec_key x);
  ks_marks a k : protected a k -> marked (w_db w) a k -> marked (w_db w') a k
}.

Lemma Snapshot_Prepare th bh i n s :
  Prepare th bh i n (snd (Snapshot s)) = snd (Snapshot (Prepare th bh i n s)).
Proof. done. Qed.

Lemma attempt_spec mi h index x w :
  chain_ok IgnoreAcctCheck protected (mi_chain mi) -> exec_ok (mi_chain mi) x None -> ready w ->
  pwp (attempt IgnoreAcctCheck mi h index x) (kept_step (MC h) x w) (fun _ w' => undone w w') w.
Proof.
  intros Hc Hx R. unfold pwp, attempt. destruct (Snapshot (w_db w)) as [revid d1] eqn:E.
  set (s := Prepare (TxHash x) 0 index (Number h) (w_db w)).
  assert (Prepare (TxHash x) 0 index (Number h) d1 = snd (Snapshot s)) as ->.
  { replace d1 with (snd (Snapshot (w_db w))) by (by rewrite E). done. }
  assert (revid = fst (Snapshot s)) as -> by (by injection E as <- _).
  assert (wf s) as Ws by (by apply wf_Prepare, R).
  pose proof (Snapshot_keeps IgnoreAcctCheck s Ws) as K1. set (w0 := set_w_db (snd (Snapshot s)) w).
  assert (ready w0) as R0 by (split; [apply K1|apply R]).
  pose proof (ProcessTransaction_handler IgnoreAcctCheck protected _ h x None Hc Hx w0 R0) as H.
  unfold pwp in H.
  destruct (ProcessTransaction IgnoreAcctCheck (mi_chain mi) h (Some x) None w0) as [r w'|e w'|] eqn:Ep; [| |done].
  - assert (protected (MC h) (exec_key x) -> ~ marked (w_db w) (MC h) (exec_key x)) as Hfresh.
    { intros Hp Hm.
      pose proof (ProcessTransaction_refused IgnoreAcctCheck protected _ h x None Hx Hp w0 R0 (fun _ => Hm)) as Hr.
      unfold pwp in Hr. by rewrite Ep in Hr. }
    clear Ep. destruct H as [S U T Cu Pl Bd Mk]. split; cbn in *; try done; try lia.
    + by eapply ready_safe; [exact R0|].
    + intros a k Hp Hm. by apply S.
  - destruct H as [S T Pl Bd]. destruct (safe_revert IgnoreAcctCheck protected s (w_db w') Ws S)
      as (u & -> & Su & Au). split; cbn in *; try done; try lia.
    + split; cbn; [apply (safe_wf _ _ _ _ Su)|]. apply Su. apply R.
    + eapply answers_trans; [exact Au|]. by apply seen_answers, Prepare_seen.
    + intros a k Hp Hm. by apply Su.
Qed.

(** ** Jobs *)

Definition job_ok (m : TxExecMsg) : Prop :=
  exists t, msg_Tx m = Some t /\ is_u64 (tx_GasLimit t).

Lemma job_has_tx m : job_ok m -> has_tx m.
Proof. intros (t & E & _). by exists t. Qed.

Lemma ConvertToTxExec_ok c m x :
  job_ok m -> ConvertToTxExec m = Some x -> exec_ok c x None.
Proof.
  intros (t & E & L). unfold ConvertToTxExec. rewrite E. intros [= <-].
  assert (forall t', QueryOriginTx c (mkExec (msg_Action m)
            (match msg_Action m with
             | ActionTransferReceipt | ActionContractDeal =>
                 if negb (IsSCIdleContract (tx_Payload t)) then msg_PreAction m else noUnit
             | ActionContractRefund | ActionContractReceipt => msg_PreAction m
             | _ => noUnit end) (tx_Hash t) (Some t)) = Ok t' -> t' = t) as Hq by (by intros t' [= <-]).
  split; try (intros t' Et; apply Hq in Et as ->; done).
  intros t' limit Et Hl m' Em. apply Hq in Et as ->. cbn in Em.
  by apply AsMessage_fields in Em as (_ & -> & _).
Qed.

Lemma exec_key_stored x : exec_key (stored x) = exec_key x.
Proof. unfold stored. by destruct (UnitID_IsEmpty _). Qed.

(** Nothing but the attempt changes the shared state. *)
Lemma check_first_same limit h x w :
  pwp (check_first limit h x) (fun _ w' => w' = w) (fun _ w' => w' = w) w.
Proof.
  unfold check_first. destruct (UnitID_IsEmpty _); [|done]. destruct (Tx x); [|done].
  repeat first [apply pwp_bind|apply pwp_guard; intros _; [|done]]. done.
Qed.

Lemma handleTx_spec mi msg h limit index w :
  chain_ok IgnoreAcctCheck protected (mi_chain mi) -> job_ok msg -> ready w ->
  pwp (handleTx IgnoreAcctCheck mi msg h limit index)
    (fun '(x, r) w' => exists y, ConvertToTxExec msg = Some y /\ x = stored y /\ kept_step (MC h) y w r w')
    (fun _ w' => undone w w') w.
Proof.
  intros Hc Hm R. unfold handleTx. apply pwp_bind.
  apply (pwp_mono _ (fun _ w' => w' = w) _ (fun _ w' => w' = w)).
  2: { intros e ? ->. by apply undone_refl. }
  2: { destruct (negb _); [|done]. destruct (GetHeader mi _); [|done]. by apply pwp_guard. }
  intros _ ? ->. destruct (ConvertToTxExec msg) as [x|] eqn:Ex; [|done].
  destruct (msg_Tx msg) as [t|] eqn:Et; [|done].
  apply pwp_bind, pwp_guard; intros _; [|by apply undone_refl].
  apply pwp_bind. eapply pwp_mono; [| |apply check_first_same].
  2: { intros e ? ->. by apply undone_refl. }
  intros _ ? ->. apply pwp_bind.
  eapply pwp_mono; [| |apply attempt_spec; [done|by eapply ConvertToTxExec_ok|done]]; [|done].
  intros r w' Hk. apply pwp_ret. by exists x.
Qed.

(** ** The packing loop *)

(** A pack in the making, of a unit of chain [chain] with gas limit [limit]. *)
Record packing (chain : Address) (limit : Z) (p : Pack) : Prop := {
  pk_ready : ready (p_work p);
  pk_index : p_index p = Z.of_nat (length (p_result p));
  pk_steps : Forall2 (fun x m => exists y, ConvertToTxExec m = Some y /\ x = stored y) (p_result p) (p_success p);
  pk_receipts : length (p_receipts p) = length (p_result p);
  pk_logs : p_logs p = concat (map rc_Logs (p_receipts p));
  pk_used : Forall (fun r => 0 <= GasUsed r) (p_receipts p);
  pk_total : total_gas (p_receipts p) <= w_total (p_work p);
  pk_pool : w_gp (p_work p) + w_total (p_work p) <= limit;
  pk_bound : is_u64 (w_gp (p_work p));
  pk_marks x : In x (p_result p) -> protected chain (exec_key x) ->
    marked (w_db (p_work p)) chain (exec_key x);
  pk_once : (forall x, In x (p_result p) -> protected chain (exec_key x)) -> NoDup (map exec_key (p_result p))
}.

Lemma start_packing chain limit d :
  ready (mkWork limit 0 d) -> is_u64 limit -> packing chain limit (start_pack limit d).
Proof. intros R L. split; pack_cbn; try done; try lia; try (by constructor); cbn; lia. Qed.

Lemma total_gas_snoc rs r : total_gas (rs ++ [r]) = total_gas rs + GasUsed r.
Proof. unfold total_gas. induction rs as [|r' rs IH]; cbn in *; lia. Qed.

Lemma packing_undone chain limit p w :
  packing chain limit p -> undone (p_work p) w -> packing chain limit (set_work w p).
Proof.
  intros [R I S Rc L U T Pl Bd Mk On] [R' _ Mk' T' Pl' Bd'].
  split; pack_cbn; try done; try lia; auto.
Qed.

Lemma packing_success chain limit p m y r w :
  packing chain limit p -> ConvertToTxExec m = Some y -> kept_step chain y (p_work p) r w ->
  packing chain limit (add_success (stored y) m r (set_work w p)).
Proof.
  intros [R I S Rc L U T Pl Bd Mk On] Ey [R' U' T' Pl' Bd' Fr Mk' Ms].
  split; pack_cbn; try done.
  - rewrite length_app. cbn. lia.
  - apply Forall2_app; [done|]. constructor; [|constructor]. by exists y.
  - rewrite !length_app. cbn. by rewrite Rc.
  - rewrite map_app, concat_app, L. cbn [map concat]. by rewrite app_nil_r.
  - apply Forall_app. split; [done|]. by repeat constructor.
  - rewrite total_gas_snoc. lia.
  - lia.
  - auto.
  - intros x Hx Hp. apply in_app_or in Hx as [Hx|[<-|[]]]; [by apply Ms, Mk|].
    rewrite exec_key_stored in *. by apply Mk'.
  - intros Hp. rewrite map_app. cbn [map]. apply list.NoDup_app.
    assert (forall x, In x (p_result p) -> protected chain (exec_key x)) as Hold by (intros x Hx; apply Hp, in_or_app; by left).
    split; [by apply On|]. split.
    + intros k Hk Hin. apply list_elem_of_In, in_map_iff in Hk as (x & <- & Hx).
      apply list_elem_of_singleton in Hin. rewrite exec_key_stored in Hin.
      rewrite <- Hin in Fr. apply Fr; [by apply Hold|]. apply Mk; [done|by apply Hold].
    + apply NoDup_singleton.
Qed.

(** The jobs a pack has dealt with, but for those found invalid. *)
Definition dealt (p : Pack) : list TxExecMsg := p_success p ++ p_rollback p ++ p_errors p.

Lemma middle {A} (x : A) l1 l2 l3 : l1 ++ l2 ++ x :: l3 ≡ₚ x :: l1 ++ l2 ++ l3.
Proof. by rewrite app_assoc, <- Permutation_middle, <- app_assoc. Qed.

(** A job that is handed back, that failed, or that was refused. *)
Lemma deal_back m p : dealt (add_rollback [m] p) ≡ₚ m :: dealt p.
Proof. unfold dealt. cbn. rewrite <- app_assoc. apply middle. Qed.
Lemma deal_error m p : dealt (add_error m p) ≡ₚ m :: dealt p.
Proof. unfold dealt. cbn. rewrite !app_assoc. by rewrite <- Permutation_cons_append. Qed.
Lemma deal_success x m r p : dealt (add_success x m r p) ≡ₚ m :: dealt p.
Proof. unfold dealt. cbn. rewrite <- app_assoc. symmetry. apply Permutation_middle. Qed.

Lemma packing_same_work chain limit p z rb er :
  packing chain limit p ->
  packing chain limit (mkPack (p_work p) z (p_index p) (p_result p) (p_success p) (p_receipts p) (p_logs p) rb er).
Proof. intros [R I S Rc L U T Pl Bd Mk On]. by split. Qed.

Definition dealt_with (chain : Address) (limit : Z) (m : TxExecMsg) (p p' : Pack) : Prop :=
  packing chain limit p' /\ exists invalid, dealt p' ++ invalid ≡ₚ m :: dealt p.

Lemma dealt_back chain limit m p p0 :
  packing chain limit p -> dealt p = dealt p0 -> dealt_with chain limit m p0 (add_rollback [m] p).
Proof.
  intros Hp E. split; [by apply packing_same_work|]. exists []. by rewrite app_nil_r, deal_back, E.
Qed.

Lemma processTx_spec mi h limit price m p :
  chain_ok IgnoreAcctCheck protected (mi_chain mi) -> job_ok m -> packing (MC h) limit p ->
  match processTx IgnoreAcctCheck mi h price m p with
  | None => True
  | Some (_, p') => dealt_with (MC h) limit m p p'
  end.
Proof.
  intros Hc Hm Hp. unfold processTx. destruct (_ <? TxGas); [by apply dealt_back|]. cbv zeta.
  set (p1 := if is_zero_gas (msg_Action m) then add_zero p else p).
  assert (packing (MC h) limit p1 /\ dealt p1 = dealt p) as [Hp1 E1].
  { unfold p1. destruct (is_zero_gas _); [|done]. split; [by apply packing_same_work|done]. }
  destruct (_ && _); [by apply dealt_back|].
  pose proof (handleTx_spec mi m h price (p_index p1) (p_work p1) Hc Hm (pk_ready _ _ _ Hp1)) as H.
  unfold pwp in H. destruct (handleTx _ _ _ _ _ _ _) as [[x r] w|e w|]; [| |done].
  - destruct H as (y & Ey & -> & Hk). split; [by apply packing_success|]. exists [].
    by rewrite app_nil_r, deal_success, <- E1.
  - pose proof (packing_undone _ _ _ _ Hp1 H) as Hp2.
    destruct e; try (by apply dealt_back);
      try (split; [by apply packing_same_work|]; exists []; by rewrite app_nil_r, deal_error, <- E1).
    split; [done|]. exists [m]. rewrite <- E1. by rewrite <- Permutation_cons_append.
Qed.

Lemma process_own_spec mi h limit price ms p p' :
  chain_ok IgnoreAcctCheck protected (mi_chain mi) -> Forall job_ok ms -> packing (MC h) limit p ->
  process_own IgnoreAcctCheck mi h price ms p = Some p' ->
  packing (MC h) limit p' /\ exists invalid, dealt p' ++ invalid ≡ₚ ms ++ dealt p.
Proof.
  intros Hc. revert p. induction ms as [|m ms IH]; intros p Hm Hp; cbn [process_own].
  { intros [= <-]. split; [done|]. exists []. by rewrite app_nil_r. }
  inversion Hm as [|? ? Hm1 Hms]; subst. pose proof (processTx_spec mi h limit price m p Hc Hm1 Hp) as H.
  destruct (processTx _ _ _ _ _ _) as [[b p1]|]; [|done]. destruct H as (Hp1 & inv1 & E1). intros E.
  destruct (IH p1 Hms Hp1 E) as (Hp' & inv & E2). split; [done|]. exists (inv ++ inv1).
  rewrite app_assoc, E2, <- app_assoc, E1. symmetry. apply Permutation_middle.
Qed.

(** The jobs that arrive. *)
Definition arrivals (es : list event) : list TxExecMsg :=
  omap (fun e => match e with Arrive m => Some m | _ => None end) es.

Lemma pack_loop_spec mi h limit price n es q l p :
  chain_ok IgnoreAcctCheck protected (mi_chain mi) -> packing (MC h) limit p ->
  queue_ok (MC h) n q l -> Forall job_ok (items l) -> Forall job_ok (arrivals es) ->
  match pack_loop IgnoreAcctCheck mi h price es q p with
  | Stopped interrupted q' p' =>
      exists l' p2 invalid accepted,
        p' = (if interrupted then add_rollback (p_success p2) p2 else p2) /\
        packing (MC h) limit p2 /\ queue_ok (MC h) n q' l' /\ accepted ⊆+ arrivals es /\
        items l' ++ dealt p2 ++ invalid ≡ₚ items l ++ dealt p ++ accepted
  | _ => True
  end.
Proof.
  intros Hc. revert q l p. induction es as [|e es IH]; intros q l p Hp Hq Hl Ha; cbn [pack_loop]; [done|].
  destruct e as [|m| |].
  - pose proof (pop_ok _ _ _ _ Hq) as Hpop. destruct (q_Pop q) as [[[m|] told] q1].
    2: { destruct Hpop as (_ & _ & Hq1). by apply (IH q1 l p). }
    destruct Hpop as (l1 & Hq1 & Pm & _ & _). rewrite Pm in Hl. inversion Hl as [|? ? Hm Hl1]; subst.
    pose proof (processTx_spec mi h limit price m p Hc Hm Hp) as H.
    destruct (processTx _ _ _ _ _ _) as [[[] p1]|]; [| |done]; destruct H as (Hp1 & inv1 & E1).
    + specialize (IH q1 l1 p1 Hp1 Hq1 Hl1 Ha).
      destruct (pack_loop _ _ _ _ _ _ _) as [| |i q' p']; try done.
      destruct IH as (l' & p2 & inv & acc & -> & Hp2 & Hq2 & Hacc & E2).
      exists l', p2, (inv ++ inv1), acc. split_and!; try done.
      transitivity (((items l' ++ dealt p2 ++ inv) ++ inv1)); [by rewrite <- !app_assoc|].
      rewrite E2, Pm. rewrite <- !app_assoc. rewrite (Permutation_app_comm acc inv1).
      rewrite (app_assoc (dealt p1)), E1. cbn. by rewrite <- Permutation_middle.
    + exists l1, p1, inv1, []. split_and!; try done; [apply submseteq_nil_l|].
      rewrite E1, Pm, app_nil_r. cbn. by rewrite <- Permutation_middle.
  - inversion Ha as [|? ? Hm Ha1]; subst. pose proof (push_ok _ _ _ _ _ Hq (job_has_tx _ Hm)) as Hpush.
    destruct (q_Push m q) as [ok q1]. destruct Hpush as (l1 & Hq1 & Hpush). cbn [snd].
    assert (Forall job_ok (items l1)) as Hl1.
    { destruct ok; destruct Hpush as [_ Pm]; [rewrite Pm; by constructor|by rewrite Pm]. }
    specialize (IH q1 l1 p Hp Hq1 Hl1 Ha1).
    destruct (pack_loop _ _ _ _ _ _ _) as [| |i q' p']; try done.
    destruct IH as (l' & p2 & inv & acc & -> & Hp2 & Hq2 & Hacc & E2).
    destruct ok; destruct Hpush as [_ Pm].
    + exists l', p2, inv, (m :: acc). split_and!; try done; [by apply submseteq_skip|].
      rewrite E2, Pm. symmetry. apply middle.
    + subst l1. exists l', p2, inv, acc. split_and!; try done. by apply submseteq_cons.
  - exists l, p, [], []. split_and!; try done. apply submseteq_nil_l.
  - exists l, p, [], []. split_and!; try done. apply submseteq_nil_l.
Qed.

Lemma finish_pack_spec mi h own interrupted p pk :
  finish_pack mi h own interrupted p = Some pk ->
  exists d, pk_pack pk = set_work (set_w_db d (p_work p)) p /\
    match pk_header pk with
    | None => p_result p = []
    | Some hd => p_result p <> [] /\ ph_GasUsed hd = u64 (w_total (p_work p))
    end.
Proof.
  unfold finish_pack. cbv zeta. destruct (Nat.eqb_spec (length (p_result p)) 0) as [E|N].
  - intros [= <-]. exists (w_db (p_work p)). cbn [pk_pack pk_header]. split; [done|]. by destruct (p_result p).
  - destruct (IntermediateRoot _ _) as [[[root flows] d]|]; [|done].
    destruct (Bloom.CreateBloom _) as [bloom|]; [|done]. intros [= <-]. exists d.
    cbn [pk_pack pk_header ph_GasUsed]. split_and!; [done| |done]. by destruct (p_result p).
Qed.

Lemma used_nonneg rs : Forall (fun r => 0 <= GasUsed r) rs -> 0 <= total_gas rs.
Proof. induction 1 as [|r rs Hr _ IH]; [done|]. unfold total_gas in *. cbn. lia. Qed.

End Packing.

Section Properties.
Context {P : Params} {B : Backing} {K : State.Crypto} {KO : Safe.CryptoOk K} {C : TxCodec}.
Context (IgnoreAcctCheck : bool).

(** C15: a step that fails while a unit is being built leaves no trace in the
    accounts.  Over a machine that keeps its promise, when [handleTx] returns an
    error every getter of the account state answers as before the step, the
    state is well formed, and the gas pool has not grown; when it succeeds, the
    pool has paid for the gas of the receipt. *)
Theorem failed_step_leaves_no_trace mi m h price index w :
  chain_ok IgnoreAcctCheck (fun _ _ => False) (mi_chain mi) -> job_ok m ->
  wf IgnoreAcctCheck (w_db w) -> 0 <= refund (w_db w) -> is_u64 (w_gp w) ->
  match handleTx IgnoreAcctCheck mi m h price index w with
  | Failed e w' => answers_alike IgnoreAcctCheck (w_db w') (w_db w) /\ wf IgnoreAcctCheck (w_db w') /\
                   0 <= w_gp w' <= w_gp w
  | Done (x, r) w' => wf IgnoreAcctCheck (w_db w') /\ 0 <= GasUsed r /\
                      w_total w' = w_total w + GasUsed r /\ 0 <= w_gp w' <= w_gp w - GasUsed r
  | Panicked => True
  end.
Proof.
  intros Hc Hm W R Hg.
  pose proof (handleTx_spec IgnoreAcctCheck (fun _ _ => False) mi m h price index w Hc Hm (conj_ready _ _ W R)) as H.
  unfold pwp in H. destruct (handleTx _ _ _ _ _ _ _) as [[x r] w'|e w'|]; [| |done].
  - destruct H as (y & _ & _ & [R' U T Pl Bd _ _ _]). specialize (Bd Hg).
    split_and!; try done; try lia. apply R'.
  - destruct H as [R' A _ T Pl Bd]. specialize (Bd Hg). split_and!; try done; try lia. apply R'.
Qed.

(** C14: no job is lost while a unit is built, and none is dealt with twice.
    When [packTxs] ends, over a machine that answers with no more gas than it was
    given and keeps the snapshots, the unit's steps and receipts match one to
    one, in order, the jobs that succeeded; the receipts' gas is within what the
    header reports and that within the unit's limit; and every job that was
    queued, that arrived and was accepted, or that the unit brought itself, is
    now in the unit, handed back, failed, invalid or still queued, each exactly
    once.  The same step is not packed twice under one more condition: the marks
    of the steps packed are among those, [protected], that no call of the machine
    clears (contract code can clear a mark like any other slot of its account, so
    that this is no matter of course; take [protected] empty for the rest). *)
Theorem packed_unit_accounted protected mi h limit own es n q l d pk q' :
  chain_ok IgnoreAcctCheck protected (mi_chain mi) ->
  wf IgnoreAcctCheck d -> 0 <= refund d -> is_u64 limit ->
  queue_ok (MC h) n q l -> Forall job_ok (own ++ items l ++ arrivals es) ->
  packTxs IgnoreAcctCheck mi h limit own es (Some q) d = Some (pk, Some q') ->
  let p := pk_pack pk in
  Forall2 (fun x m => exists y, ConvertToTxExec m = Some y /\ x = stored y) (p_result p) (p_success p) /\
  length (p_receipts p) = length (p_result p) /\
  ((forall x, In x (p_result p) -> protected (MC h) (exec_key x)) -> NoDup (map exec_key (p_result p))) /\
  match pk_header pk with
  | None => p_result p = []
  | Some hd => 0 <= total_gas (p_receipts p) <= ph_GasUsed hd /\ ph_GasUsed hd <= limit
  end /\
  exists l' returned interrupted invalid accepted,
    queue_ok (MC h) n q' l' /\ accepted ⊆+ arrivals es /\
    p_rollback p = returned ++ (if interrupted : bool then p_success p else []) /\
    items l' ++ (p_success p ++ returned ++ p_errors p) ++ invalid ≡ₚ items l ++ own ++ accepted.
Proof.
  intros Hc W R Hg Hq Hj. unfold packTxs. set (start := start_pack limit d).
  apply Forall_app in Hj as [Ho [Hl Ha]%Forall_app].
  assert (packing IgnoreAcctCheck protected (MC h) limit start) as H0.
  { apply start_packing; [by apply conj_ready|done]. }
  destruct (process_own _ _ _ _ _ _) as [p0|] eqn:E0; [|done].
  destruct (process_own_spec _ _ _ _ _ _ _ _ _ Hc Ho H0 E0) as (Hp0 & inv0 & P0).
  pose proof (pack_loop_spec IgnoreAcctCheck protected mi h limit (LowestGasPrice mi) n es q l p0 Hc Hp0 Hq Hl Ha) as H1.
  destruct (pack_loop _ _ _ _ _ _ _) as [| |i q1 p1]; try done.
  destruct H1 as (l' & p2 & inv & acc & E1 & Hp2 & Hq1 & Hacc & P1).
  destruct (finish_pack mi h own i p1) as [pk1|] eqn:E2; [|done]. intros [= <- <-].
  destruct (finish_pack_spec _ _ _ _ _ _ E2) as (d' & -> & Hh).
  assert (p_result p1 = p_result p2 /\ p_success p1 = p_success p2 /\ p_receipts p1 = p_receipts p2 /\
          p_errors p1 = p_errors p2 /\ p_work p1 = p_work p2 /\
          p_rollback p1 = p_rollback p2 ++ (if i then p_success p2 else [])) as (X1 & X2 & X3 & X4 & X5 & X6).
  { rewrite E1. destruct i; split_and!; try done. by rewrite app_nil_r. }
  cbv zeta. pack_cbn. rewrite X1, X2, X3, X4, X6. rewrite X1, X5 in Hh.
  pose proof (used_nonneg _ (pk_used _ _ _ _ _ Hp2)) as Hu. pose proof (pk_total _ _ _ _ _ Hp2) as Ht.
  pose proof (pk_pool _ _ _ _ _ Hp2) as Hpl. pose proof (pk_bound _ _ _ _ _ Hp2) as Hb.
  split_and!; [apply Hp2|apply Hp2|apply (pk_once _ _ _ _ _ Hp2)| |].
  - destruct (pk_header pk1) as [hd|]; [|done]. destruct Hh as [_ ->]. rewrite u64_small by lia. lia.
  - exists l', (p_rollback p2), i, (inv ++ inv0), acc. split_and!; try done.
    transitivity ((items l' ++ dealt p2 ++ inv) ++ inv0); [unfold dealt; by rewrite <- !app_assoc|].
    rewrite P1, <- !app_assoc, (Permutation_app_comm acc inv0), (app_assoc (dealt p0)), P0.
    unfold start, dealt. cbn. by rewrite app_nil_r.
Qed.

End Properties.

End Packing.
