(* ===== verification/TxCalls.v ===== *)
(** A contract call from the freeze of its cost on the sender's chain, over its
    execution on the contract's chain, to the refund of what is left. *)
From S2P Require Import Prelude Bech32 Address EvmWord EvmAnalysis EvmState EvmSafe StateDb Ovm StateView StateRevert Bloom TxTransition TxProcess TxLedger TxSettle TxChains TxSafe TxHandlers.

Import Db Ovm View Revert Transition Process Ledger Settle Chains Safely Handlers.

Module Calls.

Section Calls.
Context {P : Params} {B : Backing} {K : State.Crypto} {KO : Safe.CryptoOk K} {C : TxCodec}.
Context (IgnoreAcctCheck : bool).

Local Abbreviation wf := (wf IgnoreAcctCheck).
Local Abbreviation balance := (balance IgnoreAcctCheck).
Local Abbreviation moves := (moves IgnoreAcctCheck).
Local Abbreviation ready := (ready IgnoreAcctCheck).
Local Abbreviation unprotected := (fun (_ : Address) (_ : Hash) => False).
Local Abbreviation chain_ok := (chain_ok IgnoreAcctCheck unprotected).

(** A machine knows the chain it runs for. *)
Definition machine_at_home (c : Chain) : Prop :=
  forall cx v, vm_New c cx = Ok v -> ctx_UnitMC v = cx_UnitMC cx.

Lemma ForceSafeSub_le x y : 0 <= y <= x -> Word.ForceSafeSub x y = x - y.
Proof. intros H. unfold Word.ForceSafeSub. destruct (Z.leb_spec x y); lia. Qed.

(** ** The freeze *)

(** Checking a message of another chain than the system contract's: the gas
    reported is the message's own, and the accounts are as before. *)
Lemma pwp_check v m chain w :
  ready w -> is_u64 (m_gasLimit m) -> is_u64 (m_GasPrice m) -> is_u64 (w_gp w) -> ctx_UnitMC v <> SCAccount ->
  pwp (PreApplayMessage IgnoreAcctCheck true)
    (fun _ s => moves (w_db w) (state s) (fun _ => 0) /\ own_gas ActionContractFreeze m <= m_gasLimit m /\
                gasUsed s = own_gas ActionContractFreeze m)
    (fun _ _ => True) (NewStateTransition (Some v) (w_db w) ActionContractFreeze m (w_gp w) chain).
Proof.
  intros [W R] L Hp Hg Hv. set (s0 := NewStateTransition _ _ _ _ _ _). unfold PreApplayMessage.
  pose proof (moves_revert IgnoreAcctCheck (w_db w)) as Hrev.
  pose proof (Snapshot_keeps IgnoreAcctCheck (w_db w) W) as K0.
  apply pwp_bind. destruct (Snapshot (w_db w)) as [i d1] eqn:E. cbn [fst snd] in Hrev, K0.
  eapply pwp_wp, wp_on_state; [exact E|]. set (s := set_state d1 s0).
  assert (freeGas s = 0) as Hf by (cbn; by rewrite bool_decide_eq_false_2).
  assert (price_ok s) as Hpo by (split; try done; rewrite Hf; lia).
  pose proof (wp_preApply IgnoreAcctCheck
    (fun _ s2 => exists e, moves d1 (state s2) e /\ own_gas ActionContractFreeze m <= m_gasLimit m /\
                           gasUsed s2 = own_gas ActionContractFreeze m)
    (fun _ s2 => exists e, moves d1 (state s2) e) s (kp_wf _ _ _ K0) Hpo eq_refl) as H.
  assert (bill s = (m_gasLimit m * m_GasPrice m, m_gasLimit m)) as Eb by (unfold bill; by rewrite Hf).
  cbv zeta in H. rewrite Eb in H. pose proof (own_gas_nonneg ActionContractFreeze m) as Hon.
  assert (wp (preApply IgnoreAcctCheck)
    (fun _ s2 => exists e, moves d1 (state s2) e /\ own_gas ActionContractFreeze m <= m_gasLimit m /\
                           gasUsed s2 = own_gas ActionContractFreeze m)
    (fun _ s2 => exists e, moves d1 (state s2) e) s) as Hw.
  { apply H; clear H.
    - intros _. eexists. apply moves_refl. apply K0.
    - intros d M1 _. by eexists.
    - intros d M1 _. by eexists.
    - intros d M1 _. by eexists.
    - intros d _ _ _ Ho _ M1. eexists. split; [exact M1|]. split; [exact Ho|].
      unfold gasUsed. cbn [gas initialGas set_state set_initialGas set_gas set_gp].
      change (action s) with ActionContractFreeze in *. change (msg s) with m in *.
      rewrite u64_small; lia. }
  unfold pwp. unfold wp in Hw. fold s. destruct (preApply IgnoreAcctCheck s) as [? s2|e s2|]; [| |done].
  - destruct Hw as (e & M1 & Ho & Hu). destruct (Hrev (state s2) e W M1) as (u & -> & Mu & _).
    by split_and!.
  - destruct Hw as (e' & M1). by destruct (Hrev (state s2) e' W M1) as (u & -> & _).
Qed.

(** What a freeze leaves. *)
Record frozen (h : Header) (t : Transaction) (m : Message) (w : Work) (r : Receipt) (w' : Work) : Prop := {
  fz_balance : MC h = m_from m ->
    balance (w_db w') (m_from m) = balance (w_db w) (m_from m) - (m_gasLimit m * m_GasPrice m + m_Value m);
  fz_afford : m_gasLimit m * m_GasPrice m + m_Value m <= balance (w_db w) (m_from m);
  fz_used : GasUsed r = own_gas ActionContractFreeze m;
  fz_bound : 0 <= GasUsed r <= m_gasLimit m;
  fz_remaining : GasRemaining r = tx_GasLimit t - GasUsed r;
  fz_done : Failed_ r = false
}.

Lemma ApplyFreeze_frozen c h t w :
  machine_at_home c -> MC h <> SCAccount -> ready w -> is_u64 (w_gp w) ->
  is_u64 (tx_GasLimit t) -> is_u64 (tx_Price t) ->
  pwp (ApplyFreeze IgnoreAcctCheck c h t None)
    (fun r w' => exists m, AsMessage t (tx_GasLimit t) = Ok m /\ frozen h t m w r w') (fun _ _ => True) w.
Proof.
  intros Hc Hsc R Hg L Hp. unfold ApplyFreeze. apply pwp_bind, pwp_wp, wp_tx_message; [|done].
  intros m Em. cbn [the_message] in Em.
  assert (m_gasLimit m = tx_GasLimit t /\ m_GasPrice m = tx_Price t) as [El Ep].
  { apply AsMessage_fields in Em. naive_solver. }
  apply pwp_bind, pwp_guard; intros _; [|done].
  apply pwp_bind, pwp_wp, wp_check_action; [apply R| |done]. intros d1 M1 _.
  apply pwp_bind, pwp_wp, wp_mark_action; [by eapply moves_wf|]. intros d2 M2 _. cbn [w_db set_w_db] in M2.
  apply pwp_bind, pwp_try; [|done]. intros v Ev. apply pwp_bind. unfold pwp at 1.
  cbn [w_db w_gp w_total set_w_db]. pose proof (Hc _ _ Ev) as Hv. cbn in Hv.
  assert (ready (set_w_db d2 w)) as R2.
  { split; [by eapply moves_wf|]. cbn. rewrite (mv_refund _ _ _ _ M2), (mv_refund _ _ _ _ M1). apply R. }
  pose proof (pwp_check v m (MC h) (set_w_db d2 w) R2) as Hchk. rewrite El, Ep in Hchk.
  specialize (Hchk L Hp Hg ltac:(congruence)). unfold pwp in Hchk. cbn [w_db w_gp set_w_db] in Hchk.
  destruct (PreApplayMessage _ _ _) as [? s|e s|]; [|done..]. destruct Hchk as (M3 & Ho & Hu).
  set (w3 := mkWork _ _ _). assert (moves (w_db w) (w_db w3) (fun _ => 0)) as M13.
  { eapply moves_ext; [eapply moves_trans; [exact M1|]; eapply moves_trans; [exact M2|exact M3]|done]. }
  set (freeze := m_gasLimit m * m_GasPrice m + m_Value m).
  assert (forall b, balance (w_db w3) b = balance (w_db w) b) as Eb3.
  { intros b. rewrite (mv_balance _ _ _ _ M13). lia. }
  pose proof (moves_wf _ _ _ _ M13) as W3.
  destruct (CanTransfer_moves IgnoreAcctCheck (w_db w3) (m_from m) freeze W3) as (d4 & E4 & M4).
  cbv zeta. apply pwp_bind. eapply pwp_wp, wp_on_db; [exact E4|].
  apply pwp_bind, pwp_guard; [|done]. intros Hcan. rewrite Eb3, Z.geb_le in Hcan.
  apply pwp_bind, pwp_wp, wp_do_db. cbn [w_db set_w_db].
  pose proof (moves_SubBalance IgnoreAcctCheck d4 (m_from m) freeze (moves_wf _ _ _ _ M4)) as M5.
  set (d5 := db_SubBalance _ _ _ _) in *. pose proof (moves_wf _ _ _ _ M5) as W5.
  apply pwp_bind, pwp_wp, wp_next_nonce; [done|]. intros d6 M6. cbn [w_db set_w_db] in M6.
  apply pwp_wp, wp_createReceipt; [by eapply moves_wf|]. cbn [w_db set_w_db]. intros r d7 (e & M7 & E7 & _) Hr.
  pose proof (own_gas_nonneg ActionContractFreeze m) as Hon. rewrite Hu in Hr.
  exists m. split; [done|]. pose proof (rs_used _ _ _ _ _ _ _ _ _ Hr) as Eu.
  split; rewrite ?Eu; try lia; try done.
  - intros Eh. cbn [w_db]. rewrite (mv_balance _ _ _ _ M7), (mv_balance _ _ _ _ M6), (mv_balance _ _ _ _ M5),
      (mv_balance _ _ _ _ M4), Eb3, <- Eh, E7. unfold delta. rewrite decide_True by congruence. fold freeze. lia.
  - rewrite (rs_remaining _ _ _ _ _ _ _ _ _ Hr), ForceSafeSub_le; lia.
  - by rewrite (rs_failed _ _ _ _ _ _ _ _ _ Hr).
Qed.

(** ** The execution *)

(** A receipt of a step that started with [given] gas. *)
Definition deal_receipt (given : Z) (r : Receipt) : Prop :=
  0 <= GasUsed r <= given /\ GasRemaining r = given - GasUsed r.

Lemma pwp_run_contract c h t m given source w :
  chain_ok c -> machine_at_home c -> MC h <> SCAccount -> ready w -> is_u64 (m_gasLimit m) ->
  m_gasLimit m = given ->
  pwp (run_contract IgnoreAcctCheck c h t m given source 0) (fun r _ => deal_receipt given r) (fun _ _ => True) w.
Proof.
  intros Hc Hh Hsc R L Eg. unfold run_contract.
  apply pwp_bind, pwp_try; [|done]. intros v Ev. pose proof (co_machine _ _ _ Hc _ _ Ev) as V.
  pose proof (Hh _ _ Ev) as Hv. cbn in Hv. cbv zeta.
  assert (forall A' (m1 : M Work unit) (k : unit -> M Work A') Q w1,
            working IgnoreAcctCheck unprotected m1 -> ready w1 ->
            (forall w2, ready w2 -> pwp (k tt) Q (fun _ _ => True) w2) ->
            pwp (bind m1 k) Q (fun _ _ => True) w1) as Hstep.
  { intros A' m1 k Q w1 Hw R1 Hk. apply pwp_bind. eapply pwp_mono; [| |by apply Hw]; [|done].
    intros [] w2 S2. apply Hk. eapply ready_safe; [exact R1|apply S2]. }
  apply Hstep; [apply working_SetBalance|done|]. intros w1 R1.
  apply Hstep; [apply working_AddBalance|done|]. intros w2 R2.
  apply Hstep; [apply working_initBalance|done|]. intros w3 R3. apply pwp_bind.
  eapply pwp_mono; [| |apply (pwp_apply_message IgnoreAcctCheck unprotected (Some v) ActionContractDeal m (MC h) w3 R3 V L)];
    [|done].
  intros [[out used] failed] w4 (Hu & S4 & Hl & _). specialize (Hl ltac:(intros ? [= <-]; congruence)).
  assert (ready w4) as R4 by (eapply ready_safe; [exact R3|apply S4]).
  apply Hstep; [apply working_guard|done|]. intros w5 R5. rewrite Z.eqb_refl, andb_false_r.
  apply pwp_bind, pwp_wp, wp_createReceipt; [apply R5|]. intros r d (e & M6 & _) Hr.
  pose proof (rs_used _ _ _ _ _ _ _ _ _ Hr) as Eu. pose proof (rs_remaining _ _ _ _ _ _ _ _ _ Hr) as Er.
  split; cbn [GasUsed GasRemaining set_Coinflows fst snd]; [lia|]. rewrite Er, ForceSafeSub_le; lia.
Qed.

Lemma ApplyToContract_dealt c h t x w pre :
  chain_ok c -> machine_at_home c -> MC h <> SCAccount -> ready w ->
  UnitID_IsEmpty (PreStep x) = false -> GetTxReceiptAtUnit c (unit_Hash (PreStep x)) (TxHash x) = Some pre ->
  is_u64 (GasRemaining pre) ->
  pwp (ApplyToContract IgnoreAcctCheck c h t (Some x) None)
    (fun r _ => deal_receipt (GasRemaining pre) r) (fun _ _ => True) w.
Proof.
  intros Hc Hh Hsc R Hx Epre L. unfold ApplyToContract. apply pwp_bind, pwp_guard; intros _; [|done].
  apply pwp_bind, pwp_wp, wp_check_action; [apply R| |done]. intros d1 M1 _.
  apply pwp_bind, pwp_wp, wp_mark_action; [by eapply moves_wf|]. intros d2 M2 _. cbn [w_db set_w_db] in M2.
  rewrite Hx, Epre. destruct (Failed_ pre); [done|]. apply pwp_bind, pwp_ret.
  apply pwp_bind, pwp_wp, wp_tx_message; [|done]. intros m Em. cbn [the_message] in Em.
  assert (m_gasLimit m = GasRemaining pre) as El.
  { apply AsMessage_fields in Em. naive_solver. }
  change (pwp (applyToContract IgnoreAcctCheck 2 c h t m (GasRemaining pre) (Action x) (PreStep x))
    (fun r _ => deal_receipt (GasRemaining pre) r) (fun _ _ => True) (set_w_db d2 (set_w_db d1 w))).
  cbn [applyToContract]. apply pwp_bind. rewrite (bool_decide_eq_false_2 (MC h = SCAccount)) by done.
  rewrite andb_false_r.
  assert (ready (set_w_db d2 (set_w_db d1 w))) as R2.
  { split; [by eapply moves_wf|]. cbn. rewrite (mv_refund _ _ _ _ M2), (mv_refund _ _ _ _ M1). apply R. }
  eapply pwp_mono; [| |by apply (working_checkIdle IgnoreAcctCheck unprotected)]; [|done].
  intros ? w3 S3. apply pwp_run_contract; try done; [|by rewrite El].
  eapply ready_safe; [exact R2|apply S3].
Qed.

(** ** The refund *)

Lemma ApplyRefund_refunds c h t x w pre :
  ready w -> GetTxReceiptAtUnit c (unit_Hash (PreStep x)) (TxHash x) = Some pre ->
  pwp (ApplyRefund IgnoreAcctCheck c h t x)
    (fun _ w' => exists m, AsMessage t 0 = Ok m /\ MC h = m_from m /\
       balance (w_db w') (m_from m) = balance (w_db w) (m_from m) + GasRemaining pre * m_GasPrice m
                                      + (if Failed_ pre then m_Value m else 0))
    (fun _ _ => True) w.
Proof.
  intros R Epre. unfold ApplyRefund. apply pwp_bind, pwp_try; [|done]. intros m Em.
  apply pwp_bind, pwp_guard; [|done]. intros Eh. apply bool_decide_eq_true in Eh.
  apply pwp_bind, pwp_wp, wp_check_action; [apply R| |done]. intros d1 M1 _.
  apply pwp_bind, pwp_wp, wp_mark_action; [by eapply moves_wf|]. intros d2 M2 _. cbn [w_db set_w_db] in M2.
  unfold previous. rewrite Epre. apply pwp_bind, pwp_ret. cbv zeta.
  set (n := if Failed_ pre then _ else _).
  apply pwp_bind, pwp_wp, wp_next_nonce; [by eapply moves_wf|]. intros d3 M3. cbn [w_db set_w_db] in M3.
  apply pwp_bind, pwp_wp, wp_do_db. cbn [w_db set_w_db].
  pose proof (moves_AddBalance IgnoreAcctCheck d3 (m_from m) n (moves_wf _ _ _ _ M3)) as M4.
  apply pwp_wp, wp_createReceipt; [by eapply moves_wf|]. cbn [w_db set_w_db]. intros r d5 (e & M5 & E5 & _) _.
  exists m. split_and!; [done|done|]. cbn [w_db].
  rewrite (mv_balance _ _ _ _ M5), (mv_balance _ _ _ _ M4), (mv_balance _ _ _ _ M3), (mv_balance _ _ _ _ M2),
    (mv_balance _ _ _ _ M1), <- Eh, E5.
  unfold delta. rewrite decide_True by congruence. unfold n. destruct (Failed_ pre); lia.
Qed.

(** ** The whole call *)

(** C10: a contract call costs what its receipts say.  The sender freezes the
    price of the whole gas limit and the amount on its chain; the contract's
    chain, not the system contract's, executes the call with the gas the freeze
    left; the sender's chain refunds what the execution left.  Then the sender
    has paid the gas price of the gas of the two receipts, and the amount if the
    call succeeded; that gas is within the limit the transaction named; and the
    sender could afford the freeze.  The machine is assumed to give back no more
    gas than it got. *)
Theorem contract_call_conserves c h1 h2 h3 t x2 x3 w1 w1' w2 w2' w3 w3' r1 r2 r3 m :
  chain_ok c -> machine_at_home c -> MC h1 <> SCAccount -> MC h2 <> SCAccount ->
  ready w1 -> ready w2 -> ready w3 -> is_u64 (w_gp w1) ->
  is_u64 (tx_GasLimit t) -> is_u64 (tx_Price t) -> AsMessage t (tx_GasLimit t) = Ok m -> MC h1 = m_from m ->
  ApplyFreeze IgnoreAcctCheck c h1 t None w1 = Done r1 w1' ->
  UnitID_IsEmpty (PreStep x2) = false ->
  GetTxReceiptAtUnit c (unit_Hash (PreStep x2)) (TxHash x2) = Some r1 ->
  ApplyToContract IgnoreAcctCheck c h2 t (Some x2) None w2 = Done r2 w2' ->
  GetTxReceiptAtUnit c (unit_Hash (PreStep x3)) (TxHash x3) = Some r2 ->
  ApplyRefund IgnoreAcctCheck c h3 t x3 w3 = Done r3 w3' ->
  let frozen := balance (w_db w1) (m_from m) - balance (w_db w1') (m_from m) in
  let refunded := balance (w_db w3') (m_from m) - balance (w_db w3) (m_from m) in
  frozen = tx_GasLimit t * tx_Price t + tx_Amount t /\ frozen <= balance (w_db w1) (m_from m) /\
  frozen - refunded = (GasUsed r1 + GasUsed r2) * tx_Price t + (if Failed_ r2 then 0 else tx_Amount t) /\
  0 <= GasUsed r1 + GasUsed r2 <= tx_GasLimit t.
Proof.
  intros Hc Hh Hs1 Hs2 R1 R2 R3 Hg L Hp Em Eh E1 Hx2 P2 E2 P3 E3.
  pose proof (ApplyFreeze_frozen c h1 t w1 Hh Hs1 R1 Hg L Hp) as H1. unfold pwp in H1. rewrite E1 in H1.
  destruct H1 as (m1 & Em1 & [Hb Ha Hu Hbd Hrem _]). rewrite Em in Em1. injection Em1 as <-.
  assert (m_gasLimit m = tx_GasLimit t /\ m_GasPrice m = tx_Price t /\ m_Value m = tx_Amount t)
    as (El & Ep & Ev).
  { apply AsMessage_fields in Em. naive_solver. }
  rewrite El in *. rewrite Ep, Ev in *. specialize (Hb Eh).
  pose proof (ApplyToContract_dealt c h2 t x2 w2 r1 Hc Hh Hs2 R2 Hx2 P2 ltac:(lia)) as H2.
  unfold pwp in H2. rewrite E2 in H2. destruct H2 as [Hu2 Hr2].
  pose proof (ApplyRefund_refunds c h3 t x3 w3 r2 R3 P3) as H3. unfold pwp in H3. rewrite E3 in H3.
  destruct H3 as (m3 & Em3 & _ & Hb3).
  assert (m_from m3 = m_from m /\ m_GasPrice m3 = tx_Price t /\ m_Value m3 = tx_Amount t) as (Ef & Ep3 & Ev3).
  { apply AsMessage_fields in Em, Em3. naive_solver congruence. }
  rewrite Ef, Ep3, Ev3 in Hb3. cbv zeta. destruct (Failed_ r2); split_and!; try lia; nia.
Qed.

End Calls.

End Calls.
