(* ===== verification/TxDemo.v ===== *)
(** Transactions on the small account state of [StateDemo]: a payment, a call of a
    contract over three chains, a unit and the packing of one.  The theorems
    about transactions are applied to them. *)
From stdpp Require Import gmap list.
From S2P Require Import Prelude Bech32 Address EvmWord EvmAnalysis EvmState EvmSafe EvmDemo StateDb Ovm StateView StateRevert StateEvm Bloom TxTransition TxProcess SortSlice JobQueue TxLedger TxSettle TxChains TxSafe TxHandlers TxUnit TxMining TxPack TxCalls.

Import Db Ovm View Revert StateDemo Transition Process SortSlice JobQueue Ledger Settle Chains Safely Handlers Unit Mining Packing Calls.

Module TxDemo.

#[local] Existing Instance EvmDemo.demo_crypto.
#[local] Existing Instance EvmDemo.demo_crypto_ok.

(** ** The world *)

Definition contract (n : Z) : Address :=
  Address.mkAddress (replicate 19 0 ++ [n]) Address.ContractPrefix [].

#[export] Instance demo_params : Params := {| SCAccount := contract 1 |}.

Definition carol : Address := contract 9.

(** A transaction is known by its seed and signed by who it names. *)
#[export] Instance demo_codec : TxCodec := {|
  rlp_sign_struct t := [tx_Seed t];
  rlp_action_key p h a := hash_bytes h ++ [a];
  signer t := Some (tx_Sender t)
|}.

(** A machine that moves the value, keeps half of the gas and answers one
    byte. *)
Definition machine_answer (from to : Address) (gas value : Z) (d : StateDB) : vm_answer :=
  Some ([1], gas / 2, None, Transfer false from to value d).

Definition machine (cx : EVMContext) : CallContext :=
  mkCallContext (cx_UnitMC cx) (cx_UnitNumber cx) FreeGas false
    (fun from to _ gas value d => machine_answer from to gas value d)
    (fun from _ gas value d => machine_answer from carol gas value d).

Lemma machine_answer_safe protected from to gas value d :
  wf false d -> is_u64 gas ->
  answers_safely false protected gas d (machine_answer from to gas value d).
Proof.
  intros W Hg. cbn. split.
  - split; [apply Z.div_pos; lia|apply Z.div_le_upper_bound; lia].
  - eapply safe_moves. by apply moves_Transfer.
Qed.

#[export] Instance machine_safe protected cx : MachineSafe false protected (machine cx).
Proof. split; intros; by apply machine_answer_safe. Qed.

(** The chain database: the receipts of some units. *)
Definition chain (receipts : Hash -> option Receipt) : Chain :=
  mkChain (fun _ => None) (fun u _ => receipts u) (fun _ => 0) None 0 (fun cx => Ok (machine cx))
    (fun t => []).

Lemma chain_is_ok protected receipts :
  (forall u r, receipts u = Some r -> is_u64 (GasRemaining r)) ->
  chain_ok false protected (chain receipts).
Proof.
  intros H. split; [|done|by intros u h r; apply H]. intros cx v [= <-]. apply machine_safe.
Qed.

Definition no_receipts : Chain := chain (fun _ => None).

Lemma no_receipts_ok protected : chain_ok false protected no_receipts.
Proof. by apply chain_is_ok. Qed.

Definition rich : StateDB := default start (run false [OpAddBalance alice 1000000] start).

Lemma rich_wf : wf false rich.
Proof.
  refine (kp_wf _ _ _ (run_keeps false mem_sizes start start [OpAddBalance alice 1000000] rich
                         (snapshots_keep_refl false _ start_wf) _ _)).
  - apply list.Forall_cons. split; [exact I|apply Forall_nil_2].
  - apply run_succeeds. vm_compute. reflexivity.
Qed.

Lemma rich_refund : 0 <= refund rich.
Proof. vm_compute. discriminate. Qed.

Definition work (d : StateDB) : Work := mkWork 1000000 0 d.

Lemma work_ready : ready false (work rich).
Proof. split; [exact rich_wf|exact rich_refund]. Qed.

Definition header (chain : Address) : Header := mkHeader chain 2 0 0 0 alice 1000.

Definition tx (seed amount : Z) (to : Address) : Transaction :=
  mkTransaction 100 1 50000 alice to amount [] seed 0 [].

Definition exec (a : TxAction) (t : Transaction) : TransactionExec :=
  mkExec a noUnit (tx_Hash t) (Some t).

Lemma message_None t limit : is_u64 limit -> message_ok None t limit.
Proof. by intros L m (_ & -> & _)%AsMessage_fields. Qed.

Lemma exec_is_ok c a t : is_u64 (tx_GasLimit t) -> exec_ok c (exec a t) None.
Proof.
  intros L. split; cbn; try by intros ? [= <-].
  intros t' limit _. apply message_None.
Qed.

(** ** Outcomes *)

Definition is_done {S A} (o : outcome S A) : bool :=
  match o with Done _ _ => true | _ => false end.
Definition is_failed {S A} (o : outcome S A) : bool :=
  match o with Failed _ _ => true | _ => false end.
Definition value_of {S A} (d : A) (o : outcome S A) : A :=
  match o with Done a _ => a | _ => d end.
Definition state_of {S A} (d : S) (o : outcome S A) : S :=
  match o with Done _ s | Failed _ s => s | Panicked => d end.

Lemma done_is {S A} (o : outcome S A) a s :
  is_done o = true -> o = Done (value_of a o) (state_of s o).
Proof. by destruct o. Qed.

Lemma done_is3 {S A A' A''} (o : outcome S (A * A' * A'')) a s :
  is_done o = true ->
  o = Done ((value_of a o).1.1, (value_of a o).1.2, (value_of a o).2) (state_of s o).
Proof. destruct o as [[[x y] z] ? | |]; done. Qed.

(** ** The theorems, applied *)

Definition a_log : StoredLog := mkStoredLog (State.mkLog alice [3; 4] [] 0) 1 2 0 0.

Lemma CreateBloom_complete_witness :
  exists b, Bloom.CreateBloom [[]; [a_log]] = Some b /\ length b = Bloom.BloomByteLength /\
    Bloom.BloomLookup b (Address.hash (State.log_Address (log_Log a_log))) = true /\
    forall t, In t (State.Topics (log_Log a_log)) -> Bloom.BloomLookup b (hash_bytes t) = true.
Proof. apply (Bloom.CreateBloom_complete [[]; [a_log]] [a_log] a_log); [right|]; by left. Defined.

Definition payment : Transaction := tx 5 3 bob.
Abbreviation a_payment := (ApplyPayment false no_receipts (header alice) payment None (work rich)).

Example payment_done : is_done a_payment = true.
Proof. vm_compute. done. Qed.

Lemma payment_exact_witness :
  match ApplyPayment false no_receipts (header alice) payment None (work rich) with
  | Done r w' => exists m, the_message None payment (tx_GasLimit payment) = Ok m /\
                           paid false (header alice) payment m (work rich) r w'
  | Failed e _ => match the_message None payment (tx_GasLimit payment) with
                  | Err e' => e = e'
                  | Ok m => refusal false (header alice) m (work rich) e
                  end
  | Panicked => False
  end.
Proof.
  apply (payment_exact false no_receipts (header alice) payment None (work rich)).
  - reflexivity.
  - exact rich_wf.
  - exact rich_refund.
  - by cbn.
  - intros m (_ & -> & -> & _)%AsMessage_fields. by split.
Defined.

(** A unit of a payment and of the freeze of a call. *)
Definition call : Transaction := tx 6 10 carol.
Definition unit_txs : list TransactionExec :=
  [exec ActionTransferPayment payment; exec ActionContractFreeze call].
Abbreviation a_unit := (Process false no_receipts (header alice) 77 1000000 unit_txs rich).
Abbreviation unit_value := (value_of ([], [], 0) a_unit).
Abbreviation unit_state := (state_of rich a_unit).

Lemma unit_txs_ok c x : In x unit_txs -> exec_ok c x None.
Proof. intros [<-|[<-|[]]]; by apply exec_is_ok. Qed.

Example unit_gas : map GasUsed (unit_value.1.1) = [21000; 21000].
Proof. vm_compute. done. Qed.

Lemma unit_done : a_unit = Done (unit_value.1.1, unit_value.1.2, unit_value.2) unit_state.
Proof. apply (done_is3 a_unit ([], [], 0) rich). vm_compute. reflexivity. Qed.

Lemma unit_gas_accounted_witness :
  length unit_value.1.1 = 2%nat /\ cumulate 0 unit_value.1.1 /\ unit_value.2 = total_gas unit_value.1.1 /\
  0 <= unit_value.2 <= 1000000 /\ unit_value.1.2 = concat (map rc_Logs unit_value.1.1) /\
  wf false unit_state.
Proof.
  apply (unit_gas_accounted false no_receipts (header alice) 77 1000000 unit_txs rich).
  - apply no_receipts_ok.
  - apply unit_txs_ok.
  - exact rich_wf.
  - exact rich_refund.
  - done.
  - exact unit_done.
Defined.

Lemma unit_steps_once_witness :
  NoDup (map exec_key unit_txs) /\
  (forall x, In x unit_txs -> ~ marked false rich (MC (header alice)) (exec_key x) /\
                              marked false unit_state (MC (header alice)) (exec_key x)) /\
  (forall k, True -> marked false rich (MC (header alice)) k -> marked false unit_state (MC (header alice)) k).
Proof.
  apply (unit_steps_once false (fun _ _ => True) no_receipts (header alice) 77 1000000 unit_txs rich
           unit_value.1.1 unit_value.1.2 unit_value.2).
  - apply no_receipts_ok.
  - apply unit_txs_ok.
  - exact rich_wf.
  - exact rich_refund.
  - done.
  - exact unit_done.
Defined.

(** *** Building a unit *)

Definition miner : Miner := mkMiner no_receipts (fun _ => None) 1 false (fun rs => Z.of_nat (length rs)).

Definition job (a : TxAction) (t : Transaction) : TxExecMsg :=
  mkTxExecMsg a (tx_Hash t) alice noUnit (Some t).

Lemma job_is_ok a t : is_u64 (tx_GasLimit t) -> job_ok (job a t).
Proof. intros L. by exists t. Qed.

(** More than alice has. *)
Definition unaffordable : TxExecMsg := job ActionTransferPayment (tx 7 2000000 bob).
Definition attempted := handleTx false miner unaffordable (header alice) 1 0 (work rich).

Example attempt_fails : is_failed attempted = true.
Proof. vm_compute. done. Qed.

Lemma failed_step_leaves_no_trace_witness :
  match handleTx false miner unaffordable (header alice) 1 0 (work rich) with
  | Failed e w' => answers_alike false (w_db w') (w_db (work rich)) /\ wf false (w_db w') /\
                   0 <= w_gp w' <= w_gp (work rich)
  | Done (x, r) w' => wf false (w_db w') /\ 0 <= GasUsed r /\
                      w_total w' = w_total (work rich) + GasUsed r /\
                      0 <= w_gp w' <= w_gp (work rich) - GasUsed r
  | Panicked => True
  end.
Proof.
  apply (failed_step_leaves_no_trace false miner unaffordable (header alice) 1 0 (work rich)).
  - apply no_receipts_ok.
  - by apply job_is_ok.
  - exact rich_wf.
  - exact rich_refund.
  - done.
Defined.

(** A payment is queued; a call arrives, then a payment that cannot be made. *)
Definition first_job : TxExecMsg := job ActionTransferPayment payment.
Definition call_job : TxExecMsg := job ActionContractFreeze call.
Definition some_jobs : ChainJobQueue := snd (q_Push first_job (mkQueue alice (Some NewList) (Some 0))).
Definition events : list event := [Poll; Arrive call_job; Arrive unaffordable; Poll; Poll; Poll; Timeout].

Lemma some_jobs_reachable : reachable alice 0 some_jobs.
Proof. apply reach_push; [by exists payment|apply reach_new]. Qed.

Lemma jobs_served_in_order_witness :
  exists l, msgList some_jobs = Some l /\ ser_size some_jobs = Some (0 + q_Len some_jobs) /\
    NoDup (Key <$> items l) /\
    (forall m, has_tx m -> fst (q_Push m some_jobs) = true <-> Key m ∉ Key <$> items l) /\
    match q_Pop some_jobs with
    | (None, told, q') => items l = [] /\ told = false
    | (Some m, told, q') =>
        exists l', msgList q' = Some l' /\ items l ≡ₚ m :: items l' /\
          Forall (fun m' => Compare m' m <= 0) (items l) /\ told = (Len l' =? 0)%nat
    end.
Proof. apply (jobs_served_in_order alice 0 some_jobs). exact some_jobs_reachable. Defined.

Abbreviation packing_ended := (packTxs false miner (header alice) 1000000 [] events (Some some_jobs) rich).

Abbreviation packed :=
  (default (mkPacked (start_pack 0 rich) None None [] [], None) packing_ended).

Example packed_jobs :
  (map msg_TXHash (p_success (pk_pack (fst packed))), map msg_TXHash (p_errors (pk_pack (fst packed))),
   map GasUsed (p_receipts (pk_pack (fst packed))), option_map q_Len (snd packed))
  = ([5; 6], [7], [21000; 21000], Some 0).
Proof. vm_compute. done. Qed.

Lemma ended_is {A A'} (o : option (A * option A')) d d' :
  match o with Some (_, Some _) => true | _ => false end = true ->
  o = Some (fst (default d o), Some (default d' (snd (default d o)))).
Proof. by destruct o as [[? [?|]]|]. Qed.

Lemma packed_unit_accounted_witness :
  let pk := fst packed in
  let p := pk_pack pk in
  let q' := default some_jobs (snd packed) in
  Forall2 (fun x m => exists y, ConvertToTxExec m = Some y /\ x = stored y) (p_result p) (p_success p) /\
  length (p_receipts p) = length (p_result p) /\
  ((forall x, In x (p_result p) -> True) -> NoDup (map exec_key (p_result p))) /\
  match pk_header pk with
  | None => p_result p = []
  | Some hd => 0 <= total_gas (p_receipts p) <= ph_GasUsed hd /\ ph_GasUsed hd <= 1000000
  end /\
  exists l' returned interrupted invalid accepted,
    queue_ok (MC (header alice)) 0 q' l' /\ accepted ⊆+ arrivals events /\
    p_rollback p = returned ++ (if interrupted : bool then p_success p else []) /\
    items l' ++ (p_success p ++ returned ++ p_errors p) ++ invalid
      ≡ₚ items (default NewList (msgList some_jobs)) ++ [] ++ accepted.
Proof.
  cbv zeta. apply (packed_unit_accounted false (fun _ _ => True) miner (header alice) 1000000 [] events 0 some_jobs
                     (default NewList (msgList some_jobs)) rich).
  - apply no_receipts_ok.
  - exact rich_wf.
  - exact rich_refund.
  - done.
  - destruct (reachable_ok alice 0 some_jobs some_jobs_reachable) as [l [E O1 O2 O3 O4]].
    rewrite E. by split.
  - repeat (apply list.Forall_cons; split; [by apply job_is_ok|]). apply Forall_nil_2.
  - apply ended_is. vm_compute. reflexivity.
Defined.

(** *** A call over three chains *)

Lemma ApplyFreeze_chain f g h t msg w :
  ApplyFreeze false (chain f) h t msg w = ApplyFreeze false (chain g) h t msg w.
Proof. reflexivity. Qed.

Lemma ApplyToContract_chain f g h t x msg w :
  f (unit_Hash (PreStep x)) = g (unit_Hash (PreStep x)) ->
  ApplyToContract false (chain f) h t (Some x) msg w = ApplyToContract false (chain g) h t (Some x) msg w.
Proof.
  intros E. unfold ApplyToContract. cbn [GetTxReceiptAtUnit chain]. rewrite E.
  destruct (UnitID_IsEmpty (PreStep x)); reflexivity.
Qed.

Definition no_receipt : Receipt :=
  mkReceipt true 0 [] [] ActionContractFreeze noUnit 0 0 0 [] [].

(** Frozen on alice's chain in unit 100, dealt with on carol's in unit 200. *)
Definition deal_with : TransactionExec :=
  mkExec ActionContractDeal (mkUnitID alice 2 100) (tx_Hash call) (Some call).
Definition refund_step : TransactionExec :=
  mkExec ActionContractRefund (mkUnitID carol 2 200) (tx_Hash call) (Some call).

Abbreviation freezing := (ApplyFreeze false no_receipts (header alice) call None (work rich)).
Definition frozen_receipt : Receipt := value_of no_receipt freezing.
Definition frozen_work : Work := state_of (work rich) freezing.

Definition after_freeze (u : Hash) : option Receipt := if u =? 100 then Some frozen_receipt else None.
Abbreviation dealing :=
  (ApplyToContract false (chain after_freeze) (header carol) call (Some deal_with) None (work start)).
Definition dealt_receipt : Receipt := value_of no_receipt dealing.
Definition dealt_work : Work := state_of (work start) dealing.

Definition receipts (u : Hash) : option Receipt :=
  if u =? 100 then Some frozen_receipt else if u =? 200 then Some dealt_receipt else None.
Abbreviation refunding :=
  (ApplyRefund false (chain receipts) (header alice) call refund_step (work (w_db frozen_work))).

Example call_receipts :
  (GasUsed frozen_receipt, GasRemaining frozen_receipt, GasUsed dealt_receipt, GasRemaining dealt_receipt,
   is_done refunding)
  = (21000, 29000, 14568, 14432, true).
Proof. vm_compute. done. Qed.

Lemma freezing_done : freezing = Done frozen_receipt frozen_work.
Proof. unfold frozen_receipt, frozen_work. apply (done_is freezing no_receipt (work rich)). vm_compute. reflexivity. Qed.

Lemma dealing_done : dealing = Done dealt_receipt dealt_work.
Proof. unfold dealt_receipt, dealt_work. apply (done_is dealing no_receipt (work start)). vm_compute. reflexivity. Qed.

Lemma in_range z : (0 <=? z) && (z <? 2 ^ 64) = true -> is_u64 z.
Proof. intros [?%Z.leb_le ?%Z.ltb_lt]%andb_true_iff. by split. Qed.

Lemma frozen_in_range : is_u64 (GasRemaining frozen_receipt).
Proof. apply in_range. vm_compute. reflexivity. Qed.

Lemma dealt_in_range : is_u64 (GasRemaining dealt_receipt).
Proof. apply in_range. vm_compute. reflexivity. Qed.

Lemma receipts_in_range u r : receipts u = Some r -> is_u64 (GasRemaining r).
Proof.
  unfold receipts. destruct (u =? 100); [|destruct (u =? 200); [|discriminate]]; intros E%(inj Some); rewrite <- E.
  - exact frozen_in_range.
  - exact dealt_in_range.
Qed.

Lemma receipts_ok protected : chain_ok false protected (chain receipts).
Proof. apply chain_is_ok, receipts_in_range. Qed.

Lemma start_ready : ready false (work start).
Proof. split; [exact start_wf|]. vm_compute. discriminate. Qed.

Lemma handler_ready protected g X (m : M Work Receipt) w r w' :
  handler false protected g X m -> ready false w -> m w = Done r w' -> ready false w'.
Proof.
  intros H R E. specialize (H w R). unfold pwp in H. rewrite E in H.
  eapply ready_safe; [exact R|apply H].
Qed.

Lemma ready_work w : ready false w -> ready false (work (w_db w)).
Proof. intros [W R]. by split. Qed.

Lemma frozen_ready : ready false (work (w_db frozen_work)).
Proof.
  apply ready_work. refine (handler_ready _ _ _ _ _ _ _
    (ApplyFreeze_handler false (fun _ _ => False) no_receipts (header alice) call None
       (no_receipts_ok _) (message_None _ _ _) I) work_ready freezing_done).
  done.
Qed.

Definition call_message : Message := mkMessage call 50000 alice carol.

Lemma contract_call_conserves_witness :
  let frozen := balance false (w_db (work rich)) (m_from call_message)
                - balance false (w_db frozen_work) (m_from call_message) in
  let refunded := balance false (w_db (state_of (work rich) refunding)) (m_from call_message)
                  - balance false (w_db (work (w_db frozen_work))) (m_from call_message) in
  frozen = tx_GasLimit call * tx_Price call + tx_Amount call /\
  frozen <= balance false (w_db (work rich)) (m_from call_message) /\
  frozen - refunded = (GasUsed frozen_receipt + GasUsed dealt_receipt) * tx_Price call
                      + (if Failed_ dealt_receipt then 0 else tx_Amount call) /\
  0 <= GasUsed frozen_receipt + GasUsed dealt_receipt <= tx_GasLimit call.
Proof.
  apply (contract_call_conserves false (chain receipts) (header alice) (header carol) (header alice) call
           deal_with refund_step (work rich) frozen_work (work start) dealt_work
           (work (w_db frozen_work)) (state_of (work rich) refunding)
           frozen_receipt dealt_receipt (value_of no_receipt refunding) call_message).
  - apply receipts_ok.
  - by intros cx v [= <-].
  - discriminate.
  - discriminate.
  - exact work_ready.
  - exact start_ready.
  - exact frozen_ready.
  - by split.
  - by split.
  - by split.
  - reflexivity.
  - reflexivity.
  - rewrite (ApplyFreeze_chain receipts (fun _ => None)). exact freezing_done.
  - reflexivity.
  - reflexivity.
  - rewrite (ApplyToContract_chain receipts after_freeze) by done. exact dealing_done.
  - reflexivity.
  - apply done_is. vm_compute. reflexivity.
Defined.
End TxDemo.
