(* ===== verification/GoSort.v ===== *)
(** [sort.SliceStable] of Go's standard library, as [src/core/sc] uses it: also
    with functions that are no orders, where only the algorithm says what
    comes out. *)
From stdpp Require Import list sorting.
From S2P Require Import Prelude.

Module GoSort.

Section GoSort.
Context {A : Type} (less : A -> A -> bool).

Implicit Types (l : list A) (a b i j m n : nat).

Definition Less l i j : bool :=
  match l !! i, l !! j with Some x, Some y => less x y | _, _ => false end.
Definition Swap i j l : list A :=
  match l !! i, l !! j with Some x, Some y => <[i := y]> (<[j := x]> l) | _, _ => l end.

(** The inner loop of [insertionSort]: item [j] moves left as far as [a]. *)
Fixpoint sink a j l : list A :=
  match j with
  | O => l
  | S j' => if (a <? j)%nat && Less l j j' then sink a j' (Swap j j' l) else l
  end.
Definition insertionSort a b l : list A :=
  fold_left (fun l i => sink a i l) (seq (a + 1) (b - (a + 1))) l.

Definition swapRange a b n l : list A := fold_left (fun l i => Swap (a + i) (b + i) l) (seq 0 n) l.

Fixpoint rotate_loop fuel m i j l : list A :=
  match fuel with
  | O => l
  | S fuel =>
      if (i =? j)%nat then swapRange (m - i) m i l
      else if (j <? i)%nat then rotate_loop fuel m (i - j) j (swapRange (m - i) m j l)
      else rotate_loop fuel m i (j - i) (swapRange (m - i) (m + j - i) i l)
  end.
Definition rotate a m b l : list A := rotate_loop (b - a) m (m - a) (b - m) l.

(** Binary search for the first index in [i .. j) where [p] fails. *)
Fixpoint bisect fuel (p : nat -> bool) i j : nat :=
  match fuel with
  | O => i
  | S fuel =>
      if (i <? j)%nat then
        let h := ((i + j) / 2)%nat in
        if p h then bisect fuel p (h + 1) j else bisect fuel p i h
      else i
  end.

Fixpoint symMerge fuel a m b l : list A :=
  match fuel with
  | O => l
  | S fuel =>
      if (m - a =? 1)%nat then
        let i := bisect (b - m) (fun h => Less l h a) m b in
        fold_left (fun l k => Swap k (k + 1) l) (seq a (i - 1 - a)) l
      else if (b - m =? 1)%nat then
        let i := bisect (m - a) (fun h => negb (Less l m h)) a m in
        fold_left (fun l k => Swap k (k - 1) l) (rev (seq (i + 1) (m - i))) l
      else
        let mid := ((a + b) / 2)%nat in
        let n := (mid + m)%nat in
        let '(start, r) := if (mid <? m)%nat then (n - b, mid)%nat else (a, m) in
        let p := (n - 1)%nat in
        let start := bisect (r - start) (fun c => negb (Less l (p - c) c)) start r in
        let stop := (n - start)%nat in
        let l := if (start <? m)%nat && (m <? stop)%nat then rotate start m stop l else l in
        let l := if (a <? start)%nat && (start <? mid)%nat then symMerge fuel a start mid l else l in
        if (mid <? stop)%nat && (stop <? b)%nat then symMerge fuel mid stop b l else l
  end.

Definition blockSize : nat := 20.

(** Blocks of twenty, each sorted by insertion. *)
Fixpoint sort_blocks fuel a n l : list A :=
  match fuel with
  | O => l
  | S fuel =>
      if (a + blockSize <=? n)%nat then sort_blocks fuel (a + blockSize)%nat n (insertionSort a (a + blockSize)%nat l)
      else insertionSort a n l
  end.

(** One pass that merges neighbouring blocks of [size]. *)
Fixpoint merge_blocks fuel a n size l : list A :=
  match fuel with
  | O => l
  | S fuel =>
      if (a + 2 * size <=? n)%nat then
        merge_blocks fuel (a + 2 * size)%nat n size (symMerge n a (a + size)%nat (a + 2 * size)%nat l)
      else if (a + size <? n)%nat then symMerge n a (a + size)%nat n l else l
  end.
Fixpoint merge_passes fuel n size l : list A :=
  match fuel with
  | O => l
  | S fuel => if (size <? n)%nat then merge_passes fuel n (2 * size)%nat (merge_blocks (n + 1) 0 n size l) else l
  end.

Definition SliceStable l : list A :=
  let n := length l in merge_passes n n blockSize (sort_blocks (n + 1) 0 n l).

(** ** Nothing is lost *)

Lemma Swap_Permutation i j l : Swap i j l ≡ₚ l.
Proof.
  unfold Swap. destruct (l !! i) as [x|] eqn:Ei, (l !! j) as [y|] eqn:Ej; try done.
  destruct (decide (i = j)) as [->|N].
  - rewrite Ei in Ej. injection Ej as ->. rewrite list_insert_insert_eq. by rewrite list_insert_id.
  - apply Permutation_inj. split; [by rewrite !length_insert|].
    exists (fun k => if decide (k = i) then j else if decide (k = j) then i else k). split.
    + intros k k'. repeat case_decide; congruence.
    + intros k. pose proof (lookup_lt_Some _ _ _ Ei). pose proof (lookup_lt_Some _ _ _ Ej).
      repeat case_decide; subst; rewrite ?list_lookup_insert_eq by (rewrite ?length_insert; lia); try done.
      * rewrite list_lookup_insert_ne, list_lookup_insert_eq by done. done.
      * by rewrite !list_lookup_insert_ne.
Qed.

Lemma fold_Permutation {B} (f : list A -> B -> list A) xs l :
  (forall l x, f l x ≡ₚ l) -> fold_left f xs l ≡ₚ l.
Proof. intros H. revert l. induction xs as [|x xs IH]; intros l; cbn; [done|]. by rewrite IH. Qed.

Lemma sink_Permutation a j l : sink a j l ≡ₚ l.
Proof. revert l. induction j as [|j IH]; intros l; cbn [sink]; [done|]. destruct (_ && _); [|done]. by rewrite IH, Swap_Permutation. Qed.
Lemma insertionSort_Permutation a b l : insertionSort a b l ≡ₚ l.
Proof. apply fold_Permutation. intros. apply sink_Permutation. Qed.
Lemma swapRange_Permutation a b n l : swapRange a b n l ≡ₚ l.
Proof. apply fold_Permutation. intros. apply Swap_Permutation. Qed.
Lemma rotate_Permutation fuel m i j l : rotate_loop fuel m i j l ≡ₚ l.
Proof.
  revert i j l. induction fuel as [|fuel IH]; intros i j l; cbn [rotate_loop]; [done|].
  destruct (_ =? _)%nat; [apply swapRange_Permutation|]. destruct (_ <? _)%nat; by rewrite IH, swapRange_Permutation.
Qed.
Lemma symMerge_Permutation fuel a m b l : symMerge fuel a m b l ≡ₚ l.
Proof.
  revert a m b l. induction fuel as [|fuel IH]; intros a m b l; cbn [symMerge]; [done|].
  destruct (_ =? 1)%nat; [apply fold_Permutation; intros; apply Swap_Permutation|].
  destruct (_ =? 1)%nat; [apply fold_Permutation; intros; apply Swap_Permutation|].
  destruct (if (_ <? m)%nat then _ else _) as [start r]. cbv zeta.
  repeat match goal with |- context [if ?c then _ else _] => destruct c end;
    rewrite ?IH; unfold rotate; by rewrite ?rotate_Permutation.
Qed.
Lemma sort_blocks_Permutation fuel a n l : sort_blocks fuel a n l ≡ₚ l.
Proof.
  revert a l. induction fuel as [|fuel IH]; intros a l; cbn [sort_blocks]; [done|].
  destruct (_ <=? _)%nat; [rewrite IH|]; apply insertionSort_Permutation.
Qed.
Lemma merge_blocks_Permutation fuel a n size l : merge_blocks fuel a n size l ≡ₚ l.
Proof.
  revert a l. induction fuel as [|fuel IH]; intros a l; cbn [merge_blocks]; [done|].
  destruct (_ <=? _)%nat; [rewrite IH; apply symMerge_Permutation|].
  destruct (_ <? _)%nat; [apply symMerge_Permutation|done].
Qed.
Lemma merge_passes_Permutation fuel n size l : merge_passes fuel n size l ≡ₚ l.
Proof.
  revert size l. induction fuel as [|fuel IH]; intros size l; cbn [merge_passes]; [done|].
  destruct (_ <? _)%nat; [|done]. by rewrite IH, merge_blocks_Permutation.
Qed.

Lemma SliceStable_Permutation l : SliceStable l ≡ₚ l.
Proof. unfold SliceStable. by rewrite merge_passes_Permutation, sort_blocks_Permutation. Qed.

(** ** Up to twenty items: insertion *)

(** [x] goes to the left of the sorted items, read from the right. *)
Fixpoint ins (x : A) (acc : list A) : list A :=
  match acc with
  | [] => [x]
  | y :: r => if less x y then y :: ins x r else x :: acc
  end.

Lemma neighbours (pre suf : list A) x y :
  (pre ++ y :: x :: suf) !! length pre = Some y /\ (pre ++ y :: x :: suf) !! S (length pre) = Some x.
Proof.
  split; [by apply list_lookup_middle|]. rewrite lookup_app_r by lia.
  by replace (S (length pre) - length pre)%nat with 1%nat by lia.
Qed.

Lemma Swap_neighbours (pre suf : list A) x y :
  Swap (S (length pre)) (length pre) (pre ++ y :: x :: suf) = pre ++ x :: y :: suf.
Proof.
  destruct (neighbours pre suf x y) as [E1 E2]. unfold Swap. rewrite E1, E2.
  rewrite insert_app_r_alt, Nat.sub_diag by lia. cbn [insert list_insert].
  rewrite insert_app_r_alt by lia. by replace (S (length pre) - length pre)%nat with 1%nat by lia.
Qed.

Lemma sink_ins pre x suf :
  sink 0 (length pre) (pre ++ x :: suf) = rev (ins x (rev pre)) ++ suf.
Proof.
  revert suf. induction pre as [|y pre IH] using rev_ind; intros suf; [done|].
  rewrite length_app, rev_app_distr. cbn [length rev app]. rewrite Nat.add_1_r. cbn [sink ins].
  change (0 <? S (length pre))%nat with true. cbn [andb]. rewrite <- app_assoc. cbn [app].
  destruct (neighbours pre suf x y) as [E1 E2]. unfold Less. rewrite E1, E2. destruct (less x y).
  - rewrite Swap_neighbours, IH. cbn [rev]. by rewrite <- app_assoc.
  - cbn [rev]. by rewrite rev_involutive, <- !app_assoc.
Qed.

Lemma insertion_fold rest pre i :
  length pre = i ->
  fold_left (fun l i => sink 0 i l) (seq i (length rest)) (pre ++ rest)
  = rev (fold_left (fun acc x => ins x acc) rest (rev pre)).
Proof.
  revert pre i. induction rest as [|x rest IH]; intros pre i <-; cbn [length seq fold_left].
  - by rewrite app_nil_r, rev_involutive.
  - rewrite sink_ins, <- (rev_involutive (ins x (rev pre))) at 1. rewrite rev_involutive.
    assert (length (rev (ins x (rev pre))) = S (length pre)) as L.
    { rewrite length_rev. rewrite <- (length_rev pre). generalize (rev pre) as acc.
      induction acc as [|y acc IHa]; cbn; [done|]. destruct (less x y); cbn; lia. }
    rewrite (IH (rev (ins x (rev pre))) (S (length pre)) L). by rewrite rev_involutive.
Qed.

Lemma insertionSort_short a b l : (b <= a + 1)%nat -> insertionSort a b l = l.
Proof. intros H. unfold insertionSort. by replace (b - (a + 1))%nat with 0%nat by lia. Qed.

Lemma SliceStable_short l :
  (length l <= 20)%nat -> SliceStable l = rev (fold_left (fun acc x => ins x acc) l []).
Proof.
  intros H. unfold SliceStable. cbv zeta.
  assert (sort_blocks (length l + 1) 0 (length l) l = insertionSort 0 (length l) l) as ->.
  { rewrite Nat.add_1_r. cbn [sort_blocks]. destruct (Nat.leb_spec (0 + blockSize) (length l)) as [Hb|Hb]; [|done].
    assert (length l = blockSize) as E by (unfold blockSize in *; lia). rewrite E, Nat.add_0_l.
    destruct blockSize as [|n] eqn:En; [done|]. cbn [sort_blocks]. rewrite En.
    destruct (Nat.leb_spec (S n + S n) (S n)); [lia|]. apply insertionSort_short. lia. }
  destruct l as [|x l]; [done|]. cbn [length merge_passes].
  destruct (Nat.ltb_spec blockSize (S (length l))) as [Hb|_]; [unfold blockSize in Hb; cbn in H; lia|].
  unfold insertionSort. cbn [length]. rewrite Nat.sub_0_l || idtac.
  replace (S (length l) - (0 + 1))%nat with (length l) by lia.
  exact (insertion_fold l [x] 1 eq_refl).
Qed.

(** Whatever stands before its betters is moved behind them: for items in the
    order [earlier], a relation [dom] which [less] respects is respected by the
    sorted list, read from its end. *)
Section Respect.
Context (earlier dom : A -> A -> Prop).
Context (stays : forall x y, earlier y x -> dom x y -> less x y = false).
Context (passes : forall x y, earlier y x -> dom y x -> less x y = true).
Context (through : forall x y z, earlier y x -> less x y = false -> dom z x -> dom z y).

Local Abbreviation best_first := (StronglySorted (fun y z => ~ dom z y)).

Lemma ins_elem x acc y : y ∈ ins x acc <-> y = x \/ y ∈ acc.
Proof. induction acc as [|z acc IH]; cbn [ins]; [set_solver|]. destruct (less x z); set_solver. Qed.

Lemma ins_respects x acc : Forall (fun y => earlier y x) acc -> best_first acc -> best_first (ins x acc).
Proof.
  intros E S. induction S as [|y acc S IH F]; cbn [ins]; [by repeat constructor|].
  apply list.Forall_cons in E as [Ey E]. destruct (less x y) eqn:L.
  - constructor; [by apply IH|]. apply list.Forall_forall. intros z [->|Hb]%ins_elem.
    + intros D%stays; congruence.
    + by eapply (proj1 (list.Forall_forall _ _) F).
  - constructor; [by constructor|]. apply list.Forall_forall. intros z [->|Hb]%elem_of_cons D.
    + apply passes in D; congruence.
    + eapply (proj1 (list.Forall_forall _ _) F z Hb), through; [exact Ey|exact L|exact D].
Qed.

Lemma SliceStable_respects l :
  (length l <= 20)%nat -> StronglySorted earlier l -> best_first (rev (SliceStable l)).
Proof.
  intros Hl S. rewrite SliceStable_short, rev_involutive by done. clear Hl.
  enough (forall acc, best_first acc -> (forall y x, y ∈ acc -> x ∈ l -> earlier y x) ->
    best_first (fold_left (fun acc x => ins x acc) l acc)) as H by (apply H; [constructor|set_solver]).
  induction S as [|x l S IH F]; intros acc Ha Hb; cbn [fold_left]; [done|]. apply IH.
  - apply ins_respects; [|done]. apply list.Forall_forall. intros y Hy. apply Hb; [done|by left].
  - intros y z [->|Hy]%ins_elem Hz; [by eapply (proj1 (list.Forall_forall _ _) F)|]. apply Hb; [done|by right].
Qed.
End Respect.

End GoSort.

(** Sorting by a rank, the greatest first: the first item is a greatest one. *)
Section Ranked.
Context {A : Type} (rank : A -> Z).

Local Definition before (x y : A) : bool := rank x >? rank y.
Local Abbreviation ascending := (Sorted (fun x y => rank x <= rank y)).

Lemma ins_Permutation x acc : ins before x acc ≡ₚ x :: acc.
Proof.
  induction acc as [|y acc IH]; cbn [ins]; [done|]. destruct (before x y); [|done].
  rewrite IH. apply Permutation_swap.
Qed.

Lemma ins_sorted x acc : ascending acc -> ascending (ins before x acc).
Proof.
  intros H. induction H as [|y acc H IH Hh]; cbn [ins]; [by repeat constructor|].
  unfold before in *. rewrite Z.gtb_ltb in *. destruct (Z.ltb_spec (rank y) (rank x)) as [Hl|Hl].
  - constructor; [done|]. destruct acc as [|z acc]; cbn [ins].
    + constructor. lia.
    + inversion Hh; subst. destruct (rank x >? rank z); constructor; lia.
  - constructor; [by constructor|]. constructor. lia.
Qed.

Lemma SliceStable_greatest l x r :
  (length l <= 20)%nat -> SliceStable before l = x :: r -> forall y, y ∈ l -> rank y <= rank x.
Proof.
  intros Hl E y Hy. rewrite <- (SliceStable_Permutation before l), E in Hy.
  rewrite SliceStable_short in E by done.
  assert (forall acc, ascending acc -> ascending (fold_left (fun acc x => ins before x acc) l acc)) as Hs.
  { clear. induction l as [|z l IH]; intros acc H; cbn; [done|]. by apply IH, ins_sorted. }
  specialize (Hs [] ltac:(constructor)). apply (f_equal (@rev A)) in E. rewrite rev_involutive in E. rewrite E in Hs.
  cbn in Hs. apply Sorted_StronglySorted in Hs; [|intros ? ? ?; lia].
  apply elem_of_cons in Hy as [->|Hy]; [done|].
  apply StronglySorted_app in Hs as (H & _ & _). apply H; [|by apply list_elem_of_singleton].
  by rewrite list_elem_of_In, <- in_rev, <- list_elem_of_In.
Qed.
End Ranked.
End GoSort.
