(* ===== verification/ScStore.v ===== *)
(** The storage of the system contract ([src/core/sc/stateSet.go], [period.go],
    [counter.go]): sets, records and counters kept in one account's slots under
    hashed keys. *)
From stdpp Require Import gmap list.
From S2P Require Import Prelude Bech32 Address EvmWord EvmState StateDb.

Import Db.

Module Store.

(** What package [rlp] is given to encode: strings, and lists of them. *)
Inductive rlp_value := Str (b : bytes) | Lst (l : list rlp_value).

Definition uint (n : Z) : rlp_value := Str (Word.Bytes n).
Definition hash_value (h : Hash) : rlp_value := Str (hash_bytes h).
Definition addr_value (a : Address) : rlp_value := Str (Address.hash a).

(** [common.SafeHash256], whose collisions are left out of account. *)
Class ScCodec := { SafeHash256 : list rlp_value -> Hash }.
Class ScCodecOk (C : ScCodec) := { SafeHash256_inj : forall x y, SafeHash256 x = SafeHash256 y -> x = y }.

(** The slots of the system contract's account. *)
Class Storage (DB : Type) := {
  load : Hash -> DB -> Hash;
  save : Hash -> Hash -> DB -> DB
}.

(** Reading what was written last. *)
Class StorageOk (DB : Type) (ST : Storage DB) := {
  storage_ok : DB -> Prop;
  save_ok k v db : storage_ok db -> storage_ok (save k v db);
  load_save k v db k' :
    storage_ok db -> load k' (save k v db) = if decide (k' = k) then v else load k' db
}.

(** ** Values *)

(** The kinds of [interface{}] that [value2hash] knows. *)
Inductive value :=
| VUint (n : Z)
| VBig (n : Z)
| VByte (b : Z)
| VHash (h : Hash)
| VString (s : bytes)
| VAddress (a : Address)
| VEnum (n : Z).

Definition uint2Hash (n : Z) : Hash := n.
Definition hash2uint (h : Hash) : Z := Word.Uint64 h.
Definition value2hash (v : value) : Hash :=
  match v with
  | VUint n => uint2Hash n
  | VBig n => Z.abs n mod 2 ^ 256
  | VByte b => BytesToHash [b]
  | VHash h => h
  | VString s => BytesToHash s
  | VAddress a => BytesToHash (Address.hash a)
  | VEnum n => uint2Hash n
  end.

(** ** Sets *)

Definition defSetLengthPrefix : bytes := str "_length".
Definition defSetIndexPrefix : bytes := str "_value_".
Definition defSetValuePrefix : bytes := str "_index_".

Definition StateSet : Type := list rlp_value.

Section Store.
Context {DB : Type} {ST : Storage DB} {C : ScCodec}.

Definition subKey (s : StateSet) (key : list rlp_value) : Hash := SafeHash256 (s ++ key).
Definition length_key (s : StateSet) : Hash := subKey s [Str defSetLengthPrefix].
Definition index_key (s : StateSet) (i : Z) : Hash := subKey s [Str defSetIndexPrefix; uint i].
Definition value_key (s : StateSet) (v : Hash) : Hash := subKey s [Str defSetValuePrefix; hash_value v].

Definition Len (s : StateSet) (db : DB) : Z := Word.Uint64 (load (length_key s) db).

Definition subLen (s : StateSet) (db : DB) : DB :=
  let l := Len s db in
  if l <=? 0 then db
  else
    let l := l - 1 in
    if l =? 0 then save (length_key s) 0 db else save (length_key s) (uint2Hash l) db.
Definition addLen (s : StateSet) (db : DB) : Z * DB :=
  let l := u64 (Len s db + 1) in
  (l, save (length_key s) (uint2Hash l) db).

Definition update (s : StateSet) (index : Z) (value : value) (db : DB) : DB :=
  let v := value2hash value in
  save (value_key s v) (u64 (index + 1)) (save (index_key s index) v db).
Definition clear (s : StateSet) (index : Z) (valueKey : Hash) (db : DB) : DB :=
  save (value_key s valueKey) 0 (save (index_key s index) 0 db).

Definition Add (s : StateSet) (value : value) (db : DB) : Z * DB :=
  let '(newLen, db) := addLen s db in
  let index := u64 (newLen - 1) in
  (index, update s index value db).

Definition Get (s : StateSet) (db : DB) (index : Z) : Hash := load (index_key s index) db.

(** What [Range] hands to its function, in order; a function that stops early
    sees the beginning. *)
Definition elements (s : StateSet) (db : DB) : list Hash := map (Get s db) (seqZ 0 (Len s db)).

Definition Exist (s : StateSet) (db : DB) (value : value) : option Z :=
  let v := load (value_key s (value2hash value)) db in
  if v =? 0 then None else Some (u64 (Word.Uint64 v - 1)).

Definition Remove (s : StateSet) (index : Z) (db : DB) : Hash * DB :=
  let l := Len s db in
  if (l =? 0) || (index >=? l) then (0, db)
  else
    let removedValue := Get s db index in
    if index =? l - 1 then (removedValue, subLen s (clear s index removedValue db))
    else
      let last := Get s db (l - 1) in
      let db := update s index (VHash last) db in
      let db := clear s (l - 1) removedValue db in
      (removedValue, subLen s db).

(** The loop of [RemoveOrder] from [i] to the length [l]; [n] rounds. *)
Fixpoint move_down (n : nat) (s : StateSet) (i l : Z) (db : DB) : DB :=
  match n with
  | O => db
  | S n =>
      let value := Get s db i in
      let db := if i =? l - 1 then clear s i value db else db in
      let newIndex := i - 1 in
      move_down n s (i + 1) l (update s newIndex (VHash value) db)
  end.

Definition RemoveOrder (s : StateSet) (index : Z) (db : DB) : Hash * DB :=
  let l := Len s db in
  if (l =? 0) || (index >=? l) then (0, db)
  else
    let removedValue := Get s db index in
    let db := clear s index removedValue db in
    if index =? l - 1 then (removedValue, subLen s db)
    else (removedValue, subLen s (move_down (Z.to_nat (l - (index + 1))) s (index + 1) l db)).

(** [ClearSet]; as many rounds as there are elements are enough. *)
Fixpoint clear_set (n : nat) (s : StateSet) (db : DB) : DB :=
  match n with
  | O => db
  | S n =>
      let last := Len s db in
      if last >? 0 then clear_set n s (snd (Remove s (last - 1) db)) else db
  end.
Definition ClearSet (s : StateSet) (db : DB) : DB := clear_set (Z.to_nat (Len s db)) s db.

(** ** Records *)

Definition SubItems : Type := list rlp_value.
Definition item_key (s : SubItems) (key : rlp_value) : Hash := subKey s [key].
Definition GetSub (s : SubItems) (key : rlp_value) (db : DB) : Hash := load (item_key s key) db.
Definition SaveSub (s : SubItems) (key : rlp_value) (v : value) (db : DB) : DB :=
  save (item_key s key) (value2hash v) db.
Definition DeleteSub (s : SubItems) (key : rlp_value) (db : DB) : DB := save (item_key s key) 0 db.
Definition Join (s : SubItems) (key : list rlp_value) : SubItems := s ++ key.

(** ** Counters *)

Definition safeAdd (a : Z) (b : Z) : Z :=
  if b >=? 0 then u64 (a + b) else Word.ForceSafeSub a (u64 (- b)).

Definition counterItem : SubItems := [Str (str "all_counter")].
Definition witness_actives : rlp_value := Str (str "witness_actives").
Definition ActiveWtiness (db : DB) : Z := Word.Uint64 (GetSub counterItem witness_actives db).
Definition AddActiveWitness (n : Z) (db : DB) : DB :=
  SaveSub counterItem witness_actives (VUint (safeAdd (ActiveWtiness db) n)) db.

(** [PeriodInfo]: a count of a period without an entry is the last period's. *)
Definition periodInfo : SubItems := [Str (str "periodInfo")].
Definition period_key (key : bytes) (period : Z) : rlp_value := Lst [Str key; uint period].

Fixpoint get_count (n : nat) (key : bytes) (period : Z) (db : DB) : Z :=
  let v := GetSub periodInfo (period_key key period) db in
  if v =? 0 then
    if period <=? 1 then 0
    else match n with O => 0 | S n => get_count n key (period - 1) db end
  else Word.Uint64 v.
Definition getCount (key : bytes) (period : Z) (db : DB) : Z := get_count (Z.to_nat period) key period db.
Definition updateCount (key : bytes) (period count : Z) (db : DB) : DB :=
  SaveSub periodInfo (period_key key period) (VUint count) db.

Definition witness_count_key (isSystem : bool) : bytes :=
  if isSystem then str "sys_witness" else str "user_witness".
Definition WitnessCount (isSystem : bool) (period : Z) (db : DB) : Z :=
  getCount (witness_count_key isSystem) period db.
Definition AddWitnessCount (period : Z) (isSystem : bool) (n : Z) (db : DB) : DB :=
  if n =? 0 then db
  else
    let key := witness_count_key isSystem in
    updateCount key period (safeAdd (getCount key period db) n) db.
Definition CouncilCount (period : Z) (db : DB) : Z := getCount (str "council") period db.
Definition AddCouncilCount (period n : Z) (db : DB) : DB :=
  if n =? 0 then db else updateCount (str "council") period (safeAdd (CouncilCount period db) n) db.

End Store.
End Store.
