(* ===== verification/ScSets.v ===== *)
(** What the sets and counts of the system contract's storage promise. *)
From stdpp Require Import gmap list.
From S2P Require Import Prelude Bech32 Address EvmWord EvmState StateDb Bloom ScStore.

Import Db Store.

Module Sets.

(** ** The set is the list of its elements *)

Abbreviation is_word x := (0 <= x < 2 ^ 256).

Section Lists.
Context {DB : Type} {ST : Storage DB} {SO : StorageOk DB ST} {C : ScCodec} {CO : ScCodecOk C}.

Implicit Types (s : StateSet) (db : DB) (l : list Hash).

Lemma Str_inj a b : Str a = Str b -> a = b.
Proof. congruence. Qed.
Lemma second_inj (x y z : rlp_value) : [x; y] = [x; z] -> y = z.
Proof. congruence. Qed.

Lemma uint_inj i j : is_u64 i -> is_u64 j -> uint i = uint j -> i = j.
Proof.
  intros Hi Hj E%Str_inj. destruct (Bloom.Bytes_spec i 8 Hi) as [<- _].
  destruct (Bloom.Bytes_spec j 8 Hj) as [<- _]. by rewrite E.
Qed.

Lemma hash_value_inj v w : is_word v -> is_word w -> hash_value v = hash_value w -> v = w.
Proof.
  intros Hv Hw E%Str_inj%(f_equal be_value). unfold hash_bytes in E. rewrite !be_value_be_bytes in E.
  rewrite !Z.mod_small in E; [done|apply Hw|apply Hv].
Qed.

Lemma subKey_inj s s' key key' :
  length s = length s' -> subKey s key = subKey s' key' -> s = s' /\ key = key'.
Proof. intros L E%SafeHash256_inj. by apply app_inj_1. Qed.

Lemma index_key_inj s i j : is_u64 i -> is_u64 j -> index_key s i = index_key s j -> i = j.
Proof. intros Hi Hj [_ E%second_inj]%subKey_inj; [|done]. by apply uint_inj. Qed.

Lemma value_key_inj s v w : is_word v -> is_word w -> value_key s v = value_key s w -> v = w.
Proof.
  intros Hv Hw [_ E%second_inj]%subKey_inj; [|done]. by apply hash_value_inj.
Qed.

Lemma length_index_key s i : length_key s <> index_key s i.
Proof. intros [_ E]%subKey_inj; [done|done]. Qed.
Lemma length_value_key s v : length_key s <> value_key s v.
Proof. intros [_ E]%subKey_inj; [done|done]. Qed.
Lemma index_value_key s i v : index_key s i <> value_key s v.
Proof. intros [_ E]%subKey_inj; [discriminate E|done]. Qed.

(** The slots of a set. *)
Definition owns s (k : Hash) : Prop :=
  k = length_key s \/ (exists i, is_u64 i /\ k = index_key s i) \/ (exists v, is_word v /\ k = value_key s v).

(** No slot but those of [s] has changed. *)
Record only s db db' : Prop := {
  on_ok : storage_ok db';
  on_load k : ~ owns s k -> load k db' = load k db
}.

Lemma only_refl s db : storage_ok db -> only s db db.
Proof. by split. Qed.

Lemma only_trans s db1 db2 db3 : only s db1 db2 -> only s db2 db3 -> only s db1 db3.
Proof. intros [O1 L1] [O2 L2]. split; [done|]. intros k N. by rewrite L2, L1. Qed.

Lemma only_save s db k v : storage_ok db -> owns s k -> only s db (save k v db).
Proof.
  intros O H. split; [by apply save_ok|]. intros k' N. rewrite load_save by done.
  by rewrite decide_False by (by intros ->).
Qed.

Lemma owns_length s : owns s (length_key s).
Proof. by left. Qed.
Lemma owns_index s i : is_u64 i -> owns s (index_key s i).
Proof. intros H. right; left. by exists i. Qed.
Lemma owns_value s v : is_word v -> owns s (value_key s v).
Proof. intros H. right; right. by exists v. Qed.

(** The set stores the elements [l] in order. *)
Record holds s db l : Prop := {
  h_ok : storage_ok db;
  h_once : NoDup l;
  h_words : Forall (fun v => is_word v) l;
  h_room : is_u64 (Z.of_nat (length l));
  h_length : load (length_key s) db = Z.of_nat (length l);
  h_index i : is_u64 i -> load (index_key s i) db = default 0 (l !! Z.to_nat i);
  h_value v : is_word v -> forall i, l !! i = Some v -> load (value_key s v) db = Z.of_nat i + 1;
  h_absent v : is_word v -> v ∉ l -> load (value_key s v) db = 0
}.


(** *** What the writes leave in the slots *)

Lemma load_update_index s i j x db :
  storage_ok db -> is_u64 i -> is_u64 j ->
  load (index_key s j) (update s i x db) = if decide (j = i) then value2hash x else load (index_key s j) db.
Proof.
  intros O Hi Hj. unfold update. rewrite !load_save by (try apply save_ok; done).
  rewrite (decide_False (P := index_key s j = value_key s _)) by apply index_value_key.
  destruct (decide (j = i)) as [->|N]; [by rewrite decide_True|].
  rewrite decide_False; [done|]. by intros E%index_key_inj.
Qed.

Lemma load_update_value s i x w db :
  storage_ok db -> is_word (value2hash x) -> is_word w ->
  load (value_key s w) (update s i x db) =
  if decide (w = value2hash x) then u64 (i + 1) else load (value_key s w) db.
Proof.
  intros O Hx Hw. unfold update. rewrite !load_save by (try apply save_ok; done).
  rewrite (decide_False (P := value_key s w = index_key s _)) by (intros E; by apply (index_value_key s i w)).
  destruct (decide (w = value2hash x)) as [->|N]; [by rewrite decide_True|].
  rewrite decide_False; [done|]. by intros E%value_key_inj.
Qed.

Lemma load_update_length s i x db :
  storage_ok db -> load (length_key s) (update s i x db) = load (length_key s) db.
Proof.
  intros O. unfold update. rewrite !load_save by (try apply save_ok; done).
  by rewrite !decide_False by (apply length_value_key || apply length_index_key).
Qed.

Lemma load_clear_index s i j v db :
  storage_ok db -> is_u64 i -> is_u64 j ->
  load (index_key s j) (clear s i v db) = if decide (j = i) then 0 else load (index_key s j) db.
Proof.
  intros O Hi Hj. unfold clear. rewrite !load_save by (try apply save_ok; done).
  rewrite (decide_False (P := index_key s j = value_key s _)) by apply index_value_key.
  destruct (decide (j = i)) as [->|N]; [by rewrite decide_True|].
  rewrite decide_False; [done|]. by intros E%index_key_inj.
Qed.

Lemma load_clear_value s i v w db :
  storage_ok db -> is_word v -> is_word w ->
  load (value_key s w) (clear s i v db) = if decide (w = v) then 0 else load (value_key s w) db.
Proof.
  intros O Hx Hw. unfold clear. rewrite !load_save by (try apply save_ok; done).
  rewrite (decide_False (P := value_key s w = index_key s _)) by (intros E; by apply (index_value_key s i w)).
  destruct (decide (w = v)) as [->|N]; [by rewrite decide_True|].
  rewrite decide_False; [done|]. by intros E%value_key_inj.
Qed.

Lemma load_clear_length s i v db :
  storage_ok db -> load (length_key s) (clear s i v db) = load (length_key s) db.
Proof.
  intros O. unfold clear. rewrite !load_save by (try apply save_ok; done).
  by rewrite !decide_False by (apply length_value_key || apply length_index_key).
Qed.

Lemma only_update s i x db :
  storage_ok db -> is_u64 i -> is_word (value2hash x) -> only s db (update s i x db).
Proof.
  intros O Hi Hx. unfold update. eapply only_trans; apply only_save; try done.
  - by apply owns_index.
  - by apply save_ok.
  - by apply owns_value.
Qed.

Lemma only_clear s i v db : storage_ok db -> is_u64 i -> is_word v -> only s db (clear s i v db).
Proof.
  intros O Hi Hx. unfold clear. eapply only_trans; apply only_save; try done.
  - by apply owns_index.
  - by apply save_ok.
  - by apply owns_value.
Qed.

(** Writing the length leaves the rest. *)
Lemma load_length_index s i n db :
  storage_ok db -> load (index_key s i) (save (length_key s) n db) = load (index_key s i) db.
Proof.
  intros O. rewrite load_save by done. rewrite decide_False; [done|]. intros E. by apply (length_index_key s i).
Qed.
Lemma load_length_value s v n db :
  storage_ok db -> load (value_key s v) (save (length_key s) n db) = load (value_key s v) db.
Proof.
  intros O. rewrite load_save by done. rewrite decide_False; [done|]. intros E. by apply (length_value_key s v).
Qed.
Lemma load_length_length s n db : storage_ok db -> load (length_key s) (save (length_key s) n db) = n.
Proof. intros O. rewrite load_save by done. by rewrite decide_True. Qed.

(** The slots of the elements alone: what [holds] says but the length. *)
Record stores s db l : Prop := {
  s_ok : storage_ok db;
  s_index i : is_u64 i -> load (index_key s i) db = default 0 (l !! Z.to_nat i);
  s_value v : is_word v -> forall i, l !! i = Some v -> load (value_key s v) db = Z.of_nat i + 1;
  s_absent v : is_word v -> v ∉ l -> load (value_key s v) db = 0
}.

Lemma holds_stores s db l : holds s db l -> stores s db l.
Proof. intros H. split; apply H. Qed.

(** A set of known elements after its length was written. *)
Lemma stores_holds s db l :
  stores s db l -> NoDup l -> Forall (fun v => is_word v) l -> is_u64 (Z.of_nat (length l)) ->
  holds s (save (length_key s) (Z.of_nat (length l)) db) l.
Proof.
  intros [O I V A] D W R. split; try done.
  - by apply save_ok.
  - by apply load_length_length.
  - intros i Hi. rewrite load_length_index by done. by apply I.
  - intros v Hv i E. rewrite load_length_value by done. by apply V.
  - intros v Hv N. rewrite load_length_value by done. by apply A.
Qed.

Lemma Len_spec s db l : holds s db l -> Len s db = Z.of_nat (length l).
Proof. intros H. unfold Len, Word.Uint64. rewrite (h_length _ _ _ H). apply u64_small, H. Qed.

Lemma subLen_save s db l :
  Len s db = Z.of_nat (length l) + 1 -> subLen s db = save (length_key s) (Z.of_nat (length l)) db.
Proof.
  intros E. unfold subLen, uint2Hash. rewrite E. destruct (Z.leb_spec (Z.of_nat (length l) + 1) 0); [lia|].
  replace (Z.of_nat (length l) + 1 - 1) with (Z.of_nat (length l)) by lia. by destruct (Z.eqb_spec (Z.of_nat (length l)) 0) as [->|].
Qed.

Lemma holds_word s db l i v : holds s db l -> l !! i = Some v -> is_word v.
Proof. intros H E. eapply (Forall_lookup_1 (fun v => is_word v)); [apply H|exact E]. Qed.


(** *** The operations *)

Lemma stores_length s db l n : stores s db l -> stores s (save (length_key s) n db) l.
Proof.
  intros [O I V A]. split.
  - by apply save_ok.
  - intros i Hi. rewrite load_length_index by done. by apply I.
  - intros v Hv i E. rewrite load_length_value by done. by apply V.
  - intros v Hv N. rewrite load_length_value by done. by apply A.
Qed.

Lemma holds_intro s db l :
  stores s db l -> NoDup l -> Forall (fun v => is_word v) l -> is_u64 (Z.of_nat (length l)) ->
  load (length_key s) db = Z.of_nat (length l) -> holds s db l.
Proof. intros [O I V A] D W R E. by split. Qed.

Lemma lookup_snoc_cases {A} (l : list A) (v : A) (j : nat) :
  (l ++ [v]) !! j = if decide (j = length l) then Some v else l !! j.
Proof.
  destruct (decide (j = length l)) as [->|N]; [by apply list_lookup_middle|].
  destruct (decide (j < length l)%nat); [by rewrite lookup_app_l|].
  rewrite !lookup_ge_None_2; rewrite ?length_app; cbn; try done; lia.
Qed.

Lemma stores_snoc s db l x :
  stores s db l -> value2hash x ∉ l -> is_word (value2hash x) -> is_u64 (Z.of_nat (length l) + 1) ->
  Forall (fun v => is_word v) l ->
  stores s (update s (Z.of_nat (length l)) x db) (l ++ [value2hash x]).
Proof.
  intros [O I V A] N W R F. split.
  - apply (only_update s); [done|lia|done].
  - intros i Hi. rewrite load_update_index by (done || lia). rewrite lookup_snoc_cases.
    destruct (decide (i = Z.of_nat (length l))) as [->|Hne].
    + by rewrite Nat2Z.id, decide_True.
    + rewrite decide_False by lia. by apply I.
  - intros v Hv i. rewrite load_update_value by done. rewrite lookup_snoc_cases.
    destruct (decide (i = length l)) as [->|Hne].
    + intros [= <-]. rewrite decide_True by done. by rewrite u64_small.
    + intros E. rewrite decide_False; [by apply V|]. intros ->. apply N. by eapply list_elem_of_lookup_2.
  - intros v Hv Hn. rewrite load_update_value by done. rewrite decide_False.
    + apply A; [done|]. set_solver.
    + intros ->. set_solver.
Qed.

Lemma SetAdd_spec s db l x :
  holds s db l -> value2hash x ∉ l -> is_word (value2hash x) -> is_u64 (Z.of_nat (length l) + 1) ->
  fst (Add s x db) = Z.of_nat (length l) /\ holds s (snd (Add s x db)) (l ++ [value2hash x]) /\
  only s db (snd (Add s x db)).
Proof.
  intros H N W R. unfold Add, addLen, uint2Hash. rewrite (Len_spec _ _ _ H), (u64_small (_ + 1)) by done.
  rewrite u64_small by (pose proof (h_room _ _ _ H); lia).
  replace (Z.of_nat (length l) + 1 - 1) with (Z.of_nat (length l)) by lia. cbn [fst snd].
  pose proof (h_ok _ _ _ H) as O. set (db1 := save _ _ db).
  assert (storage_ok db1) as O1 by (by apply save_ok).
  assert (only s db db1) as On by (apply only_save; [done|apply owns_length]).
  split; [done|]. split.
  - apply holds_intro.
    + apply stores_snoc; try done; [|apply H]. by apply stores_length, holds_stores.
    + apply list.NoDup_app. split_and!; [apply H| |apply list.NoDup_singleton]. set_solver.
    + apply Forall_app. split; [apply H|]. by apply list.Forall_singleton.
    + rewrite length_app. cbn. lia.
    + rewrite load_update_length by done. unfold db1. rewrite load_length_length by done.
      rewrite length_app. cbn. lia.
  - eapply only_trans; [exact On|]. apply only_update; [done|apply H|done].
Qed.

(** The list after [Remove]: the last element takes the removed one's place. *)
Definition swap_remove {A} (i : nat) (l : list A) : list A :=
  match l !! (length l - 1)%nat with
  | None => []
  | Some y => take (length l - 1) (<[i := y]> l)
  end.

Lemma swap_remove_permutation {A} (i : nat) (l : list A) (x : A) : l !! i = Some x -> l ≡ₚ x :: swap_remove i l.
Proof.
  intros E. destruct l as [|z l0 _] using rev_ind; [done|]. rename z into y, l0 into l1.
  unfold swap_remove. rewrite length_app. cbn [length]. rewrite Nat.add_sub, list_lookup_middle by done.
  rewrite lookup_snoc_cases in E. destruct (decide (i = length l1)) as [->|N].
  - injection E as ->. rewrite insert_app_r_alt, Nat.sub_diag by done. cbn.
    rewrite take_app_length. symmetry. apply Permutation_cons_append.
  - pose proof (lookup_lt_Some _ _ _ E) as Hl. rewrite insert_app_l by done.
    rewrite take_app_le by (rewrite length_insert; lia).
    rewrite take_ge by (rewrite length_insert; lia).
    rewrite <- (take_drop_middle l1 i x E) at 1. rewrite insert_take_drop by done.
    rewrite <- !app_assoc. cbn [app]. rewrite <- !Permutation_middle. f_equiv.
    by rewrite app_nil_r.
Qed.

Lemma swap_remove_lookup i l x j :
  l !! i = Some x ->
  swap_remove i l !! j =
  if decide (j < length l - 1)%nat then if decide (j = i) then l !! (length l - 1)%nat else l !! j else None.
Proof.
  intros E. pose proof (lookup_lt_Some _ _ _ E) as Hi. unfold swap_remove.
  destruct (lookup_lt_is_Some_2 l (length l - 1)) as [y Ey]; [lia|]. rewrite Ey, lookup_take.
  case_decide; [|done]. rewrite list_lookup_insert.
  destruct (decide (j = i)) as [->|N]; [by rewrite decide_True|]. by rewrite decide_False by naive_solver.
Qed.

Lemma length_swap_remove i l x : l !! i = Some x -> length (swap_remove i l) = (length l - 1)%nat.
Proof. intros E%swap_remove_permutation%Permutation_length. cbn in E. lia. Qed.

(** What remains when one element of a set without repetitions is taken out. *)
Lemma rest_of_set l l' x :
  l ≡ₚ x :: l' -> NoDup l -> Forall (fun v => is_word v) l ->
  NoDup l' /\ Forall (fun v => is_word v) l' /\ (forall v, v ∈ l <-> v = x \/ v ∈ l') /\ x ∉ l'.
Proof.
  intros P N F. rewrite P in N, F. apply list.NoDup_cons in N as [Nx N].
  apply list.Forall_cons in F as [_ F]. split_and!; [done..| |done].
  intros v. rewrite P. apply elem_of_cons.
Qed.

Lemma index_in_range l i (x : Hash) : l !! i = Some x -> (i < length l)%nat.
Proof. apply lookup_lt_Some. Qed.

(** A mid element replaced by the last one. *)
Lemma stores_swap_remove s db l i x y :
  holds s db l -> l !! i = Some x -> l !! (length l - 1)%nat = Some y -> i <> (length l - 1)%nat ->
  stores s (clear s (Z.of_nat (length l) - 1) x (update s (Z.of_nat i) (VHash y) db)) (swap_remove i l).
Proof.
  intros H Ex Ey Ni. pose proof (holds_word _ _ _ _ _ H Ex) as Wx. pose proof (holds_word _ _ _ _ _ H Ey) as Wy.
  pose proof (index_in_range _ _ _ Ex) as Hi. pose proof (h_room _ _ _ H) as R. pose proof (h_ok _ _ _ H) as O.
  assert (x <> y) as Nxy by (intros ->; apply Ni; eapply NoDup_lookup; [apply H|done..]).
  assert (storage_ok (update s (Z.of_nat i) (VHash y) db)) as O1 by (apply (only_update s); [done|lia|done]).
  split.
  - apply (only_clear s); [done|lia|done].
  - intros j Hj. rewrite load_clear_index, load_update_index, (swap_remove_lookup _ _ _ _ Ex) by (done || lia).
    destruct (decide (j = Z.of_nat (length l) - 1)) as [->|]; [by rewrite decide_False by lia|].
    destruct (decide (j = Z.of_nat i)) as [->|].
    { rewrite Nat2Z.id, decide_True, decide_True, Ey by (done || lia). done. }
    rewrite (h_index _ _ _ H j Hj). case_decide; [by rewrite decide_False by lia|].
    by rewrite lookup_ge_None_2 by lia.
  - intros v Hv j. rewrite (swap_remove_lookup _ _ _ _ Ex), load_clear_value, load_update_value by done.
    cbn [value2hash]. case_decide as Hj; [|done]. destruct (decide (j = i)) as [->|Nj]; intros E.
    + rewrite Ey in E. injection E as <-. rewrite decide_False, decide_True by done. apply u64_small. lia.
    + rewrite !decide_False; [by apply (h_value _ _ _ H)| |].
      * intros ->. assert (j = (length l - 1)%nat); [|lia]. eapply NoDup_lookup; [apply H|done..].
      * intros ->. apply Nj. eapply NoDup_lookup; [apply H|done..].
  - intros v Hv Hn. rewrite load_clear_value, load_update_value by done. cbn [value2hash].
    destruct (rest_of_set _ _ _ (swap_remove_permutation _ _ _ Ex) (h_once _ _ _ H) (h_words _ _ _ H)) as (_ & _ & M & _).
    case_decide as E1; [done|]. rewrite decide_False.
    + apply (h_absent _ _ _ H); [done|]. rewrite M. intros [?|?]; done.
    + intros ->. apply list_elem_of_lookup_2 in Ey. apply M in Ey as [?|?]; by try congruence.
Qed.

(** Taking out the last element. *)
Lemma stores_pop s db l i x :
  holds s db l -> l !! i = Some x -> i = (length l - 1)%nat ->
  stores s (clear s (Z.of_nat i) x db) (swap_remove i l).
Proof.
  intros H Ex Ei. pose proof (holds_word _ _ _ _ _ H Ex) as Wx.
  pose proof (index_in_range _ _ _ Ex) as Hi. pose proof (h_room _ _ _ H) as R. pose proof (h_ok _ _ _ H) as O.
  split.
  - apply (only_clear s); [done|lia|done].
  - intros j Hj. rewrite load_clear_index, (swap_remove_lookup _ _ _ _ Ex) by (done || lia).
    case_decide; [by rewrite decide_False by lia|]. rewrite (h_index _ _ _ H j Hj).
    case_decide; [by rewrite decide_False by lia|]. by rewrite lookup_ge_None_2 by lia.
  - intros v Hv j. rewrite (swap_remove_lookup _ _ _ _ Ex), load_clear_value by done.
    case_decide; [|done]. rewrite decide_False by lia. intros E.
    rewrite decide_False; [by apply (h_value _ _ _ H)|]. intros ->.
    assert (j = i); [|lia]. eapply NoDup_lookup; [apply H|done..].
  - intros v Hv Hn. rewrite load_clear_value by done.
    destruct (rest_of_set _ _ _ (swap_remove_permutation _ _ _ Ex) (h_once _ _ _ H) (h_words _ _ _ H)) as (_ & _ & M & _).
    case_decide; [done|]. apply (h_absent _ _ _ H); [done|]. rewrite M. by intros [?|?].
Qed.

Lemma Get_spec s db l i x : holds s db l -> l !! i = Some x -> Get s db (Z.of_nat i) = x.
Proof.
  intros H E. pose proof (index_in_range _ _ _ E). pose proof (h_room _ _ _ H).
  unfold Get. rewrite (h_index _ _ _ H) by lia. by rewrite Nat2Z.id, E.
Qed.

(** Lowering the length by one ends a removal. *)
Lemma holds_subLen s db db1 l l' x :
  holds s db l -> l ≡ₚ x :: l' -> stores s db1 l' -> load (length_key s) db1 = load (length_key s) db ->
  only s db db1 -> holds s (subLen s db1) l' /\ only s db (subLen s db1).
Proof.
  intros H P St E On. pose proof (Permutation_length P) as L. cbn in L.
  destruct (rest_of_set _ _ _ P (h_once _ _ _ H) (h_words _ _ _ H)) as (N & F & _).
  pose proof (h_room _ _ _ H) as R. rewrite (subLen_save s db1 l').
  - split; [by apply stores_holds; [| | |lia]|]. eapply only_trans; [exact On|].
    apply only_save; [apply St|apply owns_length].
  - unfold Len, Word.Uint64. rewrite E, (h_length _ _ _ H), u64_small by done. lia.
Qed.

Lemma SetRemove_spec s db l i x :
  holds s db l -> l !! i = Some x ->
  fst (Remove s (Z.of_nat i) db) = x /\ holds s (snd (Remove s (Z.of_nat i) db)) (swap_remove i l) /\
  only s db (snd (Remove s (Z.of_nat i) db)).
Proof.
  intros H Ex. pose proof (index_in_range _ _ _ Ex) as Hi. pose proof (h_room _ _ _ H) as R.
  pose proof (h_ok _ _ _ H) as O. pose proof (holds_word _ _ _ _ _ H Ex) as Wx.
  pose proof (swap_remove_permutation _ _ _ Ex) as P.
  unfold Remove. rewrite (Len_spec _ _ _ H), (Get_spec _ _ _ _ _ H Ex).
  destruct (Z.eqb_spec (Z.of_nat (length l)) 0) as [|_]; [lia|]. rewrite Z.geb_leb.
  destruct (Z.leb_spec (Z.of_nat (length l)) (Z.of_nat i)) as [|_]; [lia|]. cbn [orb].
  destruct (Z.eqb_spec (Z.of_nat i) (Z.of_nat (length l) - 1)) as [E|N]; cbn [fst snd]; (split; [done|]).
  - apply (holds_subLen s db _ l _ x H P).
    + apply stores_pop; [done..|lia].
    + by apply load_clear_length.
    + apply only_clear; [done|lia|done].
  - destruct (lookup_lt_is_Some_2 l (length l - 1)) as [y Ey]; [lia|].
    replace (Z.of_nat (length l) - 1) with (Z.of_nat (length l - 1)) by lia.
    rewrite (Get_spec _ _ _ _ _ H Ey). replace (Z.of_nat (length l - 1)) with (Z.of_nat (length l) - 1) by lia.
    pose proof (holds_word _ _ _ _ _ H Ey) as Wy.
    assert (only s db (update s (Z.of_nat i) (VHash y) db)) as On by (apply only_update; [done|lia|done]).
    apply (holds_subLen s db _ l _ x H P).
    + apply stores_swap_remove; [done..|lia].
    + rewrite load_clear_length by apply On. by apply load_update_length.
    + eapply only_trans; [exact On|]. apply only_clear; [apply On|lia|done].
Qed.

(** ** Removing in order *)

(** The slots before round [i] of [RemoveOrder]'s loop, after element [k] was
    cleared: the elements from [k+1] to [i-1] have moved down by one. *)
Record moving s (k : nat) (l : list Hash) (i : nat) db : Prop := {
  mg_ok : storage_ok db;
  mg_index j : is_u64 j -> j <> Z.of_nat i - 1 ->
    load (index_key s j) db =
    default 0 (if decide (j < Z.of_nat i - 1) then delete k l !! Z.to_nat j else l !! Z.to_nat j);
  mg_last : i = length l -> load (index_key s (Z.of_nat i - 1)) db = 0;
  mg_value v j : is_word v -> l !! j = Some v ->
    load (value_key s v) db =
    if decide (j = k) then 0 else if decide (k < j < i)%nat then Z.of_nat j else Z.of_nat j + 1;
  mg_absent v : is_word v -> v ∉ l -> load (value_key s v) db = 0
}.

Lemma moving_start s db l k x :
  holds s db l -> l !! k = Some x -> (S k < length l)%nat -> moving s k l (S k) (clear s (Z.of_nat k) x db).
Proof.
  intros H Ex Hk. pose proof (h_room _ _ _ H) as R. pose proof (h_ok _ _ _ H) as O.
  pose proof (holds_word _ _ _ _ _ H Ex) as Wx. split.
  - apply (only_clear s); [done|lia|done].
  - intros j Hj N. rewrite load_clear_index by (done || lia). rewrite decide_False by lia.
    rewrite (h_index _ _ _ H j Hj). case_decide; [|done]. by rewrite list_lookup_delete_lt by lia.
  - lia.
  - intros v j Hv E. rewrite load_clear_value by done.
    destruct (decide (j = k)) as [->|N]; [rewrite decide_True; [done|congruence]|].
    rewrite !decide_False; [by apply (h_value _ _ _ H)|lia|].
    intros ->. apply N. eapply NoDup_lookup; [apply H|done..].
  - intros v Hv N. rewrite load_clear_value by done. case_decide; [done|]. by apply (h_absent _ _ _ H).
Qed.

(** One round of the loop. *)
Definition move_one s (i l : Z) db : DB :=
  let value := Get s db i in
  update s (i - 1) (VHash value) (if i =? l - 1 then clear s i value db else db).

Lemma moving_round s db l k i :
  NoDup l -> Forall (fun v => is_word v) l -> is_u64 (Z.of_nat (length l)) ->
  (k < i)%nat -> (i < length l)%nat -> moving s k l i db ->
  moving s k l (S i) (move_one s (Z.of_nat i) (Z.of_nat (length l)) db) /\
  only s db (move_one s (Z.of_nat i) (Z.of_nat (length l)) db) /\
  load (length_key s) (move_one s (Z.of_nat i) (Z.of_nat (length l)) db) = load (length_key s) db.
Proof.
  intros N F R Hk Hi [O MI ML MV MA]. destruct (lookup_lt_is_Some_2 l i Hi) as [x Ex].
  assert (is_word x) as Wx by (eapply (Forall_lookup_1 (fun v => is_word v)); [exact F|exact Ex]).
  assert (Get s db (Z.of_nat i) = x) as Eg.
  { unfold Get. rewrite MI, decide_False, Nat2Z.id, Ex by lia. done. }
  unfold move_one. rewrite Eg. cbv zeta. set (db1 := if _ =? _ then _ else _).
  assert (only s db db1) as On by (unfold db1; case_match; [apply only_clear; [done|lia|done]|by apply only_refl]).
  assert (forall j, is_u64 j -> j <> Z.of_nat i -> load (index_key s j) db1 = load (index_key s j) db) as I1.
  { intros j Hj Nj. unfold db1. case_match; [|done]. by rewrite load_clear_index, decide_False by (done || lia). }
  assert (forall v, is_word v -> v <> x -> load (value_key s v) db1 = load (value_key s v) db) as V1.
  { intros v Hv Nv. unfold db1. case_match; [|done]. by rewrite load_clear_value, decide_False by done. }
  assert (load (length_key s) db1 = load (length_key s) db) as L1
    by (unfold db1; case_match; [by apply load_clear_length|done]).
  assert (storage_ok db1) as O1 by apply On. split_and!; [split| |].
  - apply (only_update s); [done|lia|done].
  - intros j Hj Nj. rewrite load_update_index by (done || lia). rewrite (I1 j Hj) by lia.
    destruct (decide (j = Z.of_nat i - 1)) as [->|Nj'].
    + rewrite decide_True by lia. rewrite list_lookup_delete_ge by lia.
      replace (S (Z.to_nat (Z.of_nat i - 1))) with i by lia. by rewrite Ex.
    + rewrite MI by done. by destruct (decide (j < Z.of_nat i - 1)), (decide (j < Z.of_nat (S i) - 1)); try lia.
  - intros Hl. rewrite load_update_index by (done || lia). rewrite decide_False by lia.
    unfold db1. rewrite (proj2 (Z.eqb_eq _ _)) by lia. rewrite load_clear_index by (done || lia).
    by rewrite decide_True by lia.
  - intros v j Hv E. rewrite load_update_value by done. cbn [value2hash].
    destruct (decide (v = x)) as [->|Nv].
    + assert (j = i) as -> by (eapply NoDup_lookup; eauto).
      rewrite decide_False, decide_True by lia. rewrite u64_small; lia.
    + rewrite V1, (MV v j Hv E) by done. assert (j <> i) by congruence.
      destruct (decide (j = k)); [done|]. by destruct (decide (k < j < i)%nat), (decide (k < j < S i)%nat); try lia.
  - intros v Hv Nv. rewrite load_update_value by done. cbn [value2hash].
    assert (v <> x) by (intros ->; apply Nv; by eapply list_elem_of_lookup_2).
    rewrite decide_False, V1 by done. by apply MA.
  - eapply only_trans; [exact On|]. apply only_update; [done|lia|done].
  - by rewrite load_update_length.
Qed.

Lemma moving_loop s db l k n i :
  NoDup l -> Forall (fun v => is_word v) l -> is_u64 (Z.of_nat (length l)) ->
  (k < i)%nat -> (i + n)%nat = length l -> moving s k l i db ->
  let db' := move_down n s (Z.of_nat i) (Z.of_nat (length l)) db in
  moving s k l (length l) db' /\ only s db db' /\ load (length_key s) db' = load (length_key s) db.
Proof.
  intros N F R. revert i db. induction n as [|n IH]; intros i db Hk Hi M.
  - replace i with (length l) in * by lia. split_and!; [done|apply only_refl, M|done].
  - cbn [move_down].
    destruct (moving_round s db l k i N F R Hk ltac:(lia) M) as (M1 & O1 & E1).
    replace (Z.of_nat i + 1) with (Z.of_nat (S i)) by lia.
    destruct (IH (S i) _ ltac:(lia) ltac:(lia) M1) as (M2 & O2 & E2).
    split_and!; [exact M2|by eapply only_trans|by rewrite <- E1].
Qed.

Lemma moving_end s db l k x :
  NoDup l -> l !! k = Some x -> moving s k l (length l) db -> stores s db (delete k l).
Proof.
  intros N Ex [O MI ML MV MA]. pose proof (index_in_range _ _ _ Ex) as Hk.
  pose proof (length_delete l k ltac:(by eexists)) as Ld. split; [done|..].
  - intros j Hj. destruct (decide (j = Z.of_nat (length l) - 1)) as [->|Nj].
    + rewrite ML by done. by rewrite lookup_ge_None_2 by lia.
    + rewrite MI by done. case_decide; [done|]. by rewrite !lookup_ge_None_2 by lia.
  - intros v Hv j E. destruct (decide (j < k)%nat).
    + rewrite list_lookup_delete_lt in E by lia. rewrite (MV v j Hv E), !decide_False by lia. done.
    + rewrite list_lookup_delete_ge in E by lia. pose proof (index_in_range _ _ _ E).
      rewrite (MV v (S j) Hv E), decide_False, decide_True by lia. lia.
  - intros v Hv Nv. destruct (decide (v ∈ l)) as [Hin|]; [|by apply MA].
    rewrite (delete_Permutation l k x Ex), elem_of_cons in Hin. destruct Hin as [->|]; [|done].
    by rewrite (MV x k Hv Ex), decide_True.
Qed.

Lemma RemoveOrder_spec s db l k x :
  holds s db l -> l !! k = Some x ->
  fst (RemoveOrder s (Z.of_nat k) db) = x /\ holds s (snd (RemoveOrder s (Z.of_nat k) db)) (delete k l) /\
  only s db (snd (RemoveOrder s (Z.of_nat k) db)).
Proof.
  intros H Ex. pose proof (index_in_range _ _ _ Ex) as Hi. pose proof (h_room _ _ _ H) as R.
  pose proof (h_ok _ _ _ H) as O. pose proof (holds_word _ _ _ _ _ H Ex) as Wx.
  pose proof (delete_Permutation l k x Ex) as P.
  unfold RemoveOrder. rewrite (Len_spec _ _ _ H), (Get_spec _ _ _ _ _ H Ex).
  destruct (Z.eqb_spec (Z.of_nat (length l)) 0) as [|_]; [lia|]. rewrite Z.geb_leb.
  destruct (Z.leb_spec (Z.of_nat (length l)) (Z.of_nat k)) as [|_]; [lia|]. cbn [orb].
  assert (only s db (clear s (Z.of_nat k) x db)) as On by (apply only_clear; [done|lia|done]).
  destruct (Z.eqb_spec (Z.of_nat k) (Z.of_nat (length l) - 1)) as [E|N]; cbn [fst snd]; (split; [done|]).
  - apply (holds_subLen s db _ l _ x H P); [|by apply load_clear_length|done].
    replace (delete k l) with (swap_remove k l); [apply stores_pop; [done..|lia]|].
    apply list_eq. intros j. rewrite (swap_remove_lookup _ _ _ _ Ex). case_decide.
    + by rewrite decide_False, list_lookup_delete_lt by lia.
    + rewrite list_lookup_delete_ge by lia. by rewrite lookup_ge_None_2 by lia.
  - destruct (moving_loop s (clear s (Z.of_nat k) x db) l k (Z.to_nat (Z.of_nat (length l) - (Z.of_nat k + 1))) (S k))
      as (M & O1 & E1); try (apply H); try lia; [by apply moving_start; [| |lia]|].
    replace (Z.of_nat (S k)) with (Z.of_nat k + 1) in * by lia.
    apply (holds_subLen s db _ l _ x H P).
    + eapply moving_end; [apply H|exact Ex|exact M].
    + rewrite E1. by apply load_clear_length.
    + by eapply only_trans.
Qed.

Lemma clear_set_spec s n db l :
  holds s db l -> (length l <= n)%nat -> holds s (clear_set n s db) [] /\ only s db (clear_set n s db).
Proof.
  revert db l. induction n as [|n IH]; intros db l H Hn; cbn [clear_set].
  - destruct l; [|cbn in Hn; lia]. split; [done|apply only_refl, H].
  - rewrite (Len_spec _ _ _ H), Z.gtb_ltb. destruct (Z.ltb_spec 0 (Z.of_nat (length l))) as [Hl|].
    + destruct (lookup_lt_is_Some_2 l (length l - 1)) as [y Ey]; [lia|].
      replace (Z.of_nat (length l) - 1) with (Z.of_nat (length l - 1)) by lia.
      destruct (SetRemove_spec s db l _ y H Ey) as (_ & H1 & O1).
      destruct (IH _ _ H1) as [H2 O2]; [rewrite (length_swap_remove _ _ _ Ey); lia|].
      split; [done|by eapply only_trans].
    + destruct l; [|cbn in *; lia]. split; [done|apply only_refl, H].
Qed.

Lemma Exist_spec s db l x :
  holds s db l -> is_word (value2hash x) ->
  (forall i, l !! i = Some (value2hash x) -> Exist s db x = Some (Z.of_nat i)) /\
  (value2hash x ∉ l -> Exist s db x = None).
Proof.
  intros H W. pose proof (h_room _ _ _ H). unfold Exist. split.
  - intros i E. pose proof (index_in_range _ _ _ E). rewrite (h_value _ _ _ H _ W i E).
    unfold Word.Uint64. rewrite (u64_small (_ + 1)) by lia.
    destruct (Z.eqb_spec (Z.of_nat i + 1) 0); [lia|]. rewrite u64_small by lia. f_equal. lia.
  - intros N. by rewrite (h_absent _ _ _ H _ W N).
Qed.

Lemma elements_spec s db l : holds s db l -> elements s db = l.
Proof.
  intros H. unfold elements. rewrite (Len_spec _ _ _ H). apply list_eq. intros i.
  rewrite list_lookup_fmap. destruct (decide (i < length l)%nat) as [Hi|Hi].
  - destruct (lookup_lt_is_Some_2 l i Hi) as [x Ex].
    rewrite lookup_seqZ_lt by lia. cbn. rewrite Ex. f_equal.
    replace (0 + Z.of_nat i) with (Z.of_nat i) by lia. by eapply Get_spec.
  - rewrite lookup_seqZ_ge by lia. by rewrite lookup_ge_None_2 by lia.
Qed.

(** Sets of equally long prefixes do not share slots. *)
Lemma owned_once s s' k : length s = length s' -> s <> s' -> owns s k -> owns s' k -> False.
Proof.
  intros L N H H'.
  destruct H as [->|[(i & _ & ->)|(v & _ & ->)]], H' as [E|[(j & _ & E)|(w & _ & E)]];
    by apply subKey_inj in E as [? _].
Qed.

Lemma holds_ext s db db' l :
  storage_ok db' -> (forall k, owns s k -> load k db' = load k db) -> holds s db l -> holds s db' l.
Proof.
  intros O E H. split; try apply H; [done|..].
  - rewrite E by apply owns_length. apply H.
  - intros i Hi. rewrite E by (by apply owns_index). by apply H.
  - intros v Hv i Ei. rewrite E by (by apply owns_value). by apply H.
  - intros v Hv Nv. rewrite E by (by apply owns_value). by apply H.
Qed.

Lemma holds_other s s' db db' l :
  length s = length s' -> s <> s' -> only s db db' -> holds s' db l -> holds s' db' l.
Proof.
  intros L N [O E]. apply holds_ext; [done|]. intros k Hk. apply E. intros Hk'. by eapply owned_once.
Qed.

(** C29: a [StateSet] in the contract's storage is the list of its elements.  In
    a state that stores the list [l], [Len], the order of [Range], and [Exist]
    answer by [l]; [Add] of a new value appends it, [Remove] puts the last
    element in the removed one's place, [RemoveOrder] closes the gap, outside
    the list both do nothing, [ClearSet] empties it; and no operation touches
    another set of an equally long prefix.  Hashes are taken to be free of
    collisions. *)
Theorem StateSet_refines s db l :
  holds s db l ->
  (Len s db = Z.of_nat (length l) /\ elements s db = l) /\
  (forall x, is_word (value2hash x) ->
     match Exist s db x with
     | Some i => l !! Z.to_nat i = Some (value2hash x)
     | None => value2hash x ∉ l
     end) /\
  (forall x, is_word (value2hash x) -> value2hash x ∉ l -> is_u64 (Z.of_nat (length l) + 1) ->
     let '(i, db') := Add s x db in
     i = Z.of_nat (length l) /\ holds s db' (l ++ [value2hash x]) /\ only s db db') /\
  (forall i x, l !! i = Some x ->
     (let '(y, db') := Remove s (Z.of_nat i) db in y = x /\ holds s db' (swap_remove i l) /\ only s db db') /\
     (let '(y, db') := RemoveOrder s (Z.of_nat i) db in y = x /\ holds s db' (delete i l) /\ only s db db')) /\
  (forall i, Z.of_nat (length l) <= i -> Remove s i db = (0, db) /\ RemoveOrder s i db = (0, db)) /\
  (holds s (ClearSet s db) [] /\ only s db (ClearSet s db)) /\
  (forall s' l' db', length s = length s' -> s <> s' -> only s db db' -> holds s' db l' -> holds s' db' l').
Proof.
  intros H. pose proof (Len_spec _ _ _ H) as El. split_and!.
  - done.
  - by apply elements_spec.
  - intros x W. destruct (Exist_spec s db l x H W) as [H1 H2].
    destruct (decide (value2hash x ∈ l)) as [(i & Ei)%list_elem_of_lookup|N].
    + by rewrite (H1 i Ei), Nat2Z.id.
    + by rewrite (H2 N).
  - intros x W N R. pose proof (SetAdd_spec s db l x H N W R) as HA. by destruct (Add s x db).
  - intros i x Ex. pose proof (SetRemove_spec s db l i x H Ex) as H1.
    pose proof (RemoveOrder_spec s db l i x H Ex) as H2.
    by destruct (Remove s _ db), (RemoveOrder s _ db).
  - intros i Hi. unfold Remove, RemoveOrder. rewrite El. by rewrite (proj2 (Z.geb_le _ _) Hi), orb_true_r.
  - unfold ClearSet. rewrite El, Nat2Z.id. by destruct (clear_set_spec s (length l) db l H).
  - unfold ClearSet. rewrite El, Nat2Z.id. by destruct (clear_set_spec s (length l) db l H).
  - intros s' l' db' L N O. by apply (holds_other s s' db).
Qed.

End Lists.

(** ** Counts of periods *)

Section Periods.
Context {DB : Type} {ST : Storage DB} {SO : StorageOk DB ST} {C : ScCodec} {CO : ScCodecOk C}.

Implicit Types (db : DB) (key : bytes).

Definition entry (key : bytes) (period : Z) (db : DB) : Hash :=
  GetSub periodInfo (period_key key period) db.

Lemma entry_update key p n db q :
  storage_ok db -> is_u64 p -> is_u64 q ->
  entry key q (updateCount key p n db) = if decide (q = p) then n else entry key q db.
Proof.
  intros O Hp Hq. unfold entry, updateCount, GetSub, SaveSub, item_key. cbn [value2hash]. unfold uint2Hash.
  rewrite load_save by done. destruct (decide (q = p)) as [->|N]; [by rewrite decide_True|].
  rewrite decide_False; [done|]. intros [_ E]%subKey_inj; [|done]. apply N.
  assert (forall x y : rlp_value, [Lst [Str key; x]] = [Lst [Str key; y]] -> x = y) as I by (intros ?? X; congruence).
  by apply I, uint_inj in E.
Qed.

Lemma get_count_same n n' key p db :
  (Z.to_nat p <= n)%nat -> (Z.to_nat p <= n')%nat -> get_count n key p db = get_count n' key p db.
Proof.
  revert n' p. induction n as [|n IH]; intros n' p Hn Hn'.
  - assert (p <= 0) by lia. destruct n'; cbn [get_count]; (destruct (_ =? 0); [|done]);
      by destruct (Z.leb_spec p 1); [|lia].
  - destruct n'; cbn [get_count]; (destruct (_ =? 0); [|done]); destruct (Z.leb_spec p 1); try done; try lia.
    apply IH; lia.
Qed.

(** The count of a period: its entry, or the count of the period before. *)
Lemma getCount_step key p db :
  getCount key p db =
  if entry key p db =? 0 then if p <=? 1 then 0 else getCount key (p - 1) db
  else Word.Uint64 (entry key p db).
Proof.
  unfold getCount at 1. destruct (Z.to_nat p) as [|n] eqn:E; cbn [get_count];
    (destruct (entry key p db =? 0) eqn:Ee; unfold entry in Ee; rewrite Ee; [|done]);
    destruct (Z.leb_spec p 1); try done; try lia. unfold getCount. apply get_count_same; lia.
Qed.

Lemma getCount_ext key p db db' :
  (forall q, q <= p -> entry key q db' = entry key q db) -> getCount key p db' = getCount key p db.
Proof.
  unfold getCount. generalize (Z.to_nat p) as n. intros n. revert p.
  induction n as [|n IH]; intros p H; cbn [get_count]; pose proof (H p ltac:(lia)) as E; unfold entry in E;
    rewrite E; destruct (_ =? 0); try done; destruct (p <=? 1); try done.
  apply IH. intros q Hq. apply H. lia.
Qed.

Lemma getCount_carried key p q db :
  1 <= p <= q -> (forall r, p < r <= q -> entry key r db = 0) -> getCount key q db = getCount key p db.
Proof.
  intros [Hp Hq]. pattern q. apply Zlt_lower_bound_ind with (z := p); [|exact Hq].
  intros r IH Hr H. destruct (decide (r = p)) as [->|N]; [done|].
  rewrite getCount_step, H by lia. cbn. destruct (Z.leb_spec r 1); [lia|].
  apply IH; [lia..|]. intros x Hx. apply H. lia.
Qed.

(** the counts of periods.  Adding [n] to the count of period [p] makes it
    the sum, but a sum of zero is stored as no entry, so the count reads as the
    one of the period before; earlier periods keep their counts, and later ones
    without an entry of their own take over the new one. *)
Theorem period_counts key p n db :
  storage_ok db -> 1 <= p < 2 ^ 64 -> is_u64 (safeAdd (getCount key p db) n) ->
  let c := safeAdd (getCount key p db) n in
  let db' := updateCount key p c db in
  getCount key p db' = (if c =? 0 then if p <=? 1 then 0 else getCount key (p - 1) db else c) /\
  (forall q, 0 <= q < p -> getCount key q db' = getCount key q db) /\
  (forall q, p <= q < 2 ^ 64 -> (forall r, p < r <= q -> entry key r db = 0) ->
             getCount key q db' = getCount key p db').
Proof.
  intros O Hp Hc c db'.
  assert (forall q, is_u64 q -> q <> p -> entry key q db' = entry key q db) as Ne.
  { intros q Hq N. unfold db'. rewrite entry_update by (done || lia). by rewrite decide_False. }
  assert (forall q, 0 <= q < p -> getCount key q db' = getCount key q db) as Hlow.
  { intros q Hq. generalize (proj2 Hq). pattern q. apply Zlt_lower_bound_ind with (z := 0); [|lia].
    intros r IH Hr Hrp. rewrite (getCount_step key r db'), (getCount_step key r db).
    rewrite (Ne r) by lia. destruct (_ =? 0); [|done]. destruct (Z.leb_spec r 1); [done|].
    apply IH; lia. }
  split_and!.
  - rewrite getCount_step. unfold db' at 1 3. rewrite entry_update, decide_True by (done || lia).
    destruct (c =? 0); [|by apply u64_small]. destruct (Z.leb_spec p 1); [done|]. apply Hlow. lia.
  - exact Hlow.
  - intros q Hq He. apply getCount_carried; [lia|]. intros r Hr. rewrite Ne by lia. by apply He.
Qed.

End Periods.

End Sets.
