(* ===== verification/Signing.v ===== *)
(** Signatures and who made them ([src/core/types/sign_helper.go], [vote.go],
    [rwit.go], [src/crypto/signature.go], [crypto.go]). *)
From stdpp Require Import gmap list.
From S2P Require Import Prelude Bech32 Address EvmWord EvmState EvmArith StateDb Bloom ScStore.

Import Db Address Store.

Module Signing.

(** Package [btcec] and the hash functions: keys, compact signatures and the
    keys they belong to. *)
Class Btcec := {
  PrivateKey : Type;
  PublicKey : Type;
  PubKey : PrivateKey -> PublicKey;
  SignCompact : PrivateKey -> bytes -> option bytes;
  RecoverCompact : bytes -> bytes -> option PublicKey;
  SerializeUncompressed : PublicKey -> bytes;
  SerializeCompressed : PublicKey -> bytes;
  btcec_ParsePubKey : bytes -> option PublicKey;
  Hash160 : bytes -> bytes
}.

Inductive error := ErrInvalidSig | ErrInvalidChainId | ErrRecover | ErrPublicKey | ErrInvalidAddressHash | ErrSign | ErrPanic.

(** What is signed, as the lists handed to [rlp], and the signature. *)
Record SignHelper := mkHelper { GetSignStruct : list rlp_value; GetRSVBySignatureHash : bytes }.

Definition SetSign (sh : SignHelper) (sig : bytes) : SignHelper := mkHelper (GetSignStruct sh) sig.

(** ** [crypto] *)

Definition secp256k1_N : Z := 0xfffffffffffffffffffffffffffffffebaaedce6af48a03bbfd25e8cd0364141.
Definition secp256k1_halfN : Z := secp256k1_N / 2.

Definition ValidateSignatureValues (v r s : Z) (homestead : bool) : bool :=
  if (r <? 1) || (s <? 1) then false
  else if homestead && (s >? secp256k1_halfN) then false
  else (r <? secp256k1_N) && (s <? secp256k1_N) && ((v =? 0) || (v =? 1)).

Section Crypto.
Context {B : Btcec}.
Open Scope result_scope.

Definition Sign (h : bytes) (prv : PrivateKey) : result error bytes :=
  if negb (length h =? 32)%nat then Err ErrSign
  else
    match SignCompact prv h with
    | None => Err ErrSign
    | Some sig => Ok (take 64 (drop 1 sig) ++ [u8 (hd 0 sig - 27)])
    end.

Definition SigToPub (h sig : bytes) : result error PublicKey :=
  match sig !! 64%nat with
  | None => Err ErrPanic
  | Some v =>
      match RecoverCompact (u8 (v + 27) :: take 64 sig) h with None => Err ErrRecover | Some p => Ok p end
  end.
Definition Ecrecover (h sig : bytes) : result error bytes :=
  let? p := SigToPub h sig in Ok (SerializeUncompressed p).

Definition getPublicKeyHash (pubkey : bytes) : result error bytes :=
  let hash160 := Hash160 pubkey in
  if isContractAddressHash hash160 then Err ErrInvalidAddressHash else Ok hash160.
Definition NewAddress (pubkey : bytes) : result error Address :=
  let? h := getPublicKeyHash pubkey in
  let addr := mkAddress h AccountPrefix [] in
  Ok (mkAddress h AccountPrefix (String_ addr)).
Definition ParsePubKeyToAddress (p : PublicKey) : result error Address := NewAddress (SerializeCompressed p).

Definition Pubkey2Address (pubKey : bytes) : result error Address :=
  if (length pubKey =? 0)%nat || negb (hd 0 pubKey =? 4) then Err ErrPublicKey
  else match btcec_ParsePubKey pubKey with None => Err ErrPublicKey | Some p => ParsePubKeyToAddress p end.
End Crypto.

(** ** [DefSigner]: a signature is bound to a chain by its last bytes *)

Definition deriveChainId (v : Z) : Z :=
  if v <? 2 ^ 64 then
    if (v =? 27) || (v =? 28) then 0 else u64 (v - 35) / 2
  else (v - 35) / 2.

Record DefSigner := mkSigner { chainId : Z; chainIdMul : Z }.
Definition NewSigner (id : option Z) : DefSigner :=
  let id := default 0 id in mkSigner id (id * 2).

Definition GetSig (s : DefSigner) (sign : bytes) : result error bytes :=
  if (length sign <? 65)%nat then Err ErrInvalidSig
  else
    let uv := be_value (drop 64 sign) in
    if negb (deriveChainId uv =? chainId s) then Err ErrInvalidChainId
    else
      let ur := be_value (take 32 sign) in
      let us := be_value (take 32 (drop 32 sign)) in
      let v := u8 (u64 (Z.abs (uv - chainIdMul s)) - 35) in
      if negb (ValidateSignatureValues v ur us true) then Err ErrInvalidSig
      else Ok (take 64 sign ++ [v]).

Section Signer.
Context {B : Btcec} {C : ScCodec}.
Open Scope result_scope.

Definition Hash_ (s : DefSigner) (sh : SignHelper) : Hash :=
  SafeHash256 (GetSignStruct sh ++ [uint (chainId s); uint 0]).

Definition SignContent (s : DefSigner) (sh : SignHelper) : result error bytes := GetSig s (GetRSVBySignatureHash sh).

Definition PublicKey_ (s : DefSigner) (sh : SignHelper) : result error bytes :=
  let? sig := SignContent s sh in
  let? pub := Ecrecover (hash_bytes (Hash_ s sh)) sig in
  if (length pub =? 0)%nat || negb (hd 0 pub =? 4) then Err ErrPublicKey else Ok pub.

(** [sender], and [Sender] of what was not asked before. *)
Definition Sender (s : DefSigner) (sh : SignHelper) : result error Address :=
  let? pubkey := PublicKey_ s sh in
  let? addr := Pubkey2Address pubkey in
  if IsContract addr then Err ErrInvalidAddressHash else Ok addr.

(** A signature of another size is a panic. *)
Definition WithSignature (s : DefSigner) (sh : SignHelper) (sig : bytes) : result error SignHelper :=
  if negb (length sig =? 65)%nat then Err ErrPanic
  else if negb (chainId s =? 0) then
    let v := u8 (default 0 (sig !! 64%nat) + 35) + chainIdMul s in
    Ok (SetSign sh (take 64 sig ++ Word.Bytes v))
  else Ok (SetSign sh sig).

Definition SignBySignHelper (sh : SignHelper) (s : DefSigner) (prv : PrivateKey) : result error SignHelper :=
  let? sig := Sign (hash_bytes (Hash_ s sh)) prv in
  WithSignature s sh sig.
End Signer.

(** ** What witnesses sign *)

Record UnitID := mkUnitID { ChainID : Address; Height : Z; id_Hash : Hash }.
Definition IsEmpty (id : UnitID) : bool := (Height id =? 0) || Empty (ChainID id) || (id_Hash id =? 0).
Definition unit_id_value (id : UnitID) : rlp_value :=
  Lst [addr_value (ChainID id); uint (Height id); hash_value (id_Hash id)].

Record WitenssVote := mkVote { Extra : bytes; vote_Sign : bytes }.
(** A vote as a message on the unit with hash [uhash]. *)
Definition ToVote (uhash : Hash) (v : WitenssVote) : SignHelper :=
  mkHelper (if (length (Extra v) =? 0)%nat then [hash_value uhash] else [hash_value uhash; Str (Extra v)]) (vote_Sign v).

Record ChooseVote := mkChoose { cv_Chain : Address; cv_ApplyNumber : Z; cv_ApplyUHash : Hash; cv_Choose : UnitID; cv_Sign : bytes }.
Definition choose_helper (c : ChooseVote) : SignHelper :=
  mkHelper [addr_value (cv_Chain c); uint (cv_ApplyNumber c); hash_value (cv_ApplyUHash c); unit_id_value (cv_Choose c)] (cv_Sign c).

(** ** Who signs is who is found *)

(** What [btcec] documents: the first byte of a compact signature counts from
    27, its values are in range and S in the lower half, and they lead back to
    the key; keys survive serialization, whose first byte is 4. *)
Class BtcecOk (B : Btcec) := {
  SignCompact_ok k h sig :
    SignCompact k h = Some sig ->
    length sig = 65%nat /\ Forall (fun b => is_byte b) sig /\ 27 <= hd 0 sig < 31 /\
    1 <= be_value (take 32 (drop 1 sig)) < secp256k1_N /\
    1 <= be_value (take 32 (drop 33 sig)) <= secp256k1_halfN /\
    RecoverCompact sig h = Some (PubKey k);
  SerializeUncompressed_ok p : hd 0 (SerializeUncompressed p) = 4 /\ (0 < length (SerializeUncompressed p))%nat;
  btcec_ParsePubKey_ok p : btcec_ParsePubKey (SerializeUncompressed p) = Some p
}.

Lemma deriveChainId_of id v : 0 < id < 2 ^ 256 -> 0 <= v < 2 -> deriveChainId (v + 35 + id * 2) = id.
Proof.
  intros Hid Hv. unfold deriveChainId. destruct (Z.ltb_spec (v + 35 + id * 2) (2 ^ 64)) as [H|H].
  - rewrite (proj2 (Z.eqb_neq _ 27)), (proj2 (Z.eqb_neq _ 28)) by lia. cbn [orb].
    rewrite u64_small by lia. replace (v + 35 + id * 2 - 35) with (v + id * 2) by lia.
    rewrite Z.div_add by lia. rewrite (Z.div_small v 2) by lia. lia.
  - replace (v + 35 + id * 2 - 35) with (v + id * 2) by lia. rewrite Z.div_add by lia. rewrite (Z.div_small v 2) by lia. lia.
Qed.

Section Recover.
Context {B : Btcec} {BO : BtcecOk B} {C : ScCodec}.

Lemma second_half (sig : bytes) : take 32 (drop 32 (take 64 (drop 1 sig))) = take 32 (drop 33 sig).
Proof.
  change 64%nat with (32 + 32)%nat. by rewrite <- take_drop_commute, take_take, drop_drop.
Qed.

(** The signature [Sign] makes, as its two parts. *)
Lemma Sign_parts k (h : Hash) sig :
  SignCompact k (hash_bytes h) = Some sig ->
  exists rs v, Sign (hash_bytes h) k = Ok (rs ++ [v]) /\ v = hd 0 sig - 27 /\ 0 <= v < 4 /\
    length rs = 64%nat /\ sig = (v + 27) :: rs /\
    1 <= be_value (take 32 rs) < secp256k1_N /\ 1 <= be_value (take 32 (drop 32 rs)) <= secp256k1_halfN.
Proof.
  intros E. destruct (SignCompact_ok _ _ _ E) as (L & F & V & R & S & _).
  destruct sig as [|x rs]; [done|]. cbn in L. assert (length rs = 64%nat) as L' by lia. cbn [hd] in *.
  exists rs, (x - 27). unfold Sign, hash_bytes in *. rewrite length_be_bytes, E. cbn [Nat.eqb negb hd]. change (drop 1 (x :: rs)) with rs.
  rewrite (take_ge rs 64) by lia. rewrite u8_small by (apply list.Forall_cons in F as [Fx _]; lia).
  change (drop 1 (x :: rs)) with rs in R; change (drop 33 (x :: rs)) with (drop 32 rs) in S. split_and!; try done; try lia. f_equal; lia.
Qed.

Lemma values_in_range v r s : 0 <= v < 2 -> 1 <= r < secp256k1_N -> 1 <= s <= secp256k1_halfN -> ValidateSignatureValues v r s true = true.
Proof.
  intros V R S. unfold ValidateSignatureValues. rewrite Z.gtb_ltb.
  assert (secp256k1_halfN < secp256k1_N) by done. repeat zcase; try lia; cbn; try lia.
Qed.

(** The bytes [WithSignature] appends read back as a number. *)
Lemma signature_v x : 0 <= x < 2 ^ 264 -> be_value (Word.Bytes x) = x.
Proof. intros H. by apply (Bloom.Bytes_spec x 33). Qed.

Lemma GetSig_signed id rs v :
  0 < id < 2 ^ 256 -> 0 <= v < 2 -> length rs = 64%nat ->
  1 <= be_value (take 32 rs) < secp256k1_N -> 1 <= be_value (take 32 (drop 32 rs)) <= secp256k1_halfN ->
  forall id', GetSig (NewSigner (Some id')) (rs ++ Word.Bytes (v + 35 + id * 2)) =
    if id' =? id then Ok (rs ++ [v]) else Err ErrInvalidChainId.
Proof.
  intros Hid Hv L R S id'. unfold GetSig, NewSigner. cbn [from_option Datatypes.id chainId chainIdMul].
  pose proof (signature_v (v + 35 + id * 2) ltac:(lia)) as E.
  assert (Word.Bytes (v + 35 + id * 2) <> []) as N by (intros N; rewrite N in E; cbn in E; lia).
  rewrite length_app, L. destruct (Word.Bytes (v + 35 + id * 2)) as [|b bs] eqn:Eb; [done|].
  rewrite (proj2 (Nat.ltb_ge _ _)) by (cbn; lia).
  rewrite drop_app_length' by done. rewrite E, deriveChainId_of by done.
  destruct (Z.eqb_spec id id') as [<-|N']; [|cbn; by rewrite (proj2 (Z.eqb_neq _ _)) by done].
  rewrite Z.eqb_refl. cbn [negb]. rewrite (take_app_le rs _ 32), (drop_app_le rs _ 32), (take_app_le (drop 32 rs) _ 32) by (rewrite ?length_drop; lia).
  rewrite (take_app_length' rs _ 64) by done.
  assert (u8 (u64 (Z.abs (v + 35 + id * 2 - id * 2)) - 35) = v) as ->.
  { rewrite Z.abs_eq, u64_small by lia. rewrite u8_small; lia. }
  by rewrite values_in_range.
Qed.

(** A signature says nothing on chain 0, whose signatures [WithSignature] leaves as they are. *)
Lemma GetSig_unsigned rs v : 0 <= v < 4 -> length rs = 64%nat -> GetSig (NewSigner (Some 0)) (rs ++ [v]) = Err ErrInvalidChainId.
Proof.
  intros Hv L. unfold GetSig, NewSigner. cbn [from_option Datatypes.id chainId].
  rewrite length_app, L. cbn [length Nat.add Nat.ltb Nat.leb]. rewrite drop_app_length' by done.
  cbn [be_value foldl]. replace (0 * 256 + v) with v by lia. unfold deriveChainId.
  rewrite (proj2 (Z.ltb_lt _ _)) by lia. rewrite (proj2 (Z.eqb_neq v 27)), (proj2 (Z.eqb_neq v 28)) by lia. cbn [orb].
  assert (v = 0 \/ v = 1 \/ v = 2 \/ v = 3) as [-> | [-> | [-> | ->]]] by lia; reflexivity.
Qed.

Lemma not_contract p a : ParsePubKeyToAddress p = Ok a -> IsContract a = false.
Proof.
  unfold ParsePubKeyToAddress, NewAddress, getPublicKeyHash. destruct (isContractAddressHash _); [done|].
  cbn [result_bind]. intros [= <-]. reflexivity.
Qed.

Lemma Sender_recovers s sh sig k a :
  GetSig s (GetRSVBySignatureHash sh) = Ok (drop 1 sig ++ [hd 0 sig - 27]) ->
  SignCompact k (hash_bytes (Hash_ s sh)) = Some sig -> ParsePubKeyToAddress (PubKey k) = Ok a -> Sender s sh = Ok a.
Proof.
  intros G E A. destruct (SignCompact_ok _ _ _ E) as (L & F & V & _ & _ & R).
  destruct sig as [|x rs]; [done|]. cbn in L. cbn [drop hd] in *. change (drop 0 rs) with rs in G.
  unfold Sender, PublicKey_, SignContent. rewrite G. cbn [result_bind]. unfold Ecrecover, SigToPub.
  rewrite lookup_app_r by lia. replace (64 - length rs)%nat with 0%nat by lia. cbn [lookup list_lookup].
  rewrite take_app_length' by lia. replace (x - 27 + 27) with x by lia. rewrite u8_small by (apply list.Forall_cons in F as [Fx _]; lia).
  rewrite R. cbn [result_bind]. destruct (SerializeUncompressed_ok (PubKey k)) as [H4 HL].
  unfold Pubkey2Address. rewrite (proj2 (Nat.eqb_neq (length _) 0)), H4 by lia. cbn [Z.eqb Pos.eqb negb orb result_bind].
  rewrite (proj2 (Nat.eqb_neq (length _) 0)), H4 by lia. cbn [Z.eqb Pos.eqb negb orb result_bind].
  rewrite btcec_ParsePubKey_ok, A. cbn [result_bind]. by rewrite (not_contract _ _ A).
Qed.

(** C28: Whoever signs with [SignBySignHelper] is the one [Sender] finds, on the
    chain signed for and on no other; a signature made for chain 0 is accepted
    nowhere on chain 0. *)
Theorem SignBySignHelper_Sender id sh k sig a :
  0 <= id < 2 ^ 256 -> SignCompact k (hash_bytes (Hash_ (NewSigner (Some id)) sh)) = Some sig -> hd 0 sig < 29 ->
  ParsePubKeyToAddress (PubKey k) = Ok a ->
  exists signed, SignBySignHelper sh (NewSigner (Some id)) k = Ok signed /\
    GetSignStruct signed = GetSignStruct sh /\
    Sender (NewSigner (Some id)) signed = (if id =? 0 then Err ErrInvalidChainId else Ok a) /\
    (0 < id -> forall id', id' <> id -> Sender (NewSigner (Some id')) signed = Err ErrInvalidChainId).
Proof.
  intros Hid E Hv A. destruct (Sign_parts _ _ _ E) as (rs & v & ES & Ev & Hv4 & L & Esig & R & S).
  unfold SignBySignHelper. rewrite ES. cbn [result_bind]. unfold WithSignature.
  rewrite length_app, L. cbn [Nat.add length Nat.eqb negb].
  destruct (Z.eqb_spec id 0) as [->|N].
  - cbn [NewSigner from_option Datatypes.id chainId Z.eqb negb]. eexists. split_and!; [done..| |lia].
    unfold Sender, PublicKey_, SignContent. cbn [SetSign GetRSVBySignatureHash]. by rewrite GetSig_unsigned.
  - cbn [NewSigner from_option Datatypes.id chainId chainIdMul]. rewrite (proj2 (Z.eqb_neq _ _)) by done. cbn [negb].
    rewrite lookup_app_r by lia. replace (64 - length rs)%nat with 0%nat by lia. cbn [lookup list_lookup from_option Datatypes.id].
    rewrite take_app_length' by done. rewrite u8_small by lia.
    pose proof (GetSig_signed id rs v ltac:(lia) ltac:(lia) L R S) as G.
    eexists. split_and!; [done..| |].
    + apply (Sender_recovers _ _ sig k); [|exact E|done]. rewrite Esig. cbn [SetSign GetRSVBySignatureHash drop hd].
      etrans; [apply G|]. rewrite Z.eqb_refl. do 3 f_equal. lia.
    + intros _ id' N'. unfold Sender, PublicKey_, SignContent. cbn [SetSign GetRSVBySignatureHash].
      etrans; [|reflexivity]. rewrite G. by rewrite (proj2 (Z.eqb_neq _ _)).
Qed.
End Recover.

End Signing.
