(* ===== verification/ScGroup.v ===== *)
(** Witness groups ([src/core/sc/witness_group.go], with the records of chains
    and witnesses it writes, [normal_witenss.go], and the events of
    [sc_common.go]). *)
From stdpp Require Import gmap list.
From S2P Require Import Prelude Bech32 Address EvmWord EvmState StateDb GoSort ScStore.

Import Db Store Address.

Module Group.

(** ** Errors and computations *)

(** What makes a proof of dishonesty worthless. *)
Inductive proof_error :=
| TooFewUnits | NoChain | NoNumber | TooFewVotes | TooManyVotes | OtherChain | OtherNumber | NoSCHash | SameUnit
| NoUnitState | BadSignature | RepeatVote | NotWitness | NotNormalWitness | NothingProved.

(** What the functions of the contract return as an error, a panic, and the
    end of a loop's fuel, which no caller meets. *)
Inductive error :=
| ErrMaxWitnessLimit
| ErrNoWitnessGroupUse
| ErrNotFoundWitness
| ErrNotFoundChain
| ErrNotChangeGroup
| ErrMissingInSet
| ErrSystemChain
| ErrArbitration
| ErrEmptyGroups
| ErrPack
| ErrOutOfGas
| ErrNonPayable
| ErrNoWintessInfo
| ErrChainMissingWitness
| ErrNotFindWitness
| ErrNotCouncil
| ErrOnlyOneCouncil
| ErrIsNormalWitness
| ErrIsCouncil
| ErrFoundationAccount
| ErrPublicAddress
| ErrEmptyPublicKey
| ErrOnlyYourself
| ErrStatusAbnormal
| ErrUnknownStatus
| ErrNotSystemWitness
| ErrStateNotFind
| ErrBigData
| ErrRepeatHeartbeat
| ErrNotLeader
| ErrNotFirstTx
| ErrInvalidStatus
| ErrNotMember
| ErrInvalidCaller
| ErrEmptyList
| ErrTooMany
| ErrNotTimeout
| ErrMainSystemWitness
| ErrUnknownRole
| ErrNoOneRemoved
| ErrInvalidTarget
| ErrAlreadyHasWitness
| ErrTooEarly
| ErrUnderway
| ErrSpecialUnit
| ErrContractExists
| ErrYourself
| ErrNoContract
| ErrEnoughWitnesses
| ErrOtherAccount
| ErrInput
| ErrNoConfig
| ErrNotExistProposal
| ErrNotCreateProposal
| ErrProposalStatus (status : Z)
| ErrProposalType
| ErrEmptyMemberList
| ErrNotCampaign
| ErrNotApplyCampaign
| ErrNotFindVote
| ErrCanNotVote
| ErrAlreadyVoted
| ErrNoCoin
| ErrUnitNotFound
| ErrNotRecruiting
| ErrNotEnoughMargin
| ErrMarginOverflow
| ErrCouncilQuit
| ErrCouncilCeiling
| ErrNotExist
| ErrConfigSame
| ErrConfigValue
| ErrEmptyReport
| ErrNotReporter
| ErrProof (why : proof_error)
| ErrInvalidChoose
| ErrMissingArbitration
| ErrOtherHeight
| ErrArbitrationEnd
| ErrVotesInsufficient
| ErrNotUnderway
| ErrStatusNumber
| ErrSigner
| ErrNotMainWitness
| ErrEmptyGroup
| ErrPanic
| NoFuel.

(** A function that reads and writes the state: on an error the writes so far
    stay, the caller reverts them. *)
Definition SC (DB A : Type) : Type := DB -> result error A * DB.

Definition ret {DB A} (a : A) : SC DB A := fun db => (Ok a, db).
Definition fail {DB A} (e : error) : SC DB A := fun db => (Err e, db).
Definition bind {DB A B} (m : SC DB A) (k : A -> SC DB B) : SC DB B :=
  fun db => match m db with (Ok a, db) => k a db | (Err e, db) => (Err e, db) end.
Definition gets {DB A} (f : DB -> A) : SC DB A := fun db => (Ok (f db), db).
Definition puts {DB} (f : DB -> DB) : SC DB unit := fun db => (Ok tt, f db).

Declare Scope sc_scope.
Delimit Scope sc_scope with sc.
Notation "'let!' x ':=' m 'in' k" := (bind m (fun x => k))
  (at level 10, x name, m at level 100, k at level 200) : sc_scope.
Notation "m ';;;' k" := (bind m (fun _ => k)) (at level 60, right associativity) : sc_scope.

(** ** Events *)

(** The arguments that package [abi] is given to pack. *)
Inductive abi_value :=
| AbiAddress (a : Address)
| AbiUint8 (n : Z)
| AbiUint16 (n : Z)
| AbiUint64 (n : Z)
| AbiBytes1 (b : Z)
| AbiHash (h : Hash)
| AbiString (s : bytes)
| AbiUint256 (n : Z).

Inductive event :=
| WitnessGroupChangedEvent | ChainStatusChangedEvent | UserWitnessChangeEvent | WitnessChangeEvent
| ProposalChangeEvent | ProposalVoteEvent | ChainArbitrationEvent | ChainArbitrationEndEvent.

(** Do the arguments fit the event's inputs in [abiObj]? *)
Definition fits (e : event) (args : list abi_value) : bool :=
  match e, args with
  | WitnessGroupChangedEvent, [AbiAddress _; AbiUint16 _; AbiUint16 _] => true
  | UserWitnessChangeEvent, [AbiAddress _; AbiUint16 _; AbiUint16 _] => true
  | ChainStatusChangedEvent, [AbiAddress _; AbiUint8 _; AbiUint16 _; AbiBytes1 _] => true
  | WitnessChangeEvent, [AbiAddress _; AbiUint8 _; AbiUint64 _; AbiUint16 _; AbiUint8 _] => true
  | ProposalChangeEvent, [AbiHash _; AbiUint8 _; AbiString _; AbiUint64 _; AbiUint8 _; AbiUint64 _; AbiUint64 _; AbiUint64 _] => true
  | ProposalVoteEvent, [AbiHash _; AbiAddress _; AbiUint8 _; AbiUint256 _] => true
  | ChainArbitrationEvent, [AbiAddress _; AbiUint64 _] => true
  | ChainArbitrationEndEvent, [AbiAddress _; AbiUint64 _; AbiHash _] => true
  | _, _ => false
  end.

(** Package [abi], and the log of the state. *)
Class Events (DB : Type) := {
  Pack : event -> list abi_value -> option bytes;
  Id : event -> Hash;
  AddLog : Hash -> bytes -> DB -> DB
}.

(** Arguments that fit are packed; a log entry is no slot. *)
Class EventsOk (DB : Type) (ST : Storage DB) (SO : StorageOk DB ST) (EV : Events DB) := {
  Pack_fits e args : fits e args = true -> Pack e args <> None;
  AddLog_ok t d db : storage_ok db -> storage_ok (AddLog t d db);
  load_AddLog t d db k : storage_ok db -> load k (AddLog t d db) = load k db
}.

Section Group.
Context {DB : Type} {ST : Storage DB} {C : ScCodec} {EV : Events DB} {P : Params}.
Open Scope sc_scope.

Implicit Types (db : DB) (address witness : Address).

Definition emit (e : event) (args : list abi_value) : SC DB unit :=
  match Pack e args with
  | None => fail ErrPack
  | Some data => puts (AddLog (Id e) data)
  end.

Definition uint16 (n : Z) : Z := n mod 2 ^ 16.
Definition AddWitnessGroupChangedEvent witness (oldGp newGp : Z) : SC DB unit :=
  emit WitnessGroupChangedEvent [AbiAddress witness; AbiUint16 (uint16 oldGp); AbiUint16 (uint16 newGp)].
Definition AddUserWitnessChangeEventLog (who : Address) (oldGroup newGroup : Z) : SC DB unit :=
  emit UserWitnessChangeEvent [AbiAddress who; AbiUint16 (uint16 oldGroup); AbiUint16 (uint16 newGroup)].
Definition AddChainStatusChangedLog (chain : Address) (status gpIndex : Z) (first : bool) : SC DB unit :=
  emit ChainStatusChangedEvent
    [AbiAddress chain; AbiUint8 (status mod 2 ^ 8); AbiUint16 gpIndex; AbiBytes1 (if first then 1 else 0)].

(** ** The records of a chain and of a witness *)

Definition ChainStatusNormal : Z := 1.
Definition ChainStatusWitnessReplaceUnderway : Z := 2.
Definition ChainStatusNotWitness : Z := 3.
Definition ChainStatusInsufficient : Z := 4.

Definition chain_item address : SubItems := [Str (str "chaininfo"); addr_value address].
Definition witness_item witness : SubItems := [Str (str "cw_"); addr_value witness].

(** The error of the event is dropped. *)
Definition WriteChainStatus address (status sysNumber groupIndex : Z) : SC DB unit :=
  let item := chain_item address in
  puts (SaveSub item (Str (str "apply_status")) (VByte status));;;
  puts (SaveSub item (Str (str "apply_status_number")) (VUint sysNumber));;;
  let! old := gets (GetSub item (Str (str "group_index_old"))) in
  let first := old =? 0 in
  fun db => (Ok tt, snd (AddChainStatusChangedLog address status (uint16 groupIndex) first db)).

Definition WriteChainInfo address (sysNumber groupIndex chainNumber : Z) : SC DB unit :=
  let item := chain_item address in
  let! oldNumber := gets (GetSub item (Str (str "apply_number"))) in
  let! oldGroup := gets (GetSub item (Str (str "group_index"))) in
  puts (SaveSub item (Str (str "apply_number")) (VUint sysNumber));;;
  puts (SaveSub item (Str (str "apply_chain_number")) (VUint chainNumber));;;
  puts (SaveSub item (Str (str "group_index")) (VUint groupIndex));;;
  puts (SaveSub item (Str (str "apply_number_old")) (VHash oldNumber));;;
  puts (SaveSub item (Str (str "group_index_old")) (VHash oldGroup));;;
  WriteChainStatus address ChainStatusNormal sysNumber groupIndex.

Definition updateWitnessGroupIndex witness (gp : Z) (db : DB) : DB :=
  SaveSub (witness_item witness) (Str (str "group_index")) (VUint gp) db.

(** ** Reading *)

Definition DefSysGroupIndex : Z := 0.
Definition ConfigParamsSCWitnessCap : Z := 55.
Definition ConfigParamsUCWitness : Z := 11.
Definition ConfigParamsUCMinVotings : Z := ConfigParamsUCWitness * 2 / 3 + 1.
Definition ConfigParamsSCWitness : Z := 11.

Definition PrefixWitnessGroupCount : Hash := BytesToHash (str "witness_group_count").
Definition PrefixWitnessGroupInfo : rlp_value := Str (str "witness_group_info").

Definition GetWitnessSet (group : Z) : StateSet := [PrefixWitnessGroupInfo; uint group; Str (str "_witness_")].
Definition GetChainsSet (group : Z) : StateSet := [PrefixWitnessGroupInfo; uint group; Str (str "_chains_")].

Definition GetWitnessGroupCount (db : DB) : Z :=
  let count := load PrefixWitnessGroupCount db in
  if count =? 0 then 1 else Word.Uint64 count.
Definition WriteWitnessGroupCount (count : Z) (db : DB) : DB :=
  save PrefixWitnessGroupCount (uint2Hash count) db.

Definition hash_address (h : Hash) : Address := BytesToAddress (hash_bytes h).
Definition GetWitnessListAt (group : Z) (db : DB) : list Address :=
  map hash_address (elements (GetWitnessSet group) db).
Definition GetWitnessCountAt (group : Z) (db : DB) : Z := Len (GetWitnessSet group) db.

Definition add_to (s : StateSet) (a : Address) (db : DB) : DB := snd (Add s (VAddress a) db).

(** ** Joining *)

Definition ApplyWitnessGroupOfSys address : SC DB Z :=
  let witnessSet := GetWitnessSet DefSysGroupIndex in
  let! l := gets (Len witnessSet) in
  if u64 (l + 1) >? ConfigParamsSCWitnessCap then fail ErrMaxWitnessLimit
  else
    let! count := gets GetWitnessGroupCount in
    (if (l =? 0) && (count =? 0) then
       puts (WriteWitnessGroupCount 1);;; puts (add_to (GetChainsSet DefSysGroupIndex) SCAccount)
     else ret tt);;;
    puts (add_to witnessSet address);;;
    ret DefSysGroupIndex.

Record ChooseItem := mkItem { GroupIndex : Z; Priority : Z }.

(** The groups in turn: one that lacks a single witness is taken at once; the
    other open ones become candidates. *)
Fixpoint find_open (n : nat) (gpIndex count : Z) (l : list ChooseItem) (db : DB) : Z + list ChooseItem :=
  match n with
  | O => inr l
  | S n =>
      if gpIndex <? count then
        let c := GetWitnessCountAt gpIndex db in
        if (gpIndex =? DefSysGroupIndex) || (c =? ConfigParamsUCWitness) then find_open n (gpIndex + 1) count l db
        else if c =? ConfigParamsUCMinVotings - 1 then inl gpIndex
        else
          let p := if c <? ConfigParamsUCMinVotings then c
                   else if c >? ConfigParamsUCMinVotings then u64 (ConfigParamsUCWitness - c) else 0 in
          find_open n (gpIndex + 1) count (l ++ [mkItem gpIndex p]) db
      else inr l
  end.

Definition ApplyWitnessGroupOfUser address : SC DB Z :=
  let! count := gets GetWitnessGroupCount in
  let! found := gets (find_open (Z.to_nat count) 1 count []) in
  match found with
  | inl gpIndex => puts (add_to (GetWitnessSet gpIndex) address);;; ret gpIndex
  | inr l =>
      match GoSort.SliceStable (fun x y => Priority x >? Priority y) l with
      | x :: _ => puts (add_to (GetWitnessSet (GroupIndex x)) address);;; ret (GroupIndex x)
      | [] =>
          let count := if count =? 0 then 1 else count in
          puts (WriteWitnessGroupCount (u64 (count + 1)));;;
          puts (add_to (GetWitnessSet count) address);;;
          ret count
      end
  end.

(** ** Leaving *)

Definition removeWtinessGroup witness (oldGp newGp : Z) : SC DB unit :=
  if oldGp =? newGp then fail ErrNotChangeGroup
  else
    let! found := gets (fun db => Exist (GetWitnessSet oldGp) db (VAddress witness)) in
    match found with
    | None => fail ErrMissingInSet
    | Some index =>
        puts (fun db => snd (RemoveOrder (GetWitnessSet oldGp) index db));;;
        puts (add_to (GetWitnessSet newGp) witness);;;
        puts (updateWitnessGroupIndex witness newGp);;;
        AddWitnessGroupChangedEvent witness oldGp newGp
    end.

(** The witnesses of one group move to another until no more are needed; the
    number still needed comes back. *)
Fixpoint move_up (l : list Address) (gpIndex removedGp need : Z) : SC DB Z :=
  match l with
  | [] => ret need
  | w :: l =>
      removeWtinessGroup w gpIndex removedGp;;;
      let need := u64 (need - 1) in
      if need =? 0 then ret need else move_up l gpIndex removedGp need
  end.

(** The groups below the minimum fill the group up. *)
Fixpoint refill (n : nat) (gpIndex removedGp need : Z) : SC DB unit :=
  match n with
  | O => ret tt
  | S n =>
      let! count := gets GetWitnessGroupCount in
      if gpIndex <? count then
        if gpIndex =? removedGp then refill n (gpIndex + 1) removedGp need
        else
          let! c := gets (GetWitnessCountAt gpIndex) in
          if c >=? ConfigParamsUCMinVotings then refill n (gpIndex + 1) removedGp need
          else
            let! l := gets (GetWitnessListAt gpIndex) in
            let! need := move_up l gpIndex removedGp need in
            if need =? 0 then ret tt else refill n (gpIndex + 1) removedGp need
      else ret tt
  end.

Record choseGroup := mkGroup { index : Z; chainCount : Z; rate : Z; witnessCount : Z }.

Fixpoint find_lacking (n : nat) (i removedGp : Z) (db : DB) : list choseGroup :=
  match n with
  | O => []
  | S n =>
      if i <? GetWitnessGroupCount db then
        let c := GetWitnessCountAt i db in
        if (i =? removedGp) || (c =? ConfigParamsUCWitness) || (c =? 0) then find_lacking n (i + 1) removedGp db
        else mkGroup i 0 0 c :: find_lacking n (i + 1) removedGp db
      else []
  end.

(** [lessNeed] witnesses move; [None] when none is left. *)
Fixpoint give (lessNeed : nat) (l : list Address) (removedGp gp : Z) : SC DB (option (list Address)) :=
  match lessNeed with
  | O => ret (Some l)
  | S n =>
      match l with
      | [] => fail ErrPanic
      | witness :: rest =>
          removeWtinessGroup witness removedGp gp;;;
          if bool_decide (rest = []) then ret None else give n rest removedGp gp
      end
  end.

(** The loops over the candidates, at index [i] of round [times]. *)
Fixpoint distribute (fuel : nat) (times : Z) (i : nat) (cache : list choseGroup) (l : list Address)
    (removedGp : Z) : SC DB unit :=
  match fuel with
  | O => fail NoFuel
  | S fuel =>
      match cache !! i with
      | None =>
          if bool_decide (cache = []) then ret tt else distribute fuel (times + 1) 0 cache l removedGp
      | Some gp =>
          if bool_decide (l = []) then ret tt
          else
            let lessNeed :=
              if times >? 1 then 1
              else if ConfigParamsUCMinVotings <? witnessCount gp then 1
              else ConfigParamsUCMinVotings - witnessCount gp in
            if lessNeed =? 0 then distribute fuel times (i + 1) cache l removedGp
            else
              let! left := give (Z.to_nat lessNeed) l removedGp (index gp) in
              match left with
              | None => ret tt
              | Some l =>
                  let c := u64 (witnessCount gp + lessNeed) in
                  let gp := mkGroup (index gp) (chainCount gp) (rate gp) c in
                  let cache := <[i := gp]> cache in
                  if c =? ConfigParamsUCWitness then
                    if (length cache =? 1)%nat then ret tt
                    else
                      match cache !! (length cache - 1)%nat with
                      | Some y => distribute fuel times (i + 1) (take (length cache - 1) (<[i := y]> cache)) l removedGp
                      | None => fail ErrPanic
                      end
                  else distribute fuel times (i + 1) cache l removedGp
              end
      end
  end.

(** The function that [fixWitnessGroup] sorts by; its last line compares a
    group with itself. *)
Definition fix_less (curr : Z) (x y : choseGroup) : bool :=
  if u64 (witnessCount x + curr) =? ConfigParamsUCMinVotings then true
  else witnessCount x <? witnessCount x.

Definition fixWitnessGroup (removedGp : Z) : SC DB unit :=
  if removedGp =? DefSysGroupIndex then ret tt
  else
    let! curr := gets (GetWitnessCountAt removedGp) in
    if curr =? 0 then ret tt
    else
      let! count := gets GetWitnessGroupCount in
      if curr >=? ConfigParamsUCMinVotings then
        refill (Z.to_nat count) 1 removedGp (u64 (ConfigParamsUCWitness - curr))
      else
        let! l := gets (GetWitnessListAt removedGp) in
        let! cache := gets (find_lacking (Z.to_nat count) 1 removedGp) in
        let cache := GoSort.SliceStable (fix_less curr) cache in
        (* every round but the first moves a witness at every index *)
        distribute (2 * length l + length cache + 2) 1 0 cache l removedGp.

Definition CancelWitnessFromWitnessGroup address (groupIndex : Z) : SC DB unit :=
  let witnessSet := GetWitnessSet groupIndex in
  let! found := gets (fun db => Exist witnessSet db (VAddress address)) in
  match found with
  | None => fail ErrNotFoundWitness
  | Some index => puts (fun db => snd (RemoveOrder witnessSet index db));;; fixWitnessGroup groupIndex
  end.

(** ** Chains *)

Definition CancelChainFromWitnessGroup address (groupIndex : Z) : SC DB unit :=
  let chainsSet := GetChainsSet groupIndex in
  let! found := gets (fun db => Exist chainsSet db (VAddress address)) in
  match found with
  | None => fail ErrNotFoundChain
  | Some index => puts (fun db => snd (Remove chainsSet index db))
  end.

(** The error of the removal is dropped. *)
Definition applyWitnessWithGroup address (number : Z) (oldIndex : option Z) (newIndex chainNumber : Z) : SC DB Z :=
  (match oldIndex with
   | Some old => fun db => (Ok tt, snd (CancelChainFromWitnessGroup address old db))
   | None => ret tt
   end);;;
  puts (add_to (GetChainsSet newIndex) address);;;
  WriteChainInfo address (Word.Uint64 number) newIndex chainNumber;;;
  AddUserWitnessChangeEventLog address (default 0 oldIndex) newIndex;;;
  ret newIndex.

(** [CalcRound] of [params/config.go]. *)
Definition CalcRound (currentNumber : Z) : Z :=
  let round := currentNumber / ConfigParamsSCWitness in
  if currentNumber mod ConfigParamsSCWitness =? 0 then round else round + 1.

Definition arbitration_set (chain : Address) : StateSet := [Str (str "carb_"); addr_value chain; Str (str "_ing")].
(** The smallest number under arbitration, zero if there is none. *)
Definition GetChainArbitrationNumber (chain : Address) (db : DB) : Z :=
  fold_left (fun minNumber value =>
               let number := hash2uint value in
               if (minNumber =? 0) || (number <? minNumber) then number else minNumber)
            (elements (arbitration_set chain) db) 0.

(** [QueryHeartbeatLastRound] for the witness of a user. *)
Definition lastRoundOfUser (addr : Address) (db : DB) : Z :=
  Word.Uint64 (GetSub [Str (str "heartbeat_uc"); addr_value addr] (Str (str "lastTurn")) db).

(** How many of the witnesses sent a heartbeat in the last rounds; counting
    stops when there are enough. *)
Fixpoint count_good (minRound good : Z) (l : list Address) (db : DB) : Z :=
  match l with
  | [] => good
  | w :: l =>
      let good := if lastRoundOfUser w db >=? minRound then good + 1 else good in
      if good >=? ConfigParamsUCMinVotings then good else count_good minRound good l db
  end.
Definition haveGoodHeartbeatOnGroup (gp minRound : Z) : SC DB bool :=
  if gp =? DefSysGroupIndex then fail ErrPanic
  else if minRound =? 0 then ret true
  else
    let! l := gets (GetWitnessListAt gp) in
    let! good := gets (count_good minRound 0 l) in
    ret (good >=? ConfigParamsUCMinVotings).

Definition group_less (x y : choseGroup) : bool :=
  (witnessCount x <? witnessCount y) || (chainCount x >? chainCount y)
  || (rate x <? rate y) || (index x <? index y).
Definition sortWitnessGroup (l : list choseGroup) : list choseGroup := GoSort.SliceStable group_less l.

(** The groups in turn: the first one for the genesis, or an empty one that is
    ready, is taken at once; the others with enough witnesses become candidates. *)
Fixpoint find_group (n : nat) (i count : Z) (oldIndex : option Z) (isG : bool) (minRound : Z)
    (l : list choseGroup) : SC DB (Z + list choseGroup) :=
  match n with
  | O => ret (inr l)
  | S n =>
      if i <? count then
        if (i =? DefSysGroupIndex) || bool_decide (oldIndex = Some i)
        then find_group n (i + 1) count oldIndex isG minRound l
        else if isG then ret (inl i)
        else
          let! witenssCount := gets (Len (GetWitnessSet i)) in
          if witenssCount <? ConfigParamsUCMinVotings then find_group n (i + 1) count oldIndex isG minRound l
          else
            let! chainCount := gets (Len (GetChainsSet i)) in
            if chainCount =? 0 then
              let! good := haveGoodHeartbeatOnGroup i minRound in
              if negb good then find_group n (i + 1) count oldIndex isG minRound l else ret (inl i)
            else
              find_group n (i + 1) count oldIndex isG minRound (l ++ [mkGroup i chainCount 0 witenssCount])
      else ret (inr l)
  end.

(** From the best candidate down, the first with good heartbeats. *)
Fixpoint find_good (l : list choseGroup) (minRound : Z) : SC DB (option Z) :=
  match l with
  | [] => ret None
  | gp :: l =>
      let! good := haveGoodHeartbeatOnGroup (index gp) minRound in
      if (good : bool) then ret (Some (index gp)) else find_good l minRound
  end.

Definition selectNewGroup (oldIndex : option Z) (number : Z) address : SC DB Z :=
  if bool_decide (address = SCAccount) then fail ErrSystemChain
  else
    let! arbitration := gets (GetChainArbitrationNumber address) in
    if arbitration >? 0 then fail ErrArbitration
    else
      let! count := gets GetWitnessGroupCount in
      if count =? 0 then fail ErrEmptyGroups
      else
        let isG := number =? 0 in
        let minRound := Word.ForceSafeSub (CalcRound (Word.Uint64 number)) 2 in
        let! found := find_group (Z.to_nat count) 0 count oldIndex isG minRound [] in
        match found with
        | inl i => ret i
        | inr [] => fail ErrNoWitnessGroupUse
        | inr l =>
            let l := rev (sortWitnessGroup l) in
            let! good := find_good l minRound in
            match good, l with
            | Some i, _ => ret i
            | None, gp :: _ => ret (index gp)
            | None, [] => fail ErrPanic
            end
        end.

Definition ApplyChainFromWitnessGroup address (number : Z) (oldIndex : option Z) (chainNumber : Z) : SC DB Z :=
  let! newIndex := selectNewGroup oldIndex number address in
  applyWitnessWithGroup address number oldIndex newIndex chainNumber.

End Group.
End Group.
