(* ===== verification/ScHeart.v ===== *)
(** Heartbeats of witnesses and of the council ([src/core/sc/sc_common.go] from
    [ListHeartbeat] on, the periods of [settle.go]). *)
From stdpp Require Import gmap list.
From S2P Require Import Prelude Bech32 Address EvmWord EvmState StateDb GoSort ScStore ScGroup.

Import Db Store Address Group.

Module Heart.

(** ** Periods *)

(** The quotient to the nearest integer, to the even one of two. *)
Definition round_half_even (a b : Z) : Z :=
  let q := a / b in
  let r := a mod b in
  if 2 * r <? b then q else if 2 * r >? b then q + 1 else if Z.even q then q else q + 1.

(** The quotient of two positive integers as a [float64]: [m * 2^e] with
    [2^52 <= m <= 2^53]. *)
Definition float_div (a b : Z) : Z * Z :=
  let scaled e := if e <? 0 then (a * 2 ^ (- e), b) else (a, b * 2 ^ e) in
  let e := Z.log2 a - Z.log2 b - 52 in
  let e := if fst (scaled e) <? snd (scaled e) * 2 ^ 52 then e - 1 else e in
  (round_half_even (fst (scaled e)) (snd (scaled e)), e).

(** [float64] of an integer, and [math.Ceil]. *)
Definition float64 (n : Z) : Z := if n =? 0 then 0 else let '(m, e) := float_div n 1 in if e <? 0 then m / 2 ^ (- e) else m * 2 ^ e.
Definition Ceil (x : Z * Z) : Z := let '(m, e) := x in if e <? 0 then - (- m / 2 ^ (- e)) else m * 2 ^ e.

Definition ConfigParamsBillingPeriod : Z := 7 * 24 * 60 * 60 / 90.

Definition GetSettlePeriod (sysNumber : Z) : Z :=
  if sysNumber <=? ConfigParamsBillingPeriod then 1
  else Ceil (float_div (float64 sysNumber) ConfigParamsBillingPeriod).

(** ** Data *)

Record Count := mkCount { Period : Z; UnitCount : Z; BackCount : Z }.
Record ListCount := mkListCount { lc_cache : gmap Z Count; lc_sub : SubItems }.
Record Heartbeat := mkHeartbeat { hb_Address : Address; LastTurn : Z; LastNumber : Z; hb_Count : ListCount }.
Record ListHeartbeat := mkListHeartbeat {
  lh_sub : SubItems;
  addrs : StateSet;
  writeCache : gmap Address Heartbeat;
  deletedCache : list Address
}.

Definition lastTurn : rlp_value := Str (str "lastTurn").
Definition lastNumber : rlp_value := Str (str "lastNumber").

Section Heart.
Context {DB : Type} {ST : Storage DB} {C : ScCodec}.

Implicit Types (db : DB).

Definition get_uint (s : SubItems) (key : rlp_value) db : Z := Word.Uint64 (GetSub s key db).

(** ** Counts of periods *)

Definition count_Query (period : Z) (l : ListCount) db : Count :=
  match lc_cache l !! period with
  | Some v => v
  | None =>
      let childSub := lc_sub l ++ [uint period] in
      mkCount period (get_uint childSub (Str (str "unitCount")) db) (get_uint childSub (Str (str "backCount")) db)
  end.
Definition count_set (period : Z) (c : Count) (l : ListCount) : ListCount :=
  mkListCount (<[period := c]> (lc_cache l)) (lc_sub l).
Definition count_AddUnitCount (period : Z) (l : ListCount) db : ListCount :=
  let c := count_Query period l db in
  count_set period (mkCount (Period c) (u64 (UnitCount c + 1)) (BackCount c)) l.
Definition count_AddBackCount (period : Z) (l : ListCount) db : ListCount :=
  let c := count_Query period l db in
  count_set period (mkCount (Period c) (UnitCount c) (u64 (BackCount c + 1))) l.

Definition GetWorkPeriod (sub : SubItems) db : Z * Z :=
  (get_uint sub (Str (str "startPeriod")) db, get_uint sub (Str (str "endPeriod")) db).

(** One entry of the cache is written; the range of periods grows. *)
Definition commit_count (sub : SubItems) (acc : Z * Z * DB) (v : Count) : Z * Z * DB :=
  let '(startPeriod, endPeriod, db) := acc in
  if Period v =? 0 then acc
  else
    let childSub := sub ++ [uint (Period v)] in
    if (BackCount v =? 0) && (UnitCount v =? 0) then
      (startPeriod, endPeriod,
       DeleteSub childSub (Str (str "backCount")) (DeleteSub childSub (Str (str "unitCount")) db))
    else
      let db := SaveSub childSub (Str (str "unitCount")) (VUint (UnitCount v)) db in
      let db := SaveSub childSub (Str (str "backCount")) (VUint (BackCount v)) db in
      (if (startPeriod =? 0) || (Period v <? startPeriod) then Period v else startPeriod,
       if Period v >? endPeriod then Period v else endPeriod, db).

(** [ListCount.CommitCache]; Go visits a map's entries in any order. *)
Definition count_CommitCache (l : ListCount) (db : DB) : DB :=
  let '(startPeriod, endPeriod) := GetWorkPeriod (lc_sub l) db in
  let '(startPeriod, endPeriod, db) :=
    fold_left (commit_count (lc_sub l)) (map snd (map_to_list (lc_cache l))) (startPeriod, endPeriod, db) in
  SaveSub (lc_sub l) (Str (str "endPeriod")) (VUint endPeriod)
    (SaveSub (lc_sub l) (Str (str "startPeriod")) (VUint startPeriod) db).

Definition count_Clear (sub : SubItems) (db : DB) : DB :=
  let '(startPeriod, endPeriod) := GetWorkPeriod sub db in
  let db := fold_left (fun db p =>
      let childSub := sub ++ [uint p] in
      DeleteSub childSub (Str (str "backCount")) (DeleteSub childSub (Str (str "unitCount")) db))
    (seqZ startPeriod (endPeriod - startPeriod + 1)) db in
  DeleteSub sub (Str (str "endPeriod")) (DeleteSub sub (Str (str "startPeriod")) db).

(** ** Heartbeats *)

Definition readHeartbeat (prefix : bytes) : ListHeartbeat :=
  mkListHeartbeat [Str prefix] [Str prefix; Str (str "_keys")] ∅ [].

Definition Have (addr : Address) (l : ListHeartbeat) db : bool :=
  match writeCache l !! addr with
  | Some _ => true
  | None => bool_decide (is_Some (Exist (addrs l) db (VAddress addr)))
  end.

Definition childSub (l : ListHeartbeat) (addr : Address) : SubItems := lh_sub l ++ [addr_value addr].

Definition Query (addr : Address) (l : ListHeartbeat) db : Heartbeat :=
  match writeCache l !! addr with
  | Some v => v
  | None =>
      if negb (Have addr l db) then mkHeartbeat zeroAddress 0 0 (mkListCount ∅ [])
      else
        mkHeartbeat addr (get_uint (childSub l addr) lastTurn db) (get_uint (childSub l addr) lastNumber db)
          (mkListCount ∅ (childSub l addr))
  end.
Definition QueryLastTurn (addr : Address) (l : ListHeartbeat) db : Z :=
  match writeCache l !! addr with
  | Some v => LastTurn v
  | None => get_uint (childSub l addr) lastTurn db
  end.
Definition QueryLastNumber (addr : Address) (l : ListHeartbeat) db : Z :=
  match writeCache l !! addr with
  | Some v => LastNumber v
  | None => get_uint (childSub l addr) lastNumber db
  end.

Definition set_cache (addr : Address) (h : Heartbeat) (l : ListHeartbeat) : ListHeartbeat :=
  mkListHeartbeat (lh_sub l) (addrs l) (<[addr := h]> (writeCache l)) (deletedCache l).

Definition Insert (Addr : Address) (turn number period unitCount backCount : Z) (l : ListHeartbeat) : ListHeartbeat :=
  let c := if period >? 0 then {[period := mkCount period unitCount backCount]} else ∅ in
  set_cache Addr (mkHeartbeat Addr turn number (mkListCount c (childSub l Addr))) l.
Definition Update (h : Heartbeat) (l : ListHeartbeat) db : ListHeartbeat :=
  if Have (hb_Address h) l db then set_cache (hb_Address h) h l else l.
Definition Delete (Addr : Address) (l : ListHeartbeat) db : ListHeartbeat * Heartbeat :=
  let h := Query Addr l db in
  if bool_decide (hb_Address h = zeroAddress) then (l, h)
  else (mkListHeartbeat (lh_sub l) (addrs l) (delete Addr (writeCache l)) (deletedCache l ++ [Addr]), h).

Definition AddUnitCount (Addr : Address) (turn number period : Z) (l : ListHeartbeat) db : ListHeartbeat :=
  let v := Query Addr l db in
  if bool_decide (hb_Address v = zeroAddress) then Insert Addr turn number period 1 0 l
  else Update (mkHeartbeat (hb_Address v) turn number (count_AddUnitCount period (hb_Count v) db)) l db.
Definition AddBackCount (Addr : Address) (turn number period : Z) (l : ListHeartbeat) db : ListHeartbeat :=
  let v := Query Addr l db in
  if bool_decide (hb_Address v = zeroAddress) then Insert Addr turn number period 0 1 l
  else if turn <=? LastTurn v then l
  else Update (mkHeartbeat (hb_Address v) turn number (count_AddBackCount period (hb_Count v) db)) l db.

Definition commit_deleted (l : ListHeartbeat) (db : DB) (v : Address) : DB :=
  let db := DeleteSub (lh_sub l) (addr_value v) db in
  match Exist (addrs l) db (VAddress v) with
  | Some i =>
      let db := snd (Remove (addrs l) i db) in
      let db := DeleteSub (childSub l v) lastTurn db in
      let db := DeleteSub (childSub l v) lastNumber db in
      count_Clear (childSub l v) db
  | None => db
  end.
Definition commit_written (l : ListHeartbeat) (db : DB) (v : Heartbeat) : DB :=
  let s := childSub l (hb_Address v) in
  let db := SaveSub s lastTurn (VUint (LastTurn v)) db in
  let db := SaveSub s lastNumber (VUint (LastNumber v)) db in
  let db := match Exist (addrs l) db (VAddress (hb_Address v)) with
            | Some _ => db
            | None => add_to (addrs l) (hb_Address v) db
            end in
  count_CommitCache (hb_Count v) db.
Definition CommitCache (l : ListHeartbeat) (db : DB) : DB :=
  fold_left (commit_written l) (map snd (map_to_list (writeCache l)))
    (fold_left (commit_deleted l) (deletedCache l) db).

(** ** Roles *)

Inductive AccountRole :=
| AccNormal | AccMainSystemWitness | AccSecondSystemWitness | AccUserWitness | AccCouncil | AccContract.

Definition PrefixCouncilHeartbeat : bytes := str "heartbeat_c".
Definition PrefixSCWitnessHeartbeat : bytes := str "heartbeat_sc".
Definition PrefixUserWitnessHeartbeat : bytes := str "heartbeat_uc".

(** [None] is the panic of a role that sends no heartbeats. *)
Definition getHearbeatRecodePrefix (role : AccountRole) : option bytes :=
  match role with
  | AccMainSystemWitness | AccSecondSystemWitness => Some PrefixSCWitnessHeartbeat
  | AccUserWitness => Some PrefixUserWitnessHeartbeat
  | AccCouncil => Some PrefixCouncilHeartbeat
  | AccNormal | AccContract => None
  end.

Definition initHearbeatLastRound (role : AccountRole) (addr : Address) (curNumber : Z) : SC DB unit :=
  match getHearbeatRecodePrefix role with
  | None => fail ErrPanic
  | Some prefix =>
      puts (fun db =>
        CommitCache (AddBackCount addr (CalcRound curNumber) curNumber (GetSettlePeriod curNumber) (readHeartbeat prefix) db) db)
  end.

(** The last round, or number, of a role's account. *)
Definition query_last (key : rlp_value) (role : AccountRole) (addr : Address) : SC DB Z :=
  match getHearbeatRecodePrefix role with
  | None => fail ErrPanic
  | Some prefix => gets (get_uint [Str prefix; addr_value addr] key)
  end.
Definition QueryHeartbeatLastRound : AccountRole -> Address -> SC DB Z := query_last lastTurn.
Definition QueryHeartbeatLastNumber : AccountRole -> Address -> SC DB Z := query_last lastNumber.

End Heart.
End Heart.
