(* ===== verification/ScWitness.v ===== *)
(** The life of a witness and of a chain ([src/core/sc/normal_witenss.go]), the
    council ([council.go]) and who is put out for silence ([autoexit.go]). *)
From stdpp Require Import gmap list.
From S2P Require Import Prelude Bech32 Address EvmWord EvmState StateDb GoSort ScStore ScGroup ScHeart.

Import Db Store Address Group Heart.

Module Witness.

(** ** What the contract uses of the state and of the machine *)

(** Balances, and the values that are longer than a slot. *)
Class Ledger (DB : Type) := {
  GetBalance : Address -> DB -> Z;
  AddBalance : Address -> Z -> DB -> DB;
  SubBalance : Address -> Z -> DB -> DB;
  GetBigData : Hash -> DB -> result error bytes;
  SetBigData : Hash -> bytes -> DB -> DB
}.

(** None of it is a slot, and the database can be read. *)
Class LedgerOk (DB : Type) (ST : Storage DB) (SO : StorageOk DB ST) (LG : Ledger DB) := {
  AddBalance_ok a n db : storage_ok db -> storage_ok (AddBalance a n db);
  SubBalance_ok a n db : storage_ok db -> storage_ok (SubBalance a n db);
  SetBigData_ok k v db : storage_ok db -> storage_ok (SetBigData k v db);
  load_AddBalance a n db k : storage_ok db -> load k (AddBalance a n db) = load k db;
  load_SubBalance a n db k : storage_ok db -> load k (SubBalance a n db) = load k db;
  load_SetBigData h v db k : storage_ok db -> load k (SetBigData h v db) = load k db;
  GetBigData_ok k db : storage_ok db -> match GetBigData k db with Ok _ => True | Err e => e = ErrStateNotFind end
}.

(** The accounts that are known by name ([params/config.go]). *)
Class Names := { FoundationAccount : Address; PublicPrivateKeyAddr : Address }.

(** [vm.CallContext] and [vm.Contract], but the state and the gas. *)
Record Ctx := mkCtx { Caller : Address; Value : option Z; Coinbase : Address; UnitNumber : Z; TxIndex : Z }.

Definition SloadGas : Z := 50.
Definition SstoreLoadGas : Z := 10000.
Definition SstoreSetGas : Z := 20000.
Definition Sha256BaseGas : Z := 60.

Section Gas.
Context {DB : Type}.

(** A call of the contract: the state and the gas that is left. *)
Definition UseGas (gas : Z) : SC (DB * Z) unit :=
  fun w => let '(db, gas_left) := w in
           if gas_left <? gas then (Err ErrOutOfGas, (db, gas_left)) else (Ok tt, (db, gas_left - gas)).
Definition on_state {A} (m : SC DB A) : SC (DB * Z) A :=
  fun w => let '(db, gas_left) := w in let '(r, db) := m db in (r, (db, gas_left)).
End Gas.

(** ** Data *)

Definition WitnessNormal : Z := 1.
Definition WitnessLoggedOut : Z := 2.
Definition WitnessInBlackList : Z := 3.

Record WitnessInfo := mkInfo {
  Index : Z; wi_Address : Address; Margin : Z; ApplyHeight : Z; CancelHeight : Z;
  Status : Z; wi_GroupIndex : Z; Pubkey : bytes
}.

Definition nil_key : rlp_value := Lst [].
Definition allWitenssKey : Hash := BytesToHash (str "cw_lib_all").
Definition all_witnesses : StateSet := [hash_value allWitenssKey].

(** A [byte] kept in a slot. *)
Definition byte_of (h : Hash) : Z := h mod 2 ^ 8.

Section Witness.
Context {DB : Type} {ST : Storage DB} {C : ScCodec} {EV : Events DB} {LG : Ledger DB} {P : Params} {NM : Names}.
Open Scope sc_scope.
Open Scope result_scope.

Implicit Types (db : DB) (address witness : Address).

Definition Transfer (sender recipient : Address) (amount : Z) (db : DB) : DB :=
  AddBalance recipient amount (SubBalance sender amount db).

Definition field (it : SubItems) (name : bytes) : DB -> Hash := GetSub it (Str name).
Definition put (it : SubItems) (name : bytes) (v : value) : DB -> DB := SaveSub it (Str name) v.

(** ** The council *)

Definition CouncilStatusValid : Z := 1.
Definition CouncilStatusInvalid : Z := 2.

Record Council := mkCouncil { co_Address : Address; co_Status : Z; co_Margin : Z; co_ApplyHeight : Z }.

Definition getCouncilInfoItem (c : Address) : SubItems := [Lst [Str (str "ci_"); addr_value c]].
Definition getCouncilItem : StateSet := [Str (str "council_m")].

Definition GetCouncilCount (db : DB) : Z := Len getCouncilItem db.
Definition ExistCounci address (db : DB) : bool := negb (field (getCouncilInfoItem address) (str "status") db =? 0).
Definition GetCouncilStatus address (db : DB) : Z * bool :=
  let h := field (getCouncilInfoItem address) (str "status") db in
  if h =? 0 then (0, false) else (byte_of h, true).
Definition IsActiveCouncil address (db : DB) : bool :=
  let '(status, ok) := GetCouncilStatus address db in ok && (status =? CouncilStatusValid).
Definition GetCounciMargin address (db : DB) : Z :=
  let h := field (getCouncilInfoItem address) (str "margin") db in if h =? 0 then 0 else Word.Uint64 h.
Definition GetCouncilInfo address (db : DB) : result error Council :=
  let item := getCouncilInfoItem address in
  let status := field item (str "status") db in
  if status =? 0 then Err ErrNotCouncil
  else Ok (mkCouncil address (byte_of status) (Word.Uint64 (field item (str "margin") db))
             (Word.Uint64 (field item (str "applyHeight") db))).
Definition GetCouncilList (db : DB) : list Address := map hash_address (elements getCouncilItem db).

Definition WriteCouncilInfo (c : Council) : SC DB unit :=
  let item := getCouncilInfoItem (co_Address c) in
  puts (put item (str "status") (VEnum (co_Status c)));;;
  puts (put item (str "margin") (VUint (co_Margin c)));;;
  puts (put item (str "applyHeight") (VUint (co_ApplyHeight c)));;;
  puts (add_to getCouncilItem (co_Address c));;;
  puts (AddCouncilCount (GetSettlePeriod (co_ApplyHeight c)) 1);;;
  initHearbeatLastRound AccCouncil (co_Address c) (co_ApplyHeight c).
Definition AddCouncil (c : Council) : SC DB unit := WriteCouncilInfo c.

Definition RemoveCouncil address (sysNumber : Z) : SC DB unit :=
  let! count := gets GetCouncilCount in
  if count =? 1 then fail ErrOnlyOneCouncil
  else
    let! s := gets (GetCouncilStatus address) in
    if negb (snd s) then fail ErrNotCouncil
    else if fst s =? CouncilStatusInvalid then ret tt
    else
      puts (put (getCouncilInfoItem address) (str "status") (VEnum CouncilStatusInvalid));;;
      let! found := gets (fun db => Exist getCouncilItem db (VAddress address)) in
      match found with
      | Some index => puts (fun db => snd (Remove getCouncilItem index db))
      | None => ret tt
      end;;;
      puts (AddCouncilCount (GetSettlePeriod sysNumber) (-1)).

(** ** The records of witnesses *)

Definition ExistWitness address (db : DB) : bool := negb (GetSub (witness_item address) nil_key db =? 0).
Definition GetWitnessStatus witness (db : DB) : Z * bool :=
  if GetSub (witness_item witness) nil_key db =? 0 then (0, false)
  else (byte_of (field (witness_item witness) (str "status") db), true).

Definition GetWitnessGroupIndex witness (db : DB) : result error Z :=
  let item := witness_item witness in
  let gpIndex := Word.Uint64 (field item (str "group_index") db) in
  if (gpIndex =? 0) && (GetSub item nil_key db =? 0) then Err ErrNotFindWitness else Ok gpIndex.

(** [SubItems.GetBigData]: a value that was never written reads as empty. *)
Definition get_big (s : SubItems) (key : rlp_value) (db : DB) : result error bytes :=
  match GetBigData (item_key s key) db with
  | Err ErrStateNotFind => Ok []
  | r => r
  end.

Definition GetWitnessInfo address (db : DB) : result error WitnessInfo :=
  let item := witness_item address in
  let status := field item (str "status") db in
  if status =? 0 then Err ErrNoWintessInfo
  else
    let? pkey := get_big item (Str (str "pkey")) db in
    Ok (mkInfo 0 address (Word.Uint64 (field item (str "margin") db)) (Word.Uint64 (field item (str "apply_height") db))
          (Word.Uint64 (field item (str "cancel_height") db)) (byte_of status)
          (Word.Uint64 (field item (str "group_index") db)) pkey).

Definition WriteWitnessInfo (w : WitnessInfo) : SC DB unit :=
  let item := witness_item (wi_Address w) in
  puts (SaveSub item nil_key (VByte 1));;;
  puts (put item (str "margin") (VUint (Margin w)));;;
  puts (put item (str "status") (VByte (Status w)));;;
  puts (put item (str "cancel_height") (VUint (CancelHeight w)));;;
  puts (put item (str "apply_height") (VUint (ApplyHeight w)));;;
  puts (put item (str "group_index") (VUint (wi_GroupIndex w)));;;
  puts (SetBigData (item_key item (Str (str "pkey"))) (Pubkey w));;;
  let role := if wi_GroupIndex w =? DefSysGroupIndex then AccMainSystemWitness else AccUserWitness in
  initHearbeatLastRound role (wi_Address w) (ApplyHeight w).

Definition DelWitnessInfo address (number status : Z) (db : DB) : DB :=
  put (witness_item address) (str "cancel_height") (VUint number)
    (put (witness_item address) (str "status") (VByte status) db).

Definition AddWitnessChangeEventLog (w : WitnessInfo) : SC DB unit :=
  emit WitnessChangeEvent
    [AbiAddress (wi_Address w); AbiUint8 (Status w mod 2 ^ 8); AbiUint64 (Margin w);
     AbiUint16 (uint16 (wi_GroupIndex w)); AbiUint8 (Index w mod 2 ^ 8)].

Definition UpdateAcitvieWitenssLib (w : WitnessInfo) : SC DB unit :=
  let isSys := wi_GroupIndex w =? DefSysGroupIndex in
  if Status w =? WitnessNormal then
    puts (add_to all_witnesses (wi_Address w));;;
    puts (AddActiveWitness 1);;;
    puts (AddWitnessCount (GetSettlePeriod (ApplyHeight w)) isSys 1);;;
    AddWitnessChangeEventLog w
  else if (Status w =? WitnessLoggedOut) || (Status w =? WitnessInBlackList) then
    puts (AddActiveWitness (-1));;;
    puts (AddWitnessCount (GetSettlePeriod (CancelHeight w)) isSys (-1));;;
    AddWitnessChangeEventLog w
  else fail ErrUnknownStatus.

Definition GetAllWitness (db : DB) : list WitnessInfo :=
  omap (fun h => match GetWitnessInfo (hash_address h) db with Ok i => Some i | Err _ => None end)
       (elements all_witnesses db).

(** The collected witnesses, up to the first without a record. *)
Fixpoint collect_active (l : list Hash) (db : DB) : list WitnessInfo * result error unit :=
  match l with
  | [] => ([], Ok tt)
  | h :: l =>
      match GetWitnessInfo (hash_address h) db with
      | Err e => ([], Err e)
      | Ok i => let '(lib, e) := collect_active l db in
                (if Status i =? WitnessNormal then i :: lib else lib, e)
      end
  end.
Definition GetActivWitnessLib (db : DB) : list WitnessInfo * result error unit :=
  collect_active (elements all_witnesses db) db.
Definition GetActiveWitnessCount (db : DB) : Z := ActiveWtiness db.

(** The addresses handed to [f]: [break] ends a group only. *)
Fixpoint until_false {A} (f : A -> bool) (l : list A) : list A :=
  match l with [] => [] | x :: l => x :: if f x then until_false f l else [] end.
Definition RangeActiveWitness (f : Address -> bool) (db : DB) : list Address :=
  flat_map (fun gp => until_false f (GetWitnessListAt gp db)) (seqZ 0 (GetWitnessGroupCount db + 1)).

(** ** Joining and leaving *)

Definition CheckMemberType address (db : DB) : result error unit :=
  if bool_decide (address = FoundationAccount) then Err ErrFoundationAccount
  else if bool_decide (address = PublicPrivateKeyAddr) then Err ErrPublicAddress
  else if ExistWitness address db then Err ErrIsNormalWitness
  else if ExistCounci address db then Err ErrIsCouncil
  else Ok tt.

Definition lift {A} (r : result error A) : SC DB A := fun db => (r, db).
Definition read {A} (f : DB -> result error A) : SC DB A := fun db => (f db, db).

Definition applyWitness (from : Address) (value unitNumber : Z) (publicKey : bytes) (isSys : bool) : SC DB unit :=
  if bool_decide (publicKey = []) then fail ErrEmptyPublicKey
  else
    read (CheckMemberType from);;;
    let! groupIndex := (if isSys then ApplyWitnessGroupOfSys from else ApplyWitnessGroupOfUser from) in
    let info := mkInfo 0 from value unitNumber 0 WitnessNormal groupIndex publicKey in
    WriteWitnessInfo info;;;
    UpdateAcitvieWitenssLib info.

Definition onWitnessExit (sysNumber : Z) (w : WitnessInfo) : SC DB unit :=
  if Status w =? WitnessNormal then fail ErrPanic
  else
    let w := mkInfo (Index w) (wi_Address w) (Margin w) (ApplyHeight w) sysNumber (Status w) (wi_GroupIndex w) (Pubkey w) in
    puts (DelWitnessInfo (wi_Address w) (CancelHeight w) (Status w));;;
    CancelWitnessFromWitnessGroup (wi_Address w) (wi_GroupIndex w);;;
    UpdateAcitvieWitenssLib w.

(** [m * (1 - percent)], the percentage in hundredths of a percent; the two in
    use, 12 and 15, come out of the source's [float64] arithmetic unharmed. *)
Definition calcPercentMoney (m percent : Z) : Z :=
  if percent =? 10000 then 0 else Word.Uint64 (m * (10000 - percent) / 10000).
Definition SystemWitnessTimeoutPunish : Z := 1500.
Definition CounciTimeoutPunish : Z := 1200.

Definition with_status (w : WitnessInfo) (status height : Z) : WitnessInfo :=
  mkInfo (Index w) (wi_Address w) (Margin w) (ApplyHeight w) height status (wi_GroupIndex w) (Pubkey w).

(** The record of a witness that may leave. *)
Definition leaving witness (number : Z) : SC DB WitnessInfo :=
  let! info := read (GetWitnessInfo witness) in
  if negb (bool_decide (wi_Address info = witness)) then fail ErrOnlyYourself
  else if negb (Status info =? WitnessNormal) then fail ErrStatusAbnormal
  else ret (with_status info WitnessLoggedOut number).

Definition removeWitness (c : Ctx) witness (isTimeout : bool) : SC DB unit :=
  let number := Word.Uint64 (UnitNumber c) in
  let! info := leaving witness number in
  (if Margin info >? 0 then
     let refund := if isTimeout then calcPercentMoney (Margin info) SystemWitnessTimeoutPunish else Margin info in
     puts (Transfer SCAccount witness refund)
   else ret tt);;;
  onWitnessExit number info.

Definition cancelWitness (c : Ctx) (from : Address) : SC (DB * Z) unit :=
  let number := Word.Uint64 (UnitNumber c) in
  UseGas SstoreLoadGas;;;
  let! info := on_state (leaving from number) in
  (if Margin info >? 0 then on_state (puts (Transfer SCAccount from (Margin info))) else ret tt);;;
  UseGas (SstoreSetGas * 10);;;
  on_state (onWitnessExit number info).

Definition CancelWitness (c : Ctx) : SC (DB * Z) unit :=
  UseGas SstoreLoadGas;;; cancelWitness c (Caller c).

Definition removeChainWitness (c : Ctx) witness (isBad : bool) : SC (DB * Z) unit :=
  if negb isBad then cancelWitness c witness
  else
    UseGas SloadGas;;;
    let! info := on_state (read (GetWitnessInfo witness)) in
    if negb (Status info =? WitnessNormal) then fail ErrStatusAbnormal
    else
      let number := Word.Uint64 (UnitNumber c) in
      UseGas (SstoreSetGas * 10);;;
      on_state (onWitnessExit number (with_status info WitnessInBlackList number)).

Definition demoteWitness witness : SC DB unit :=
  let! info := read (GetWitnessInfo witness) in
  if negb (Status info =? WitnessNormal) then fail ErrStatusAbnormal
  else if negb (wi_GroupIndex info =? DefSysGroupIndex) then fail ErrNotSystemWitness
  else
    CancelWitnessFromWitnessGroup (wi_Address info) (wi_GroupIndex info);;;
    ApplyWitnessGroupOfSys (wi_Address info);;;
    AddWitnessChangeEventLog info.

End Witness.
End Witness.
