(* ===== verification/ScDuty.v ===== *)
(** Duties and powers of the members: heartbeats ([src/core/sc/heartbeat.go]),
    putting out who is silent ([autoexit.go]), and the chains' requests for
    witnesses ([normal_witenss.go]). *)
From stdpp Require Import gmap list.
From S2P Require Import Prelude Bech32 Address EvmWord EvmState StateDb GoSort ScStore ScGroup ScHeart ScWitness.

Import Db Store Address Group Heart Witness.

Module Duty.

(** What the contract's input is decoded to, and the address of a new contract:
    packages [abi], [rlp] and [crypto]. *)
Class Inputs := {
  UnpackReplaceWitness : bytes -> option Address;
  GenerateContractAddress : Address -> Z -> Z -> Address
}.

Section Duty.
Context {DB : Type} {ST : Storage DB} {C : ScCodec} {EV : Events DB} {LG : Ledger DB} {P : Params} {NM : Names} {IN : Inputs}.
Open Scope sc_scope.
Open Scope result_scope.

Implicit Types (db : DB) (address witness chain : Address).

(** ** Who is who *)

Definition GetWitnessIndex (gp : Z) witness (db : DB) : Z :=
  match Exist (GetWitnessSet gp) db (VAddress witness) with Some i => i | None => -1 end.

Definition ReadSystemWitness (db : DB) : list Address := GetWitnessListAt DefSysGroupIndex db.
Definition GetSystemMainWitness (db : DB) : list Address := take (Z.to_nat ConfigParamsSCWitness) (ReadSystemWitness db).

Definition IsSystemWitness address (db : DB) : bool :=
  match GetWitnessGroupIndex address db with Ok index => index =? DefSysGroupIndex | Err _ => false end.
Definition IsMainSystemWitness witness (db : DB) : bool :=
  match GetWitnessGroupIndex witness db with
  | Err _ => false
  | Ok gp =>
      if negb (gp =? DefSysGroupIndex) then false
      else GetWitnessIndex gp witness db <=? ConfigParamsSCWitness - 1
  end.

(** ** Silence *)

Definition MaxMainSCWitnessHeartbeatRound : Z := 60 * 60 * 24 * 1 / 90 / ConfigParamsSCWitness.
Definition MaxHeartbeatRound : Z := 60 * 60 * 24 * 2 / 90 / ConfigParamsSCWitness.

(** A role that sends no heartbeats is a panic. *)
Definition isTimeoutHeart (rol : AccountRole) (currRound lastHeartRound : Z) : SC DB bool :=
  let late max := ret (Word.ForceSafeSub currRound lastHeartRound >? max) in
  match rol with
  | AccMainSystemWitness => late MaxMainSCWitnessHeartbeatRound
  | AccSecondSystemWitness | AccCouncil | AccUserWitness => late MaxHeartbeatRound
  | AccNormal | AccContract => fail ErrPanic
  end.

Definition systemWitnessIsTimeout (role : AccountRole) witness (number : Z) : SC DB bool :=
  let! lastRound := QueryHeartbeatLastRound role witness in
  isTimeoutHeart role (CalcRound number) lastRound.
Definition CheckHeartTimeout : AccountRole -> Address -> Z -> SC DB bool := systemWitnessIsTimeout.
Definition councilIsTimeout (council : Address) (number : Z) : SC DB bool :=
  let! lastRound := QueryHeartbeatLastRound AccCouncil council in
  isTimeoutHeart AccCouncil (CalcRound number) lastRound.

(** The role of a system's witness comes out the same whether it is a main one
    or not, and a user's witness is judged by the council's heartbeats. *)
Definition witnessIsTimeout witness (number : Z) : SC DB (AccountRole * bool) :=
  let! isSys := gets (IsSystemWitness witness) in
  if negb isSys then
    let! lastRound := QueryHeartbeatLastRound AccCouncil witness in
    let! late := isTimeoutHeart AccUserWitness (CalcRound number) lastRound in
    ret (AccUserWitness, late)
  else
    let! mainList := gets GetSystemMainWitness in
    let role := if bool_decide (witness ∈ mainList) then AccSecondSystemWitness else AccSecondSystemWitness in
    let! late := systemWitnessIsTimeout role witness number in
    ret (role, late).

Definition IsTimeout (who : Address) (number : Z) : SC DB (AccountRole * bool) :=
  let! w := gets (GetWitnessStatus who) in
  let '(status, isWitness) := (w : Z * bool) in
  if isWitness then
    if negb (status =? WitnessNormal) then fail ErrInvalidStatus else witnessIsTimeout who number
  else
    let! c := gets (GetCouncilStatus who) in
    let '(s2, isCouncil) := (c : Z * bool) in
    if isCouncil then
      if negb (s2 =? CouncilStatusValid) then fail ErrInvalidStatus
      else
        let! late := councilIsTimeout who number in
        ret (AccCouncil, late)
    else fail ErrNotMember.

(** The members of a list that a test picks. *)
Fixpoint pick {A} (late : A -> SC DB bool) (l : list A) : SC DB (list A) :=
  match l with
  | [] => ret []
  | x :: l =>
      let! t := late x in
      let! r := pick late l in
      ret (if (t : bool) then x :: r else r)
  end.

Definition GetTimeoutSecondSystemWitness (number : Z) : SC DB (list Address) :=
  let! all := gets ReadSystemWitness in
  if (Z.of_nat (length all) <=? ConfigParamsSCWitness) then ret []
  else pick (fun w => systemWitnessIsTimeout AccSecondSystemWitness w number) (drop (Z.to_nat ConfigParamsSCWitness) all).
Definition GetTimeoutMainSystemWitness (number : Z) : SC DB (list Address) :=
  let! l := gets GetSystemMainWitness in
  pick (fun w => systemWitnessIsTimeout AccMainSystemWitness w number) l.
Definition GetTimeoutCouncil (number : Z) : SC DB (list Address) :=
  let query := readHeartbeat PrefixCouncilHeartbeat in
  let! l := gets GetCouncilList in
  pick (fun a db => isTimeoutHeart AccCouncil (CalcRound number) (QueryLastTurn a query db) db) l.
Definition GetInvalidUserWitness (number : Z) : SC DB (list Address) :=
  let query := readHeartbeat PrefixUserWitnessHeartbeat in
  let! found := gets GetActivWitnessLib in
  let '(l, e) := (found : list WitnessInfo * result error unit) in
  lift e;;;
  let l := filter (fun w => negb (wi_GroupIndex w =? DefSysGroupIndex) = true) l in
  pick (fun a db => isTimeoutHeart AccUserWitness (CalcRound number) (QueryLastTurn a query db) db) (map wi_Address l).

(** For each of the council's members: part of the margin back, and out. *)
Fixpoint removeTimeoutCouncil (c : Ctx) (l : list Address) : SC DB unit :=
  match l with
  | [] => ret tt
  | a :: l =>
      let! margin := gets (GetCounciMargin a) in
      puts (Transfer SCAccount a (calcPercentMoney margin CounciTimeoutPunish));;;
      RemoveCouncil a (Word.Uint64 (UnitNumber c));;;
      removeTimeoutCouncil c l
  end.

(** The loop of [handleRemoveTimeout]: how many were removed. *)
Fixpoint remove_silent (c : Ctx) (userWitnessIsLess : bool) (removed : Z) (l : list Address) : SC DB Z :=
  match l with
  | [] => ret removed
  | a :: l =>
      let number := Word.Uint64 (UnitNumber c) in
      fun db =>
        match IsTimeout a number db with
        | (Err ErrInvalidStatus, db) => remove_silent c userWitnessIsLess removed l db
        | (Err e, db) => (Err e, db)
        | (Ok (role, yes), db) =>
            (if negb yes then fail ErrNotTimeout
             else
               match role with
               | AccMainSystemWitness => fail ErrMainSystemWitness
               | AccSecondSystemWitness =>
                   removeWitness c a true;;; remove_silent c userWitnessIsLess (removed + 1) l
               | AccUserWitness =>
                   if userWitnessIsLess then remove_silent c userWitnessIsLess removed l
                   else
                     removeWitness c a true;;;
                     let! allWitness := gets GetActiveWitnessCount in
                     let! systemWitness := gets (GetWitnessCountAt DefSysGroupIndex) in
                     remove_silent c (Word.ForceSafeSub allWitness systemWitness <=? ConfigParamsUCMinVotings) (removed + 1) l
               | AccCouncil => removeTimeoutCouncil c [a];;; remove_silent c userWitnessIsLess (removed + 1) l
               | AccNormal | AccContract => fail ErrUnknownRole
               end) db
        end
  end.

Definition handleRemoveTimeout (c : Ctx) (addresses : list Address) : SC DB unit :=
  if negb (bool_decide (Coinbase c = Caller c)) then fail ErrInvalidCaller
  else if (length addresses =? 0)%nat then fail ErrEmptyList
  else if (100 <? length addresses)%nat then fail ErrTooMany
  else
    let! removed := remove_silent c false 0 addresses in
    if removed =? 0 then fail ErrNoOneRemoved else ret tt.

Fixpoint demote_all (l : list Address) : SC DB unit :=
  match l with [] => ret tt | a :: l => demoteWitness a;;; demote_all l end.
Definition checkMainSystemStatus (c : Ctx) : SC DB unit :=
  let! l := GetTimeoutMainSystemWitness (Word.Uint64 (UnitNumber c)) in
  demote_all l.

(** ** Sending heartbeats *)

Definition writeHeartbeat (l : ListHeartbeat) : SC DB unit := puts (CommitCache l).

Definition handleUserWitnessHeartbeat (c : Ctx) : SC (DB * Z) unit :=
  let l := readHeartbeat PrefixUserWitnessHeartbeat in
  let from := Caller c in
  let number := Word.Uint64 (UnitNumber c) in
  let turns := CalcRound number in
  let! last := on_state (gets (QueryLastTurn from l)) in
  if turns <=? last then fail ErrRepeatHeartbeat
  else
    let! l := on_state (gets (AddBackCount from turns number (GetSettlePeriod number) l)) in
    UseGas SstoreSetGas;;;
    on_state (writeHeartbeat l).

Definition handleWitnessHeartbeat (c : Ctx) (isManSysWitness : bool) : SC (DB * Z) unit :=
  let l := readHeartbeat PrefixSCWitnessHeartbeat in
  let from := Caller c in
  let number := Word.Uint64 (UnitNumber c) in
  let turns := CalcRound number in
  let periods := GetSettlePeriod number in
  UseGas SstoreLoadGas;;;
  UseGas SloadGas;;;
  let! l :=
    (if isManSysWitness then
       let! last := on_state (gets (QueryLastNumber from l)) in
       if number <=? last then fail ErrRepeatHeartbeat
       else on_state (gets (AddUnitCount from turns number periods l))
     else
       let! last := on_state (gets (QueryLastTurn from l)) in
       if turns <=? last then fail ErrRepeatHeartbeat
       else on_state (gets (AddBackCount from turns number periods l))) in
  UseGas SstoreSetGas;;;
  on_state (writeHeartbeat l).

Definition not_payable (c : Ctx) : bool := match Value c with Some v => negb (v =? 0) | None => false end.

Definition SystemHeartbeat (c : Ctx) : SC (DB * Z) unit :=
  if not_payable c then fail ErrNonPayable
  else
    let from := Caller c in
    UseGas (SstoreLoadGas * 2);;;
    let! gpIndex := on_state (read (GetWitnessGroupIndex from)) in
    if negb (gpIndex =? DefSysGroupIndex) then handleUserWitnessHeartbeat c
    else
      UseGas SstoreLoadGas;;;
      let! found := on_state (gets (fun db => Exist (GetWitnessSet gpIndex) db (VAddress from))) in
      match found with
      | None => fail ErrNotSystemWitness
      | Some witnessIndex =>
          let isManSysWitness := witnessIndex <? ConfigParamsSCWitness in
          handleWitnessHeartbeat c isManSysWitness;;;
          if negb isManSysWitness then ret tt
          else if negb (bool_decide (from = Coinbase c)) then fail ErrNotLeader
          else if negb (TxIndex c =? 0) then fail ErrNotFirstTx
          else on_state (checkMainSystemStatus c)
      end.

Definition MemberHeartbeat (c : Ctx) : SC (DB * Z) unit :=
  if not_payable c then fail ErrNonPayable
  else
    let from := Caller c in
    UseGas SstoreLoadGas;;;
    let! active := on_state (gets (IsActiveCouncil from)) in
    if negb active then fail ErrNotCouncil
    else
      UseGas SstoreLoadGas;;;
      let l := readHeartbeat PrefixCouncilHeartbeat in
      UseGas SloadGas;;;
      let number := Word.Uint64 (UnitNumber c) in
      let! last := on_state (gets (QueryLastNumber from l)) in
      if last <? number then
        let! l := on_state (gets (AddUnitCount from (CalcRound number) number (GetSettlePeriod number) l)) in
        UseGas SstoreSetGas;;;
        on_state (writeHeartbeat l)
      else fail ErrRepeatHeartbeat.

(** ** Chains and their witnesses *)

Definition GetGroupIndexFromUser address (db : DB) : result error Z :=
  if bool_decide (address = SCAccount) then Ok DefSysGroupIndex
  else
    let group := field (chain_item address) (str "group_index") db in
    if group =? 0 then Err ErrChainMissingWitness else Ok (Word.Uint64 group).

Definition GetChainStatus address (db : DB) : Z * Z :=
  let h := field (chain_item address) (str "apply_status") db in
  if h =? 0 then (ChainStatusNotWitness, 0)
  else (byte_of h, Word.Uint64 (field (chain_item address) (str "apply_status_number") db)).

Definition ReplaceWitnessInterval : Z := 60 * 60 * 4 / 90.
Definition ReplaceWitnessUnderwayInterval : Z := 60 * 10 / 90.
Definition GetChainStatusIsTimeout (lastNumber currNumber : Z) : bool :=
  currNumber >=? u64 (ReplaceWitnessUnderwayInterval + lastNumber).

Definition GetChainWitnessStartNumber address (db : DB) : Z :=
  Word.Uint64 (field (chain_item address) (str "apply_chain_number") db).
Definition getChainLastWitnessNumber address (db : DB) : Z :=
  Word.Uint64 (field (chain_item address) (str "apply_number") db).

Definition GetChainWitness (mc : Address) (db : DB) : result error (list Address) :=
  if bool_decide (mc = SCAccount) then Ok (GetSystemMainWitness db)
  else
    let? groupIndex := GetGroupIndexFromUser mc db in
    Ok (GetWitnessListAt groupIndex db).

Definition special_key (height : Z) : rlp_value := Lst [Str (str "_s_"); uint height].
Definition setSpecialUnitAtChain chain (height : Z) (unit_hash : Hash) : SC DB unit :=
  if height =? 0 then ret tt
  else
    let item := chain_item chain in
    let! v := gets (GetSub item (special_key height)) in
    if negb (v =? 0) then if negb (v =? unit_hash) then fail ErrSpecialUnit else ret tt
    else puts (SaveSub item (special_key height) (VHash unit_hash)).
Definition GetChainSpecialUnit chain (number : Z) (db : DB) : Hash := GetSub (chain_item chain) (special_key number) db.

Definition contract_key chain : Hash := BytesToHash (str "cer_" ++ hash chain).
Definition ExistContractAddress chain (db : DB) : bool := negb (load (contract_key chain) db =? 0).
Definition WriteChainCreater (creater chain : Address) : SC DB unit :=
  let! data := gets (load (contract_key chain)) in
  if negb (data =? 0) then fail ErrContractExists
  else puts (save (contract_key chain) (BytesToHash (hash creater))).

Definition GetReplaseWitnessTraget (sender : Address) (txInput : bytes) : result error Address :=
  if (length txInput =? 0)%nat then Ok sender
  else if (length txInput <? 4)%nat then Err ErrPanic
  else
    match UnpackReplaceWitness (drop 4 txInput) with
    | None => Err ErrInput
    | Some who => if negb (IsContract who) && negb (bool_decide (who = sender)) then Err ErrOtherAccount else Ok who
    end.

Definition createWitness (c : Ctx) (newContactAddr : Address) (input : bytes) : SC (DB * Z) Z :=
  let! target := on_state (lift (if Empty newContactAddr then GetReplaseWitnessTraget (Caller c) input else Ok newContactAddr)) in
  if Empty target then fail ErrInvalidTarget
  else if bool_decide (target = SCAccount) then fail ErrSystemChain
  else
    UseGas SstoreLoadGas;;;
    UseGas (SstoreSetGas * 2 + SloadGas * 2);;;
    let! group := on_state (gets (GetGroupIndexFromUser target)) in
    match group with
    | Ok _ => fail ErrAlreadyHasWitness
    | Err ErrChainMissingWitness =>
        UseGas Sha256BaseGas;;;
        if Empty newContactAddr then on_state (ApplyChainFromWitnessGroup target (UnitNumber c) None 1)
        else
          let! groupIndex := on_state (read (GetGroupIndexFromUser (Caller c))) in
          on_state (applyWitnessWithGroup target (UnitNumber c) None groupIndex 1)
    | Err e => fail e
    end.
Definition ApplyWitness (c : Ctx) (input : bytes) : SC (DB * Z) Z := createWitness c zeroAddress input.

Definition Bn256PairingBaseGas : Z := 100000.
(** The first nonce whose address is not taken; every try costs gas. *)
Fixpoint free_address (fuel : nat) (from : Address) (vmMagic nonce : Z) : SC (DB * Z) Address :=
  match fuel with
  | O => fail NoFuel
  | S fuel =>
      UseGas Bn256PairingBaseGas;;;
      let newAddr := GenerateContractAddress from vmMagic nonce in
      UseGas (SstoreLoadGas + SstoreSetGas);;;
      let! taken := on_state (gets (ExistContractAddress newAddr)) in
      if (taken : bool) then free_address fuel from vmMagic (u64 (nonce + 1)) else ret newAddr
  end.
Definition CreateContract (c : Ctx) (time : Z) (input : bytes) : SC (DB * Z) (Address * Z) :=
  if (length input <=? 2)%nat then fail ErrInput
  else
    let from := Caller c in
    let vmMagic := be_value (take 2 input) in
    let! newAddr := (fun w => free_address (Z.to_nat (snd w) + 1) from vmMagic time w) in
    on_state (WriteChainCreater from newAddr);;;
    let! groupIndex := createWitness c newAddr [] in
    ret (newAddr, groupIndex).

(** Nothing but the chain's status changes; the replacement itself is decided
    by the system's witnesses. *)
Definition replaceWitness (c : Ctx) (target : Address) (replaceByOther : bool) : SC (DB * Z) Z :=
  let number := Word.Uint64 (UnitNumber c) in
  if Empty target then fail ErrInvalidTarget
  else if bool_decide (target = SCAccount) then fail ErrSystemChain
  else
    UseGas SstoreLoadGas;;;
    let! arbitration := on_state (gets (GetChainArbitrationNumber target)) in
    if arbitration >? 0 then fail ErrArbitration
    else
      UseGas (SstoreSetGas * 2 + SloadGas * 2);;;
      let! groupIndex := on_state (read (GetGroupIndexFromUser target)) in
      UseGas (SloadGas * 2);;;
      let! st := on_state (gets (GetChainStatus target)) in
      let '(chainStatus, statusNumber) := (st : Z * Z) in
      (if chainStatus =? ChainStatusNormal then
         UseGas SstoreLoadGas;;;
         if replaceByOther then ret tt
         else
           let! lastNumber := on_state (gets (getChainLastWitnessNumber target)) in
           if number <? u64 (lastNumber + ReplaceWitnessInterval) then
             UseGas SloadGas;;;
             let! l := on_state (gets (Len (GetWitnessSet groupIndex))) in
             if l >=? ConfigParamsUCMinVotings then fail ErrTooEarly else ret tt
           else ret tt
       else if chainStatus =? ChainStatusWitnessReplaceUnderway then
         UseGas SloadGas;;;
         if negb (GetChainStatusIsTimeout statusNumber number) then fail ErrUnderway else ret tt
       else ret tt);;;
      let! newGroupIndex := on_state (selectNewGroup (Some groupIndex) (UnitNumber c) target) in
      UseGas SstoreSetGas;;;
      on_state (WriteChainStatus target ChainStatusWitnessReplaceUnderway number newGroupIndex);;;
      ret 0.

Definition HandleApplyWitnessWay2 (c : Ctx) chain : SC (DB * Z) unit :=
  UseGas (SloadGas * 10);;;
  if Empty chain then fail ErrInvalidTarget
  else if bool_decide (Caller c = chain) then fail ErrYourself
  else if bool_decide (chain = SCAccount) then fail ErrSystemChain
  else
    UseGas (SloadGas * 2);;;
    (if IsContract chain then
       UseGas SloadGas;;;
       let! known := on_state (gets (ExistContractAddress chain)) in
       if negb known then fail ErrNoContract else ret tt
     else ret tt);;;
    let! group := on_state (gets (GetGroupIndexFromUser chain)) in
    match group with
    | Err ErrChainMissingWitness =>
        UseGas (SloadGas * 2000);;;
        on_state (ApplyChainFromWitnessGroup chain (UnitNumber c) None 1);;;
        ret tt
    | Err e => fail e
    | Ok groupIndex =>
        UseGas SloadGas;;;
        let! active := on_state (gets (GetWitnessCountAt groupIndex)) in
        (if active >=? ConfigParamsUCMinVotings then
           let! good := on_state (haveGoodHeartbeatOnGroup groupIndex
                          (Word.ForceSafeSub (CalcRound (Word.Uint64 (UnitNumber c))) 5)) in
           if (good : bool) then fail ErrEnoughWitnesses else ret tt
         else ret tt);;;
        replaceWitness c chain true;;;
        ret tt
    end.

End Duty.
End Duty.
