(* ===== verification/ScMembers.v ===== *)
(** Who is in which witness group: the sets in the contract's storage as a list
    of groups, and what the moves between groups do to it. *)
From stdpp Require Import gmap list.
From S2P Require Import Prelude Bech32 Address EvmWord EvmState StateDb GoSort ScStore ScSets ScGroup.

Import Db Store Sets Address Group.

Module Members.

(** The element of an address in a set. *)
Definition member (a : Address) : Hash := value2hash (VAddress a).
Definition valid_address (a : Address) : Prop :=
  length (hash a) = AddressLength /\ Forall (fun b => is_byte b) (hash a).
Abbreviation is_address x := (0 <= x < 2 ^ 160).

Lemma member_value a : valid_address a -> member a = be_value (hash a) /\ is_address (member a).
Proof.
  intros [L B]. unfold member, value2hash, BytesToHash. rewrite L. cbn.
  split; [done|]. pose proof (be_value_range _ B) as H. rewrite L in H. exact H.
Qed.

Lemma hash_of_address x : is_address x -> hash (hash_address x) = be_bytes 20 x.
Proof.
  intros H. unfold hash_address, BytesToAddress. cbn [hash]. unfold hash_bytes.
  rewrite !length_be_bytes. cbn -[be_bytes]. rewrite length_drop, length_be_bytes. cbn -[be_bytes].
  change (be_bytes 32 x) with (be_bytes (12 + 20) x).
  assert (forall n m v, be_bytes (n + m) v = be_bytes n (v / 256 ^ Z.of_nat m) ++ be_bytes m v) as E.
  { intros n m. induction m as [|m IH]; intros v; cbn [be_bytes].
    - rewrite Nat.add_0_r, app_nil_r. cbn. by rewrite Z.div_1_r.
    - rewrite Nat.add_succ_r. cbn [be_bytes]. rewrite IH, app_assoc, Z.div_div by lia.
      by rewrite Nat2Z.inj_succ, Z.pow_succ_r by lia. }
  rewrite E, drop_app_length' by (by rewrite length_be_bytes). done.
Qed.

Lemma hash_address_valid x : is_address x -> valid_address (hash_address x).
Proof.
  intros H. unfold valid_address. rewrite hash_of_address by done. split; [apply length_be_bytes|apply be_bytes_range].
Qed.
Lemma member_hash_address x : is_address x -> member (hash_address x) = x.
Proof.
  intros H. destruct (member_value (hash_address x)) as [-> _]; [by apply hash_address_valid|].
  rewrite hash_of_address, be_value_be_bytes by done. apply Z.mod_small. exact H.
Qed.

Lemma hash_address_inj x y :
  is_address x -> is_address y -> hash (hash_address x) = hash (hash_address y) -> x = y.
Proof.
  intros Hx Hy E. rewrite !hash_of_address in E by done. apply (f_equal be_value) in E.
  rewrite !be_value_be_bytes in E. by rewrite !Z.mod_small in E by (exact Hx || exact Hy).
Qed.

Lemma hash_address_member a : valid_address a -> hash (hash_address (member a)) = hash a.
Proof.
  intros V. destruct (member_value a V) as [E W]. rewrite hash_of_address by done. rewrite E.
  destruct V as [L B]. pose proof (be_bytes_be_value (hash a) B) as H. by rewrite L in H.
Qed.

Section Members.
Context {DB : Type} {ST : Storage DB} {SO : StorageOk DB ST} {C : ScCodec} {CO : ScCodecOk C}.
Context {EV : Events DB} {EO : EventsOk DB ST SO EV} {P : Params}.

(** The one key of the contract that is no hash is no hash's value either. *)
Hypothesis count_key_fresh : forall x, SafeHash256 x <> PrefixWitnessGroupCount.

Implicit Types (db : DB) (gs : list (list Hash)).

(** The groups as lists: the system's, then the users'; every set beyond is
    empty. *)
Record groups db gs : Prop := {
  g_ok : storage_ok db;
  g_count : GetWitnessGroupCount db = Z.of_nat (length gs);
  g_some : (0 < length gs)%nat;
  g_set i : is_u64 i -> holds (GetWitnessSet i) db (default [] (gs !! Z.to_nat i));
  g_addresses g x : g ∈ gs -> x ∈ g -> is_address x;
  g_once : NoDup (concat gs);
  g_size i g : (0 < i)%nat -> gs !! i = Some g -> (length g <= 11)%nat
}.

Definition group_key (x : Hash) : Hash :=
  item_key (witness_item (hash_address x)) (Str (str "group_index")).

(** The record of every witness names its group. *)
Definition indexed db gs : Prop :=
  forall i g x, gs !! i = Some g -> x ∈ g -> load (group_key x) db = Z.of_nat i.

(** ** Slots *)

Definition group_slot (k : Hash) : Prop :=
  k = PrefixWitnessGroupCount \/ exists i, is_u64 i /\ owns (GetWitnessSet i) k.

Record keeps (slots : Hash -> Prop) db db' : Prop := {
  k_ok : storage_ok db';
  k_load k : slots k -> load k db' = load k db
}.

Lemma keepsQ_trans Q db1 db2 db3 : keeps Q db1 db2 -> keeps Q db2 db3 -> keeps Q db1 db3.
Proof. intros [O1 L1] [O2 L2]. split; [done|]. intros k Hk. by rewrite L2, L1. Qed.

Lemma groups_keeps db db' gs : keeps group_slot db db' -> groups db gs -> groups db' gs.
Proof.
  intros [O E] G. split; try apply G; [done| |].
  - unfold GetWitnessGroupCount. rewrite E by (by left). apply G.
  - intros i Hi. apply (holds_ext _ db); [done| |by apply G]. intros k Hk. apply E. right. by exists i.
Qed.

Lemma owned_sub s k : owns s k -> exists x, k = subKey s x.
Proof.
  intros [->|[(i & _ & ->)|(v & _ & ->)]]; unfold length_key, index_key, value_key; eauto.
Qed.

Definition foreign (s : list rlp_value) : Prop := forall i x y, s ++ x <> GetWitnessSet i ++ y.

Lemma foreign_slot s x : foreign s -> ~ group_slot (subKey s x).
Proof.
  intros N [H|(i & _ & H)].
  - by apply count_key_fresh in H.
  - apply owned_sub in H as [y H]. apply SafeHash256_inj in H. by apply N in H.
Qed.

Lemma foreign_witness a : foreign (witness_item a).
Proof. intros i x y. discriminate. Qed.
Lemma foreign_chain a : foreign (chain_item a).
Proof. intros i x y. discriminate. Qed.
Lemma foreign_chains j : foreign (GetChainsSet j).
Proof. intros i x y. discriminate. Qed.

Lemma keeps_save (Q : Hash -> Prop) k v db : storage_ok db -> ~ Q k -> keeps Q db (save k v db).
Proof.
  intros O N. split; [by apply save_ok|]. intros k' Hk'. rewrite load_save by done.
  rewrite decide_False; [done|]. by intros ->.
Qed.
Lemma keeps_SaveSub it key v db : storage_ok db -> foreign it -> keeps group_slot db (SaveSub it key v db).
Proof. intros O N. apply keeps_save; [done|]. by apply foreign_slot. Qed.
Lemma keeps_AddLog Q t d db : storage_ok db -> keeps Q db (AddLog t d db).
Proof. intros O. split; [by apply AddLog_ok|]. intros k _. by apply load_AddLog. Qed.
Lemma keeps_only s db db' : foreign s -> only s db db' -> keeps group_slot db db'.
Proof.
  intros N [O E]. split; [done|]. intros k Hk. apply E. intros (x & ->)%owned_sub. by apply (foreign_slot s x N).
Qed.

Lemma GetWitnessSet_inj i j : is_u64 i -> is_u64 j -> GetWitnessSet i = GetWitnessSet j -> i = j.
Proof.
  intros Hi Hj E. assert (uint i = uint j) by (unfold GetWitnessSet in E; congruence). by apply uint_inj.
Qed.

(** ** One set changes *)

Lemma concat_insert gs i g l :
  gs !! i = Some g -> concat gs ≡ₚ g ++ concat (delete i gs) /\ concat (<[i := l]> gs) ≡ₚ l ++ concat (delete i gs).
Proof.
  intros E. pose proof (lookup_lt_Some _ _ _ E) as L. rewrite insert_take_drop by done.
  rewrite <- (take_drop_middle gs i g E) at 1. rewrite delete_take_drop, !concat_app. cbn.
  split; apply Permutation_app_swap_app.
Qed.

Lemma count_u64 db gs i : groups db gs -> (i <= length gs)%nat -> (i < length gs)%nat -> is_u64 (Z.of_nat i).
Proof.
  intros G _ Hi. pose proof (g_count _ _ G) as H. unfold GetWitnessGroupCount, Word.Uint64, u64 in H.
  destruct (_ =? 0); [lia|]. pose proof (Z.mod_pos_bound (load PrefixWitnessGroupCount db) (2 ^ 64)). lia.
Qed.

Lemma groups_update db db' gs i g l :
  groups db gs -> gs !! i = Some g -> only (GetWitnessSet (Z.of_nat i)) db db' ->
  holds (GetWitnessSet (Z.of_nat i)) db' l -> (forall x, x ∈ l -> is_address x) ->
  NoDup (concat (<[i := l]> gs)) -> ((0 < i)%nat -> (length l <= 11)%nat) ->
  groups db' (<[i := l]> gs).
Proof.
  intros G E On H A N S. pose proof (lookup_lt_Some _ _ _ E) as L.
  assert (is_u64 (Z.of_nat i)) as Hi by (apply (count_u64 db gs); [done|lia|done]).
  split; rewrite ?length_insert; try done.
  - apply On.
  - unfold GetWitnessGroupCount. rewrite (on_load _ _ _ On); [apply G|].
    intros (x & Hx)%owned_sub. symmetry in Hx. by apply count_key_fresh in Hx.
  - apply G.
  - intros j Hj. destruct (decide (Z.to_nat j = i)) as [<-|Ne].
    + rewrite list_lookup_insert_eq by done. by rewrite Z2Nat.id in H by lia.
    + rewrite list_lookup_insert_ne by done. eapply holds_other; [| |exact On|by apply G]; [done|].
      intros X%GetWitnessSet_inj; [|done..]. lia.
  - intros l' x [j Ej]%list_elem_of_lookup Hx. apply list_lookup_insert_Some in Ej as [(-> & -> & _)|[_ Ej]].
    + by apply A.
    + eapply G; [eapply list_elem_of_lookup_2; exact Ej|exact Hx].
  - intros j l' Hj Ej. apply list_lookup_insert_Some in Ej as [(-> & -> & _)|[_ Ej]]; [by apply S|by eapply G].
Qed.

(** Where members are. *)
Lemma in_groups gs i g x : gs !! i = Some g -> x ∈ g -> x ∈ concat gs.
Proof. intros E Hx. rewrite (proj1 (concat_insert gs i g g E)). set_solver. Qed.

Lemma one_group db gs i j g g' x :
  groups db gs -> gs !! i = Some g -> gs !! j = Some g' -> x ∈ g -> x ∈ g' -> i = j.
Proof.
  intros G Ei Ej Hx Hx'. destruct (decide (i = j)) as [|N]; [done|exfalso].
  pose proof (g_once _ _ G) as D. rewrite (proj1 (concat_insert gs i g g Ei)) in D.
  apply list.NoDup_app in D as (_ & D & _). apply (D x Hx).
  apply list_elem_of_In, in_concat. exists g'. rewrite <- !list_elem_of_In. split; [|done].
  apply list_elem_of_lookup. destruct (decide (j < i)%nat).
  - exists j. by rewrite list_lookup_delete_lt.
  - exists (j - 1)%nat. rewrite list_lookup_delete_ge by lia. by replace (S (j - 1)) with j by lia.
Qed.

Lemma group_words db gs i g : groups db gs -> gs !! i = Some g -> NoDup g /\ (forall x, x ∈ g -> is_address x).
Proof.
  intros G E. split.
  - pose proof (g_once _ _ G) as N. rewrite (proj1 (concat_insert gs i g g E)) in N. apply list.NoDup_app in N. apply N.
  - intros x. eapply G. by eapply list_elem_of_lookup_2.
Qed.

Lemma group_holds db gs i g :
  groups db gs -> gs !! i = Some g -> holds (GetWitnessSet (Z.of_nat i)) db g.
Proof.
  intros G E. pose proof (lookup_lt_Some _ _ _ E). pose proof (g_set _ _ G (Z.of_nat i)) as H'.
  rewrite Nat2Z.id, E in H'. apply H'. by apply (count_u64 db gs i G); [lia|].
Qed.

Lemma GetWitnessCountAt_spec db gs i g :
  groups db gs -> gs !! i = Some g -> GetWitnessCountAt (Z.of_nat i) db = Z.of_nat (length g).
Proof. intros G E. by apply Len_spec, (group_holds db gs). Qed.

Lemma GetWitnessListAt_spec db gs i g :
  groups db gs -> gs !! i = Some g -> GetWitnessListAt (Z.of_nat i) db = map hash_address g.
Proof. intros G E. unfold GetWitnessListAt. f_equal. by apply elements_spec, (group_holds db gs). Qed.

Lemma groups_add db gs i g a :
  groups db gs -> gs !! i = Some g -> valid_address a -> member a ∉ concat gs ->
  ((0 < i)%nat -> (length g < 11)%nat) -> is_u64 (Z.of_nat (length g) + 1) ->
  groups (add_to (GetWitnessSet (Z.of_nat i)) a db) (<[i := g ++ [member a]]> gs) /\
  only (GetWitnessSet (Z.of_nat i)) db (add_to (GetWitnessSet (Z.of_nat i)) a db).
Proof.
  intros G E V N S R. destruct (member_value a V) as [_ W].
  destruct (SetAdd_spec (GetWitnessSet (Z.of_nat i)) db g (VAddress a)) as (_ & H & On); [by apply (group_holds db gs)| | |done|].
  { intros Hin. by apply N, (in_groups gs i g). }
  { unfold member in W. lia. }
  split; [|exact On]. apply (groups_update db _ gs i g); try done.
  - intros x [Hx|Hx%list_elem_of_singleton]%elem_of_app; [by eapply group_words|by subst].
  - destruct (concat_insert gs i g (g ++ [member a]) E) as [P1 P2]. rewrite P2.
    pose proof (g_once _ _ G) as D. rewrite P1 in D, N. rewrite <- app_assoc. cbn [app].
    rewrite <- Permutation_middle. apply list.NoDup_cons. split; [set_solver|done].
  - intros Hi. rewrite length_app. cbn. pose proof (S Hi). lia.
Qed.

Lemma groups_remove db gs i g k x :
  groups db gs -> gs !! i = Some g -> g !! k = Some x ->
  groups (snd (RemoveOrder (GetWitnessSet (Z.of_nat i)) (Z.of_nat k) db)) (<[i := delete k g]> gs) /\
  only (GetWitnessSet (Z.of_nat i)) db (snd (RemoveOrder (GetWitnessSet (Z.of_nat i)) (Z.of_nat k) db)).
Proof.
  intros G E Ex. destruct (RemoveOrder_spec (GetWitnessSet (Z.of_nat i)) db g k x) as (_ & H & On);
    [by apply (group_holds db gs)|done|]. split; [|exact On].
  apply (groups_update db _ gs i g); try done.
  - intros y Hy. eapply group_words; [exact G|exact E|]. rewrite (delete_Permutation g k x Ex). set_solver.
  - destruct (concat_insert gs i g (delete k g) E) as [P1 P2]. rewrite P2.
    pose proof (g_once _ _ G) as D. rewrite P1, (delete_Permutation g k x Ex) in D. by inversion D.
  - intros Hi. pose proof (g_size _ _ G i g Hi E). rewrite length_delete by done. lia.
Qed.

(** ** A witness moves *)

Definition ledger db gs : Prop := groups db gs /\ indexed db gs.

Lemma group_key_inj x y : is_address x -> is_address y -> group_key x = group_key y -> x = y.
Proof.
  intros Hx Hy E. apply SafeHash256_inj in E. unfold witness_item, addr_value in E. cbn [app] in E.
  apply hash_address_inj; [done..|congruence].
Qed.

Lemma record_only i db db' x :
  only (GetWitnessSet i) db db' -> load (group_key x) db' = load (group_key x) db.
Proof.
  intros [_ E]. apply E. intros (y & H)%owned_sub. apply SafeHash256_inj in H. by apply (foreign_witness (hash_address x)) in H.
Qed.

Lemma record_update x y n db :
  storage_ok db -> is_address x -> is_address y ->
  load (group_key y) (updateWitnessGroupIndex (hash_address x) n db) =
  if decide (y = x) then n else load (group_key y) db.
Proof.
  intros O Hx Hy. unfold updateWitnessGroupIndex, SaveSub. rewrite load_save by done. cbn [value2hash].
  fold (group_key x). destruct (decide (y = x)) as [->|N]; [by rewrite decide_True|].
  rewrite decide_False; [done|]. intros E. by apply N, group_key_inj.
Qed.

Lemma emit_fits e args db :
  fits e args = true -> storage_ok db ->
  exists d, emit e args db = (Ok tt, AddLog (Id e) d db).
Proof.
  intros F O. unfold emit. pose proof (Pack_fits e args F) as N. destruct (Pack e args) as [d|]; [|done].
  by exists d.
Qed.

Lemma groups_update_record db gs x n :
  groups db gs -> groups (updateWitnessGroupIndex x n db) gs.
Proof. intros G. apply (groups_keeps db); [|done]. apply keeps_SaveSub; [apply G|apply foreign_witness]. Qed.

Definition move (o n : nat) (x : Hash) (l m : list Hash) gs : list (list Hash) := <[n := m ++ [x]]> (<[o := l]> gs).

Lemma moved_groups db gs o n x l m :
  groups db gs -> gs !! o = Some (x :: l) -> gs !! n = Some m -> o <> n -> (length m < 11)%nat ->
  let db1 := snd (RemoveOrder (GetWitnessSet (Z.of_nat o)) 0 db) in
  let db2 := add_to (GetWitnessSet (Z.of_nat n)) (hash_address x) db1 in
  groups db2 (move o n x l m gs) /\ forall y, load (group_key y) db2 = load (group_key y) db.
Proof.
  intros G Eo En Ne Hm db1 db2. assert (is_address x) as Hx by (eapply group_words; [exact G|exact Eo|set_solver]).
  destruct (groups_remove db gs o (x :: l) 0 x G Eo eq_refl) as [G1 O1].
  destruct (groups_add db1 (<[o := l]> gs) n m (hash_address x)) as [G2 O2].
  - exact G1.
  - by rewrite list_lookup_insert_ne.
  - by apply hash_address_valid.
  - rewrite member_hash_address by done. pose proof (g_once _ _ G) as D.
    destruct (concat_insert gs o (x :: l) l Eo) as [P1 P2]. rewrite P1 in D. rewrite P2. by inversion D.
  - done.
  - lia.
  - rewrite member_hash_address in G2 by done. split; [exact G2|]. intros y.
    unfold db2. rewrite (record_only _ _ _ _ O2). exact (record_only _ _ _ _ O1).
Qed.

Lemma moved_records db db2 gs o n x l m :
  ledger db gs -> gs !! o = Some (x :: l) -> gs !! n = Some m -> o <> n -> (0 < n)%nat ->
  groups db2 (move o n x l m gs) -> (forall y, load (group_key y) db2 = load (group_key y) db) ->
  ledger (updateWitnessGroupIndex (hash_address x) (Z.of_nat n) db2) (move o n x l m gs).
Proof.
  intros [G I] Eo En Ne Hn G2 E. split; [by apply groups_update_record|].
  assert (is_address x) as Hx by (eapply group_words; [exact G|exact Eo|set_solver]).
  assert (move o n x l m gs !! n = Some (m ++ [x])) as Em.
  { unfold move. rewrite list_lookup_insert_eq; [done|]. rewrite length_insert. by eapply lookup_lt_Some. }
  intros i g y Eg Hy. pose proof (proj2 (group_words _ _ _ _ G2 Eg) y Hy) as Ay.
  rewrite record_update by (first [exact Hx | exact Ay | apply (g_ok _ _ G2)]). destruct (decide (y = x)) as [->|Nx].
  - f_equal. symmetry. apply (one_group _ _ _ _ _ _ x G2 Eg Em); set_solver.
  - rewrite E. unfold move in Eg. apply list_lookup_insert_Some in Eg as [(<- & <- & _)|[_ Eg]].
    + apply (I n m y En). set_solver.
    + apply list_lookup_insert_Some in Eg as [(<- & <- & _)|[_ Eg]]; [|by apply (I i g y)].
      apply (I o (x :: l) y Eo). set_solver.
Qed.

Lemma ledger_AddLog t d db gs : ledger db gs -> ledger (AddLog t d db) gs.
Proof.
  intros [G I]. split; [apply (groups_keeps db); [apply keeps_AddLog, G|done]|].
  intros i g y Eg Hy. rewrite load_AddLog by apply G. by apply (I i g y).
Qed.

Lemma Exist_member db gs i g a k :
  groups db gs -> gs !! i = Some g -> is_address (member a) -> g !! k = Some (member a) ->
  Exist (GetWitnessSet (Z.of_nat i)) db (VAddress a) = Some (Z.of_nat k).
Proof.
  intros G E Ha Ek. destruct (Exist_spec (GetWitnessSet (Z.of_nat i)) db g (VAddress a)) as [H _];
    [by apply (group_holds db gs)|unfold member in Ha; lia|]. by apply H.
Qed.

Lemma removeWtinessGroup_spec db gs o n x l m :
  ledger db gs -> gs !! o = Some (x :: l) -> gs !! n = Some m -> o <> n -> (0 < n)%nat -> (length m < 11)%nat ->
  exists db', removeWtinessGroup (hash_address x) (Z.of_nat o) (Z.of_nat n) db = (Ok tt, db') /\
              ledger db' (move o n x l m gs).
Proof.
  intros L Eo En Ne Hn Hm. pose proof L as [G _].
  assert (is_address x) as Hx by (eapply group_words; [exact G|exact Eo|set_solver]).
  destruct (moved_groups db gs o n x l m G Eo En Ne Hm) as [G2 E2].
  pose proof (moved_records db _ gs o n x l m L Eo En Ne Hn G2 E2) as L3.
  pose proof (member_hash_address x Hx) as Ex.
  pose proof (Exist_member db gs o (x :: l) (hash_address x) 0 G Eo) as HE.
  rewrite Ex in HE. specialize (HE Hx eq_refl).
  unfold removeWtinessGroup. destruct (Z.eqb_spec (Z.of_nat o) (Z.of_nat n)) as [|_]; [lia|].
  unfold bind at 1, gets. rewrite HE. change (Z.of_nat 0) with 0. unfold bind, puts, AddWitnessGroupChangedEvent.
  destruct (emit_fits WitnessGroupChangedEvent
    [AbiAddress (hash_address x); AbiUint16 (uint16 (Z.of_nat o)); AbiUint16 (uint16 (Z.of_nat n))]
    _ eq_refl (g_ok _ _ (proj1 L3))) as [d Ed].
  rewrite Ed. eexists. split; [reflexivity|]. by apply ledger_AddLog.
Qed.

End Members.
End Members.
