(* ===== verification/ScRegroup.v ===== *)
(** [fixWitnessGroup]: what becomes of the groups when one has lost a witness. *)
From stdpp Require Import gmap list.
From S2P Require Import Prelude Bech32 Address EvmWord EvmState StateDb GoSort ScStore ScSets ScGroup ScMembers.

Import Db Store Sets Address Group Members.

Module Regroup.

(** The same witnesses in as many groups, the system's group untouched. *)
Record reshuffled (gs gs' : list (list Hash)) : Prop := {
  re_length : length gs' = length gs;
  re_first : gs' !! 0%nat = gs !! 0%nat;
  re_all : concat gs' ≡ₚ concat gs
}.

Lemma reshuffled_refl gs : reshuffled gs gs.
Proof. by split. Qed.
Lemma reshuffled_trans gs1 gs2 gs3 : reshuffled gs1 gs2 -> reshuffled gs2 gs3 -> reshuffled gs1 gs3.
Proof. intros [L1 F1 A1] [L2 F2 A2]. split; [congruence..|]. by rewrite A2, A1. Qed.

Section Move.
Context (gs : list (list Hash)) (o n : nat) (x : Hash) (l m : list Hash).
Context (Eo : gs !! o = Some (x :: l)) (En : gs !! n = Some m) (Ne : o <> n).

Lemma move_from : move o n x l m gs !! o = Some l.
Proof.
  unfold move. rewrite list_lookup_insert_ne by done. apply list_lookup_insert_eq. by eapply lookup_lt_Some.
Qed.
Lemma move_to : move o n x l m gs !! n = Some (m ++ [x]).
Proof. unfold move. apply list_lookup_insert_eq. rewrite length_insert. by eapply lookup_lt_Some. Qed.
Lemma move_other j : j <> o -> j <> n -> move o n x l m gs !! j = gs !! j.
Proof. intros No Nn. unfold move. by rewrite !list_lookup_insert_ne. Qed.
Lemma move_reshuffled : (0 < o)%nat -> (0 < n)%nat -> reshuffled gs (move o n x l m gs).
Proof.
  intros Ho Hn. split.
  - unfold move. by rewrite !length_insert.
  - apply move_other; lia.
  - destruct (concat_insert gs o (x :: l) l Eo) as [P1 P2].
    assert (<[o := l]> gs !! n = Some m) as En' by (by rewrite list_lookup_insert_ne).
    destruct (concat_insert (<[o := l]> gs) n m (m ++ [x]) En') as [P3 P4]. unfold move.
    rewrite P4, P1, <- app_assoc. cbn [app]. rewrite <- Permutation_middle, <- P3, P2. done.
Qed.
End Move.

Lemma insert_Permutation {A} (i : nat) (x y : A) (l : list A) : l !! i = Some x -> <[i := y]> l ≡ₚ y :: delete i l.
Proof.
  intros E. rewrite insert_take_drop by (by eapply lookup_lt_Some). rewrite delete_take_drop.
  by rewrite <- Permutation_middle.
Qed.

Section Regroup.
Context {DB : Type} {ST : Storage DB} {SO : StorageOk DB ST} {C : ScCodec} {CO : ScCodecOk C}.
Context {EV : Events DB} {EO : EventsOk DB ST SO EV} {P : Params}.
Hypothesis count_key_fresh : forall x, SafeHash256 x <> PrefixWitnessGroupCount.

Implicit Types (db : DB) (gs : list (list Hash)).

(** ** Filling up from the groups below the minimum *)

Lemma move_up_spec p r l db gs gr :
  ledger db gs -> gs !! p = Some l -> gs !! r = Some gr -> p <> r -> (0 < p)%nat -> (0 < r)%nat ->
  (length gr < 11)%nat ->
  exists db' gs' l' xs,
    move_up (map hash_address l) (Z.of_nat p) (Z.of_nat r) (11 - Z.of_nat (length gr)) db
      = (Ok (11 - Z.of_nat (length (gr ++ xs))), db') /\
    ledger db' gs' /\ reshuffled gs gs' /\ gs' !! p = Some l' /\ gs' !! r = Some (gr ++ xs) /\
    (forall j, j <> p -> j <> r -> gs' !! j = gs !! j) /\
    (length (gr ++ xs) <= 11)%nat /\ (length (gr ++ xs) = 11%nat \/ l' = []).
Proof.
  revert db gs gr. induction l as [|x l IH]; intros db gs gr L Ep Er Ne Hp Hr Hn; cbn [map move_up].
  - exists db, gs, [], []. rewrite app_nil_r. unfold ret. split_and!; try done; [lia|by right].
  - destruct (removeWtinessGroup_spec count_key_fresh db gs p r x l gr L Ep Er Ne Hr Hn) as (db1 & E1 & L1).
    unfold bind at 1. rewrite E1. cbv zeta. rewrite u64_small by lia.
    assert (move p r x l gr gs !! p = Some l) as Ep1 by (by eapply move_from).
    assert (move p r x l gr gs !! r = Some (gr ++ [x])) as Er1 by (by eapply move_to).
    assert (reshuffled gs (move p r x l gr gs)) as R1 by (by eapply move_reshuffled).
    assert (length (gr ++ [x]) = length gr + 1)%nat as Hl by (rewrite length_app; cbn; lia).
    destruct (Z.eqb_spec (11 - Z.of_nat (length gr) - 1) 0) as [Ez|Nz].
    + exists db1, (move p r x l gr gs), l, [x]. split_and!; try done; [|by apply move_other|lia|left; lia].
      unfold ret. do 2 f_equal. lia.
    + destruct (IH db1 (move p r x l gr gs) (gr ++ [x])) as (db' & gs' & l' & xs & E & L' & R' & Ep' & Er' & O' & Hlen & F);
        try done; [lia|].
      exists db', gs', l', (x :: xs). rewrite <- app_assoc in *. cbn [app] in *.
      split_and!; try done.
      * rewrite <- E. f_equal. lia.
      * by eapply reshuffled_trans.
      * intros j Nj Nj'. rewrite O' by done. by apply move_other.
Qed.

(** Groups that are empty or above the minimum need no help. *)
Definition settled (gs : list (list Hash)) (r j : nat) : Prop :=
  forall g, (0 < j)%nat -> j <> r -> gs !! j = Some g -> g = [] \/ (8 <= length g)%nat.

Lemma refill_spec n i r db gs gr :
  ledger db gs -> gs !! r = Some gr -> (0 < r)%nat -> (0 < i)%nat -> (length gr < 11)%nat ->
  (length gs <= i + n)%nat -> (forall j, (j < i)%nat -> settled gs r j) ->
  exists db' gs' xs,
    refill n (Z.of_nat i) (Z.of_nat r) (11 - Z.of_nat (length gr)) db = (Ok tt, db') /\
    ledger db' gs' /\ reshuffled gs gs' /\ gs' !! r = Some (gr ++ xs) /\
    (length (gr ++ xs) = 11%nat \/ forall j, settled gs' r j).
Proof.
  revert i db gs gr. induction n as [|n IH]; intros i db gs gr L Er Hr Hi Hn Hs Hd.
  - exists db, gs, []. rewrite app_nil_r. split_and!; try done.
    right. intros j g Hj Nj Ej. pose proof (lookup_lt_Some _ _ _ Ej). apply (Hd j); [lia|done..].
  - cbn [refill]. unfold bind at 1, gets. rewrite (g_count _ _ (proj1 L)).
    destruct (Z.ltb_spec (Z.of_nat i) (Z.of_nat (length gs))) as [Hlt|Hge].
    2: { exists db, gs, []. rewrite app_nil_r. split_and!; try done.
         right. intros j g Hj Nj Ej. pose proof (lookup_lt_Some _ _ _ Ej). apply (Hd j); [lia|done..]. }
    assert (forall gs1, (forall j, (j < i)%nat -> settled gs1 r j) -> settled gs1 r i ->
              forall j, (j < i + 1)%nat -> settled gs1 r j) as Hnext.
    { intros gs1 H1 H2 j Hj. destruct (decide (j = i)) as [->|]; [done|]. apply H1. lia. }
    replace (Z.of_nat i + 1) with (Z.of_nat (i + 1)) by lia.
    destruct (Z.eqb_spec (Z.of_nat i) (Z.of_nat r)) as [Eir|Nir].
    { apply IH; try done; try lia. apply Hnext; [done|]. intros g _ Nr. lia. }
    destruct (lookup_lt_is_Some_2 gs i) as [g Eg]; [lia|].
    unfold bind at 1. rewrite (GetWitnessCountAt_spec db gs i g (proj1 L) Eg).
    change ConfigParamsUCMinVotings with 8. rewrite Z.geb_leb. destruct (Z.leb_spec 8 (Z.of_nat (length g))) as [Hm|Hm].
    { apply IH; try done; try lia. apply Hnext; [done|]. intros g' _ _ Eg'. right. rewrite Eg in Eg'.
      injection Eg' as <-. lia. }
    unfold bind at 1. rewrite (GetWitnessListAt_spec db gs i g (proj1 L) Eg).
    destruct (move_up_spec i r g db gs gr L Eg Er ltac:(lia) Hi Hr Hn)
      as (db1 & gs1 & l1 & xs & E1 & L1 & R1 & Ei1 & Er1 & O1 & H11 & F1).
    unfold bind at 1. rewrite E1. destruct (Z.eqb_spec (11 - Z.of_nat (length (gr ++ xs))) 0) as [Ez|Nz].
    + exists db1, gs1, xs. split_and!; try done. left. lia.
    + destruct F1 as [F1|F1]; [lia|]. subst l1.
      destruct (IH (i + 1)%nat db1 gs1 (gr ++ xs)) as (db' & gs' & ys & E & L' & R' & Er' & D); try done; try lia.
      * rewrite (re_length _ _ R1). lia.
      * apply Hnext; [|intros g' _ _ Eg'; left; congruence].
        intros j Hj g' Hj0 Nj Ej. rewrite O1 in Ej by lia. by apply (Hd j).
      * exists db', gs', (xs ++ ys). rewrite app_assoc. split_and!; try done. by eapply reshuffled_trans.
Qed.

(** ** Dissolving a group *)

(** A group with room, as the loops know it. *)
Definition candidate gs (r : nat) (c : choseGroup) : Prop :=
  exists j g, index c = Z.of_nat j /\ (0 < j)%nat /\ j <> r /\ gs !! j = Some g /\
              witnessCount c = Z.of_nat (length g) /\ (length g < 11)%nat.

(** Every other group is empty, full or a candidate. *)
Definition complete gs (r : nat) (cache : list choseGroup) : Prop :=
  forall j g, (0 < j)%nat -> j <> r -> gs !! j = Some g ->
              g = [] \/ length g = 11%nat \/ Z.of_nat j ∈ map index cache.

Record candidates gs (r : nat) (cache : list choseGroup) : Prop := {
  ca_all : Forall (candidate gs r) cache;
  ca_once : NoDup (map index cache);
  ca_complete : complete gs r cache
}.

Lemma candidates_Permutation gs r cache cache' : cache ≡ₚ cache' -> candidates gs r cache -> candidates gs r cache'.
Proof.
  intros E [A O Cm]. split.
  - by rewrite <- E.
  - by rewrite <- E.
  - intros j g Hj Nj Ej. rewrite <- E. by apply Cm.
Qed.

Lemma find_lacking_spec db gs r n i :
  groups db gs -> (0 < i)%nat -> (length gs <= i + n)%nat ->
  let cache := find_lacking n (Z.of_nat i) (Z.of_nat r) db in
  Forall (fun c => candidate gs r c /\ Z.of_nat i <= index c) cache /\ NoDup (map index cache) /\
  (forall j g, (i <= j)%nat -> j <> r -> gs !! j = Some g ->
               g = [] \/ length g = 11%nat \/ Z.of_nat j ∈ map index cache).
Proof.
  revert i. induction n as [|n IH]; intros i G Hi Hs; cbn [find_lacking].
  - cbn. split_and!; [constructor|constructor|]. intros j g Hj _ Ej. pose proof (lookup_lt_Some _ _ _ Ej). lia.
  - rewrite (g_count _ _ G). destruct (Z.ltb_spec (Z.of_nat i) (Z.of_nat (length gs))) as [Hlt|Hge].
    2: { split_and!; [constructor|constructor|]. intros j g Hj _ Ej. pose proof (lookup_lt_Some _ _ _ Ej). lia. }
    destruct (lookup_lt_is_Some_2 gs i) as [g Eg]; [lia|].
    rewrite (GetWitnessCountAt_spec db gs i g G Eg). change ConfigParamsUCWitness with 11.
    replace (Z.of_nat i + 1) with (Z.of_nat (i + 1)) by lia.
    destruct (IH (i + 1)%nat G) as (A & O & Cm); [lia..|].
    assert (Forall (fun c => candidate gs r c /\ Z.of_nat i <= index c)
              (find_lacking n (Z.of_nat (i + 1)) (Z.of_nat r) db)) as A'.
    { revert A. apply Forall_impl. intros c [Hc Hc']. split; [done|lia]. }
    destruct (_ || _ || _) eqn:Eb; cbv zeta.
    + split_and!; [done..|]. intros j g' Hj Nj Ej. destruct (decide (j = i)) as [->|]; [|apply Cm; [lia|done..]].
      rewrite Eg in Ej. injection Ej as <-. apply orb_prop in Eb as [[Eb|Eb]%orb_prop|Eb].
      * lia.
      * right; left. lia.
      * left. apply Z.eqb_eq in Eb. destruct g; [done|cbn [length] in Eb; lia].
    + apply orb_false_elim in Eb as [[Er Ef]%orb_false_elim Ez]. pose proof (g_size _ _ G i g Hi Eg).
      split_and!.
      * constructor; [|done]. cbn [index]. split; [|lia]. exists i, g. cbn. split_and!; try done; lia.
      * cbn [map index]. apply list.NoDup_cons. split; [|done].
        intros (c & Ec & Hc)%list_elem_of_fmap. rewrite list.Forall_forall in A. destruct (A c Hc). lia.
      * intros j g' Hj Nj Ej. cbn [map index]. rewrite elem_of_cons.
        destruct (decide (j = i)) as [->|]; [by right; right; left|].
        destruct (Cm j g') as [?|[?|?]]; [lia|done|done|by left|by right; left|by right; right; right].
Qed.

Lemma give_spec n r j l db gs m :
  ledger db gs -> gs !! r = Some l -> l <> [] -> gs !! j = Some m -> r <> j -> (0 < r)%nat -> (0 < j)%nat ->
  (length m + n <= 11)%nat ->
  exists db' gs' out,
    give n (map hash_address l) (Z.of_nat r) (Z.of_nat j) db = (Ok out, db') /\
    ledger db' gs' /\ reshuffled gs gs' /\
    match out with
    | None => gs' !! r = Some []
    | Some l' => exists l2 m', l' = map hash_address l2 /\ l2 <> [] /\ length l = (n + length l2)%nat /\
                 gs' !! r = Some l2 /\ gs' !! j = Some m' /\ length m' = (length m + n)%nat /\
                 (forall k, k <> r -> k <> j -> gs' !! k = gs !! k)
    end.
Proof.
  revert l db gs m. induction n as [|n IH]; intros l db gs m L Er Nl Ej Ne Hr Hj Hn; cbn [give].
  - exists db, gs, (Some (map hash_address l)). split_and!; try done. exists l, m. by rewrite Nat.add_0_r.
  - destruct l as [|x l]; [done|]. cbn [map].
    destruct (removeWtinessGroup_spec count_key_fresh db gs r j x l m L Er Ej Ne Hj ltac:(lia)) as (db1 & E1 & L1).
    unfold bind. rewrite E1.
    assert (move r j x l m gs !! r = Some l) as Er1 by (by eapply move_from).
    assert (move r j x l m gs !! j = Some (m ++ [x])) as Ej1 by (by eapply move_to).
    assert (reshuffled gs (move r j x l m gs)) as R1 by (by eapply move_reshuffled).
    destruct l as [|y l]; cbn [map].
    + exists db1, (move r j x [] m gs), None. rewrite bool_decide_true by done. by split_and!.
    + rewrite bool_decide_false by done.
      destruct (IH (y :: l) db1 (move r j x (y :: l) m gs) (m ++ [x])) as (db' & gs' & out & E & L' & R' & O); try done.
      { rewrite length_app. cbn. lia. }
      exists db', gs', out. split_and!; [exact E|done|by eapply reshuffled_trans|].
      destruct out as [l'|]; [|done]. destruct O as (l2 & m' & -> & N2 & Hl & E2 & Em & Hm & O).
      exists l2, m'. split_and!; try done; [cbn in *; lia|rewrite Hm, length_app; cbn; lia|].
      intros k Nr Nj. rewrite O by done. by apply move_other.
Qed.

(** One candidate got new members, nothing else but the dissolved group changed. *)
Lemma candidates_step gs gs' r j c rest m' :
  candidates gs r (c :: rest) -> index c = Z.of_nat j -> gs' !! j = Some m' ->
  (forall k, k <> r -> k <> j -> gs' !! k = gs !! k) ->
  Forall (candidate gs' r) rest /\ NoDup (map index rest) /\ Z.of_nat j ∉ map index rest /\
  (forall k g, (0 < k)%nat -> k <> r -> k <> j -> gs' !! k = Some g ->
               g = [] \/ length g = 11%nat \/ Z.of_nat k ∈ map index rest).
Proof.
  intros [A O Cm] Ec Em E. apply list.Forall_cons in A as [_ A]. cbn [map] in O.
  apply list.NoDup_cons in O as [N O]. rewrite Ec in N. split_and!; [|done|done|].
  - apply list.Forall_forall. intros c' Hc'. rewrite list.Forall_forall in A.
    destruct (A c' Hc') as (k & g & Ei & Hk & Nk & Eg & W). exists k, g. split_and!; try done; try apply W.
    rewrite E; [done..|]. intros ->. apply N. rewrite <- Ei. apply list_elem_of_fmap. by exists c'.
  - intros k g Hk Nr Nj Eg. rewrite E in Eg by done. destruct (Cm k g Hk Nr Eg) as [?|[?|Hin]]; [by left|by right; left|].
    cbn [map] in Hin. rewrite Ec in Hin. apply elem_of_cons in Hin as [|]; [lia|by right; right].
Qed.

Lemma candidates_more gs gs' r j c c' rest m' :
  candidates gs r (c :: rest) -> index c = Z.of_nat j -> gs' !! j = Some m' ->
  (forall k, k <> r -> k <> j -> gs' !! k = gs !! k) -> (length m' < 11)%nat ->
  index c' = index c -> witnessCount c' = Z.of_nat (length m') -> candidates gs' r (c' :: rest).
Proof.
  intros H Ec Em E Hm Ei Ew. destruct (candidates_step _ _ _ _ _ _ _ H Ec Em E) as (A & O & N & Cm).
  pose proof (ca_all _ _ _ H) as Hc. apply list.Forall_cons in Hc as [(j' & g & Ej & Hj & Nj & _) _].
  assert (j' = j) as -> by lia. split.
  - constructor; [|done]. exists j, m'. rewrite Ei. by split_and!.
  - cbn [map]. rewrite Ei, Ec. by apply list.NoDup_cons.
  - intros k g' Hk Nk Eg. cbn [map]. rewrite Ei, Ec, elem_of_cons. destruct (decide (k = j)) as [->|Nkj]; [by right; right; left|].
    destruct (Cm k g' Hk Nk Nkj Eg) as [?|[?|?]]; [by left|by right; left|by right; right; right].
Qed.

Lemma candidates_full gs gs' r j c rest m' :
  candidates gs r (c :: rest) -> index c = Z.of_nat j -> gs' !! j = Some m' ->
  (forall k, k <> r -> k <> j -> gs' !! k = gs !! k) -> length m' = 11%nat -> candidates gs' r rest.
Proof.
  intros H Ec Em E Hm. destruct (candidates_step _ _ _ _ _ _ _ H Ec Em E) as (A & O & N & Cm).
  split; [done..|]. intros k g Hk Nk Eg. destruct (decide (k = j)) as [->|Nkj]; [|by apply Cm].
  right; left. congruence.
Qed.

Lemma length_swap_remove_insert {A} (i : nat) (x : A) (l : list A) :
  (i < length l)%nat -> length (swap_remove i (<[i := x]> l)) = (length l - 1)%nat.
Proof.
  intros Hi. assert (<[i := x]> l !! i = Some x) as E%swap_remove_permutation%Permutation_length
    by (by apply list_lookup_insert_eq).
  rewrite length_insert in E. cbn in E. lia.
Qed.

(** A candidate that is full is replaced by the last one and forgotten. *)
Lemma candidates_after gs gs' r j i c c' cache m' :
  candidates gs r cache -> cache !! i = Some c -> index c = Z.of_nat j -> gs' !! j = Some m' ->
  (forall k, k <> r -> k <> j -> gs' !! k = gs !! k) -> index c' = index c ->
  witnessCount c' = Z.of_nat (length m') -> (length m' <= 11)%nat ->
  candidates gs' r (if (length m' =? 11)%nat then swap_remove i (<[i := c']> cache) else <[i := c']> cache).
Proof.
  intros Ca Ec Ej Em O Ei Ew Hm. pose proof (lookup_lt_Some _ _ _ Ec) as Hi.
  pose proof (candidates_Permutation _ _ _ _ (delete_Permutation cache i c Ec) Ca) as Ca1.
  pose proof (insert_Permutation i c c' cache Ec) as Pc. destruct (Nat.eqb_spec (length m') 11) as [E11|N11].
  - apply (candidates_Permutation _ _ (delete i cache)); [|by eapply candidates_full].
    assert (<[i := c']> cache !! i = Some c') as Ps%swap_remove_permutation by (by apply list_lookup_insert_eq).
    apply (Permutation_cons_inv (a := c')). by rewrite <- Pc.
  - apply (candidates_Permutation _ _ (c' :: delete i cache)); [done|].
    apply (candidates_more gs gs' r j c c' (delete i cache) m'); try done. lia.
Qed.

(** What the loops leave: a dissolved group, or no room anywhere else. *)
Definition dissolved gs' (r : nat) : Prop := gs' !! r = Some [] \/ complete gs' r [].

Definition enough (times : Z) (i nc nl : nat) : nat :=
  if times >? 1 then if (i <? nc)%nat then (2 * nl)%nat else (2 * nl + 1)%nat
  else (nc - i + 1 + 2 * nl)%nat.

Lemma distribute_spec fuel times i cache l r db gs :
  ledger db gs -> gs !! r = Some l -> l <> [] -> (0 < r)%nat -> candidates gs r cache -> 1 <= times ->
  (enough times i (length cache) (length l) <= fuel)%nat ->
  exists db' gs',
    distribute fuel times i cache (map hash_address l) (Z.of_nat r) db = (Ok tt, db') /\
    ledger db' gs' /\ reshuffled gs gs' /\ dissolved gs' r.
Proof.
  revert times i cache l db gs. induction fuel as [|fuel IH]; intros times i cache l db gs L Er Nl Hr Ca Ht Hf;
    (assert (0 < length l)%nat as Hl by (destruct l; [done|cbn; lia])).
  { exfalso. unfold enough in Hf. destruct (_ >? _); [destruct (_ <? _)%nat|]; lia. }
  cbn [distribute]. destruct (cache !! i) as [c|] eqn:Ec.
  2: { apply lookup_ge_None_1 in Ec. destruct cache as [|c0 cache0].
    { rewrite bool_decide_true by done. exists db, gs. split_and!; try done. right. apply Ca. }
    rewrite bool_decide_false by done. apply IH; try done; [lia|]. unfold enough in *.
    rewrite Z.gtb_ltb in *. destruct (Z.ltb_spec 1 (times + 1)); [|lia].
    destruct (Nat.ltb_spec 0 (length (c0 :: cache0))); [|cbn in *; lia].
    destruct (Z.ltb_spec 1 times); [destruct (Nat.ltb_spec i (length (c0 :: cache0)))|]; lia. }
  pose proof (lookup_lt_Some _ _ _ Ec) as Hi.
  rewrite bool_decide_false by (by destruct l).
  pose proof (ca_all _ _ _ Ca) as Hc. rewrite list.Forall_forall in Hc.
  destruct (Hc c (list_elem_of_lookup_2 _ _ _ Ec)) as (j & m & Ej & Hj & Nj & Em & Ew & Hm). clear Hc.
  change ConfigParamsUCMinVotings with 8. change ConfigParamsUCWitness with 11.
  set (lessNeed := if times >? 1 then 1 else _). rewrite Ej.
  destruct (Z.eqb_spec lessNeed 0) as [Z0|NZ].
  { apply IH; try done. unfold enough in *. unfold lessNeed in Z0. rewrite Z.gtb_ltb in *.
    destruct (Z.ltb_spec 1 times); lia. }
  assert (1 <= lessNeed <= 11 - Z.of_nat (length m)) as Hneed.
  { unfold lessNeed in *. rewrite Z.gtb_ltb in *. destruct (Z.ltb_spec 1 times); [lia|].
    destruct (Z.ltb_spec 8 (witnessCount c)); lia. }
  clearbody lessNeed.
  destruct (give_spec (Z.to_nat lessNeed) r j l db gs m L Er Nl Em) as (db1 & gs1 & out & E1 & L1 & R1 & O1);
    try done; [lia|].
  unfold bind at 1. rewrite E1. destruct out as [l'|].
  2: { exists db1, gs1. split_and!; try done. by left. }
  destruct O1 as (l2 & m' & -> & N2 & Hl2 & Er2 & Em2 & Hm2 & O1).
  rewrite u64_small by lia. set (c' := mkGroup _ _ _ _).
  assert (forall cache', candidates gs1 r cache' -> (enough times (i + 1) (length cache') (length l2) <= fuel)%nat ->
    exists db' gs', distribute fuel times (i + 1) cache' (map hash_address l2) (Z.of_nat r) db1 = (Ok tt, db') /\
      ledger db' gs' /\ reshuffled gs gs' /\ dissolved gs' r) as IH'.
  { intros cache' Ca' Hf'. destruct (IH times (i + 1)%nat cache' l2 db1 gs1) as (db' & gs' & E & L' & R' & D); try done.
    exists db', gs'. split_and!; try done. by eapply reshuffled_trans. }
  pose proof (candidates_after gs gs1 r j i c c' cache m' Ca Ec Ej Em2 O1 (eq_sym Ej) ltac:(cbn; lia) ltac:(lia)) as Ca'.
  assert (forall nc, (nc <= length cache)%nat -> (enough times (i + 1) nc (length l2) <= fuel)%nat) as Hf'.
  { intros nc Hnc. unfold enough in *. destruct (_ >? _); [|lia].
    destruct (Nat.ltb_spec i (length cache)), (Nat.ltb_spec (i + 1) nc); lia. }
  rewrite length_insert. destruct (Z.eqb_spec (witnessCount c + lessNeed) 11) as [E11|N11].
  - replace (length m' =? 11)%nat with true in Ca' by (symmetry; apply Nat.eqb_eq; lia).
    pose proof (length_swap_remove_insert i c' cache Hi) as Hs.
    destruct (Nat.eqb_spec (length cache) 1) as [E1c|N1c].
    + exists db1, gs1. split_and!; try done. right. rewrite (nil_length_inv (swap_remove i (<[i:=c']> cache))) in Ca' by lia.
      apply Ca'.
    + destruct (lookup_lt_is_Some_2 (<[i:=c']> cache) (length cache - 1)) as [y Ey]; [rewrite length_insert; lia|].
      rewrite Ey. replace (take (length cache - 1) (<[i:=y]> (<[i:=c']> cache))) with (swap_remove i (<[i:=c']> cache))
        by (unfold swap_remove; by rewrite length_insert, Ey).
      apply (IH' _ Ca'), Hf'. lia.
  - replace (length m' =? 11)%nat with false in Ca' by (symmetry; apply Nat.eqb_neq; lia).
    apply (IH' _ Ca'), Hf'. by rewrite length_insert.
Qed.

(** ** Cancelling *)

(** What becomes of the groups when group [i], which has [g] members left, is
    put in order. *)
Definition fixed gs gs' (i : nat) (g : list Hash) : Prop :=
  reshuffled gs gs' /\
  (i = 0%nat \/ g = [] -> gs' = gs) /\
  ((0 < i)%nat -> (8 <= length g)%nat ->
     exists xs, gs' !! i = Some (g ++ xs) /\ (length (g ++ xs) = 11%nat \/ forall j, settled gs' i j)) /\
  ((0 < i)%nat -> (0 < length g < 8)%nat -> dissolved gs' i).

Lemma fixWitnessGroup_spec db gs i g :
  ledger db gs -> gs !! i = Some g -> ((0 < i)%nat -> (length g < 11)%nat) ->
  exists db' gs', fixWitnessGroup (Z.of_nat i) db = (Ok tt, db') /\ ledger db' gs' /\ fixed gs gs' i g.
Proof.
  intros L Eg Hg. pose proof L as [G _]. pose proof (lookup_lt_Some _ _ _ Eg) as Hi.
  unfold fixWitnessGroup, DefSysGroupIndex. destruct (Z.eqb_spec (Z.of_nat i) 0) as [E0|N0].
  { exists db, gs. split_and!; [done|done|]. split_and!; [apply reshuffled_refl|done|lia|lia]. }
  assert (0 < i)%nat as Hi0 by lia. specialize (Hg Hi0). unfold bind at 1, gets.
  rewrite (GetWitnessCountAt_spec db gs i g G Eg). destruct (Z.eqb_spec (Z.of_nat (length g)) 0) as [Ez|Nz].
  { exists db, gs. split_and!; [done|done|]. split_and!; [apply reshuffled_refl|done|lia|lia]. }
  unfold bind at 1. rewrite (g_count _ _ G), Nat2Z.id. change ConfigParamsUCMinVotings with 8.
  change ConfigParamsUCWitness with 11. rewrite Z.geb_leb.
  assert (g <> []) as Ng by (by intros ->). destruct (Z.leb_spec 8 (Z.of_nat (length g))) as [H8|H8].
  - rewrite u64_small by lia.
    destruct (refill_spec (length gs) 1 i db gs g L Eg Hi0) as (db' & gs' & xs & E & L' & R & Ei & D); [lia..| |].
    { intros j Hj g' Hj0. lia. }
    exists db', gs'. split_and!; [exact E|done|]. split_and!; [done|intros [|]; [lia|done]| |lia].
    intros _ _. by exists xs.
  - unfold bind at 1. rewrite (GetWitnessListAt_spec db gs i g G Eg). unfold bind at 1.
    destruct (find_lacking_spec db gs i (length gs) 1 G) as (A & O & Cm); [lia..|].
    change (Z.of_nat 1) with 1 in *. set (cache := find_lacking _ _ _ _) in *.
    pose proof (GoSort.SliceStable_Permutation (fix_less (Z.of_nat (length g))) cache) as Ps.
    assert (candidates gs i (GoSort.SliceStable (fix_less (Z.of_nat (length g))) cache)) as Ca.
    { apply (candidates_Permutation _ _ cache); [done|]. split; [|done|].
      - revert A. apply Forall_impl. by intros c [].
      - intros j g' Hj. apply Cm. lia. }
    destruct (distribute_spec (2 * length (map hash_address g) + length (GoSort.SliceStable (fix_less (Z.of_nat (length g))) cache) + 2)
      1 0 _ g i db gs L Eg Ng Hi0 Ca) as (db' & gs' & E & L' & R & D); [lia| |].
    { unfold enough. rewrite length_map. cbn. lia. }
    exists db', gs'. split_and!; [exact E|done|]. by split_and!; [|intros [|]; [lia|]|lia|].
Qed.

Lemma ledger_remove db gs i g k x :
  ledger db gs -> gs !! i = Some g -> g !! k = Some x ->
  ledger (snd (RemoveOrder (GetWitnessSet (Z.of_nat i)) (Z.of_nat k) db)) (<[i := delete k g]> gs).
Proof.
  intros [G I] Eg Ek. destruct (groups_remove count_key_fresh db gs i g k x G Eg Ek) as [G1 O1]. split; [done|].
  intros j g' y Ej Hy. rewrite (record_only _ _ _ _ O1).
  apply list_lookup_insert_Some in Ej as [(<- & <- & _)|[_ Ej]]; [|by apply (I j g' y)].
  apply (I i g y Eg). rewrite (delete_Permutation g k x Ek). set_solver.
Qed.

Lemma cancel_lemma db gs i g k a :
  ledger db gs -> gs !! i = Some g -> g !! k = Some (member a) ->
  exists db' gs',
    CancelWitnessFromWitnessGroup a (Z.of_nat i) db = (Ok tt, db') /\ ledger db' gs' /\
    member a :: concat gs' ≡ₚ concat gs /\
    fixed (<[i := delete k g]> gs) gs' i (delete k g).
Proof.
  intros L Eg Ek. pose proof L as [G _].
  assert (is_address (member a)) as Ha by (eapply group_words; [exact G|exact Eg|by eapply list_elem_of_lookup_2]).
  pose proof (ledger_remove db gs i g k _ L Eg Ek) as L1.
  assert (<[i := delete k g]> gs !! i = Some (delete k g)) as E1 by (apply list_lookup_insert_eq; by eapply lookup_lt_Some).
  destruct (fixWitnessGroup_spec _ _ i (delete k g) L1 E1) as (db' & gs' & E & L' & F).
  { intros Hi. pose proof (g_size _ _ G i g Hi Eg). rewrite length_delete by done.
    pose proof (lookup_lt_Some _ _ _ Ek). lia. }
  exists db', gs'. split_and!; try done.
  - unfold CancelWitnessFromWitnessGroup, bind, gets, puts. by rewrite (Exist_member db gs i g a k G Eg Ha Ek).
  - rewrite (re_all _ _ (proj1 F)). destruct (concat_insert gs i g (delete k g) Eg) as [P1 P2].
    rewrite P2, P1. by rewrite (delete_Permutation g k _ Ek) at 2.
Qed.


End Regroup.
End Regroup.
