(* ===== verification/ScJoin.v ===== *)
(** A witness joins a group. *)
From stdpp Require Import gmap list.
From S2P Require Import Prelude Bech32 Address EvmWord EvmState StateDb GoSort ScStore ScSets ScGroup ScMembers.

Import Db Store Sets Address Group Members.

Module Join.

Section Join.
Context {DB : Type} {ST : Storage DB} {SO : StorageOk DB ST} {C : ScCodec} {CO : ScCodecOk C}.
Context {EV : Events DB} {EO : EventsOk DB ST SO EV} {P : Params}.
Hypothesis count_key_fresh : forall x, SafeHash256 x <> PrefixWitnessGroupCount.

Implicit Types (db : DB) (gs : list (list Hash)).

(** The rank of an open group of [n] members: below the minimum the fuller one,
    above it the emptier one; at the minimum the last choice. *)
Definition priority (n : nat) : Z :=
  if (n <? 8)%nat then Z.of_nat n else if (8 <? n)%nat then 11 - Z.of_nat n else 0.

Definition item_of gs (it : ChooseItem) (j : nat) : Prop :=
  GroupIndex it = Z.of_nat j /\
  exists g, (0 < j)%nat /\ gs !! j = Some g /\ (length g < 11)%nat /\ Priority it = priority (length g).

Lemma find_open_spec db gs n i acc :
  groups db gs -> (0 < i)%nat -> (length gs <= i + n)%nat ->
  match find_open n (Z.of_nat i) (Z.of_nat (length gs)) acc db with
  | inl gp => exists j g, gp = Z.of_nat j /\ (0 < j)%nat /\ gs !! j = Some g /\ length g = 7%nat
  | inr l => exists l', l = acc ++ l' /\ (i + length l' <= Nat.max i (length gs))%nat /\
       (forall it, it ∈ l' -> exists j, item_of gs it j) /\
       (forall j g, (i <= j)%nat -> gs !! j = Some g -> length g <> 7%nat /\
          ((length g < 11)%nat -> exists it, it ∈ l' /\ item_of gs it j))
  end.
Proof.
  intros G. revert i acc. induction n as [|n IH]; intros i acc Hi Hs; cbn [find_open].
  - exists []. split_and!; [by rewrite app_nil_r|cbn; lia|set_solver|].
    intros j g Hj Ej. pose proof (lookup_lt_Some _ _ _ Ej). lia.
  - destruct (Z.ltb_spec (Z.of_nat i) (Z.of_nat (length gs))) as [Hlt|Hge].
    2: { exists []. split_and!; [by rewrite app_nil_r|cbn; lia|set_solver|].
         intros j g Hj Ej. pose proof (lookup_lt_Some _ _ _ Ej). lia. }
    destruct (lookup_lt_is_Some_2 gs i) as [g Eg]; [lia|]. pose proof (g_size _ _ G i g Hi Eg) as H11.
    rewrite (GetWitnessCountAt_spec db gs i g G Eg). change ConfigParamsUCWitness with 11.
    change ConfigParamsUCMinVotings with 8. unfold DefSysGroupIndex.
    replace (Z.of_nat i + 1) with (Z.of_nat (i + 1)) by lia.
    destruct (_ || _) eqn:Efull.
    { apply orb_prop in Efull as [|Efull]; [lia|]. specialize (IH (i + 1)%nat acc ltac:(lia) ltac:(lia)).
      destruct (find_open _ _ _ _ _) as [gp|l]; [done|]. destruct IH as (l' & -> & Hl & A & B).
      exists l'. split_and!; [done|lia|done|]. intros j h Hj Ej. destruct (decide (j = i)) as [->|]; [|apply B; [lia|done]].
      rewrite Eg in Ej. injection Ej as <-. lia. }
    apply orb_false_elim in Efull as [_ Efull]. destruct (Z.eqb_spec (Z.of_nat (length g)) (8 - 1)) as [E7|N7].
    { exists i, g. split_and!; [done|done|done|lia]. }
    set (it := mkItem _ _).
    assert (item_of gs it i) as Hit.
    { split; [done|]. exists g. split_and!; [done|done|lia|]. unfold it, priority. cbn [Priority]. rewrite Z.gtb_ltb.
      destruct (Z.ltb_spec (Z.of_nat (length g)) 8), (Nat.ltb_spec (length g) 8); try lia.
      destruct (Z.ltb_spec 8 (Z.of_nat (length g))), (Nat.ltb_spec 8 (length g)); try lia. apply u64_small. lia. }
    specialize (IH (i + 1)%nat (acc ++ [it]) ltac:(lia) ltac:(lia)).
    destruct (find_open _ _ _ _ _) as [gp|l]; [done|]. destruct IH as (l' & -> & Hl & A & B).
    exists (it :: l'). split_and!; [by rewrite <- app_assoc|cbn; lia| |].
    + intros it' [->|Hin]%elem_of_cons; [by exists i|by apply A].
    + intros j h Hj Ej. destruct (decide (j = i)) as [->|].
      * rewrite Eg in Ej. injection Ej as <-. split; [lia|]. intros _. exists it. split; [by left|done].
      * destruct (B j h) as [B1 B2]; [lia|done|]. split; [done|]. intros Hh. destruct (B2 Hh) as (it' & Hin & Hi').
        exists it'. split; [by right|done].
Qed.

(** A new group at the end. *)
Lemma groups_new db gs a :
  groups db gs -> valid_address a -> member a ∉ concat gs -> Z.of_nat (length gs) + 1 < 2 ^ 64 ->
  let n := Z.of_nat (length gs) in
  let db' := add_to (GetWitnessSet n) a (WriteWitnessGroupCount (n + 1) db) in
  groups db' (gs ++ [[member a]]) /\ forall x, load (group_key x) db' = load (group_key x) db.
Proof.
  intros G V N R n db'. destruct (member_value a V) as [_ W].
  assert (is_u64 n) as Hn by (unfold n; lia). pose proof (g_ok _ _ G) as O.
  set (db1 := WriteWitnessGroupCount (n + 1) db).
  assert (forall x, load (SafeHash256 x) db1 = load (SafeHash256 x) db) as Hk.
  { intros x. unfold db1, WriteWitnessGroupCount. rewrite load_save by done.
    rewrite decide_False by apply count_key_fresh. done. }
  assert (forall i l, holds (GetWitnessSet i) db l -> holds (GetWitnessSet i) db1 l) as Hh.
  { intros i l. apply holds_ext; [by apply save_ok|]. intros k (x & ->)%owned_sub. apply Hk. }
  pose proof (g_set _ _ G n Hn) as H0. unfold n in H0 at 2. rewrite Nat2Z.id, lookup_ge_None_2 in H0 by lia. cbn in H0.
  destruct (SetAdd_spec (GetWitnessSet n) db1 [] (VAddress a)) as (_ & H1 & On);
    [by apply Hh|set_solver|unfold member in W; lia|cbn; lia|]. cbn [app] in H1. fold (member a) in H1.
  split.
  - split.
    + apply On.
    + unfold GetWitnessGroupCount. unfold db', add_to. rewrite (on_load _ _ _ On).
      * unfold db1, WriteWitnessGroupCount, uint2Hash. rewrite load_save, decide_True by done.
        destruct (Z.eqb_spec (n + 1) 0); [lia|]. unfold Word.Uint64. rewrite u64_small by lia.
        rewrite length_app. cbn. lia.
      * intros (x & Hx)%owned_sub. symmetry in Hx. by apply count_key_fresh in Hx.
    + rewrite length_app. cbn. lia.
    + intros i Hi. destruct (decide (i = n)) as [->|Ni].
      * replace (Z.to_nat n) with (length gs) by lia. rewrite lookup_app_r, Nat.sub_diag by lia. exact H1.
      * replace (default [] ((gs ++ [[member a]]) !! Z.to_nat i)) with (default [] (gs !! Z.to_nat i)).
        2: { destruct (decide (Z.to_nat i < length gs)%nat); [by rewrite lookup_app_l|].
             rewrite !lookup_ge_None_2 by (rewrite ?length_app; cbn; lia). done. }
        eapply holds_other; [| |exact On|by apply Hh, G]; [done|]. intros X%GetWitnessSet_inj; [|done..]. lia.
    + intros g x [Hg|Hg%list_elem_of_singleton]%elem_of_app Hx; [by eapply G|]. subst g.
      apply list_elem_of_singleton in Hx. by subst x.
    + rewrite concat_app. cbn. apply list.NoDup_app. split_and!; [apply G|set_solver|apply list.NoDup_singleton].
    + intros i g Hi Eg. apply lookup_snoc_Some in Eg as [[_ Eg]|[_ <-]]; [by eapply G|cbn; lia].
  - intros x. unfold db', add_to, group_key, item_key, subKey. rewrite (on_load _ _ _ On); [apply Hk|].
    intros (y & E)%owned_sub. apply SafeHash256_inj in E. by apply (foreign_witness (hash_address x)) in E.
Qed.

Lemma add_user db gs i g a :
  groups db gs -> valid_address a -> member a ∉ concat gs -> (0 < i)%nat -> gs !! i = Some g -> (length g < 11)%nat ->
  groups (add_to (GetWitnessSet (Z.of_nat i)) a db) (<[i := g ++ [member a]]> gs) /\
  forall x, load (group_key x) (add_to (GetWitnessSet (Z.of_nat i)) a db) = load (group_key x) db.
Proof.
  intros G V N Hi Eg Hg. destruct (groups_add count_key_fresh db gs i g a G Eg V N) as [G' O]; [lia|lia|].
  split; [done|]. intros x. exact (record_only _ _ _ _ O).
Qed.

Lemma join_lemma db gs a :
  groups db gs -> valid_address a -> member a ∉ concat gs -> Z.of_nat (length gs) + 1 < 2 ^ 64 ->
  exists gp db',
    ApplyWitnessGroupOfUser a db = (Ok (Z.of_nat gp), db') /\ (0 < gp)%nat /\
    (forall x, load (group_key x) db' = load (group_key x) db) /\
    ((exists g, gs !! gp = Some g /\ (length g < 11)%nat /\ groups db' (<[gp := g ++ [member a]]> gs) /\
        (length g = 7%nat \/
         forall j h, (0 < j)%nat -> gs !! j = Some h -> length h <> 7%nat /\
           ((length h < 11)%nat -> (length gs <= 21)%nat -> priority (length h) <= priority (length g)))) \/
     (gp = length gs /\ groups db' (gs ++ [[member a]]) /\
      forall j h, (0 < j)%nat -> gs !! j = Some h -> length h = 11%nat)).
Proof.
  intros G V N R. unfold ApplyWitnessGroupOfUser, bind at 1, gets. rewrite (g_count _ _ G), Nat2Z.id.
  unfold bind at 1. pose proof (g_some _ _ G) as H0.
  pose proof (find_open_spec db gs (length gs) 1 [] G ltac:(lia) ltac:(lia)) as H. change (Z.of_nat 1) with 1 in H.
  destruct (find_open _ _ _ _ _) as [gp|l].
  - destruct H as (j & g & -> & Hj & Eg & H7).
    destruct (add_user db gs j g a G V N Hj Eg ltac:(lia)) as [G' E'].
    exists j, (add_to (GetWitnessSet (Z.of_nat j)) a db). split_and!; try done. left. exists g. split_and!; [done|lia|done|by left].
  - destruct H as (l' & -> & Hl & A & B). cbn [app].
    pose proof (GoSort.SliceStable_Permutation (fun x y => Priority x >? Priority y) l') as Ps.
    destruct (GoSort.SliceStable _ l') as [|it r] eqn:Es.
    + destruct (groups_new db gs a G V N R) as [G' E'].
      destruct (Z.eqb_spec (Z.of_nat (length gs)) 0); [lia|]. rewrite u64_small by lia.
      exists (length gs), (add_to (GetWitnessSet (Z.of_nat (length gs))) a (WriteWitnessGroupCount (Z.of_nat (length gs) + 1) db)).
      split_and!; try done. right. split_and!; [done|done|]. intros j h Hj Ej.
      pose proof (g_size _ _ G j h Hj Ej). apply Permutation_nil_l in Ps. subst l'.
      destruct (B j h ltac:(lia) Ej) as [_ B2]. destruct (decide (length h < 11)%nat); [|lia].
      destruct B2 as (it & Hin & _); [done|]. set_solver.
    + destruct (A it) as (j & Ej & g & Hj & Eg & Hg & Ep); [rewrite <- Ps; by left|].
      rewrite Ej. destruct (add_user db gs j g a G V N Hj Eg Hg) as [G' E'].
      exists j, (add_to (GetWitnessSet (Z.of_nat j)) a db). split_and!; try done. left. exists g. split_and!; [done|done|done|right].
      intros k h Hk Ek. destruct (B k h ltac:(lia) Ek) as [B1 B2]. split; [done|]. intros Hh H21.
      destruct (B2 Hh) as (it' & Hin & Ek' & h' & _ & Eh' & _ & Ep'). rewrite Ek in Eh'. injection Eh' as <-.
      rewrite <- Ep, <- Ep'. apply (GoSort.SliceStable_greatest Priority l' it r); [lia|exact Es|done].
Qed.

(** a user's witness that is in no group is put into exactly one, at its end:
    into a group of seven if there is one; else, as long as there are at most
    twenty candidates for the stable sort, into an open group of the highest
    priority; into a new group exactly when all groups of users are full.  The
    groups stay disjoint and of at most eleven witnesses, and no record of a
    witness is touched.  A group of eight, whose priority is 0, thereby gets a
    new witness last of all. *)
Theorem ApplyWitnessGroupOfUser_spec db gs a :
  groups db gs -> valid_address a -> member a ∉ concat gs -> Z.of_nat (length gs) + 1 < 2 ^ 64 ->
  exists gp db',
    ApplyWitnessGroupOfUser a db = (Ok (Z.of_nat gp), db') /\ (0 < gp)%nat /\
    (forall x, load (group_key x) db' = load (group_key x) db) /\
    ((exists g, gs !! gp = Some g /\ (length g < 11)%nat /\ groups db' (<[gp := g ++ [member a]]> gs) /\
        (length g = 7%nat \/
         forall j h, (0 < j)%nat -> gs !! j = Some h -> length h <> 7%nat /\
           ((length h < 11)%nat -> (length gs <= 21)%nat -> priority (length h) <= priority (length g)))) \/
     (gp = length gs /\ groups db' (gs ++ [[member a]]) /\
      forall j h, (0 < j)%nat -> gs !! j = Some h -> length h = 11%nat)).
Proof. apply join_lemma. Qed.

End Join.
End Join.
