(* ===== verification/ScChains.v ===== *)
(** A chain is given to a witness group, and handed over to another. *)
From stdpp Require Import gmap list.
From S2P Require Import Prelude Bech32 Address EvmWord EvmState StateDb GoSort ScStore ScSets ScGroup ScMembers.

Import Db Store Sets Address Group Members.

Module Chains.

Section Chains.
Context {DB : Type} {ST : Storage DB} {SO : StorageOk DB ST} {C : ScCodec} {CO : ScCodecOk C}.
Context {EV : Events DB} {EO : EventsOk DB ST SO EV} {P : Params}.
Hypothesis count_key_fresh : forall x, SafeHash256 x <> PrefixWitnessGroupCount.

Implicit Types (db : DB) (gs : list (list Hash)) (a : Address).

(** ** Choosing a group *)




















(** ** The chains of the groups *)













(** *** One set of chains changes *)



Lemma set_slot i x k : owns (GetChainsSet i) k -> k <> item_key (chain_item x) (Str (str "group_index")).
Proof. intros (y & ->)%owned_sub E. apply SafeHash256_inj in E. discriminate E. Qed.













End Chains.
End Chains.
