(* ===== verification/ScFrame.v ===== *)
(** Which slots the contract's operations leave alone. *)
From stdpp Require Import gmap list.
From S2P Require Import Prelude Bech32 Address EvmWord EvmState StateDb GoSort ScStore ScSets ScGroup ScHeart ScWitness ScMembers.

Import Db Store Sets Address Group Heart Witness Members.

Module Frame.

Section Frame.
Context {DB : Type} {ST : Storage DB} {SO : StorageOk DB ST} {C : ScCodec} {CO : ScCodecOk C}.
Context {EV : Events DB} {EO : EventsOk DB ST SO EV} {LG : Ledger DB} {LO : LedgerOk DB ST SO LG}.
Context {P : Params} {NM : Names}.

Implicit Types (db : DB) (Q : Hash -> Prop).

(** A computation that leaves the slots [Q] alone, whatever it answers. *)
Definition respects {A} Q (m : SC DB A) : Prop := forall db, storage_ok db -> keeps Q db (snd (m db)).
Definition writes_not Q (f : DB -> DB) : Prop := forall db, storage_ok db -> keeps Q db (f db).

Lemma keepsQ_refl Q db : storage_ok db -> keeps Q db db.
Proof. by split. Qed.

Lemma respects_ret {A} Q (a : A) : respects Q (ret a).
Proof. intros db O. by apply keepsQ_refl. Qed.
Lemma respects_fail {A} Q e : respects Q (@fail DB A e).
Proof. intros db O. by apply keepsQ_refl. Qed.
Lemma respects_gets {A} Q (f : DB -> A) : respects Q (gets f).
Proof. intros db O. by apply keepsQ_refl. Qed.
Lemma respects_read {A} Q (f : DB -> result error A) : respects Q (read f).
Proof. intros db O. by apply keepsQ_refl. Qed.
Lemma respects_puts Q f : writes_not Q f -> respects Q (puts f).
Proof. intros H db O. by apply H. Qed.
Lemma respects_bind {A B} Q (m : SC DB A) (k : A -> SC DB B) :
  respects Q m -> (forall a, respects Q (k a)) -> respects Q (bind m k).
Proof.
  intros Hm Hk db O. unfold bind. pose proof (Hm db O) as K. destruct (m db) as [[a|e] db1]; cbn in *; [|done].
  eapply keepsQ_trans; [exact K|]. apply Hk, K.
Qed.
Lemma respects_emit Q e args : respects Q (emit e args).
Proof.
  intros db O. unfold emit. destruct (Pack e args); cbn; [by apply keeps_AddLog|by apply keepsQ_refl].
Qed.

Lemma writes_id Q : writes_not Q (fun db => db).
Proof. intros db O. by apply keepsQ_refl. Qed.
Lemma writes_comp Q f g : writes_not Q f -> writes_not Q g -> writes_not Q (fun db => f (g db)).
Proof. intros Hf Hg db O. eapply keepsQ_trans; [by apply Hg|]. apply Hf, (Hg db O). Qed.
Lemma writes_save Q k v : ~ Q k -> writes_not Q (save k v).
Proof. intros N db O. by apply keeps_save. Qed.
Lemma writes_sub Q it key v : ~ Q (item_key it key) -> writes_not Q (SaveSub it key v).
Proof. apply writes_save. Qed.
Lemma writes_del Q it key : ~ Q (item_key it key) -> writes_not Q (DeleteSub it key).
Proof. apply writes_save. Qed.
Lemma writes_fold {A} Q (f : DB -> A -> DB) l :
  (forall a, writes_not Q (fun db => f db a)) -> writes_not Q (fun db => fold_left f l db).
Proof.
  intros H. induction l as [|a l IH]; intros db O; cbn; [by apply keepsQ_refl|].
  eapply keepsQ_trans; [by apply H|]. apply IH, (H a db O).
Qed.

Lemma load_SaveSub_same it k v db : storage_ok db -> load (item_key it k) (SaveSub it k v db) = value2hash v.
Proof. intros O. unfold SaveSub. rewrite load_save by done. by rewrite decide_True. Qed.
Lemma load_SaveSub_ne it k k' v db :
  storage_ok db -> k <> k' -> load (item_key it k) (SaveSub it k' v db) = load (item_key it k) db.
Proof.
  intros O N. unfold SaveSub. rewrite load_save by done. rewrite decide_False; [done|].
  intros E%SafeHash256_inj%app_inv_head. congruence.
Qed.

(** *** Sets *)

Definition keeps_off Q (s : StateSet) : Prop := forall x, ~ Q (subKey s x).

Lemma writes_add_to Q s a : keeps_off Q s -> writes_not Q (add_to s a).
Proof.
  intros N db O. unfold add_to, Add, addLen, update. cbn [snd].
  do 2 (eapply keepsQ_trans; [|apply keeps_save; [repeat apply save_ok; done|apply N]]).
  apply keeps_save; [done|apply N].
Qed.
Lemma writes_clear Q s i v : keeps_off Q s -> writes_not Q (clear s i v).
Proof.
  intros N db O. unfold clear. eapply keepsQ_trans; [|apply keeps_save; [repeat apply save_ok; done|apply N]].
  apply keeps_save; [done|apply N].
Qed.
Lemma writes_update Q s i v : keeps_off Q s -> writes_not Q (update s i v).
Proof.
  intros N db O. unfold update. eapply keepsQ_trans; [|apply keeps_save; [repeat apply save_ok; done|apply N]].
  apply keeps_save; [done|apply N].
Qed.
Lemma writes_subLen Q s : keeps_off Q s -> writes_not Q (subLen s).
Proof.
  intros N db O. unfold subLen. repeat case_match; try (by apply keepsQ_refl); apply keeps_save; try done; apply N.
Qed.
Lemma writes_move_down Q n s i l : keeps_off Q s -> writes_not Q (move_down n s i l).
Proof.
  intros N. revert i. induction n as [|n IH]; intros i db O; cbn [move_down]; [by apply keepsQ_refl|].
  set (db1 := if _ =? _ then _ else db).
  assert (keeps Q db db1) as K1 by (unfold db1; destruct (_ =? _); [by apply writes_clear|by apply keepsQ_refl]).
  pose proof (writes_update Q s (i - 1) (VHash (Get s db i)) N db1 (k_ok _ _ _ K1)) as K2.
  eapply keepsQ_trans; [exact K1|]. eapply keepsQ_trans; [exact K2|]. apply IH, K2.
Qed.
Lemma writes_RemoveOrder Q s i : keeps_off Q s -> writes_not Q (fun db => snd (RemoveOrder s i db)).
Proof.
  intros N db O. unfold RemoveOrder. destruct (_ || _); [by apply keepsQ_refl|].
  pose proof (writes_clear Q s i (Get s db i) N db O) as K1.
  destruct (_ =? _); cbn [snd]; (eapply keepsQ_trans; [exact K1|]).
  - apply writes_subLen; [done|apply K1].
  - pose proof (writes_move_down Q (Z.to_nat (Len s db - (i + 1))) s (i + 1) (Len s db) N _ (k_ok _ _ _ K1)) as K2.
    eapply keepsQ_trans; [exact K2|]. apply writes_subLen; [done|apply K2].
Qed.
Lemma writes_Remove Q s i : keeps_off Q s -> writes_not Q (fun db => snd (Remove s i db)).
Proof.
  intros N db O. unfold Remove. destruct (_ || _); [by apply keepsQ_refl|]. destruct (_ =? _); cbn [snd].
  - pose proof (writes_clear Q s i (Get s db i) N db O) as K1.
    eapply keepsQ_trans; [exact K1|]. apply writes_subLen; [done|apply K1].
  - pose proof (writes_update Q s i (VHash (Get s db (Len s db - 1))) N db O) as K1.
    pose proof (writes_clear Q s (Len s db - 1) (Get s db i) N _ (k_ok _ _ _ K1)) as K2.
    eapply keepsQ_trans; [exact K1|]. eapply keepsQ_trans; [exact K2|]. apply writes_subLen; [done|apply K2].
Qed.

(** *** Groups *)

Section Fix.
Context (Q : Hash -> Prop) (Hset : forall i, keeps_off Q (GetWitnessSet i)).
Context (Hrec : forall a, ~ Q (item_key (witness_item a) (Str (str "group_index")))).

Lemma respects_removeWtinessGroup w o n : respects Q (removeWtinessGroup w o n).
Proof.
  unfold removeWtinessGroup. destruct (_ =? _); [apply respects_fail|].
  apply respects_bind; [apply respects_gets|]. intros [i|]; [|apply respects_fail].
  apply respects_bind; [by apply respects_puts, writes_RemoveOrder|]. intros _.
  apply respects_bind; [by apply respects_puts, writes_add_to|]. intros _.
  apply respects_bind; [by apply respects_puts, writes_sub|]. intros _. apply respects_emit.
Qed.

Lemma respects_move_up l g r need : respects Q (move_up l g r need).
Proof.
  revert need. induction l as [|w l IH]; intros need; cbn [move_up]; [apply respects_ret|].
  apply respects_bind; [apply respects_removeWtinessGroup|]. intros _. destruct (_ =? 0); [apply respects_ret|apply IH].
Qed.

Lemma respects_refill n g r need : respects Q (refill n g r need).
Proof.
  revert g need. induction n as [|n IH]; intros g need; cbn [refill]; [apply respects_ret|].
  apply respects_bind; [apply respects_gets|]. intros count. destruct (_ <? _); [|apply respects_ret].
  destruct (_ =? r); [apply IH|]. apply respects_bind; [apply respects_gets|]. intros c.
  destruct (_ >=? _); [apply IH|]. apply respects_bind; [apply respects_gets|]. intros l.
  apply respects_bind; [apply respects_move_up|]. intros k. destruct (_ =? 0); [apply respects_ret|apply IH].
Qed.

Lemma respects_give n l r g : respects Q (give n l r g).
Proof.
  revert l. induction n as [|n IH]; intros l; cbn [give]; [apply respects_ret|].
  destruct l as [|w l]; [apply respects_fail|].
  apply respects_bind; [apply respects_removeWtinessGroup|]. intros _. destruct (bool_decide _); [apply respects_ret|apply IH].
Qed.

Lemma respects_distribute fuel times i cache l r : respects Q (distribute fuel times i cache l r).
Proof.
  revert times i cache l. induction fuel as [|fuel IH]; intros times i cache l; cbn [distribute]; [apply respects_fail|].
  destruct (cache !! i) as [c|]; [|destruct (bool_decide _); [apply respects_ret|apply IH]].
  destruct (bool_decide _); [apply respects_ret|]. destruct (_ =? 0); [apply IH|].
  apply respects_bind; [apply respects_give|]. intros [l'|]; [|apply respects_ret].
  destruct (_ =? _); [|apply IH]. destruct (_ =? 1)%nat; [apply respects_ret|].
  destruct (_ !! _); [apply IH|apply respects_fail].
Qed.

Lemma respects_fix r : respects Q (fixWitnessGroup r).
Proof.
  unfold fixWitnessGroup. destruct (_ =? _); [apply respects_ret|].
  apply respects_bind; [apply respects_gets|]. intros curr. destruct (_ =? _); [apply respects_ret|].
  apply respects_bind; [apply respects_gets|]. intros count. destruct (_ >=? _); [apply respects_refill|].
  apply respects_bind; [apply respects_gets|]. intros l. apply respects_bind; [apply respects_gets|]. intros cache.
  apply respects_distribute.
Qed.

Lemma respects_CancelWitness a g : respects Q (CancelWitnessFromWitnessGroup a g).
Proof.
  unfold CancelWitnessFromWitnessGroup. apply respects_bind; [apply respects_gets|]. intros [i|]; [|apply respects_fail].
  apply respects_bind; [by apply respects_puts, writes_RemoveOrder|]. intros _. apply respects_fix.
Qed.

Lemma respects_ApplyUser a : ~ Q PrefixWitnessGroupCount -> respects Q (ApplyWitnessGroupOfUser a).
Proof.
  intros N. unfold ApplyWitnessGroupOfUser. apply respects_bind; [apply respects_gets|]. intros count.
  apply respects_bind; [apply respects_gets|]. intros [g|l].
  - apply respects_bind; [by apply respects_puts, writes_add_to|]. intros _. apply respects_ret.
  - destruct (GoSort.SliceStable _ l).
    + apply respects_bind; [by apply respects_puts, writes_save|]. intros _.
      apply respects_bind; [by apply respects_puts, writes_add_to|]. intros _. apply respects_ret.
    + apply respects_bind; [by apply respects_puts, writes_add_to|]. intros _. apply respects_ret.
Qed.
End Fix.

(** *** Heartbeats *)

Section Beats.
Context (Q : Hash -> Prop) (prefix : bytes) (Hq : forall x, ~ Q (SafeHash256 (Str prefix :: x))).

Definition under (s : list rlp_value) : Prop := exists x, s = Str prefix :: x.

Lemma under_off s : under s -> keeps_off Q s.
Proof. intros [x ->] y. apply Hq. Qed.
Lemma under_app s x : under s -> under (s ++ x).
Proof. intros [y ->]. by exists (y ++ x). Qed.
Lemma writes_under s key v : under s -> writes_not Q (SaveSub s key v).
Proof. intros U. apply writes_sub. by apply under_off. Qed.
Lemma writes_under_del s key : under s -> writes_not Q (DeleteSub s key).
Proof. intros U. apply writes_del. by apply under_off. Qed.

Lemma keeps_commit_count sub acc v :
  under sub -> storage_ok (snd acc) -> keeps Q (snd acc) (snd (commit_count sub acc v)).
Proof.
  intros U. destruct acc as [[a b] db]. cbn [snd]. intros O. unfold commit_count.
  assert (under (sub ++ [uint (Period v)])) as U' by (by apply under_app).
  destruct (Period v =? 0); [by apply keepsQ_refl|]. destruct (_ && _); cbn [snd].
  - pose proof (writes_under_del _ (Str (str "unitCount")) U' db O) as K.
    eapply keepsQ_trans; [exact K|]. apply (writes_under_del _ _ U'), K.
  - pose proof (writes_under _ (Str (str "unitCount")) (VUint (UnitCount v)) U' db O) as K.
    eapply keepsQ_trans; [exact K|]. apply (writes_under _ _ _ U'), K.
Qed.

Lemma writes_count_CommitCache l : under (lc_sub l) -> writes_not Q (count_CommitCache l).
Proof.
  intros U db O. unfold count_CommitCache. destruct (GetWorkPeriod (lc_sub l) db) as [a b].
  generalize (map snd (map_to_list (lc_cache l))) as vs. intros vs.
  assert (forall acc, storage_ok (snd acc) -> keeps Q (snd acc) (snd (fold_left (commit_count (lc_sub l)) vs acc))) as H.
  { induction vs as [|v vs IH]; intros acc Oa; cbn [fold_left]; [by apply keepsQ_refl|].
    pose proof (keeps_commit_count (lc_sub l) acc v U Oa) as K. eapply keepsQ_trans; [exact K|]. apply IH, K. }
  specialize (H (a, b, db) O). destruct (fold_left _ vs (a, b, db)) as [[a' b'] db']. cbn [snd] in *.
  eapply keepsQ_trans; [exact H|].
  pose proof (writes_under _ (Str (str "startPeriod")) (VUint a') U db' (k_ok _ _ _ H)) as K.
  eapply keepsQ_trans; [exact K|]. apply (writes_under _ _ _ U), K.
Qed.

(** The entries of a list of heartbeats keep to its prefix. *)
Definition beats_ok (l : ListHeartbeat) : Prop :=
  under (lh_sub l) /\ under (addrs l) /\ deletedCache l = [] /\
  forall a h, writeCache l !! a = Some h -> under (lc_sub (hb_Count h)).

Lemma writes_CommitCache l : beats_ok l -> writes_not Q (CommitCache l).
Proof.
  intros (U1 & U2 & D & W). unfold CommitCache. rewrite D. cbn [fold_left].
  assert (forall h, h ∈ map snd (map_to_list (writeCache l)) -> under (lc_sub (hb_Count h))) as Hh.
  { intros h ([a h'] & -> & Hin)%list_elem_of_fmap. apply elem_of_map_to_list in Hin. by eapply W. }
  revert Hh. generalize (map snd (map_to_list (writeCache l))) as hs. induction hs as [|h hs IH]; intros Hh db O; cbn [fold_left].
  - by apply keepsQ_refl.
  - assert (under (childSub l (hb_Address h))) as U3 by (by apply under_app).
    assert (keeps Q db (commit_written l db h)) as K.
    { unfold commit_written.
      pose proof (writes_under _ lastTurn (VUint (LastTurn h)) U3 db O) as K1.
      pose proof (writes_under _ lastNumber (VUint (LastNumber h)) U3 _ (k_ok _ _ _ K1)) as K2.
      set (db2 := SaveSub _ lastNumber _ _) in *.
      assert (keeps Q db2 (match Exist (addrs l) db2 (VAddress (hb_Address h)) with
                           | Some _ => db2 | None => add_to (addrs l) (hb_Address h) db2 end)) as K3.
      { destruct (Exist _ _ _); [apply keepsQ_refl, K2|]. apply writes_add_to; [by apply under_off|apply K2]. }
      eapply keepsQ_trans; [exact K1|]. eapply keepsQ_trans; [exact K2|]. eapply keepsQ_trans; [exact K3|].
      apply writes_count_CommitCache; [apply Hh; by left|apply K3]. }
    eapply keepsQ_trans; [exact K|]. apply IH; [|apply K]. intros h' Hh'. apply Hh. by right.
Qed.

Lemma beats_read : beats_ok (readHeartbeat prefix).
Proof. split_and!; [by exists []|by eexists|done|]. intros a h E. cbn [readHeartbeat writeCache] in E. by rewrite lookup_empty in E. Qed.

Lemma beats_set_cache a h l : beats_ok l -> under (lc_sub (hb_Count h)) -> beats_ok (set_cache a h l).
Proof.
  intros (U1 & U2 & D & W) U. split_and!; try done. intros b h' E. cbn [set_cache writeCache] in E. apply lookup_insert_Some in E as [[_ <-]|[_ E]]; [done|]. by eapply W.
Qed.

Lemma beats_AddBackCount a t n p l db : beats_ok l -> beats_ok (AddBackCount a t n p l db).
Proof.
  intros B. pose proof B as (U1 & _ & _ & W). unfold AddBackCount.
  assert (bool_decide (hb_Address (Query a l db) = zeroAddress) = false -> under (lc_sub (hb_Count (Query a l db)))) as Hq'.
  { unfold Query. destruct (writeCache l !! a) as [h|] eqn:E; [intros _; by eapply W|].
    destruct (negb _); cbn; [by rewrite bool_decide_true|]. intros _. by apply under_app. }
  destruct (bool_decide _) eqn:E; [apply beats_set_cache; [done|by apply under_app]|].
  destruct (_ <=? _); [done|]. unfold Update. destruct (Have _ _ _); [|done]. apply beats_set_cache; [done|by apply Hq'].
Qed.
End Beats.

Lemma respects_init Q role a n :
  (forall prefix x, getHearbeatRecodePrefix role = Some prefix -> ~ Q (SafeHash256 (Str prefix :: x))) ->
  respects Q (initHearbeatLastRound role a n).
Proof.
  intros H. unfold initHearbeatLastRound. destruct (getHearbeatRecodePrefix role) as [p|] eqn:E; [|apply respects_fail].
  intros db O. cbn. apply (writes_CommitCache Q p); [intros x; by apply H| |done]. apply beats_AddBackCount, beats_read.
Qed.

End Frame.

End Frame.
