(* ===== verification/ScRegistry.v ===== *)
(** The register of witnesses: what the groups, the records, the set of all
    witnesses and the counter say about who is a witness stays in agreement. *)
From stdpp Require Import gmap list.
From S2P Require Import Prelude Bech32 Address EvmWord EvmState StateDb GoSort ScStore ScSets ScGroup ScHeart ScWitness ScMembers ScFrame ScRegroup ScJoin ScDuty.

Import Db Store Sets Address Group Heart Witness Members Frame Regroup Join Duty.

Module Registry.

Section Registry.
Context {DB : Type} {ST : Storage DB} {SO : StorageOk DB ST} {C : ScCodec} {CO : ScCodecOk C}.
Context {EV : Events DB} {EO : EventsOk DB ST SO EV} {LG : Ledger DB} {LO : LedgerOk DB ST SO LG}.
Context {P : Params} {NM : Names}.
Hypothesis count_key_fresh : forall x, SafeHash256 x <> PrefixWitnessGroupCount.

Implicit Types (db : DB) (gs : list (list Hash)) (all : list Hash) (a : Address).

(** ** Slots *)

(** Slots whose key does not begin with one of the tags. *)
Definition off (ts : list rlp_value) (k : Hash) : Prop := forall t x, t ∈ ts -> k <> SafeHash256 (t :: x).

Lemma off_other ts t x : t ∉ ts -> off ts (SafeHash256 (t :: x)).
Proof. intros N t' y Ht E. apply SafeHash256_inj in E. injection E as -> _. done. Qed.

Definition T_group : rlp_value := PrefixWitnessGroupInfo.
Definition T_witness : rlp_value := Str (str "cw_").
Definition T_all : rlp_value := hash_value allWitenssKey.
Definition T_counter : rlp_value := Str (str "all_counter").
Definition T_period : rlp_value := Str (str "periodInfo").
Definition T_beats : list rlp_value := [Str PrefixSCWitnessHeartbeat; Str PrefixUserWitnessHeartbeat].

Ltac tags := let H := fresh in intros H; repeat (apply elem_of_cons in H as [H|H]; [vm_compute in H; discriminate H|]); by apply not_elem_of_nil in H.

(** The record of the witness whose element is [x]. *)
Definition wkey (x : Hash) (key : rlp_value) : Hash := item_key (witness_item (hash_address x)) key.
Definition status_key : rlp_value := Str (str "status").
Definition group_field : rlp_value := Str (str "group_index").

Lemma wkey_inj x y k k' : is_address x -> is_address y -> wkey x k = wkey y k' -> x = y /\ k = k'.
Proof.
  intros Hx Hy E. apply SafeHash256_inj in E. unfold witness_item, addr_value in E. cbn [app] in E.
  split; [apply hash_address_inj; [done..|]|]; congruence.
Qed.

Lemma witness_item_member a : valid_address a -> witness_item a = witness_item (hash_address (member a)).
Proof. intros V. unfold witness_item, addr_value. by rewrite hash_address_member. Qed.

(** ** Agreement *)

Record registry db gs all : Prop := {
  rg_groups : groups db gs;
  rg_all : holds all_witnesses db all;
  rg_known x : is_address x -> (load (wkey x nil_key) db <> 0 <-> x ∈ all);
  rg_unknown x : is_address x -> x ∉ all -> load (wkey x status_key) db = 0;
  rg_member i g x : gs !! i = Some g -> x ∈ g ->
    x ∈ all /\ load (wkey x status_key) db = WitnessNormal /\ load (wkey x group_field) db = Z.of_nat i;
  rg_former x : x ∈ all -> is_address x /\
    (x ∉ concat gs -> load (wkey x status_key) db = WitnessLoggedOut \/ load (wkey x status_key) db = WitnessInBlackList);
  rg_count : load (item_key counterItem witness_actives) db = Z.of_nat (length (concat gs))
}.

Lemma registry_ledger db gs all : registry db gs all -> ledger db gs.
Proof. intros R. split; [apply R|]. intros i g x Eg Hx. by apply (rg_member _ _ _ R i g x). Qed.

Lemma concat_all db gs all : registry db gs all -> (length (concat gs) <= length all)%nat.
Proof.
  intros R. apply (submseteq_length (concat gs) all), NoDup_submseteq; [apply (rg_groups _ _ _ R)|].
  intros x Hx. apply list_elem_of_In, in_concat in Hx as (g & Hg & Hx). rewrite <- list_elem_of_In in Hg. rewrite <- list_elem_of_In in Hx.
  apply list_elem_of_lookup in Hg as [i Ei]. by apply (rg_member _ _ _ R i g x).
Qed.

(** ** Frames of the operations *)

Lemma group_sets_off (Q : Hash -> Prop) :
  (forall x, ~ Q (SafeHash256 (T_group :: x))) -> forall i, keeps_off Q (GetWitnessSet i).
Proof. intros H i x. apply H. Qed.

Definition outside_groups (k : Hash) : Prop := off [T_group] k /\ k <> PrefixWitnessGroupCount.

Lemma outside_sets i : keeps_off outside_groups (GetWitnessSet i).
Proof. intros x [N _]. by apply (N T_group ([uint i; Str (str "_witness_")] ++ x)); [left|]. Qed.

Lemma ApplySys_frame a : respects outside_groups (ApplyWitnessGroupOfSys a).
Proof.
  unfold ApplyWitnessGroupOfSys. apply respects_bind; [apply respects_gets|]. intros l. destruct (_ >? _); [apply respects_fail|].
  apply respects_bind; [apply respects_gets|]. intros count.
  apply respects_bind; [|intros _; apply respects_bind; [apply respects_puts, writes_add_to, outside_sets|intros _; apply respects_ret]].
  destruct (_ && _); [|apply respects_ret]. apply respects_bind; [apply respects_puts, writes_save; by intros [_ N]|].
  intros _. apply respects_puts, writes_add_to. intros x [N _]. by apply (N T_group ([uint DefSysGroupIndex; Str (str "_chains_")] ++ x)); [left|].
Qed.
Lemma ApplyUser_frame a : respects outside_groups (ApplyWitnessGroupOfUser a).
Proof. apply respects_ApplyUser; [apply outside_sets|by intros [_ N]]. Qed.

(** Cancelling writes the groups and the group of records. *)
Definition outside_moves (k : Hash) : Prop := outside_groups k /\ forall a, k <> item_key (witness_item a) group_field.
Lemma Cancel_frame a g : respects outside_moves (CancelWitnessFromWitnessGroup a g).
Proof.
  apply respects_CancelWitness; [intros i x [N _]; by apply (outside_sets i x)|]. intros b [_ N]. by apply (N b).
Qed.

(** Writing a record keeps to the record and the heartbeats. *)
Definition outside_record a (k : Hash) : Prop := off T_beats k /\ forall key, k <> item_key (witness_item a) key.

Lemma WriteWitnessInfo_spec w db :
  storage_ok db ->
  exists db', WriteWitnessInfo w db = (Ok tt, db') /\ keeps (outside_record (wi_Address w)) db db' /\
    let it := witness_item (wi_Address w) in
    load (item_key it nil_key) db' = 1 /\ load (item_key it status_key) db' = value2hash (VByte (Status w)) /\
    load (item_key it group_field) db' = wi_GroupIndex w.
Proof.
  intros O. set (it := witness_item (wi_Address w)). set (Q := outside_record (wi_Address w)).
  assert (forall k v db, storage_ok db -> keeps Q db (SaveSub it k v db)) as HS.
  { intros k v db0 O0. apply writes_sub; [|done]. intros [_ N]. by apply (N k). }
  set (db1 := SaveSub it nil_key (VByte 1) db). set (db2 := put it (str "margin") (VUint (Margin w)) db1).
  set (db3 := put it (str "status") (VByte (Status w)) db2).
  set (db4 := put it (str "cancel_height") (VUint (CancelHeight w)) db3).
  set (db5 := put it (str "apply_height") (VUint (ApplyHeight w)) db4).
  set (db6 := put it (str "group_index") (VUint (wi_GroupIndex w)) db5).
  set (db7 := SetBigData (item_key it (Str (str "pkey"))) (Pubkey w) db6).
  set (role := if wi_GroupIndex w =? DefSysGroupIndex then AccMainSystemWitness else AccUserWitness).
  assert (storage_ok db1 /\ storage_ok db2 /\ storage_ok db3 /\ storage_ok db4 /\ storage_ok db5 /\ storage_ok db6)
    as (O1 & O2 & O3 & O4 & O5 & O6) by (split_and!; unfold db6, db5, db4, db3, db2, db1, put, SaveSub; repeat apply save_ok; done).
  assert (keeps Q db db6) as K6.
  { do 5 (eapply keepsQ_trans; [|by apply HS]). by apply HS. }
  assert (storage_ok db7) as O7 by (by apply SetBigData_ok).
  assert (keeps (fun k => Q k \/ exists key, k = item_key it key) db7 (snd (initHearbeatLastRound role (wi_Address w) (ApplyHeight w) db7))) as K8.
  { apply respects_init; [|done]. intros p x Ep [[N _]|[key Ek]].
    - apply (N (Str p) x); [|done]. unfold role in Ep. destruct (_ =? _); injection Ep as <-; [by left|by right; left].
    - apply SafeHash256_inj in Ek. unfold role in Ep. destruct (_ =? _); injection Ep as <-; vm_compute in Ek; discriminate Ek. }
  exists (snd (initHearbeatLastRound role (wi_Address w) (ApplyHeight w) db7)). split.
  - unfold WriteWitnessInfo, bind, puts. fold it role. unfold initHearbeatLastRound. destruct role eqn:Er; try done;
      unfold role in Er; destruct (_ =? _); done.
  - assert (forall key, load (item_key it key) (snd (initHearbeatLastRound role (wi_Address w) (ApplyHeight w) db7))
              = load (item_key it key) db6) as E8.
    { intros key. rewrite (k_load _ _ _ K8) by (right; by exists key). by apply load_SetBigData. }
    split; [split; [apply K8|]|].
    + intros k Hk. rewrite (k_load _ _ _ K8) by (by left). unfold db7. rewrite load_SetBigData by done. by apply K6.
    + cbv zeta. rewrite !E8. unfold db6, db5, db4, db3, db2, db1, put.
      repeat first [rewrite load_SaveSub_same by done | rewrite load_SaveSub_ne by (done || (intros E; vm_compute in E; discriminate E))].
      done.
Qed.

(** *** The lists of all witnesses *)

Definition outside_lists : Hash -> Prop := off [T_all; T_counter; T_period].

Lemma off_tag ts t x : off ts (SafeHash256 (t :: x)) -> t ∈ ts -> False.
Proof. intros H Ht. by apply (H t x). Qed.

Lemma holds_keeps (Q : Hash -> Prop) db db' all :
  keeps Q db db' -> (forall x, Q (SafeHash256 (T_all :: x))) -> holds all_witnesses db all -> holds all_witnesses db' all.
Proof.
  intros [O E] H. apply holds_ext; [done|]. intros k (x & ->)%owned_sub. apply E, H.
Qed.

Lemma AddWitnessCount_frame (Q : Hash -> Prop) p isSys n :
  (forall x, ~ Q (SafeHash256 (T_period :: x))) -> writes_not Q (AddWitnessCount p isSys n).
Proof.
  intros H db O. unfold AddWitnessCount. destruct (n =? 0); [by apply keepsQ_refl|]. apply writes_sub; [apply H|done].
Qed.

(** The counter, the count of the period, and the event. *)
Lemma count_event (Q : Hash -> Prop) w n p isSys db :
  (forall x, ~ Q (SafeHash256 (T_period :: x))) -> (forall x, ~ Q (SafeHash256 (T_counter :: x))) -> storage_ok db ->
  let db1 := AddWitnessCount p isSys n (AddActiveWitness n db) in
  exists db', AddWitnessChangeEventLog w db1 = (Ok tt, db') /\ keeps Q db db' /\
    load (item_key counterItem witness_actives) db' = safeAdd (ActiveWtiness db) n.
Proof.
  intros H1 H2 O db1.
  assert (keeps Q db (AddActiveWitness n db)) as K1 by (apply writes_sub; [apply H2|done]).
  assert (keeps Q (AddActiveWitness n db) db1) as K2 by (apply AddWitnessCount_frame; [done|apply K1]).
  destruct (emit_fits WitnessChangeEvent
    [AbiAddress (wi_Address w); AbiUint8 (Status w mod 2 ^ 8); AbiUint64 (Margin w);
     AbiUint16 (uint16 (wi_GroupIndex w)); AbiUint8 (Index w mod 2 ^ 8)] db1 eq_refl (k_ok _ _ _ K2)) as [d Ed].
  exists (AddLog (Id WitnessChangeEvent) d db1). split; [exact Ed|]. split.
  - eapply keepsQ_trans; [exact K1|]. eapply keepsQ_trans; [exact K2|]. apply keeps_AddLog, K2.
  - rewrite load_AddLog by apply K2.
    assert (keeps (fun k => exists x, k = SafeHash256 (T_counter :: x)) (AddActiveWitness n db) db1) as K3.
    { apply AddWitnessCount_frame; [|apply K1]. intros x [y E]. apply SafeHash256_inj in E. discriminate E. }
    rewrite (k_load _ _ _ K3) by (by exists [witness_actives]). by apply load_SaveSub_same.
Qed.

Lemma list_new db all a :
  holds all_witnesses db all -> valid_address a -> member a ∉ all -> is_u64 (Z.of_nat (length all) + 1) ->
  holds all_witnesses (add_to all_witnesses a db) (all ++ [member a]).
Proof.
  intros H V N R. destruct (member_value a V) as [_ W].
  apply (SetAdd_spec all_witnesses db all (VAddress a)); [done|done|unfold member in W; lia|done].
Qed.

Lemma Update_new w db all :
  holds all_witnesses db all -> Status w = WitnessNormal -> valid_address (wi_Address w) ->
  member (wi_Address w) ∉ all -> is_u64 (Z.of_nat (length all) + 1) ->
  exists db', UpdateAcitvieWitenssLib w db = (Ok tt, db') /\ keeps outside_lists db db' /\
    holds all_witnesses db' (all ++ [member (wi_Address w)]) /\
    load (item_key counterItem witness_actives) db' = u64 (ActiveWtiness db + 1).
Proof.
  intros H Hs V N R. pose proof (h_ok _ _ _ H) as O.
  set (db1 := add_to all_witnesses (wi_Address w) db).
  assert (forall Q, (forall x, ~ Q (SafeHash256 (T_all :: x))) -> keeps Q db db1) as K1.
  { intros Q HQ. apply writes_add_to; [|done]. intros x. apply HQ. }
  pose proof (list_new db all _ H V N R) as H1.
  destruct (count_event (fun k => outside_lists k \/ exists x, k = SafeHash256 (T_all :: x)) w 1
    (GetSettlePeriod (ApplyHeight w)) (wi_GroupIndex w =? DefSysGroupIndex) db1) as (db' & E & K & Ec).
  { intros x [Ho|[y Ey]]; [apply (off_tag _ _ _ Ho); by right; right; left|].
    apply SafeHash256_inj in Ey. vm_compute in Ey. discriminate Ey. }
  { intros x [Ho|[y Ey]]; [apply (off_tag _ _ _ Ho); by right; left|].
    apply SafeHash256_inj in Ey. vm_compute in Ey. discriminate Ey. }
  { apply H1. }
  exists db'. split_and!.
  - unfold UpdateAcitvieWitenssLib. rewrite Hs. exact E.
  - eapply keepsQ_trans; [apply (K1 outside_lists); intros x Ho; apply (off_tag _ _ _ Ho); by left|].
    split; [apply K|]. intros k Hk. apply K. by left.
  - apply (holds_keeps _ _ _ _ K); [|done]. intros x. right. by exists x.
  - rewrite Ec. unfold safeAdd. cbn [Z.geb Z.compare]. do 2 f_equal. unfold ActiveWtiness, GetSub. f_equal.
    apply (K1 (fun k => k = item_key counterItem witness_actives)); [|done].
    intros x Ex. apply SafeHash256_inj in Ex. vm_compute in Ex. discriminate Ex.
Qed.

Lemma Update_exit w db :
  storage_ok db -> Status w = WitnessLoggedOut \/ Status w = WitnessInBlackList ->
  exists db', UpdateAcitvieWitenssLib w db = (Ok tt, db') /\ keeps (off [T_counter; T_period]) db db' /\
    load (item_key counterItem witness_actives) db' = Word.ForceSafeSub (ActiveWtiness db) 1.
Proof.
  intros O Hs.
  destruct (count_event (off [T_counter; T_period]) w (-1) (GetSettlePeriod (CancelHeight w))
    (wi_GroupIndex w =? DefSysGroupIndex) db) as (db' & E & K & Ec); [..|done|].
  { intros x Ho. apply (off_tag _ _ _ Ho). by right; left. }
  { intros x Ho. apply (off_tag _ _ _ Ho). by left. }
  exists db'. split_and!; [|done|by rewrite Ec].
  unfold UpdateAcitvieWitenssLib. destruct Hs as [-> | ->]; exact E.
Qed.

(** ** Joining *)

Ltac no_tag := let H := fresh in intros H; repeat (apply elem_of_cons in H as [H|H]; [vm_compute in H; discriminate H|]); by apply not_elem_of_nil in H.

Lemma wkey_off ts x key : T_witness ∉ ts -> off ts (wkey x key).
Proof. intros N. apply (off_other ts T_witness ([addr_value (hash_address x)] ++ [key]) N). Qed.
Lemma wkey_outside_groups x key : outside_groups (wkey x key).
Proof. split; [apply wkey_off; no_tag|apply count_key_fresh]. Qed.

(** A new member of group [gp], and the same members elsewhere. *)
Record joined gs gs' (gp : nat) (x : Hash) : Prop := {
  jo_in : exists g, gs' !! gp = Some g /\ x ∈ g;
  jo_other i g y : gs' !! i = Some g -> y ∈ g -> y <> x -> exists g0, gs !! i = Some g0 /\ y ∈ g0;
  jo_all : concat gs' ≡ₚ x :: concat gs;
  jo_length : (length gs' <= length gs + 1)%nat
}.

Lemma joined_insert gs gp g x : gs !! gp = Some g -> joined gs (<[gp := g ++ [x]]> gs) gp x.
Proof.
  intros E. split.
  - exists (g ++ [x]). split; [apply list_lookup_insert_eq; by eapply lookup_lt_Some|set_solver].
  - intros i h y Ei Hy N. apply list_lookup_insert_Some in Ei as [(<- & <- & _)|[_ Ei]]; [|by exists h].
    exists g. split; [done|]. set_solver.
  - destruct (concat_insert gs gp g (g ++ [x]) E) as [P1 P2]. rewrite P2, P1, <- app_assoc. cbn. by rewrite Permutation_middle.
  - rewrite length_insert. lia.
Qed.

Lemma joined_snoc gs x : joined gs (gs ++ [[x]]) (length gs) x.
Proof.
  split.
  - exists [x]. split; [|set_solver]. by rewrite lookup_app_r, Nat.sub_diag by lia.
  - intros i h y Ei Hy N. apply lookup_snoc_Some in Ei as [[_ Ei]|[_ <-]]; [by exists h|]. set_solver.
  - rewrite concat_app. cbn. by rewrite Permutation_app_comm.
  - rewrite length_app. done.
Qed.

Lemma registry_join db db1 gs gs' gp all w :
  registry db gs all -> groups db1 gs' -> keeps outside_groups db db1 -> joined gs gs' gp (member (wi_Address w)) ->
  valid_address (wi_Address w) -> member (wi_Address w) ∉ all -> is_u64 (Z.of_nat (length all) + 1) ->
  Status w = WitnessNormal -> wi_GroupIndex w = Z.of_nat gp ->
  exists db', bind (WriteWitnessInfo w) (fun _ => UpdateAcitvieWitenssLib w) db1 = (Ok tt, db') /\
              registry db' gs' (all ++ [member (wi_Address w)]).
Proof.
  intros R G1 K1 J V N Hr Hs Hg. set (x := member (wi_Address w)) in *.
  destruct (member_value _ V) as [_ Wx]. fold x in Wx. pose proof (concat_all _ _ _ R) as Hc.
  destruct (WriteWitnessInfo_spec w db1 (g_ok _ _ G1)) as (db2 & E2 & K2 & F1 & F2 & F3).
  assert (holds all_witnesses db2 all) as H2.
  { apply (holds_keeps _ db1 _ _ K2).
    - intros y. split; [apply off_other; no_tag|]. intros key Ek. apply SafeHash256_inj in Ek. vm_compute in Ek. discriminate Ek.
    - apply (holds_keeps _ db _ _ K1); [|apply R]. intros y. split; [apply off_other; no_tag|apply count_key_fresh]. }
  destruct (Update_new w db2 all H2 Hs V N Hr) as (db3 & E3 & K3 & H3 & Ec).
  exists db3. split; [unfold bind; by rewrite E2|].
  rewrite (witness_item_member _ V) in F1, F2, F3. fold x (wkey x nil_key) (wkey x status_key) (wkey x group_field) in F1, F2, F3.
  assert (forall y key, load (wkey y key) db3 = load (wkey y key) db2) as E32.
  { intros y key. apply K3, wkey_off. no_tag. }
  assert (forall y key, is_address y -> y <> x -> load (wkey y key) db3 = load (wkey y key) db) as E30.
  { intros y key Hy Ny. rewrite E32. rewrite (k_load _ _ _ K2).
    - apply K1, wkey_outside_groups.
    - split; [apply wkey_off; no_tag|]. intros key' Ek. rewrite (witness_item_member _ V) in Ek. fold x in Ek.
      by apply wkey_inj in Ek as [-> _]. }
  assert (forall k, group_slot k -> load k db3 = load k db1) as Eg.
  { intros k Hk. assert (k = PrefixWitnessGroupCount \/ exists y, k = SafeHash256 (T_group :: y)) as Hk'.
    { destruct Hk as [->|(i & _ & (y & ->)%owned_sub)]; [by left|right; by eexists]. }
    rewrite (k_load _ _ _ K3), (k_load _ _ _ K2); [done|..].
    - split.
      + destruct Hk' as [->|[y ->]]; [intros t z _ E; symmetry in E; by apply count_key_fresh in E|apply off_other; no_tag].
      + intros key ->. destruct Hk' as [E|[y E]]; [by apply count_key_fresh in E|].
        apply SafeHash256_inj in E. vm_compute in E. discriminate E.
    - destruct Hk' as [->|[y ->]]; [intros t z _ E; symmetry in E; by apply count_key_fresh in E|apply off_other; no_tag]. }
  split.
  - apply (groups_keeps db1); [split; [apply K3|exact Eg]|done].
  - exact H3.
  - intros y Hy. rewrite elem_of_app, list_elem_of_singleton. destruct (decide (y = x)) as [->|Ny].
    + rewrite E32, F1. split; [by right|lia].
    + rewrite (E30 y nil_key Hy Ny). rewrite (rg_known _ _ _ R y Hy). split; [by left|by intros [?| ->]].
  - intros y Hy Ny. apply not_elem_of_app in Ny as [Ny Nx]. rewrite (E30 y status_key Hy); [by apply R|].
    intros ->. apply Nx. by left.
  - intros i g y Ei Hyg. rewrite elem_of_app, list_elem_of_singleton. destruct (decide (y = x)) as [->|Ny].
    + rewrite !E32, F2, F3, Hs, Hg. split_and!; [by right|done|]. f_equal.
      destruct (jo_in _ _ _ _ J) as (g1 & E1 & Hx1). by apply (one_group _ _ _ _ _ _ x G1 E1 Ei).
    + destruct (jo_other _ _ _ _ J i g y Ei Hyg Ny) as (g0 & E0 & H0).
      destruct (rg_member _ _ _ R i g0 y E0 H0) as (Ha & Hst & Hgi).
      pose proof (proj2 (group_words _ _ _ _ (rg_groups _ _ _ R) E0) y H0) as Hy.
      rewrite !(E30 y _ Hy Ny). by split_and!; [left| |].
  - intros y Hy. apply elem_of_app in Hy as [Hy|Hy%list_elem_of_singleton].
    + destruct (rg_former _ _ _ R y Hy) as [Ay Hf]. split; [done|]. intros Ny. rewrite (jo_all _ _ _ _ J) in Ny.
      apply not_elem_of_cons in Ny as [Nx Ny]. rewrite (E30 y _ Ay Nx). by apply Hf.
    + subst y. split; [done|]. intros Ny. exfalso. apply Ny. rewrite (jo_all _ _ _ _ J). by left.
  - rewrite Ec. unfold ActiveWtiness, GetSub.
    assert (load (item_key counterItem witness_actives) db2 = load (item_key counterItem witness_actives) db) as ->.
    { rewrite (k_load _ _ _ K2), (k_load _ _ _ K1); [done|..].
      - split; [apply (off_other _ T_counter); no_tag|apply count_key_fresh].
      - split; [apply (off_other _ T_counter); no_tag|]. intros key E. apply SafeHash256_inj in E. vm_compute in E. discriminate E. }
    rewrite (rg_count _ _ _ R), (jo_all _ _ _ _ J). cbn [length]. unfold Word.Uint64.
    rewrite (u64_small (Z.of_nat (length (concat gs)))) by lia. rewrite u64_small by lia. lia.
Qed.

(** ** Leaving *)

Definition outside_status a (k : Hash) : Prop :=
  k <> item_key (witness_item a) status_key /\ k <> item_key (witness_item a) (Str (str "cancel_height")).

Lemma DelWitnessInfo_spec a n status db :
  storage_ok db -> keeps (outside_status a) db (DelWitnessInfo a n status db) /\
  load (item_key (witness_item a) status_key) (DelWitnessInfo a n status db) = value2hash (VByte status).
Proof.
  intros O. unfold DelWitnessInfo, put. split.
  - eapply keepsQ_trans; [apply writes_sub; [|done]|apply writes_sub; [|by apply save_ok]]; by intros [N1 N2].
  - rewrite load_SaveSub_ne; [by apply load_SaveSub_same|by apply save_ok|]. intros E. vm_compute in E. discriminate E.
Qed.

(** A system's witness leaves without its record being touched. *)
Lemma Cancel_system db gs g k a db' :
  groups db gs -> gs !! 0%nat = Some g -> g !! k = Some (member a) ->
  CancelWitnessFromWitnessGroup a (Z.of_nat 0) db = (Ok tt, db') ->
  forall x, load (group_key x) db' = load (group_key x) db.
Proof.
  intros G Eg Ek E x.
  assert (is_address (member a)) as Ha by (eapply group_words; [exact G|exact Eg|by eapply list_elem_of_lookup_2]).
  destruct (groups_remove count_key_fresh db gs 0 g k _ G Eg Ek) as [_ On].
  unfold CancelWitnessFromWitnessGroup, bind, gets, puts in E. rewrite (Exist_member db gs 0 g a k G Eg Ha Ek) in E.
  injection E as <-. exact (record_only _ _ _ _ On).
Qed.

(** What leaving does to a slot: nothing, unless it belongs to a group, to the
    group of a record, to the lists, or to the leaver's status. *)
Lemma exit_frames w db gs i g k :
  ledger db gs -> gs !! i = Some g -> g !! k = Some (member (wi_Address w)) -> valid_address (wi_Address w) ->
  wi_GroupIndex w = Z.of_nat i -> Status w = WitnessLoggedOut \/ Status w = WitnessInBlackList ->
  let x := member (wi_Address w) in
  forall n, exists db' gs',
    onWitnessExit n w db = (Ok tt, db') /\ ledger db' gs' /\ x :: concat gs' ≡ₚ concat gs /\
    fixed (<[i := delete k g]> gs) gs' i (delete k g) /\
    load (wkey x status_key) db' = Status w /\
    (forall j, off [T_group; T_counter; T_period] j -> j <> PrefixWitnessGroupCount ->
       (forall a, j <> item_key (witness_item a) group_field) -> outside_status (wi_Address w) j -> load j db' = load j db) /\
    load (item_key counterItem witness_actives) db' = Word.ForceSafeSub (ActiveWtiness db) 1 /\
    (i = 0%nat -> load (wkey x group_field) db' = 0).
Proof.
  intros L Eg Ek V Hg Hs x n. set (a := wi_Address w) in *. pose proof (g_ok _ _ (proj1 L)) as O.
  set (w' := mkInfo (Index w) a (Margin w) (ApplyHeight w) n (Status w) (wi_GroupIndex w) (Pubkey w)).
  destruct (DelWitnessInfo_spec a n (Status w) db O) as [K1 F1]. set (db1 := DelWitnessInfo a n (Status w) db) in *.
  assert (forall y key, key <> status_key -> key <> Str (str "cancel_height") -> load (wkey y key) db1 = load (wkey y key) db) as E1.
  { intros y key N1 N2. apply K1. split; intros E%SafeHash256_inj; apply app_inj_2 in E as [_ E]; try done; congruence. }
  assert (ledger db1 gs) as L1.
  { split.
    - apply (groups_keeps db); [|apply L]. apply (keepsQ_trans _ _ (put (witness_item a) (str "status") (VByte (Status w)) db));
        (apply (keeps_SaveSub count_key_fresh); [|apply foreign_witness]); [done|by apply save_ok].
    - intros j h y Ej Hy. rewrite <- (proj2 L j h y Ej Hy).
      apply (E1 y group_field); intros E; vm_compute in E; discriminate E. }
  destruct (cancel_lemma count_key_fresh db1 gs i g k a L1 Eg Ek) as (db2 & gs' & E2 & L2 & P2 & F2).
  pose proof (Cancel_frame a (Z.of_nat i) db1 (g_ok _ _ (proj1 L1))) as K2. rewrite E2 in K2. cbn [snd] in K2.
  destruct (Update_exit w' db2 (g_ok _ _ (proj1 L2)) Hs) as (db3 & E3 & K3 & Ec).
  assert (forall t y, t ∉ [T_counter; T_period] -> load (SafeHash256 (t :: y)) db3 = load (SafeHash256 (t :: y)) db2) as E32.
  { intros t y Nt. apply K3. by apply off_other. }
  exists db3, gs'. split_and!; [| |done|done|..].
  - unfold onWitnessExit. assert ((Status w =? WitnessNormal) = false) as -> by (destruct Hs as [-> | ->]; done).
    unfold bind, puts. cbn [wi_Address wi_GroupIndex CancelHeight Status]. fold a w' db1. rewrite Hg, E2. exact E3.
  - split.
    + apply (groups_keeps db2); [split; [apply K3|]|apply L2]. intros j [->|(m & _ & (y & ->)%owned_sub)].
      * apply K3. intros t z _ E. symmetry in E. by apply count_key_fresh in E.
      * apply (E32 T_group). no_tag.
    + intros j h y Ej Hy. rewrite <- (proj2 L2 j h y Ej Hy). apply (E32 T_witness). no_tag.
  - assert (load (wkey x status_key) db3 = load (wkey x status_key) db2) as -> by (apply (E32 T_witness); no_tag).
    rewrite (k_load _ _ _ K2).
    + unfold x. rewrite (witness_item_member a V) in F1. unfold wkey in *. rewrite F1. by destruct Hs as [-> | ->].
    + split; [apply wkey_outside_groups|]. intros b E%SafeHash256_inj. apply app_inj_2 in E as [_ E]; [|done].
      vm_compute in E. discriminate E.
  - intros j Hj Nc Ng Hst. rewrite (k_load _ _ _ K3), (k_load _ _ _ K2).
    + by apply K1.
    + split; [split; [|done]|done]. intros t y Ht. apply Hj. apply list_elem_of_singleton in Ht as ->. by left.
    + intros t y Ht. apply Hj. by right.
  - rewrite Ec. unfold ActiveWtiness, GetSub. rewrite (k_load _ _ _ K2), (k_load _ _ _ K1); [done|..].
    + split; intros E%SafeHash256_inj; vm_compute in E; discriminate E.
    + split; [split; [apply (off_other _ T_counter); no_tag|apply count_key_fresh]|].
      intros b E%SafeHash256_inj. vm_compute in E. discriminate E.
  - intros ->. assert (load (wkey x group_field) db3 = load (wkey x group_field) db2) as -> by (apply (E32 T_witness); no_tag).
    change (wkey x group_field) with (group_key x). rewrite (Cancel_system db1 gs g k a db2 (proj1 L1) Eg Ek E2).
    by apply (proj2 L1 0%nat g), list_elem_of_lookup_2 with (i := k).
Qed.

Lemma registry_exit w db gs all i g k :
  registry db gs all -> gs !! i = Some g -> g !! k = Some (member (wi_Address w)) -> valid_address (wi_Address w) ->
  wi_GroupIndex w = Z.of_nat i -> Status w = WitnessLoggedOut \/ Status w = WitnessInBlackList ->
  forall n, exists db' gs',
    onWitnessExit n w db = (Ok tt, db') /\ registry db' gs' all /\
    member (wi_Address w) :: concat gs' ≡ₚ concat gs /\ fixed (<[i := delete k g]> gs) gs' i (delete k g) /\
    load (wkey (member (wi_Address w)) status_key) db' = Status w /\
    (i = 0%nat -> load (wkey (member (wi_Address w)) group_field) db' = 0).
Proof.
  intros R Eg Ek V Hg Hs n. set (x := member (wi_Address w)) in *.
  destruct (exit_frames w db gs i g k (registry_ledger _ _ _ R) Eg Ek V Hg Hs n) as (db' & gs' & E & L & Pm & F & Es & K & Ec & Eg0).
  fold x in Pm, Es, Eg0. exists db', gs'. split_and!; try done.
  pose proof (list_elem_of_lookup_2 _ _ _ Ek) as Hx.
  destruct (rg_member _ _ _ R i g x Eg Hx) as (Xall & Xs & Xg).
  assert (forall y key, is_address y -> key <> group_field -> (key <> status_key \/ y <> x) -> key <> Str (str "cancel_height") ->
    load (wkey y key) db' = load (wkey y key) db) as Ew.
  { intros y key Hy Ng Hne Nc. apply K.
    - apply wkey_off. no_tag.
    - apply count_key_fresh.
    - intros b Eb%SafeHash256_inj. by apply app_inj_2 in Eb as [_ [= Eb]].
    - unfold outside_status. rewrite (witness_item_member _ V). fold x. split; intros Eb.
      + apply wkey_inj in Eb as [-> ->]; [by destruct Hne|done|by apply (member_value _ V)].
      + apply wkey_inj in Eb as [_ ->]; [done|done|by apply (member_value _ V)]. }
  assert (nil_key <> group_field /\ nil_key <> status_key /\ nil_key <> Str (str "cancel_height") /\ status_key <> group_field /\
          status_key <> Str (str "cancel_height")) as (N1 & N2 & N3 & N4 & N5).
  { by split_and!; intros Eb; vm_compute in Eb. }
  assert (NoDup (x :: concat gs')) as D by (rewrite Pm; apply (rg_groups _ _ _ R)).
  apply list.NoDup_cons in D as [Nx D].
  split.
  - apply L.
  - apply (holds_ext _ db); [apply L| |apply R]. intros j (y & ->)%owned_sub. apply K.
    + apply (off_other _ T_all). no_tag.
    + apply count_key_fresh.
    + intros b Eb%SafeHash256_inj. vm_compute in Eb. discriminate Eb.
    + split; intros Eb%SafeHash256_inj; vm_compute in Eb; discriminate Eb.
  - intros y Hy. rewrite (Ew y nil_key Hy N1 (or_introl N2) N3). by apply R.
  - intros y Hy Ny. rewrite (Ew y status_key Hy N4); [by apply R| |done]. right. by intros ->.
  - intros j h y Ej Hy. pose proof (in_groups count_key_fresh gs' j h y Ej Hy) as Hc.
    assert (y <> x) as Nyx by (by intros ->). assert (y ∈ concat gs) as Hc' by (rewrite <- Pm; by right).
    apply list_elem_of_In, in_concat in Hc' as (h0 & Hh0 & Hy0). rewrite <- list_elem_of_In in Hh0.
    rewrite <- list_elem_of_In in Hy0. apply list_elem_of_lookup in Hh0 as [j0 Ej0].
    destruct (rg_member _ _ _ R j0 h0 y Ej0 Hy0) as (Ya & Ys & _).
    pose proof (proj2 (group_words _ _ _ _ (rg_groups _ _ _ R) Ej0) y Hy0) as Ay.
    split_and!; [done| |exact (proj2 L j h y Ej Hy)]. by rewrite (Ew y status_key Ay N4 (or_intror Nyx) N5).
  - intros y Hy. destruct (rg_former _ _ _ R y Hy) as [Ay Hf]. split; [done|]. intros Ny.
    destruct (decide (y = x)) as [->|Nyx]; [by rewrite Es|].
    rewrite (Ew y status_key Ay N4 (or_intror Nyx) N5). apply Hf. rewrite <- Pm. apply not_elem_of_cons. done.
  - rewrite Ec. unfold ActiveWtiness, GetSub. rewrite (rg_count _ _ _ R), <- Pm. cbn [length].
    pose proof (concat_all _ _ _ R) as Hl. pose proof (h_room _ _ _ (rg_all _ _ _ R)). rewrite <- Pm in Hl. cbn [length] in Hl.
    unfold Word.Uint64. rewrite u64_small by lia. unfold Word.ForceSafeSub. destruct (Z.leb_spec (Z.of_nat (S (length (concat gs')))) 1); lia.
Qed.

(** ** The operations *)

Lemma registry_keeps db db' gs all : keeps (fun _ => True) db db' -> registry db gs all -> registry db' gs all.
Proof.
  intros [O E] R. assert (forall k, load k db' = load k db) as E' by (intros k; by apply E).
  split.
  - apply (groups_keeps db); [split; [done|by intros]|apply R].
  - apply (holds_ext _ db); [done|by intros|apply R].
  - intros x. rewrite E'. apply R.
  - intros x. rewrite E'. apply R.
  - intros i g x. rewrite !E'. apply R.
  - intros x. rewrite !E'. apply R.
  - rewrite E'. apply R.
Qed.

Lemma Transfer_keeps a b n db : storage_ok db -> keeps (fun _ => True) db (Transfer a b n db).
Proof.
  intros O. pose proof (SubBalance_ok a n db O) as O1. unfold Transfer. split; [by apply AddBalance_ok|].
  intros k _. rewrite load_AddBalance by done. by apply load_SubBalance.
Qed.

(** What [GetWitnessInfo] reads. *)
Lemma GetWitnessInfo_spec db gs all a :
  registry db gs all -> valid_address a ->
  (member a ∉ all -> GetWitnessInfo a db = Err ErrNoWintessInfo) /\
  (member a ∈ all -> exists w, GetWitnessInfo a db = Ok w /\ wi_Address w = a /\
     Status w = load (wkey (member a) status_key) db /\ wi_GroupIndex w = Word.Uint64 (load (wkey (member a) group_field) db)).
Proof.
  intros R V. destruct (member_value a V) as [_ W]. unfold GetWitnessInfo, field, GetSub.
  rewrite (witness_item_member a V). fold status_key (wkey (member a) status_key). split.
  - intros N. by rewrite (rg_unknown _ _ _ R _ W N).
  - intros Hin. assert (exists i, is_u64 i /\ i < 256 /\ i <> 0 /\ load (wkey (member a) status_key) db = i) as (st & H1 & H2 & H3 & ->).
    { destruct (rg_former _ _ _ R _ Hin) as [_ Hf]. destruct (decide (member a ∈ concat gs)) as [Hc|Hc].
      - apply list_elem_of_In, in_concat in Hc as (g & Hg & Hx). rewrite <- list_elem_of_In in Hg.
        rewrite <- list_elem_of_In in Hx. apply list_elem_of_lookup in Hg as [i Ei].
        exists 1. destruct (rg_member _ _ _ R i g _ Ei Hx) as (_ & -> & _). done.
      - destruct (Hf Hc) as [-> | ->]; [exists 2|exists 3]; done. }
    destruct (Z.eqb_spec st 0); [done|].
    assert (exists pk, get_big (witness_item (hash_address (member a))) (Str (str "pkey")) db = Ok pk) as [pk ->].
    { unfold get_big. pose proof (GetBigData_ok (item_key (witness_item (hash_address (member a))) (Str (str "pkey"))) db
        (g_ok _ _ (rg_groups _ _ _ R))) as HB. destruct (GetBigData _ db); [by eexists|subst; by eexists]. }
    eexists. split; [reflexivity|]. split_and!; [done| |done]. cbn [Status]. unfold byte_of. rewrite Z.mod_small; [done|].
    change (2 ^ 8) with 256. lia.
Qed.

Lemma member_in gs x : x ∈ concat gs -> exists i g k, gs !! i = Some g /\ g !! k = Some x.
Proof.
  intros Hc. apply list_elem_of_In, in_concat in Hc as (g & Hg & Hx). rewrite <- list_elem_of_In in Hg.
  rewrite <- list_elem_of_In in Hx. apply list_elem_of_lookup in Hg as [i Ei]. apply list_elem_of_lookup in Hx as [k Ek]. eauto.
Qed.

Lemma ApplySys_spec db gs a :
  groups db gs -> valid_address a -> member a ∉ concat gs -> Z.of_nat (length (concat gs)) + 1 < 2 ^ 64 ->
  exists g, gs !! 0%nat = Some g /\
  if (55 <? length g + 1)%nat then ApplyWitnessGroupOfSys a db = (Err ErrMaxWitnessLimit, db)
  else exists db', ApplyWitnessGroupOfSys a db = (Ok 0, db') /\ groups db' (<[0%nat := g ++ [member a]]> gs).
Proof.
  intros G V N R. destruct (lookup_lt_is_Some_2 gs 0) as [g Eg]; [apply G|]. exists g. split; [done|].
  assert (length g <= length (concat gs))%nat as Hl.
  { rewrite (proj1 (concat_insert gs 0 g g Eg)), length_app. lia. }
  pose proof (Len_spec _ _ _ (group_holds db gs 0 g G Eg)) as El. change (Z.of_nat 0) with DefSysGroupIndex in El.
  unfold ApplyWitnessGroupOfSys, bind, gets, puts, ret. rewrite El.
  change ConfigParamsSCWitnessCap with 55. rewrite Z.gtb_ltb, u64_small by lia.
  destruct (Nat.ltb_spec 55 (length g + 1)), (Z.ltb_spec 55 (Z.of_nat (length g) + 1)); try lia; [done|].
  rewrite (g_count _ _ G). pose proof (g_some _ _ G).
  destruct (Z.eqb_spec (Z.of_nat (length gs)) 0); [lia|]. rewrite andb_false_r.
  destruct (groups_add count_key_fresh db gs 0 g a G Eg V N) as [G' _]; [lia|lia|].
  eexists. split; [reflexivity|exact G'].
Qed.

Lemma unknown_of_check db gs all a :
  registry db gs all -> valid_address a -> CheckMemberType a db = Ok tt -> member a ∉ all.
Proof.
  intros R V E Hin. destruct (member_value a V) as [_ W]. unfold CheckMemberType in E.
  do 2 (destruct (bool_decide _); [done|]). unfold ExistWitness, GetSub in E. rewrite (witness_item_member a V) in E.
  fold (wkey (member a) nil_key) in E. apply (rg_known _ _ _ R _ W) in Hin.
  destruct (Z.eqb_spec (load (wkey (member a) nil_key) db) 0); done.
Qed.

(** What an application answers and leaves: a new witness, in the system's group
    exactly when it applied there, or an error and the state as it was. *)
Definition applied db gs all from (publicKey : bytes) (isSys : bool) (out : result error unit * DB) : Prop :=
  let '(res, db') := out in
  match res with
  | Ok _ =>
      publicKey <> [] /\ CheckMemberType from db = Ok tt /\ member from ∉ all /\
      exists gs', registry db' gs' (all ++ [member from]) /\
        (concat gs' ≡ₚ member from :: concat gs /\ (length gs' <= length gs + 1)%nat) /\
        exists i g, gs' !! i = Some g /\ member from ∈ g /\ (isSys = true <-> i = 0%nat)
  | Err e =>
      db' = db /\
      ((publicKey = [] /\ e = ErrEmptyPublicKey) \/ CheckMemberType from db = Err e \/
       (isSys = true /\ e = ErrMaxWitnessLimit /\ exists g, gs !! 0%nat = Some g /\ (55 <= length g)%nat))
  end.

Lemma applyWitness_lemma db gs all from value n publicKey isSys :
  registry db gs all -> valid_address from -> Z.of_nat (length gs) + 1 < 2 ^ 64 -> Z.of_nat (length all) + 1 < 2 ^ 64 ->
  applied db gs all from publicKey isSys (applyWitness from value n publicKey isSys db).
Proof.
  intros R V Hg Ha. unfold applyWitness. destruct (bool_decide_reflect (publicKey = [])) as [Ep|Np]; [by split; [|left]|].
  unfold bind at 1, read. destruct (CheckMemberType from db) as [[]|e] eqn:Ec; [|by split; [|right; left]].
  destruct (member_value from V) as [_ W]. pose proof (concat_all _ _ _ R) as Hl.
  assert (member from ∉ all) as Nall by (by eapply unknown_of_check).
  assert (member from ∉ concat gs) as Nc.
  { intros (i & g & k & Ei & Ek)%member_in. by apply Nall, (rg_member _ _ _ R i g), list_elem_of_lookup_2 with (i := k). }
  destruct isSys.
  - pose proof (ApplySys_frame from db (g_ok _ _ (rg_groups _ _ _ R))) as K.
    destruct (ApplySys_spec db gs from (rg_groups _ _ _ R) V Nc ltac:(lia)) as (g & Eg & H).
    destruct (Nat.ltb_spec 55 (length g + 1)) as [Hfull|Hroom].
    + unfold bind. rewrite H. split; [done|]. right; right. split_and!; [done|done|]. exists g. split; [done|lia].
    + destruct H as (db1 & E & G1). rewrite E in K. unfold bind at 1. rewrite E.
      destruct (registry_join db db1 gs (<[0%nat:=g ++ [member from]]> gs) 0 all
        (mkInfo 0 from value n 0 WitnessNormal 0 publicKey) R G1 K (joined_insert gs 0 g _ Eg) V Nall ltac:(lia) eq_refl eq_refl)
        as (db' & -> & R'). split_and!; [done|done|done|]. exists (<[0%nat:=g ++ [member from]]> gs).
      pose proof (joined_insert gs 0 g (member from) Eg) as J. split_and!; [done|apply J..|].
      destruct (jo_in _ _ _ _ J) as (g1 & E1 & H1). by exists 0%nat, g1.
  - pose proof (ApplyUser_frame from db (g_ok _ _ (rg_groups _ _ _ R))) as K.
    destruct (join_lemma count_key_fresh db gs from (rg_groups _ _ _ R) V Nc Hg) as (gp & db1 & E & Hgp & _ & H).
    rewrite E in K. unfold bind at 1. rewrite E.
    assert (exists gs', groups db1 gs' /\ joined gs gs' gp (member from)) as (gs' & G1 & J).
    { destruct H as [(g & Eg & _ & G1 & _)|(-> & G1 & _)]; eexists; (split; [exact G1|]).
      - by apply joined_insert.
      - apply joined_snoc. }
    destruct (registry_join db db1 gs gs' gp all (mkInfo 0 from value n 0 WitnessNormal (Z.of_nat gp) publicKey)
      R G1 K J V Nall ltac:(lia) eq_refl eq_refl) as (db' & -> & R').
    split_and!; [done|done|done|]. exists gs'. split_and!; [done|apply J..|].
    destruct (jo_in _ _ _ _ J) as (g1 & E1 & H1). exists gp, g1. split_and!; [done..|]. split; [done|lia].
Qed.

(** C16: applying for a witness keeps the register in agreement: the groups, the
    set of all witnesses, every witness's record and the counter of active ones.
    The applicant becomes a member of one group, the system's exactly if it
    applied there, and the end of the list of all; an error (no public key, an
    account that is or was a member, or a system's group of 55) leaves the state
    as it was. *)
Theorem applyWitness_spec db gs all from value n publicKey isSys :
  registry db gs all -> valid_address from -> Z.of_nat (length gs) + 1 < 2 ^ 64 -> Z.of_nat (length all) + 1 < 2 ^ 64 ->
  applied db gs all from publicKey isSys (applyWitness from value n publicKey isSys db).
Proof. apply applyWitness_lemma. Qed.

(** A member's removal, up to the payment of its margin. *)
Lemma remove_member db gs all c a late i g k :
  registry db gs all -> valid_address a -> gs !! i = Some g -> g !! k = Some (member a) ->
  exists db' gs', removeWitness c a late db = (Ok tt, db') /\ registry db' gs' all /\
    member a :: concat gs' ≡ₚ concat gs /\ fixed (<[i := delete k g]> gs) gs' i (delete k g) /\
    load (wkey (member a) status_key) db' = WitnessLoggedOut /\
    (i = 0%nat -> load (wkey (member a) group_field) db' = 0).
Proof.
  intros R V Eg Ek. pose proof (list_elem_of_lookup_2 _ _ _ Ek) as Hx.
  destruct (rg_member _ _ _ R i g _ Eg Hx) as (Ha & Hs & Hg).
  destruct (proj2 (GetWitnessInfo_spec db gs all a R V) Ha) as (w & Ew & Eaddr & Es & Egi).
  set (n := Word.Uint64 (UnitNumber c)). set (w' := with_status w WitnessLoggedOut n).
  assert (leaving a n db = (Ok w', db)) as El.
  { unfold leaving, bind, read. rewrite Ew, bool_decide_true by done. cbn [negb]. rewrite Es, Hs. done. }
  set (db1 := if Margin w' >? 0 then
     Transfer SCAccount a (if late then calcPercentMoney (Margin w') SystemWitnessTimeoutPunish else Margin w') db else db).
  assert (keeps (fun _ => True) db db1) as K1.
  { unfold db1. destruct (_ >? _); [apply Transfer_keeps|apply keepsQ_refl]; apply (rg_groups _ _ _ R). }
  assert (is_u64 (Z.of_nat i)) as Hi by (apply (count_u64 db gs i (rg_groups _ _ _ R)); apply lookup_lt_Some in Eg; lia).
  destruct (registry_exit w' db1 gs all i g k (registry_keeps _ _ _ _ K1 R) Eg) with (n := n)
    as (db' & gs' & E & R' & Pm & F & Est & Eg0).
  { cbn [w' with_status wi_Address]. by rewrite Eaddr. }
  { cbn [w' with_status wi_Address]. by rewrite Eaddr. }
  { cbn [w' with_status wi_GroupIndex]. rewrite Egi, Hg. by apply u64_small. }
  { by left. }
  cbn [w' with_status wi_Address] in Pm, Est, Eg0. rewrite Eaddr in Pm, Est, Eg0.
  exists db', gs'. split_and!; try done. rewrite <- E. unfold removeWitness. fold n. unfold bind at 1. rewrite El.
  unfold bind, puts, ret, db1. by destruct (Margin w' >? 0).
Qed.

Lemma leaving_fails db gs all a n :
  registry db gs all -> valid_address a -> member a ∉ concat gs ->
  leaving a n db = (Err (if decide (member a ∈ all) then ErrStatusAbnormal else ErrNoWintessInfo), db).
Proof.
  intros R V Nc. destruct (GetWitnessInfo_spec db gs all a R V) as [H1 H2]. unfold leaving, bind, read.
  destruct (decide (member a ∈ all)) as [Ha|Na]; [|by rewrite (H1 Na)].
  destruct (H2 Ha) as (w & -> & Eaddr & Es & _). rewrite bool_decide_true by done. cbn [negb].
  destruct (rg_former _ _ _ R _ Ha) as [_ Hf]. rewrite Es. by destruct (Hf Nc) as [-> | ->].
Qed.

(** C17: removing a witness keeps the register in agreement.  It succeeds exactly
    for a member of a group, which leaves it with the status of one logged out;
    the others stay witnesses, though those of its group, or of groups below the
    minimum of eight, may have moved so that groups are filled up, and their
    records name their new groups.  For anyone else it fails with the error that
    tells the unknown from those that have left, and the state is unchanged. *)
Theorem removeWitness_spec db gs all c a late :
  registry db gs all -> valid_address a ->
  let '(res, db') := removeWitness c a late db in
  match res with
  | Ok _ => exists i g k gs',
      gs !! i = Some g /\ g !! k = Some (member a) /\
      registry db' gs' all /\ member a :: concat gs' ≡ₚ concat gs /\
      fixed (<[i := delete k g]> gs) gs' i (delete k g) /\
      load (wkey (member a) status_key) db' = WitnessLoggedOut
  | Err e => db' = db /\ member a ∉ concat gs /\ e = if decide (member a ∈ all) then ErrStatusAbnormal else ErrNoWintessInfo
  end.
Proof.
  intros R V. destruct (decide (member a ∈ concat gs)) as [Hc|Nc].
  - destruct (member_in gs _ Hc) as (i & g & k & Eg & Ek).
    destruct (remove_member db gs all c a late i g k R V Eg Ek) as (db' & gs' & -> & R' & Pm & F & Es & _).
    exists i, g, k, gs'. by split_and!.
  - unfold removeWitness, bind at 1. by rewrite (leaving_fails db gs all a _ R V Nc).
Qed.

(** [IsMainSystemWitness] says yes of every system's witness that has been
    removed: its record keeps the system's group, and its index, [-1] for one
    that is not in the set, is not above ten. *)
Theorem former_system_witness_is_main db gs all c a late g :
  registry db gs all -> valid_address a -> gs !! 0%nat = Some g -> member a ∈ g ->
  let '(res, db') := removeWitness c a late db in
  res = Ok tt /\ GetWitnessStatus a db' = (WitnessLoggedOut, true) /\
  a ∉ ReadSystemWitness db' /\ IsMainSystemWitness a db' = true.
Proof.
  intros R V Eg Hx. apply list_elem_of_lookup in Hx as [k Ek].
  destruct (remove_member db gs all c a late 0 g k R V Eg Ek) as (db' & gs' & -> & R' & Pm & F & Es & Eg0).
  specialize (Eg0 eq_refl). destruct (member_value a V) as [_ W].
  assert (member a ∈ all) as Ha by (apply (rg_member _ _ _ R 0%nat g _ Eg); by eapply list_elem_of_lookup_2).
  pose proof (proj2 (rg_known _ _ _ R' _ W) Ha) as Hk.
  assert (NoDup (member a :: concat gs')) as D by (rewrite Pm; apply (rg_groups _ _ _ R)).
  apply list.NoDup_cons in D as [Nx _]. pose proof (rg_groups _ _ _ R') as G'.
  destruct (lookup_lt_is_Some_2 gs' 0) as [g' Eg']; [apply G'|].
  assert (member a ∉ g') as Ng by (intros Hin; apply Nx; by eapply (in_groups count_key_fresh)).
  pose proof (proj2 (Exist_spec (GetWitnessSet (Z.of_nat 0)) db' g' (VAddress a) (group_holds db' gs' 0 g' G' Eg')
    ltac:(unfold member in W; lia)) Ng) as En. change (Z.of_nat 0) with 0 in En.
  unfold GetWitnessStatus, IsMainSystemWitness, GetWitnessGroupIndex, GetWitnessIndex, field, GetSub.
  rewrite (witness_item_member a V). fold status_key group_field. fold (wkey (member a) nil_key) (wkey (member a) status_key) (wkey (member a) group_field).
  rewrite Eg0, Es. destruct (Z.eqb_spec (load (wkey (member a) nil_key) db') 0); [done|]. split_and!; [done|done| |].
  - intros Hin. apply Ng. unfold ReadSystemWitness in Hin. change DefSysGroupIndex with (Z.of_nat 0) in Hin.
    rewrite (GetWitnessListAt_spec db' gs' 0 g' G' Eg') in Hin. apply list_elem_of_fmap in Hin as (y & -> & Hy).
    rewrite member_hash_address; [done|]. by eapply group_words.
  - unfold DefSysGroupIndex. change (Word.Uint64 0) with 0. cbn [Z.eqb andb negb]. by rewrite En.
Qed.

(** The last round in which the contract has a council's heartbeat of [a]. *)
Definition council_round a db : Z :=
  get_uint [Str PrefixCouncilHeartbeat; addr_value a] lastTurn db.

Lemma user_witness_timeout db gs all a i g number :
  registry db gs all -> valid_address a -> (0 < i)%nat -> gs !! i = Some g -> member a ∈ g ->
  IsTimeout a number db =
    (Ok (AccUserWitness, Word.ForceSafeSub (CalcRound number) (council_round a db) >? MaxHeartbeatRound), db).
Proof.
  intros R V Hi Eg Hx. destruct (member_value a V) as [_ W].
  destruct (rg_member _ _ _ R i g _ Eg Hx) as (Ha & Es & Egi).
  pose proof (proj2 (rg_known _ _ _ R _ W) Ha) as Hk.
  assert (is_u64 (Z.of_nat i)) as Hu by (apply (count_u64 db gs i (rg_groups _ _ _ R)); apply lookup_lt_Some in Eg; lia).
  assert (GetWitnessStatus a db = (WitnessNormal, true)) as E1.
  { unfold GetWitnessStatus, field, GetSub. rewrite (witness_item_member a V). fold status_key.
    fold (wkey (member a) nil_key) (wkey (member a) status_key). rewrite Es.
    by destruct (Z.eqb_spec (load (wkey (member a) nil_key) db) 0). }
  assert (IsSystemWitness a db = false) as E2.
  { unfold IsSystemWitness, GetWitnessGroupIndex, field, GetSub. rewrite (witness_item_member a V). fold group_field.
    fold (wkey (member a) nil_key) (wkey (member a) group_field). rewrite Egi. unfold Word.Uint64. rewrite u64_small by done.
    destruct (Z.eqb_spec (Z.of_nat i) 0); [lia|]. cbn [andb]. unfold DefSysGroupIndex. by apply Z.eqb_neq. }
  unfold IsTimeout, bind, gets. rewrite E1. change (WitnessNormal =? WitnessNormal) with true. cbv beta iota.
  cbn [negb]. unfold witnessIsTimeout, bind, gets. cbv beta iota. rewrite E2. done.
Qed.

(** C40: whoever builds a unit can expel any user's witness, whatever heartbeats
    it has sent: from the round after the first 174 on, [handleRemoveTimeout]
    removes it, because a user's witness is judged by the heartbeats of the
    council, of which it has sent none. *)
Theorem witness_expelled_despite_heartbeats db gs all c a i g :
  registry db gs all -> valid_address a -> (0 < i)%nat -> gs !! i = Some g -> member a ∈ g ->
  Coinbase c = Caller c -> council_round a db = 0 -> MaxHeartbeatRound < CalcRound (Word.Uint64 (UnitNumber c)) ->
  let '(res, db') := handleRemoveTimeout c [a] db in
  res = Ok tt /\ GetWitnessStatus a db' = (WitnessLoggedOut, true) /\
  exists gs', registry db' gs' all /\ member a ∉ concat gs'.
Proof.
  intros R V Hi Eg Hx Hc H0 Hn. apply list_elem_of_lookup in Hx as [k Ek].
  destruct (remove_member db gs all c a true i g k R V Eg Ek) as (db' & gs' & Er & R' & Pm & _ & Es & _).
  pose proof (user_witness_timeout db gs all a i g (Word.Uint64 (UnitNumber c)) R V Hi Eg
    (list_elem_of_lookup_2 _ _ _ Ek)) as Et.
  rewrite H0 in Et. unfold Word.ForceSafeSub in Et. change MaxHeartbeatRound with 174 in *.
  destruct (Z.leb_spec (CalcRound (Word.Uint64 (UnitNumber c))) 0) as [|_]; [lia|].
  rewrite Z.sub_0_r, Z.gtb_ltb, (proj2 (Z.ltb_lt _ _) Hn) in Et.
  unfold handleRemoveTimeout. rewrite bool_decide_true by done. cbn [negb length Nat.eqb Nat.ltb Nat.leb].
  unfold bind at 1. cbn [remove_silent]. rewrite Et. cbn [negb]. unfold bind at 1. rewrite Er.
  unfold bind, gets, ret. cbn [Z.add Z.eqb Pos.eqb]. destruct (member_value a V) as [_ W].
  assert (NoDup (member a :: concat gs')) as D by (rewrite Pm; apply (rg_groups _ _ _ R)).
  apply list.NoDup_cons in D as [Nx _].
  assert (member a ∈ all) as Ha by (apply (rg_member _ _ _ R i g _ Eg); by eapply list_elem_of_lookup_2).
  pose proof (proj2 (rg_known _ _ _ R' _ W) Ha) as Hk. split; [done|]. split; [|by exists gs'].
  unfold GetWitnessStatus, field, GetSub. rewrite (witness_item_member a V). fold status_key.
  fold (wkey (member a) nil_key) (wkey (member a) status_key). rewrite Es.
  by destruct (Z.eqb_spec (load (wkey (member a) nil_key) db') 0).
Qed.

End Registry.
End Registry.
