(* ===== verification/ScProposal.v ===== *)
(** Proposals: their records and status, the votes of the council and of the
    public, the campaigns of witnesses and how a proposal is settled
    ([src/core/sc/proposal.go], [proposal_common.go], [proposal_campaign.go],
    [proposal_council_vote.go], [proposal_public_vote.go], [proposal_abi.go]). *)
From stdpp Require Import gmap list.
From S2P Require Import Prelude Bech32 Address EvmWord EvmState StateDb GoSort ScStore ScGroup ScHeart ScWitness ScDuty.

Import Db Store Address Group Heart Witness Duty.

Module Proposal.

(** ** Enumerations *)

Definition VotingResultUnknown : Z := 1.
Definition VotingResultAgree : Z := 2.
Definition VotingResultDisagree : Z := 3.

Definition ProposalTypeCouncilAdd : Z := 1.
Definition ProposalTypeCouncilFire : Z := 2.
Definition ProposalTypeConfigChange : Z := 3.
Definition ProposalTypeSysWitnessCampaign : Z := 4.
Definition ProposalTypeUserWitnessCampaign : Z := 5.

Definition ProposalStatusInApproval : Z := 1.
Definition ProposalStatusInVoting : Z := 2.
Definition ProposalStatusPassed : Z := 3.
Definition ProposalStatusFailed : Z := 4.
Definition ProposalStatusExpired : Z := 5.
Definition ProposalStatusPendingJudge : Z := 6.
Definition ProposalStatusApply : Z := 7.

(** ** Constants *)

Definition Nts : Z := 10 ^ 12.
Definition ConfigParamsUCWitnessMargin : Z := 600000 * Nts.
Definition ConfigParamsSCWitnessMinMargin : Z := 2100000 * Nts.
Definition ConfigParamsCouncilMargin : Z := 110000 * Nts.
Definition OneNumberHaveSecondBySys : Z := 90.
Definition CounciExitNumber : Z := 7 * 24 * 3600 / OneNumberHaveSecondBySys.
Definition ConfigParamsTimeApprove : Z := 15 * 60 * 60 * 24 / OneNumberHaveSecondBySys.
Definition ConfigParamsTimeVoting : Z := 45 * 60 * 60 * 24 / OneNumberHaveSecondBySys.
Definition ProposalSyswitnessApply : Z := 1 * 60 * 60 * 24 / OneNumberHaveSecondBySys.

Definition SysWitnessCapKey : bytes := str "scWitnessCap".
Definition ConfigParamsUCWitnessCap : bytes := str "ucWitnessCap".
Definition ConfigParamsCouncilCap : bytes := str "councilCap".
Definition ConfigParamsLowestGasPrice : bytes := str "lowestGasPrice".
Definition ConfigParamsUcGasLimit : bytes := str "ucGasLimit".
Definition MinConfigPvoteAgreeKey : bytes := str "min_config_pvote_agree".
Definition MinCouncilPvoteAgreeKey : bytes := str "min_council_pvote_agree".

(** ** Data *)

Record Proposal := mkProposal {
  Key : Hash; Type_ : Z; p_Margin : Z; ConfigKey : bytes; ConfigValue : Z;
  Applicant : Address; FireAddress : Address;
  TimeApply : Z; TimeVote : Z; TimeFinalize : Z; p_Status : Z;
  NumberApply : Z; NumberFinalize : Z; NumberVote : Z; numberCurrent : Z; RecruitingSum : Z
}.

Definition set_Status (s : Z) (p : Proposal) : Proposal :=
  mkProposal (Key p) (Type_ p) (p_Margin p) (ConfigKey p) (ConfigValue p) (Applicant p) (FireAddress p)
    (TimeApply p) (TimeVote p) (TimeFinalize p) s (NumberApply p) (NumberFinalize p) (NumberVote p) (numberCurrent p) (RecruitingSum p).
Definition set_Finalize (n t : Z) (p : Proposal) : Proposal :=
  mkProposal (Key p) (Type_ p) (p_Margin p) (ConfigKey p) (ConfigValue p) (Applicant p) (FireAddress p)
    (TimeApply p) (TimeVote p) t (p_Status p) (NumberApply p) n (NumberVote p) (numberCurrent p) (RecruitingSum p).
Definition set_Voting (n t : Z) (p : Proposal) : Proposal :=
  mkProposal (Key p) (Type_ p) (p_Margin p) (ConfigKey p) (ConfigValue p) (Applicant p) (FireAddress p)
    (TimeApply p) t (TimeFinalize p) (p_Status p) (NumberApply p) n (NumberVote p) (numberCurrent p) (RecruitingSum p).
Definition set_RecruitingSum (n : Z) (p : Proposal) : Proposal :=
  mkProposal (Key p) (Type_ p) (p_Margin p) (ConfigKey p) (ConfigValue p) (Applicant p) (FireAddress p)
    (TimeApply p) (TimeVote p) (TimeFinalize p) (p_Status p) (NumberApply p) (NumberFinalize p) (NumberVote p) (numberCurrent p) n.

Record Campaign := mkCampaign { c_Address : Address; c_Margin : Z; c_Time : Z; c_PublicKey : bytes }.
Record CouncilVote := mkCouncilVote { cv_Addr : Address; cv_Op : Z; cv_Time : Z }.
Record PublicVote := mkPublicVote { pv_Addr : Address; pv_Value : Z; pv_Op : Z; pv_Time : Z }.

(** What a call is given beyond [Ctx]: the rest of [vm.Context], the chain's
    configuration and the public key of the transaction's signer. *)
Record Env := mkEnv {
  env_ctx :> Ctx;
  Time : Z;
  SCNumber : Z;
  EnableSimulation : bool;
  SenderKey : result error bytes;
  CanChange : bytes -> bool;
  consensusConfig : bytes -> option Z
}.
Definition unit_number (e : Env) : Z := Word.Uint64 (UnitNumber e).
Definition now (e : Env) : Z := Word.Uint64 (Time e).
Definition config (e : Env) (id : bytes) : result error Z :=
  match consensusConfig e id with Some v => Ok v | None => Err ErrPanic end.

(** [vm.ChainContext], as far as the weight of a vote needs it. *)
Record SourceHeader := mkHeader { sh_SCNumber : Z; sh_Hash : Hash; sh_ParentHash : Hash }.
Class ChainContext := {
  GetChainTailHash : Address -> Hash;
  GenesisHash : Hash;
  ChainBalance : Address -> Z;
  GetHeaderByHash : Hash -> option SourceHeader;
  GetUnitState : Hash -> result error (Address -> Z)
}.

(** [sort.Sort] and [sort.Slice]: some order of the elements in which none is
    less than an earlier one, for a function that is a strict weak order. *)
Class Sorting := { Sort : forall {A : Type}, (A -> A -> bool) -> list A -> list A }.
Definition weak_order {A} (less : A -> A -> bool) : Prop :=
  (forall x, less x x = false) /\
  (forall x y z, less x y = true -> less y z = true -> less x z = true) /\
  (forall x y z, less x y = true -> less x z = true \/ less z y = true).
Class SortingOk (SR : Sorting) := {
  Sort_Permutation {A} (less : A -> A -> bool) l : Sort less l ≡ₚ l;
  Sort_sorted {A} (less : A -> A -> bool) l :
    weak_order less -> Sorted.StronglySorted (fun x y => less y x = false) (Sort less l)
}.

(** ** Status *)

Definition needApproval (typ : Z) : bool :=
  negb ((typ =? ProposalTypeCouncilAdd) || (typ =? ProposalTypeCouncilFire)).

Definition GetStatus (p : Proposal) : Z :=
  if (p_Status p =? ProposalStatusPassed) || (p_Status p =? ProposalStatusFailed) then p_Status p
  else if negb (needApproval (Type_ p)) then
    if (p_Status p =? ProposalStatusInVoting) && (numberCurrent p <? NumberFinalize p) then ProposalStatusInVoting
    else if (p_Status p =? ProposalStatusInVoting) && (numberCurrent p >=? NumberFinalize p) then ProposalStatusPendingJudge
    else ProposalStatusExpired
  else if (Type_ p =? ProposalTypeUserWitnessCampaign) || (Type_ p =? ProposalTypeSysWitnessCampaign) then
    if numberCurrent p <? NumberVote p then ProposalStatusApply else ProposalStatusPendingJudge
  else if Type_ p =? ProposalTypeConfigChange then
    if ((p_Status p =? ProposalStatusInApproval) || (p_Status p =? ProposalStatusInVoting)) && (numberCurrent p <? NumberVote p)
    then ProposalStatusInApproval
    else if (p_Status p =? ProposalStatusInVoting) && (numberCurrent p <? NumberFinalize p) then ProposalStatusInVoting
    else if (p_Status p =? ProposalStatusInVoting) && (numberCurrent p >=? NumberFinalize p) then ProposalStatusPendingJudge
    else ProposalStatusExpired
  else ProposalStatusFailed.

Definition validStatus (status : Z) (p : Proposal) : result error unit :=
  if GetStatus p =? status then Ok tt else Err (ErrProposalStatus (GetStatus p)).

(** ** Campaigns: who is selected *)

Section Select.
Context {SR : Sorting}.

Definition margin_less (x y : Campaign) : bool := c_Margin x >? c_Margin y.
Definition margin_time_less (x y : Campaign) : bool :=
  if c_Margin x =? c_Margin y then c_Time x <? c_Time y else c_Margin x >? c_Margin y.
Definition CampaignList_Sort (vsTime : bool) (c : list Campaign) : list Campaign :=
  Sort (if vsTime then margin_time_less else margin_less) c.

(** Every second element of the beginning changes places with the one [d] on. *)
Fixpoint exchange (fuel i d : nat) (l : list Campaign) : list Campaign :=
  match fuel with
  | O => l
  | S fuel =>
      match l !! i, l !! (i + d)%nat with
      | Some x, Some y => exchange fuel (i + 2) d (<[(i + d)%nat := x]> (<[i := y]> l))
      | _, _ => l
      end
  end.

Definition Select (number maxSelect : Z) (c : list Campaign) : list Campaign * list Campaign :=
  if maxSelect =? 0 then ([], c)
  else
    let c := CampaignList_Sort true c in
    let '(winner, loser) :=
      if maxSelect <? Z.of_nat (length c) then (take (Z.to_nat maxSelect) c, drop (Z.to_nat maxSelect) c) else (c, []) in
    if (length winner <=? 2)%nat then (winner, loser)
    else
      let winner := GoSort.SliceStable (fun x y => Big (c_Address x) <=? Big (c_Address y)) winner in
      let randv := number mod Z.of_nat (length winner) in
      let randv := if randv <=? 11 then 11 else randv in
      (exchange (length winner) 0 (Z.to_nat randv) winner, loser).

End Select.

(** ** Records *)

Section Proposal.
Context {DB : Type} {ST : Storage DB} {C : ScCodec} {EV : Events DB} {LG : Ledger DB} {P : Params} {NM : Names}.
Context {SR : Sorting} {CH : ChainContext}.
Open Scope sc_scope.
Open Scope result_scope.

Implicit Types (db : DB) (p : Proposal) (hash : Hash) (address : Address).

(** An event whose error is dropped. *)
Definition log_event (e : event) (args : list abi_value) (db : DB) : DB := snd (emit e args db).

Definition uint8 (n : Z) : Z := n mod 2 ^ 8.
Definition AddVoteEventLog (id : Hash) (who : Address) (op value : Z) : DB -> DB :=
  log_event ProposalVoteEvent [AbiHash id; AbiAddress who; AbiUint8 (uint8 op); AbiUint256 value].
Definition AddProposalChangeEventLog p : DB -> DB :=
  log_event ProposalChangeEvent
    [AbiHash (Key p); AbiUint8 (uint8 (Type_ p)); AbiString (ConfigKey p); AbiUint64 (ConfigValue p);
     AbiUint8 (uint8 (GetStatus p)); AbiUint64 (NumberApply p); AbiUint64 (NumberFinalize p); AbiUint64 (NumberVote p)].

Definition get64 (it : SubItems) (name : bytes) (db : DB) : Z := Word.Uint64 (field it name db).
Definition get_address (it : SubItems) (name : bytes) (db : DB) : Address := hash_address (field it name db).

(** [bytes.TrimLeftFunc] of zeros. *)
Fixpoint trim_zeros (b : bytes) : bytes :=
  match b with x :: b' => if x =? 0 then trim_zeros b' else b | [] => [] end.

(** *** Configuration *)

Definition ReadConfig (key : bytes) (db : DB) : result error Z :=
  let v := load (BytesToHash key) db in if v =? 0 then Err ErrNoConfig else Ok (Word.Uint64 v).
Definition ForceReadConfig (key : bytes) (db : DB) : result error Z :=
  match ReadConfig key db with Ok v => Ok v | Err _ => Err ErrPanic end.
Definition WriteConfig (key : bytes) (v : Z) (db : DB) : DB := save (BytesToHash key) v db.

Definition getRecruitingSum (isSys : bool) (db : DB) : result error Z :=
  let sysCap := GetWitnessCountAt DefSysGroupIndex db in
  if isSys then
    let? max := ForceReadConfig SysWitnessCapKey db in
    Ok (Word.ForceSafeSub max sysCap)
  else
    let now := Word.ForceSafeSub (GetActiveWitnessCount db) sysCap in
    let? max := ForceReadConfig ConfigParamsUCWitnessCap db in
    Ok (Word.ForceSafeSub max now).

(** *** Proposals *)

Definition getProposalItem : SubItems := [Str (str "proposal")].
Definition proposal_item (key : Hash) : SubItems := getProposalItem ++ [hash_value key].
Definition getProposalCount (db : DB) : Z :=
  let h := GetSub getProposalItem nil_key db in if h =? 0 then 0 else Word.Uint64 h.

Definition GetProposalInfoByHash hash (numberCurrent : Z) (db : DB) : result error Proposal :=
  let item := proposal_item hash in
  if GetSub item nil_key db =? 0 then Err ErrNotExistProposal
  else
    let p := mkProposal hash (uint8 (get64 item (str "type") db)) (get64 item (str "margin") db)
      (trim_zeros (hash_bytes (field item (str "config_key") db))) (get64 item (str "config_value") db)
      (get_address item (str "applicant") db) (get_address item (str "fire_address") db)
      (get64 item (str "time_apply") db) (get64 item (str "time_vote") db) (get64 item (str "time_finalize") db)
      (uint8 (get64 item (str "status") db)) (get64 item (str "number_apply") db) (get64 item (str "number_finalize") db)
      (get64 item (str "number_vote") db) numberCurrent 0 in
    let status := GetStatus p in
    if (status =? ProposalStatusFailed) || (status =? ProposalStatusExpired) || (status =? ProposalStatusPassed) then
      Ok (set_RecruitingSum (get64 item (str "RecruitingSum") db) p)
    else if Type_ p =? ProposalTypeUserWitnessCampaign then
      let? n := getRecruitingSum false db in Ok (set_RecruitingSum n p)
    else if Type_ p =? ProposalTypeSysWitnessCampaign then
      let? n := getRecruitingSum true db in Ok (set_RecruitingSum n p)
    else Ok p.

Definition getProposalInfoByFlag (flag numberCurrent : Z) (db : DB) : result error Proposal :=
  let proposalHash := GetSub getProposalItem (uint flag) db in
  if proposalHash =? 0 then Err ErrNotExistProposal else GetProposalInfoByHash proposalHash numberCurrent db.

Definition writeProposalInfo p (db : DB) : DB :=
  let item := proposal_item (Key p) in
  let db := put item (str "type") (VEnum (Type_ p)) db in
  let db := put item (str "margin") (VUint (p_Margin p)) db in
  let db := put item (str "config_key") (VString (ConfigKey p)) db in
  let db := put item (str "config_value") (VUint (ConfigValue p)) db in
  let db := put item (str "applicant") (VAddress (Applicant p)) db in
  let db := put item (str "fire_address") (VAddress (FireAddress p)) db in
  let db := put item (str "time_apply") (VUint (TimeApply p)) db in
  let db := put item (str "time_vote") (VUint (TimeVote p)) db in
  let db := put item (str "time_finalize") (VUint (TimeFinalize p)) db in
  let db := put item (str "status") (VEnum (p_Status p)) db in
  let db := put item (str "number_apply") (VUint (NumberApply p)) db in
  let db := put item (str "number_finalize") (VUint (NumberFinalize p)) db in
  let db := put item (str "number_vote") (VUint (NumberVote p)) db in
  let db := put item (str "RecruitingSum") (VUint (RecruitingSum p)) db in
  AddProposalChangeEventLog p db.

Definition addProposal p (db : DB) : DB :=
  let count := u64 (getProposalCount db + 1) in
  let db := SaveSub getProposalItem (uint count) (VHash (Key p)) db in
  let db := SaveSub getProposalItem nil_key (VUint count) db in
  let db := SaveSub (proposal_item (Key p)) nil_key (VUint count) db in
  writeProposalInfo p db.

(** From the youngest proposal down, to the first that [f] takes. *)
Fixpoint find_proposal (n : nat) (numberCurrent : Z) (f : Proposal -> bool) (db : DB) : result error (option Proposal) :=
  match n with
  | O => Ok None
  | S n' =>
      let? p := getProposalInfoByFlag (Z.of_nat n) numberCurrent db in
      if f p then Ok (Some p) else find_proposal n' numberCurrent f db
  end.
Definition ProposalIsCreate (t numberCurrent : Z) (db : DB) : result error unit :=
  let? found := find_proposal (Z.to_nat (getProposalCount db)) numberCurrent (fun p => Type_ p =? t) db in
  match found with
  | None => Ok tt
  | Some p =>
      let s := GetStatus p in
      if (s =? ProposalStatusPassed) || (s =? ProposalStatusFailed) || (s =? ProposalStatusExpired) then Ok tt
      else Err ErrNotCreateProposal
  end.

Definition encodeUint64 (n : Z) : bytes := be_bytes 8 n.
Definition getProposalId (db : DB) : Hash :=
  SafeHash256 [Str (str "proposal" ++ encodeUint64 (u64 (getProposalCount db + 1)))].

(** *** Campaigns *)

Definition getProposalCampaignItem hash : SubItems := [Str (str "c"); hash_value hash].
Definition candidate_item hash address : SubItems := getProposalCampaignItem hash ++ [addr_value address].
Definition getProposalCampaignCount hash (db : DB) : Z :=
  let h := GetSub (getProposalCampaignItem hash) nil_key db in if h =? 0 then 0 else Word.Uint64 h.
Definition getProposalCampaignInfoByAddr hash address (db : DB) : result error Campaign :=
  let item := candidate_item hash address in
  if GetSub item nil_key db =? 0 then Err ErrNotCampaign
  else
    let? publicKey := get_big item (Str (str "public_key")) db in
    Ok (mkCampaign address (get64 item (str "margin") db) (get64 item (str "time") db) publicKey).
Definition getProposalCampaignInfoByFlag hash (flag : Z) (db : DB) : result error Campaign :=
  let h := GetSub (getProposalCampaignItem hash) (uint flag) db in
  if h =? 0 then Err ErrNotCampaign else getProposalCampaignInfoByAddr hash (hash_address h) db.

Definition writeProposalCampaignInfo hash (c : Campaign) (db : DB) : DB :=
  let item := candidate_item hash (c_Address c) in
  SetBigData (item_key item (Str (str "public_key"))) (c_PublicKey c)
    (put item (str "time") (VUint (c_Time c)) (put item (str "margin") (VUint (c_Margin c)) db)).
Definition updateProposalCampaignInfo hash address (margin time : Z) (db : DB) : DB :=
  let item := candidate_item hash address in
  put item (str "time") (VUint time) (put item (str "margin") (VUint margin) db).
Definition addProposalCampaign hash (c : Campaign) (db : DB) : DB :=
  let count := u64 (getProposalCampaignCount hash db + 1) in
  let item := getProposalCampaignItem hash in
  let db := SaveSub item nil_key (VUint count) db in
  let db := SaveSub item (uint count) (VAddress (c_Address c)) db in
  let db := SaveSub (candidate_item hash (c_Address c)) nil_key (VUint count) db in
  writeProposalCampaignInfo hash c db.

(** A list kept under the numbers from 1 on, read up to the first error. *)
Fixpoint read_list {A} (get : Z -> DB -> result error A) (n : nat) (i : Z) (db : DB) : list A * result error unit :=
  match n with
  | O => ([], Ok tt)
  | S n =>
      match get i db with
      | Err e => ([], Err e)
      | Ok x => let '(l, e) := read_list get n (i + 1) db in (x :: l, e)
      end
  end.
Definition getProposalCampaignList hash (db : DB) : list Campaign * result error unit :=
  read_list (getProposalCampaignInfoByFlag hash) (Z.to_nat (getProposalCampaignCount hash db)) 1 db.
Definition emptyCampaign hash address (db : DB) : bool := GetSub (candidate_item hash address) nil_key db =? 0.

Definition updateProposalCampaign hash address (margin utime : Z) : SC DB unit :=
  let! c := read (getProposalCampaignInfoByAddr hash address) in
  if margin >? 2 ^ 64 - 1 - c_Margin c then fail ErrMarginOverflow
  else puts (updateProposalCampaignInfo hash address (c_Margin c + margin) utime).

(** *** Votes of the council *)

Definition getCouncilVoteItem hash : SubItems := [Str (str "voting"); hash_value hash].
Definition council_vote_item hash address : SubItems := getCouncilVoteItem hash ++ [addr_value address].
Definition getCouncilVoteCount hash (db : DB) : Z :=
  let h := GetSub (getCouncilVoteItem hash) nil_key db in if h =? 0 then 0 else Word.Uint64 h.
Definition writeCouncilVoteCount hash (count : Z) (db : DB) : DB :=
  SaveSub (getCouncilVoteItem hash) nil_key (VUint count) db.
Definition updateCouncilVoteInfo hash (vote : CouncilVote) (db : DB) : DB :=
  let item := council_vote_item hash (cv_Addr vote) in
  let db := put item (str "op") (VEnum (cv_Op vote)) db in
  let db := put item (str "time") (VUint (cv_Time vote)) db in
  AddVoteEventLog hash (cv_Addr vote) (cv_Op vote) 0 db.
Definition writeCouncilVoteInfo hash (vote : CouncilVote) (flag : Z) (db : DB) : DB :=
  let db := SaveSub (getCouncilVoteItem hash) (uint flag) (VAddress (cv_Addr vote)) db in
  let db := SaveSub (council_vote_item hash (cv_Addr vote)) nil_key (VUint flag) db in
  updateCouncilVoteInfo hash vote db.
Definition getCouncilVoteInfo hash address (db : DB) : result error CouncilVote :=
  let item := council_vote_item hash address in
  if GetSub item nil_key db =? 0 then Err ErrNotFindVote
  else Ok (mkCouncilVote address (uint8 (get64 item (str "op") db)) (get64 item (str "time") db)).
Definition getCouncilVoteInfoByFlag hash (flag : Z) (db : DB) : result error CouncilVote :=
  let h := GetSub (getCouncilVoteItem hash) (uint flag) db in
  if h =? 0 then Err ErrNotFindVote else getCouncilVoteInfo hash (hash_address h) db.
Definition GetProposalCouncilVote hash (db : DB) : list CouncilVote * result error unit :=
  let count := getCouncilVoteCount hash db in
  if count =? 0 then ([], Err ErrNotFindVote)
  else read_list (getCouncilVoteInfoByFlag hash) (Z.to_nat count) 1 db.

Definition isMayCouncilAudit hash address (db : DB) : bool :=
  if negb (IsActiveCouncil address db) then false
  else
    let item := council_vote_item hash address in
    if GetSub item nil_key db =? 0 then false
    else uint8 (get64 item (str "op") db) =? VotingResultUnknown.

(** The time in nanoseconds that units take. *)
Definition getNSByUnitCount (count : Z) : Z := u64 (count * OneNumberHaveSecondBySys * 10 ^ 9).

Definition count_op (op : Z) (l : list CouncilVote) : Z := Z.of_nat (length (filter (fun v => cv_Op v = op) l)).

(** The proposal as it is decided and, if it is, written. *)
Definition ProposalIsVote p : SC DB Proposal :=
  let! votes := gets (GetProposalCouncilVote (Key p)) in
  let '(l, e) := (votes : list CouncilVote * result error unit) in
  lift e;;;
  let passCount := count_op VotingResultAgree l in
  let failedCount := count_op VotingResultDisagree l in
  let count := Z.of_nat (length l) in
  if passCount >=? count - count / 3 then
    let p := set_Status ProposalStatusInVoting
      (set_Voting (u64 (NumberVote p + ConfigParamsTimeVoting))
                  (u64 (TimeApply p + getNSByUnitCount ConfigParamsTimeApprove)) p) in
    puts (writeProposalInfo p);;; ret p
  else if failedCount >=? count * 2 / 3 then
    let p := set_Status ProposalStatusFailed p in
    puts (writeProposalInfo p);;; ret p
  else ret p.

Definition updateMemberProposalVote p address (option : bool) (time : Z) : SC (DB * Z) Proposal :=
  lift (validStatus ProposalStatusInApproval p);;;
  let op := if option then VotingResultAgree else VotingResultDisagree in
  UseGas SstoreLoadGas;;;
  let! may := on_state (gets (isMayCouncilAudit (Key p) address)) in
  if negb may then fail ErrCanNotVote
  else
    UseGas SstoreSetGas;;;
    on_state (puts (updateCouncilVoteInfo (Key p) (mkCouncilVote address op time)));;;
    UseGas SloadGas;;;
    on_state (ProposalIsVote p).

(** *** Votes of the public *)

Definition getPublicVoteItem hash : SubItems := [Str (str "p"); hash_value hash].
Definition public_vote_item hash address : SubItems := getPublicVoteItem hash ++ [addr_value address].
Definition writePublicVoteCount hash (count : Z) (db : DB) : DB := SaveSub (getPublicVoteItem hash) nil_key (VUint count) db.
Definition getPublicVoteCount hash (db : DB) : Z :=
  let h := GetSub (getPublicVoteItem hash) nil_key db in if h =? 0 then 0 else Word.Uint64 h.
Definition writePublicVoteInfo hash (flag : Z) (vote : PublicVote) (db : DB) : DB :=
  let db := SaveSub (getPublicVoteItem hash) (uint flag) (VAddress (pv_Addr vote)) db in
  let item := public_vote_item hash (pv_Addr vote) in
  let db := SaveSub item nil_key (VUint flag) db in
  let db := put item (str "value") (VBig (pv_Value vote)) db in
  let db := put item (str "op") (VEnum (pv_Op vote)) db in
  let db := put item (str "time") (VUint (pv_Time vote)) db in
  AddVoteEventLog hash (pv_Addr vote) (pv_Op vote) (pv_Value vote) db.
Definition getPublicVoteInfoByAddr hash address (db : DB) : result error PublicVote :=
  let item := public_vote_item hash address in
  if GetSub item nil_key db =? 0 then Err ErrNotFindVote
  else Ok (mkPublicVote address (field item (str "value") db) (uint8 (get64 item (str "op") db)) (get64 item (str "time") db)).
Definition getPublicVoteInfoByFlag hash (flag : Z) (db : DB) : result error PublicVote :=
  let h := GetSub (getPublicVoteItem hash) (uint flag) db in
  if h =? 0 then Err ErrNotFindVote else getPublicVoteInfoByAddr hash (hash_address h) db.
Definition isMayPublicVote hash address (db : DB) : bool := GetSub (public_vote_item hash address) nil_key db =? 0.
Definition getPublicVoteList hash (db : DB) : list PublicVote * result error unit :=
  let count := getPublicVoteCount hash db in
  if count =? 0 then ([], Err ErrNotFindVote)
  else read_list (getPublicVoteInfoByFlag hash) (Z.to_nat count) 1 db.
Definition addPublicVote hash (vote : PublicVote) (db : DB) : DB :=
  let count := u64 (getPublicVoteCount hash db + 1) in
  writePublicVoteCount hash count (writePublicVoteInfo hash count vote db).

Definition addProposalPublicVote hash address (countCoin time : Z) (b : bool) : SC (DB * Z) unit :=
  if countCoin <=? 0 then fail ErrNoCoin
  else
    UseGas SloadGas;;;
    let! may := on_state (gets (isMayPublicVote hash address)) in
    if negb may then fail ErrAlreadyVoted
    else
      UseGas SloadGas;;;
      on_state (puts (addPublicVote hash
        (mkPublicVote address countCoin (if b then VotingResultAgree else VotingResultDisagree) time))).

Definition checkMinVote (ptype pass : Z) (db : DB) : result error bool :=
  if pass <=? 0 then Ok false
  else
    let key := if ptype =? ProposalTypeConfigChange then MinConfigPvoteAgreeKey else MinCouncilPvoteAgreeKey in
    match ReadConfig key db with
    | Err _ => Err ErrPanic
    | Ok v => Ok (v * Nts <=? pass)
    end.

Definition weight (l : list PublicVote) : Z := fold_right Z.add 0 (map pv_Value l).
(** The votes read before an error count. *)
Definition validProposalPass p (db : DB) : result error bool :=
  let l := fst (getPublicVoteList (Key p) db) in
  let pass := weight (filter (fun v => pv_Op v = VotingResultAgree) l) in
  let need := weight l in
  if need <=? 0 then Ok false
  else
    let? enough := checkMinVote (Type_ p) pass db in
    Ok (if enough : bool then need / 3 * 2 <? pass else false).

(** The weight of a vote: the balance before the proposal's number; a chain
    with more than 1024 younger units is a nil dereference. *)
Fixpoint find_balance (fuel : nat) (from : Address) (lastHash : Hash) (numberVote : Z) : result error Z :=
  match fuel with
  | O => Err ErrPanic
  | S fuel =>
      match GetHeaderByHash lastHash with
      | None => Err ErrUnitNotFound
      | Some h =>
          if sh_SCNumber h <? numberVote then
            let? st := GetUnitState (sh_Hash h) in Ok (st from)
          else find_balance fuel from (sh_ParentHash h) numberVote
      end
  end.
Definition getCoin (from : Address) (numberVote : Z) : result error Z :=
  let lastHash := GetChainTailHash from in
  let? countCoin := (if lastHash =? GenesisHash then Ok (ChainBalance from)
                     else find_balance 1024 from lastHash numberVote) in
  if countCoin <=? 0 then Err ErrNoCoin else Ok countCoin.

(** ** Settling a proposal *)

Implicit Types (e : Env).

Definition refund (a : Address) (amount : Z) : DB -> DB := Transfer SCAccount a amount.

(** A call whose error is looked at; a panic is none. *)
Definition try {S A} (m : SC S A) : SC S (result error A) :=
  fun w => match m w with
           | (Err ErrPanic, w) => (Err ErrPanic, w)
           | (Err NoFuel, w) => (Err NoFuel, w)
           | (r, w) => (Ok r, w)
           end.

Definition finish p : SC (DB * Z) unit :=
  UseGas SstoreSetGas;;; on_state (puts (writeProposalInfo p)).

Definition finalizeConfig p : SC (DB * Z) unit :=
  UseGas SstoreLoadGas;;;
  let! pass := on_state (read (validProposalPass p)) in
  if (pass : bool) then
    UseGas SstoreSetGas;;;
    on_state (puts (WriteConfig (ConfigKey p) (ConfigValue p)));;;
    finish (set_Status ProposalStatusPassed p)
  else finish (set_Status ProposalStatusFailed p).

(** The applicant becomes a member or gets the margin back. *)
Definition admit_council e p (passed : bool) : SC (DB * Z) Z :=
  let give_back := on_state (puts (refund (Applicant p) (p_Margin p))) in
  if passed then
    let! check := on_state (gets (CheckMemberType (Applicant p))) in
    match check with
    | Err _ => give_back;;; ret ProposalStatusFailed
    | Ok _ =>
        UseGas SstoreSetGas;;;
        lift (config e ConfigParamsCouncilCap);;;
        let! r := on_state (try (AddCouncil (mkCouncil (Applicant p) CouncilStatusValid (p_Margin p) (SCNumber e)))) in
        match r with
        | Ok _ => ret ProposalStatusPassed
        | Err _ => give_back;;; ret ProposalStatusFailed
        end
    end
  else give_back;;; ret ProposalStatusFailed.

(** The member leaves with the margin. *)
Definition fire_council e p (passed : bool) : SC (DB * Z) Z :=
  if passed then
    UseGas SstoreSetGas;;;
    let! active := on_state (gets (IsActiveCouncil (FireAddress p))) in
    if (active : bool) then
      let! r := on_state (try (RemoveCouncil (FireAddress p) (unit_number e))) in
      match r with
      | Ok _ => on_state (puts (refund (FireAddress p) (p_Margin p)));;; ret ProposalStatusPassed
      | Err _ => ret ProposalStatusFailed
      end
    else ret ProposalStatusFailed
  else ret ProposalStatusFailed.

Definition finalizeCouncil e p : SC (DB * Z) unit :=
  UseGas SstoreLoadGas;;;
  let! pass := on_state (read (validProposalPass p)) in
  let! status :=
    (if Type_ p =? ProposalTypeCouncilAdd then admit_council e p pass
     else if Type_ p =? ProposalTypeCouncilFire then fire_council e p pass
     else ret (if (pass : bool) then ProposalStatusPassed else ProposalStatusFailed)) in
  finish (set_Status status p).

(** The loop of [finalizeSystemWitness]: did an application fail? *)
Fixpoint recruit_system e (need : Z) (failed : bool) (l : list Campaign) : SC DB bool :=
  match l with
  | [] => ret failed
  | v :: l =>
      if (need =? 0) || (c_Margin v <? ConfigParamsSCWitnessMinMargin) then
        puts (refund (c_Address v) (c_Margin v));;; recruit_system e need failed l
      else
        let! r := try (applyWitness (c_Address v) (c_Margin v) (unit_number e) (c_PublicKey v) true) in
        match r with
        | Err _ => puts (refund (c_Address v) (c_Margin v));;; recruit_system e need true l
        | Ok _ => recruit_system e (need - 1) failed l
        end
  end.

(** The heartbeats of the new witnesses that the code collects here are never
    written. *)
Definition finalizeSystemWitness e p : SC (DB * Z) unit :=
  UseGas SstoreLoadGas;;;
  let! need := on_state (read (getRecruitingSum true)) in
  UseGas SstoreLoadGas;;;
  let! found := on_state (gets (getProposalCampaignList (Key p))) in
  let '(tempList, err) := (found : list Campaign * result error unit) in
  lift err;;;
  let failed := (need =? 0) || (length tempList =? 0)%nat in
  let! failed :=
    (if (0 <? length tempList)%nat then
       UseGas SstoreLoadGas;;; UseGas SloadGas;;;
       on_state (recruit_system e need failed (CampaignList_Sort false tempList))
     else ret failed) in
  finish (set_Status (if (failed : bool) then ProposalStatusFailed else ProposalStatusPassed) p).

Fixpoint refund_all (l : list Campaign) (db : DB) : DB :=
  match l with [] => db | w :: l => refund_all l (refund (c_Address w) (c_Margin w) db) end.

(** The winners become witnesses or get their margin back. *)
Fixpoint recruit_user e (failed : bool) (l : list Campaign) : SC DB bool :=
  match l with
  | [] => ret failed
  | w :: l =>
      let! r := try (applyWitness (c_Address w) (c_Margin w) (unit_number e) (c_PublicKey w) false) in
      match r with
      | Err _ => puts (refund (c_Address w) (c_Margin w));;; recruit_user e true l
      | Ok _ => recruit_user e failed l
      end
  end.

(** What happens to the candidates of a campaign. *)
Definition settle_campaign e (need : Z) (tempList : list Campaign) : SC DB bool :=
  let '(winner, loser) := Select (unit_number e) need tempList in
  puts (refund_all loser);;;
  recruit_user e (length winner =? 0)%nat winner.

Definition finalizeUserWitness e p : SC (DB * Z) unit :=
  UseGas SstoreLoadGas;;;
  let! need := on_state (read (getRecruitingSum false)) in
  UseGas SstoreLoadGas;;;
  let! found := on_state (gets (getProposalCampaignList (Key p))) in
  let '(tempList, err) := (found : list Campaign * result error unit) in
  lift err;;;
  let! failed := on_state (settle_campaign e need tempList) in
  finish (set_Status (if (failed : bool) then ProposalStatusFailed else ProposalStatusPassed) p).

Definition Finalize e p : SC (DB * Z) unit :=
  let p := set_Finalize (unit_number e) (now e) p in
  if Type_ p =? ProposalTypeConfigChange then finalizeConfig p
  else if Type_ p =? ProposalTypeSysWitnessCampaign then finalizeSystemWitness e p
  else if Type_ p =? ProposalTypeUserWitnessCampaign then finalizeUserWitness e p
  else if (Type_ p =? ProposalTypeCouncilAdd) || (Type_ p =? ProposalTypeCouncilFire) then finalizeCouncil e p
  else fail ErrProposalType.

Definition SetConfigFinalize e hash : SC (DB * Z) unit :=
  if not_payable e then fail ErrNonPayable
  else
    UseGas (SstoreLoadGas * 5);;;
    let! p := on_state (read (GetProposalInfoByHash hash (unit_number e))) in
    if (p_Status p =? ProposalStatusInApproval) && (GetStatus p =? ProposalStatusExpired) then
      (if Type_ p =? ProposalTypeCouncilAdd then on_state (puts (refund (Applicant p) (p_Margin p))) else ret tt);;;
      finish (set_Finalize (unit_number e) (now e) (set_Status ProposalStatusExpired p))
    else
      lift (validStatus ProposalStatusPendingJudge p);;;
      Finalize e p.

(** ** Applying *)

(** Every member of the council gets a vote that says nothing yet. *)
Fixpoint open_votes hash (count : Z) (l : list Address) : SC (DB * Z) Z :=
  match l with
  | [] => ret count
  | addr :: l =>
      UseGas (SstoreLoadGas + SstoreSetGas);;;
      on_state (puts (writeCouncilVoteInfo hash (mkCouncilVote addr VotingResultUnknown 0) (count + 1)));;;
      open_votes hash (count + 1) l
  end.
Definition applyProposal p : SC (DB * Z) Hash :=
  (if needApproval (Type_ p) then
     let! l := on_state (gets GetCouncilList) in
     let! count := open_votes (Key p) 0 l in
     if count =? 0 then fail ErrEmptyMemberList
     else on_state (puts (writeCouncilVoteCount (Key p) count))
   else ret tt);;;
  UseGas SstoreSetGas;;;
  on_state (puts (addProposal p));;;
  ret (Key p).

(** [contract.Value()] as the margin. *)
Definition margin_of e (overflow : error) : result error Z :=
  match Value e with
  | None => Err ErrPanic
  | Some v => if (0 <=? v) && (v <? 2 ^ 64) then Ok v else Err overflow
  end.

Definition handleCouncilExit e : SC (DB * Z) unit :=
  let council := Caller e in
  UseGas (SstoreLoadGas * 5);;;
  let! info := on_state (read (GetCouncilInfo council)) in
  if negb (co_Status info =? CouncilStatusValid) then fail ErrCouncilQuit
  else if unit_number e <? u64 (co_ApplyHeight info + CounciExitNumber) then fail ErrTooEarly
  else
    on_state (puts (refund council (co_Margin info)));;;
    on_state (RemoveCouncil council (unit_number e)).

Definition SetMemberJoinApply e : SC (DB * Z) Hash :=
  let! margin := lift (margin_of e ErrMarginOverflow) in
  if margin <? ConfigParamsCouncilMargin then fail ErrNotEnoughMargin
  else
    let target := Caller e in
    on_state (read (CheckMemberType target));;;
    let! cap := on_state (read (ForceReadConfig ConfigParamsCouncilCap)) in
    let! count := on_state (gets GetCouncilCount) in
    if count >=? cap then fail ErrCouncilCeiling
    else
      UseGas SstoreLoadGas;;; UseGas SstoreLoadGas;;;
      let! id := on_state (gets getProposalId) in
      applyProposal (mkProposal id ProposalTypeCouncilAdd margin [] 0 target zeroAddress (now e) (now e) 0
        ProposalStatusInVoting (unit_number e) (u64 (unit_number e + ConfigParamsTimeVoting)) (unit_number e) 0 0).

Definition SetMemberRemoveApply e (target : Address) : SC (DB * Z) Hash :=
  if not_payable e then fail ErrNonPayable
  else
    UseGas (SstoreLoadGas * 2);;;
    let! s := on_state (gets (GetCouncilStatus target)) in
    if negb (snd s) then fail ErrNotCouncil
    else if negb (fst s =? CouncilStatusValid) then fail ErrCouncilQuit
    else
      UseGas SstoreLoadGas;;;
      let! info := on_state (read (GetCouncilInfo target)) in
      UseGas SstoreLoadGas;;;
      let! id := on_state (gets getProposalId) in
      applyProposal (mkProposal id ProposalTypeCouncilFire (co_Margin info) [] 0 (Caller e) target (now e) (now e) 0
        ProposalStatusInVoting (unit_number e) (u64 (unit_number e + ConfigParamsTimeVoting)) (unit_number e) 0 0).

(** May the value of the configuration be proposed? *)
Definition check_config e (key : bytes) (v : Z) (db : DB) : result error unit :=
  if bool_decide (key = ConfigParamsLowestGasPrice) then
    let? limit := config e ConfigParamsUcGasLimit in
    if v >? limit then Err ErrConfigValue else Ok tt
  else if bool_decide (key = ConfigParamsUCWitnessCap) then
    let sysActive := GetWitnessCountAt DefSysGroupIndex db in
    if v <? Word.ForceSafeSub (GetActiveWitnessCount db) sysActive then Err ErrConfigValue
    else if negb (v mod ConfigParamsUCWitness =? 0) then Err ErrConfigValue else Ok tt
  else if bool_decide (key = ConfigParamsCouncilCap) then
    if v <? GetCouncilCount db then Err ErrConfigValue else Ok tt
  else if bool_decide (key = ConfigParamsUcGasLimit) then
    let? limit := config e ConfigParamsUcGasLimit in
    if v <? limit then Err ErrConfigValue else Ok tt
  else Ok tt.

Definition SetConfigApply e (cfgKey : bytes) (cfgValue : Z) : SC (DB * Z) Hash :=
  if not_payable e then fail ErrNonPayable
  else if negb (CanChange e cfgKey) then fail ErrNotExist
  else
    UseGas (SstoreLoadGas * 2);;;
    let! curr := on_state (read (ReadConfig cfgKey)) in
    if curr =? cfgValue then fail ErrConfigSame
    else
      on_state (read (check_config e cfgKey cfgValue));;;
      UseGas SstoreLoadGas;;;
      on_state (read (ProposalIsCreate ProposalTypeConfigChange (unit_number e)));;;
      UseGas SstoreLoadGas;;;
      let! id := on_state (gets getProposalId) in
      applyProposal (mkProposal id ProposalTypeConfigChange 0 cfgKey cfgValue (Caller e) zeroAddress (now e) 0 0
        ProposalStatusInApproval (unit_number e) 0 (u64 (unit_number e + ConfigParamsTimeApprove)) 0 0).

Definition SetConfigApplyVote e hash (option : bool) : SC (DB * Z) unit :=
  if not_payable e then fail ErrNonPayable
  else
    UseGas SstoreLoadGas;;;
    let! p := on_state (read (GetProposalInfoByHash hash (unit_number e))) in
    UseGas SstoreSetGas;;;
    let! p := updateMemberProposalVote p (Caller e) option (now e) in
    if (GetStatus p =? ProposalStatusFailed) && (p_Margin p >? 0)
    then on_state (puts (refund (Applicant p) (p_Margin p))) else ret tt.

Definition handlePublicVote e hash (b : bool) : SC (DB * Z) unit :=
  if not_payable e then fail ErrNonPayable
  else
    UseGas SstoreLoadGas;;;
    let! p := on_state (read (GetProposalInfoByHash hash (unit_number e))) in
    lift (validStatus ProposalStatusInVoting p);;;
    UseGas SstoreLoadGas;;;
    let! coin := lift (getCoin (Caller e) (NumberVote p)) in
    UseGas SstoreSetGas;;;
    addProposalPublicVote hash (Caller e) coin (now e) b.

Definition proposalWitnessApply e (isSystem : bool) : SC (DB * Z) Hash :=
  if not_payable e then fail ErrNonPayable
  else
    UseGas SstoreLoadGas;;;
    let! need := on_state (read (getRecruitingSum isSystem)) in
    if need =? 0 then fail ErrNotRecruiting
    else
      let proposalType := if isSystem then ProposalTypeSysWitnessCampaign else ProposalTypeUserWitnessCampaign in
      UseGas SstoreLoadGas;;;
      let! active := on_state (gets (IsActiveCouncil (Caller e))) in
      if negb active then fail ErrNotCouncil
      else
        UseGas SstoreLoadGas;;;
        on_state (read (ProposalIsCreate proposalType (unit_number e)));;;
        UseGas SstoreLoadGas;;;
        let! id := on_state (gets getProposalId) in
        UseGas SstoreSetGas;;;
        let p := mkProposal id proposalType 0 [] 0 (Caller e) zeroAddress (now e)
          (u64 (now e + getNSByUnitCount ProposalSyswitnessApply)) 0
          ProposalStatusApply (unit_number e) 0 (u64 (unit_number e + ProposalSyswitnessApply)) 0 need in
        on_state (puts (addProposal p));;;
        ret (Key p).
Definition SetSystemWitness e : SC (DB * Z) Hash := proposalWitnessApply e true.
Definition SetUserWitness e : SC (DB * Z) Hash := proposalWitnessApply e false.

Definition SetSystemWitnessApply e hash : SC (DB * Z) unit :=
  let! margin := lift (margin_of e ErrMarginOverflow) in
  UseGas SstoreLoadGas;;;
  let! p := on_state (read (GetProposalInfoByHash hash (unit_number e))) in
  let! minMargin := lift (if Type_ p =? ProposalTypeUserWitnessCampaign then Ok ConfigParamsUCWitnessMargin
                          else if Type_ p =? ProposalTypeSysWitnessCampaign then Ok ConfigParamsSCWitnessMinMargin
                          else Err ErrProposalType) in
  if margin <? minMargin then fail ErrNotEnoughMargin
  else
    lift (validStatus ProposalStatusApply p);;;
    let caller := Caller e in
    UseGas (SstoreLoadGas * 3);;;
    on_state (read (CheckMemberType caller));;;
    let! empty := on_state (gets (emptyCampaign hash caller)) in
    if negb empty then fail ErrNotApplyCampaign
    else
      let! publicKey := lift (if EnableSimulation e then Ok (str "estimate") else SenderKey e) in
      on_state (puts (addProposalCampaign hash (mkCampaign caller margin (now e) publicKey))).

Definition SetSystemWitnessAddMargin e hash : SC (DB * Z) unit :=
  let! margin := lift (margin_of e ErrMarginOverflow) in
  if margin <=? 0 then fail ErrNotEnoughMargin
  else
    UseGas SstoreLoadGas;;;
    let! p := on_state (read (GetProposalInfoByHash hash (unit_number e))) in
    lift (validStatus ProposalStatusApply p);;;
    UseGas SstoreSetGas;;;
    on_state (updateProposalCampaign hash (Caller e) margin (now e)).

Definition AllSystemWitnessReplace e : SC (DB * Z) unit :=
  if negb (bool_decide (Caller e = PublicPrivateKeyAddr)) then fail ErrInvalidCaller
  else if negb (bool_decide (Coinbase e = PublicPrivateKeyAddr)) then fail ErrInvalidCaller
  else
    let! l := on_state (gets GetSystemMainWitness) in
    on_state (demote_all l).

End Proposal.
End Proposal.
