(* ===== verification/ScVotes.v ===== *)
(** Lists of accounts kept under the numbers from 1 on, as the contract keeps
    the candidates of a campaign and the votes on a proposal.

    The votes of the public and of the council on a proposal, and the candidates
    of a campaign, as lists. *)
From stdpp Require Import gmap list.
From S2P Require Import Prelude Bech32 Address EvmWord EvmState StateDb GoSort ScStore ScSets ScGroup ScHeart ScWitness ScDuty ScMembers ScFrame ScProposal.

Import Db Store Sets Address Group Heart Witness Duty Members Frame Proposal.

Module Ballot.

Section Ballot.
Context {DB : Type} {ST : Storage DB} {SO : StorageOk DB ST} {C : ScCodec} {CO : ScCodecOk C}.
Context {EV : Events DB} {EO : EventsOk DB ST SO EV} {LG : Ledger DB} {LO : LedgerOk DB ST SO LG}.

Implicit Types (db : DB) (item : SubItems) (x y : Hash) (l : list Hash).

(** ** Slots *)

Definition entry_item item x : SubItems := item ++ [addr_value (hash_address x)].

Lemma entry_item_inj item x y k k' :
  is_address x -> is_address y -> item_key (entry_item item x) k = item_key (entry_item item y) k' -> x = y /\ k = k'.
Proof.
  intros Hx Hy E%SafeHash256_inj. unfold entry_item in E. rewrite <- !app_assoc in E. apply app_inv_head in E.
  unfold addr_value in E. cbn [app] in E. split; [apply hash_address_inj; [done..|]|]; congruence.
Qed.

Lemma entry_item_member item a : valid_address a -> item ++ [addr_value a] = entry_item item (member a).
Proof. intros V. unfold entry_item, addr_value. by rewrite hash_address_member. Qed.

Lemma item_entry item x k k' : item_key item k <> item_key (entry_item item x) k'.
Proof.
  intros E%SafeHash256_inj. unfold entry_item in E. rewrite <- app_assoc in E. apply app_inv_head in E. discriminate E.
Qed.

Lemma item_key_inj item k k' : item_key item k = item_key item k' -> k = k'.
Proof. intros E%SafeHash256_inj%app_inv_head. congruence. Qed.

Lemma load_SaveSub k it key v db :
  storage_ok db -> load k (SaveSub it key v db) = if decide (k = item_key it key) then value2hash v else load k db.
Proof. intros O. by apply load_save. Qed.

Lemma SaveSub_ok it key v db : storage_ok db -> storage_ok (SaveSub it key v db).
Proof. apply save_ok. Qed.

Lemma log_event_ok e args db : storage_ok db -> storage_ok (log_event e args db).
Proof. intros O. unfold log_event, emit. destruct (Pack e args); [by apply AddLog_ok|done]. Qed.

Lemma load_log_event k e args db : storage_ok db -> load k (log_event e args db) = load k db.
Proof. intros O. unfold log_event, emit. destruct (Pack e args); [by apply load_AddLog|done]. Qed.

(** ** The list *)

Record ballot db item l : Prop := {
  b_ok : storage_ok db;
  b_once : NoDup l;
  b_address : Forall (fun x => 0 < x < 2 ^ 160) l;
  b_room : is_u64 (Z.of_nat (length l));
  b_count : load (item_key item nil_key) db = Z.of_nat (length l);
  b_at i x : l !! i = Some x -> load (item_key item (uint (Z.of_nat i + 1))) db = x;
  b_in i x : l !! i = Some x -> load (item_key (entry_item item x) nil_key) db = Z.of_nat i + 1;
  b_out x : is_address x -> x ∉ l -> load (item_key (entry_item item x) nil_key) db = 0
}.

Lemma b_is_address db item l x : ballot db item l -> x ∈ l -> 0 < x < 2 ^ 160.
Proof. intros B Hx. pose proof (b_address _ _ _ B) as F. rewrite list.Forall_forall in F. by apply F. Qed.

(** Is the account on the list? *)
Lemma b_member db item l x :
  ballot db item l -> is_address x -> (load (item_key (entry_item item x) nil_key) db =? 0) = bool_decide (x ∉ l).
Proof.
  intros B Hx. destruct (decide (x ∈ l)) as [H|H].
  - rewrite bool_decide_false by (by intros N). apply list_elem_of_lookup in H as [i E].
    rewrite (b_in _ _ _ B i x E). apply Z.eqb_neq. lia.
  - rewrite bool_decide_true by done. by rewrite (b_out _ _ _ B x).
Qed.

Lemma ballot_keeps db db' item l :
  storage_ok db' -> (forall z, load (SafeHash256 (item ++ z)) db' = load (SafeHash256 (item ++ z)) db) ->
  ballot db item l -> ballot db' item l.
Proof.
  intros O E B. assert (forall k, load (item_key item k) db' = load (item_key item k) db) as E1 by (intros k; apply E).
  assert (forall x k, load (item_key (entry_item item x) k) db' = load (item_key (entry_item item x) k) db) as E2.
  { intros x k. unfold item_key, subKey, entry_item. rewrite <- app_assoc. apply E. }
  split; try apply B; try done.
  - rewrite E1. apply B.
  - intros i x Ei. rewrite E1. by apply B.
  - intros i x Ei. rewrite E2. by apply B.
  - intros x Hx N. rewrite E2. by apply B.
Qed.

(** One more at the end. *)
Lemma ballot_snoc db db' item l x :
  ballot db item l -> 0 < x < 2 ^ 160 -> x ∉ l -> is_u64 (Z.of_nat (length l) + 1) -> storage_ok db' ->
  let n := Z.of_nat (length l) + 1 in
  load (item_key item nil_key) db' = n ->
  load (item_key item (uint n)) db' = x ->
  load (item_key (entry_item item x) nil_key) db' = n ->
  (forall i, is_u64 i -> i <> n -> load (item_key item (uint i)) db' = load (item_key item (uint i)) db) ->
  (forall y, is_address y -> y <> x ->
     load (item_key (entry_item item y) nil_key) db' = load (item_key (entry_item item y) nil_key) db) ->
  ballot db' item (l ++ [x]).
Proof.
  intros B Hx Nx R O n Ec Ea Ei Ka Ki. split.
  - done.
  - apply list.NoDup_app. split_and!; [apply B|set_solver|apply list.NoDup_singleton].
  - apply list.Forall_app. split; [apply B|by constructor].
  - rewrite length_app. cbn. unfold n in *. lia.
  - rewrite Ec, length_app. cbn. unfold n. lia.
  - intros i y Ey. apply lookup_snoc_Some in Ey as [[Hi Ey]|[-> <-]]; [|exact Ea].
    rewrite Ka by (unfold n; lia). by apply B.
  - intros i y Ey. apply lookup_snoc_Some in Ey as [[Hi Ey]|[-> <-]]; [|exact Ei].
    assert (y ∈ l) as Hy by (by eapply list_elem_of_lookup_2). pose proof (b_is_address _ _ _ _ B Hy).
    rewrite Ki; [by apply B|lia|by intros ->].
  - intros y Hy Ny. apply not_elem_of_app in Ny as [N1 N2]. rewrite Ki; [by apply B|done|]. intros ->. apply N2. by left.
Qed.

(** ** Reading *)

Lemma read_list_spec {A} (get : Z -> DB -> result error A) (l : list A) i db :
  (forall k v, l !! k = Some v -> get (i + Z.of_nat k) db = Ok v) -> read_list get (length l) i db = (l, Ok tt).
Proof.
  revert i. induction l as [|v l IH]; intros i H; [done|]. cbn [length read_list].
  pose proof (H 0%nat v eq_refl) as H0. rewrite Z.add_0_r in H0. rewrite H0. rewrite IH; [done|].
  intros k w E. specialize (H (Datatypes.S k) w E). rewrite <- H. f_equal. lia.
Qed.

(** What is kept for each account on a list. *)
Definition filed {A} (at_ : Hash -> DB -> A) db (vs : list (Hash * A)) : Prop :=
  forall x v, (x, v) ∈ vs -> at_ x db = v.

Lemma read_ballot {A B} (at_ : Hash -> DB -> A) (make : Hash -> A -> B) (get : Z -> DB -> result error B) item db (vs : list (Hash * A)) :
  ballot db item (map fst vs) -> filed at_ db vs ->
  (forall i x, load (item_key item (uint i)) db = x -> 0 < x < 2 ^ 160 ->
     load (item_key (entry_item item x) nil_key) db <> 0 -> get i db = Ok (make x (at_ x db))) ->
  read_list get (length vs) 1 db = (map (fun v => make (fst v) (snd v)) vs, Ok tt).
Proof.
  intros Bl F G. rewrite <- (length_map (fun v => make (fst v) (snd v)) vs). apply read_list_spec. intros k w E.
  rewrite list_lookup_fmap in E. destruct (vs !! k) as [[x v]|] eqn:Ek; [|done]. injection E as <-. cbn.
  assert (map fst vs !! k = Some x) as Ex by (by rewrite list_lookup_fmap, Ek).
  rewrite Z.add_comm, (G (Z.of_nat k + 1) x).
  - do 2 f_equal. apply F. by eapply list_elem_of_lookup_2.
  - by apply Bl.
  - eapply b_is_address; [exact Bl|]. by eapply list_elem_of_lookup_2.
  - rewrite (b_in _ _ _ Bl k x Ex). lia.
Qed.

End Ballot.

(** ** Telling slots apart *)

Ltac differ E :=
  first [ discriminate E
        | vm_compute in E; discriminate E
        | apply uint_inj in E; [congruence || lia|done || lia..] ].
Ltac apart :=
  let E := fresh "E" in intros E;
  first [ exact (item_entry _ _ _ _ E)
        | symmetry in E; exact (item_entry _ _ _ _ E)
        | apply item_key_inj in E; differ E
        | apply entry_item_inj in E as [? E]; [congruence || differ E|done || lia..] ].
Ltac oks := repeat first [ apply SaveSub_ok | apply log_event_ok | apply SetBigData_ok | done ].
Ltac loads :=
  repeat first [ rewrite load_log_event by oks
               | rewrite load_SetBigData by oks
               | rewrite load_SaveSub by oks;
                 first [ rewrite decide_True by done | rewrite decide_False by apart ] ].

End Ballot.


Import Db Store Sets Address Group Heart Witness Duty Members Frame Proposal Ballot.

Module Votes.

Section Votes.
Context {DB : Type} {ST : Storage DB} {SO : StorageOk DB ST} {C : ScCodec} {CO : ScCodecOk C}.
Context {EV : Events DB} {EO : EventsOk DB ST SO EV} {LG : Ledger DB} {LO : LedgerOk DB ST SO LG}.

Implicit Types (db : DB) (item : SubItems) (x y : Hash) (hash : Hash) (a : Address).

(** The slots outside an item. *)
Definition off_item item (k : Hash) : Prop := forall z, k <> SafeHash256 (item ++ z).

Lemma keeps_item item k v db : storage_ok db -> keeps (off_item item) db (SaveSub item k v db).
Proof. intros O. apply keeps_save; [done|]. intros N. by apply (N [k]). Qed.
Lemma keeps_entry item x k v db : storage_ok db -> keeps (off_item item) db (SaveSub (entry_item item x) k v db).
Proof.
  intros O. apply keeps_save; [done|]. intros N. apply (N [addr_value (hash_address x); k]).
  unfold item_key, subKey, entry_item. by rewrite <- app_assoc.
Qed.
Lemma keeps_log Q e args db : storage_ok db -> keeps Q db (log_event e args db).
Proof. intros O. split; [by apply log_event_ok|]. intros k _. by apply load_log_event. Qed.

End Votes.

Ltac frames :=
  repeat first [ apply keepsQ_refl; done
               | eapply keepsQ_trans; [|apply keeps_item; by oks]
               | eapply keepsQ_trans; [|apply keeps_entry; by oks]
               | eapply keepsQ_trans; [|apply keeps_log; by oks] ].

Section Public.
Context {DB : Type} {ST : Storage DB} {SO : StorageOk DB ST} {C : ScCodec} {CO : ScCodecOk C}.
Context {EV : Events DB} {EO : EventsOk DB ST SO EV} {LG : Ledger DB} {LO : LedgerOk DB ST SO LG}.

Implicit Types (db : DB) (item : SubItems) (x y : Hash) (hash : Hash) (a : Address).

(** ** Votes of the public *)

Definition public_at hash x db : Z * Z * Z :=
  let it := entry_item (getPublicVoteItem hash) x in
  (field it (str "value") db, uint8 (get64 it (str "op") db), get64 it (str "time") db).

Record public_votes db hash (vs : list (Hash * (Z * Z * Z))) : Prop := {
  pv_ballot : ballot db (getPublicVoteItem hash) (map fst vs);
  pv_filed : filed (public_at hash) db vs
}.

Definition to_vote (v : Hash * (Z * Z * Z)) : PublicVote :=
  let '(x, (value, op, time)) := v in mkPublicVote (hash_address x) value op time.

Lemma public_count db hash vs : public_votes db hash vs -> getPublicVoteCount hash db = Z.of_nat (length vs).
Proof.
  intros [B _]. unfold getPublicVoteCount, GetSub. rewrite (b_count _ _ _ B), length_map.
  pose proof (b_room _ _ _ B) as R. rewrite length_map in R.
  destruct (Z.eqb_spec (Z.of_nat (length vs)) 0); [lia|]. by apply u64_small.
Qed.

Lemma getPublicVoteList_spec db hash vs :
  public_votes db hash vs ->
  getPublicVoteList hash db = (map to_vote vs, if vs then Err ErrNotFindVote else Ok tt).
Proof.
  intros V. unfold getPublicVoteList. rewrite (public_count _ _ _ V). destruct V as [B F].
  destruct vs as [|v vs]; [done|]. destruct (Z.eqb_spec (Z.of_nat (length (v :: vs))) 0); [cbn in *; lia|].
  rewrite Nat2Z.id.
  rewrite (read_ballot (public_at hash) (fun x r => to_vote (x, r)) _ (getPublicVoteItem hash) db (v :: vs) B F).
  - f_equal. apply map_ext. by intros [x r].
  - intros i x E Hx Ht. unfold getPublicVoteInfoByFlag, GetSub. rewrite E. destruct (Z.eqb_spec x 0); [lia|].
    unfold getPublicVoteInfoByAddr, GetSub. fold (entry_item (getPublicVoteItem hash) x).
    change (public_vote_item hash (hash_address x)) with (entry_item (getPublicVoteItem hash) x).
    by destruct (Z.eqb_spec (load (item_key (entry_item (getPublicVoteItem hash) x) nil_key) db) 0).
Qed.

Lemma isMayPublicVote_spec db hash vs a :
  public_votes db hash vs -> valid_address a ->
  isMayPublicVote hash a db = bool_decide (member a ∉ map fst vs).
Proof.
  intros [B _] V. unfold isMayPublicVote, GetSub, public_vote_item. rewrite entry_item_member by done.
  eapply b_member; [exact B|]. by apply member_value.
Qed.

Lemma filed_snoc {A} (at_ : Hash -> DB -> A) db db' vs x (v : A) :
  filed at_ db vs -> x ∉ map fst vs -> at_ x db' = v -> (forall y, y ∈ map fst vs -> y <> x -> at_ y db' = at_ y db) ->
  filed at_ db' (vs ++ [(x, v)]).
Proof.
  intros F N E K y w [Hy|Hy%list_elem_of_singleton]%elem_of_app; [|by injection Hy as -> ->].
  assert (y ∈ map fst vs) as Hin by (apply list_elem_of_In, in_map_iff; exists (y, w); split; [done|by apply list_elem_of_In]).
  rewrite K; [by apply F|done|by intros ->].
Qed.

Lemma addPublicVote_spec db hash vs a value op time :
  public_votes db hash vs -> valid_address a -> member a <> 0 -> member a ∉ map fst vs ->
  is_u64 (Z.of_nat (length vs) + 1) -> is_word value -> 0 <= op < 256 -> is_u64 time ->
  let db' := addPublicVote hash (mkPublicVote a value op time) db in
  public_votes db' hash (vs ++ [(member a, (value, op, time))]) /\ keeps (off_item (getPublicVoteItem hash)) db db'.
Proof.
  intros V Va Na Nv R Hv Ho Ht. destruct (member_value a Va) as [_ W]. pose proof (b_ok _ _ _ (pv_ballot _ _ _ V)) as O.
  unfold addPublicVote. rewrite (public_count _ _ _ V), u64_small by done. unfold writePublicVoteCount, writePublicVoteInfo.
  cbn [pv_Addr pv_Value pv_Op pv_Time]. unfold public_vote_item. rewrite (entry_item_member _ a Va). unfold put, AddVoteEventLog.
  set (item := getPublicVoteItem hash). set (n := Z.of_nat (length vs) + 1). set (x := member a) in *.
  assert (value2hash (VAddress a) = x) as Ex by done.
  set (db' := SaveSub _ _ _ _). destruct V as [B F]. fold item in B.
  assert (forall y k, is_address y -> y <> x -> load (item_key (entry_item item y) k) db' = load (item_key (entry_item item y) k) db) as K.
  { intros y k Hy Ny. unfold db'. by loads. }
  split; [split|].
  - fold item. rewrite map_app. cbn [map fst]. assert (Z.of_nat (length (map fst vs)) + 1 = n) as En by (by rewrite length_map).
    apply (ballot_snoc db); rewrite ?En; try done; [lia|unfold db'; by oks|..]; try (intros; unfold db'; by loads).
  - apply (filed_snoc _ db); try done.
    + unfold public_at, get64, field, GetSub. fold item. unfold db'. loads. cbn [value2hash].
      rewrite Z.abs_eq by apply Hv. rewrite Z.mod_small by exact Hv. do 2 f_equal; [f_equal|].
      * unfold uint8, Word.Uint64, uint2Hash. rewrite u64_small by lia. rewrite Z.mod_small; [done|]. change (2 ^ 8) with 256. lia.
      * by apply u64_small.
    + intros y Hy Ny. pose proof (b_is_address _ _ _ _ B Hy) as Ay. unfold public_at, get64, field, GetSub. fold item.
      by rewrite !K by (done || lia).
  - unfold db'. frames.
Qed.

(** ** Votes of the council *)

Definition council_at hash x db : Z * Z :=
  let it := entry_item (getCouncilVoteItem hash) x in (uint8 (get64 it (str "op") db), get64 it (str "time") db).

Record council_votes db hash (vs : list (Hash * (Z * Z))) : Prop := {
  cv_ballot : ballot db (getCouncilVoteItem hash) (map fst vs);
  cv_filed : filed (council_at hash) db vs
}.

Definition to_council_vote (v : Hash * (Z * Z)) : CouncilVote :=
  let '(x, (op, time)) := v in mkCouncilVote (hash_address x) op time.

Lemma GetProposalCouncilVote_spec db hash vs :
  council_votes db hash vs ->
  GetProposalCouncilVote hash db = (map to_council_vote vs, if vs then Err ErrNotFindVote else Ok tt).
Proof.
  intros [B F]. unfold GetProposalCouncilVote, getCouncilVoteCount, GetSub. rewrite (b_count _ _ _ B), length_map.
  pose proof (b_room _ _ _ B) as R. rewrite length_map in R. destruct vs as [|v vs]; [done|].
  destruct (Z.eqb_spec (Z.of_nat (length (v :: vs))) 0); [cbn in *; lia|]. unfold Word.Uint64. rewrite u64_small by done.
  destruct (Z.eqb_spec (Z.of_nat (length (v :: vs))) 0); [done|]. rewrite Nat2Z.id.
  rewrite (read_ballot (council_at hash) (fun x r => to_council_vote (x, r)) _ (getCouncilVoteItem hash) db (v :: vs) B F).
  - f_equal. apply map_ext. by intros [x r].
  - intros i x E Hx Ht. unfold getCouncilVoteInfoByFlag, GetSub. rewrite E. destruct (Z.eqb_spec x 0); [lia|].
    unfold getCouncilVoteInfo, GetSub.
    change (council_vote_item hash (hash_address x)) with (entry_item (getCouncilVoteItem hash) x).
    by destruct (Z.eqb_spec (load (item_key (entry_item (getCouncilVoteItem hash) x) nil_key) db) 0).
Qed.

(** The members whose vote says nothing yet. *)
Lemma isMayCouncilAudit_spec db hash vs a :
  council_votes db hash vs -> valid_address a ->
  (isMayCouncilAudit hash a db = true <->
   IsActiveCouncil a db = true /\ exists t, (member a, (VotingResultUnknown, t)) ∈ vs).
Proof.
  intros [B F] V. unfold isMayCouncilAudit, GetSub, council_vote_item. rewrite entry_item_member by done.
  destruct (member_value a V) as [_ W]. rewrite (b_member _ _ _ _ B W). destruct (IsActiveCouncil a db); cbn [negb]; [|naive_solver].
  destruct (bool_decide_reflect (member a ∉ map fst vs)) as [N|N].
  - split; [done|]. intros (_ & t & H). exfalso. apply N. apply list_elem_of_In, in_map_iff.
    exists (member a, (VotingResultUnknown, t)). split; [done|by apply list_elem_of_In].
  - apply dec_stable in N. apply list_elem_of_In, in_map_iff in N as ([x [op t]] & Ex & Hin). cbn [fst] in Ex. subst x.
    apply list_elem_of_In in Hin. pose proof (f_equal fst (F _ _ Hin)) as Fo. unfold council_at in Fo. cbn [fst] in Fo. rewrite Fo.
    rewrite Z.eqb_eq. split; [intros ->; split; [done|by exists t]|]. intros (_ & t' & H').
    pose proof (f_equal fst (F _ _ H')) as F'. unfold council_at in F'. cbn [fst] in F'. by rewrite <- Fo, F'.
Qed.

(** [x]'s vote becomes [v]. *)
Definition recast {A} x (v : A) (vs : list (Hash * A)) : list (Hash * A) :=
  map (fun w => if decide (fst w = x) then (x, v) else w) vs.

Lemma recast_fst {A} x (v : A) vs : map fst (recast x v vs) = map fst vs.
Proof. unfold recast. rewrite map_map. apply map_ext. intros w. by destruct (decide _). Qed.

Lemma filed_recast {A} (at_ : Hash -> DB -> A) db db' vs x (v : A) :
  filed at_ db vs -> at_ x db' = v -> (forall y, y ∈ map fst vs -> y <> x -> at_ y db' = at_ y db) ->
  filed at_ db' (recast x v vs).
Proof.
  intros F E K y w H. apply list_elem_of_In, in_map_iff in H as ([z u] & Hz & Hin). apply list_elem_of_In in Hin. cbn [fst] in Hz.
  destruct (decide (z = x)) as [->|N]; [by injection Hz as <- <-|]. injection Hz as <- <-.
  rewrite K; [by apply F| |done]. apply list_elem_of_In, in_map_iff. exists (z, u). split; [done|by apply list_elem_of_In].
Qed.

Lemma updateCouncilVoteInfo_spec db hash vs a op time :
  council_votes db hash vs -> valid_address a -> 0 <= op < 256 -> is_u64 time ->
  let db' := updateCouncilVoteInfo hash (mkCouncilVote a op time) db in
  council_votes db' hash (recast (member a) (op, time) vs) /\ keeps (off_item (getCouncilVoteItem hash)) db db'.
Proof.
  intros [B F] Va Ho Ht. destruct (member_value a Va) as [_ W]. pose proof (b_ok _ _ _ B) as O.
  unfold updateCouncilVoteInfo. cbn [cv_Addr cv_Op cv_Time]. unfold council_vote_item.
  rewrite (entry_item_member _ a Va). unfold put, AddVoteEventLog.
  set (item := getCouncilVoteItem hash) in *. set (x := member a) in *. set (db' := log_event _ _ _).
  assert (forall k y, is_address y -> y <> x -> load (item_key (entry_item item y) k) db' = load (item_key (entry_item item y) k) db) as K.
  { intros k y Hy Ny. unfold db'. by loads. }
  split; [split|].
  - fold item. rewrite recast_fst. split; try apply B; try (unfold db'; oks; fail).
    + rewrite <- (b_count _ _ _ B). unfold db'. by loads.
    + intros i y Ey. rewrite <- (b_at _ _ _ B i y Ey). unfold db'. by loads.
    + intros i y Ey. rewrite <- (b_in _ _ _ B i y Ey).
      pose proof (b_is_address _ _ _ _ B (list_elem_of_lookup_2 _ _ _ Ey)). unfold db'. by loads.
    + intros y Hy Ny. rewrite <- (b_out _ _ _ B y Hy Ny). unfold db'. by loads.
  - apply (filed_recast _ db); [exact F| |].
    + unfold council_at, get64, field, GetSub. fold item. unfold db'. loads. cbn [value2hash]. f_equal.
      * unfold uint8, Word.Uint64, uint2Hash. rewrite u64_small by lia. rewrite Z.mod_small; [done|]. change (2 ^ 8) with 256. lia.
      * by apply u64_small.
    + intros y Hy Ny. pose proof (b_is_address _ _ _ _ B Hy) as Ay. unfold council_at, get64, field, GetSub. fold item.
      by rewrite !K by (done || lia).
  - unfold db'. frames.
Qed.

(** One more member is asked; the count is written when all have been. *)
Lemma writeCouncilVoteInfo_spec db hash vs a op time :
  storage_ok db -> let n := Z.of_nat (length vs) in
  council_votes (writeCouncilVoteCount hash n db) hash vs -> valid_address a -> member a <> 0 -> member a ∉ map fst vs ->
  is_u64 (n + 1) -> 0 <= op < 256 -> is_u64 time ->
  let db' := writeCouncilVoteInfo hash (mkCouncilVote a op time) (n + 1) db in
  council_votes (writeCouncilVoteCount hash (n + 1) db') hash (vs ++ [(member a, (op, time))]) /\
  keeps (off_item (getCouncilVoteItem hash)) db db'.
Proof.
  intros O n [B F] Va Na Nv R Ho Ht. destruct (member_value a Va) as [_ W].
  unfold writeCouncilVoteInfo, updateCouncilVoteInfo, writeCouncilVoteCount in *. cbn [cv_Addr cv_Op cv_Time]. unfold council_vote_item.
  rewrite (entry_item_member _ a Va). unfold put, AddVoteEventLog. set (item := getCouncilVoteItem hash) in *. set (x := member a) in *.
  assert (value2hash (VAddress a) = x) as Ex by done. set (db0 := SaveSub item nil_key (VUint n) db) in *.
  set (db' := log_event _ _ _). set (db1 := SaveSub item nil_key (VUint (n + 1)) db').
  assert (forall y k, is_address y -> y <> x -> load (item_key (entry_item item y) k) db1 = load (item_key (entry_item item y) k) db0) as K.
  { intros y k Hy Ny. unfold db1, db', db0. by loads. }
  split; [split|].
  - fold item. rewrite map_app. cbn [map fst]. assert (Z.of_nat (length (map fst vs)) + 1 = n + 1) as En by (by rewrite length_map).
    apply (ballot_snoc db0); rewrite ?En; try done; [lia|unfold db1, db'; by oks|..]; try (intros; unfold db1, db', db0; by loads).
  - apply (filed_snoc _ db0); try done.
    + unfold council_at, get64, field, GetSub. fold item. unfold db1, db'. loads. cbn [value2hash]. f_equal.
      * unfold uint8, Word.Uint64, uint2Hash. rewrite u64_small by lia. rewrite Z.mod_small; [done|]. change (2 ^ 8) with 256. lia.
      * by apply u64_small.
    + intros y Hy Ny. pose proof (b_is_address _ _ _ _ B Hy) as Ay. unfold council_at, get64, field, GetSub. fold item.
      by rewrite !K by (done || lia).
  - unfold db'. frames.
Qed.

(** ** Candidates *)

Definition candidate_at hash x db : Z * Z * result error bytes :=
  let it := entry_item (getProposalCampaignItem hash) x in
  (get64 it (str "margin") db, get64 it (str "time") db, get_big it (Str (str "public_key")) db).

Record candidates db hash (cs : list (Hash * (Z * Z * result error bytes))) : Prop := {
  ca_ballot : ballot db (getProposalCampaignItem hash) (map fst cs);
  ca_filed : filed (candidate_at hash) db cs
}.

End Public.
End Votes.
