(* ===== verification/ScSealed.v ===== *)
(** Operations that write nothing but slots, logs and long values: whatever such
    writes preserve, they preserve.  In particular they move no money.

    A proposal that has been settled is settled for good. *)
From stdpp Require Import gmap list.
From S2P Require Import Prelude Bech32 Address EvmWord EvmState StateDb GoSort ScStore ScSets ScGroup ScHeart ScWitness ScDuty ScMembers ScFrame ScProposal ScVotes.

Import Db Store Sets Address Group Heart Witness Duty Proposal.

Module Quiet.

(** What the writes keep between an earlier and a later state. *)
Class Closed {DB : Type} {ST : Storage DB} {EV : Events DB} {LG : Ledger DB} (R : DB -> DB -> Prop) := {
  cl_refl db : R db db;
  cl_trans db1 db2 db3 : R db1 db2 -> R db2 db3 -> R db1 db3;
  cl_save k v db : R db (save k v db);
  cl_log t d db : R db (AddLog t d db);
  cl_big k v db : R db (SetBigData k v db)
}.

Create HintDb quiet.

Section Quiet.
Context {DB : Type} {ST : Storage DB} {C : ScCodec} {EV : Events DB} {LG : Ledger DB} {P : Params} {NM : Names}.
Context (R : DB -> DB -> Prop) {CL : Closed R}.

Definition calm {A} (m : SC DB A) : Prop := forall db, R db (snd (m db)).
Definition still (f : DB -> DB) : Prop := forall db, R db (f db).

Lemma calm_pure {A} (f : DB -> result error A) : calm (fun db => (f db, db)).
Proof. intros db. apply cl_refl. Qed.
Lemma calm_bind {A B} (m : SC DB A) (k : A -> SC DB B) : calm m -> (forall a, calm (k a)) -> calm (bind m k).
Proof.
  intros Hm Hk db. unfold bind. pose proof (Hm db) as H. destruct (m db) as [[a|e] db1]; cbn in *; [|done].
  eapply cl_trans; [exact H|apply Hk].
Qed.
Lemma calm_puts f : still f -> calm (puts f).
Proof. intros H db. apply H. Qed.
Lemma calm_dropped {A} (m : SC DB A) (r : result error unit) : calm m -> calm (fun db => (r, snd (m db))).
Proof. intros H db. apply H. Qed.
Lemma calm_emit e args : calm (emit e args).
Proof. intros db. unfold emit. destruct (Pack e args); [apply cl_log|apply cl_refl]. Qed.

Lemma still_id : still (fun db => db).
Proof. intros db. apply cl_refl. Qed.
Lemma still_comp f g : still f -> still g -> still (fun db => f (g db)).
Proof. intros Hf Hg db. eapply cl_trans; [apply Hg|apply Hf]. Qed.
Lemma still_fold {A} (f : DB -> A -> DB) l : (forall a, still (fun db => f db a)) -> still (fun db => fold_left f l db).
Proof.
  intros H. induction l as [|a l IH]; intros db; cbn; [apply cl_refl|]. eapply cl_trans; [apply (H a)|apply IH].
Qed.
Lemma still_SaveSub it k v : still (SaveSub it k v).
Proof. intros db. apply cl_save. Qed.
Lemma still_DeleteSub it k : still (DeleteSub it k).
Proof. intros db. apply cl_save. Qed.
Lemma still_log e args : still (log_event e args).
Proof. intros db. apply calm_emit. Qed.

Lemma still_add_to s a : still (add_to s a).
Proof.
  intros db. unfold add_to, Add. destruct (addLen s db) as [n db1] eqn:E. unfold addLen in E. injection E as _ <-. cbn [snd].
  unfold update. do 3 (eapply cl_trans; [|apply cl_save]). apply cl_refl.
Qed.
Lemma still_clear s i v : still (clear s i v).
Proof. intros db. unfold clear. do 2 (eapply cl_trans; [|apply cl_save]). apply cl_refl. Qed.
Lemma still_update s i v : still (update s i v).
Proof. intros db. unfold update. do 2 (eapply cl_trans; [|apply cl_save]). apply cl_refl. Qed.
Lemma still_subLen s : still (subLen s).
Proof.
  intros db. unfold subLen. destruct (_ <=? 0); [apply cl_refl|]. destruct (_ =? 0); apply cl_save.
Qed.
Lemma still_move_down n s i l : still (move_down n s i l).
Proof.
  revert i. induction n as [|n IH]; intros i db; cbn [move_down]; [apply cl_refl|].
  eapply cl_trans; [|apply IH]. eapply cl_trans; [|apply still_update].
  destruct (_ =? _); [apply still_clear|apply cl_refl].
Qed.
Lemma still_RemoveOrder s i : still (fun db => snd (RemoveOrder s i db)).
Proof.
  intros db. unfold RemoveOrder. destruct (_ || _); [apply cl_refl|].
  destruct (_ =? _); cbn [snd]; (eapply cl_trans; [|apply still_subLen]); [apply still_clear|].
  eapply cl_trans; [|apply still_move_down]. apply still_clear.
Qed.
Lemma still_Remove s i : still (fun db => snd (Remove s i db)).
Proof.
  intros db. unfold Remove. destruct (_ || _); [apply cl_refl|]. destruct (_ =? _); cbn [snd]; (eapply cl_trans; [|apply still_subLen]).
  - apply still_clear.
  - eapply cl_trans; [apply still_update|apply still_clear].
Qed.

Ltac quiet :=
  repeat match goal with
         | |- calm (bind _ _) => apply calm_bind; [|intros ?]
         | |- calm (if ?b then _ else _) => destruct b
         | |- calm (match ?x with _ => _ end) => destruct x
         | |- calm (let '(_, _) := ?x in _) => destruct x
         | |- calm (ret _) => apply (calm_pure (fun _ => Ok _))
         | |- calm (fail _) => apply (calm_pure (fun _ => Err _))
         | |- calm (gets ?f) => apply (calm_pure (fun db => Ok (f db)))
         | |- calm (read ?f) => apply (calm_pure f)
         | |- calm (lift ?r) => apply (calm_pure (fun _ => r))
         | |- calm (puts _) => apply calm_puts
         | |- calm (emit _ _) => apply calm_emit
         | |- still (SaveSub _ _ _) => apply still_SaveSub
         | |- still (put _ _ _) => apply still_SaveSub
         | |- still (fun db => SaveSub _ _ _ db) => apply still_SaveSub
         | |- still (add_to _ _) => apply still_add_to
         | |- still (save _ _) => intros ?; apply cl_save
         | |- still (fun db => save _ _ db) => intros ?; apply cl_save
         | |- still (SetBigData _ _) => intros ?; apply cl_big
         | |- still (fun db => snd (RemoveOrder _ _ db)) => apply still_RemoveOrder
         | |- still (fun db => snd (Remove _ _ db)) => apply still_Remove
         end; auto with quiet.

(** ** Groups *)

Lemma calm_removeWtinessGroup w o n : calm (removeWtinessGroup w o n).
Proof. unfold removeWtinessGroup, updateWitnessGroupIndex, AddWitnessGroupChangedEvent. quiet. Qed.
Hint Resolve calm_removeWtinessGroup : quiet.

Lemma calm_move_up l g r need : calm (move_up l g r need).
Proof. revert need. induction l as [|w l IH]; intros need; cbn [move_up]; quiet. Qed.
Hint Resolve calm_move_up : quiet.

Lemma calm_refill n g r need : calm (refill n g r need).
Proof. revert g need. induction n as [|n IH]; intros g need; cbn [refill]; quiet. Qed.
Hint Resolve calm_refill : quiet.

Lemma calm_give n l r g : calm (give n l r g).
Proof. revert l. induction n as [|n IH]; intros l; cbn [give]; quiet. Qed.
Hint Resolve calm_give : quiet.

Lemma calm_distribute fuel times i cache l r : calm (distribute fuel times i cache l r).
Proof. revert times i cache l. induction fuel as [|fuel IH]; intros times i cache l; cbn [distribute]; quiet. Qed.
Hint Resolve calm_distribute : quiet.

Lemma calm_fix r : calm (fixWitnessGroup r).
Proof. unfold fixWitnessGroup. quiet. Qed.
Hint Resolve calm_fix : quiet.

Lemma calm_CancelWitness a g : calm (CancelWitnessFromWitnessGroup a g).
Proof. unfold CancelWitnessFromWitnessGroup. quiet. Qed.
Hint Resolve calm_CancelWitness : quiet.

Lemma calm_ApplySys a : calm (ApplyWitnessGroupOfSys a).
Proof. unfold ApplyWitnessGroupOfSys, WriteWitnessGroupCount. quiet. Qed.
Lemma calm_ApplyUser a : calm (ApplyWitnessGroupOfUser a).
Proof. unfold ApplyWitnessGroupOfUser, WriteWitnessGroupCount. quiet. Qed.
Hint Resolve calm_ApplySys calm_ApplyUser : quiet.

(** ** Heartbeats *)

Lemma still_commit_count sub l acc : R (snd acc) (snd (fold_left (commit_count sub) l acc)).
Proof.
  revert acc. induction l as [|v l IH]; intros [[s e] db]; cbn [fold_left]; [apply cl_refl|].
  eapply cl_trans; [|apply IH]. unfold commit_count. destruct (_ =? 0); [apply cl_refl|]. destruct (_ && _); cbn [snd].
  - eapply cl_trans; apply still_DeleteSub.
  - eapply cl_trans; apply still_SaveSub.
Qed.
Lemma still_count_CommitCache l : still (count_CommitCache l).
Proof.
  intros db. unfold count_CommitCache. destruct (GetWorkPeriod _ _) as [s e].
  pose proof (still_commit_count (lc_sub l) (map snd (map_to_list (lc_cache l))) (s, e, db)) as H.
  destruct (fold_left _ _ _) as [[s' e'] db']. cbn [snd] in H. eapply cl_trans; [exact H|].
  eapply cl_trans; apply still_SaveSub.
Qed.
Lemma still_count_Clear s : still (count_Clear s).
Proof.
  intros db. unfold count_Clear. destruct (GetWorkPeriod _ _) as [p q]. eapply cl_trans; [|apply still_DeleteSub].
  eapply cl_trans; [|apply still_DeleteSub].
  refine (still_fold (fun db p => _) _ _ db). intros a db'. eapply cl_trans; apply still_DeleteSub.
Qed.
Lemma still_CommitCache l : still (CommitCache l).
Proof.
  intros db. unfold CommitCache. eapply cl_trans.
  - apply (still_fold (commit_deleted l)). intros v db'. unfold commit_deleted.
    eapply cl_trans; [apply (still_DeleteSub (lh_sub l) (addr_value v))|].
    destruct (Exist _ _ _) as [i|]; [|apply cl_refl]. eapply cl_trans; [apply still_Remove|].
    eapply cl_trans; [apply still_DeleteSub|]. eapply cl_trans; [apply still_DeleteSub|apply still_count_Clear].
  - apply (still_fold (commit_written l)). intros v db'. unfold commit_written.
    eapply cl_trans; [|apply still_count_CommitCache].
    eapply cl_trans; [eapply cl_trans; apply still_SaveSub|]. destruct (Exist _ _ _); [apply cl_refl|apply still_add_to].
Qed.
Lemma calm_init role a n : calm (initHearbeatLastRound role a n).
Proof.
  unfold initHearbeatLastRound. quiet. intros db. apply still_CommitCache.
Qed.
Hint Resolve calm_init : quiet.

(** ** Witnesses and the council *)

Lemma still_WitnessCount p isSys n : still (AddWitnessCount p isSys n).
Proof. intros db. unfold AddWitnessCount. destruct (n =? 0); [apply cl_refl|apply still_SaveSub]. Qed.
Lemma still_CouncilCount p n : still (AddCouncilCount p n).
Proof. intros db. unfold AddCouncilCount. destruct (n =? 0); [apply cl_refl|apply still_SaveSub]. Qed.
Lemma still_Active n : still (AddActiveWitness n).
Proof. intros db. apply still_SaveSub. Qed.
Lemma still_Del a n s : still (DelWitnessInfo a n s).
Proof. intros db. unfold DelWitnessInfo. eapply cl_trans; apply still_SaveSub. Qed.
Hint Resolve still_WitnessCount still_CouncilCount still_Active still_Del : quiet.

Lemma calm_WriteWitnessInfo w : calm (WriteWitnessInfo w).
Proof. unfold WriteWitnessInfo. quiet. Qed.
Lemma calm_Update w : calm (UpdateAcitvieWitenssLib w).
Proof. unfold UpdateAcitvieWitenssLib, AddWitnessChangeEventLog. quiet. Qed.
Hint Resolve calm_WriteWitnessInfo calm_Update : quiet.

Lemma calm_applyWitness a m n k s : calm (applyWitness a m n k s).
Proof. unfold applyWitness. quiet. Qed.
Lemma calm_onWitnessExit n w : calm (onWitnessExit n w).
Proof. unfold onWitnessExit. quiet. Qed.
Hint Resolve calm_applyWitness calm_onWitnessExit : quiet.

Lemma calm_AddCouncil c : calm (AddCouncil c).
Proof. unfold AddCouncil, WriteCouncilInfo. quiet. Qed.
Lemma calm_RemoveCouncil a n : calm (RemoveCouncil a n).
Proof. unfold RemoveCouncil. quiet. Qed.
Hint Resolve calm_AddCouncil calm_RemoveCouncil : quiet.

(** ** Proposals *)

Lemma still_writeProposalInfo p : still (writeProposalInfo p).
Proof.
  intros db. unfold writeProposalInfo, AddProposalChangeEventLog. eapply cl_trans; [|apply still_log].
  unfold put. do 13 (eapply cl_trans; [|apply still_SaveSub]). apply still_SaveSub.
Qed.

End Quiet.
End Quiet.


Import Db Store Sets Address Group Heart Witness Duty Members Frame Proposal Ballot Quiet.

Module Sealed.

Section Sealed.
Context {DB : Type} {ST : Storage DB} {SO : StorageOk DB ST} {C : ScCodec} {CO : ScCodecOk C}.
Context {EV : Events DB} {EO : EventsOk DB ST SO EV} {LG : Ledger DB} {LO : LedgerOk DB ST SO LG}.
Context {P : Params} {NM : Names} {SR : Sorting} {CH : ChainContext}.

Implicit Types (db : DB) (hash : Hash) (e : Env) (p : Proposal).

(** ** Calls and what they leave *)

#[local] Instance sound_closed : Closed (fun db db' => storage_ok db -> storage_ok db').
Proof.
  split; [done|by auto|intros k v db; apply save_ok|intros t d db; apply AddLog_ok|intros k v db; apply SetBigData_ok].
Qed.

(** The state stays well-formed, and an answer meets [Q]. *)
Definition triple {A} (m : SC (DB * Z) A) (Q : A -> DB -> Prop) : Prop :=
  forall db g, storage_ok db ->
    storage_ok (fst (snd (m (db, g)))) /\ match fst (m (db, g)) with Ok a => Q a (fst (snd (m (db, g)))) | Err _ => True end.

Lemma triple_bind {A B} (m : SC (DB * Z) A) (k : A -> SC (DB * Z) B) (Q : A -> DB -> Prop) (Q' : B -> DB -> Prop) :
  triple m Q -> (forall a, (exists db, Q a db) -> triple (k a) Q') -> triple (bind m k) Q'.
Proof.
  intros Hm Hk db g O. unfold bind. destruct (Hm db g O) as [O1 H1]. destruct (m (db, g)) as [[a|er] [db1 g1]]; cbn in *; [|done].
  apply (Hk a); [by exists db1|done].
Qed.

Definition any {A} (_ : A) (_ : DB) : Prop := True.

Lemma triple_ret {A} (a : A) (Q : A -> DB -> Prop) : (forall db, Q a db) -> triple (ret a) Q.
Proof. intros H db g O. by split; [|apply H]. Qed.
Lemma triple_fail {A} er (Q : A -> DB -> Prop) : triple (fail er) Q.
Proof. intros db g O. by split. Qed.
Lemma triple_gas n (Q : unit -> DB -> Prop) : (forall db, Q tt db) -> triple (UseGas n) Q.
Proof. intros H db g O. unfold UseGas. destruct (g <? n); cbn; [by split|split; [done|apply H]]. Qed.
Lemma triple_lift {A} (r : result error A) : triple (lift r) (fun a _ => r = Ok a).
Proof. intros db g O. unfold lift. cbn. split; [done|]. by destruct r. Qed.
Lemma triple_read {A} (f : DB -> result error A) : triple (on_state (read f)) (fun a _ => exists db, f db = Ok a).
Proof. intros db g O. unfold on_state, read. cbn. split; [done|]. destruct (f db) eqn:E; [by exists db|done]. Qed.
Lemma triple_gets {A} (f : DB -> A) : triple (on_state (gets f)) any.
Proof. intros db g O. by split. Qed.
Lemma triple_calm {A} (m : SC DB A) : calm (fun db db' => storage_ok db -> storage_ok db') m -> triple (on_state m) any.
Proof.
  intros H db g O. unfold on_state. pose proof (H db O) as O'. destruct (m db) as [r db']. cbn in *. split; [done|by destruct r].
Qed.
Lemma triple_puts (f : DB -> DB) : (forall db, storage_ok db -> storage_ok (f db)) -> triple (on_state (puts f)) any.
Proof. intros H db g O. cbn. by split; [apply H|]. Qed.

Lemma refund_ok a n db : storage_ok db -> storage_ok (refund a n db).
Proof. intros O. unfold refund, Transfer. by apply AddBalance_ok, SubBalance_ok. Qed.

Lemma calm_try {A} (m : SC DB A) R : calm R m -> calm R (try m).
Proof. intros H db. specialize (H db). unfold try. by destruct (m db) as [[a|[]] db']. Qed.

Lemma triple_weaken {A} (m : SC (DB * Z) A) (Q Q' : A -> DB -> Prop) :
  triple m Q -> (forall a db, Q a db -> Q' a db) -> triple m Q'.
Proof. intros H W db g O. destruct (H db g O) as [O1 H1]. split; [done|]. destruct (fst (m (db, g))); [by apply W|done]. Qed.

(** ** Settled proposals *)

Definition stored_status hash db : Z := uint8 (get64 (proposal_item hash) (str "status") db).
Definition stored_type hash db : Z := uint8 (get64 (proposal_item hash) (str "type") db).

Definition final (typ status : Z) : Prop :=
  status = ProposalStatusPassed \/ status = ProposalStatusFailed \/
  (status = ProposalStatusExpired /\ (typ = ProposalTypeConfigChange \/ needApproval typ = false)).

Definition sealed hash db : Prop := final (stored_type hash db) (stored_status hash db).

(** What is written of a proposal is read back. *)
Lemma write_status p db :
  storage_ok db -> 0 <= Type_ p < 256 -> 0 <= p_Status p < 256 ->
  stored_status (Key p) (writeProposalInfo p db) = p_Status p /\ stored_type (Key p) (writeProposalInfo p db) = Type_ p.
Proof.
  intros O Ht Hs. unfold stored_status, stored_type, get64, field, GetSub, writeProposalInfo, AddProposalChangeEventLog, put.
  assert (forall n, 0 <= n < 256 -> uint8 (Word.Uint64 (value2hash (VEnum n))) = n) as H8.
  { intros n Hn. cbn [value2hash]. unfold uint2Hash, Word.Uint64, uint8. rewrite u64_small by lia. apply Z.mod_small.
    change (2 ^ 8) with 256. lia. }
  rewrite !load_log_event by (repeat apply SaveSub_ok; done). set (it := proposal_item (Key p)).
  assert (forall s v s' db, storage_ok db -> str s <> str s' ->
    load (item_key it (Str (str s))) (SaveSub it (Str (str s')) v db) = load (item_key it (Str (str s))) db) as Hne.
  { intros s v s' d Od N. apply load_SaveSub_ne; [done|]. intros E. injection E as E. by apply N. }
  split.
  - do 4 (rewrite Hne; [|repeat apply SaveSub_ok; done|intros E; vm_compute in E; discriminate E]).
    rewrite load_SaveSub_same by (repeat apply SaveSub_ok; done). by apply H8.
  - do 13 (rewrite Hne; [|repeat apply SaveSub_ok; done|intros E; vm_compute in E; discriminate E]).
    rewrite load_SaveSub_same by done. by apply H8.
Qed.

Lemma finish_seals hash p :
  Key p = hash -> 0 <= Type_ p < 256 -> final (Type_ p) (p_Status p) -> triple (finish p) (fun _ => sealed hash).
Proof.
  intros <- Ht F. unfold finish. eapply triple_bind; [by apply (triple_gas _ any)|]. intros _ _ db g O.
  unfold on_state, puts. cbn [fst snd].
  assert (storage_ok (writeProposalInfo p db)) as O' by (by apply (still_writeProposalInfo (fun db db' => storage_ok db -> storage_ok db'))).
  split; [done|]. unfold sealed. destruct (write_status p db O Ht) as [-> ->]; [|exact F].
  destruct F as [-> |[-> |[-> _]]]; done.
Qed.

Ltac steps :=
  repeat match goal with
         | |- triple (bind (UseGas _) _) _ => eapply triple_bind; [by apply (triple_gas _ any)|intros _ _]
         | |- triple (bind (on_state (read _)) _) _ => eapply triple_bind; [apply triple_read|intros ? ?]
         | |- triple (bind (on_state (gets _)) _) _ => eapply triple_bind; [apply triple_gets|intros ? _]
         | |- triple (bind (lift _) _) _ => eapply triple_bind; [apply triple_lift|intros ? _]
         | |- triple (bind (on_state (puts (refund _ _))) _) _ =>
             eapply triple_bind; [apply triple_puts; intros; by apply refund_ok|intros _ _]
         | |- triple (fail _) _ => apply triple_fail
         | |- triple (let '(_, _) := ?x in _) _ => destruct x
         end.

Lemma triple_recruit_system e need failed l : calm (fun db db' => storage_ok db -> storage_ok db') (recruit_system e need failed l).
Proof.
  revert need failed. induction l as [|v l IH]; intros need failed; cbn [recruit_system]; [by intros db O|].
  assert (forall need failed, calm (fun db db' => storage_ok db -> storage_ok db')
    (bind (puts (refund (c_Address v) (c_Margin v))) (fun _ => recruit_system e need failed l))) as Hr.
  { intros n f. apply calm_bind; [apply _| |intros _; apply IH]. apply calm_puts. intros db. apply refund_ok. }
  destruct (_ || _); [apply Hr|]. apply calm_bind; [apply _|apply calm_try, calm_applyWitness; apply _|].
  intros [|]; [apply IH|apply Hr].
Qed.

Lemma triple_recruit_user e failed l : calm (fun db db' => storage_ok db -> storage_ok db') (recruit_user e failed l).
Proof.
  revert failed. induction l as [|v l IH]; intros failed; cbn [recruit_user]; [by intros db O|].
  apply calm_bind; [apply _|apply calm_try, calm_applyWitness; apply _|]. intros [|]; [apply IH|].
  apply calm_bind; [apply _| |intros _; apply IH]. apply calm_puts. intros db. apply refund_ok.
Qed.

Lemma refund_all_ok l db : storage_ok db -> storage_ok (refund_all l db).
Proof. revert db. induction l as [|w l IH]; intros db O; [done|]. cbn. by apply IH, refund_ok. Qed.

Lemma triple_settle_campaign e need l : calm (fun db db' => storage_ok db -> storage_ok db') (settle_campaign e need l).
Proof.
  unfold settle_campaign. destruct (Select _ _ _) as [w lo]. apply calm_bind; [apply _| |intros _; apply triple_recruit_user].
  apply calm_puts. intros db. apply refund_all_ok.
Qed.

(** The proposal that is read has the status and the type that are stored. *)
Lemma read_proposal hash n db p :
  GetProposalInfoByHash hash n db = Ok p ->
  Key p = hash /\ p_Status p = stored_status hash db /\ Type_ p = stored_type hash db /\ numberCurrent p = n.
Proof.
  unfold GetProposalInfoByHash. destruct (_ =? 0); [done|]. set (q := mkProposal _ _ _ _ _ _ _ _ _ _ _ _ _ _ _ _).
  destruct (_ || _); [by intros [= <-]|].
  destruct (_ =? _); [destruct (getRecruitingSum false db); [by intros [= <-]|done]|].
  destruct (_ =? _); [destruct (getRecruitingSum true db); [by intros [= <-]|done]|by intros [= <-]].
Qed.

Lemma uint8_range n : 0 <= uint8 n < 256.
Proof. apply Z.mod_pos_bound. done. Qed.

Lemma Finalize_seals e p :
  0 <= Type_ p < 256 -> triple (Finalize e p) (fun _ => sealed (Key p)).
Proof.
  intros Ht. unfold Finalize. set (q := set_Finalize _ _ p).
  assert (forall s, s = ProposalStatusPassed \/ s = ProposalStatusFailed ->
    triple (finish (set_Status s q)) (fun _ => sealed (Key p))) as Hf.
  { intros s Hs. apply finish_seals; [done|done|]. cbn. destruct Hs as [-> | ->]; [by left|by right; left]. }
  destruct (_ =? _).
  { unfold finalizeConfig. steps. destruct a; [|apply Hf; by right]. steps.
    eapply triple_bind; [apply triple_puts; intros; by apply save_ok|intros _ _]. apply Hf. by left. }
  destruct (_ =? _).
  { unfold finalizeSystemWitness. steps. eapply triple_bind with (Q := any).
    - destruct (0 <? _)%nat; [|by apply triple_ret]. steps. apply triple_calm, triple_recruit_system.
    - intros f _. destruct f; apply Hf; [by right|by left]. }
  destruct (_ =? _).
  { unfold finalizeUserWitness. steps. eapply triple_bind; [apply triple_calm, triple_settle_campaign|].
    intros f _. destruct f; apply Hf; [by right|by left]. }
  destruct (_ || _) eqn:Et; [|apply triple_fail].
  unfold finalizeCouncil. steps. eapply triple_bind with (Q := fun s _ => s = ProposalStatusPassed \/ s = ProposalStatusFailed).
  - destruct (_ =? _).
    { unfold admit_council. destruct a; steps; [|by apply triple_ret; right].
      destruct a; steps; [|by apply triple_ret; right].
      eapply triple_bind; [apply triple_calm, calm_try, calm_AddCouncil; apply _|]. intros [|] _; steps; by apply triple_ret; auto. }
    destruct (_ =? _).
    { unfold fire_council. destruct a; [|by apply triple_ret; right]. steps. destruct a; [|by apply triple_ret; right].
      eapply triple_bind; [apply triple_calm, calm_try, calm_RemoveCouncil; apply _|]. intros [|] _; steps; by apply triple_ret; auto. }
    apply triple_ret. intros _. destruct a; auto.
  - intros s [_ Hs]. by apply Hf.
Qed.

Lemma expired_type p :
  p_Status p = ProposalStatusInApproval -> GetStatus p = ProposalStatusExpired ->
  Type_ p = ProposalTypeConfigChange \/ needApproval (Type_ p) = false.
Proof.
  unfold GetStatus. intros ->. change (ProposalStatusInApproval =? ProposalStatusPassed) with false.
  change (ProposalStatusInApproval =? ProposalStatusFailed) with false. cbn [orb].
  destruct (needApproval (Type_ p)); [|by auto]. cbn [negb].
  destruct (_ || _); [by destruct (_ <? _)|]. destruct (Z.eqb_spec (Type_ p) ProposalTypeConfigChange); [by left|done].
Qed.

Lemma SetConfigFinalize_seals e hash : triple (SetConfigFinalize e hash) (fun _ => sealed hash).
Proof.
  unfold SetConfigFinalize. destruct (not_payable e); [apply triple_fail|]. steps.
  destruct H as (_ & db & (Ek & Es & Et & _)%read_proposal).
  assert (0 <= Type_ a < 256) as Ht by (rewrite Et; apply uint8_range).
  destruct (_ && _) eqn:Ex.
  - apply andb_true_iff in Ex as [E1 E2]. apply Z.eqb_eq in E1, E2.
    eapply triple_bind with (Q := any); [destruct (_ =? _); [apply triple_puts; intros db1 O1; by apply refund_ok|apply triple_ret; by intros]|].
    intros _ _. apply finish_seals; [done|done|]. right; right. split; [done|]. exact (expired_type a E1 E2).
  - steps. rewrite <- Ek. by apply Finalize_seals.
Qed.

(** ** What a settled proposal takes *)

Lemma sealed_status hash n db p :
  GetProposalInfoByHash hash n db = Ok p -> sealed hash db ->
  p_Status p <> ProposalStatusInApproval /\
  (GetStatus p = ProposalStatusPassed \/ GetStatus p = ProposalStatusFailed \/ GetStatus p = ProposalStatusExpired).
Proof.
  intros (_ & Es & Et & _)%read_proposal F. unfold sealed in F. rewrite <- Es, <- Et in F. unfold GetStatus.
  destruct F as [-> |[-> |[-> [-> | ->]]]]; cbn; by auto.
Qed.

(** A call that fails in the state and changes nothing but the gas. *)
Definition refused {A} db (m : SC (DB * Z) A) : Prop := forall g, exists er g', m (db, g) = (Err er, (db, g')).

Lemma refused_fail {A} db er : refused (A := A) db (fail er).
Proof. intros g. by exists er, g. Qed.
Lemma refused_gas {A} db n (k : unit -> SC (DB * Z) A) : refused db (k tt) -> refused db (bind (UseGas n) k).
Proof. intros H g. unfold bind, UseGas. destruct (g <? n); [by eexists _, _|apply H]. Qed.
Lemma refused_read {A B} db (f : DB -> result error A) (k : A -> SC (DB * Z) B) :
  (forall a, f db = Ok a -> refused db (k a)) -> refused db (bind (on_state (read f)) k).
Proof. intros H g. unfold bind, on_state, read. cbn. destruct (f db) as [a|er]; [by apply H|by eexists _, _]. Qed.
Lemma refused_gets {A B} db (f : DB -> A) (k : A -> SC (DB * Z) B) :
  refused db (k (f db)) -> refused db (bind (on_state (gets f)) k).
Proof. intros H g. apply H. Qed.
Lemma refused_lift {A B} db (r : result error A) (k : A -> SC (DB * Z) B) :
  (forall a, r = Ok a -> refused db (k a)) -> refused db (bind (lift r) k).
Proof. intros H g. unfold bind, lift. destruct r as [a|er]; [by apply H|by eexists _, _]. Qed.
Lemma turned_away_bind {A B} db (m : SC (DB * Z) A) (k : A -> SC (DB * Z) B) : refused db m -> refused db (bind m k).
Proof. intros H g. unfold bind. destruct (H g) as (er & g' & ->). by eexists _, _. Qed.

Ltac refusal :=
  repeat match goal with
         | |- refused _ (bind (UseGas _) _) => apply refused_gas
         | |- refused _ (bind (on_state (read _)) _) => apply refused_read; intros ? ?
         | |- refused _ (bind (on_state (gets _)) _) => apply refused_gets
         | |- refused _ (bind (lift _) _) => apply refused_lift; intros ? ?
         | |- refused _ (fail _) => apply refused_fail
         | |- refused _ (if ?b then fail _ else _) => destruct b
         end.

(** A settled proposal has none of the states in which something can be done. *)
Lemma sealed_valid hash n db p s r :
  GetProposalInfoByHash hash n db = Ok p -> sealed hash db ->
  s = ProposalStatusInApproval \/ s = ProposalStatusInVoting \/ s = ProposalStatusPendingJudge \/ s = ProposalStatusApply ->
  validStatus s p = Ok r -> False.
Proof.
  intros E F Hs. unfold validStatus. destruct (sealed_status _ _ _ _ E F) as [_ G].
  destruct Hs as [-> |[-> |[-> | ->]]]; destruct G as [-> |[-> | ->]]; done.
Qed.

Ltac spent :=
  match goal with
  | E : GetProposalInfoByHash _ _ _ = Ok _, F : sealed _ _, V : validStatus _ _ = Ok _ |- _ =>
      exfalso; refine (sealed_valid _ _ _ _ _ _ E F _ V); by auto
  end.

Lemma sealed_Finalize e hash db : sealed hash db -> refused db (SetConfigFinalize e hash).
Proof.
  intros F. unfold SetConfigFinalize. refusal. destruct (sealed_status _ _ _ _ H F) as [N _].
  destruct (Z.eqb_spec (p_Status a) ProposalStatusInApproval); [done|]. cbn [andb]. refusal. spent.
Qed.

Lemma sealed_ApplyVote e hash b db : sealed hash db -> refused db (SetConfigApplyVote e hash b).
Proof. intros F. unfold SetConfigApplyVote. refusal. apply turned_away_bind. unfold updateMemberProposalVote. refusal. spent. Qed.

Lemma sealed_PublicVote e hash b db : sealed hash db -> refused db (handlePublicVote e hash b).
Proof. intros F. unfold handlePublicVote. refusal. spent. Qed.

Lemma sealed_Candidate e hash db : sealed hash db -> refused db (SetSystemWitnessApply e hash).
Proof. intros F. unfold SetSystemWitnessApply. refusal. spent. Qed.

Lemma sealed_AddMargin e hash db : sealed hash db -> refused db (SetSystemWitnessAddMargin e hash).
Proof. intros F. unfold SetSystemWitnessAddMargin. refusal. spent. Qed.

(** C18: A proposal is settled at most once: when [SetConfigFinalize] has
    succeeded, the record is well-formed and says so, and as long as the record's
    type and status are not written, every call that would settle the proposal
    again, let the council or the public vote on it, let a witness become a
    candidate or let a candidate add to the margin is refused and changes nothing
    but the gas. *)
Theorem proposal_settled_once e hash db g db' g' :
  storage_ok db -> SetConfigFinalize e hash (db, g) = (Ok tt, (db', g')) ->
  storage_ok db' /\ sealed hash db' /\
  forall db2 e2 b,
    stored_status hash db2 = stored_status hash db' -> stored_type hash db2 = stored_type hash db' ->
    refused db2 (SetConfigFinalize e2 hash) /\ refused db2 (SetConfigApplyVote e2 hash b) /\
    refused db2 (handlePublicVote e2 hash b) /\ refused db2 (SetSystemWitnessApply e2 hash) /\
    refused db2 (SetSystemWitnessAddMargin e2 hash).
Proof.
  intros O E. pose proof (SetConfigFinalize_seals e hash db g O) as [O' F]. rewrite E in O', F. cbn in O', F.
  split; [done|]. split; [done|]. intros db2 e2 b Es Et.
  assert (sealed hash db2) as F2 by (unfold sealed; by rewrite Es, Et).
  split_and!; [by apply sealed_Finalize|by apply sealed_ApplyVote|by apply sealed_PublicVote|by apply sealed_Candidate|by apply sealed_AddMargin].
Qed.

End Sealed.
End Sealed.
