(* ===== verification/ScTally.v ===== *)
(** What votes decide: the record of a proposal is read as it was written, the
    public's votes are counted once each, the council's votes open or end the
    vote, and a configuration changes exactly when the tally says so.

    How a proposal to change the configuration is opened: its record, its place
    in the list of proposals, and the blank votes of the council. *)
From stdpp Require Import gmap list.
From S2P Require Import Prelude Bech32 Address EvmWord EvmState StateDb GoSort ScStore ScSets ScGroup ScHeart ScWitness ScDuty ScMembers ScFrame ScProposal ScVotes ScSealed.

Import Db Store Sets Address Group Heart Witness Duty Members Frame Proposal Ballot Votes Quiet Sealed.

Module Tally.

Lemma bind_gas {DB A} n (k : unit -> SC (DB * Z) A) db g :
  bind (UseGas n) k (db, g) = if g <? n then (Err ErrOutOfGas, (db, g)) else k tt (db, g - n).
Proof. unfold bind, UseGas. by destruct (g <? n). Qed.
Lemma bind_read {DB A B} (f : DB -> result error A) (k : A -> SC (DB * Z) B) db g :
  bind (on_state (read f)) k (db, g) = match f db with Ok a => k a (db, g) | Err er => (Err er, (db, g)) end.
Proof. unfold bind, on_state, read. cbn. by destruct (f db). Qed.
Lemma bind_gets {DB A B} (f : DB -> A) (k : A -> SC (DB * Z) B) db g : bind (on_state (gets f)) k (db, g) = k (f db) (db, g).
Proof. done. Qed.
Lemma bind_puts {DB B} (f : DB -> DB) (k : unit -> SC (DB * Z) B) db g : bind (on_state (puts f)) k (db, g) = k tt (f db, g).
Proof. done. Qed.
Lemma bind_lift {DB A B} (r : result error A) (k : A -> SC (DB * Z) B) db g :
  bind (lift r) k (db, g) = match r with Ok a => k a (db, g) | Err er => (Err er, (db, g)) end.
Proof. unfold bind, lift. by destruct r. Qed.

(** One payment of gas, in two cases. *)
Ltac pay :=
  rewrite bind_gas;
  match goal with |- context [if ?a <? ?b then _ else _] => let L := fresh "L" in destruct (Z.ltb_spec a b) as [L|L] end.

Section Record.
Context {DB : Type} {ST : Storage DB} {SO : StorageOk DB ST} {C : ScCodec} {CO : ScCodecOk C}.
Context {EV : Events DB} {EO : EventsOk DB ST SO EV} {LG : Ledger DB} {LO : LedgerOk DB ST SO LG}.
Context {P : Params} {NM : Names} {SR : Sorting} {CH : ChainContext}.

Implicit Types (db : DB) (hash : Hash) (e : Env) (p : Proposal).

(** ** The record *)

(** What a record may hold. *)
Record sized p : Prop := {
  f_type : 0 <= Type_ p < 256;
  f_status : 0 <= p_Status p < 256;
  f_margin : is_u64 (p_Margin p);
  f_key : trim_zeros (hash_bytes (BytesToHash (ConfigKey p))) = ConfigKey p;
  f_value : is_u64 (ConfigValue p);
  f_times : is_u64 (TimeApply p) /\ is_u64 (TimeVote p) /\ is_u64 (TimeFinalize p);
  f_numbers : is_u64 (NumberApply p) /\ is_u64 (NumberVote p) /\ is_u64 (NumberFinalize p)
}.
(** Accounts come back as their hashes spell them. *)
Definition canonical p : Proposal :=
  mkProposal (Key p) (Type_ p) (p_Margin p) (ConfigKey p) (ConfigValue p)
    (hash_address (member (Applicant p))) (hash_address (member (FireAddress p)))
    (TimeApply p) (TimeVote p) (TimeFinalize p) (p_Status p) (NumberApply p) (NumberFinalize p) (NumberVote p) (numberCurrent p) (RecruitingSum p).
Definition fit p : Prop := sized p /\ canonical p = p.

(** The record as [GetProposalInfoByHash] reads it, without the number of
    witnesses to recruit. *)
Definition record_at hash (n : Z) db : Proposal :=
  let item := proposal_item hash in
  mkProposal hash (uint8 (get64 item (str "type") db)) (get64 item (str "margin") db)
    (trim_zeros (hash_bytes (field item (str "config_key") db))) (get64 item (str "config_value") db)
    (get_address item (str "applicant") db) (get_address item (str "fire_address") db)
    (get64 item (str "time_apply") db) (get64 item (str "time_vote") db) (get64 item (str "time_finalize") db)
    (uint8 (get64 item (str "status") db)) (get64 item (str "number_apply") db) (get64 item (str "number_finalize") db)
    (get64 item (str "number_vote") db) n 0.

Definition set_current (n : Z) p : Proposal :=
  mkProposal (Key p) (Type_ p) (p_Margin p) (ConfigKey p) (ConfigValue p) (Applicant p) (FireAddress p)
    (TimeApply p) (TimeVote p) (TimeFinalize p) (p_Status p) (NumberApply p) (NumberFinalize p) (NumberVote p) n 0.

Lemma uint64_small n : is_u64 n -> Word.Uint64 (uint2Hash n) = n.
Proof. apply u64_small. Qed.
Lemma uint8_small n : 0 <= n < 256 -> uint8 (Word.Uint64 (uint2Hash n)) = n.
Proof. intros H. unfold uint8. rewrite uint64_small by lia. apply Z.mod_small. exact H. Qed.

Lemma record_written_sized p n db :
  storage_ok db -> sized p -> record_at (Key p) n (writeProposalInfo p db) = set_current n (canonical p).
Proof.
  intros O F. destruct F as [? ? ? Hk ? (? & ? & ?) (? & ? & ?)].
  unfold record_at, set_current, canonical, get64, get_address, field, GetSub, writeProposalInfo, AddProposalChangeEventLog, put.
  set (it := proposal_item (Key p)).
  f_equal; loads; cbn [value2hash Key Type_ p_Margin ConfigKey ConfigValue Applicant FireAddress TimeApply TimeVote TimeFinalize p_Status NumberApply NumberFinalize NumberVote];
    try (by apply uint64_small); try (by apply uint8_small); try done.
Qed.
Lemma record_written p n db :
  storage_ok db -> fit p -> record_at (Key p) n (writeProposalInfo p db) = set_current n p.
Proof. intros O [F E]. by rewrite record_written_sized, E. Qed.

Lemma proposal_keeps p db :
  storage_ok db -> keeps (off_item (proposal_item (Key p))) db (writeProposalInfo p db).
Proof. intros O. unfold writeProposalInfo, AddProposalChangeEventLog, put. frames. Qed.

Lemma proposal_listed p db :
  storage_ok db -> GetSub (proposal_item (Key p)) nil_key (writeProposalInfo p db) = GetSub (proposal_item (Key p)) nil_key db.
Proof.
  intros O. unfold GetSub, writeProposalInfo, AddProposalChangeEventLog, put. set (it := proposal_item (Key p)). by loads.
Qed.

(** A proposal that is read is its record. *)
Lemma read_as_record hash n db p :
  GetProposalInfoByHash hash n db = Ok p ->
  GetSub (proposal_item hash) nil_key db <> 0 /\ (exists r, p = set_RecruitingSum r (record_at hash n db)) /\
  GetStatus p = GetStatus (record_at hash n db).
Proof.
  unfold GetProposalInfoByHash. fold (record_at hash n db). destruct (Z.eqb_spec (GetSub (proposal_item hash) nil_key db) 0); [done|].
  assert (forall r q, (Ok (set_RecruitingSum r (record_at hash n db)) : result error Proposal) = Ok q -> (exists r, q = set_RecruitingSum r (record_at hash n db)) /\
    GetStatus q = GetStatus (record_at hash n db)) as H by (intros r q [= <-]; by eauto).
  destruct (_ || _); [intros E; split; [done|by eapply H]|].
  destruct (_ =? _).
  { destruct (getRecruitingSum false db); [|done]. intros E. split; [done|by eapply H]. }
  destruct (_ =? _).
  { destruct (getRecruitingSum true db); [|done]. intros E. split; [done|by eapply H]. }
  intros E. split; [done|]. eapply (H 0). exact E.
Qed.

Lemma read_proposal_ok hash n db :
  GetSub (proposal_item hash) nil_key db <> 0 ->
  Type_ (record_at hash n db) <> ProposalTypeUserWitnessCampaign -> Type_ (record_at hash n db) <> ProposalTypeSysWitnessCampaign ->
  exists r, GetProposalInfoByHash hash n db = Ok (set_RecruitingSum r (record_at hash n db)).
Proof.
  intros N Nu Ns. unfold GetProposalInfoByHash. fold (record_at hash n db).
  destruct (Z.eqb_spec (GetSub (proposal_item hash) nil_key db) 0); [done|]. destruct (_ || _); [by eexists|].
  destruct (Z.eqb_spec (Type_ (record_at hash n db)) ProposalTypeUserWitnessCampaign); [done|].
  destruct (Z.eqb_spec (Type_ (record_at hash n db)) ProposalTypeSysWitnessCampaign); [done|]. by exists 0.
Qed.

(** ** Votes of the public *)

Definition vote_of (b : bool) : Z := if b then VotingResultAgree else VotingResultDisagree.

Lemma coin_positive from n coin : getCoin from n = Ok coin -> 0 < coin.
Proof.
  unfold getCoin. destruct (if _ =? _ then _ else _) as [c|er]; [|done]. cbn [result_bind].
  destruct (c <=? 0) eqn:L; intros [= <-]. apply Z.leb_gt in L. exact L.
Qed.

(** C23: A vote of the public counts once and with the voter's coins: it succeeds
    exactly while the proposal is being voted on, for a voter that has coins, has
    not voted on it and pays the gas; then one vote is added to the list, with the
    balance [getCoin] finds as its weight, and no slot outside the list changes.
    Otherwise nothing changes, for one of the reasons named. *)
Theorem handlePublicVote_spec e hash b db vs g :
  public_votes db hash vs -> valid_address (Caller e) -> member (Caller e) <> 0 -> is_u64 (Z.of_nat (length vs) + 1) ->
  (forall n coin, getCoin (Caller e) n = Ok coin -> is_word coin) ->
  let proposal := GetProposalInfoByHash hash (unit_number e) db in
  let voter := member (Caller e) in
  match handlePublicVote e hash b (db, g) with
  | (Ok _, (db', g')) =>
      exists p coin, proposal = Ok p /\ GetStatus p = ProposalStatusInVoting /\
        getCoin (Caller e) (NumberVote p) = Ok coin /\ 0 < coin /\ voter ∉ map fst vs /\ g' = g - 40100 /\
        public_votes db' hash (vs ++ [(voter, (coin, vote_of b, now e))]) /\
        keeps (off_item (getPublicVoteItem hash)) db db'
  | (Err _, (db', g')) =>
      db' = db /\
      (not_payable e = true \/ g < 40100 \/ (exists er, proposal = Err er) \/ voter ∈ map fst vs \/
       exists p, proposal = Ok p /\
         (GetStatus p <> ProposalStatusInVoting \/ exists er, getCoin (Caller e) (NumberVote p) = Err er))
  end.
Proof.
  intros V Va Na R W proposal voter. unfold handlePublicVote, addProposalPublicVote, SstoreLoadGas, SstoreSetGas, SloadGas.
  destruct (not_payable e); [cbn; by auto|]. pay; [split; [done|right; left; lia]|].
  rewrite bind_read. fold proposal. destruct proposal as [p|er] eqn:Ep; [|split; [done|naive_solver]].
  rewrite bind_lift. unfold validStatus. destruct (Z.eqb_spec (GetStatus p) ProposalStatusInVoting) as [Es|Es]; [|split; [done|naive_solver]].
  pay; [split; [done|right; left; lia]|].
  rewrite bind_lift. destruct (getCoin (Caller e) (NumberVote p)) as [coin|er] eqn:Ec; [|split; [done|naive_solver]].
  assert (0 < coin) as Hc by (by eapply coin_positive). pay; [split; [done|right; left; lia]|].
  destruct (Z.leb_spec coin 0); [lia|]. pay; [split; [done|right; left; lia]|].
  rewrite bind_gets, (isMayPublicVote_spec _ _ _ _ V Va).
  destruct (bool_decide_reflect (member (Caller e) ∉ map fst vs)) as [Nv|Nv];
    [|cbn [negb]; split; [done|do 3 right; left; by apply dec_stable]].
  cbn [negb]. pay; [split; [done|right; left; lia]|].
  destruct (addPublicVote_spec db hash vs (Caller e) coin (vote_of b) (now e)) as [H1 H2]; try done;
    [by eapply W|unfold vote_of; by destruct b|apply u64_range|].
  unfold on_state, puts. exists p, coin. split_and!; try done. lia.
Qed.

(** ** Proposals to change the configuration *)

Definition cast (vs : list (Hash * (Z * Z * Z))) : Z := weight (map to_vote vs).
Definition agreed (vs : list (Hash * (Z * Z * Z))) : Z :=
  weight (map to_vote (filter (fun v => snd (fst (snd v)) = VotingResultAgree) vs)).
(** More than two thirds of the coins that voted, and at least [min] whole ones. *)
Definition carried (min : Z) (vs : list (Hash * (Z * Z * Z))) : bool :=
  (0 <? agreed vs) && (min * Nts <=? agreed vs) && (cast vs / 3 * 2 <? agreed vs).

Lemma filter_votes vs :
  filter (fun v => pv_Op v = VotingResultAgree) (map to_vote vs) = map to_vote (filter (fun v => snd (fst (snd v)) = VotingResultAgree) vs).
Proof.
  induction vs as [|[x [[value op] time]] vs IH]; [done|]. cbn [map]. rewrite !filter_cons, IH. cbn.
  by destruct (decide (op = VotingResultAgree)).
Qed.

Definition min_key (typ : Z) : bytes := if typ =? ProposalTypeConfigChange then MinConfigPvoteAgreeKey else MinCouncilPvoteAgreeKey.

(** Every vote has some weight, as [addProposalPublicVote] sees to. *)
Definition weighty (vs : list (Hash * (Z * Z * Z))) : Prop := Forall (fun v => 0 < fst (fst (snd v))) vs.

Lemma weighty_sums vs : weighty vs -> 0 <= agreed vs <= cast vs.
Proof.
  unfold agreed, cast, weight. induction 1 as [|[x [[value op] time]] vs Hv _ IH]; [done|]. cbn in Hv.
  rewrite filter_cons. cbn [snd fst]. destruct (decide (op = VotingResultAgree)); cbn [map fold_right to_vote pv_Value]; lia.
Qed.

Lemma validProposalPass_spec p db vs min :
  public_votes db (Key p) vs -> weighty vs -> ReadConfig (min_key (Type_ p)) db = Ok min ->
  validProposalPass p db = Ok (carried min vs).
Proof.
  intros V Hw Em. pose proof (weighty_sums vs Hw) as Hs. unfold validProposalPass. rewrite (getPublicVoteList_spec _ _ _ V). cbn [fst].
  rewrite filter_votes. fold (cast vs) (agreed vs). unfold carried. destruct (Z.leb_spec (cast vs) 0) as [L|L].
  - by destruct (Z.ltb_spec 0 (agreed vs)); [lia|].
  - unfold checkMinVote. destruct (Z.leb_spec (agreed vs) 0) as [La|La].
    + by destruct (Z.ltb_spec 0 (agreed vs)); [lia|].
    + destruct (Z.ltb_spec 0 (agreed vs)); [|lia]. fold (min_key (Type_ p)). rewrite Em. cbn. by destruct (_ <=? _).
Qed.

Lemma write_settles p s db :
  storage_ok db -> 0 <= Type_ p < 256 -> 0 <= s < 256 ->
  let db' := writeProposalInfo (set_Status s p) db in
  storage_ok db' /\ stored_status (Key p) db' = s /\ keeps (off_item (proposal_item (Key p))) db db'.
Proof.
  intros O Ht Hs. pose proof (proposal_keeps (set_Status s p) db O) as K. pose proof (write_status (set_Status s p) db O Ht Hs) as [E _].
  split_and!; [apply K|exact E|exact K].
Qed.

(** C22: A proposal to change the configuration that awaits its judgement is
    settled by the tally of the public's votes: it passes exactly when the coins
    that agree are more than two thirds of those that voted and reach the
    configured minimum; then the proposed value is the configured one from now on,
    otherwise it is left as it was; no other slot of the contract changes outside
    the proposal's record. *)
Theorem config_change_settled e hash db g p vs min :
  (forall x, SafeHash256 x <> BytesToHash (ConfigKey p)) ->
  public_votes db hash vs -> weighty vs ->
  GetProposalInfoByHash hash (unit_number e) db = Ok p -> Type_ p = ProposalTypeConfigChange ->
  GetStatus p = ProposalStatusPendingJudge -> not_payable e = false ->
  ReadConfig MinConfigPvoteAgreeKey db = Ok min -> 100000 <= g ->
  let passed := carried min vs in
  exists db' g', SetConfigFinalize e hash (db, g) = (Ok tt, (db', g')) /\
    stored_status hash db' = (if passed then ProposalStatusPassed else ProposalStatusFailed) /\
    ReadConfig (ConfigKey p) db' =
      (if passed then if ConfigValue p =? 0 then Err ErrNoConfig else Ok (ConfigValue p) else ReadConfig (ConfigKey p) db) /\
    keeps (fun k => off_item (proposal_item hash) k /\ k <> BytesToHash (ConfigKey p)) db db'.
Proof.
  intros Fr V Hw Ep Et Es Np Em Hg passed. destruct (read_proposal _ _ _ _ Ep) as (Ek & _ & Hty & _).
  pose proof (b_ok _ _ _ (pv_ballot _ _ _ V)) as O. assert (is_u64 (ConfigValue p)) as Hv.
  { destruct (read_as_record _ _ _ _ Ep) as (_ & (r & ->) & _). apply u64_range. }
  unfold SetConfigFinalize, Finalize, finalizeConfig, finish, SstoreLoadGas, SstoreSetGas. rewrite Np.
  pay; [lia|]. rewrite bind_read, Ep. destruct (_ && _) eqn:Ex; [apply andb_true_iff in Ex as [_ Ex]; by rewrite Es in Ex|].
  rewrite bind_lift. unfold validStatus. rewrite Es. cbn [Type_ set_Finalize]. rewrite Et, !Z.eqb_refl.
  set (q := set_Finalize _ _ _). assert (Key q = hash) as Ekq by exact Ek. cbn iota beta.
  pay; [lia|]. rewrite bind_read, (validProposalPass_spec q db vs min); [|by rewrite Ekq|done|].
  2:{ unfold q. cbn [Type_ set_Finalize]. by rewrite Et. }
  assert (0 <= Type_ q < 256) as Htq by (unfold q; cbn [Type_ set_Finalize]; by rewrite Et).
  subst passed. destruct (carried min vs).
  - pay; [lia|]. rewrite bind_puts. pay; [lia|]. unfold on_state, puts, WriteConfig.
    set (db1 := save _ _ db). assert (storage_ok db1) as O1 by (by apply save_ok).
    destruct (write_settles q ProposalStatusPassed db1 O1 Htq) as (O2 & S2 & K2); [done|].
    rewrite Ekq in S2, K2. eexists _, _. split; [reflexivity|]. split_and!; [exact S2| |].
    + unfold ReadConfig. rewrite (k_load _ _ _ K2) by (intros z; symmetry; apply Fr). unfold db1. rewrite load_save by done.
      rewrite decide_True by done. unfold q. cbn [ConfigValue set_Finalize]. destruct (_ =? 0); [done|]. unfold Word.Uint64. by rewrite u64_small.
    + split; [done|]. intros k [H1 H2]. rewrite (k_load _ _ _ K2) by done. unfold db1. rewrite load_save by done. by rewrite decide_False.
  - pay; [lia|]. unfold on_state, puts.
    destruct (write_settles q ProposalStatusFailed db O Htq) as (O2 & S2 & K2); [done|]. rewrite Ekq in S2, K2.
    eexists _, _. split; [reflexivity|]. split_and!; [exact S2| |].
    + unfold ReadConfig. by rewrite (k_load _ _ _ K2) by (intros z; symmetry; apply Fr).
    + split; [done|]. intros k [H1 _]. by rewrite (k_load _ _ _ K2).
Qed.

(** ** The council's opinion *)

Definition opinions (op : Z) (vs : list (Hash * (Z * Z))) : Z :=
  Z.of_nat (length (filter (fun v => fst (snd v) = op) vs)).
(** Two thirds of the members, rounded up, open the vote of the public; two
    thirds, rounded down, end the proposal. *)
Definition verdict (vs : list (Hash * (Z * Z))) : option Z :=
  let count := Z.of_nat (length vs) in
  if opinions VotingResultAgree vs >=? count - count / 3 then Some ProposalStatusInVoting
  else if opinions VotingResultDisagree vs >=? count * 2 / 3 then Some ProposalStatusFailed
  else None.
(** The proposal after the verdict. *)
Definition judged (v : option Z) p : Proposal :=
  match v with
  | Some s =>
      if s =? ProposalStatusInVoting then
        set_Status s (set_Voting (u64 (NumberVote p + ConfigParamsTimeVoting))
                                 (u64 (TimeApply p + getNSByUnitCount ConfigParamsTimeApprove)) p)
      else set_Status s p
  | None => p
  end.

Lemma filter_opinions op vs : count_op op (map to_council_vote vs) = opinions op vs.
Proof.
  unfold count_op, opinions. f_equal. induction vs as [|[x [o t]] vs IH]; [done|]. cbn [map]. rewrite !filter_cons. cbn.
  destruct (decide (o = op)); cbn [length]; [by f_equal|done].
Qed.

Lemma ProposalIsVote_spec p db vs :
  council_votes db (Key p) vs -> vs <> [] ->
  ProposalIsVote p db =
    (Ok (judged (verdict vs) p), if verdict vs then writeProposalInfo (judged (verdict vs) p) db else db).
Proof.
  intros V N. unfold ProposalIsVote, bind, gets. rewrite (GetProposalCouncilVote_spec _ _ _ V). destruct vs as [|v vs]; [done|].
  unfold lift. rewrite !filter_opinions, length_map. unfold verdict. set (n := Z.of_nat (length (v :: vs))).
  destruct (_ >=? _); [done|]. by destruct (_ >=? _).
Qed.

Lemma fit_judged v p : fit p -> v = Some ProposalStatusInVoting \/ v = Some ProposalStatusFailed \/ v = None -> fit (judged v p).
Proof.
  intros [[? ? ? ? ? (? & ? & ?) (? & ? & ?)] E] Hv. split; [|by rewrite <- E at 2; destruct Hv as [-> |[-> | ->]]].
  destruct Hv as [-> |[-> | ->]]; split; try done; cbn -[ConfigParamsTimeVoting ConfigParamsTimeApprove]; by auto using u64_range.
Qed.
Lemma verdict_cases vs : verdict vs = Some ProposalStatusInVoting \/ verdict vs = Some ProposalStatusFailed \/ verdict vs = None.
Proof. unfold verdict. destruct (_ >=? _); [by auto|]. destruct (_ >=? _); by auto. Qed.

(** Votes are kept in states that agree on their slots, such as those that differ
    in the records of proposals. *)
Lemma council_votes_same db db' hash vs :
  storage_ok db' ->
  (forall z, load (SafeHash256 (getCouncilVoteItem hash ++ z)) db' = load (SafeHash256 (getCouncilVoteItem hash ++ z)) db) ->
  council_votes db hash vs -> council_votes db' hash vs.
Proof.
  intros O E [B F]. split; [by apply (ballot_keeps db)|]. intros x v Hx. rewrite <- (F x v Hx).
  unfold council_at, get64, field, GetSub, item_key, subKey, entry_item. rewrite <- !app_assoc. by rewrite !E.
Qed.
Lemma public_votes_same db db' hash vs :
  storage_ok db' ->
  (forall z, load (SafeHash256 (getPublicVoteItem hash ++ z)) db' = load (SafeHash256 (getPublicVoteItem hash ++ z)) db) ->
  public_votes db hash vs -> public_votes db' hash vs.
Proof.
  intros O E [B F]. split; [by apply (ballot_keeps db)|]. intros x v Hx. rewrite <- (F x v Hx).
  unfold public_at, get64, field, GetSub, item_key, subKey, entry_item. rewrite <- !app_assoc. by rewrite !E.
Qed.
Lemma council_votes_keeps db db' hash vs :
  keeps (off_item (proposal_item hash)) db db' -> council_votes db hash vs -> council_votes db' hash vs.
Proof.
  intros [O K]. apply council_votes_same; [done|]. intros z. apply K. intros z' Ez%SafeHash256_inj.
  unfold getCouncilVoteItem, proposal_item, getProposalItem in Ez. cbn [app] in Ez.
  injection Ez as Ez _. vm_compute in Ez. discriminate Ez.
Qed.

Lemma keeps_refund Q a n db : storage_ok db -> keeps Q db (refund a n db).
Proof.
  intros O. pose proof (SubBalance_ok SCAccount n db O) as O1. unfold refund, Transfer. split; [by apply AddBalance_ok|].
  intros k _. rewrite load_AddBalance by done. by apply load_SubBalance.
Qed.

(** Only a proposal to change the configuration is ever before the council. *)
Lemma judged_status v p :
  GetStatus p = ProposalStatusInApproval -> v = Some ProposalStatusInVoting \/ v = Some ProposalStatusFailed \/ v = None ->
  (GetStatus (judged v p) =? ProposalStatusFailed) = bool_decide (v = Some ProposalStatusFailed).
Proof.
  intros E [-> |[-> | ->]]; cbn [judged]; [|done|by rewrite E]. rewrite bool_decide_false by done.
  change (ProposalStatusInVoting =? ProposalStatusInVoting) with true. cbn iota.
  revert E. unfold GetStatus. cbn [p_Status Type_ set_Status set_Voting numberCurrent NumberVote NumberFinalize].
  destruct (_ || _) eqn:E1; [intros E; rewrite E in E1; done|]. clear E1.
  change (ProposalStatusInVoting =? ProposalStatusPassed) with false. change (ProposalStatusInVoting =? ProposalStatusFailed) with false.
  change (ProposalStatusInVoting =? ProposalStatusInVoting) with true.
  change (ProposalStatusInVoting =? ProposalStatusInApproval) with false. cbn [orb andb].
  destruct (needApproval (Type_ p)); cbn [negb].
  - destruct (_ || _); [by destruct (numberCurrent p <? _)|]. destruct (Type_ p =? ProposalTypeConfigChange); [|done]. intros _.
    destruct (numberCurrent p <? NumberVote p); [done|]. destruct (numberCurrent p <? _); [done|]. by destruct (_ >=? _).
  - intros _. destruct (numberCurrent p <? _); [done|]. by destruct (_ >=? _).
Qed.

(** A blank vote that the member may still fill in. *)
Definition asked (a : Address) (vs : list (Hash * (Z * Z))) db : Prop :=
  IsActiveCouncil a db = true /\ exists t, (member a, (VotingResultUnknown, t)) ∈ vs.

Lemma updateMember_spec p a b t db vs g :
  council_votes db (Key p) vs -> vs <> [] -> valid_address a -> is_u64 t ->
  match updateMemberProposalVote p a b t (db, g) with
  | (Ok p', (db', g')) =>
      let vs' := recast (member a) (vote_of b, t) vs in
      GetStatus p = ProposalStatusInApproval /\ asked a vs db /\ g' = g - 30050 /\ p' = judged (verdict vs') p /\
      exists db1, council_votes db1 (Key p) vs' /\ keeps (off_item (getCouncilVoteItem (Key p))) db db1 /\
        db' = if verdict vs' then writeProposalInfo p' db1 else db1
  | (Err _, (db', g')) => g < 30050 \/ db' = db /\ (GetStatus p <> ProposalStatusInApproval \/ ~ asked a vs db)
  end.
Proof.
  intros V N Va Ht. unfold updateMemberProposalVote, SstoreLoadGas, SstoreSetGas, SloadGas. rewrite bind_lift. unfold validStatus.
  destruct (Z.eqb_spec (GetStatus p) ProposalStatusInApproval) as [Es|Es]; [|by auto]. pay; [left; lia|].
  rewrite bind_gets. pose proof (isMayCouncilAudit_spec _ _ _ a V Va) as M. fold (asked a vs db) in M.
  destruct (isMayCouncilAudit (Key p) a db); cbn [negb]; [|right; split; [done|right; intros A; by apply M in A]].
  pay; [left; lia|]. rewrite bind_puts. pay; [left; lia|]. fold (vote_of b).
  destruct (updateCouncilVoteInfo_spec db (Key p) vs a (vote_of b) t V Va) as [V1 K1]; [by destruct b|done|].
  unfold on_state. rewrite (ProposalIsVote_spec _ _ _ V1) by (unfold recast; by destruct vs). split_and!; try done; [by apply M|lia|].
  eexists. split; [exact V1|]. by split.
Qed.

Lemma record_same hash n db db' :
  (forall z, load (SafeHash256 (proposal_item hash ++ z)) db' = load (SafeHash256 (proposal_item hash ++ z)) db) ->
  record_at hash n db' = record_at hash n db.
Proof. intros E. unfold record_at, get64, get_address, field, GetSub, item_key, subKey. by rewrite !E. Qed.

Lemma proposal_off_votes hash z : off_item (getCouncilVoteItem hash) (SafeHash256 (proposal_item hash ++ z)).
Proof.
  intros z' Ez%SafeHash256_inj. unfold getCouncilVoteItem, proposal_item, getProposalItem in Ez. cbn [app] in Ez.
  injection Ez as Ez _. vm_compute in Ez. discriminate Ez.
Qed.

(** Giving back a margin writes no slot. *)
Lemma margin_back p db g :
  storage_ok db ->
  exists db', (if (GetStatus p =? ProposalStatusFailed) && (p_Margin p >? 0)
               then on_state (puts (refund (Applicant p) (p_Margin p))) else ret tt) (db, g) = (Ok tt, (db', g)) /\
    keeps (fun _ => True) db db'.
Proof.
  intros O. destruct (_ && _); cbn; eexists; (split; [reflexivity|]); [by apply keeps_refund|by apply keepsQ_refl].
Qed.

(** A vote of a member of the council is taken exactly while the proposal is
    before the council, from a member in office that was asked and has not voted
    yet; it replaces the member's blank vote, and as soon as two thirds agree the
    vote of the public opens, as soon as two thirds disagree the proposal has
    failed and a margin goes back to the applicant; otherwise the record of the
    proposal stays as it was. *)
Theorem council_vote_decides e hash b db vs g :
  council_votes db hash vs -> vs <> [] -> valid_address (Caller e) ->
  (forall p, GetProposalInfoByHash hash (unit_number e) db = Ok p -> fit p) ->
  let proposal := GetProposalInfoByHash hash (unit_number e) db in
  let voter := member (Caller e) in
  match SetConfigApplyVote e hash b (db, g) with
  | (Ok _, (db', g')) =>
      let vs' := recast voter (vote_of b, now e) vs in
      exists p, proposal = Ok p /\ GetStatus p = ProposalStatusInApproval /\ asked (Caller e) vs db /\ g' = g - 60050 /\
        council_votes db' hash vs' /\
        (exists r, set_RecruitingSum r (record_at hash (unit_number e) db') = set_RecruitingSum r (judged (verdict vs') p)) /\
        keeps (fun k => off_item (getCouncilVoteItem hash) k /\ (verdict vs' <> None -> off_item (proposal_item hash) k)) db db'
  | (Err _, (db', g')) =>
      g < 60050 \/ db' = db /\
        (not_payable e = true \/ (exists er, proposal = Err er) \/
         exists p, proposal = Ok p /\ (GetStatus p <> ProposalStatusInApproval \/ ~ asked (Caller e) vs db))
  end.
Proof.
  intros V N Va Hf proposal voter. subst voter. unfold SetConfigApplyVote, SstoreLoadGas, SstoreSetGas.
  destruct (not_payable e); [cbn; by auto|]. pay; [left; lia|]. rewrite bind_read. fold proposal.
  destruct proposal as [p|er] eqn:Ep; [|right; split; [done|by eauto]]. destruct (read_proposal _ _ _ _ Ep) as (Ek & _ & _ & En).
  pay; [left; lia|]. unfold bind at 1. subst hash.
  pose proof (updateMember_spec p (Caller e) b (now e) db vs (g - 10000 - 20000) V N Va (u64_range _)) as U.
  destruct (updateMemberProposalVote p (Caller e) b (now e) _) as [[p'|er] [db' g']].
  2:{ destruct U as [U|[-> U]]; [left; lia|]. right. split; [done|]. right; right. by exists p. }
  destruct U as (Es & A & Eg & Ep' & db1 & V1 & K1 & Edb).
  set (vs' := recast (member (Caller e)) (vote_of b, now e) vs) in *. pose proof (verdict_cases vs') as Hv.
  assert (fit p') as Fp by (rewrite Ep'; by apply fit_judged, Hv; apply Hf).
  assert (Key p' = Key p) as Ek' by (rewrite Ep'; destruct Hv as [-> |[-> | ->]]; done).
  assert (set_current (unit_number e) p' = set_RecruitingSum 0 p') as Ec by (rewrite Ep', <- En; destruct Hv as [-> |[-> | ->]]; done).
  assert (keeps (off_item (proposal_item (Key p))) db1 db') as K2.
  { rewrite Edb. destruct (verdict vs'); [rewrite <- Ek'; apply proposal_keeps|apply keepsQ_refl]; apply K1. }
  destruct (margin_back p' db' g') as (db2 & -> & K3); [apply K2|].
  exists p. split_and!; try done; [lia|..].
  - eapply council_votes_keeps, V1. eapply keepsQ_trans; [exact K2|]. split; [apply K3|]. intros k _. by apply K3.
  - exists 0. rewrite <- Ep'. rewrite (record_same _ _ db') by (intros z; by apply K3). rewrite Edb. destruct (verdict vs') eqn:E.
    + by rewrite <- Ek', record_written, Ec by (done || apply K1).
    + destruct (read_as_record _ _ _ _ Ep) as (_ & (r & Er) & _). cbn [judged] in Ep'. subst p'. rewrite Er at 2.
      rewrite (record_same _ _ db); [done|]. intros z. apply K1, proposal_off_votes.
  - split; [apply K3|]. intros k [H1 H2]. rewrite (k_load _ _ _ K3) by done. rewrite Edb. destruct (verdict vs') eqn:E; [|by apply K1].
    rewrite (k_load _ _ _ (proposal_keeps p' db1 (k_ok _ _ _ K1))); [by apply K1|]. rewrite Ek'. by apply H2.
Qed.

End Record.
End Tally.


Import Db Store Sets Address Group Heart Witness Duty Members Frame Proposal Ballot Votes Quiet Sealed Tally.

Module Opening.

Section Opening.
Context {DB : Type} {ST : Storage DB} {SO : StorageOk DB ST} {C : ScCodec} {CO : ScCodecOk C}.
Context {EV : Events DB} {EO : EventsOk DB ST SO EV} {LG : Ledger DB} {LO : LedgerOk DB ST SO LG}.
Context {P : Params} {NM : Names} {SR : Sorting} {CH : ChainContext}.

Implicit Types (db : DB) (hash : Hash) (e : Env) (p : Proposal).

Definition blank_votes (l : list Address) : list (Hash * (Z * Z)) := map (fun a => (member a, (VotingResultUnknown, 0))) l.

Lemma blank_members l : map fst (blank_votes l) = map member l.
Proof. unfold blank_votes. by rewrite map_map. Qed.

(** Every member is asked, for a price. *)
Lemma open_votes_spec hash l db g vs :
  storage_ok db -> council_votes (writeCouncilVoteCount hash (Z.of_nat (length vs)) db) hash vs ->
  Forall (fun a => valid_address a /\ member a <> 0) l -> NoDup (map fst vs ++ map member l) ->
  is_u64 (Z.of_nat (length vs) + Z.of_nat (length l)) ->
  match open_votes hash (Z.of_nat (length vs)) l (db, g) with
  | (Ok n, (db', g')) =>
      n = Z.of_nat (length vs) + Z.of_nat (length l) /\ g' = g - 30000 * Z.of_nat (length l) /\
      council_votes (writeCouncilVoteCount hash n db') hash (vs ++ blank_votes l) /\
      keeps (off_item (getCouncilVoteItem hash)) db db'
  | (Err _, _) => g < 30000 * Z.of_nat (length l)
  end.
Proof.
  revert db g vs. induction l as [|a l IH]; intros db g vs O V F D R; cbn [open_votes].
  { cbn. rewrite Z.add_0_r, app_nil_r. split_and!; [done|lia|done|by apply keepsQ_refl]. }
  apply list.Forall_cons in F as [[Va Na] F]. cbn [map] in D. unfold SstoreLoadGas, SstoreSetGas.
  assert (member a ∉ map fst vs) as Nv.
  { apply list.NoDup_app in D as (_ & D & _). intros H. apply (D _ H). by left. }
  pay; [cbn [length]; lia|]. rewrite bind_puts.
  destruct (writeCouncilVoteInfo_spec db hash vs a VotingResultUnknown 0 O V Va Na Nv) as [V1 K1]; [cbn [length] in R; lia|done..|].
  set (db1 := writeCouncilVoteInfo _ _ _ _) in *. set (vs1 := vs ++ _) in *.
  assert (Z.of_nat (length vs) + 1 = Z.of_nat (length vs1)) as En by (unfold vs1; rewrite length_app; cbn; lia).
  rewrite En in *. cbn [length] in R |- *.
  specialize (IH db1 (g - (10000 + 20000)) vs1 (k_ok _ _ _ K1) V1 F).
  assert (NoDup (map fst vs1 ++ map member l)) as D1 by (unfold vs1; rewrite map_app, <- app_assoc; exact D).
  specialize (IH D1 ltac:(lia)). destruct (open_votes hash _ l _) as [[n|er] [db' g']]; [|lia].
  destruct IH as (-> & -> & V2 & K2). split_and!; [lia|lia| |by eapply keepsQ_trans].
  unfold vs1 in V2. by rewrite <- app_assoc in V2.
Qed.

(** A number is no hash. *)
Lemma uint_hash_value n h : is_u64 n -> uint n <> hash_value h.
Proof.
  intros Hn E. apply (f_equal (fun v => match v with Str b => length b | Lst _ => 0%nat end)) in E. unfold uint, hash_value in E.
  change (length (be_bytes (Z.to_nat ((Word.BitLen n + 7) / 8)) n) = length (be_bytes 32 h)) in E. rewrite !length_be_bytes in E.
  assert (0 <= Word.BitLen n <= 64) as Hb.
  { unfold Word.BitLen. destruct (Z.eqb_spec n 0); [lia|]. pose proof (Z.log2_nonneg n).
    assert (Z.log2 n < 64) by (apply Z.log2_lt_pow2; lia). lia. }
  assert ((Word.BitLen n + 7) / 8 < 9) by (apply Z.div_lt_upper_bound; lia). lia.
Qed.

(** The proposals in their order. *)
Lemma addProposal_spec p db :
  storage_ok db -> 0 <= getProposalCount db < 2 ^ 64 - 1 -> sized p ->
  let db' := addProposal p db in
  storage_ok db' /\ getProposalCount db' = getProposalCount db + 1 /\
  GetSub getProposalItem (uint (getProposalCount db + 1)) db' = Key p /\
  (forall n, record_at (Key p) n db' = set_current n (canonical p)) /\
  GetSub (proposal_item (Key p)) nil_key db' = getProposalCount db + 1 /\
  (forall z, (forall x, z <> getProposalItem ++ x) -> load (SafeHash256 z) db' = load (SafeHash256 z) db).
Proof.
  intros O Hc Fp. unfold addProposal. set (c := getProposalCount db) in *. rewrite u64_small by lia.
  set (db1 := SaveSub getProposalItem (uint (c + 1)) (VHash (Key p)) db). set (db2 := SaveSub getProposalItem nil_key (VUint (c + 1)) db1).
  set (db3 := SaveSub (proposal_item (Key p)) nil_key (VUint (c + 1)) db2).
  assert (storage_ok db1) as O1 by (by apply save_ok). assert (storage_ok db2) as O2 by (by apply save_ok).
  assert (storage_ok db3) as O3 by (by apply save_ok). pose proof (proposal_keeps p db3 O3) as K.
  assert (forall z, (forall x, z <> [hash_value (Key p)] ++ x) -> load (SafeHash256 (getProposalItem ++ z)) (writeProposalInfo p db3) = load (SafeHash256 (getProposalItem ++ z)) db3) as K1.
  { intros z N. apply K. intros x E%SafeHash256_inj. unfold proposal_item in E. rewrite <- app_assoc in E. apply app_inv_head in E. by apply (N x). }
  assert (forall k, item_key getProposalItem k <> item_key (proposal_item (Key p)) nil_key) as Nk.
  { intros k E%SafeHash256_inj. discriminate E. }
  assert (uint (c + 1) <> nil_key) as Nu by done.
  split_and!.
  - apply K.
  - unfold getProposalCount, GetSub, item_key, subKey. rewrite K1 by (intros x; discriminate). fold (subKey getProposalItem [nil_key]) (item_key getProposalItem nil_key).
    unfold db3. rewrite load_SaveSub, decide_False by done. unfold db2. rewrite load_SaveSub_same by done. cbn [value2hash].
    unfold uint2Hash. destruct (Z.eqb_spec (c + 1) 0); [lia|]. unfold Word.Uint64. by rewrite u64_small by lia.
  - unfold GetSub, item_key, subKey. rewrite K1 by (intros x E; cbn [app] in E; apply (uint_hash_value (c + 1) (Key p)); [lia|congruence]). fold (subKey getProposalItem [uint (c + 1)]) (item_key getProposalItem (uint (c + 1))).
    unfold db3. rewrite load_SaveSub, decide_False by done. unfold db2. rewrite load_SaveSub_ne by done. unfold db1. by rewrite load_SaveSub_same.
  - intros n. by apply record_written_sized.
  - rewrite proposal_listed by done. unfold GetSub, db3. by rewrite load_SaveSub_same.
  - intros z N. rewrite (k_load _ _ _ K).
    + unfold db3, db2, db1. rewrite !load_SaveSub by done.
      rewrite !decide_False; [done|intros E%SafeHash256_inj; eapply N; rewrite E; reflexivity..].
    + intros x E%SafeHash256_inj. apply (N ([hash_value (Key p)] ++ x)). exact E.
Qed.

(** Opening a proposal that the council must approve. *)
Lemma applyProposal_spec p db g cs :
  let id := Key p in
  let count := getProposalCount db in
  needApproval (Type_ p) = true -> holds getCouncilItem db cs -> Forall (fun x => 0 < x < 2 ^ 160) cs ->
  (forall z, load (SafeHash256 (getCouncilVoteItem id ++ z)) db = 0) -> 0 <= count < 2 ^ 64 - 1 -> sized p ->
  match applyProposal p (db, g) with
  | (Ok r, (db', g')) =>
      r = id /\ g' = g - 20000 - 30000 * Z.of_nat (length cs) /\ cs <> [] /\
      council_votes db' id (map (fun x => (x, (VotingResultUnknown, 0))) cs) /\
      (forall n, record_at id n db' = set_current n (canonical p)) /\
      getProposalCount db' = count + 1 /\ GetSub getProposalItem (uint (count + 1)) db' = id
  | (Err _, (db', g')) => g < 20000 + 30000 * Z.of_nat (length cs) \/ db' = db /\ cs = []
  end.
Proof.
  intros id count Ha H Fc Z0 Hc Fp. pose proof (h_ok _ _ _ H) as O. unfold applyProposal. rewrite Ha. fold id.
  unfold bind at 1. rewrite bind_gets. unfold GetCouncilList. rewrite (elements_spec _ _ _ H).
  assert (map member (map hash_address cs) = cs) as Em.
  { rewrite map_map. rewrite <- (map_id cs) at 2. apply map_ext_in. intros x Hx. apply list_elem_of_In in Hx.
    rewrite list.Forall_forall in Fc. apply member_hash_address. specialize (Fc _ Hx). lia. }
  pose proof (h_room _ _ _ H) as Hr. change 0 with (Z.of_nat (length (@nil (Hash * (Z * Z))))) at 1.
  assert (council_votes (writeCouncilVoteCount id (Z.of_nat (length (@nil (Hash * (Z * Z))))) db) id []) as V0.
  { split; [|intros x v Hx; by apply not_elem_of_nil in Hx]. unfold writeCouncilVoteCount. cbn [length]. split; cbn [map]; try done; try constructor.
    - by apply save_ok.
    - by rewrite load_SaveSub_same.
    - intros x Hx _. rewrite load_SaveSub, decide_False by (done || apart). unfold item_key, subKey, entry_item. rewrite <- app_assoc. apply Z0. }
  pose proof (open_votes_spec id (map hash_address cs) db g [] O V0) as S. rewrite Em, length_map in S.
  assert (Forall (fun a => valid_address a /\ member a <> 0) (map hash_address cs)) as Fv.
  { rewrite list.Forall_forall. rewrite list.Forall_forall in Fc. intros a (x & -> & Hx)%list_elem_of_fmap. specialize (Fc x Hx).
    split; [apply hash_address_valid; lia|]. rewrite member_hash_address by lia. lia. }
  specialize (S Fv (h_once _ _ _ H) ltac:(cbn [length]; lia)). unfold bind at 1.
  destruct (decide (cs = [])) as [->|Ncs]; [right; cbn; done|].
  destruct (open_votes id _ (map hash_address cs) (db, g)) as [[n|er] [db1 g1]]; [|left; lia].
  destruct S as (En & -> & V1 & K1). cbn [length] in En. assert (0 < length cs)%nat by (by destruct cs; cbn; [|lia]).
  destruct (Z.eqb_spec n 0); [lia|]. unfold on_state at 1, puts at 1. set (db2 := writeCouncilVoteCount id n db1) in *.
  assert (storage_ok db2) as O2 by apply V1. unfold SstoreSetGas. pay; [left; lia|].
  assert (getProposalCount db2 = count) as Ec.
  { unfold getProposalCount, GetSub, db2, writeCouncilVoteCount. rewrite load_SaveSub, decide_False by (apply K1 || (intros E%SafeHash256_inj; discriminate E)).
    rewrite (k_load _ _ _ K1); [done|]. intros z E%SafeHash256_inj.
    unfold getCouncilVoteItem, getProposalItem in E. cbn [app] in E. injection E as E _. vm_compute in E. discriminate E. }
  rewrite bind_puts. destruct (addProposal_spec p db2 O2) as (O3 & Ec3 & El & Er & _ & K3); [by rewrite Ec|done|]. rewrite Ec in *.
  cbn [fst snd ret]. split_and!; try done; [lia|].
  eapply (council_votes_same db2); [done| |].
  - intros z. apply K3. intros x E. unfold getCouncilVoteItem, getProposalItem in E. cbn [app] in E. injection E as E _. vm_compute in E. discriminate E.
  - unfold blank_votes in V1. rewrite map_map in V1. cbn [app] in V1. erewrite map_ext_in; [exact V1|]. intros x Hx.
    apply list_elem_of_In in Hx. rewrite list.Forall_forall in Fc. specialize (Fc _ Hx).
    by rewrite member_hash_address by lia.
Qed.

(** The proposal that [SetConfigApply] opens. *)
Definition opened e (id : Hash) (cfgKey : bytes) (cfgValue : Z) : Proposal :=
  mkProposal id ProposalTypeConfigChange 0 cfgKey cfgValue (Caller e) zeroAddress (now e) 0 0
    ProposalStatusInApproval (unit_number e) 0 (u64 (unit_number e + ConfigParamsTimeApprove)) 0 0.

(** Who may propose a change of the configuration, and what opens with it: the
    call succeeds exactly for a key that may be changed, a value that differs from
    the present one and is within its bounds, no such proposal being underway, a
    council that is not empty and gas enough for its size; then the proposal is the
    next one on the list, with its record before the council until fifteen days
    have passed, and with one blank vote for every member of the council; a refusal
    for another reason than gas changes nothing. *)
Theorem SetConfigApply_spec e cfgKey cfgValue db g cs :
  let id := getProposalId db in
  let count := getProposalCount db in
  holds getCouncilItem db cs -> Forall (fun x => 0 < x < 2 ^ 160) cs ->
  (forall z, load (SafeHash256 (getCouncilVoteItem id ++ z)) db = 0) -> 0 <= count < 2 ^ 64 - 1 ->
  trim_zeros (hash_bytes (BytesToHash cfgKey)) = cfgKey -> is_u64 cfgValue ->
  match SetConfigApply e cfgKey cfgValue (db, g) with
  | (Ok r, (db', g')) =>
      r = id /\ g' = g - 60000 - 30000 * Z.of_nat (length cs) /\ not_payable e = false /\ CanChange e cfgKey = true /\
      (exists curr, ReadConfig cfgKey db = Ok curr /\ curr <> cfgValue) /\ check_config e cfgKey cfgValue db = Ok tt /\
      ProposalIsCreate ProposalTypeConfigChange (unit_number e) db = Ok tt /\ cs <> [] /\
      council_votes db' id (map (fun x => (x, (VotingResultUnknown, 0))) cs) /\
      (forall n, record_at id n db' = set_current n (canonical (opened e id cfgKey cfgValue))) /\
      getProposalCount db' = count + 1 /\ GetSub getProposalItem (uint (count + 1)) db' = id
  | (Err _, (db', g')) =>
      g < 60000 + 30000 * Z.of_nat (length cs) \/ db' = db /\
        (not_payable e = true \/ CanChange e cfgKey = false \/ (exists er, ReadConfig cfgKey db = Err er) \/
         ReadConfig cfgKey db = Ok cfgValue \/ (exists er, check_config e cfgKey cfgValue db = Err er) \/
         (exists er, ProposalIsCreate ProposalTypeConfigChange (unit_number e) db = Err er) \/ cs = [])
  end.
Proof.
  intros id count H Fc Z0 Hcount Hk Hv. pose proof (h_ok _ _ _ H) as O. unfold SetConfigApply, SstoreLoadGas, SstoreSetGas.
  destruct (not_payable e); [cbn; by auto|]. destruct (CanChange e cfgKey); cbn [negb]; [|cbn; by auto].
  pay; [left; lia|]. rewrite bind_read. destruct (ReadConfig cfgKey db) as [curr|er]; [|by eauto 8].
  destruct (Z.eqb_spec curr cfgValue) as [->|Nc]; [cbn; by auto 7|]. rewrite bind_read.
  destruct (check_config e cfgKey cfgValue db) as [[]|er]; [|by eauto 9]. pay; [left; lia|]. rewrite bind_read.
  destruct (ProposalIsCreate _ _ db) as [[]|er]; [|by eauto 10]. pay; [left; lia|]. rewrite bind_gets. fold id.
  fold (opened e id cfgKey cfgValue). set (p := opened e id cfgKey cfgValue).
  assert (sized p) as Sp.
  { split; cbn -[ConfigParamsTimeApprove u64]; try done; split_and!; try done; apply u64_range. }
  pose proof (applyProposal_spec p db (g - 10000 * 2 - 10000 - 10000) cs eq_refl H Fc Z0 Hcount Sp) as A.
  destruct (applyProposal p _) as [[r|er] [db' g']].
  - destruct A as (-> & -> & Ncs & V & Er & Ec & El). split_and!; try done; [lia|by exists curr].
  - destruct A as [A|[-> A]]; [left; lia|]. right. split; [done|]. by auto 10.
Qed.

End Opening.
End Opening.
