(* ===== verification/ScCampaign.v ===== *)
(** How a campaign for witnesses ends: who is selected, who is hired and what is
    paid back. *)
From stdpp Require Import gmap list.
From S2P Require Import Prelude Bech32 Address EvmWord EvmState StateDb GoSort ScStore ScSets ScGroup ScHeart ScWitness ScDuty ScMembers ScFrame ScRegistry ScProposal ScVotes ScSealed ScTally.

Import Db Store Sets Address Group Heart Witness Duty Members Frame Registry Proposal Ballot Quiet Sealed Tally.

Module Campaigns.

(** What the machine's ledger promises of balances. *)
Class LedgerMoney (DB : Type) (ST : Storage DB) (EV : Events DB) (LG : Ledger DB) := {
  GetBalance_Add a n db b : GetBalance b (AddBalance a n db) = GetBalance b db + (if decide (b = a) then n else 0);
  GetBalance_Sub a n db b : GetBalance b (SubBalance a n db) = GetBalance b db - (if decide (b = a) then n else 0);
  GetBalance_save k v db b : GetBalance b (save k v db) = GetBalance b db;
  GetBalance_log t d db b : GetBalance b (AddLog t d db) = GetBalance b db;
  GetBalance_big k v db b : GetBalance b (SetBigData k v db) = GetBalance b db
}.

(** ** Who is selected *)

Section Select.
Context {SR : Sorting} {SRO : SortingOk SR}.

Lemma exchange_Permutation fuel i d l : exchange fuel i d l ≡ₚ l.
Proof.
  revert i l. induction fuel as [|fuel IH]; intros i l; cbn [exchange]; [done|].
  destruct (l !! i) as [x|] eqn:Ei; [|done]. destruct (l !! (i + d)%nat) as [y|] eqn:Ej; [|done].
  rewrite IH. pose proof (GoSort.Swap_Permutation (i + d) i l) as H. unfold GoSort.Swap in H. by rewrite Ei, Ej in H.
Qed.

Lemma margin_time_weak : weak_order margin_time_less.
Proof.
  unfold weak_order, margin_time_less. split_and!.
  - intros x. rewrite Z.eqb_refl. apply Z.ltb_irrefl.
  - intros x y z. repeat case_match; lia.
  - intros x y z. repeat case_match; lia.
Qed.

(** The campaign is won by the [maxSelect] best bids, and by all when there are
    fewer: nobody who loses bid more than a winner, or the same and earlier. *)
Lemma Select_spec number maxSelect c winner loser :
  0 <= maxSelect -> Select number maxSelect c = (winner, loser) ->
  winner ++ loser ≡ₚ c /\ Z.of_nat (length winner) = Z.min maxSelect (Z.of_nat (length c)) /\
  forall w l, w ∈ winner -> l ∈ loser -> margin_time_less l w = false.
Proof.
  intros Hm. unfold Select. destruct (Z.eqb_spec maxSelect 0) as [->|N].
  { intros [= <- <-]. split_and!; [done|cbn; lia|]. intros w l Hw. by apply not_elem_of_nil in Hw. }
  set (s := CampaignList_Sort true c). assert (s ≡ₚ c) as Ps by apply Sort_Permutation.
  assert (Sorted.StronglySorted (fun x y => margin_time_less y x = false) s) as Ss by (apply Sort_sorted, margin_time_weak).
  set (cut := if _ <? _ then _ else _). destruct cut as [w0 l0] eqn:Ecut.
  assert (w0 ++ l0 = s /\ Z.of_nat (length w0) = Z.min maxSelect (Z.of_nat (length c))) as [Es El].
  { unfold cut in Ecut. destruct (Z.ltb_spec maxSelect (Z.of_nat (length s))) as [L|L]; injection Ecut as <- <-; rewrite <- Ps.
    - split; [apply take_drop|]. rewrite length_take. lia.
    - split; [apply app_nil_r|lia]. }
  assert (forall w l, w ∈ w0 -> l ∈ l0 -> margin_time_less l w = false) as Hb.
  { rewrite <- Es in Ss. clear -Ss. induction w0 as [|x w0 IH]; intros w l Hw Hl; [by apply not_elem_of_nil in Hw|].
    cbn in Ss. apply Sorted.StronglySorted_inv in Ss as [S1 F]. apply elem_of_cons in Hw as [->|Hw]; [|by apply IH].
    rewrite list.Forall_forall in F. apply F, elem_of_app. by right. }
  clear cut Ecut. destruct (_ <=? 2)%nat; [intros [= <- <-]; rewrite Es; by split_and!|]. intros [= <- <-].
  set (w1 := GoSort.SliceStable _ w0).
  assert (exchange (length w1) 0 (Z.to_nat (if number mod Z.of_nat (length w1) <=? 11 then 11 else number mod Z.of_nat (length w1))) w1 ≡ₚ w0) as Pw.
  { rewrite exchange_Permutation. apply GoSort.SliceStable_Permutation. }
  split_and!.
  - by rewrite Pw, Es.
  - by rewrite Pw.
  - intros w l Hw Hl. apply Hb; [|done]. by rewrite <- Pw.
Qed.
End Select.

(** ** Who is hired and who is paid *)

Section Settle.
Context {DB : Type} {ST : Storage DB} {SO : StorageOk DB ST} {C : ScCodec} {CO : ScCodecOk C}.
Context {EV : Events DB} {EO : EventsOk DB ST SO EV} {LG : Ledger DB} {LO : LedgerOk DB ST SO LG} {LM : LedgerMoney DB ST EV LG}.
Context {P : Params} {NM : Names} {SR : Sorting} {SRO : SortingOk SR}.
Hypothesis count_key_fresh : forall x, SafeHash256 x <> PrefixWitnessGroupCount.

Implicit Types (db : DB) (e : Env) (a : Address) (l : list Campaign) (gs : list (list Hash)) (all : list Hash).

#[local] Instance money_closed : Closed (fun db db' => forall a, GetBalance a db' = GetBalance a db).
Proof.
  split; [done|congruence|intros; by apply GetBalance_save|intros; by apply GetBalance_log|intros; by apply GetBalance_big].
Qed.

Definition total l : Z := fold_right Z.add 0 (map c_Margin l).
(** What is due to an account. *)
Definition due a l : Z := total (filter (fun c => c_Address c = a) l).
(** The bids have been paid out of the contract's account. *)
Definition paid l db db' : Prop :=
  forall a, GetBalance a db' = GetBalance a db + due a l - (if decide (a = SCAccount) then total l else 0).

Lemma total_app l1 l2 : total (l1 ++ l2) = total l1 + total l2.
Proof. unfold total. induction l1 as [|c l1 IH]; cbn; [done|]. cbn in IH. lia. Qed.
Lemma paid_trans l1 l2 db1 db2 db3 : paid l1 db1 db2 -> paid l2 db2 db3 -> paid (l1 ++ l2) db1 db3.
Proof.
  intros H1 H2 a. rewrite H2, H1. unfold due. rewrite list.filter_app, !total_app. destruct (decide _); lia.
Qed.
Lemma paid_nil db db' : (forall a, GetBalance a db' = GetBalance a db) -> paid [] db db'.
Proof. intros H a. rewrite H. unfold due. cbn. destruct (decide _); lia. Qed.
Lemma paid_one c db : paid [c] db (refund (c_Address c) (c_Margin c) db).
Proof.
  intros a. unfold refund, Transfer. rewrite GetBalance_Add, GetBalance_Sub. unfold due. rewrite filter_cons, filter_nil.
  destruct (decide (c_Address c = a)) as [<-|N]; [rewrite (decide_True (P := c_Address c = c_Address c)) by done|rewrite (decide_False (P := a = c_Address c)) by congruence];
    cbn; destruct (decide _); lia.
Qed.
Lemma paid_all l db : paid l db (refund_all l db).
Proof.
  revert db. induction l as [|c l IH]; intros db; [by apply paid_nil|]. cbn [refund_all].
  apply (paid_trans [c] l _ (refund (c_Address c) (c_Margin c) db)); [apply paid_one|apply IH].
Qed.
Lemma paid_perm l1 l2 db db' : l1 ≡ₚ l2 -> paid l1 db db' -> paid l2 db db'.
Proof.
  intros Pm H a. rewrite (H a). unfold due.
  assert (forall k1 k2, k1 ≡ₚ k2 -> total k1 = total k2) as E by (unfold total; induction 1; cbn in *; lia).
  rewrite (E _ _ Pm), (E _ _ (filter_Permutation _ _ _ Pm)). lia.
Qed.

Lemma refund_all_keeps l db : storage_ok db -> keeps (fun _ => True) db (refund_all l db).
Proof.
  revert db. induction l as [|c l IH]; intros db O; cbn [refund_all]; [by apply keepsQ_refl|].
  eapply keepsQ_trans; [by apply keeps_refund|]. by apply IH, refund_ok.
Qed.

Lemma CheckMemberType_error a db er : CheckMemberType a db = Err er -> er <> ErrPanic /\ er <> NoFuel.
Proof. unfold CheckMemberType. repeat case_match; naive_solver. Qed.

Definition members l : list Hash := map (fun c => member (c_Address c)) l.

(** How the loop over the winners ends. *)
Definition recruited db gs all l (out : result error bool * DB) (failed : bool) : Prop :=
  exists hired refused db' gs',
    out = (Ok (failed || negb (bool_decide (refused = []))), db') /\ hired ++ refused ≡ₚ l /\
    registry db' gs' (all ++ members hired) /\ concat gs' ≡ₚ members hired ++ concat gs /\ paid refused db db'.

Lemma recruit_user_spec e l db gs all failed :
  registry db gs all -> Forall (fun c => valid_address (c_Address c)) l ->
  Z.of_nat (length gs) + Z.of_nat (length l) < 2 ^ 64 -> Z.of_nat (length all) + Z.of_nat (length l) < 2 ^ 64 ->
  recruited db gs all l (recruit_user e failed l db) failed.
Proof.
  revert db gs all failed. induction l as [|c l IH]; intros db gs all failed R F Hg Ha; cbn [recruit_user].
  { exists [], [], db, gs. cbn. rewrite orb_false_r, app_nil_r. split_and!; [done..|by apply paid_nil]. }
  apply list.Forall_cons in F as [Fc F]. cbn [length] in Hg, Ha.
  pose proof (applyWitness_lemma count_key_fresh db gs all (c_Address c) (c_Margin c) (unit_number e) (c_PublicKey c) false R Fc
    ltac:(lia) ltac:(lia)) as A.
  pose proof (calm_applyWitness _ (c_Address c) (c_Margin c) (unit_number e) (c_PublicKey c) false db : forall a, _) as Bal.
  unfold bind at 1, try. destruct (applyWitness _ _ _ _ _ db) as [[[]|er] db1]; cbn [snd] in Bal.
  - destruct A as (_ & _ & _ & gs1 & R1 & (Pm & Lg) & _).
    destruct (IH db1 gs1 (all ++ [member (c_Address c)]) failed R1 F) as (hired & refused & db' & gs' & E & Ph & R' & Pc & Pd).
    { lia. } { rewrite length_app. cbn. lia. }
    exists (c :: hired), refused, db', gs'. rewrite E. split_and!; [done|by rewrite <- Ph|by rewrite <- app_assoc in R'| |].
    + rewrite Pc, Pm. cbn. by rewrite Permutation_middle.
    + apply (paid_trans [] refused _ db1); [by apply paid_nil|done].
  - destruct A as (-> & A). assert (er <> ErrPanic /\ er <> NoFuel) as [N1 N2].
    { destruct A as [[_ ->]|[A|(A & _)]]; [done|by eapply CheckMemberType_error|done]. }
    assert (storage_ok db) as O by apply (rg_groups _ _ _ R).
    destruct (IH (refund (c_Address c) (c_Margin c) db) gs all true) as (hired & refused & db' & gs' & E & Ph & R' & Pc & Pd); [|done|lia..|].
    { by apply (registry_keeps db), R; apply keeps_refund. }
    exists hired, (c :: refused), db', gs'. split_and!; [|by rewrite <- Permutation_middle, Ph|done|done|].
    + destruct er; try done; cbn; unfold bind, puts; rewrite E; by rewrite orb_true_r.
    + apply (paid_trans [c] refused _ (refund (c_Address c) (c_Margin c) db)); [apply paid_one|done].
Qed.

(** C19: The settlement of a campaign loses no candidate and no coin: the best bids
    win, as many as are wanted; every winner is either hired, with a record and a
    place in a group, or refused; whoever loses or is refused gets exactly
    the margin back out of the contract's account, the margins of those that are
    hired stay there, and no other balance moves.  The register of witnesses stays
    in agreement, and the proposal has failed exactly when nobody won or somebody
    was refused. *)
Theorem settle_campaign_spec e need l db gs all :
  registry db gs all -> Forall (fun c => valid_address (c_Address c)) l -> 0 <= need ->
  Z.of_nat (length gs) + Z.of_nat (length l) < 2 ^ 64 -> Z.of_nat (length all) + Z.of_nat (length l) < 2 ^ 64 ->
  exists hired refused loser db' gs',
    settle_campaign e need l db =
      (Ok (bool_decide (hired ++ refused = []) || negb (bool_decide (refused = []))), db') /\
    hired ++ refused ++ loser ≡ₚ l /\
    Z.of_nat (length (hired ++ refused)) = Z.min need (Z.of_nat (length l)) /\
    (forall w x, w ∈ hired ++ refused -> x ∈ loser -> margin_time_less x w = false) /\
    registry db' gs' (all ++ members hired) /\ concat gs' ≡ₚ members hired ++ concat gs /\
    paid (refused ++ loser) db db'.
Proof.
  intros R F Hn Hg Ha. unfold settle_campaign. destruct (Select _ _ _) as [winner loser] eqn:Es.
  destruct (Select_spec _ _ _ _ _ Hn Es) as (Pm & Ln & Best). set (db1 := refund_all loser db).
  assert (storage_ok db) as O by apply (rg_groups _ _ _ R).
  assert (Forall (fun c => valid_address (c_Address c)) winner) as Fw by (rewrite <- Pm in F; by apply list.Forall_app in F as [F _]).
  assert (length winner <= length l)%nat as Lw by (rewrite <- Pm, length_app; lia).
  destruct (recruit_user_spec e winner db1 gs all (length winner =? 0)%nat) as (hired & refused & db' & gs' & E & Ph & R' & Pc & Pd);
    [by apply (registry_keeps db), R; apply refund_all_keeps|done|lia..|].
  exists hired, refused, loser, db', gs'. split_and!.
  - unfold bind at 1, puts. fold db1. rewrite E. do 3 f_equal. rewrite <- (Permutation_length Ph). by destruct (hired ++ refused).
  - by rewrite app_assoc, Ph.
  - by rewrite Ph.
  - intros w x Hw. apply Best. by rewrite <- Ph.
  - exact R'.
  - exact Pc.
  - apply (paid_perm (loser ++ refused)); [apply Permutation_app_comm|]. apply (paid_trans _ _ _ db1); [apply paid_all|exact Pd].
Qed.

End Settle.
End Campaigns.
