(* ===== verification/ScSettle.v ===== *)
(** The fees of witnesses: what a unit earns its proposer, when it is written
    down and when it is paid out ([src/core/sc/settle.go], [settle_calc.go]). *)
From stdpp Require Import gmap list.
From S2P Require Import Prelude Bech32 Address EvmWord EvmState StateDb GoSort ScStore ScGroup ScHeart ScWitness ScDuty.

Import Db Store Address Group Heart Witness Duty.

Module Settle.

(** ** Data *)

(** [types.WitnessPeriodWorkInfo] *)
Record WorkInfo := mkWork {
  IsSys : bool; Votes : Z; CreateUnits : Z; VotedTxs : Z; ShouldVote : Z; Fee : Z; VotedLastUnit : Hash
}.

(** What package [rlp] makes of a report; it does not encode negative numbers. *)
Class WorkCodec := { EncodeWork : WorkInfo -> option bytes; DecodeWork : bytes -> option WorkInfo }.
Definition storable (i : WorkInfo) : Prop :=
  is_u64 (Votes i) /\ is_u64 (CreateUnits i) /\ is_u64 (VotedTxs i) /\ is_u64 (ShouldVote i) /\ 0 <= Fee i /\ 0 <= VotedLastUnit i < 2 ^ 256.
Class WorkCodecOk (WC : WorkCodec) := {
  Encode_negative i : Fee i < 0 -> EncodeWork i = None;
  Decode_Encode i : storable i -> exists d, EncodeWork i = Some d /\ d <> [] /\ DecodeWork d = Some i
}.

(** The database of a node. *)
Definition kv : Type := gmap bytes bytes.
Definition Get (key : bytes) (work : kv) : bytes := default [] (work !! key).
Definition Put (key value : bytes) (work : kv) : kv := <[key := value]> work.
Definition Delete (key : bytes) (work : kv) : kv := delete key work.

(** What of a unit the fees depend on. *)
Record TxExec := mkExec { tx_idle : bool; tx_Hash : Hash; tx_GasPrice : option Z }.
Record Unit := mkUnit {
  MC : Address; SCNumber : Z; u_Hash : Hash; Number : Z; SCHash : Hash; Timestamp : Z; Proposer : Address;
  Transactions : list TxExec; voters : result error (list Address)
}.
Definition TxCount (u : Unit) : Z := Z.of_nat (length (Transactions u)).

(** The chains as the service sees them ([DagChain] and package [rawdb]). *)
Class Chains := {
  GetChainWitnessLib : Address -> Hash -> result error (list Address);
  GetTransaction : Hash -> option Z;
  GetUnit : Hash -> option Unit;
  GetUnitReceipts : Address -> Hash -> Z -> option (list Z)
}.

(** ** Keys *)

Definition encodeUint64 (n : Z) : bytes := be_bytes 8 n.
Definition periodSettlemtPrefix : bytes := str "period_sett_l_".
Definition workFeeFromPrefix : bytes := str "s_p".
Definition settleUpdateTODOPrefix : bytes := str "SETTLE_TODO_".

Definition getSettlementPeriodLogKey (period : Z) (witness : Address) : bytes :=
  periodSettlemtPrefix ++ encodeUint64 period ++ hash witness.
Definition getSettleTODOKey (utime : Z) (uhash : Hash) : bytes :=
  settleUpdateTODOPrefix ++ encodeUint64 utime ++ hash_bytes uhash.

(** ** Periods *)

Definition withdrawJD : Z := 2.
Definition MaxSettlementPeriod : Z := 8.

Definition checkSettlementPeriod (nextPeriod nowPeriod : Z) : Z :=
  if Word.ForceSafeSub nowPeriod nextPeriod >? MaxSettlementPeriod
  then Word.ForceSafeSub nowPeriod MaxSettlementPeriod else nextPeriod.

Definition GetPeriodRange (period : Z) : Z * Z :=
  let base := ConfigParamsBillingPeriod * u64 (period - 1) in
  (u64 (base + 1), u64 (ConfigParamsBillingPeriod * period)).

Section Reports.
Context {WC : WorkCodec} {CS : Chains} {P : Params} {NM : Names}.
Open Scope result_scope.

Implicit Types (work : kv) (period : Z) (w : Address) (u : Unit).

(** ** Reports *)

Definition GetWitnessPeriodWorkReport work period w : result error (option WorkInfo) :=
  let data := Get (getSettlementPeriodLogKey period w) work in
  if bool_decide (data = []) then Ok None
  else match DecodeWork data with Some info => Ok (Some info) | None => Err ErrPanic end.

Definition updateWitnessWorkReport (key : bytes) (info : WorkInfo) : result error (kv -> kv) :=
  match EncodeWork info with Some data => Ok (Put key data) | None => Err ErrPanic end.

(** Every report of a period, by the account in the key. *)
Definition GetWitnessPeriodWorkReports work period : result error (gmap Address WorkInfo) :=
  let keyPrefix := periodSettlemtPrefix ++ encodeUint64 period in
  fold_left
    (fun reports kv =>
       let? reports := reports in
       if bool_decide (take (length keyPrefix) (fst kv) = keyPrefix) then
         match DecodeWork (snd kv) with
         | Some info => Ok (<[BytesToAddress (drop (length keyPrefix) (fst kv)) := info]> reports)
         | None => Err ErrPanic
         end
       else Ok reports)
    (map_to_list work) (Ok ∅).

Definition getPeriodWorkFee w (fromPeriod : Z) work : result error Z :=
  let? info := GetWitnessPeriodWorkReport work fromPeriod w in
  Ok (match info with Some i => Fee i | None => 0 end).

(** ** Writing down *)

Definition Write u work : kv :=
  if bool_decide (hash (Proposer u) = hash PublicPrivateKeyAddr) then work else Put (getSettleTODOKey (Timestamp u) (u_Hash u)) [] work.

Fixpoint calc_fees (txs : list TxExec) (receipts : list Z) (total : Z) : result error Z :=
  match txs, receipts with
  | [], _ => Ok total
  | _ :: _, [] => Err ErrPanic
  | tx :: txs, gasUsed :: receipts =>
      if gasUsed =? 0 then calc_fees txs receipts total
      else if tx_idle tx then calc_fees txs receipts total
      else
        match (match tx_GasPrice tx with Some p => Some p | None => GetTransaction (tx_Hash tx) end) with
        | None => Err ErrPanic
        | Some gasPrice =>
            if gasPrice =? 0 then calc_fees txs receipts total
            else calc_fees txs receipts (total + gasUsed * gasPrice)
        end
  end.
Definition calcUnitFee u (receipts : option (list Z)) : result error Z :=
  match (match receipts with Some r => Some r | None => GetUnitReceipts (MC u) (u_Hash u) (Number u) end) with
  | None => Err ErrPanic
  | Some receipts => calc_fees (Transactions u) receipts 0
  end.

Definition voted u (info : WorkInfo) : WorkInfo :=
  mkWork (IsSys info) (u64 (Votes info + 1)) (CreateUnits info) (u64 (VotedTxs info + TxCount u)) (ShouldVote info) (Fee info) (u_Hash u).
Definition proposed u (workFee : Z) (info : WorkInfo) : WorkInfo :=
  mkWork (IsSys info) (u64 (Votes info + 1)) (u64 (CreateUnits info + 1)) (u64 (VotedTxs info + TxCount u)) (ShouldVote info)
    (Fee info + workFee) (u_Hash u).
Definition should_vote (info : WorkInfo) : WorkInfo :=
  mkWork (IsSys info) (Votes info) (CreateUnits info) (VotedTxs info) (u64 (ShouldVote info + 1)) (Fee info) (VotedLastUnit info).

(** The puts of the batch, in their order; reading sees none of them. *)
Fixpoint work_puts u (signers : list Address) (workFee period : Z) work (chainWitness : list Address) : result error (kv -> kv) :=
  match chainWitness with
  | [] => Ok (fun work => work)
  | w :: chainWitness =>
      let? found := GetWitnessPeriodWorkReport work period w in
      let info := should_vote (default (mkWork (bool_decide (MC u = SCAccount)) 0 0 0 0 0 0) found) in
      let put info :=
        let? p := updateWitnessWorkReport (getSettlementPeriodLogKey period w) info in
        let? rest := work_puts u signers workFee period work chainWitness in
        Ok (fun work => rest (p work)) in
      if bool_decide (w = Proposer u) then
        if VotedLastUnit info =? u_Hash u then Ok (fun work => work) else put (proposed u workFee info)
      else put (if bool_decide (w ∈ signers) then voted u info else info)
  end.

Definition writeWorkFee u (chainWitness : list Address) (workFee : Z) work : result error kv :=
  if bool_decide (hash (Proposer u) = hash PublicPrivateKeyAddr) then Ok work
  else
    match voters u with
    | Err _ => Err ErrPanic
    | Ok signers =>
        let? puts := work_puts u signers workFee (GetSettlePeriod (SCNumber u)) work chainWitness in
        Ok (Delete (getSettleTODOKey (Timestamp u) (u_Hash u)) (puts work))
    end.

(** The errors are logged and dropped; a panic is not. *)
Definition process u (receipts : option (list Z)) work : result error kv :=
  match GetChainWitnessLib (MC u) (SCHash u) with
  | Err ErrPanic => Err ErrPanic
  | Err _ => Ok work
  | Ok lib => let? fee := calcUnitFee u receipts in writeWorkFee u lib fee work
  end.

(** The queue as the iterator hands it out. *)
Fixpoint processOld (keys : list bytes) work : result error kv :=
  match keys with
  | [] => Ok work
  | key :: keys =>
      match GetUnit (BytesToHash (drop (length key - 32) key)) with
      | None => processOld keys (Delete key work)
      | Some u => let? work := process u None work in processOld keys work
      end
  end.

Definition RollbackWorkFee u work : result error kv :=
  if bool_decide (hash (Proposer u) = hash PublicPrivateKeyAddr) then Ok work
  else
    let period := GetSettlePeriod (SCNumber u) in
    let? found := GetWitnessPeriodWorkReport work period (Proposer u) in
    match found with
    | None => Ok work
    | Some info =>
        let? fee := calcUnitFee u None in
        let votes := Word.ForceSafeSub (Votes info) 1 in
        let info := mkWork (IsSys info) votes (Word.ForceSafeSub (CreateUnits info) 1) (Word.ForceSafeSub votes (TxCount u))
          (Word.ForceSafeSub (ShouldVote info) 1) (Fee info - fee) (VotedLastUnit info) in
        let? put := updateWitnessWorkReport (getSettlementPeriodLogKey period (Proposer u)) info in
        Ok (put work)
    end.

(** ** Paying out *)

Section Pay.
Context {DB : Type} {ST : Storage DB} {C : ScCodec} {LG : Ledger DB}.
Open Scope sc_scope.
Open Scope result_scope.

Implicit Types (db : DB).

Definition next_key (user : Address) : Hash := BytesToHash (hash user ++ workFeeFromPrefix).
Definition setNextWithdrawPeriod (user : Address) (p : Z) db : DB := save (next_key user) p db.
Definition getNextWithdrawPeriod (from : Address) (nowPeriod : Z) db : Z :=
  let data := load (next_key from) db in
  checkSettlementPeriod (if data =? 0 then 1 else Word.Uint64 data) nowPeriod.

Fixpoint sum_fees (n : nat) w (p : Z) work (total : Z) : result error Z :=
  match n with
  | O => Ok total
  | S n => let? fee := getPeriodWorkFee w p work in sum_fees n w (u64 (p + 1)) work (total + fee)
  end.
(** The loop from [beginPeriod] to [period]. *)
Definition GetWithdrawableWitnessFee w (sysNumber : Z) work db : result error (Z * Z) :=
  let now := GetSettlePeriod sysNumber in
  let beginPeriod := getNextWithdrawPeriod w now db in
  let period := Word.ForceSafeSub now withdrawJD in
  if (period =? 0) || (beginPeriod >? period) then Ok (0, beginPeriod)
  else
    let? total := sum_fees (Z.to_nat (period - beginPeriod + 1)) w beginPeriod work 0 in
    Ok (total, u64 (period + 1)).

Fixpoint freezing (n : nat) (i : Z) w (fromPeriod now : Z) work (freeze : Z) : result error Z :=
  match n with
  | O => Ok freeze
  | S n =>
      let p := Word.ForceSafeSub now i in
      if (p =? 0) || (p <? fromPeriod) then freezing n (i + 1) w fromPeriod now work freeze
      else
        let? amount := getPeriodWorkFee w p work in
        freezing n (i + 1) w fromPeriod now work (freeze + amount)
  end.
Definition GetFreezingWitnessFee w (sysNumber : Z) work db : result error Z :=
  let now := GetSettlePeriod sysNumber in
  freezing 2 0 w (getNextWithdrawPeriod w now db) now work 0.

Definition Settlement (c : Ctx) work : SC (DB * Z) unit :=
  let from := Caller c in
  if not_payable c then fail ErrNonPayable
  else
    UseGas SstoreLoadGas;;;
    let! info := on_state (read (GetWitnessInfo from)) in
    UseGas SstoreLoadGas;;;
    if negb ((Status info =? WitnessNormal) || (Status info =? WitnessLoggedOut)) then fail ErrStatusAbnormal
    else
      let! r := on_state (read (GetWithdrawableWitnessFee from (u64 (Word.Uint64 (UnitNumber c) - 1)) work)) in
      let '(settleAmount, nextPeriod) := (r : Z * Z) in
      UseGas SstoreSetGas;;;
      on_state (puts (AddBalance from settleAmount));;;
      UseGas SstoreSetGas;;;
      on_state (puts (setNextWithdrawPeriod from nextPeriod)).

End Pay.
End Reports.
End Settle.
