(* ===== verification/ScFees.v ===== *)
(** Fees are written down once and paid out once. *)
From stdpp Require Import gmap list.
From S2P Require Import Prelude Bech32 Address EvmWord EvmState StateDb GoSort ScStore ScSets ScGroup ScHeart ScWitness ScDuty ScMembers ScProposal ScSealed ScTally ScCampaign ScSettle.

Import Db Store Sets Address Group Heart Witness Duty Members Tally Campaigns Settle.

Module Fees.

(** ** Keys *)

Lemma be_bytes_inj n x y : 0 <= x < 256 ^ Z.of_nat n -> 0 <= y < 256 ^ Z.of_nat n -> be_bytes n x = be_bytes n y -> x = y.
Proof. intros Hx Hy E%(f_equal be_value). rewrite !be_value_be_bytes in E. by rewrite !Z.mod_small in E. Qed.

Lemma work_key_inj p w p' w' :
  is_u64 p -> is_u64 p' -> getSettlementPeriodLogKey p w = getSettlementPeriodLogKey p' w' -> p = p' /\ hash w = hash w'.
Proof.
  intros Hp Hp' E%app_inv_head. unfold encodeUint64 in E. apply app_inj_1 in E as [E1 E2]; [|by rewrite !length_be_bytes].
  by apply be_bytes_inj in E1.
Qed.

Lemma todo_key t h p w : getSettleTODOKey t h <> getSettlementPeriodLogKey p w.
Proof. intros E. apply (f_equal (take 1)) in E. vm_compute in E. discriminate E. Qed.

Lemma Put_same k v (work : kv) : Put k v work !! k = Some v.
Proof. apply (lookup_insert_eq (M := gmap bytes)). Qed.
Lemma Put_other k k' v (work : kv) : k <> k' -> Put k v work !! k' = work !! k'.
Proof. apply (lookup_insert_ne (M := gmap bytes)). Qed.
Lemma Delete_other k k' (work : kv) : k <> k' -> Delete k work !! k' = work !! k'.
Proof. apply (lookup_delete_ne (M := gmap bytes)). Qed.

(** ** Periods *)

Lemma round_half_even_near a b : 0 < b -> 2 * a - b <= 2 * b * round_half_even a b <= 2 * a + b.
Proof.
  intros Hb. unfold round_half_even. pose proof (Z.div_mod a b ltac:(lia)) as E. pose proof (Z.mod_pos_bound a b Hb) as R.
  set (q := a / b) in *. set (r := a mod b) in *. destruct (Z.ltb_spec (2 * r) b); [nia|].
  destruct (2 * r >? b) eqn:G; [nia|]. destruct (Z.even q); nia.
Qed.

(** The quotient with the exponent it comes with. *)
Lemma float_div_spec a b :
  0 < a -> 0 < b -> Z.log2 a - Z.log2 b < 52 ->
  exists k, 0 <= k /\ 52 - Z.log2 a + Z.log2 b <= k /\ float_div a b = (round_half_even (a * 2 ^ k) b, - k).
Proof.
  intros Ha Hb L. unfold float_div. cbv beta zeta. set (e := Z.log2 a - Z.log2 b - 52). rewrite (proj2 (Z.ltb_lt e 0)) by lia. cbn [fst snd].
  destruct (a * 2 ^ (- e) <? b * 2 ^ 52).
  - rewrite (proj2 (Z.ltb_lt (e - 1) 0)) by lia. cbn [fst snd]. exists (- (e - 1)). rewrite Z.opp_involutive. split_and!; [lia..|done].
  - rewrite (proj2 (Z.ltb_lt e 0)) by lia. cbn [fst snd]. exists (- e). rewrite Z.opp_involutive. split_and!; [lia..|done].
Qed.

(** Numbers below 2^52 lose nothing as a [float64], and their quotients are
    rounded up as they should be. *)
Lemma float64_exact n : 0 < n < 2 ^ 52 -> float64 n = n.
Proof.
  intros [H0 H1]. unfold float64. destruct (Z.eqb_spec n 0); [lia|].
  destruct (float_div_spec n 1) as (k & Hk & _ & ->); [lia..| |].
  { change (Z.log2 1) with 0. rewrite Z.sub_0_r. by apply Z.log2_lt_pow2. }
  replace (round_half_even (n * 2 ^ k) 1) with (n * 2 ^ k) by (pose proof (round_half_even_near (n * 2 ^ k) 1 ltac:(lia)); lia).
  destruct (Z.ltb_spec (- k) 0); [rewrite Z.opp_involutive; apply Z.div_mul; lia|]. replace k with 0 by lia. change (- 0) with 0. lia.
Qed.

Lemma Ceil_exact a b : 0 < a < 2 ^ 52 -> 0 < b -> Ceil (float_div a b) = - (- a / b).
Proof.
  intros [H0 H1] Hb. assert (Z.log2 a < 52) as La by (by apply Z.log2_lt_pow2).
  pose proof (Z.log2_nonneg b). destruct (float_div_spec a b) as (k & Hk & Hkb & ->); [lia..|].
  set (c := - (- a / b)). assert ((c - 1) * b < a <= c * b) as Hc.
  { unfold c. pose proof (Z.div_mod (- a) b ltac:(lia)). pose proof (Z.mod_pos_bound (- a) b Hb). nia. }
  set (m := round_half_even (a * 2 ^ k) b). pose proof (round_half_even_near (a * 2 ^ k) b Hb) as Hm. fold m in Hm.
  assert (0 < 2 ^ k) as Hpow by lia.
  assert (b < 2 * 2 ^ k) as Hbk.
  { rewrite <- Z.pow_succ_r by lia. apply Z.lt_le_trans with (2 ^ Z.succ (Z.log2 b)); [by apply Z.log2_spec|]. apply Z.pow_le_mono_r; lia. }
  assert ((c - 1) * 2 ^ k < m <= c * 2 ^ k) as Hm2.
  { split; [|].
    - apply Z.nle_gt. intros Hle. assert (2 * b * m <= 2 * b * ((c - 1) * 2 ^ k)) by (apply Z.mul_le_mono_nonneg_l; lia).
      assert (((c - 1) * b + 1) * 2 ^ k <= a * 2 ^ k) by (apply Z.mul_le_mono_nonneg_r; lia). nia.
    - apply Z.lt_succ_r. apply Z.nle_gt. intros Hle. assert (2 * b * (c * 2 ^ k + 1) <= 2 * b * m) by (apply Z.mul_le_mono_nonneg_l; lia).
      assert (a * 2 ^ k <= c * b * 2 ^ k) by (apply Z.mul_le_mono_nonneg_r; lia). nia. }
  unfold Ceil. destruct (Z.ltb_spec (- k) 0) as [Lk|Lk].
  - rewrite Z.opp_involutive. assert (- m / 2 ^ k = - c) as ->; [|lia].
    symmetry. apply (Z.div_unique_pos _ _ _ (c * 2 ^ k - m)); lia.
  - assert (k = 0) as E by lia. rewrite E in *. change (2 ^ (- 0)) with 1. change (2 ^ 0) with 1 in Hm2. lia.
Qed.

(** C24: The chain's units are cut into periods without gap or overlap: below
    2^52 the floating-point division of [GetSettlePeriod] is exact, and a unit
    belongs to the period [p] exactly when its number is within the range that
    [GetPeriodRange] gives for [p] (the very first unit, number zero, belongs to
    the first). *)
Theorem periods_partition n p :
  0 < n < 2 ^ 52 -> 0 < p < 2 ^ 51 ->
  let '(first, last) := GetPeriodRange p in (GetSettlePeriod n = p <-> first <= n <= last).
Proof.
  intros Hn Hp. unfold GetPeriodRange, GetSettlePeriod. change ConfigParamsBillingPeriod with 6720. rewrite !u64_small by (rewrite ?u64_small; lia).
  destruct (Z.leb_spec n 6720); [lia|]. rewrite float64_exact, Ceil_exact by lia.
  pose proof (Z.div_mod (- n) 6720 ltac:(lia)). pose proof (Z.mod_pos_bound (- n) 6720 ltac:(lia)). lia.
Qed.

Section Reports.
Context {WC : WorkCodec} {WO : WorkCodecOk WC} {CS : Chains} {P : Params} {NM : Names}.

Implicit Types (work : kv) (p : Z) (w : Address) (u : Unit) (signers lib : list Address).

(** Every report can be read, and written again. *)
Definition reports_ok work : Prop :=
  forall p w, is_u64 p -> exists found, GetWitnessPeriodWorkReport work p w = Ok found /\
    match found with Some i => storable i | None => True end.

Definition report work p w : option WorkInfo :=
  match GetWitnessPeriodWorkReport work p w with Ok found => found | Err _ => None end.
Definition fee work p w : Z := match report work p w with Some i => Fee i | None => 0 end.

(** The report before the unit, and the one that is put in its place. *)
Definition before u work p w : WorkInfo :=
  should_vote (default (mkWork (bool_decide (MC u = SCAccount)) 0 0 0 0 0 0) (report work p w)).
Definition after u signers workFee work p w : WorkInfo :=
  if bool_decide (w = Proposer u) then proposed u workFee (before u work p w)
  else if bool_decide (w ∈ signers) then voted u (before u work p w) else before u work p w.

(** Was the unit the last that the proposer is credited with? *)
Definition repeated u work p : bool := VotedLastUnit (before u work p (Proposer u)) =? u_Hash u.
(** The witnesses whose reports are written: a repetition ends the loop. *)
Fixpoint reached u work p lib : list Address :=
  match lib with
  | [] => []
  | w :: lib => if bool_decide (w = Proposer u) && repeated u work p then [] else w :: reached u work p lib
  end.

Lemma storable_before u work p w : reports_ok work -> is_u64 p -> storable (before u work p w).
Proof.
  intros R Hp. destruct (R p w Hp) as (found & E & S). unfold before, report. rewrite E. destruct found as [i|]; [|done]. change (default _ (Some i)) with i.
  destruct S as (? & ? & ? & ? & ? & ?). unfold storable. cbn [should_vote Votes CreateUnits VotedTxs ShouldVote Fee VotedLastUnit].
  do 5 (split; [first [assumption|apply u64_range]|]). assumption.
Qed.

Lemma storable_after u signers workFee work p w :
  reports_ok work -> is_u64 p -> 0 <= workFee -> 0 <= u_Hash u < 2 ^ 256 -> storable (after u signers workFee work p w).
Proof.
  intros R Hp Hf Hh. pose proof (storable_before u work p w R Hp) as (? & ? & ? & ? & ? & ?). unfold after.
  unfold storable, proposed, voted. repeat case_bool_decide; cbn [Votes CreateUnits VotedTxs ShouldVote Fee VotedLastUnit];
    (do 5 (split; [first [assumption|apply u64_range|lia]|])); assumption.
Qed.

Lemma reached_lib u work p lib w : w ∈ reached u work p lib -> w ∈ lib.
Proof.
  induction lib as [|v lib IH]; cbn [reached]; [done|]. destruct (_ && _); [intros H; by apply not_elem_of_nil in H|].
  intros [->|H]%elem_of_cons; [by left|right; by apply IH].
Qed.

Lemma work_puts_spec u signers workFee p work lib :
  reports_ok work -> 0 <= workFee -> 0 <= u_Hash u < 2 ^ 256 -> is_u64 p ->
  (forall w w', w ∈ lib -> w' ∈ lib -> hash w = hash w' -> w = w') ->
  exists f, work_puts u signers workFee p work lib = Ok f /\ forall work0,
    (forall w, w ∈ reached u work p lib ->
       exists d, EncodeWork (after u signers workFee work p w) = Some d /\ f work0 !! getSettlementPeriodLogKey p w = Some d) /\
    (forall k, (forall w, w ∈ reached u work p lib -> k <> getSettlementPeriodLogKey p w) -> f work0 !! k = work0 !! k).
Proof.
  intros R Hf Hh Hp. induction lib as [|w lib IH]; intros Hinj; cbn [work_puts reached].
  { eexists. split; [reflexivity|]. intros work0. split; [|done]. intros w Hw. by apply not_elem_of_nil in Hw. }
  destruct (R p w Hp) as (found & E & _). rewrite E. cbn [result_bind].
  replace (should_vote (default _ found)) with (before u work p w) by (unfold before, report; by rewrite E).
  set (stop := bool_decide (w = Proposer u) && repeated u work p).
  assert (stop = bool_decide (w = Proposer u) && (VotedLastUnit (before u work p w) =? u_Hash u)) as Es.
  { unfold stop, repeated. case_bool_decide as Ew; [by rewrite Ew|done]. }
  destruct (Decode_Encode (after u signers workFee work p w)) as (d & Ed & _); [by apply storable_after|].
  destruct IH as (f & Ef & Hfs); [intros; apply Hinj; by try (by right)|].
  assert (stop = false -> exists f0, (let? store := updateWitnessWorkReport (getSettlementPeriodLogKey p w) (after u signers workFee work p w) in
      let? rest := work_puts u signers workFee p work lib in Ok (fun work => rest (store work)))%result = Ok f0 /\ forall work0,
    (forall w', w' ∈ w :: reached u work p lib ->
       exists d, EncodeWork (after u signers workFee work p w') = Some d /\ f0 work0 !! getSettlementPeriodLogKey p w' = Some d) /\
    (forall k, (forall w', w' ∈ w :: reached u work p lib -> k <> getSettlementPeriodLogKey p w') -> f0 work0 !! k = work0 !! k)) as Hput.
  { intros _. unfold updateWitnessWorkReport. rewrite Ed, Ef. cbn [result_bind]. eexists. split; [reflexivity|]. intros work0.
    destruct (Hfs (Put (getSettlementPeriodLogKey p w) d work0)) as [H1 H2]. split.
    - intros w' [->|Hw']%elem_of_cons; [|by apply H1]. destruct (decide (w ∈ reached u work p lib)) as [Hin|Hin]; [by apply H1|].
      exists d. split; [done|]. rewrite H2; [by apply Put_same|].
      intros w' Hw' [_ Eh]%work_key_inj; [|done..]. apply Hin. rewrite (Hinj w w'); [done|by left|right; by eapply reached_lib|done].
    - intros k Hk. rewrite H2 by (intros w' Hw'; apply Hk; by right). rewrite Put_other; [done|].
      intros <-. apply (Hk w); [by left|done]. }
  rewrite Es in Hput |- *. unfold after at 1 in Hput. case_bool_decide as Ew.
  - cbn [andb] in Hput |- *. destruct (_ =? _); [|by apply Hput].
    eexists. split; [reflexivity|]. intros work0. split; [|done]. intros w' Hw. by apply not_elem_of_nil in Hw.
  - cbn [andb] in Hput |- *. specialize (Hput eq_refl). by destruct (bool_decide (w ∈ signers)).
Qed.

Lemma proposer_reached u work p lib :
  Proposer u ∈ reached u work p lib <-> Proposer u ∈ lib /\ repeated u work p = false.
Proof.
  induction lib as [|w lib IH]; cbn [reached].
  { split; [intros H|intros [H _]]; by apply not_elem_of_nil in H. }
  rewrite !elem_of_cons. case_bool_decide as Ew; cbn [andb].
  - destruct (repeated u work p); [split; [intros H; by apply not_elem_of_nil in H|by intros [_ ?]]|].
    rewrite elem_of_cons, IH. naive_solver.
  - rewrite elem_of_cons, IH. naive_solver.
Qed.

Lemma report_get work work' p w w' :
  hash w = hash w' -> work' !! getSettlementPeriodLogKey p w = work !! getSettlementPeriodLogKey p w ->
  GetWitnessPeriodWorkReport work' p w = GetWitnessPeriodWorkReport work p w'.
Proof. unfold GetWitnessPeriodWorkReport, getSettlementPeriodLogKey, Get. intros -> E. by rewrite E. Qed.

Lemma report_put work p w d i :
  work !! getSettlementPeriodLogKey p w = Some d -> d <> [] -> DecodeWork d = Some i ->
  GetWitnessPeriodWorkReport work p w = Ok (Some i).
Proof. intros E N Ed. unfold GetWitnessPeriodWorkReport, Get. rewrite E. cbn. by rewrite bool_decide_false, Ed. Qed.

Lemma fee_before u work p w : Fee (before u work p w) = fee work p w.
Proof. unfold before, fee. by destruct (report work p w). Qed.
Lemma fee_hash work p w w' : hash w = hash w' -> fee work p w = fee work p w'.
Proof. intros E. unfold fee, report. by rewrite (report_get work work p w w'). Qed.

(** Does the unit credit [w] with its fee, in the period [p]? *)
Definition earns u lib work p w : bool :=
  bool_decide (p = GetSettlePeriod (SCNumber u) /\ hash w = hash (Proposer u) /\ Proposer u ∈ lib) &&
  negb (repeated u work (GetSettlePeriod (SCNumber u))).

(** C21: The fee of a unit is written down for its proposer and for nobody else,
    in the period of the unit: if the reports are in order, [writeWorkFee] never
    panics, leaves the reports in order and the unit out of the queue; a report's
    fee grows by exactly the unit's fee when it is the proposer's and the unit is
    not the last one credited there, and stays what it was in every other case;
    and when the proposer is one of the chain's witnesses, writing the same unit
    again right away changes no fee. *)
Theorem writeWorkFee_spec u lib signers workFee work :
  reports_ok work -> 0 <= workFee -> 0 <= u_Hash u < 2 ^ 256 -> is_u64 (GetSettlePeriod (SCNumber u)) ->
  hash (Proposer u) <> hash PublicPrivateKeyAddr -> voters u = Ok signers ->
  (forall w w', w ∈ Proposer u :: lib -> w' ∈ Proposer u :: lib -> hash w = hash w' -> w = w') ->
  exists work', writeWorkFee u lib workFee work = Ok work' /\ reports_ok work' /\
    work' !! getSettleTODOKey (Timestamp u) (u_Hash u) = None /\
    (forall p w, is_u64 p -> fee work' p w = fee work p w + (if earns u lib work p w then workFee else 0)) /\
    (Proposer u ∈ lib -> forall p w, is_u64 p -> earns u lib work' p w = false).
Proof.
  intros R Hf Hh Hp Np Ev Hinj. unfold writeWorkFee. rewrite bool_decide_false, Ev by done. set (q := GetSettlePeriod (SCNumber u)) in *.
  destruct (work_puts_spec u signers workFee q work lib R Hf Hh Hp) as (f & Ef & Hfs).
  { intros w w' Hw Hw'. by apply Hinj; right. }
  rewrite Ef. cbn [result_bind]. eexists. split; [reflexivity|]. destruct (Hfs work) as [H1 H2]. set (work' := Delete _ _).
  assert (forall p w, work' !! getSettlementPeriodLogKey p w = f work !! getSettlementPeriodLogKey p w) as Ed.
  { intros p w. apply Delete_other, todo_key. }
  (* every report is either put or as it was *)
  assert (forall p w, is_u64 p ->
    (exists v, v ∈ reached u work q lib /\ p = q /\ hash w = hash v /\
       GetWitnessPeriodWorkReport work' p w = Ok (Some (after u signers workFee work q v))) \/
    ((p = q -> forall v, v ∈ reached u work q lib -> hash w <> hash v) /\
       GetWitnessPeriodWorkReport work' p w = GetWitnessPeriodWorkReport work p w)) as Hcases.
  { intros p w Hw. destruct (decide (p = q /\ hash w ∈ map hash (reached u work q lib))) as [[-> Hin]|Hout].
    - apply list_elem_of_In, in_map_iff in Hin as (v & Ehv & Hv). apply list_elem_of_In in Hv. left. exists v.
      split_and!; [done..|]. destruct (H1 v Hv) as (d & E1 & E2).
      destruct (Decode_Encode (after u signers workFee work q v)) as (d' & E3 & N & E4); [by apply storable_after|].
      rewrite E1 in E3. injection E3 as <-. rewrite (report_get work' work' q w v) by done.
      apply (report_put _ _ _ d); [by rewrite Ed|done..].
    - right. assert (p = q -> forall v, v ∈ reached u work q lib -> hash w <> hash v) as Hno.
      { intros -> v Hv Eh. apply Hout. split; [done|]. apply list_elem_of_In, in_map_iff. exists v. split; [done|by apply list_elem_of_In]. }
      split; [done|]. apply report_get; [done|]. rewrite Ed. apply H2. intros v Hv [-> Eh]%work_key_inj; [|done..]. by apply (Hno eq_refl v). }
  split; [|split; [|split]].
  - intros p w Hw. destruct (Hcases p w Hw) as [(v & _ & -> & _ & E)|[_ E]]; rewrite E; [|by apply R].
    eexists. split; [reflexivity|]. by apply storable_after.
  - apply (lookup_delete_eq (M := gmap bytes)).
  - intros p w Hw. unfold earns. fold q. destruct (Hcases p w Hw) as [(v & Hv & -> & Eh & E)|[No E]].
    + unfold fee at 1, report. rewrite E. rewrite (fee_hash work q w v Eh), <- (fee_before u).
      pose proof (reached_lib _ _ _ _ _ Hv) as Hl. unfold after. destruct (bool_decide_reflect (v = Proposer u)) as [->|N].
      * apply proposer_reached in Hv as [Hin Hr]. by rewrite bool_decide_true, Hr.
      * rewrite (bool_decide_false (q = q /\ hash w = hash (Proposer u) /\ Proposer u ∈ lib)) by (intros (_ & E2 & _); apply N, Hinj; [by right|by left|congruence]).
        cbn [andb]. rewrite Z.add_0_r. by destruct (bool_decide (v ∈ signers)).
    + unfold fee, report. rewrite E. case_bool_decide as Eb; [|cbn [andb]; by rewrite Z.add_0_r].
      destruct Eb as (-> & Eh & Hin). destruct (repeated u work q) eqn:Er; [cbn; by rewrite Z.add_0_r|].
      exfalso. apply (No eq_refl (Proposer u)); [by apply proposer_reached|done].
  - intros Hin p w Hw. unfold earns. fold q. apply andb_false_iff. right. apply negb_false_iff.
    destruct (Hcases q (Proposer u) Hp) as [(v & Hv & _ & Eh & E)|[No E]].
    + assert (v = Proposer u) as -> by (apply Hinj; [right; by eapply reached_lib|by left|done]).
      unfold repeated, before, report. rewrite E. unfold after. rewrite (bool_decide_true (Proposer u = Proposer u)) by done. apply Z.eqb_refl.
    + destruct (repeated u work q) eqn:Er; [|exfalso; apply (No eq_refl (Proposer u)); [by apply proposer_reached|done]].
      rewrite <- Er. unfold repeated, before, report. by rewrite E.
Qed.

(** ** Paying out *)

Section Pay.
Context {DB : Type} {ST : Storage DB} {SO : StorageOk DB ST} {C : ScCodec}.
Context {EV : Events DB} {LG : Ledger DB} {LO : LedgerOk DB ST SO LG} {LM : LedgerMoney DB ST EV LG}.

Implicit Types (db : DB) (c : Ctx).

(** The periods that are paid at the unit number [n]. *)
Definition payable w (n : Z) db : list Z :=
  let now := GetSettlePeriod n in
  let first := getNextWithdrawPeriod w now db in
  let last := Word.ForceSafeSub now withdrawJD in
  if (last =? 0) || (first >? last) then [] else seqZ first (last - first + 1).
Definition fees work w (periods : list Z) : Z := fold_right Z.add 0 (map (fun p => fee work p w) periods).

Lemma sum_fees_spec n w p work total :
  reports_ok work -> 0 <= p -> p + Z.of_nat n < 2 ^ 64 ->
  sum_fees n w p work total = Ok (total + fees work w (seqZ p (Z.of_nat n))).
Proof.
  intros R. revert p total. induction n as [|n IH]; intros p total Hp Hn; cbn [sum_fees].
  { cbn. by rewrite Z.add_0_r. }
  unfold getPeriodWorkFee. destruct (R p w ltac:(lia)) as (found & E & _). rewrite E. cbn [result_bind].
  rewrite u64_small, IH by lia. rewrite (seqZ_cons p) by lia. unfold fees. cbn [map fold_right]. unfold fee at 2, report. rewrite E.
  replace (Z.pred (Z.of_nat (Datatypes.S n))) with (Z.of_nat n) by lia. unfold Z.succ. f_equal.
  replace (p + 1) with (Z.succ p) by lia. lia.
Qed.

Lemma next_range w now db : 0 <= now -> 0 <= getNextWithdrawPeriod w now db.
Proof.
  intros H. unfold getNextWithdrawPeriod, checkSettlementPeriod, Word.ForceSafeSub, MaxSettlementPeriod.
  assert (0 <= (if load (next_key w) db =? 0 then 1 else Word.Uint64 (load (next_key w) db))) as Hs.
  { destruct (_ =? 0); [done|apply u64_range]. }
  set (s := if load _ _ =? 0 then _ else _) in *. destruct (now <=? s); cbn; [done|]. destruct (_ >? _); [|done]. destruct (Z.leb_spec now 8); lia.
Qed.

(** What is withdrawn, and where the next withdrawal begins. *)
Lemma withdrawable w n work db :
  reports_ok work -> is_u64 (GetSettlePeriod n) ->
  let paid := payable w n db in
  exists next, GetWithdrawableWitnessFee w n work db = Ok (fees work w paid, next) /\
    (paid <> [] -> next = Word.ForceSafeSub (GetSettlePeriod n) withdrawJD + 1 /\ withdrawJD < GetSettlePeriod n) /\
    (paid = [] -> next = getNextWithdrawPeriod w (GetSettlePeriod n) db).
Proof.
  intros R Hn. unfold GetWithdrawableWitnessFee, payable. set (now := GetSettlePeriod n) in *.
  pose proof (next_range w now db ltac:(lia)) as Hf. set (first := getNextWithdrawPeriod w now db) in *.
  set (last := Word.ForceSafeSub now withdrawJD).
  assert (0 <= last <= now /\ (last <> 0 -> last < now)) as [Hl Hl'].
  { unfold last, Word.ForceSafeSub, withdrawJD. destruct (Z.leb_spec now 2); lia. }
  destruct (_ || _) eqn:E; [by eexists|]. apply orb_false_iff in E as [E1 E2]. apply Z.eqb_neq in E1. rewrite Z.gtb_ltb in E2. apply Z.ltb_ge in E2.
  rewrite sum_fees_spec by (done || lia). cbn [result_bind]. rewrite Z2Nat.id, u64_small by lia. eexists. split; [done|]. split.
  - intros _. split; [done|]. unfold last, Word.ForceSafeSub, withdrawJD in *. destruct (Z.leb_spec now 2); lia.
  - intros H0. apply (f_equal length) in H0. rewrite length_seqZ in H0. cbn in H0. lia.
Qed.

Lemma payable_in w n db p :
  p ∈ payable w n db ->
  getNextWithdrawPeriod w (GetSettlePeriod n) db <= p <= GetSettlePeriod n - withdrawJD /\ withdrawJD < GetSettlePeriod n.
Proof.
  unfold payable, Word.ForceSafeSub. destruct (_ || _) eqn:E; [intros H; by apply not_elem_of_nil in H|].
  apply orb_false_iff in E as [E _]. apply Z.eqb_neq in E. rewrite elem_of_seqZ.
  destruct (Z.leb_spec (GetSettlePeriod n) withdrawJD); lia.
Qed.

(** *** The mark from which the next withdrawal begins *)

Definition due_from w db : Z := if load (next_key w) db =? 0 then 1 else Word.Uint64 (load (next_key w) db).

Lemma due_range w db : 0 <= due_from w db < 2 ^ 64.
Proof. unfold due_from. destruct (_ =? 0); [lia|]. apply u64_range. Qed.

Lemma next_at_least w now db :
  0 <= now < 2 ^ 64 -> due_from w db <= getNextWithdrawPeriod w now db < 2 ^ 64.
Proof.
  intros Hn. pose proof (due_range w db). unfold getNextWithdrawPeriod. fold (due_from w db).
  unfold checkSettlementPeriod, Word.ForceSafeSub, MaxSettlementPeriod. repeat case_match; lia.
Qed.

Lemma due_from_set w p db : storage_ok db -> 0 <= p < 2 ^ 64 -> due_from w (setNextWithdrawPeriod w p db) = Z.max 1 p.
Proof.
  intros O Hp. unfold due_from, setNextWithdrawPeriod. rewrite load_save, decide_True by done.
  destruct (Z.eqb_spec p 0) as [->|N]; [done|]. unfold Word.Uint64. rewrite u64_small by lia. lia.
Qed.

(** Whatever is withdrawn, the mark that goes with it is not below the old one. *)
Lemma withdraw_next w n work db t next :
  0 <= GetSettlePeriod n < 2 ^ 64 - 1 -> GetWithdrawableWitnessFee w n work db = Ok (t, next) ->
  due_from w db <= next < 2 ^ 64.
Proof.
  intros Hn. pose proof (next_at_least w (GetSettlePeriod n) db ltac:(lia)) as Ha. unfold GetWithdrawableWitnessFee.
  set (first := getNextWithdrawPeriod _ _ _) in *. set (last := Word.ForceSafeSub _ _).
  assert (0 <= last <= GetSettlePeriod n) by (unfold last, Word.ForceSafeSub, withdrawJD; destruct (Z.leb_spec (GetSettlePeriod n) 2); lia).
  destruct (_ || _) eqn:E; [intros [= _ <-]; lia|]. apply orb_false_iff in E as [_ E]. rewrite Z.gtb_ltb in E. apply Z.ltb_ge in E.
  destruct (sum_fees _ _ _ _ _) as [s|]; [|done]. cbn [result_bind]. intros [= _ <-]. rewrite u64_small by lia. lia.
Qed.

(** A further settlement of [w], at any height and over any reports, or any
    change that leaves the slot of the mark alone. *)
Inductive later w : DB -> DB -> Prop :=
| later_settlement c work db g db' g' :
    Caller c = w -> storage_ok db -> 0 <= GetSettlePeriod (u64 (Word.Uint64 (UnitNumber c) - 1)) < 2 ^ 64 - 1 ->
    Settlement c work (db, g) = (Ok tt, (db', g')) -> later w db db'
| later_other db db' : load (next_key w) db' = load (next_key w) db -> later w db db'.

Lemma later_mark w db db' : later w db db' -> due_from w db <= due_from w db'.
Proof.
  intros [c work db1 g db1' g' Ew O Hn S|db1 db1' E]; [|unfold due_from; by rewrite E].
  set (n := u64 (Word.Uint64 (UnitNumber c) - 1)) in *. revert S. unfold Settlement, SstoreLoadGas, SstoreSetGas. cbv zeta. subst w. fold n. set (w := Caller c).
  destruct (not_payable c); [by intros [=]|]. pay; [by intros [=]|]. rewrite bind_read. destruct (GetWitnessInfo w db1) as [info|]; [|by intros [=]].
  pay; [by intros [=]|]. destruct (_ || _); cbn [negb]; [|by intros [=]]. rewrite bind_read.
  destruct (GetWithdrawableWitnessFee w n work db1) as [[t next]|] eqn:Ewd; [|by intros [=]].
  pay; [by intros [=]|]. rewrite bind_puts. pay; [by intros [=]|]. unfold on_state, puts. cbn [fst snd]. intros [= <- _].
  apply withdraw_next in Ewd; [|done].
  rewrite due_from_set; [lia|by apply AddBalance_ok|]. pose proof (due_range w db1). lia.
Qed.

(** C20: Witness fees are paid out once.  A settlement succeeds exactly for a
    registered witness in office or logged out that pays the gas and sends no
    money; it pays the fees of the periods that are due, none younger than two
    periods and none older than eight, moves the mark from which the next
    withdrawal begins to the period after those (if nothing is due, to the oldest
    period that can still be paid) and writes nothing else; and none of these
    periods is ever due again, however many settlements follow, at whatever
    heights, between whatever changes that leave the witness' mark alone. *)
Theorem Settlement_spec c work db g :
  storage_ok db -> reports_ok work ->
  let n := u64 (Word.Uint64 (UnitNumber c) - 1) in
  let from := Caller c in
  let paid := payable from n db in
  0 < GetSettlePeriod n < 2 ^ 64 - 1 ->
  match Settlement c work (db, g) with
  | (Ok _, (db', g')) =>
      (exists info, GetWitnessInfo from db = Ok info /\ (Status info = WitnessNormal \/ Status info = WitnessLoggedOut)) /\
      g' = g - 60000 /\ not_payable c = false /\
      (forall a, GetBalance a db' = GetBalance a db + (if decide (a = from) then fees work from paid else 0)) /\
      (forall p, p ∈ paid -> GetSettlePeriod n - MaxSettlementPeriod <= p <= GetSettlePeriod n - withdrawJD) /\
      keeps (fun k => k <> next_key from) db db' /\
      due_from from db' = Z.max 1 (if decide (paid = []) then getNextWithdrawPeriod from (GetSettlePeriod n) db else GetSettlePeriod n - 1) /\
      (forall db2 n2 p, rtc (later from) db' db2 -> is_u64 (GetSettlePeriod n2) -> p ∈ paid -> p ∉ payable from n2 db2)
  | (Err _, (db', g')) =>
      g < 60000 \/ db' = db /\
        (not_payable c = true \/ (exists er, GetWitnessInfo from db = Err er) \/
         exists info, GetWitnessInfo from db = Ok info /\ Status info <> WitnessNormal /\ Status info <> WitnessLoggedOut)
  end.
Proof.
  intros O R n from paid Hn. unfold Settlement, SstoreLoadGas, SstoreSetGas. fold from.
  destruct (not_payable c); [cbn; by auto|]. pay; [by left; lia|]. rewrite bind_read.
  destruct (GetWitnessInfo from db) as [info|er]; [|by eauto 6]. pay; [by left; lia|].
  destruct (_ || _) eqn:Est; cbn [negb].
  2:{ apply orb_false_iff in Est as [E1 E2]. apply Z.eqb_neq in E1, E2. right. split; [done|]. right; right. by exists info. }
  rewrite bind_read. fold n. destruct (withdrawable from n work db R ltac:(lia)) as (next & Ew & Hnext & Hempty). fold paid in Ew, Hnext, Hempty |- *.
  assert (0 <= next < 2 ^ 64) as Bn by (pose proof (due_range from db); apply withdraw_next in Ew; lia). rewrite Ew.
  pay; [by left; lia|]. rewrite bind_puts. pay; [by left; lia|]. unfold on_state, puts. cbn [fst snd].
  assert (storage_ok (AddBalance from (fees work from paid) db)) as O1 by (by apply AddBalance_ok).
  split_and!.
  - exists info. split; [done|]. apply orb_true_iff in Est as [Est|Est]; apply Z.eqb_eq in Est; by auto.
  - lia.
  - done.
  - intros a. unfold setNextWithdrawPeriod. by rewrite GetBalance_save, GetBalance_Add.
  - intros p Hp. apply payable_in in Hp. revert Hp. unfold getNextWithdrawPeriod, checkSettlementPeriod, Word.ForceSafeSub, MaxSettlementPeriod.
    set (s := if load _ _ =? 0 then _ else _). set (now := GetSettlePeriod n) in *. repeat case_match; lia.
  - unfold setNextWithdrawPeriod. split; [by apply save_ok|]. intros k Hk. rewrite load_save by done.
    rewrite decide_False by done. by apply load_AddBalance.
  - rewrite due_from_set by done. f_equal. case_decide as Ep; [by apply Hempty|]. destruct (Hnext Ep) as [-> ?]. unfold Word.ForceSafeSub, withdrawJD in *. destruct (Z.leb_spec (GetSettlePeriod n) 2); lia.
  - intros db2 n2 p T Hn2 Hp Hp2.
    assert (due_from from (setNextWithdrawPeriod from next (AddBalance from (fees work from paid) db)) <= due_from from db2) as Lm.
    { clear -T LO. induction T as [|x y z T _ IH]; [lia|]. apply later_mark in T. lia. }
    assert (paid <> []) as Np by (intros Ep; rewrite Ep in Hp; by apply not_elem_of_nil in Hp).
    apply payable_in in Hp, Hp2. pose proof (next_at_least from (GetSettlePeriod n2) db2 Hn2).
    rewrite due_from_set in Lm by done. destruct (Hnext Np) as [-> ?].
    unfold Word.ForceSafeSub, withdrawJD in *. destruct (Z.leb_spec (GetSettlePeriod n) 2); lia.
Qed.
End Pay.

End Reports.
End Fees.
