(* ===== verification/ScReport.v ===== *)
(** Reports of dishonest witnesses and the arbitration of a chain
    ([src/core/sc/report.go], [src/consensus/arbitration/validtor/validtor.go]),
    and the exchange of a chain's witnesses that the system's witnesses decide
    ([src/core/sc/normal_witenss.go]). *)
From stdpp Require Import gmap list.
From S2P Require Import Prelude Bech32 Address BftTypes BftValidators EvmWord EvmState StateDb GoSort ScStore Signing ScGroup ScHeart ScWitness ScDuty ScProposal.

Import Db Address Store Signing Group Heart Witness Duty.

Module Report.

(** ** Data *)

Record Header := mkHeader {
  MC : Address; Number : Z; ParentHash : Hash; SCHash : Hash; SCNumber : Z; Proposer : Address;
  TxsRoot : Hash; ReceiptRoot : Hash; StateRoot : Hash; Bloom : bytes; GasLimit : Z; GasUsed : Z; Timestamp : Z
}.
Record AffectedUnit := mkAffected { au_Header : Header; au_Votes : list WitenssVote }.
Record ReportWitnessDishonest := mkReport { Choose : Header; Proof_ : list AffectedUnit }.

(** One exchange of witnesses, as [ReplaceWitnessExecute] takes a list of them. *)
Record ReplaceWitnessExecuteInput := mkReplace {
  rp_Chain : Address;
  rp_ApplyNumber : Z;
  rp_ApplyUHash : Hash;
  rp_Choose : UnitID;
  UnitVoterSigns : list WitenssVote;
  ChooseVoteSign : list bytes
}.

(** The input that packages [abi] and [rlp] decode, the chain's configuration,
    and the states of the system chain's units. *)
Class ReportInputs := {
  UnPackReportDishonestInput : bytes -> option ReportWitnessDishonest;
  UnpackReplaceWitnessExecuteInput : bytes -> option (list ReplaceWitnessExecuteInput);
  ChainConfig_ChainId : option Z
}.
Class UnitStates (DB : Type) := { GetUnitState : Hash -> result error DB }.

Definition GetChainWitnessCount {P : Params} (chain : Address) : Z :=
  if bool_decide (chain = SCAccount) then ConfigParamsSCWitness else ConfigParamsUCWitness.

Definition Sha256Gas2 : Z := Sha256BaseGas * 2.
Definition EcrecoverGas : Z := 3000.

Section Header.
Context {C : ScCodec}.

Definition header_value (h : Header) : rlp_value :=
  Lst [addr_value (MC h); uint (Number h); hash_value (ParentHash h); hash_value (SCHash h); uint (SCNumber h);
       addr_value (Proposer h); hash_value (TxsRoot h); hash_value (ReceiptRoot h); hash_value (StateRoot h);
       Str (Bloom h); uint (GasLimit h); uint (GasUsed h); uint (Timestamp h)].
Definition Header_Hash (h : Header) : Hash := SafeHash256 [header_value h].
Definition ID (h : Header) : UnitID := mkUnitID (MC h) (Number h) (Header_Hash h).
End Header.

Section Validtor.
Context {DB : Type} {P : Params} {C : ScCodec} {B : Btcec}.
Context (signer : DefSigner) (getUnitState : Hash -> result error DB) (checkWitnessStatus : DB -> Address -> result proof_error unit).
Open Scope result_scope.

(** The votes on one unit: who voted, each one once. *)
Fixpoint check_votes (statedb : DB) (h : Hash) (senders : list Address) (votes : list WitenssVote) : result proof_error (list Address) :=
  match votes with
  | [] => Ok senders
  | v :: votes =>
      match Sender signer (ToVote h v) with
      | Err _ => Err BadSignature
      | Ok badSender =>
          if bool_decide (badSender ∈ senders) then Err RepeatVote
          else
            let? _ := checkWitnessStatus statedb badSender in
            check_votes statedb h (senders ++ [badSender]) votes
      end
  end.

Definition check_unit (mc : Address) (number : Z) (hashs : list Hash) (u : AffectedUnit) : result proof_error (Hash * list Address) :=
  let n := Z.of_nat (length (au_Votes u)) in
  let hd := au_Header u in
  if n <? Validators.GetChainMinVoting mc then Err TooFewVotes
  else if n >? GetChainWitnessCount mc then Err TooManyVotes
  else if Empty (MC hd) then Err NoChain
  else if negb (bool_decide (MC hd = mc)) then Err OtherChain
  else if negb (Number hd =? number) then Err OtherNumber
  else if SCHash hd =? 0 then Err NoSCHash
  else
    let h := Header_Hash hd in
    if bool_decide (h ∈ hashs) then Err SameUnit
    else
      match getUnitState (SCHash hd) with
      | Err _ => Err NoUnitState
      | Ok statedb => let? senders := check_votes statedb h [] (au_Votes u) in Ok (h, senders)
      end.

(** The keys of [badWitness] in the order of their first vote. *)
Fixpoint check_units (mc : Address) (number : Z) (hashs : list Hash) (badWitness : list Address) (rep : list AffectedUnit)
    : result proof_error (list Address) :=
  match rep with
  | [] => Ok badWitness
  | u :: rep =>
      let? found := check_unit mc number hashs u in
      let '(h, senders) := found in
      check_units mc number (hashs ++ [h]) (badWitness ++ filter (fun a => a ∉ badWitness) senders) rep
  end.

Definition CheckProofWithState (rep : list AffectedUnit) : result proof_error (list Address) :=
  match rep with
  | [] | [_] => Err TooFewUnits
  | first :: _ =>
      let mc := MC (au_Header first) in
      let number := Number (au_Header first) in
      if Empty mc then Err NoChain
      else if number =? 0 then Err NoNumber
      else
        let? bads := check_units mc number [] [] rep in
        if (length bads =? 0)%nat then Err NothingProved else Ok bads
  end.
End Validtor.

(** ** The contract *)

Section Report.
Context {DB : Type} {ST : Storage DB} {C : ScCodec} {EV : Events DB} {LG : Ledger DB} {P : Params} {NM : Names}.
Context {SR : Proposal.Sorting} {B : Btcec} {RI : ReportInputs} {US : UnitStates DB} {CH : Proposal.ChainContext}.
Open Scope sc_scope.

Implicit Types (db : DB) (chain voter witness : Address) (number : Z) (choose : UnitID).

(** An event that cannot be packed is a panic. *)
Definition must_log (e : event) (args : list abi_value) : SC DB unit :=
  match Pack e args with
  | None => fail ErrPanic
  | Some data => puts (AddLog (Id e) data)
  end.
Definition AddChainArbitrationEventLog chain number : SC DB unit :=
  must_log ChainArbitrationEvent [AbiAddress chain; AbiUint64 number].
Definition AddChainArbitrationEndEventLog chain number (uhash : Hash) : SC DB unit :=
  must_log ChainArbitrationEndEvent [AbiAddress chain; AbiUint64 number; AbiHash uhash].

Definition result_key chain number : Hash := SafeHash256 [Str (str "carb_result_"); addr_value chain; uint number].
Definition GetArbitrationResult chain number db : Hash := load (result_key chain number) db.
Definition writeArbitrationResult choose : SC DB unit :=
  puts (save (result_key (ChainID choose) (Height choose)) (id_Hash choose));;;
  AddChainArbitrationEndEventLog (ChainID choose) (Height choose) (id_Hash choose).

Definition writeArbitrationNumberFlag chain number : SC DB unit :=
  let chainIngs := arbitration_set chain in
  let! found := gets (fun db => Exist chainIngs db (VUint number)) in
  match found with
  | Some _ => ret tt
  | None =>
      puts (fun db => snd (Add chainIngs (VUint number) db));;;
      AddChainArbitrationEventLog chain number
  end.
Definition clearArbitrationNumberFlag chain number (db : DB) : DB :=
  let chainIngs := arbitration_set chain in
  match Exist chainIngs db (VUint number) with
  | Some index => snd (Remove chainIngs index db)
  | None => db
  end.

Definition choices_set chain number : StateSet := [Str (str "carb_"); addr_value chain; uint number].
Definition voters_set chain number : StateSet := choices_set chain number ++ [Str (str "voters")].
Definition voter_set choose : StateSet := choices_set (ChainID choose) (Height choose) ++ [hash_value (id_Hash choose)].

(** How many votes the unit has. *)
Definition writeChainArbitration choose voter : SC DB Z :=
  let chain := ChainID choose in
  let number := Height choose in
  let voterSet := voter_set choose in
  let voters := voters_set chain number in
  let! voted := gets (fun db => Exist voters db (VAddress voter)) in
  match voted with
  | Some _ => gets (Len voterSet)
  | None =>
      let set_ := choices_set chain number in
      let! known := gets (fun db => Exist set_ db (VHash (id_Hash choose))) in
      match known with
      | Some _ => ret tt
      | None => puts (fun db => snd (Add set_ (VHash (id_Hash choose)) db))
      end;;;
      puts (add_to voterSet voter);;;
      puts (add_to voters voter);;;
      gets (Len voterSet)
  end.

Definition arbitrationVote (chooseUnit : Header) voter : SC DB unit :=
  let choose := ID chooseUnit in
  if IsEmpty choose then fail ErrInvalidChoose
  else
    let! minNumber := gets (GetChainArbitrationNumber (ChainID choose)) in
    if minNumber =? 0 then fail ErrMissingArbitration
    else if negb (minNumber =? Height choose) then fail ErrOtherHeight
    else
      let! result := gets (GetArbitrationResult (ChainID choose) (Height choose)) in
      if negb (result =? 0) then fail ErrArbitrationEnd
      else
        let! voterCount := writeChainArbitration choose voter in
        if i64 voterCount >=? Validators.GetChainMinVoting (ChainID choose) then
          puts (clearArbitrationNumberFlag (ChainID choose) (Height choose));;;
          writeArbitrationResult choose
        else ret tt.

(** A witness is marked once, and put out when it is marked. *)
Definition bad_key witness : Hash := SafeHash256 [Str (str "badw_"); addr_value witness].
Definition writeBadWitness (c : Ctx) witness : SC (DB * Z) unit :=
  let key := bad_key witness in
  let! data := on_state (gets (load key)) in
  if negb (data =? 0) then ret tt
  else
    on_state (puts (save key (BytesToHash [1])));;;
    removeChainWitness c witness true.

Fixpoint punish (c : Ctx) (l : list Address) : SC (DB * Z) unit :=
  match l with
  | [] => ret tt
  | bad :: l =>
      UseGas Bn256PairingBaseGas;;;
      writeBadWitness c bad;;;
      punish c l
  end.

(** Was the voter a witness in good standing? *)
Definition normal_witness (db : DB) (a : Address) : result proof_error unit :=
  let '(status, isW) := GetWitnessStatus a db in
  if negb isW then Err NotWitness
  else if negb (status =? WitnessNormal) then Err NotNormalWitness
  else Ok tt.

Definition signer : DefSigner := NewSigner ChainConfig_ChainId.
Definition address_less (a b : Address) : bool := bytes_ltb (hash a) (hash b).

Definition systemReportDishonest (c : Ctx) (rep : ReportWitnessDishonest) : SC (DB * Z) unit :=
  if (length (Proof_ rep) =? 0)%nat && Empty (MC (Choose rep)) then fail ErrEmptyReport
  else
    UseGas (SstoreLoadGas * 2);;;
    let! sysws := on_state (gets GetSystemMainWitness) in
    if negb (bool_decide (Caller c ∈ sysws)) then fail ErrNotReporter
    else
      UseGas Sha256Gas2;;;
      match Proof_ rep with
      | [] => UseGas SstoreSetGas;;; on_state (arbitrationVote (Choose rep) (Caller c))
      | first :: _ =>
          let mc := MC (au_Header first) in
          let number := Number (au_Header first) in
          UseGas SstoreLoadGas;;;
          match CheckProofWithState signer GetUnitState normal_witness (Proof_ rep) with
          | Err e => fail (ErrProof e)
          | Ok badWitness =>
              punish c (Proposal.Sort address_less badWitness);;;
              UseGas SstoreLoadGas;;;
              UseGas SstoreSetGas;;;
              on_state (writeArbitrationNumberFlag mc number);;;
              if negb (Empty (MC (Choose rep))) then
                if negb (Number (Choose rep) =? number) || negb (bool_decide (MC (Choose rep) = mc)) then fail ErrInvalidChoose
                else
                  UseGas SstoreSetGas;;;
                  on_state (arbitrationVote (Choose rep) (Caller c))
              else ret tt
          end
      end.

Definition SystemReportDishonest (c : Ctx) (input : bytes) : SC (DB * Z) unit :=
  UseGas 10000;;;
  match UnPackReportDishonestInput input with
  | None => fail ErrInput
  | Some rep => systemReportDishonest c rep
  end.

(** ** The exchange of a chain's witnesses *)

(** The system's main witnesses signed the choice. *)
Fixpoint check_choosers (vote : bytes -> SignHelper) (signs : list bytes) : SC (DB * Z) unit :=
  match signs with
  | [] => ret tt
  | v :: signs =>
      UseGas EcrecoverGas;;;
      match Sender signer (vote v) with
      | Err _ => fail ErrSigner
      | Ok send =>
          UseGas (SloadGas * 3);;;
          let! main := on_state (gets (IsMainSystemWitness send)) in
          if negb main then fail ErrNotMainWitness else check_choosers vote signs
      end
  end.

(** Witnesses signed the chosen unit. *)
Fixpoint check_voters (uhash : Hash) (votes : list WitenssVote) : SC (DB * Z) unit :=
  match votes with
  | [] => ret tt
  | v :: votes =>
      UseGas EcrecoverGas;;;
      match Sender signer (ToVote uhash v) with
      | Err _ => fail ErrSigner
      | Ok sender =>
          let! known := on_state (gets (ExistWitness sender)) in
          if negb known then fail ErrNotFindWitness else check_voters uhash votes
      end
  end.

Definition handleReplaceWitnessExec (c : Ctx) (info : ReplaceWitnessExecuteInput) : SC (DB * Z) unit :=
  let choose := rp_Choose info in
  UseGas (SloadGas + SstoreLoadGas);;;
  (if Height choose =? 0 then
     if negb (id_Hash choose =? Proposal.GenesisHash) then fail ErrInvalidChoose else ret tt
   else if Z.of_nat (length (UnitVoterSigns info)) <? Validators.GetChainMinVoting (rp_Chain info) then fail ErrVotesInsufficient
   else ret tt);;;
  if Z.of_nat (length (ChooseVoteSign info)) <? Validators.GetChainMinVoting SCAccount then fail ErrVotesInsufficient
  else
    UseGas (SloadGas + SstoreLoadGas);;;
    let! st := on_state (gets (GetChainStatus (rp_Chain info))) in
    let '(chainStatus, statusNumber) := (st : Z * Z) in
    if negb (chainStatus =? ChainStatusWitnessReplaceUnderway) then fail ErrNotUnderway
    else if negb (rp_ApplyNumber info =? statusNumber) then fail ErrStatusNumber
    else
      check_choosers (fun sign => choose_helper
        (mkChoose (rp_Chain info) (rp_ApplyNumber info) (rp_ApplyUHash info) choose sign)) (ChooseVoteSign info);;;
      (if negb (bool_decide (ChainID choose = rp_Chain info)) then
         if (Height choose =? 0) && negb (bool_decide (ChainID choose = SCAccount)) then fail ErrInvalidChoose else ret tt
       else ret tt);;;
      check_voters (id_Hash choose) (UnitVoterSigns info);;;
      on_state (setSpecialUnitAtChain (ChainID choose) (Height choose) (id_Hash choose));;;
      UseGas (SloadGas + SstoreLoadGas);;;
      let! oldGroupIndex := on_state (read (GetGroupIndexFromUser (rp_Chain info))) in
      if oldGroupIndex =? 0 then fail ErrEmptyGroup
      else
        UseGas (SloadGas + SstoreSetGas * 5);;;
        on_state (fun db =>
          match ApplyChainFromWitnessGroup (rp_Chain info) (UnitNumber c) (Some oldGroupIndex) (u64 (Height choose + 1)) db with
          | (Err ErrNoWitnessGroupUse, db) =>
              WriteChainStatus (rp_Chain info) ChainStatusNormal (Word.Uint64 (UnitNumber c)) oldGroupIndex db
          | (Err e, db) => (Err e, db)
          | (Ok _, db) => (Ok tt, db)
          end).

Fixpoint replace_all (c : Ctx) (data : list ReplaceWitnessExecuteInput) : SC (DB * Z) unit :=
  match data with
  | [] => ret tt
  | one :: data => handleReplaceWitnessExec c one;;; replace_all c data
  end.
Definition ReplaceWitnessExecute (c : Ctx) (input : bytes) : SC (DB * Z) unit :=
  UseGas (SloadGas + SstoreSetGas);;;
  match UnpackReplaceWitnessExecuteInput input with
  | None => fail ErrInput
  | Some data =>
      if (length data =? 0)%nat then fail ErrEmptyList
      else if negb (bool_decide (Caller c = Coinbase c)) then fail ErrInvalidCaller
      else replace_all c data
  end.

End Report.
End Report.
