(* ===== verification/ScJudge.v ===== *)
(** What the arbitration of a chain promises, and what a report of dishonesty
    proves ([ScReport]). *)
From stdpp Require Import gmap list.
From S2P Require Import Prelude Bech32 Address BftTypes BftValidators EvmWord EvmState StateDb Bloom GoSort ScStore ScSets Signing ScGroup ScHeart ScWitness ScDuty ScMembers ScProposal ScReport.

Import Db Address Store Sets Signing Group Heart Witness Duty Members Report.

Module Judge.

(** ** Sets whose prefixes differ in length *)

Section Apart.
Context {DB : Type} {ST : Storage DB} {SO : StorageOk DB ST} {C : ScCodec} {CO : ScCodecOk C}.

Implicit Types (s : StateSet) (db : DB) (l : list Hash).

Definition apart s s' : Prop := forall k, owns s k -> owns s' k -> False.

Lemma apart_sym s s' : apart s s' -> apart s' s.
Proof. intros A k H1 H2. by apply (A k). Qed.

Lemma holds_apart s s' db db' l : apart s s' -> only s db db' -> holds s' db l -> holds s' db' l.
Proof. intros A [O E]. apply holds_ext; [done|]. intros k Hk. apply E. intros Hk'. by eapply A. Qed.

Lemma apart_same s s' : length s = length s' -> s <> s' -> apart s s'.
Proof. intros L N k. by apply owned_once. Qed.

(** A slot of a set, by the list that is hashed. *)
Lemma owns_key s k : owns s k ->
  (exists x, k = SafeHash256 (s ++ [x])) \/
  exists p x, (p = Str defSetIndexPrefix \/ p = Str defSetValuePrefix) /\ k = SafeHash256 (s ++ [p; x]).
Proof. intros [->|[(i & _ & ->)|(v & _ & ->)]]; [left|right..]; eauto 6. Qed.

Lemma apart_longer s y :
  y <> Str defSetIndexPrefix -> y <> Str defSetValuePrefix -> forall s', length s' = length s -> apart s (s' ++ [y]).
Proof.
  intros N1 N2 s' L k H H'. apply owns_key in H, H'.
  destruct H as [[x ->]|(p & x & Hp & ->)], H' as [[x' E]|(p' & x' & Hp' & E)];
    apply SafeHash256_inj in E; rewrite <- app_assoc in E; cbn [app] in E; apply app_inj_1 in E as [_ E]; try done.
  injection E as -> _. destruct Hp; congruence.
Qed.

(** A slot under another first word. *)
Lemma only_head s db db' a b x : only s db db' -> head s = Some a -> a <> b -> load (SafeHash256 (b :: x)) db' = load (SafeHash256 (b :: x)) db.
Proof.
  intros [_ E] Hd N. apply E. intros H. apply owns_key in H. destruct s as [|z s]; [done|]. injection Hd as ->.
  destruct H as [[y H]|(p & y & _ & H)]; apply SafeHash256_inj in H; cbn [app] in H; congruence.
Qed.
End Apart.

(** ** The arbitration as a count of ballots *)

(** A voter and the unit it chose, in the order of the votes. *)
Record tally := mkTally { ballots : list (Hash * Hash); elected : option Hash }.

Definition count (h : Hash) (b : list (Hash * Hash)) : nat := length (filter (fun v => v.2 = h) b).
Definition voted_for (h : Hash) (b : list (Hash * Hash)) : list Hash := map fst (filter (fun v => v.2 = h) b).
Definition choose_one (acc : list Hash) (h : Hash) : list Hash := if bool_decide (h ∈ acc) then acc else acc ++ [h].
Definition choices (b : list (Hash * Hash)) : list Hash := foldl choose_one [] (map snd b).

(** A vote that counts: the first of its voter, before a unit is elected. *)
Definition cast (min : Z) (t : tally) (voter h : Hash) : tally :=
  if bool_decide (voter ∈ map fst (ballots t)) then t
  else
    let b := ballots t ++ [(voter, h)] in
    mkTally b (if Z.of_nat (count h b) >=? min then Some h else None).

Definition fair (min : Z) (t : tally) : Prop :=
  NoDup (map fst (ballots t)) /\
  match elected t with
  | None => forall h, Z.of_nat (count h (ballots t)) < min
  | Some h => Z.of_nat (count h (ballots t)) = min /\ forall h', h' <> h -> Z.of_nat (count h' (ballots t)) < min
  end.

Lemma count_snoc h b v h' : count h (b ++ [(v, h')]) = (count h b + if decide (h' = h) then 1 else 0)%nat.
Proof. unfold count. rewrite list.filter_app, length_app, filter_cons. cbn [snd]. by case_decide. Qed.

Lemma voted_for_snoc h b v h' : voted_for h (b ++ [(v, h')]) = voted_for h b ++ if decide (h' = h) then [v] else [].
Proof. unfold voted_for. rewrite list.filter_app, map_app, filter_cons. cbn [snd]. by case_decide. Qed.

Lemma choices_snoc b v h : choices (b ++ [(v, h)]) = choose_one (choices b) h.
Proof. unfold choices. by rewrite map_app, foldl_app. Qed.

Lemma length_voted_for h b : length (voted_for h b) = count h b.
Proof. apply length_map. Qed.

Lemma voted_for_sub h b v : v ∈ voted_for h b -> v ∈ map fst b.
Proof. intros ([? ?] & -> & [_ H]%list_elem_of_filter)%list_elem_of_fmap. apply list_elem_of_fmap. eauto. Qed.

Lemma length_choices b : (length (choices b) <= length b)%nat.
Proof.
  induction b as [|[v h] b IH] using rev_ind; [done|]. rewrite choices_snoc, length_app. unfold choose_one.
  case_bool_decide; [cbn; lia|]. rewrite length_app. cbn. lia.
Qed.

(** One unit at most is elected, by as many different voters as are needed. *)
Lemma cast_fair min t voter h : fair min t -> elected t = None -> fair min (cast min t voter h).
Proof.
  intros [D L] E. unfold cast. case_bool_decide as V; [done|]. rewrite E in L. split; cbn [ballots elected].
  - rewrite map_app. apply list.NoDup_app. split_and!; [done|set_solver|apply list.NoDup_singleton].
  - rewrite Z.geb_leb. destruct (Z.leb_spec min (Z.of_nat (count h (ballots t ++ [(voter, h)])))) as [H|H].
    + rewrite count_snoc, decide_True in * by done. pose proof (L h). split; [lia|].
      intros h' N. rewrite count_snoc, decide_False by done. pose proof (L h'). lia.
    + intros h'. destruct (decide (h = h')) as [<-|N]; [done|]. rewrite count_snoc, decide_False by done. pose proof (L h'). lia.
Qed.

(** ** The contract keeps the count *)

Section Arbitration.
Context {DB : Type} {ST : Storage DB} {SO : StorageOk DB ST} {C : ScCodec} {CO : ScCodecOk C}.
Context {EV : Events DB} {EO : EventsOk DB ST SO EV} {P : Params}.
Context (chain : Address) (number : Z).

Implicit Types (db : DB) (t : tally) (h : Hash) (l : list Hash).

Let ing : StateSet := arbitration_set chain.
Let units : StateSet := choices_set chain number.
Let voters : StateSet := voters_set chain number.
Let voters_of h : StateSet := units ++ [hash_value h].
Let min : Z := Validators.GetChainMinVoting chain.

(** The slots of the height: its ballots, the heights of the chain that are
    under arbitration, and the result. *)
Record stored db (b : list (Hash * Hash)) l (result : Hash) : Prop := {
  st_voters : holds voters db (map fst b);
  st_units : holds units db (choices b);
  st_of h : is_word h -> holds (voters_of h) db (voted_for h b);
  st_ing : holds ing db l;
  st_result : load (result_key chain number) db = result
}.

(** The state that keeps the tally of the height: the flag is set, and on no
    lower height, until a unit is elected; from then on it may be set again by
    a new report. *)
Record arbitrates db t : Prop := {
  ar_fair : fair min t;
  ar_stored : exists l, stored db (ballots t) l (default 0 (elected t)) /\ Forall (fun n => 0 < n /\ is_u64 n) l /\
    (if elected t then True else number ∈ l /\ Forall (fun n => number <= n) l);
  ar_elected h : elected t = Some h -> 0 < h
}.

(** *** Apart *)

(** The height whose bytes read "_ing". *)
Definition clash : Z := be_value (str "_ing").

Lemma uint_clash : is_u64 number -> number <> clash -> uint number <> Str (str "_ing").
Proof.
  intros R N E. apply N. transitivity (be_value (Word.Bytes number)).
  - symmetry. by apply (Bloom.Bytes_spec number 8).
  - unfold clash. f_equal. by apply Str_inj.
Qed.

Lemma voters_value h : Str (str "voters") <> hash_value h.
Proof. intros E%Str_inj%(f_equal length). unfold hash_bytes in E. rewrite length_be_bytes in E. discriminate. Qed.
Lemma value_prefix h : hash_value h <> Str defSetIndexPrefix /\ hash_value h <> Str defSetValuePrefix.
Proof. split; intros E%Str_inj%(f_equal length); unfold hash_bytes in E; rewrite length_be_bytes in E; discriminate. Qed.

Lemma apart_units_ing : is_u64 number -> number <> clash -> apart units ing.
Proof. intros R N. apply apart_same; [done|]. intros E. apply (uint_clash R N). unfold units, ing, choices_set, arbitration_set in E. congruence. Qed.
Lemma apart_voters s : length s = 3%nat -> apart s voters.
Proof. intros L. apply (apart_longer s (Str (str "voters"))); [discriminate..|done]. Qed.
Lemma apart_voters_of s h : length s = 3%nat -> apart s (voters_of h).
Proof. intros L. apply (apart_longer s (hash_value h)); [apply value_prefix..|done]. Qed.
Lemma apart_voters_voters_of h : apart voters (voters_of h).
Proof. apply apart_same; [done|]. intros E%app_inv_head. apply (voters_value h). congruence. Qed.
Lemma apart_voters_of_voters_of h h' : is_word h -> is_word h' -> h <> h' -> apart (voters_of h) (voters_of h').
Proof. intros W W' N. apply apart_same; [done|]. intros E%app_inv_head. apply N, hash_value_inj; [done..|congruence]. Qed.

(** *** The lowest height *)

Definition lower (minNumber value : Z) : Z :=
  let number := hash2uint value in
  if (minNumber =? 0) || (number <? minNumber) then number else minNumber.

Lemma lower_cases a x : is_u64 x -> lower a x = x /\ (a = 0 \/ x < a) \/ lower a x = a /\ a <> 0 /\ a <= x.
Proof.
  intros U. unfold lower, hash2uint, Word.Uint64. rewrite u64_small by done.
  destruct (Z.eqb_spec a 0); cbn [orb]; [lia|]. destruct (Z.ltb_spec x a); lia.
Qed.

Lemma lowest_ge l a n : Forall (fun x => 0 < x /\ is_u64 x) l -> 0 < n -> (a = 0 \/ n <= a) -> Forall (fun x => n <= x) l ->
  let r := fold_left lower l a in
  (r = 0 /\ l = [] /\ a = 0) \/ n <= r /\ (n ∈ l \/ a = n -> r = n) /\ (r ∈ l \/ r = a).
Proof.
  revert a. induction l as [|x l IH]; intros a F Hn Ha G; cbn [fold_left].
  - destruct (decide (a = 0)) as [->|N]; [by left|]. right. split_and!; [lia| |by right].
    intros [H|H]; [by apply elem_of_nil in H|done].
  - apply list.Forall_cons in F as [[Fx Ux] F], G as [Gx G].
    pose proof (lower_cases a x Ux) as Hb. destruct (IH (lower a x) F Hn ltac:(lia) G) as [(_ & _ & E)|(L & M & E)]; [lia|].
    right. split_and!; [done| |].
    + intros H. destruct (decide (n ∈ l)) as [I|I]; [by apply M; left|]. apply M. right.
      rewrite elem_of_cons in H. destruct H as [[H|H]|H]; [lia|done|lia].
    + rewrite elem_of_cons. destruct E as [E|E]; [by left; right|]. rewrite E. destruct Hb as [[-> _]|[-> _]]; [by left; left|by right].
Qed.

Lemma lowest_is db l : holds ing db l -> Forall (fun n => 0 < n /\ is_u64 n) l -> 0 < number ->
  number ∈ l -> Forall (fun n => number <= n) l -> GetChainArbitrationNumber chain db = number.
Proof.
  intros H F N I G. change (GetChainArbitrationNumber chain db) with (fold_left lower (elements ing db) 0). rewrite (elements_spec _ _ _ H).
  destruct (lowest_ge l 0 number F N (or_introl eq_refl) G) as [(_ & -> & _)|(_ & M & _)]; [by apply elem_of_nil in I|].
  apply M. by left.
Qed.

Lemma lowest_in db l : holds ing db l -> Forall (fun n => 0 < n /\ is_u64 n) l ->
  GetChainArbitrationNumber chain db = 0 \/ GetChainArbitrationNumber chain db ∈ l.
Proof.
  intros H F. change (GetChainArbitrationNumber chain db) with (fold_left lower (elements ing db) 0). rewrite (elements_spec _ _ _ H).
  destruct (lowest_ge l 0 1 F ltac:(lia) (or_introl eq_refl)) as [(E & _)|(_ & _ & [E|E])]; [|by left|by right|by left].
  eapply Forall_weaken; [exact F|]. cbn. lia.
Qed.

(** *** One vote *)

Context (Hn : 0 < number) (Hu : is_u64 number) (Hc : number <> clash).

Lemma apart_result s db db' : only s db db' -> head s = Some (Str (str "carb_")) ->
  load (result_key chain number) db' = load (result_key chain number) db.
Proof. intros O E. by apply (only_head s db db' _ _ _ O E). Qed.

(** Nothing but a log entry. *)
Lemma stored_ext db db' b l r : storage_ok db' -> (forall k, load k db' = load k db) -> stored db b l r -> stored db' b l r.
Proof. intros O E [S1 S2 S3 S4 S5]. split; [..|by rewrite E]; intros; (eapply holds_ext; [done|by intros k _; apply E|auto]). Qed.

Ltac carry := eapply holds_apart; [|eassumption|];
  auto using apart_units_ing, apart_voters, apart_voters_of, apart_voters_voters_of, apart_sym.

Lemma Exist_holds s db l x : holds s db l -> is_word (value2hash x) -> (is_Some (Exist s db x) <-> value2hash x ∈ l).
Proof.
  intros H W. destruct (Exist_spec s db l x H W) as [H1 H2]. destruct (decide (value2hash x ∈ l)) as [I|N].
  - destruct (proj1 (list_elem_of_lookup _ _) I) as [i E]. rewrite (H1 i E). by split.
  - rewrite (H2 N). split; [by intros []|done].
Qed.

(** The unit becomes one of those voted for. *)
Lemma add_choice db b l r h :
  stored db b l r -> is_word h -> is_u64 (Z.of_nat (length b) + 1) ->
  let db1 := match Exist units db (VHash h) with Some _ => db | None => snd (Add units (VHash h) db) end in
  holds units db1 (choose_one (choices b) h) /\ only units db db1.
Proof.
  intros S W R. pose proof (Exist_holds units db _ (VHash h) (st_units _ _ _ _ S) W) as X. cbn [value2hash] in X.
  pose proof (length_choices b) as L. unfold choose_one.
  destruct (Exist units db (VHash h)) as [i|].
  - rewrite bool_decide_true by (by apply X). split; [apply S|apply only_refl, S].
  - assert (h ∉ choices b) as N by (intros H%X; by destruct H). rewrite bool_decide_false by done.
    apply (SetAdd_spec units db (choices b) (VHash h)); [apply S|done..|lia].
Qed.

Lemma stored_cast db b l r voter h :
  stored db b l r -> is_word voter -> voter ∉ map fst b -> is_word h -> is_u64 (Z.of_nat (length b) + 1) ->
  forall db1, holds units db1 (choose_one (choices b) h) -> only units db db1 ->
  forall x, value2hash x = voter ->
  stored (snd (Add voters x (snd (Add (voters_of h) x db1)))) (b ++ [(voter, h)]) l r.
Proof.
  intros S Wv Nv W R db1 H1 O1 x <-. destruct S as [S1 S2 S3 S4 S5].
  assert (holds voters db1 (map fst b)) as V1 by carry.
  assert (forall h', is_word h' -> holds (voters_of h') db1 (voted_for h' b)) as F1 by (intros h' W'; carry).
  assert (holds ing db1 l) as I1 by carry.
  assert (load (result_key chain number) db1 = r) as R1 by (by rewrite (apart_result units db db1)).
  assert (value2hash x ∉ voted_for h b) as N1 by (by intros H%voted_for_sub).
  assert (length (voted_for h b) <= length b)%nat as L1 by (rewrite length_voted_for; apply length_filter).
  destruct (SetAdd_spec (voters_of h) db1 _ x (F1 h W) N1 Wv ltac:(lia)) as (_ & F2 & O2).
  set (db2 := snd (Add (voters_of h) x db1)) in *.
  assert (holds voters db2 (map fst b)) as V2 by carry.
  destruct (SetAdd_spec voters db2 _ x V2 Nv Wv ltac:(rewrite length_map; lia)) as (_ & V3 & O3).
  set (db3 := snd (Add voters x db2)) in *.
  assert (holds units db2 (choose_one (choices b) h)) as U2 by carry.
  assert (holds ing db2 l) as I2 by carry.
  split.
  - by rewrite map_app.
  - rewrite choices_snoc. carry.
  - intros h' W'. rewrite voted_for_snoc. destruct (decide (h = h')) as [<-|N]; [carry|]. rewrite app_nil_r.
    assert (holds (voters_of h') db2 (voted_for h' b)) as F2'.
    { eapply holds_apart; [|exact O2|by apply F1]. by apply apart_voters_of_voters_of. }
    carry.
  - carry.
  - rewrite (apart_result voters db2 db3) by done. by rewrite (apart_result (voters_of h) db1 db2).
Qed.

Definition after_vote (b : list (Hash * Hash)) (voter h : Hash) : list (Hash * Hash) :=
  if bool_decide (voter ∈ map fst b) then b else b ++ [(voter, h)].

Lemma Len_voters_of db b l r h : stored db b l r -> is_word h -> Len (voters_of h) db = Z.of_nat (count h b).
Proof. intros S W. rewrite (Len_spec _ _ _ (st_of _ _ _ _ S h W)). by rewrite length_voted_for. Qed.

Lemma writeChainArbitration_spec db b l r voter h :
  stored db b l r -> valid_address voter -> is_word h -> is_u64 (Z.of_nat (length b) + 1) ->
  exists db', writeChainArbitration (mkUnitID chain number h) voter db = (Ok (Z.of_nat (count h (after_vote b (member voter) h))), db') /\
    stored db' (after_vote b (member voter) h) l r.
Proof.
  intros S V W R. destruct (member_value voter V) as [_ Hv]. assert (is_word (member voter)) as Wv by lia.
  unfold writeChainArbitration, bind, gets. cbn [ChainID Height id_Hash].
  change (voter_set (mkUnitID chain number h)) with (voters_of h). change (voters_set chain number) with voters.
  change (choices_set chain number) with units.
  pose proof (Exist_holds voters db _ (VAddress voter) (st_voters _ _ _ _ S) Wv) as X. change (value2hash (VAddress voter)) with (member voter) in X.
  unfold after_vote. destruct (Exist voters db (VAddress voter)) as [i|].
  - rewrite bool_decide_true by (by apply X). exists db. by rewrite (Len_voters_of db b l r).
  - assert (member voter ∉ map fst b) as N by (intros H%X; by destruct H). rewrite bool_decide_false by done.
    destruct (add_choice db b l r h S W R) as [H1 O1].
    pose proof (stored_cast db b l r (member voter) h S Wv N W R _ H1 O1 (VAddress voter) eq_refl) as S'.
    unfold ret, puts, add_to. destruct (Exist units db (VHash h)) as [j|]; cbv beta iota in S' |- *; (eexists; split; [|exact S']; by rewrite (Len_voters_of _ _ _ _ _ S')).
Qed.

Lemma must_log_fits e args db : fits e args = true -> exists d, must_log e args db = (Ok tt, AddLog (Id e) d db).
Proof.
  intros F. unfold must_log. pose proof (Pack_fits e args F) as N. destruct (Pack e args) as [d|]; [|done]. by exists d.
Qed.

(** The unit is elected: the flag goes, the result is written. *)
Lemma elect_spec db b l h :
  stored db b l 0 -> number ∈ l -> is_word h ->
  exists db' l', writeArbitrationResult (mkUnitID chain number h) (clearArbitrationNumberFlag chain number db) = (Ok tt, db') /\
    stored db' b l' h /\ l ≡ₚ number :: l'.
Proof.
  intros S I W. unfold clearArbitrationNumberFlag. change (arbitration_set chain) with ing.
  assert (is_word number) as Wn by lia.
  destruct (Exist_spec ing db l (VUint number) (st_ing _ _ _ _ S) Wn) as [E _]. cbn [value2hash] in E. unfold uint2Hash in E.
  apply list_elem_of_lookup in I as [i Ei]. rewrite (E i Ei).
  destruct (SetRemove_spec ing db l i number (st_ing _ _ _ _ S) Ei) as (_ & HI & OI).
  pose proof (swap_remove_permutation _ _ _ Ei) as Pl. revert HI OI Pl. generalize (swap_remove i l). intros l' HI OI Pl.
  set (db1 := snd (Remove ing (Z.of_nat i) db)) in *. destruct S as [S1 S2 S3 S4 S5].
  unfold writeArbitrationResult, bind, puts. cbn [ChainID Height id_Hash].
  destruct (must_log_fits ChainArbitrationEndEvent [AbiAddress chain; AbiUint64 number; AbiHash h]
              (save (result_key chain number) h db1) eq_refl) as [d El].
  unfold AddChainArbitrationEndEventLog. rewrite El. eexists _, l'. split_and!; [done| |done].
  assert (storage_ok db1) as O1 by apply OI.
  apply (stored_ext (save (result_key chain number) h db1)); [by apply AddLog_ok, save_ok|intros k; apply load_AddLog; by apply save_ok|].
  assert (forall s x, head s = Some (Str (str "carb_")) -> holds s db1 x -> holds s (save (result_key chain number) h db1) x) as K.
  { intros s x Hs. apply holds_ext; [by apply save_ok|]. intros k Hk. rewrite load_save by done. rewrite decide_False; [done|].
    assert (Str (str "carb_") <> Str (str "carb_result_")) as D by discriminate.
    intros ->. destruct s as [|z s]; [done|]. change (Some z = Some (Str (str "carb_"))) in Hs. assert (z = Str (str "carb_")) as -> by congruence. apply owns_key in Hk.
    destruct Hk as [[y H]|(p & y & _ & H)]; apply SafeHash256_inj in H; cbn [app] in H; congruence. }
  split.
  - apply K; [done|]. carry.
  - apply K; [done|]. carry.
  - intros h' W'. apply K; [done|]. specialize (S3 h' W'). carry.
  - by apply K.
  - rewrite load_save by done. by rewrite decide_True.
Qed.

Lemma min_is : min = 8.
Proof. unfold min, Validators.GetChainMinVoting. by case_bool_decide. Qed.

(** Different heights are fewer than 2^64. *)
Lemma heights_fit l : NoDup l -> Forall (fun n => 0 < n /\ is_u64 n) l -> number ∉ l -> is_u64 (Z.of_nat (length l) + 1).
Proof.
  intros D F N. assert (length (number :: l) <= length (seqZ 1 (2 ^ 64 - 1)))%nat as H.
  { apply submseteq_length, NoDup_submseteq; [by constructor|]. intros n. rewrite elem_of_seqZ.
    intros [->|I]%elem_of_cons; [lia|]. apply (Forall_elem _ _ _ F) in I. lia. }
  rewrite length_seqZ in H. cbn [length] in H. lia.
Qed.

(** The flag of the height is set, by a report. *)
Lemma flag_spec db b l r :
  stored db b l r -> Forall (fun n => 0 < n /\ is_u64 n) l ->
  exists db' l', writeArbitrationNumberFlag chain number db = (Ok tt, db') /\ stored db' b l' r /\ number ∈ l' /\ (l' = l \/ l' = l ++ [number]).
Proof.
  intros S L. assert (is_word number) as Wn by lia.
  unfold writeArbitrationNumberFlag, bind at 1, gets. change (arbitration_set chain) with ing.
  pose proof (Exist_holds ing db l (VUint number) (st_ing _ _ _ _ S) Wn) as X. cbn [value2hash] in X. unfold uint2Hash in X.
  destruct (Exist ing db (VUint number)) as [i|].
  - exists db, l. split_and!; [done..|by apply X|by left].
  - assert (number ∉ l) as N by (intros H%X; by destruct H).
    pose proof (heights_fit l (h_once _ _ _ (st_ing _ _ _ _ S)) L N) as R.
    destruct (SetAdd_spec ing db l (VUint number) (st_ing _ _ _ _ S) N Wn R) as (_ & HI & OI).
    unfold bind, puts. set (db1 := snd (Add ing (VUint number) db)) in *.
    destruct (must_log_fits ChainArbitrationEvent [AbiAddress chain; AbiUint64 number] db1 eq_refl) as [d El].
    unfold AddChainArbitrationEventLog. rewrite El. exists (AddLog (Id ChainArbitrationEvent) d db1), (l ++ [number]).
    split_and!; [done| |set_solver|by right]. assert (storage_ok db1) as O1 by apply OI.
    apply (stored_ext db1); [by apply AddLog_ok|intros k; by apply load_AddLog|].
    destruct S as [S1 S2 S3 S4 S5]. split; [carry|carry| |done|].
    + intros h W. specialize (S3 h W). carry.
    + by rewrite (apart_result ing db db1).
Qed.

(** The height is decided: no vote changes anything, whether its flag is set
    again or not. *)
Lemma vote_refused db b l r c voter h :
  stored db b l r -> 0 < r -> ID c = mkUnitID chain number h -> Empty chain = false -> 0 < h ->
  exists e, arbitrationVote c voter db = (Err e, db).
Proof.
  intros S Hr EID Ec Hh. unfold arbitrationVote. rewrite EID. unfold IsEmpty. cbn [ChainID Height id_Hash].
  rewrite Ec, (proj2 (Z.eqb_neq number 0)), (proj2 (Z.eqb_neq h 0)) by lia. cbn [orb].
  unfold bind at 1, gets at 1. destruct (_ =? 0); [by eexists|]. destruct (negb _); [by eexists|].
  unfold bind at 1, gets at 1, GetArbitrationResult. rewrite (st_result _ _ _ _ S), (proj2 (Z.eqb_neq r 0)) by lia. by eexists.
Qed.

(** C25: The arbitration of a height elects the first unit that as many different
    voters chose as the chain needs, and no other.  A state that keeps a tally
    keeps, after a vote, the tally with that vote, in which a voter counts once;
    once a unit is elected every further vote is refused and changes nothing, and
    a new report, which sets the flag of the height again, does not change the
    tally either: the election stands, and votes are refused as before.  The
    height is a positive [uint64] other than the one whose bytes read "_ing"
    (its set of units would be the set of the chain's flags), and no lower height
    of the chain is under arbitration while votes are counted. *)
Theorem arbitrationVote_elects db t c voter h :
  arbitrates db t -> valid_address voter -> ID c = mkUnitID chain number h -> Empty chain = false -> 0 < h -> is_word h ->
  is_u64 (Z.of_nat (length (ballots t)) + 1) ->
  match elected t with
  | Some _ => (exists e, arbitrationVote c voter db = (Err e, db)) /\
      exists db', writeArbitrationNumberFlag chain number db = (Ok tt, db') /\
        arbitrates db' t /\ exists e, arbitrationVote c voter db' = (Err e, db')
  | None => exists db', arbitrationVote c voter db = (Ok tt, db') /\ arbitrates db' (cast min t (member voter) h)
  end.
Proof.
  intros [F (l & S & L & I) El] V EID Ec Hh W R. destruct (elected t) as [e|] eqn:Ee; cbn [is_Some default] in *.
  - assert (0 < e) as He by (by apply El). split; [by apply (vote_refused db (ballots t) l e c voter h)|].
    destruct (flag_spec db (ballots t) l e S L) as (db' & l' & E' & S' & _ & Hl). exists db'. split; [done|].
    assert (Forall (fun n => 0 < n /\ is_u64 n) l') as L'.
    { destruct Hl as [->| ->]; [done|]. apply Forall_app. split; [done|]. by apply list.Forall_singleton. }
    split; [|by apply (vote_refused db' (ballots t) l' e c voter h)].
    split; [done| |by rewrite Ee]. exists l'. by rewrite Ee.
  - unfold arbitrationVote. rewrite EID. unfold IsEmpty. cbn [ChainID Height id_Hash].
    rewrite Ec, (proj2 (Z.eqb_neq number 0)), (proj2 (Z.eqb_neq h 0)) by lia. cbn [orb].
    unfold bind at 1, gets at 1. cbv beta iota. destruct I as [I G]. rewrite (lowest_is db l (st_ing _ _ _ _ S) L Hn I G), (proj2 (Z.eqb_neq number 0)), Z.eqb_refl by lia.
    cbn [negb]. unfold bind at 1, gets at 1, GetArbitrationResult. cbv beta iota. rewrite (st_result _ _ _ _ S). cbn [from_option Z.eqb negb].
    destruct (writeChainArbitration_spec db (ballots t) l 0 voter h S V W R) as (db1 & E1 & S1). cbn [from_option] in S1.
    unfold bind at 1. rewrite E1. change (Validators.GetChainMinVoting chain) with min.
    pose proof (cast_fair min t (member voter) h F Ee) as F'. revert F'. unfold cast, after_vote in *. case_bool_decide as Hv; intros F'.
    + destruct F as [D Lt]. rewrite Ee in Lt. pose proof (Lt h) as Lh. rewrite min_is in Lh.
      rewrite i64_small by lia. rewrite Z.geb_leb, (proj2 (Z.leb_gt _ _)) by (by rewrite min_is).
      exists db1. split; [done|]. split; [done| |by rewrite Ee]. exists l. by rewrite Ee.
    + destruct F as [D Lt]. rewrite Ee in Lt. pose proof (Lt h) as Lh. rewrite min_is in Lh.
      rewrite i64_small by (rewrite count_snoc; case_decide; lia).
      destruct (_ >=? min) eqn:Eq; rewrite ?Eq in F'.
      * destruct (elect_spec db1 _ l h S1 I W) as (db2 & l' & E2 & S2 & Pl). unfold bind, puts. rewrite E2.
        exists db2. split; [done|]. split; [done| |by intros ? [= <-]]. exists l'. cbn [ballots elected]. split_and!; [done|..].
        -- rewrite Pl in L. by apply list.Forall_cons in L as [_ L].
        -- done.
      * exists db1. split; [done|]. split; [done| |done]. by exists l.
Qed.

(** A height is opened with no votes. *)
Lemma arbitration_opens db l :
  stored db [] l 0 -> Forall (fun n => 0 < n /\ is_u64 n) l -> Forall (fun n => number <= n) l ->
  exists db', writeArbitrationNumberFlag chain number db = (Ok tt, db') /\ arbitrates db' (mkTally [] None).
Proof.
  intros S L G. assert (fair min (mkTally [] None)) as F by (split; [constructor|]; intros h; rewrite min_is; cbn; lia).
  destruct (flag_spec db [] l 0 S L) as (db' & l' & E & S' & I & Hl). exists db'. split; [done|]. split; [done| |done].
  exists l'. cbn [ballots elected from_option]. destruct Hl as [->| ->]; [by split_and!|].
  split_and!; [done| |done|]; apply Forall_app; (split; [done|]); apply list.Forall_singleton; lia.
Qed.

End Arbitration.

(** ** What a proof of dishonesty proves *)

Section Proofs.
Context {DB : Type} {P : Params} {C : ScCodec} {CO : ScCodecOk C} {B : Btcec}.
Context (signer : DefSigner) (getUnitState : Hash -> result error DB) (status : DB -> Address -> result proof_error unit).

Implicit Types (u : AffectedUnit) (votes : list WitenssVote) (h : Hash).

Definition unit_hash u : Hash := Header_Hash (au_Header u).

(** [a] signed one of the votes on the unit. *)
Definition voted u (a : Address) : Prop := exists v, v ∈ au_Votes u /\ Sender signer (ToVote (unit_hash u) v) = Ok a.

(** The votes are by [l], all of them in good standing when the unit was made. *)
Record voters_are u (l : list Address) : Prop := {
  va_senders : Forall2 (fun v a => Sender signer (ToVote (unit_hash u) v) = Ok a) (au_Votes u) l;
  va_once : NoDup l;
  va_status : exists db, getUnitState (SCHash (au_Header u)) = Ok db /\ Forall (fun a => status db a = Ok tt) l
}.

Lemma check_votes_spec db h votes done_ l :
  check_votes signer status db h done_ votes = Ok l -> NoDup done_ ->
  exists l', l = done_ ++ l' /\ NoDup l /\ Forall2 (fun v a => Sender signer (ToVote h v) = Ok a) votes l' /\
    Forall (fun a => status db a = Ok tt) l'.
Proof.
  revert done_. induction votes as [|v votes IH]; intros done_ E D; cbn [check_votes] in E.
  - injection E as <-. exists []. by rewrite app_nil_r.
  - destruct (Sender signer (ToVote h v)) as [a|] eqn:Es; [|done]. case_bool_decide as Ha; [done|].
    destruct (status db a) as [[]|] eqn:Et; [|done]. cbn [result_bind] in E.
    destruct (IH _ E) as (l' & -> & N & F & G).
    { apply list.NoDup_app. split_and!; [done|set_solver|apply list.NoDup_singleton]. }
    exists (a :: l'). rewrite <- app_assoc in *. split_and!; [done..|by constructor|by constructor].
Qed.

Lemma check_unit_spec mc number hashs u h l :
  check_unit signer getUnitState status mc number hashs u = Ok (h, l) ->
  h = unit_hash u /\ h ∉ hashs /\ MC (au_Header u) = mc /\ Number (au_Header u) = number /\ voters_are u l /\
  Validators.GetChainMinVoting mc <= Z.of_nat (length l) <= GetChainWitnessCount mc.
Proof.
  unfold check_unit. rewrite Z.gtb_ltb. destruct (Z.ltb_spec (Z.of_nat (length (au_Votes u))) (Validators.GetChainMinVoting mc)); [done|].
  destruct (Z.ltb_spec (GetChainWitnessCount mc) (Z.of_nat (length (au_Votes u)))); [done|].
  destruct (Empty _); [done|]. case_bool_decide as Em; cbn [negb]; [|done]. destruct (Z.eqb_spec (Number (au_Header u)) number) as [En|]; cbn [negb]; [|done].
  destruct (_ =? 0); [done|]. case_bool_decide as Hh; [done|].
  destruct (getUnitState _) as [db|] eqn:Ed; [|done]. destruct (check_votes _ _ _ _ _ _) as [l0|] eqn:Ev; cbn [result_bind]; [|done].
  intros [= <- <-]. destruct (check_votes_spec _ _ _ _ _ Ev) as (l' & -> & N & F & G); [constructor|]. cbn [app] in *.
  pose proof (list.Forall2_length _ _ _ F) as L. split_and!; try done; [|lia..]. split; [done..|]. by exists db.
Qed.

Lemma voted_voters u l a : voters_are u l -> (voted u a <-> a ∈ l).
Proof.
  intros [F _ _]. unfold voted. split.
  - intros (v & Hv & E). apply list_elem_of_lookup in Hv as [i Ei].
    destruct (Forall2_lookup_l _ _ _ _ _ F Ei) as (b & Eb & Es). rewrite E in Es. injection Es as ->. apply list_elem_of_lookup. eauto.
  - intros Ha. apply list_elem_of_lookup in Ha as [i Ei]. destruct (Forall2_lookup_r _ _ _ _ _ F Ei) as (v & Ev & Es).
    exists v. split; [|done]. apply list_elem_of_lookup. eauto.
Qed.

(** A unit of the proof. *)
Definition proves (mc : Address) (number : Z) u : Prop :=
  MC (au_Header u) = mc /\ Number (au_Header u) = number /\
  exists l, voters_are u l /\ Validators.GetChainMinVoting mc <= Z.of_nat (length l) <= GetChainWitnessCount mc.

Lemma check_units_spec mc number rep hashs bad bads :
  check_units signer getUnitState status mc number hashs bad rep = Ok bads -> NoDup hashs -> NoDup bad ->
  Forall (proves mc number) rep /\ NoDup (hashs ++ map unit_hash rep) /\ NoDup bads /\
  forall a, a ∈ bads <-> a ∈ bad \/ exists u, u ∈ rep /\ voted u a.
Proof.
  revert hashs bad. induction rep as [|u rep IH]; intros hashs bad E Dh Db; cbn [check_units] in E.
  - injection E as <-. rewrite app_nil_r. split_and!; [constructor|done..|]. intros a. split; [by left|]. intros [H|(u & H & _)]; [done|].
    by apply elem_of_nil in H.
  - destruct (check_unit _ _ _ _ _ _ _) as [[h l]|] eqn:Eu; cbn [result_bind] in E; [|done].
    destruct (check_unit_spec _ _ _ _ _ _ Eu) as (-> & Nh & Em & En & V & L).
    destruct (IH _ _ E) as (F & Dh' & Db' & M).
    + apply list.NoDup_app. split_and!; [done|set_solver|apply list.NoDup_singleton].
    + apply list.NoDup_app. split_and!; [done| |apply list.NoDup_filter, V]. intros a Ha [Hn _]%list_elem_of_filter. done.
    + split_and!.
      * constructor; [|done]. split_and!; [done..|]. by exists l.
      * cbn [map]. by rewrite <- app_assoc in Dh'.
      * done.
      * intros a. rewrite M, elem_of_app, list_elem_of_filter. split.
        -- intros [[H|[_ H]]|(u' & H & Hv)]; [by left|right|right].
           ++ exists u. split; [by left|]. by apply (voted_voters u l).
           ++ exists u'. split; [by right|done].
        -- intros [H|(u' & [->|H]%elem_of_cons & Hv)]; [by left; left| |right; by exists u'].
           left. destruct (decide (a ∈ bad)); [by left|]. right. split; [done|]. by apply (voted_voters u l).
Qed.

(** Two lists of different members of one committee have many in common. *)
Lemma common_members (l1 l2 committee : list Address) :
  NoDup l1 -> NoDup l2 -> NoDup committee -> l1 ⊆ committee -> l2 ⊆ committee ->
  (length l1 + length l2 <= length committee + length (filter (fun a => a ∈ l1) l2))%nat.
Proof.
  intros D1 D2 D S1 S2.
  assert (length (l1 ++ filter (fun a => a ∉ l1) l2) <= length committee)%nat as H.
  { apply submseteq_length, NoDup_submseteq.
    - apply list.NoDup_app. split_and!; [done| |by apply list.NoDup_filter]. by intros a Ha [Hn _]%list_elem_of_filter.
    - intros a. rewrite elem_of_app, list_elem_of_filter. intros [Ha|[_ Ha]]; auto. }
  rewrite length_app in H. assert (length l2 = length (filter (fun a => a ∈ l1) l2) + length (filter (fun a => a ∉ l1) l2))%nat as E; [|lia].
  clear. induction l2 as [|a l2 IH]; [done|]. rewrite !filter_cons. repeat case_decide; cbn; lia || done.
Qed.

(** C26: What [CheckProofWithState] accepts.  The units lie on one chain at one
    height and are all different, and each carries votes of as many different
    accounts as decide there, witnesses in good standing when it was made.  The
    accused are exactly the voters of all units.  That some of them voted twice is
    shown only under a condition the code does not check: where all voters of two
    of the units are among eleven accounts (one committee), at least five of these
    voted for both.  Whoever voted for one unit only is accused as well, and
    without the condition nobody need have voted twice ([strangers_accused] of
    [ScTrial]). *)
Theorem CheckProofWithState_spec rep bads :
  CheckProofWithState signer getUnitState status rep = Ok bads ->
  exists mc number, number <> 0 /\ Empty mc = false /\ (1 < length rep)%nat /\
    NoDup (map unit_hash rep) /\ NoDup bads /\ Forall (proves mc number) rep /\
    (forall a, a ∈ bads <-> exists u, u ∈ rep /\ voted u a) /\
    (forall u1 u2 committee, u1 ∈ rep -> u2 ∈ rep -> NoDup committee -> Z.of_nat (length committee) = GetChainWitnessCount mc ->
       (forall a, voted u1 a \/ voted u2 a -> a ∈ committee) ->
       exists both, NoDup both /\ (5 <= length both)%nat /\ forall a, a ∈ both -> voted u1 a /\ voted u2 a).
Proof.
  intros E. unfold CheckProofWithState in E. destruct rep as [|u [|u' rep]]; [done..|].
  set (mc := MC (au_Header u)) in *. set (number := Number (au_Header u)) in *.
  destruct (Empty mc) eqn:Em; [done|]. destruct (Z.eqb_spec number 0) as [|Nn]; [done|].
  destruct (check_units _ _ _ _ _ _ _ _) as [bads'|] eqn:Eu; cbn [result_bind] in E; [|done].
  destruct (length bads' =? 0)%nat; [done|]. injection E as ->.
  destruct (check_units_spec _ _ _ _ _ _ Eu) as (F & Dh & Db & M); [constructor..|].
  exists mc, number. split_and!; try done; [cbn; lia| |].
  { intros a. rewrite M. split; [intros [H|H]; [by apply elem_of_nil in H|done]|by right]. }
  intros u1 u2 committee H1 H2 D L V.
  rewrite list.Forall_forall in F. destruct (F u1 H1) as (_ & _ & l1 & V1 & L1), (F u2 H2) as (_ & _ & l2 & V2 & L2).
  exists (filter (fun a => a ∈ l1) l2). split_and!.
  - apply list.NoDup_filter, V2.
  - pose proof (common_members l1 l2 committee (va_once _ _ V1) (va_once _ _ V2) D) as K.
    assert (Validators.GetChainMinVoting mc = 8) as Emin by (unfold Validators.GetChainMinVoting; by case_bool_decide).
    assert (GetChainWitnessCount mc = 11) as Ecount by (unfold GetChainWitnessCount; by case_bool_decide).
    specialize (K ltac:(intros a Ha; apply V; left; by apply (voted_voters u1 l1)) ltac:(intros a Ha; apply V; right; by apply (voted_voters u2 l2))). lia.
  - intros a [Ha1 Ha2]%list_elem_of_filter. split; [by apply (voted_voters u1 l1)|by apply (voted_voters u2 l2)].
Qed.

End Proofs.
(** ** Who decides on the exchange of a chain's witnesses *)

Section Exchange.
Context {DB : Type} {ST : Storage DB} {C : ScCodec} {EV : Events DB} {LG : Ledger DB} {P : Params} {NM : Names}.
Context {B : Btcec} {RI : ReportInputs} {CH : Proposal.ChainContext}.

Implicit Types (db : DB) (g : Z) (w : DB * Z).

Lemma bind_ok {S A A'} (m : SC S A) (k : A -> SC S A') (w : S) r (w' : S) :
  bind m k w = (Ok r, w') -> exists a (w1 : S), m w = (Ok a, w1) /\ k a w1 = (Ok r, w').
Proof. unfold bind. destruct (m w) as [[a|] w1]; [by exists a, w1|done]. Qed.

Lemma bind_same {S A A'} (m : SC S A) (k1 k2 : A -> SC S A') (w : S) :
  (forall a (w1 : S), m w = (Ok a, w1) -> k1 a w1 = k2 a w1) -> bind m k1 w = bind m k2 w.
Proof. intros H. unfold bind. destruct (m w) as [[a|] w1] eqn:E; [by apply H|done]. Qed.

Lemma bind_left {S A A'} (m1 m2 : SC S A) (k : A -> SC S A') (w : S) : m1 w = m2 w -> bind m1 k w = bind m2 k w.
Proof. unfold bind. by intros ->. Qed.

Lemma UseGas_ok n w r w' : UseGas n w = (Ok r, w') -> fst w' = fst w.
Proof. unfold UseGas. destruct w as [db g]. destruct (g <? n); [done|]. by intros [= <- <-]. Qed.

Lemma gets_ok {A} (f : DB -> A) (w : DB * Z) a w' : on_state (gets f) w = (Ok a, w') -> a = f (fst w) /\ w' = w.
Proof. destruct w as [db g]. cbn. by intros [= <- <-]. Qed.

(** A signature by an account that [IsMainSystemWitness] takes for one of the
    system's main witnesses (it does so of some that were removed as well, see
    [former_system_witness_is_main]), a vote by an account with a record. *)
Definition signed_by_main db (vote : bytes -> SignHelper) (s : bytes) : Prop :=
  exists a, Sender signer (vote s) = Ok a /\ IsMainSystemWitness a db = true.
Definition signed_by_witness db (uhash : Hash) (v : WitenssVote) : Prop :=
  exists a, Sender signer (ToVote uhash v) = Ok a /\ ExistWitness a db = true.

Lemma check_choosers_ok vote signs w w' :
  check_choosers vote signs w = (Ok tt, w') -> Forall (signed_by_main (fst w) vote) signs /\ fst w' = fst w.
Proof.
  revert w. induction signs as [|s signs IH]; intros w E; cbn [check_choosers] in E; [by injection E as <-|].
  apply bind_ok in E as ([] & w1 & E1%UseGas_ok & E). destruct (Sender _ _) as [a|] eqn:Es; [|done].
  apply bind_ok in E as ([] & w2 & E2%UseGas_ok & E). apply bind_ok in E as (main & w3 & [-> ->]%gets_ok & E).
  destruct (IsMainSystemWitness a (fst w2)) eqn:Em; cbn [negb] in E; [|done]. destruct (IH _ E) as [F Ew].
  rewrite E2, E1 in *. split; [|done]. constructor; [by exists a|done].
Qed.

Lemma check_voters_ok uhash votes w w' :
  check_voters uhash votes w = (Ok tt, w') -> Forall (signed_by_witness (fst w) uhash) votes /\ fst w' = fst w.
Proof.
  revert w. induction votes as [|s votes IH]; intros w E; cbn [check_voters] in E; [by injection E as <-|].
  apply bind_ok in E as ([] & w1 & E1%UseGas_ok & E). destruct (Sender _ _) as [a|] eqn:Es; [|done].
  apply bind_ok in E as (known & w3 & [-> ->]%gets_ok & E).
  destruct (ExistWitness a (fst w1)) eqn:Em; cbn [negb] in E; [|done]. destruct (IH _ E) as [F Ew].
  rewrite E1 in *. split; [|done]. constructor; [by exists a|done].
Qed.

(** Nobody asks whether the signatures differ. *)
Lemma check_choosers_same vote s1 s2 db g :
  length s1 = length s2 -> Forall (signed_by_main db vote) s1 -> Forall (signed_by_main db vote) s2 ->
  check_choosers vote s1 (db, g) = check_choosers vote s2 (db, g).
Proof.
  intros L F1 F2. revert s2 g L F2. induction F1 as [|x s1 (a & Ea & Ma) F1 IH]; intros [|y s2] g L F2; try done.
  apply list.Forall_cons in F2 as [(b & Eb & Mb) F2]. cbn [check_choosers]. rewrite Ea, Eb.
  apply bind_same. intros [] w1 E1%UseGas_ok. apply bind_same. intros [] [db2 g2] E2%UseGas_ok.
  cbn [fst] in *. rewrite E1 in E2. subst db2. unfold bind, on_state, gets. rewrite Ma, Mb. cbn [negb]. apply IH; [by injection L|done].
Qed.

Lemma check_voters_same uhash s1 s2 db g :
  length s1 = length s2 -> Forall (signed_by_witness db uhash) s1 -> Forall (signed_by_witness db uhash) s2 ->
  check_voters uhash s1 (db, g) = check_voters uhash s2 (db, g).
Proof.
  intros L F1 F2. revert s2 g L F2. induction F1 as [|x s1 (a & Ea & Ma) F1 IH]; intros [|y s2] g L F2; try done.
  apply list.Forall_cons in F2 as [(b & Eb & Mb) F2]. cbn [check_voters]. rewrite Ea, Eb.
  apply bind_same. intros [] [db2 g2] E2%UseGas_ok. cbn [fst] in *. subst db2.
  unfold bind, on_state, gets. rewrite Ma, Mb. cbn [negb]. apply IH; [by injection L|done].
Qed.

Definition with_signs (votes : list WitenssVote) (signs : list bytes) (i : ReplaceWitnessExecuteInput) : ReplaceWitnessExecuteInput :=
  mkReplace (rp_Chain i) (rp_ApplyNumber i) (rp_ApplyUHash i) (rp_Choose i) votes signs.
Definition choice (i : ReplaceWitnessExecuteInput) (sign : bytes) : SignHelper :=
  choose_helper (mkChoose (rp_Chain i) (rp_ApplyNumber i) (rp_ApplyUHash i) (rp_Choose i) sign).

(** C27: The exchange of a chain's witnesses goes through only while it is under
    way for the number it was applied for, on a unit that is the genesis or comes
    with at least as many votes as decide on the chain, every vote recovered to an
    account with a witness' record, and with at least as many signatures as decide
    on the system chain, every one recovered to an account that
    [IsMainSystemWitness] answers yes for.  That is all the lists show: neither
    the voters nor the signers are asked to differ, so that any lists of the same
    lengths, one vote and one signature repeated for instance, are answered alike
    (and [IsMainSystemWitness] also answers yes for some witnesses that were
    removed). *)
Theorem handleReplaceWitnessExec_needs c info db g :
  (forall w, handleReplaceWitnessExec c info (db, g) = (Ok tt, w) ->
     GetChainStatus (rp_Chain info) db = (ChainStatusWitnessReplaceUnderway, rp_ApplyNumber info) /\
     (if Height (rp_Choose info) =? 0 then id_Hash (rp_Choose info) = Proposal.GenesisHash
      else Validators.GetChainMinVoting (rp_Chain info) <= Z.of_nat (length (UnitVoterSigns info))) /\
     Forall (signed_by_witness db (id_Hash (rp_Choose info))) (UnitVoterSigns info) /\
     Validators.GetChainMinVoting SCAccount <= Z.of_nat (length (ChooseVoteSign info)) /\
     Forall (signed_by_main db (choice info)) (ChooseVoteSign info)) /\
  (forall votes signs,
     Forall (signed_by_main db (choice info)) (ChooseVoteSign info) -> Forall (signed_by_main db (choice info)) signs ->
     Forall (signed_by_witness db (id_Hash (rp_Choose info))) (UnitVoterSigns info) -> Forall (signed_by_witness db (id_Hash (rp_Choose info))) votes ->
     length signs = length (ChooseVoteSign info) -> length votes = length (UnitVoterSigns info) ->
     handleReplaceWitnessExec c (with_signs votes signs info) (db, g) = handleReplaceWitnessExec c info (db, g)).
Proof.
  split.
  - intros w E. unfold handleReplaceWitnessExec in E. apply bind_ok in E as ([] & w1 & E1%UseGas_ok & E).
    apply bind_ok in E as ([] & w2 & E2 & E). assert (w2 = w1 /\ 
      (if Height (rp_Choose info) =? 0 then id_Hash (rp_Choose info) = Proposal.GenesisHash
       else Validators.GetChainMinVoting (rp_Chain info) <= Z.of_nat (length (UnitVoterSigns info)))) as [-> G].
    { destruct (Height (rp_Choose info) =? 0).
      - destruct (Z.eqb_spec (id_Hash (rp_Choose info)) Proposal.GenesisHash); [|done]. by injection E2 as <-.
      - destruct (Z.ltb_spec (Z.of_nat (length (UnitVoterSigns info))) (Validators.GetChainMinVoting (rp_Chain info))); [done|]. by injection E2 as <-. }
    destruct (Z.ltb_spec (Z.of_nat (length (ChooseVoteSign info))) (Validators.GetChainMinVoting SCAccount)) as [|Hs]; [done|].
    apply bind_ok in E as ([] & w3 & E3%UseGas_ok & E). apply bind_ok in E as ([st n] & w4 & [Est ->]%gets_ok & E).
    destruct (Z.eqb_spec st ChainStatusWitnessReplaceUnderway) as [->|]; cbn [negb] in E; [|done].
    destruct (Z.eqb_spec (rp_ApplyNumber info) n) as [<-|]; cbn [negb] in E; [|done].
    apply bind_ok in E as ([] & w5 & [F5 E5]%check_choosers_ok & E). apply bind_ok in E as ([] & w6 & E6 & E).
    assert (w6 = w5) as -> by (destruct (negb _); [destruct (_ && _); [done|]|]; by injection E6 as <-).
    apply bind_ok in E as ([] & w7 & [F7 _]%check_voters_ok & _).
    assert (fst w3 = db) as Ew by (by rewrite E3, E1). rewrite E5 in F7. rewrite Ew in *. by split_and!.
  - intros votes signs F1 F2 G1 G2 L Lv. unfold handleReplaceWitnessExec, with_signs. cbn [rp_Chain rp_ApplyNumber rp_ApplyUHash rp_Choose UnitVoterSigns ChooseVoteSign].
    rewrite L, Lv. apply bind_same. intros [] w1 E1%UseGas_ok. apply bind_same. intros [] w2 E2.
    assert (w2 = w1) as -> by (destruct (_ =? 0); [destruct (negb _)|destruct (_ <? _)]; first [done|by injection E2 as <-]).
    destruct (Z.of_nat (length (ChooseVoteSign info)) <? _); [done|]. apply bind_same. intros [] w3 E3%UseGas_ok. apply bind_same. intros [st n] w4 [_ ->]%gets_ok.
    destruct (negb (st =? _)); [done|]. destruct (negb (rp_ApplyNumber info =? _)); [done|]. destruct w3 as [db3 g3].
    assert (db3 = db) as -> by (cbn [fst] in *; by rewrite E3, E1).
    etransitivity; [apply bind_left; apply (check_choosers_same _ signs (ChooseVoteSign info)); [done..]|].
    apply bind_same. intros [] w5 [_ E5]%check_choosers_ok. apply bind_same. intros [] w6 E6.
    assert (w6 = w5) as -> by (revert E6; clear; repeat case_match; by intros [= <-] || by intros [=]).
    destruct w5 as [db5 g5]. cbn [fst] in E5. subst db5.
    apply bind_left. by apply check_voters_same.
Qed.

End Exchange.
End Judge.
