(* ===== verification/ScTrial.v ===== *)
(** A system contract in memory: the hypotheses of the theorems on sets,
    counts, groups and the register of witnesses hold of it.

    Proposals, votes, campaigns, fees, signatures, reports and arbitration on
    the contract in memory: the hypotheses of their theorems hold of it. *)
From stdpp Require Import gmap list countable.
From S2P Require Import Prelude Bech32 Address EvmWord EvmState BftTypes BftValidators StateDb GoSort ScStore ScSets Signing ScGroup ScHeart ScWitness ScDuty ScMembers ScRegroup ScJoin ScChains ScFrame ScRegistry ScProposal ScVotes ScSealed ScTally ScCampaign ScSettle ScFees ScReport ScJudge.

Import Db Store Sets Address Group Heart Witness Duty Members Frame Regroup Join Chains Registry.

Module ScDemo.

(** ** Storage and hashes *)

Record demo := mkDemo {
  slots : gmap Z Z;
  logs : list (Z * bytes);
  balances : gmap Address Z;
  big : gmap Z bytes
}.

#[export] Instance demo_storage : Storage demo := {
  load k d := default 0 (slots d !! k);
  save k v d := mkDemo (<[k := v]> (slots d)) (logs d) (balances d) (big d)
}.
#[export] Instance demo_storage_ok : StorageOk demo demo_storage.
Proof.
  refine {| storage_ok := fun _ => True |}; [done|]. intros k v d k' _. cbn. destruct (decide (k' = k)) as [->|N].
  - by rewrite lookup_insert_eq.
  - by rewrite lookup_insert_ne.
Defined.

#[export] Instance demo_events : Events demo := {
  Pack _ _ := Some [];
  Id e := match e with WitnessGroupChangedEvent => 1 | ChainStatusChangedEvent => 2 | UserWitnessChangeEvent => 3
          | WitnessChangeEvent => 4
          | ProposalChangeEvent => 5 | ProposalVoteEvent => 6 | ChainArbitrationEvent => 7 | ChainArbitrationEndEvent => 8 end;
  AddLog t d s := mkDemo (slots s) (logs s ++ [(t, d)]) (balances s) (big s)
}.
#[export] Instance demo_events_ok : EventsOk demo demo_storage demo_storage_ok demo_events.
Proof. by split. Defined.

Definition balance (a : Address) (d : demo) : Z := default 0 (balances d !! a).
#[export] Instance demo_ledger : Ledger demo := {
  GetBalance := balance;
  AddBalance a n d := mkDemo (slots d) (logs d) (<[a := balance a d + n]> (balances d)) (big d);
  SubBalance a n d := mkDemo (slots d) (logs d) (<[a := balance a d - n]> (balances d)) (big d);
  GetBigData k d := match big d !! k with Some v => Ok v | None => Err ErrStateNotFind end;
  SetBigData k v d := mkDemo (slots d) (logs d) (balances d) (<[k := v]> (big d))
}.
#[export] Instance demo_ledger_ok : LedgerOk demo demo_storage demo_storage_ok demo_ledger.
Proof. split; try done. intros k d _. cbn. by destruct (big d !! k). Defined.

(** What [rlp] encodes, as a tree of a countable type. *)
Fixpoint to_tree (v : rlp_value) : gen_tree bytes :=
  match v with
  | Str b => GenLeaf b
  | Lst l => GenNode 0 (map to_tree l)
  end.
Fixpoint of_tree (t : gen_tree bytes) : rlp_value :=
  match t with
  | GenLeaf b => Str b
  | GenNode _ l => Lst (map of_tree l)
  end.

Lemma of_to_tree v : of_tree (to_tree v) = v.
Proof.
  revert v. fix IH 1. intros [b|l]; [done|]. cbn. f_equal.
  induction l as [|v l IHl]; [done|]. cbn. by rewrite IH, IHl.
Qed.

#[export] Instance demo_codec : ScCodec := {
  SafeHash256 l := 2 ^ 256 + Zpos (encode (map to_tree l))
}.
#[export] Instance demo_codec_ok : ScCodecOk demo_codec.
Proof.
  split. intros x y E. assert (Zpos (encode (map to_tree x)) = Zpos (encode (map to_tree y))) as E' by (cbn -[encode Z.pow] in E; lia).
  injection E' as E'%(inj encode). rewrite <- (map_id x), <- (map_id y).
  assert (forall l, map of_tree (map to_tree l) = l) as H.
  { intros l. induction l as [|v l IH]; [done|]. cbn. by rewrite of_to_tree, IH. }
  rewrite <- (H x), <- (H y). by rewrite E'.
Qed.

Lemma demo_count_fresh : forall x, SafeHash256 x <> PrefixWitnessGroupCount.
Proof.
  intros x E. assert (PrefixWitnessGroupCount < 2 ^ 256) as H by (vm_compute; done). rewrite <- E in H.
  cbn -[encode Z.pow] in H. lia.
Qed.

#[export] Instance demo_params : Params := { SCAccount := hash_address 1 }.
#[export] Instance demo_names : Names := { FoundationAccount := hash_address 2; PublicPrivateKeyAddr := hash_address 3 }.

Definition empty : demo := mkDemo ∅ [] ∅ ∅.

Lemma empty_load k : load k empty = 0.
Proof. cbn. by rewrite lookup_empty. Qed.

Lemma empty_holds s : holds s empty [].
Proof.
  split; try done; try constructor; try (intros; by rewrite empty_load).
Qed.

Lemma empty_groups : groups empty [[]].
Proof.
  split; try done.
  - cbn. lia.
  - intros i Hi. replace (default [] ([[]] !! Z.to_nat i)) with (@nil Hash) by (by destruct (Z.to_nat i) as [|[]]).
    apply empty_holds.
  - intros g x ->%list_elem_of_singleton Hx. set_solver.
  - constructor.
  - intros i g Hi E. by destruct i as [|[]]; [lia| |].
Qed.

Lemma empty_registry : registry empty [[]] [].
Proof.
  split; [apply empty_groups|apply empty_holds|..].
  - intros x Hx. rewrite empty_load. split; [done|]. set_solver.
  - intros x Hx _. apply empty_load.
  - intros i g x E Hx. destruct i as [|[]]; [injection E as <-|done..]. set_solver.
  - set_solver.
  - by rewrite empty_load.
Qed.

Definition alice : Address := hash_address 1000.
Lemma alice_valid : valid_address alice.
Proof. apply hash_address_valid. lia. Qed.
Lemma alice_member : member alice = 1000.
Proof. apply member_hash_address. lia. Qed.

(** ** The states of the witnesses *)

Lemma sets_witness :
  holds [uint 5] empty [] /\
  (Len [uint 5] empty = 0 /\ elements [uint 5] empty = []).
Proof.
  split; [apply empty_holds|].
  destruct (StateSet_refines [uint 5] empty [] (empty_holds _)) as (H & _). exact H.
Defined.

Lemma periods_witness :
  let c := safeAdd (getCount (str "council") 3 empty) 7 in
  getCount (str "council") 3 (updateCount (str "council") 3 c empty) =
  (if c =? 0 then if 3 <=? 1 then 0 else getCount (str "council") (3 - 1) empty else c).
Proof.
  assert (forall q, getCount (str "council") q empty = 0) as E0.
  { intros q. unfold getCount. generalize (Z.to_nat q). intros n. revert q.
    induction n as [|n IH]; intros q; cbn [get_count]; unfold GetSub; rewrite empty_load; cbn [Z.eqb];
      destruct (q <=? 1); try done; apply IH. }
  apply (period_counts (str "council") 3 7 empty (g_ok _ _ empty_groups)); [lia|]. rewrite E0. by vm_compute.
Defined.

Lemma joining_witness : exists gp db', ApplyWitnessGroupOfUser alice empty = (Ok (Z.of_nat gp), db') /\ (0 < gp)%nat.
Proof.
  destruct (ApplyWitnessGroupOfUser_spec demo_count_fresh empty [[]] alice empty_groups alice_valid)
    as (gp & db' & E & H & _); [set_solver|cbn; lia|].
  by exists gp, db'.
Defined.





Lemma alice_apart x : is_address x -> x <> 1000 -> alice <> hash_address x.
Proof. intros W N E%(f_equal member). rewrite alice_member, member_hash_address in E by done. by apply N. Qed.




(** Alice has become a witness, of a user's group or of the system's. *)
Definition hired (isSys : bool) : demo := snd (applyWitness alice 1000 50 [7] isSys empty).

Lemma alice_checked : CheckMemberType alice empty = Ok tt.
Proof.
  unfold CheckMemberType. rewrite !bool_decide_false by (apply alice_apart; lia).
  unfold ExistWitness, ExistCounci, GetSub. by rewrite !empty_load.
Qed.

Lemma hired_registry isSys :
  exists gs, registry (hired isSys) gs [member alice] /\
    exists i g, gs !! i = Some g /\ member alice ∈ g /\ (isSys = true <-> i = 0%nat).
Proof.
  pose proof (applyWitness_lemma demo_count_fresh empty [[]] [] alice 1000 50 [7] isSys empty_registry alice_valid
    ltac:(cbn; lia) ltac:(cbn; lia)) as H. unfold hired.
  destruct (applyWitness alice 1000 50 [7] isSys empty) as [[[]|e] db']; cbn [snd].
  - destruct H as (_ & _ & _ & gs & R & _ & H). by exists gs.
  - destruct H as (_ & [[H _]|[H|(_ & _ & g & Eg & Hg)]]); [done|by rewrite alice_checked in H|].
    injection Eg as <-. cbn in Hg. lia.
Qed.

Lemma applying_witness : exists db' gs',
  applyWitness alice 1000 50 [7] true empty = (Ok tt, db') /\ registry db' gs' [member alice].
Proof.
  pose proof (applyWitness_spec demo_count_fresh empty [[]] [] alice 1000 50 [7] true empty_registry alice_valid
    ltac:(cbn; lia) ltac:(cbn; lia)) as H.
  destruct (applyWitness alice 1000 50 [7] true empty) as [[[]|e] db'].
  - destruct H as (_ & _ & _ & gs & R & _ & H). by exists db', gs.
  - exfalso. destruct H as (_ & [[H _]|[H|(_ & _ & g & Eg & Hg)]]); [done|by rewrite alice_checked in H|].
    injection Eg as <-. cbn in Hg. lia.
Defined.

Definition call (n : Z) : Ctx := mkCtx alice None alice n 0.

Lemma removal_witness : exists db' gs',
  removeWitness (call 60) alice false (hired true) = (Ok tt, db') /\ registry db' gs' [member alice] /\ member alice ∉ concat gs'.
Proof.
  destruct (hired_registry true) as (gs & R & i & g & Eg & Hg & Hi).
  pose proof (removeWitness_spec demo_count_fresh _ _ _ (call 60) alice false R alice_valid) as H.
  destruct (removeWitness (call 60) alice false (hired true)) as [[[]|e] db'].
  - destruct H as (j & h & k & gs' & _ & _ & R' & Pm & _). exists db', gs'. split_and!; [done..|].
    pose proof (g_once _ _ (rg_groups _ _ _ R)) as D. rewrite <- Pm in D. by apply list.NoDup_cons in D as [N _].
  - exfalso. destruct H as (_ & N & _). apply N. by apply (in_groups demo_count_fresh gs i g).
Defined.

Lemma former_witness : exists db',
  removeWitness (call 60) alice false (hired true) = (Ok tt, db') /\ IsMainSystemWitness alice db' = true.
Proof.
  destruct (hired_registry true) as (gs & R & i & g & Eg & Hg & Hi). rewrite (proj1 Hi eq_refl) in Eg.
  pose proof (former_system_witness_is_main demo_count_fresh _ _ _ (call 60) alice false g R alice_valid Eg Hg) as H.
  destruct (removeWitness (call 60) alice false (hired true)) as [res db']. destruct H as (-> & _ & _ & H). by exists db'.
Defined.

Lemma expelled_witness : exists db',
  handleRemoveTimeout (call 200000) [alice] (hired false) = (Ok tt, db') /\ GetWitnessStatus alice db' = (WitnessLoggedOut, true).
Proof.
  destruct (hired_registry false) as (gs & R & i & g & Eg & Hg & Hi).
  assert (0 < i)%nat as Hpos by (destruct i; [discriminate (proj2 Hi eq_refl)|lia]).
  pose proof (witness_expelled_despite_heartbeats demo_count_fresh _ _ _ (call 200000) alice i g R alice_valid Hpos Eg Hg
    eq_refl ltac:(vm_compute; reflexivity) ltac:(vm_compute; reflexivity)) as H.
  destruct (handleRemoveTimeout (call 200000) [alice] (hired false)) as [res db']. destruct H as (-> & H & _). by exists db'.
Defined.
End ScDemo.


Import Db Store Sets Address Group Heart Witness Duty Members Frame Registry Proposal Ballot Votes Quiet Sealed Tally Opening Campaigns Settle Fees ScDemo.

Module Trial.

(** ** Sorting and the chains *)

Section Insertion.
Context {A : Type} (less : A -> A -> bool).
Fixpoint insert_by (x : A) (l : list A) : list A :=
  match l with
  | [] => [x]
  | y :: l' => if less y x then y :: insert_by x l' else x :: l
  end.
Lemma insert_by_Permutation x l : insert_by x l ≡ₚ x :: l.
Proof.
  induction l as [|y l IH]; cbn; [done|]. destruct (less y x); [|done]. rewrite IH. apply Permutation_swap.
Qed.
Lemma insert_by_sorted x l :
  weak_order less -> Sorted.StronglySorted (fun x y => less y x = false) l ->
  Sorted.StronglySorted (fun x y => less y x = false) (insert_by x l).
Proof.
  intros (Hi & Ht & Hc). induction 1 as [|y l S IH F]; cbn; [by repeat constructor|]. destruct (less y x) eqn:E.
  - constructor; [done|]. rewrite insert_by_Permutation. constructor; [|done].
    destruct (less x y) eqn:E2; [|done]. specialize (Ht _ _ _ E E2). by rewrite Hi in Ht.
  - repeat constructor; try done. eapply list.Forall_impl; [exact F|]. intros z Hz. cbn in Hz.
    destruct (less z x) eqn:E2; [|done]. destruct (Hc z x y E2); congruence.
Qed.
End Insertion.

#[export] Instance demo_sorting : Sorting := {| Sort A less := fold_right (insert_by less) [] |}.
#[export] Instance demo_sorting_ok : SortingOk demo_sorting.
Proof.
  split.
  - intros A less l. cbn. induction l as [|x l IH]; cbn; [done|]. by rewrite insert_by_Permutation, IH.
  - intros A less l W. cbn. induction l as [|x l IH]; cbn; [constructor|]. by apply insert_by_sorted.
Qed.

#[export] Instance demo_chain : ChainContext := {
  GetChainTailHash _ := 9;
  GenesisHash := 9;
  ChainBalance _ := 2 * Nts;
  GetHeaderByHash _ := None;
  GetUnitState _ := Err ErrPanic
}.
#[export] Instance demo_money : LedgerMoney demo demo_storage demo_events demo_ledger.
Proof.
  split; try done; intros a n db b; cbn; unfold balance; cbn; destruct (decide (b = a)) as [->|N].
  1,3: by rewrite lookup_insert_eq.
  all: rewrite lookup_insert_ne by done; lia.
Qed.

Lemma Ok_inj {E A} (a b : A) : (Ok a : result E A) = Ok b -> a = b.
Proof. congruence. Qed.

(** ** A proposal to change the configuration *)

Definition env (n : Z) : Env := mkEnv (mkCtx alice None alice n 0) 5 n false (Ok []) (fun _ => true) (fun _ => None).
Definition prop_id : Hash := 77.
Definition proposal (status : Z) : Proposal :=
  mkProposal prop_id ProposalTypeConfigChange 0 ConfigParamsLowestGasPrice 7 alice (hash_address 0) 1 2 0 status 3 20 10 0 0.

(** The proposal is listed, with what was voted on it. *)
Definition proposed_in (status : Z) (db : demo) : demo :=
  writeProposalInfo (proposal status)
    (save (item_key (proposal_item prop_id) nil_key) 1 (save (BytesToHash MinConfigPvoteAgreeKey) 1 db)).

Lemma demo_hash_large x : 2 ^ 256 < SafeHash256 x.
Proof. cbn -[encode Z.pow]. lia. Qed.

Lemma proposed_in_load status db z :
  (forall x, SafeHash256 z <> SafeHash256 (proposal_item prop_id ++ x)) ->
  load (SafeHash256 z) (proposed_in status db) = load (SafeHash256 z) db.
Proof.
  intros N. unfold proposed_in. set (db0 := save _ _ _).
  assert (storage_ok db0) as O by done. rewrite (k_load _ _ _ (proposal_keeps (proposal status) db0 O)) by exact N. unfold db0.
  rewrite !load_save by done. rewrite decide_False by apply N. rewrite decide_False; [done|].
  pose proof (demo_hash_large z). intros E. rewrite E in H. vm_compute in H. discriminate H.
Qed.

Lemma proposed_read status n :
  (status = ProposalStatusInApproval /\ n = 5) \/ (status = ProposalStatusInVoting /\ (n = 15 \/ n = 25)) ->
  forall db, GetProposalInfoByHash prop_id n (proposed_in status db) = Ok (set_current n (proposal status)).
Proof.
  intros Hs db. unfold GetProposalInfoByHash. fold (record_at prop_id n (proposed_in status db)).
  set (db0 := save (item_key (proposal_item prop_id) nil_key) 1 (save (BytesToHash MinConfigPvoteAgreeKey) 1 db)).
  assert (storage_ok db0) as O by done.
  assert (record_at prop_id n (proposed_in status db) = set_current n (proposal status)) as ->.
  { apply (record_written (proposal status) n db0 O). destruct Hs as [[-> _]|[-> _]]; by split. }
  assert (GetSub (proposal_item prop_id) nil_key (proposed_in status db) = 1) as ->.
  { unfold proposed_in. rewrite (proposal_listed (proposal status) db0 O). unfold GetSub, db0. rewrite load_save by done. by rewrite decide_True. }
  destruct Hs as [[-> ->]|[-> [-> | ->]]]; reflexivity.
Qed.

Lemma no_public_votes hash : public_votes empty hash [].
Proof.
  split; [|intros x v H; by apply not_elem_of_nil in H]. split; cbn [map]; try done; try constructor; intros; by rewrite ?empty_load.
Qed.

Lemma proposed_public status db vs : public_votes db prop_id vs -> public_votes (proposed_in status db) prop_id vs.
Proof.
  apply public_votes_same; [done|]. intros z. apply proposed_in_load. intros x E%SafeHash256_inj. cbn [app getPublicVoteItem proposal_item getProposalItem] in E.
  injection E as E _. vm_compute in E. discriminate E.
Qed.

Lemma alice_nonzero : member alice <> 0.
Proof. by rewrite alice_member. Qed.

Lemma vote_witness : exists db' g',
  handlePublicVote (env 15) prop_id true (proposed_in ProposalStatusInVoting empty, 50000) = (Ok tt, (db', g')) /\
  public_votes db' prop_id [(member alice, (2 * Nts, VotingResultAgree, 5))].
Proof.
  pose proof (handlePublicVote_spec (env 15) prop_id true (proposed_in ProposalStatusInVoting empty) [] 50000
    (proposed_public _ _ _ (no_public_votes _)) alice_valid alice_nonzero ltac:(cbn; lia)) as H.
  assert (forall n coin, getCoin (Caller (env 15)) n = Ok coin -> is_word coin) as W.
  { intros n coin E. vm_compute in E. apply Ok_inj in E as <-. clear H. lia. }
  specialize (H W). cbv zeta in H. rewrite proposed_read in H by auto.
  destruct (handlePublicVote (env 15) prop_id true _) as [[[]|er] [db' g']].
  - destruct H as (p & coin & _ & _ & E & _ & _ & _ & V & _). vm_compute in E. apply Ok_inj in E as <-.
    exists db', g'. split; [reflexivity|exact V].
  - exfalso. destruct H as (_ & [H|[H|[[er' H]|[H|(p & E & H)]]]]).
    + discriminate H.
    + lia.
    + discriminate H.
    + by apply not_elem_of_nil in H.
    + apply Ok_inj in E as <-. destruct H as [H|[er' H]]; [by apply H|]. vm_compute in H. discriminate H.
Defined.

(** Alice has voted. *)
Definition ballots : list (Hash * (Z * Z * Z)) := [(member alice, (2 * Nts, VotingResultAgree, 5))].
Definition voted_on : demo := addPublicVote prop_id (mkPublicVote alice (2 * Nts) VotingResultAgree 5) empty.

Lemma voted_votes : public_votes voted_on prop_id ballots.
Proof.
  apply (addPublicVote_spec empty prop_id [] alice (2 * Nts) VotingResultAgree 5 (no_public_votes _) alice_valid alice_nonzero);
    [apply not_elem_of_nil|cbn; lia|done..].
Qed.

Definition judged_state : demo := proposed_in ProposalStatusInVoting voted_on.

Lemma config_free x : SafeHash256 x <> BytesToHash ConfigParamsLowestGasPrice.
Proof. pose proof (demo_hash_large x) as H. intros E. rewrite E in H. vm_compute in H. discriminate H. Qed.

Lemma min_config : ReadConfig MinConfigPvoteAgreeKey judged_state = Ok 1.
Proof. vm_compute. reflexivity. Qed.

Lemma config_witness : exists db' g',
  SetConfigFinalize (env 25) prop_id (judged_state, 100000) = (Ok tt, (db', g')) /\
  ReadConfig ConfigParamsLowestGasPrice db' = Ok 7.
Proof.
  destruct (config_change_settled (env 25) prop_id judged_state 100000 (set_current 25 (proposal ProposalStatusInVoting)) ballots 1 config_free
    (proposed_public _ _ _ voted_votes) ltac:(by repeat constructor) (proposed_read _ 25 ltac:(auto) _)
    eq_refl eq_refl eq_refl min_config ltac:(lia)) as (db' & g' & E & _ & Ec & _).
  exists db', g'. split; [exact E|]. etransitivity; [exact Ec|]. vm_compute. reflexivity.
Defined.

Lemma settled_witness : exists db' g',
  SetConfigFinalize (env 25) prop_id (judged_state, 100000) = (Ok tt, (db', g')) /\
  refused db' (SetConfigFinalize (env 25) prop_id).
Proof.
  destruct (SetConfigFinalize (env 25) prop_id (judged_state, 100000)) as [[[]|er] [db' g']] eqn:E.
  - exists db', g'. split; [done|]. assert (storage_ok judged_state) as O by done.
    destruct (proposal_settled_once (env 25) prop_id judged_state 100000 db' g' O E) as (_ & _ & H).
    by destruct (H db' (env 25) true eq_refl eq_refl) as (H' & _).
  - exfalso. apply (f_equal (fun r => is_ok (fst r))) in E. vm_compute in E. discriminate E.
Defined.

(** ** A vote of the council *)

Definition asked_alice : demo :=
  writeCouncilVoteCount prop_id 1 (writeCouncilVoteInfo prop_id (mkCouncilVote alice VotingResultUnknown 0) 1 empty).
Definition council_db : demo :=
  proposed_in ProposalStatusInApproval
    (save (item_key (getCouncilInfoItem alice) (Str (str "status"))) CouncilStatusValid asked_alice).
Definition blank : list (Hash * (Z * Z)) := [(member alice, (VotingResultUnknown, 0))].

Lemma asked_votes : council_votes asked_alice prop_id blank.
Proof.
  assert (council_votes (writeCouncilVoteCount prop_id 0 empty) prop_id []) as V.
  { split; [|intros x v H; by apply not_elem_of_nil in H]. split; cbn [map]; try done; try constructor.
    intros x Hx _. unfold writeCouncilVoteCount. rewrite load_SaveSub, decide_False by (done || apart). apply empty_load. }
  apply (writeCouncilVoteInfo_spec empty prop_id [] alice VotingResultUnknown 0); [done|exact V|exact alice_valid|exact alice_nonzero|apply not_elem_of_nil|cbn; lia|done|done].
Qed.

Lemma council_votes_db : council_votes council_db prop_id blank.
Proof.
  apply (council_votes_same asked_alice); [done| |exact asked_votes]. intros z. unfold council_db.
  assert (forall x, SafeHash256 (getCouncilVoteItem prop_id ++ z) <> SafeHash256 (proposal_item prop_id ++ x)) as N.
  { intros x E%SafeHash256_inj. cbn [app getCouncilVoteItem proposal_item getProposalItem] in E. injection E as E _.
    vm_compute in E. discriminate E. }
  rewrite proposed_in_load by exact N. rewrite load_save by done. rewrite decide_False; [done|].
  intros E%SafeHash256_inj. cbn [app getCouncilVoteItem getCouncilInfoItem] in E. injection E as E _. vm_compute in E. discriminate E.
Qed.

Lemma council_witness : exists db' g',
  SetConfigApplyVote (env 5) prop_id true (council_db, 70000) = (Ok tt, (db', g')) /\
  council_votes db' prop_id [(member alice, (VotingResultAgree, 5))].
Proof.
  pose proof (council_vote_decides (env 5) prop_id true council_db blank 70000 council_votes_db ltac:(done) alice_valid) as H.
  assert (forall p, GetProposalInfoByHash prop_id (unit_number (env 5)) council_db = Ok p -> fit p) as F.
  { intros p E. unfold council_db in E. rewrite proposed_read in E by auto. apply Ok_inj in E as <-.
    clear H. split; [by split|vm_compute; reflexivity]. }
  specialize (H F). clear F. cbv zeta in H.
  destruct (SetConfigApplyVote (env 5) prop_id true (council_db, 70000)) as [[[]|er] [db' g']] eqn:E.
  - destruct H as (p & _ & _ & _ & _ & V & _). exists db', g'. split; [reflexivity|exact V].
  - exfalso. apply (f_equal (fun r => is_ok (fst r))) in E. vm_compute in E. discriminate E.
Defined.

(** ** A proposal is made *)

Definition chamber : demo := save (BytesToHash SysWitnessCapKey) 5 (add_to getCouncilItem alice empty).

Lemma chamber_added :
  holds getCouncilItem (add_to getCouncilItem alice empty) [member alice] /\ only getCouncilItem empty (add_to getCouncilItem alice empty).
Proof.
  destruct (SetAdd_spec getCouncilItem empty [] (VAddress alice) (empty_holds _)) as (_ & H & On); [| | |by split].
  - apply not_elem_of_nil.
  - destruct (member_value alice alice_valid) as [_ W]. unfold member in W. lia.
  - cbn. lia.
Qed.

Lemma chamber_load x : load (SafeHash256 x) chamber = load (SafeHash256 x) (add_to getCouncilItem alice empty).
Proof.
  unfold chamber. rewrite load_save by done. rewrite decide_False; [done|]. intros E. pose proof (demo_hash_large x) as L.
  rewrite E in L. vm_compute in L. discriminate L.
Qed.

Lemma chamber_council : holds getCouncilItem chamber [member alice].
Proof.
  apply (holds_ext _ (add_to getCouncilItem alice empty)); [done| |apply chamber_added]. intros k (y & ->)%owned_sub. apply chamber_load.
Qed.

Lemma chamber_fresh hash z : load (SafeHash256 (getCouncilVoteItem hash ++ z)) chamber = 0.
Proof.
  rewrite chamber_load, (on_load _ _ _ (proj2 chamber_added)); [apply empty_load|].
  intros (y & E)%owned_sub. apply SafeHash256_inj in E. unfold getCouncilVoteItem, getCouncilItem in E. cbn [app] in E.
  injection E as E _. vm_compute in E. discriminate E.
Qed.

Lemma opening_witness : exists id db' g',
  SetConfigApply (env 5) SysWitnessCapKey 9 (chamber, 200000) = (Ok id, (db', g')) /\
  council_votes db' id [(member alice, (VotingResultUnknown, 0))].
Proof.
  assert (Forall (fun x => 0 < x < 2 ^ 160) [member alice]) as F by (rewrite alice_member; repeat constructor; lia).
  assert (trim_zeros (hash_bytes (BytesToHash SysWitnessCapKey)) = SysWitnessCapKey) as K by (vm_compute; reflexivity).
  assert (0 <= getProposalCount chamber < 2 ^ 64 - 1) as Hc.
  { assert (getProposalCount chamber = 0) as ->; [vm_compute; reflexivity|lia]. }
  pose proof (SetConfigApply_spec (env 5) SysWitnessCapKey 9 chamber 200000 [member alice] chamber_council F
    (chamber_fresh _) Hc K ltac:(lia)) as H. clear F K Hc.
  destruct (SetConfigApply (env 5) SysWitnessCapKey 9 (chamber, 200000)) as [[id|er] [db' g']] eqn:E.
  - destruct H as (-> & _ & _ & _ & _ & _ & _ & _ & V & _). exists (getProposalId chamber), db', g'. split; [reflexivity|exact V].
  - exfalso. apply (f_equal (fun r => is_ok (fst r))) in E. vm_compute in E. discriminate E.
Defined.

(** ** A campaign *)

Definition bob : Address := hash_address 2000.
Definition bids : list Campaign := [mkCampaign alice 700 1 [7]; mkCampaign bob 900 2 [8]].

Lemma bids_valid : Forall (fun c => valid_address (c_Address c)) bids.
Proof.
  apply list.Forall_cons. split; [exact alice_valid|]. apply list.Forall_cons. split; [|constructor]. apply hash_address_valid. lia.
Qed.

Lemma campaign_witness : exists failed hired refused loser db' gs',
  settle_campaign (env 25) 1 bids empty = (Ok failed, db') /\ registry db' gs' (members hired) /\
  length (hired ++ refused) = 1%nat /\ paid (refused ++ loser) empty db'.
Proof.
  destruct (settle_campaign_spec demo_count_fresh (env 25) 1 bids empty [[]] [] empty_registry bids_valid ltac:(lia) ltac:(cbn; lia) ltac:(cbn; lia))
    as (hired & refused & loser & db' & gs' & E & _ & L & _ & R & _ & Pd).
  eexists _, hired, refused, loser, db', gs'. split; [exact E|]. split; [exact R|]. split; [|exact Pd].
  change (Z.min 1 (Z.of_nat (length bids))) with 1 in L. clear E R Pd. lia.
Defined.

(** ** Fees *)

Definition encode_work (i : WorkInfo) : bytes :=
  [if IsSys i then 1 else 0; Votes i; CreateUnits i; VotedTxs i; ShouldVote i; Fee i; VotedLastUnit i].
#[export] Instance demo_work : WorkCodec := {
  EncodeWork i := if Fee i <? 0 then None else Some (encode_work i);
  DecodeWork d :=
    match d with
    | [b; v; c; t; s; f; h] => Some (mkWork (b =? 1) v c t s f h)
    | _ => None
    end
}.
#[export] Instance demo_work_ok : WorkCodecOk demo_work.
Proof.
  split.
  - intros i H. cbn. by rewrite (proj2 (Z.ltb_lt _ _)).
  - intros [b v c t s f h] (_ & _ & _ & _ & H & _). cbn in H |- *. rewrite (proj2 (Z.ltb_ge _ _)) by done.
    eexists. split_and!; [reflexivity|done|]. by destruct b.
Qed.

Definition unit_of (n : Z) : Unit := mkUnit bob n 55 1 0 1000 alice [] (Ok [alice]).

Lemma no_reports : reports_ok ∅.
Proof. intros p w _. exists None. split; [|done]. reflexivity. Qed.

Lemma work_fee_witness : exists work', writeWorkFee (unit_of 6721) [alice] 30 ∅ = Ok work' /\ fee work' 2 alice = 30.
Proof.
  destruct (writeWorkFee_spec (unit_of 6721) [alice] [alice] 30 ∅ no_reports ltac:(lia) ltac:(cbn; lia) ltac:(by vm_compute)
    ltac:(by vm_compute) eq_refl) as (work' & E & _ & _ & F & _).
  { intros w w' Hw Hw' _. cbn in Hw, Hw'. set_solver. }
  exists work'. split; [exact E|]. rewrite (F 2 alice ltac:(lia)). vm_compute. reflexivity.
Defined.

Lemma periods_witness' : GetSettlePeriod 6721 = 2 <-> 6721 <= 6721 <= 13440.
Proof. exact (periods_partition 6721 2 ltac:(lia) ltac:(lia)). Defined.

(** The second period's report of Alice. *)
Definition reported : kv := Put (getSettlementPeriodLogKey 2 alice) (encode_work (mkWork false 1 1 0 1 30 55)) ∅.
Lemma reported_ok : reports_ok reported.
Proof.
  intros p w Hp. unfold GetWitnessPeriodWorkReport, Get, reported.
  destruct (decide (getSettlementPeriodLogKey 2 alice = getSettlementPeriodLogKey p w)) as [<-|N].
  - rewrite Put_same. cbn. eexists. split; [reflexivity|]. unfold storable. cbn. lia.
  - rewrite Put_other by done. exists None. split; [|done]. reflexivity.
Qed.

Definition paying : Ctx := mkCtx alice None alice (4 * 6720 + 2) 0.

Lemma payment_witness : exists db' g',
  Settlement paying reported (hired false, 100000) = (Ok tt, (db', g')) /\
  GetBalance alice db' = GetBalance alice (hired false) + 30.
Proof.
  assert (storage_ok (hired false)) as O by done.
  pose proof (Settlement_spec paying reported (hired false) 100000 O reported_ok ltac:(vm_compute; by split)) as H.
  destruct (Settlement paying reported (hired false, 100000)) as [[[]|er] [db' g']] eqn:E.
  - exists db', g'. split; [reflexivity|]. destruct H as (_ & _ & _ & H & _). etransitivity; [exact (H alice)|]. vm_compute. reflexivity.
  - exfalso. apply (f_equal (fun r => is_ok (fst r))) in E. vm_compute in E. discriminate E.
Defined.

End Trial.

(** * Signatures, reports and arbitration *)

Import Db Store Sets Address Signing Group Heart Witness Duty Members ScDemo Trial Report Judge.

Module Court.

(** Keys are numbers; a signature shows the number of its key. *)
Definition the_key (k : Z) : Z := k mod 2000.
#[export] Instance demo_btcec : Btcec := {
  PrivateKey := Z; PublicKey := Z; PubKey := the_key;
  SignCompact k _ := Some (27 :: be_bytes 32 1 ++ be_bytes 32 (1 + the_key k));
  RecoverCompact sig _ := Some (be_value (take 32 (drop 33 sig)) - 1);
  SerializeUncompressed p := [4; p];
  SerializeCompressed p := [p];
  btcec_ParsePubKey b := match b with [_; p] => Some p | _ => None end;
  Hash160 b := be_bytes 20 (hd 0 b)
}.
#[export] Instance demo_btcec_ok : BtcecOk demo_btcec.
Proof.
  split; try done.
  - intros k h sig E. assert (sig = 27 :: be_bytes 32 1 ++ be_bytes 32 (1 + the_key k)) as -> by (apply (f_equal (default [])) in E; exact (eq_sym E)). clear E.
    pose proof (Z.mod_pos_bound k 2000 ltac:(lia)) as Hk. fold (the_key k) in Hk.
    set (n := the_key k) in *. assert (be_value (take 32 (be_bytes 32 (1 + n))) = 1 + n) as E2.
    { rewrite take_ge by (by rewrite length_be_bytes). rewrite be_value_be_bytes. apply Z.mod_small. lia. }
    assert (take 32 (drop 1 (27 :: be_bytes 32 1 ++ be_bytes 32 (1 + n))) = be_bytes 32 1) as E1 by reflexivity.
    assert (drop 33 (27 :: be_bytes 32 1 ++ be_bytes 32 (1 + n)) = be_bytes 32 (1 + n)) as E3 by reflexivity.
    split_and!.
    + reflexivity.
    + apply list.Forall_cons. split; [lia|]. apply Forall_app. split; apply be_bytes_range.
    + cbn. lia.
    + cbn. lia.
    + rewrite E1. by vm_compute.
    + rewrite E1. by vm_compute.
    + rewrite E3, E2. lia.
    + rewrite E3, E2. assert (2000 <= secp256k1_halfN) by by vm_compute. lia.
    + cbn [RecoverCompact demo_btcec]. rewrite E3, E2. f_equal. unfold PubKey. cbn. fold n. lia.
  - intros p. cbn. split; [done|lia].
Qed.

Definition key : @PrivateKey demo_btcec := 1000.
Definition nonce : SignHelper := mkHelper [uint 1; uint 2] [].

Lemma signing_witness : exists signed a,
  SignBySignHelper nonce (NewSigner (Some 1)) key = Ok signed /\ Sender (NewSigner (Some 1)) signed = Ok a /\ member a = 1000.
Proof.
  destruct (SignBySignHelper_Sender 1 nonce key (27 :: be_bytes 32 1 ++ be_bytes 32 1001) alice
    ltac:(lia) eq_refl ltac:(cbn; lia) ltac:(vm_compute; reflexivity)) as (signed & E & _ & S & _).
  exists signed, alice. split_and!; [exact E|exact S|exact alice_member].
Defined.

(** ** Two units at one height *)

Definition header (time : Z) : Header := mkHeader alice 5 0 9 1 alice 0 0 0 [] 0 0 time.
Definition sig_of (p : Z) : bytes := be_bytes 32 1 ++ be_bytes 32 (1 + p) ++ [37].
Definition votes_of (first : Z) : list WitenssVote := map (fun p => mkVote [] (sig_of p)) (seqZ first 8).
Definition two_units : list AffectedUnit := [mkAffected (header 1) (votes_of 101); mkAffected (header 2) (votes_of 104)].
Definition judged : result proof_error (list Address) :=
  CheckProofWithState (NewSigner (Some 1)) (fun _ => Ok empty) (fun _ _ => Ok tt) two_units.

Lemma judged_ok : match judged with Ok l => map member l | Err _ => [] end = seqZ 101 11.
Proof. vm_compute. reflexivity. Qed.

(** The first voter voted for one unit only. *)
Lemma proof_witness : exists bads, judged = Ok bads /\ (exists a, a ∈ bads /\ member a = 101) /\ NoDup bads.
Proof.
  pose proof judged_ok as J. destruct judged as [bads|e] eqn:E; [|discriminate J]. unfold judged in E.
  destruct (CheckProofWithState_spec (NewSigner (Some 1)) (fun _ => Ok empty) (fun _ _ => Ok tt) two_units bads E)
    as (mc & number & _ & _ & _ & _ & D & _).
  exists bads. split; [reflexivity|]. split; [|exact D]. assert (101 ∈ map member bads) as H by (rewrite J; apply elem_of_seqZ; lia).
  apply list_elem_of_fmap in H as (a & Ea & Ha). exists a. split; [exact Ha|exact (eq_sym Ea)].
Defined.

(** Two units with voters of which none voted for both: all are accused. *)
Example strangers_accused :
  match CheckProofWithState (NewSigner (Some 1)) (fun _ => Ok empty) (fun _ _ => Ok tt)
    [mkAffected (header 1) (votes_of 101); mkAffected (header 2) (votes_of 201)] with
  | Ok l => map member l = seqZ 101 8 ++ seqZ 201 8
  | Err _ => False
  end.
Proof. vm_compute. reflexivity. Qed.

(** ** An arbitration *)

(** Hashes for which the header's hash is a word: 7. *)
Definition number_of (l : list rlp_value) : Z := Zpos (encode (map to_tree l)).
Definition the_header : Header := header 1.
Definition court_codec : ScCodec := {|
  SafeHash256 l := if number_of l =? number_of [header_value the_header] then 7 else SafeHash256 l
|}.
Lemma court_codec_ok : ScCodecOk court_codec.
Proof.
  split. intros x y E. cbn -[number_of demo_codec header_value the_header] in E. pose proof (demo_hash_large x) as Hx. pose proof (demo_hash_large y) as Hy.
  assert (forall l, SafeHash256 (ScCodec := demo_codec) l = 2 ^ 256 + number_of l) as D by reflexivity.
  destruct (Z.eqb_spec (number_of x) (number_of [header_value the_header])) as [Ex|Nx],
    (Z.eqb_spec (number_of y) (number_of [header_value the_header])) as [Ey|Ny]; [|lia|lia|];
    apply (SafeHash256_inj (ScCodecOk := demo_codec_ok)); rewrite !D in *; lia.
Qed.
Definition court_empty_holds (s : StateSet) : @holds demo demo_storage demo_storage_ok court_codec s empty [].
Proof. split; try done; try constructor; try (intros; by rewrite empty_load). Qed.

Lemma the_hash : @ID court_codec the_header = mkUnitID alice 5 7.
Proof. unfold ID, Header_Hash. cbn -[number_of header_value the_header]. by rewrite Z.eqb_refl. Qed.

Lemma the_height : 5 <> clash.
Proof. by vm_compute. Qed.

Lemma court_opens : exists db,
  @writeArbitrationNumberFlag demo demo_storage court_codec demo_events alice 5 empty = (Ok tt, db) /\
  @arbitrates demo demo_storage demo_storage_ok court_codec demo_params alice 5 db (mkTally [] None).
Proof.
  apply (@arbitration_opens demo demo_storage demo_storage_ok court_codec court_codec_ok demo_events demo_events_ok demo_params alice 5
    ltac:(lia) ltac:(lia) the_height empty []).
  - split; intros; [apply court_empty_holds..|]. apply empty_load.
  - constructor.
  - constructor.
Qed.

Lemma arbitration_witness : exists db db',
  @arbitrationVote demo demo_storage court_codec demo_events demo_params the_header alice db = (Ok tt, db') /\
  @arbitrates demo demo_storage demo_storage_ok court_codec demo_params alice 5 db'
    (cast (Validators.GetChainMinVoting alice) (mkTally [] None) (member alice) 7).
Proof.
  destruct court_opens as (db & _ & A).
  destruct (@arbitrationVote_elects demo demo_storage demo_storage_ok court_codec court_codec_ok demo_events demo_events_ok demo_params alice 5
    ltac:(lia) ltac:(lia) the_height db (mkTally [] None) the_header alice 7 A alice_valid the_hash eq_refl ltac:(lia) ltac:(lia) ltac:(cbn; lia))
    as (db' & E & A').
  exists db, db'. split; [exact E|exact A'].
Defined.

(** ** An exchange of witnesses *)

#[export] Instance demo_reports : ReportInputs := {
  UnPackReportDishonestInput _ := None;
  UnpackReplaceWitnessExecuteInput _ := None;
  ChainConfig_ChainId := Some 1
}.

(** The chain of Alice waits for a new group; the second group is ready. *)
Definition waiting : demo :=
  let db := WriteWitnessGroupCount 3 (hired true) in
  let db := fold_left (fun db p => add_to (GetWitnessSet 2) (hash_address p) db) (seqZ 2000 8) db in
  let item := chain_item alice in
  put item (str "apply_status") (VByte ChainStatusWitnessReplaceUnderway)
    (put item (str "apply_status_number") (VUint 5) (put item (str "group_index") (VUint 1) db)).

(** The signature of Alice, the only main witness, eight times. *)
Definition exchange : ReplaceWitnessExecuteInput :=
  mkReplace alice 5 0 (mkUnitID alice 0 9) [] (replicate 8 (sig_of 1000)).

Lemma exchanged : is_ok (fst (handleReplaceWitnessExec (call 60) exchange (waiting, 1000000))) = true.
Proof. vm_compute. reflexivity. Qed.

Lemma exchange_witness :
  (exists w, handleReplaceWitnessExec (call 60) exchange (waiting, 1000000) = (Ok tt, w)) /\
  GetChainStatus alice waiting = (ChainStatusWitnessReplaceUnderway, 5).
Proof.
  pose proof exchanged as X.
  destruct (handleReplaceWitnessExec (call 60) exchange (waiting, 1000000)) as [[[]|e] w] eqn:E; [|discriminate X].
  split; [exists w; reflexivity|].
  exact (proj1 (proj1 (handleReplaceWitnessExec_needs (call 60) exchange waiting 1000000) w E)).
Defined.

End Court.
