(* ===== verification/DagStore.v ===== *)
(** The database of units as the node sees it: the tables of
    [src/core/db_util.go] and [src/core/rawdb], a unit
    ([src/core/types/unit.go]), and what [DagChain] reads of it
    ([src/core/dagchain.go], [dag.go], [api_witness.go]).

    The caches of [DagChain] hold what the database holds and are left out; so
    are the indexes nothing here reads (time line, blooms, preimages). *)
From stdpp Require Import gmap list.
From S2P Require Import Prelude Bech32 Address EvmWord EvmAnalysis EvmState StateDb Bloom TxTransition TxProcess ScStore Signing ScGroup ScHeart ScWitness ScDuty ScSettle ScReport.

Import Db Transition Address Store Signing Report.

Module Dag.

(** ** Units *)

(** [u_sender] is whom [Sender] found before, empty if it was not asked. *)
Record Unit := mkUnit {
  u_header : Header; Transactions : list Process.TransactionExec; WitnessVotes : list WitenssVote; u_Sign : bytes; u_sender : Address
}.

Section Unit.
Context {C : ScCodec}.

Definition Hash_ (u : Unit) : Hash := Header_Hash (u_header u).
Definition IsBlackUnit {NM : Witness.Names} (u : Unit) : bool := Equal (Proposer (u_header u)) Witness.PublicPrivateKeyAddr.
(** The unit as a message that is signed. *)
Definition unit_helper (u : Unit) : SignHelper := mkHelper [hash_value (Hash_ u)] (u_Sign u).
End Unit.

(** ** The tables *)

Record TxStepExecStorage := mkStep { HaveTx : bool; ts_TxHash : Hash; ts_Action : TxAction; ts_PreStep : Process.UnitID }.
Record UnitBodyStorage := mkBodyStorage { Txs : list TxStepExecStorage; Voters : list WitenssVote; body_Sign : bytes }.
Record Body := mkBody { body_Txs : list Process.TransactionExec; body_Votes : list WitenssVote; b_Sign : bytes }.
Record TxStatusInfo := mkStatus { UnitHash : Hash; ti_Action : TxAction; ti_Failed : bool; TxExecIndex : Z }.
Record BadChainFlag := mkFlag { bf_Chain : Address; bf_Number : Z; FoundTimestamp : Z; ProofID : Hash }.

(** Two lawful units at one height ([ErrWitnessesDishonest]). *)
Record dishonest := mkDishonest {
  dis_Witness : Address; Bad : Header; BadVotes : list WitenssVote; Good : Header; GoodVotes : list WitenssVote
}.

(** What the node tells its other parts. *)
Inductive Event :=
| SyncFuture (h : Hash)
| SyncBad (h : Hash)
| SyncBeta (h : Hash)
| ChainEvent (h : Hash)
| FoundBadWitness (d : dishonest)
| SendProof (rep : list AffectedUnit)
| BadUnitEvent (chain : Address)
| ChainStatus (chain : Address) (start : bool)
| ChainActivate (chain : Address)
| MissingAncestors (chain : Address) (h : Hash)
| TxPre (t : Transaction)
| ReplayTxAction (t : Transaction).

Record Ledger (DB : Type) := mkLedger {
  headers : gmap Hash Header;
  stable : gmap (bytes * Z) Hash;
  tails : gmap bytes Hash;
  children : gmap Hash (list Hash);
  bodies : gmap (bytes * Hash * Z) UnitBodyStorage;
  originTxs : gmap (Hash * Z) (list Hash);
  txs : gmap Hash Transaction;
  statuses : gmap Hash (list TxStatusInfo);
  receipts : gmap (Hash * Z) (list Process.Receipt);
  states : gmap Hash DB;
  fees : Settle.kv;
  badUnitHashs : gset Hash;
  badUnits : gset Hash;
  arbitrating : gset bytes;
  arbitrated : gmap (bytes * Z) Hash;
  proofs : gmap Hash (list AffectedUnit);
  badChains : gmap bytes (list BadChainFlag);
  stoppedChains : gmap bytes (list Z);
  stoppedBy : gmap (bytes * Z) (list (Address * Z));
  posted : list Event
}.
Arguments mkLedger {DB}.
Arguments headers {DB}.
Arguments stable {DB}.
Arguments tails {DB}.
Arguments children {DB}.
Arguments bodies {DB}.
Arguments originTxs {DB}.
Arguments txs {DB}.
Arguments statuses {DB}.
Arguments receipts {DB}.
Arguments states {DB}.
Arguments fees {DB}.
Arguments badUnitHashs {DB}.
Arguments badUnits {DB}.
Arguments arbitrating {DB}.
Arguments arbitrated {DB}.
Arguments proofs {DB}.
Arguments badChains {DB}.
Arguments stoppedChains {DB}.
Arguments stoppedBy {DB}.
Arguments posted {DB}.

Definition set_headers {DB : Type} (f : gmap Hash Header -> gmap Hash Header) (l : Ledger DB) : Ledger DB :=
  mkLedger (f (headers l)) (stable l) (tails l) (children l) (bodies l) (originTxs l) (txs l) (statuses l) (receipts l) (states l) (fees l)
    (badUnitHashs l) (badUnits l) (arbitrating l) (arbitrated l) (proofs l) (badChains l) (stoppedChains l) (stoppedBy l) (posted l).
Definition set_stable {DB : Type} (f : gmap (bytes * Z) Hash -> gmap (bytes * Z) Hash) (l : Ledger DB) : Ledger DB :=
  mkLedger (headers l) (f (stable l)) (tails l) (children l) (bodies l) (originTxs l) (txs l) (statuses l) (receipts l) (states l) (fees l)
    (badUnitHashs l) (badUnits l) (arbitrating l) (arbitrated l) (proofs l) (badChains l) (stoppedChains l) (stoppedBy l) (posted l).
Definition set_tails {DB : Type} (f : gmap bytes Hash -> gmap bytes Hash) (l : Ledger DB) : Ledger DB :=
  mkLedger (headers l) (stable l) (f (tails l)) (children l) (bodies l) (originTxs l) (txs l) (statuses l) (receipts l) (states l) (fees l)
    (badUnitHashs l) (badUnits l) (arbitrating l) (arbitrated l) (proofs l) (badChains l) (stoppedChains l) (stoppedBy l) (posted l).
Definition set_children {DB : Type} (f : gmap Hash (list Hash) -> gmap Hash (list Hash)) (l : Ledger DB) : Ledger DB :=
  mkLedger (headers l) (stable l) (tails l) (f (children l)) (bodies l) (originTxs l) (txs l) (statuses l) (receipts l) (states l) (fees l)
    (badUnitHashs l) (badUnits l) (arbitrating l) (arbitrated l) (proofs l) (badChains l) (stoppedChains l) (stoppedBy l) (posted l).
Definition set_bodies {DB : Type} (f : gmap (bytes * Hash * Z) UnitBodyStorage -> gmap (bytes * Hash * Z) UnitBodyStorage) (l : Ledger DB) : Ledger DB :=
  mkLedger (headers l) (stable l) (tails l) (children l) (f (bodies l)) (originTxs l) (txs l) (statuses l) (receipts l) (states l) (fees l)
    (badUnitHashs l) (badUnits l) (arbitrating l) (arbitrated l) (proofs l) (badChains l) (stoppedChains l) (stoppedBy l) (posted l).
Definition set_originTxs {DB : Type} (f : gmap (Hash * Z) (list Hash) -> gmap (Hash * Z) (list Hash)) (l : Ledger DB) : Ledger DB :=
  mkLedger (headers l) (stable l) (tails l) (children l) (bodies l) (f (originTxs l)) (txs l) (statuses l) (receipts l) (states l) (fees l)
    (badUnitHashs l) (badUnits l) (arbitrating l) (arbitrated l) (proofs l) (badChains l) (stoppedChains l) (stoppedBy l) (posted l).
Definition set_txs {DB : Type} (f : gmap Hash Transaction -> gmap Hash Transaction) (l : Ledger DB) : Ledger DB :=
  mkLedger (headers l) (stable l) (tails l) (children l) (bodies l) (originTxs l) (f (txs l)) (statuses l) (receipts l) (states l) (fees l)
    (badUnitHashs l) (badUnits l) (arbitrating l) (arbitrated l) (proofs l) (badChains l) (stoppedChains l) (stoppedBy l) (posted l).
Definition set_statuses {DB : Type} (f : gmap Hash (list TxStatusInfo) -> gmap Hash (list TxStatusInfo)) (l : Ledger DB) : Ledger DB :=
  mkLedger (headers l) (stable l) (tails l) (children l) (bodies l) (originTxs l) (txs l) (f (statuses l)) (receipts l) (states l) (fees l)
    (badUnitHashs l) (badUnits l) (arbitrating l) (arbitrated l) (proofs l) (badChains l) (stoppedChains l) (stoppedBy l) (posted l).
Definition set_receipts {DB : Type} (f : gmap (Hash * Z) (list Process.Receipt) -> gmap (Hash * Z) (list Process.Receipt)) (l : Ledger DB) : Ledger DB :=
  mkLedger (headers l) (stable l) (tails l) (children l) (bodies l) (originTxs l) (txs l) (statuses l) (f (receipts l)) (states l) (fees l)
    (badUnitHashs l) (badUnits l) (arbitrating l) (arbitrated l) (proofs l) (badChains l) (stoppedChains l) (stoppedBy l) (posted l).
Definition set_states {DB : Type} (f : gmap Hash DB -> gmap Hash DB) (l : Ledger DB) : Ledger DB :=
  mkLedger (headers l) (stable l) (tails l) (children l) (bodies l) (originTxs l) (txs l) (statuses l) (receipts l) (f (states l)) (fees l)
    (badUnitHashs l) (badUnits l) (arbitrating l) (arbitrated l) (proofs l) (badChains l) (stoppedChains l) (stoppedBy l) (posted l).
Definition set_fees {DB : Type} (f : Settle.kv -> Settle.kv) (l : Ledger DB) : Ledger DB :=
  mkLedger (headers l) (stable l) (tails l) (children l) (bodies l) (originTxs l) (txs l) (statuses l) (receipts l) (states l) (f (fees l))
    (badUnitHashs l) (badUnits l) (arbitrating l) (arbitrated l) (proofs l) (badChains l) (stoppedChains l) (stoppedBy l) (posted l).
Definition set_badUnitHashs {DB : Type} (f : gset Hash -> gset Hash) (l : Ledger DB) : Ledger DB :=
  mkLedger (headers l) (stable l) (tails l) (children l) (bodies l) (originTxs l) (txs l) (statuses l) (receipts l) (states l) (fees l) (f
    (badUnitHashs l)) (badUnits l) (arbitrating l) (arbitrated l) (proofs l) (badChains l) (stoppedChains l) (stoppedBy l) (posted l).
Definition set_badUnits {DB : Type} (f : gset Hash -> gset Hash) (l : Ledger DB) : Ledger DB :=
  mkLedger (headers l) (stable l) (tails l) (children l) (bodies l) (originTxs l) (txs l) (statuses l) (receipts l) (states l) (fees l)
    (badUnitHashs l) (f (badUnits l)) (arbitrating l) (arbitrated l) (proofs l) (badChains l) (stoppedChains l) (stoppedBy l) (posted l).
Definition set_arbitrating {DB : Type} (f : gset bytes -> gset bytes) (l : Ledger DB) : Ledger DB :=
  mkLedger (headers l) (stable l) (tails l) (children l) (bodies l) (originTxs l) (txs l) (statuses l) (receipts l) (states l) (fees l)
    (badUnitHashs l) (badUnits l) (f (arbitrating l)) (arbitrated l) (proofs l) (badChains l) (stoppedChains l) (stoppedBy l) (posted l).
Definition set_arbitrated {DB : Type} (f : gmap (bytes * Z) Hash -> gmap (bytes * Z) Hash) (l : Ledger DB) : Ledger DB :=
  mkLedger (headers l) (stable l) (tails l) (children l) (bodies l) (originTxs l) (txs l) (statuses l) (receipts l) (states l) (fees l)
    (badUnitHashs l) (badUnits l) (arbitrating l) (f (arbitrated l)) (proofs l) (badChains l) (stoppedChains l) (stoppedBy l) (posted l).
Definition set_proofs {DB : Type} (f : gmap Hash (list AffectedUnit) -> gmap Hash (list AffectedUnit)) (l : Ledger DB) : Ledger DB :=
  mkLedger (headers l) (stable l) (tails l) (children l) (bodies l) (originTxs l) (txs l) (statuses l) (receipts l) (states l) (fees l)
    (badUnitHashs l) (badUnits l) (arbitrating l) (arbitrated l) (f (proofs l)) (badChains l) (stoppedChains l) (stoppedBy l) (posted l).
Definition set_badChains {DB : Type} (f : gmap bytes (list BadChainFlag) -> gmap bytes (list BadChainFlag)) (l : Ledger DB) : Ledger DB :=
  mkLedger (headers l) (stable l) (tails l) (children l) (bodies l) (originTxs l) (txs l) (statuses l) (receipts l) (states l) (fees l)
    (badUnitHashs l) (badUnits l) (arbitrating l) (arbitrated l) (proofs l) (f (badChains l)) (stoppedChains l) (stoppedBy l) (posted l).
Definition set_stoppedChains {DB : Type} (f : gmap bytes (list Z) -> gmap bytes (list Z)) (l : Ledger DB) : Ledger DB :=
  mkLedger (headers l) (stable l) (tails l) (children l) (bodies l) (originTxs l) (txs l) (statuses l) (receipts l) (states l) (fees l)
    (badUnitHashs l) (badUnits l) (arbitrating l) (arbitrated l) (proofs l) (badChains l) (f (stoppedChains l)) (stoppedBy l) (posted l).
Definition set_stoppedBy {DB : Type} (f : gmap (bytes * Z) (list (Address * Z)) -> gmap (bytes * Z) (list (Address * Z))) (l : Ledger DB) : Ledger DB :=
  mkLedger (headers l) (stable l) (tails l) (children l) (bodies l) (originTxs l) (txs l) (statuses l) (receipts l) (states l) (fees l)
    (badUnitHashs l) (badUnits l) (arbitrating l) (arbitrated l) (proofs l) (badChains l) (stoppedChains l) (f (stoppedBy l)) (posted l).
Definition set_posted {DB : Type} (f : list Event -> list Event) (l : Ledger DB) : Ledger DB :=
  mkLedger (headers l) (stable l) (tails l) (children l) (bodies l) (originTxs l) (txs l) (statuses l) (receipts l) (states l) (fees l)
    (badUnitHashs l) (badUnits l) (arbitrating l) (arbitrated l) (proofs l) (badChains l) (stoppedChains l) (stoppedBy l) (f (posted l)).

(** What lies outside the repository or the model: the genesis unit, encodings
    of package [rlp], tries, and which item a full set of bad units drops. *)
Class ChainEnv := {
  genesisUnit : Unit;
  rlp_size : Transaction -> Z;
  DeriveSha : list Process.Receipt -> Hash;
  evicted : Hash -> gset Hash -> option Hash;
  nil_header : Hash
}.
Class Tries (DB : Type) := {
  IntermediateRoot : Address -> DB -> Hash * DB;
  NewChainState : Address -> DB -> option DB;
  CommitToChain : Address -> DB -> option (Hash * DB)
}.

Section Store.
Context {DB : Type} {C : ScCodec} {TC : TxCodec} {K : State.Crypto} {P : Params} {CE : ChainEnv}.

Implicit Types (l : Ledger DB) (h : Hash) (chain : Address) (number : Z) (u : Unit).

(** ** Reading *)

Definition GenesisHash : Hash := Hash_ genesisUnit.
Definition GetHeaderByHash l h : option Header :=
  if h =? GenesisHash then Some (u_header genesisUnit) else headers l !! h.
Definition ExistUnit l h : bool := (h =? GenesisHash) || bool_decide (is_Some (headers l !! h)).
Definition GetUnitNumber l h : option (Address * Z) :=
  match headers l !! h with Some hd => Some (MC hd, Number hd) | None => None end.
Definition GetStableHash l chain number : Hash :=
  let chain := if number =? 0 then SCAccount else chain in
  default 0 (stable l !! (hash chain, number)).
Definition GetHeaderByNumber l chain number : option Header :=
  let h := GetStableHash l chain number in
  if h =? 0 then None else GetHeaderByHash l h.
Definition GetChainTailHash l chain : Hash :=
  let h := default 0 (tails l !! hash chain) in if h =? 0 then GenesisHash else h.
(** A tail that is missing ends the process. *)
Definition GetChainTailHead l chain : option Header := GetHeaderByHash l (GetChainTailHash l chain).

(** [state.New]: the tries are found by their root. *)
Definition StateAt l (root : Hash) : option DB := states l !! root.
Definition GetUnitState l h : option DB :=
  match GetHeaderByHash l h with Some hd => StateAt l (StateRoot hd) | None => None end.
Definition GetChainTailState l chain : option DB :=
  match GetChainTailHead l chain with Some hd => StateAt l (StateRoot hd) | None => None end.

Definition GetVoteMsg l h : list WitenssVote :=
  match GetUnitNumber l h with
  | None => []
  | Some (mc, number) => match bodies l !! (hash mc, h, number) with Some b => Voters b | None => [] end
  end.

Definition GetTx l h : option Transaction := txs l !! h.
Definition GetUnitOringTxHash l h number : list Hash := default [] (originTxs l !! (h, number)).
Fixpoint get_txs l (hs : list Hash) : option (list Transaction) :=
  match hs with
  | [] => Some []
  | h :: hs =>
      match GetTx l h, get_txs l hs with Some t, Some ts => Some (t :: ts) | _, _ => None end
  end.
Definition GetUnitOriginTxs l h number : option (list Transaction) := get_txs l (GetUnitOringTxHash l h number).

Fixpoint decode_steps (steps : list TxStepExecStorage) (origin : list Transaction) : option (list Process.TransactionExec) :=
  match steps with
  | [] => Some []
  | s :: steps =>
      if negb (Process.UnitID_IsEmpty (ts_PreStep s)) && HaveTx s then None
      else
        match (if HaveTx s then
                 match List.find (fun t => tx_Hash t =? ts_TxHash s) origin with Some t => Some (Some t) | None => None end
               else Some None) with
        | None => None
        | Some t =>
            match decode_steps steps origin with
            | None => None
            | Some rest => Some (Process.mkExec (ts_Action s) (ts_PreStep s) (ts_TxHash s) t :: rest)
            end
        end
  end.
Definition decodeUnitBody (b : UnitBodyStorage) (origin : list Transaction) : option Body :=
  if (length (Txs b) <? length origin)%nat then None
  else match decode_steps (Txs b) origin with Some ts => Some (mkBody ts (Voters b) (body_Sign b)) | None => None end.
(** A header is written after its body; one without it would be a nil pointer here. *)
Definition GetUnitBody l chain h number : option Body :=
  match bodies l !! (hash chain, h, number), GetUnitOriginTxs l h number with
  | Some b, Some origin => decodeUnitBody b origin
  | _, _ => None
  end.
Definition GetUnit l h : option Unit :=
  if h =? 0 then None
  else if h =? GenesisHash then Some genesisUnit
  else
    match headers l !! h with
    | None => None
    | Some hd =>
        match GetUnitBody l (MC hd) h (Number hd) with
        | None => None
        | Some b => Some (mkUnit hd (body_Txs b) (body_Votes b) (b_Sign b) zeroAddress)
        end
    end.

(** ** Writing *)

Definition post (e : Event) : Ledger DB -> Ledger DB := set_posted (fun es => es ++ [e]).

Definition WriteHeader (hd : Header) : Ledger DB -> Ledger DB := set_headers <[Header_Hash hd := hd]>.
Definition WriteStableHash h chain number : Ledger DB -> Ledger DB := set_stable <[(hash chain, number) := h]>.
Definition DeleteStableHash chain number : Ledger DB -> Ledger DB := set_stable (delete (hash chain, number)).
Definition WriteChainTailHash h chain : Ledger DB -> Ledger DB := set_tails <[hash chain := h]>.
Definition DeleteHeader h : Ledger DB -> Ledger DB := set_headers (delete h).

(** One child more; what [DeleteChildrenRelation] deletes are keys with short
    numbers, and the children are under numbers of eight bytes: nothing goes. *)
Definition WalkChildren l h : list Hash := default [] (children l !! h).
Definition add_child h (p : Hash) : Ledger DB -> Ledger DB :=
  if p =? 0 then fun l => l else set_children (fun m => <[p := default [] (m !! p) ++ [h]]> m).
Definition references u : list Hash :=
  remove_dups (ParentHash (u_header u) :: SCHash (u_header u) ::
    filter (fun h => h <> 0) (map (fun x => Process.unit_Hash (Process.PreStep x)) (Transactions u))).
Definition WriteChildrens u l : Ledger DB := foldl (fun l p => add_child (Hash_ u) p l) l (references u).
Definition DeleteChildrenRelation h l : Ledger DB := l.

Definition addTransactionStatus (txHash : Hash) (info : TxStatusInfo) : Ledger DB -> Ledger DB :=
  set_statuses (fun m => <[txHash := default [] (m !! txHash) ++ [info]]> m).
(** What is kept is written again from the last to the first. *)
Definition delTransactionStatus (uhash txHash : Hash) (a : TxAction) : Ledger DB -> Ledger DB :=
  set_statuses (fun m =>
    <[txHash := rev (filter (fun i => ~ (ti_Action i = a /\ UnitHash i = uhash)) (default [] (m !! txHash)))]> m).

Definition store_step (x : Process.TransactionExec) : TxStepExecStorage :=
  mkStep (if Process.Tx x then true else false) (Process.TxHash x) (Process.Action x) (Process.PreStep x).
Definition WriteUnitBody chain h number (b : Body) l : Ledger DB :=
  let l := foldl (fun l x => match Process.Tx x with
                             | Some t => set_txs <[tx_Hash t := t]> l
                             | None => l
                             end) l (body_Txs b) in
  let origin := omap (fun x => match Process.Tx x with Some _ => Some (Process.TxHash x) | None => None end) (body_Txs b) in
  let l := set_bodies <[(hash chain, h, number) := mkBodyStorage (map store_step (body_Txs b)) (body_Votes b) (b_Sign b)]> l in
  if (length origin =? 0)%nat then l else set_originTxs <[(h, number) := origin]> l.

Fixpoint write_statuses h (index : Z) (ts : list Process.TransactionExec) (rs : list Process.Receipt) l : Ledger DB :=
  match ts with
  | [] => l
  | x :: ts =>
      let failed := match rs with r :: _ => Process.Failed_ r | [] => false end in
      write_statuses h (index + 1) ts (tail rs)
        (addTransactionStatus (Process.TxHash x) (mkStatus h (Process.Action x) failed index) l)
  end.
Definition WriteBody chain number h (b : Body) (rs : list Process.Receipt) l : Ledger DB :=
  WriteUnitBody chain h number b (write_statuses h 1 (body_Txs b) rs l).
Definition WriteUnitReceipts h number (rs : list Process.Receipt) : Ledger DB -> Ledger DB := set_receipts <[(h, number) := rs]>.

Definition DelUnitBody chain number h l : Ledger DB :=
  let l := set_bodies (delete (hash chain, h, number)) l in
  let l := foldl (fun l t => set_txs (delete t) l) l (GetUnitOringTxHash l h number) in
  set_originTxs (delete (h, number)) l.
Definition DeleteUnitReceipt h number : Ledger DB -> Ledger DB := set_receipts (delete (h, number)).
Definition DeleteUnit chain h number l : Ledger DB :=
  DeleteChildrenRelation h (DeleteUnitReceipt h number (DelUnitBody chain number h (DeleteHeader h l))).

(** ** Marks of bad units *)

(** [StringSet.Add]: a full shard drops an item first. *)
Definition set_Add h (s : gset Hash) : gset Hash :=
  if bool_decide (h ∈ s) then s
  else match evicted h s with Some k => {[h]} ∪ (s ∖ {[k]}) | None => {[h]} ∪ s end.
Definition add_bad h : Ledger DB -> Ledger DB := set_badUnitHashs (set_Add h).
Definition IsBadUnit l h : bool := bool_decide (h ∈ badUnits l).
Definition writeBadUnit h : Ledger DB -> Ledger DB := set_badUnits (union {[h]}).
Definition removeBad h : Ledger DB -> Ledger DB := set_badUnits (fun s => s ∖ {[h]}).

Definition GetArbitrationResult l chain number : Hash := default 0 (arbitrated l !! (hash chain, number)).
Definition ChainIsInInArbitration l chain : bool := bool_decide (hash chain ∈ arbitrating l).
Definition writeChainInInArbitration chain : Ledger DB -> Ledger DB := set_arbitrating (union {[hash chain]}).
Definition chainArbitrationDone chain number (result : Hash) l : Ledger DB :=
  set_arbitrating (fun s => s ∖ {[hash chain]}) (set_arbitrated <[(hash chain, number) := result]> l).

(** ** The first unit *)

Definition empty_ledger : Ledger DB := mkLedger ∅ ∅ ∅ ∅ ∅ ∅ ∅ ∅ ∅ ∅ ∅ ∅ ∅ ∅ ∅ ∅ ∅ ∅ ∅ [].
Definition WriteUnit u (rs : list Process.Receipt) l : Ledger DB :=
  let hd := u_header u in
  let l := WriteBody (MC hd) (Number hd) (Hash_ u) (mkBody (Transactions u) (WitnessVotes u) (u_Sign u)) rs l in
  WriteChildrens u (WriteHeader hd l).
(** The genesis unit, its state and the tails of the accounts that begin with coins. *)
Definition Commit {TR : Tries DB} (users : nat) (statedb : DB) (rs : list Process.Receipt) (alloc : list Address) l : option (Ledger DB) :=
  let u := genesisUnit in
  let hd := u_header u in
  if (users <? 11)%nat then None
  else if negb (Number hd =? 0) then None
  else if negb (bool_decide (MC hd = SCAccount)) then None
  else
    match CommitToChain (MC hd) statedb with
    | None => None
    | Some (root, stored) =>
        let l := WriteUnit u rs (set_states <[root := stored]> l) in
        let l := WriteStableHash (Hash_ u) (MC hd) (Number hd) (WriteUnitReceipts (Hash_ u) (Number hd) rs l) in
        let l := foldl (fun l a => WriteChainTailHash (Hash_ u) a l) (WriteChainTailHash (Hash_ u) (MC hd) l) alloc in
        Some (WriteChainTailHash (Hash_ u) SCAccount l)
    end.

End Store.

End Dag.
