(* ===== verification/UnitValid.v ===== *)
(** When a unit is accepted: the header and the votes
    ([src/consensus/bft/backend/engine.go], [src/core/types/vote.go]), the
    transactions and the state after them ([src/core/unitvalidator.go]). *)
From stdpp Require Import gmap list sorting.
From S2P Require Import Prelude Bech32 Address BftTypes BftValidators EvmWord EvmAnalysis EvmState StateDb Ovm Bloom TxTransition TxProcess ScStore Signing ScGroup ScHeart ScWitness ScDuty ScProposal ScSettle ScReport DagStore.

Import Db Transition Address Store Signing Report Dag.

Module Valid.

Inductive error :=
| ErrKnownBlock | ErrUnknownAncestor | ErrInvalidMCAccount | ErrInvalidNumber | ErrFutureBlock | ErrTimestamp | ErrInterval
| ErrInvalidProposer | ErrInvalidSCHash | ErrSCNumber | ErrOldSC | ErrSystemNumber | ErrGasLimit | ErrGasUsed
| ErrInvalidUnitSender | ErrNotEnoughWitnessVotes | ErrInvalidWitness | ErrInvalidCommitSeal | ErrDifferentRoundCommitSeal
| ErrDishonest (d : dishonest) | ErrNotFoundHeader | ErrUnitState | ErrSystemChainHash
| ErrArbitrationTime | ErrArbitrationVotes | ErrNotCouncil | ErrHistory
| ErrEmptyUnit | ErrBlackUnit | ErrInvalidSource | ErrInvalidPreStep | ErrPreStepTime | ErrTxHash | ErrDisableSender
| ErrOversizedData | ErrNegativeValue | ErrInvalidSender | ErrEmptyToAddress | ErrInvalidTimeout | ErrTxExpired | ErrFutureTx
| ErrInvalidSeed | ErrInvalidGas | ErrTxValue | ErrGasPriceTooLow | ErrGasOverflow
| ErrUnitGasUsed | ErrStateRoot | ErrReceiptRoot | ErrBloom
| ErrInInArbitration | ErrArbitrated | ErrBadUnit | ErrBadParent | ErrKnownBad | ErrChainSleeping | ErrNoChainState
| ErrSig (e : Signing.error) | ErrSc (e : Group.error) | ErrTx (e : Transition.error)
| ErrPanic.

Definition Second : Z := 10 ^ 9.
Definition allowedFutureBlockTime : Z := 15 * Second.
Definition OneNumberHaveSecondBySys : Z := 90.
Definition OneNumberHaveSecondByUc : Z := 10.
Definition defGasCap : Z := 0x7fffffffffffffff - 1.
Definition maxTimeDiff : Z := u64 (i64 (OneNumberHaveSecondBySys * 30000 * Second)).
Definition SCDeadArbitrationInterval : Z := 24 * 60 * 60.
Definition ConfigParamsMinFreePoW : bytes := str "minFreePoW".

Definition DefTxMinTimeout : Z := 11 * OneNumberHaveSecondBySys.
Definition DefTxMaxTimeout : Z := 7 * 24 * 3600.
Definition FuncApplyWitnessIDBytes : bytes := [0x77; 0x8c; 0x2c; 0xad].
Definition FuncReplaceWitnessIDBytes : bytes := [0x6f; 0x41; 0x0b; 0xb7].

Definition GasLimitBoundDivisor : Z := 1024.
Definition MinGasLimit : Z := 5000.
Definition TargetGasLimit : Z := 16000000.

Definition ExtraSealSize : nat := 9.
Definition msgCommit : Z := 3.

(** The transactions the pool knows, whose signatures were checked before. *)
Class TxPool := { TxPool_Get : Hash -> option Transaction }.
(** [Processor]: the transactions of a unit on the state of its parent. *)
Class Processor (DB : Type) := {
  Process : Ledger DB -> Unit -> DB -> result error (list Process.Receipt * list StoredLog * Z * DB)
}.

(** ** Who signed *)

Definition HasSigned (sign : bytes) : bool := (65 <=? length sign)%nat.
Definition SignContent_V (sign : bytes) : Z := if HasSigned sign then be_value (drop 64 sign) else 0.
Definition deriveSigner (v : Z) : DefSigner := NewSigner (Some (deriveChainId v)).

Section Voters.
Context {B : Btcec} {C : ScCodec}.
Open Scope result_scope.

(** [Sender] asks once. *)
Definition unit_Sender (s : DefSigner) (u : Unit) : result error Address :=
  if Empty (u_sender u) then match Sender s (unit_helper u) with Ok a => Ok a | Err e => Err (ErrSig e) end
  else Ok (u_sender u).

Definition HashWithoutVote (h : Header) : Hash := SafeHash256 [header_value h].

(** [round] is never set: the votes may be of different rounds. *)
Fixpoint unit_voters (s : DefSigner) (uhash : Hash) (round : Z) (votes : list WitenssVote) (voters : list Address)
    : result error (list Address) :=
  match votes with
  | [] => Ok voters
  | v :: votes =>
      if negb (length (Extra v) =? ExtraSealSize)%nat || negb (hd 0 (Extra v) =? msgCommit) then Err ErrInvalidCommitSeal
      else
        let extraRound := be_value (rev (drop 1 (Extra v))) in
        if negb (round =? 0) && negb (extraRound =? round) then Err ErrDifferentRoundCommitSeal
        else
          match Sender s (ToVote uhash v) with
          | Err e => Err (ErrSig e)
          | Ok addr =>
              if bool_decide (addr ∈ voters) then unit_voters s uhash round votes voters
              else unit_voters s uhash round votes (voters ++ [addr])
          end
  end.
Definition GetUnitVoter (u : Unit) : result error (list Address) :=
  unit_voters (deriveSigner (SignContent_V (u_Sign u))) (HashWithoutVote (u_header u)) 0 (WitnessVotes u) [].
End Voters.

(** ** Transactions *)

Section Tx.
Context {P : Params} {C : ScCodec} {TC : TxCodec} {K : State.Crypto} {CE : ChainEnv} {TP : TxPool}.
Open Scope result_scope.

Implicit Types (t : Transaction) (now : Z).

Definition HashNoSeed t : Hash :=
  SafeHash256 [uint (tx_Time t); uint (tx_Price t); uint (tx_GasLimit t); addr_value (tx_Sender t); addr_value (tx_Recipient t);
               uint (tx_Amount t); Str (tx_Payload t); uint (tx_Timeout t)].
Definition VerifyProofWork t (diff : Z) : bool :=
  if tx_Seed t =? 0 then false
  else
    let target := Z.shiftr (2 ^ 256 - 1 - 1) diff in
    be_value (State.Keccak256 (hash_bytes (HashNoSeed t) ++ rev (be_bytes 8 (tx_Seed t)))) <=? target.

(** [now] in nanoseconds, as [time.Unix] takes them. *)
Definition Expired t now : bool :=
  ((tx_Seed t >? 0) && (u64 (tx_Time t + 3600 * Second) <? u64 now)) ||
  ((tx_Timeout t >? 0) && (i64 (tx_Time t) + i64 (Second * i64 (tx_Timeout t)) <? now)).
Definition IsFuture t now : bool := i64 (tx_Time t) - now >? 120 * Second.

Definition SameTxCheck (oldTx newTx : Transaction) : bool :=
  if negb (tx_Hash oldTx =? tx_Hash newTx) then false else bool_decide (tx_Sign oldTx = tx_Sign newTx).
Definition tx_Sender_ t : result error Address :=
  match Transition.Sender t with Ok a => Ok a | Err e => Err (ErrTx e) end.
Definition ValidWithCache t : result error unit :=
  match TxPool_Get (tx_Hash t) with
  | None => let? _ := tx_Sender_ t in Ok tt
  | Some cached =>
      if negb (bool_decide (tx_Sender t = tx_Sender cached)) then let? _ := tx_Sender_ t in Ok tt
      else if SameTxCheck cached t then Ok tt
      else Err (ErrSig ErrInvalidSig)
  end.

(** Is it a free transaction?  The limits are read when they are needed. *)
Definition VerifyTxBaseData (sender : Address) t now (getMinGasPrice getPowDiff : result error Z) (gasLimit : Z) : result error bool :=
  if rlp_size t >? 32 * 1024 then Err ErrOversizedData
  else if tx_Amount t <? 0 then Err ErrNegativeValue
  else if negb (bool_decide (sender = tx_Sender t)) || Empty sender then Err ErrInvalidSender
  else if Empty (tx_Recipient t) then Err ErrEmptyToAddress
  else if (tx_Timeout t <? DefTxMinTimeout) || (tx_Timeout t >? DefTxMaxTimeout) then Err ErrInvalidTimeout
  else if Expired t now then Err ErrTxExpired
  else if IsFuture t now then Err ErrFutureTx
  else
    let isFree := IsFreeTx t in
    let? _ :=
      if isFree then
        if negb (bool_decide (tx_Recipient t = SCAccount)) then Err ErrInvalidSeed
        else if (tx_Price t >? 0) || (tx_GasLimit t >? 0) then Err ErrInvalidGas
        else if negb (tx_Amount t =? 0) then Err ErrTxValue
        else Ok tt
      else if (tx_GasLimit t =? 0) || (tx_GasLimit t >? gasLimit) then Err ErrInvalidGas
      else
        let? price := getMinGasPrice in
        if tx_Price t <? price then Err ErrGasPriceTooLow
        else if tx_Seed t >? 0 then Err ErrInvalidSeed
        else if snd (Word.SafeMul (tx_Price t) (tx_GasLimit t)) then Err ErrGasOverflow
        else Ok tt in
    let powFunc := bool_decide (take 4 (tx_Payload t) = FuncApplyWitnessIDBytes) ||
                   bool_decide (take 4 (tx_Payload t) = FuncReplaceWitnessIDBytes) in
    if powFunc then
      if negb (bool_decide (tx_Recipient t = SCAccount)) then Err ErrInvalidSeed
      else if tx_Seed t =? 0 then Err ErrInvalidSeed
      else
        let? diff := getPowDiff in
        if negb (VerifyProofWork t diff) then Err ErrInvalidSeed else Ok isFree
    else if negb (tx_Seed t =? 0) then Err ErrInvalidSeed
    else Ok isFree.
End Tx.

Definition CalcGasLimit (parent : Header) : Z :=
  let contrib := u64 (GasUsed parent + GasUsed parent / 2) / GasLimitBoundDivisor in
  let decay := u64 (GasLimit parent / GasLimitBoundDivisor - 1) in
  let limit := u64 (u64 (GasLimit parent - decay) + contrib) in
  let limit := if limit <? MinGasLimit then MinGasLimit else limit in
  if limit <? TargetGasLimit then
    let limit := u64 (GasLimit parent + decay) in
    if limit >? TargetGasLimit then TargetGasLimit else limit
  else limit.

(** ** Units *)

Section Valid.
Context {DB : Type} {ST : Storage DB} {C : ScCodec} {B : Btcec} {P : Params} {TC : TxCodec} {K : State.Crypto}.
Context {NM : Witness.Names} {RI : ReportInputs} {CE : ChainEnv} {TP : TxPool} {TR : Tries DB} {PR : Processor DB}.
Open Scope result_scope.

Implicit Types (l : Ledger DB) (u : Unit) (now : Z).

Definition get {A} (e : error) (o : option A) : result error A := match o with Some a => Ok a | None => Err e end.
Definition sc {A} (r : result Group.error A) : result error A := match r with Ok a => Ok a | Err e => Err (ErrSc e) end.

(** *** Witnesses *)

Definition GetChainWitnessGroup l (chain : Address) (scHash : Hash) : result error Z :=
  if bool_decide (chain = SCAccount) then Ok Group.DefSysGroupIndex
  else
    let? header := get ErrNotFoundHeader (GetHeaderByHash l scHash) in
    if (Number header >? 0) && negb (bool_decide (MC header = SCAccount)) then Err ErrSystemChainHash
    else
      let? db := get ErrUnitState (StateAt l (StateRoot header)) in
      sc (Duty.GetGroupIndexFromUser chain db).

(** [loadWitnessGroup], of which one entry is taken. *)
Definition witness_lib (db : DB) (gp : Z) : list Address :=
  if gp =? Group.DefSysGroupIndex then Duty.GetSystemMainWitness db
  else if gp <=? Group.GetWitnessGroupCount db then Group.GetWitnessListAt gp db
  else [].
(** Without the state a mutex that nobody holds is unlocked, which ends the process. *)
Definition GetChainWitnessLib l (chain : Address) (scHash : Hash) : result error (list Address) :=
  let? gp := GetChainWitnessGroup l chain scHash in
  let? db := get ErrPanic (GetUnitState l scHash) in
  Ok (witness_lib db gp).

(** *** Two lawful units at one height *)

Definition dishonestCheck l u : result error unit :=
  let hd := u_header u in
  let h := GetStableHash l (MC hd) (Number hd) in
  if (h =? 0) || (h =? Hash_ u) then Ok tt
  else
    let? oldHeader := get ErrNotFoundHeader (GetHeaderByHash l h) in
    let oldVotes := GetVoteMsg l h in
    let? oldStateDB := get ErrUnitState (GetUnitState l (SCHash oldHeader)) in
    let oldChainNumber := Duty.GetChainWitnessStartNumber (MC hd) oldStateDB in
    let? newStateDB := get ErrUnitState (GetUnitState l (SCHash hd)) in
    let newChainNumber := Duty.GetChainWitnessStartNumber (MC hd) newStateDB in
    if (newChainNumber >? oldChainNumber) && (newChainNumber >=? Number hd) then
      Err (ErrDishonest (mkDishonest (Proposer oldHeader) oldHeader oldVotes hd (WitnessVotes u)))
    else
      let general := match unit_Sender signer u with Ok a => a | Err _ => zeroAddress end in
      Err (ErrDishonest (mkDishonest general hd (WitnessVotes u) oldHeader oldVotes)).

(** *** The votes *)

Definition enough_votes (mc : Address) (n : nat) : bool :=
  (Validators.GetChainMinVoting mc <=? Z.of_nat n) && (Z.of_nat n <=? GetChainWitnessCount mc).

Definition VerifySeal l u (chainWitness : list Address) : result error unit :=
  let mc := MC (u_header u) in
  if (length chainWitness =? 0)%nat then Err ErrInvalidUnitSender
  else if negb (enough_votes mc (length (WitnessVotes u))) then Err ErrNotEnoughWitnessVotes
  else
    let? general := unit_Sender signer u in
    if negb (bool_decide (general ∈ chainWitness)) then Err ErrInvalidUnitSender
    else
      let? witnessList := GetUnitVoter u in
      if negb (enough_votes mc (length witnessList)) then Err ErrNotEnoughWitnessVotes
      else if negb (forallb (fun w => bool_decide (w ∈ chainWitness)) witnessList) then Err ErrInvalidWitness
      else dishonestCheck l u.

(** *** The header *)

Definition verify_basic l now u : result error unit :=
  let header := u_header u in
  if bool_decide (is_Some (GetHeaderByHash l (Hash_ u))) then Err ErrKnownBlock
  else
    let? parent := get ErrUnknownAncestor (GetHeaderByHash l (ParentHash header)) in
    if negb (Number header =? 1) && negb (bool_decide (MC header = MC parent)) then Err ErrInvalidMCAccount
    else if negb (Number header =? u64 (Number parent + 1)) then Err ErrInvalidNumber
    else if Timestamp header >? u64 (now + allowedFutureBlockTime) then Err ErrFutureBlock
    else if Timestamp header <=? Timestamp parent then Err ErrTimestamp
    else
      let minDiff := if bool_decide (SCAccount = MC header) then OneNumberHaveSecondBySys else OneNumberHaveSecondByUc in
      if u64 (Timestamp header - Timestamp parent) <? minDiff * Second then Err ErrInterval
      else
        let? proposer := unit_Sender signer u in
        if negb (bool_decide (Proposer header = proposer)) then Err ErrInvalidProposer
        else
          let? scParent :=
            if bool_decide (MC header = SCAccount) then
              if negb (SCHash header =? ParentHash header) then Err ErrInvalidSCHash
              else if negb (SCNumber header =? Number parent) then Err ErrSCNumber
              else Ok parent
            else
              let? scParent := get ErrUnknownAncestor (GetHeaderByHash l (SCHash header)) in
              if negb (SCNumber header =? Number scParent) then Err ErrSCNumber
              else if Timestamp header <=? Timestamp scParent then Err ErrTimestamp
              else if u64 (Timestamp header - Timestamp scParent) >? maxTimeDiff then Err ErrOldSC
              else Ok scParent in
          if SCNumber header <? SCNumber parent then Err ErrSystemNumber
          else if GasLimit header >? defGasCap then Err ErrGasLimit
          else if GasUsed header >? GasLimit header then Err ErrGasUsed
          else
            let? db := get ErrUnitState (StateAt l (StateRoot scParent)) in
            let? limit := sc (Proposal.ReadConfig Proposal.ConfigParamsUcGasLimit db) in
            if GasLimit header >? limit then Err ErrGasLimit else Ok tt.

(** [verifyHeader] is called again, without the seal. *)
Definition verifyArbitrationUnit l now u : result error unit :=
  let? _ := verify_basic l now u in
  let mc := MC (u_header u) in
  let? lastUnit := get ErrPanic (GetHeaderByNumber l mc (SCNumber (u_header u))) in
  let rightTime := u64 (Timestamp lastUnit + SCDeadArbitrationInterval * Second) in
  if negb (rightTime =? Timestamp (u_header u)) then Err ErrArbitrationTime
  else
    let? votes := GetUnitVoter u in
    let? statedb := get ErrUnitState (GetChainTailState l SCAccount) in
    let coucils := Witness.GetCouncilList statedb in
    if (length votes <? length coucils * 2 / 3 + 1)%nat then Err ErrArbitrationVotes
    else if negb (forallb (fun v => bool_decide (v ∈ coucils)) votes) then Err ErrNotCouncil
    else
      let? tail := get ErrPanic (GetChainTailHead l mc) in
      if Number tail >? Number (u_header u) then Err ErrHistory else Ok tt.

Definition verifyHeader l now u (seal : bool) : result error unit :=
  let? _ := verify_basic l now u in
  if seal then
    if IsBlackUnit u then verifyArbitrationUnit l now u
    else
      match GetChainWitnessLib l (MC (u_header u)) (SCHash (u_header u)) with
      | Err ErrNotFoundHeader => Err ErrUnknownAncestor
      | Err e => Err e
      | Ok chainCurrentWitness => VerifySeal l u chainCurrentWitness
      end
  else Ok tt.

(** *** The body *)

Definition ForceConfig (key : bytes) (db : DB) : result error Z :=
  match Proposal.ReadConfig key db with Ok v => Ok v | Err _ => Err ErrPanic end.

Definition check_prestep l u (pre : Process.UnitID) : result error unit :=
  if Process.UnitID_IsEmpty pre then Ok tt
  else
    let? stable := get ErrUnknownAncestor (GetHeaderByHash l (Process.unit_Hash pre)) in
    if negb (bool_decide (MC stable = Process.ChainID pre)) || negb (Number stable =? Process.Height pre) then Err ErrInvalidPreStep
    else if Timestamp stable >=? Timestamp (u_header u) then Err ErrPreStepTime
    else Ok tt.

Definition check_tx (sysdb : DB) u (x : Process.TransactionExec) : result error unit :=
  match Process.Tx x with
  | None => Ok tt
  | Some t =>
      if negb (Process.TxHash x =? tx_Hash t) then Err ErrTxHash
      else
        let? _ := ValidWithCache t in
        let? txSender := tx_Sender_ t in
        if bool_decide (txSender = Witness.PublicPrivateKeyAddr) && negb (IsBlackUnit u) then Err ErrDisableSender
        else
          let? _ := VerifyTxBaseData txSender t (i64 (Timestamp (u_header u)))
            (ForceConfig Proposal.ConfigParamsLowestGasPrice sysdb) (ForceConfig ConfigParamsMinFreePoW sysdb)
            (GasLimit (u_header u)) in
          Ok tt
  end.

Fixpoint check_txs l (sysdb : DB) u (ts : list Process.TransactionExec) : result error unit :=
  match ts with
  | [] => Ok tt
  | x :: ts =>
      if negb (Process.UnitID_IsEmpty (Process.PreStep x)) && (if Process.Tx x then true else false) then Err ErrInvalidSource
      else
        let? _ := check_prestep l u (Process.PreStep x) in
        let? _ := check_tx sysdb u x in
        check_txs l sysdb u ts
  end.

Definition ValidateBody l u : result error unit :=
  match Transactions u with
  | [] => Err ErrEmptyUnit
  | x :: rest =>
      let? _ :=
        if IsBlackUnit u then
          if negb (length rest =? 0)%nat then Err ErrBlackUnit
          else if Process.Tx x then Ok tt else Err ErrBlackUnit
        else Ok tt in
      let? scHeader := get ErrUnknownAncestor (GetHeaderByHash l (SCHash (u_header u))) in
      let? sysdb := get ErrUnitState (StateAt l (StateRoot scHeader)) in
      check_txs l sysdb u (Transactions u)
  end.

(** The state, with what computing its root changed in it. *)
Definition ValidateState u (statedb : DB) (rs : list Process.Receipt) (usedGas : Z) : result error DB :=
  let header := u_header u in
  if negb (GasUsed header =? usedGas) then Err ErrUnitGasUsed
  else
    let '(root, statedb) := IntermediateRoot (MC header) statedb in
    if negb (StateRoot header =? root) then Err ErrStateRoot
    else if negb (ReceiptRoot header =? DeriveSha rs) then Err ErrReceiptRoot
    else
      let? rbloom := get ErrPanic (Bloom.CreateBloom (map Process.rc_Logs rs)) in
      if negb (bool_decide (rbloom = Bloom header)) then Err ErrBloom else Ok statedb.

(** *** What a node knows about bad units *)

Definition getStoppedChainFlag l (chain : Address) : list Z := merge_sort Z.le (default [] (stoppedChains l !! hash chain)).
Definition GetStoppedChainFlag l (chain : Address) : Z := hd 0 (getStoppedChainFlag l chain).
Definition CheckChainIsStopped l (chain : Address) (number : Z) : bool :=
  if bool_decide (chain = SCAccount) then false
  else
    let stoppedNumber := GetStoppedChainFlag l chain in
    (stoppedNumber >? 0) && (stoppedNumber <=? number).

Definition chainSleeping l (chain : Address) (number sysNumber : Z) (uhash : Hash) : bool :=
  match GetChainTailState l SCAccount with
  | None => true
  | Some db =>
      let '(chainStatus, statusNumber) := Duty.GetChainStatus chain db in
      if (chainStatus =? Group.ChainStatusWitnessReplaceUnderway) && (sysNumber >=? statusNumber) then true
      else
        let sh := Duty.GetChainSpecialUnit chain number db in
        if negb (sh =? 0) && negb (uhash =? sh) then true
        else CheckChainIsStopped l chain number
  end.

(** A child of a bad unit is marked as bad. *)
Definition BadUnitCheck l u : result error unit * Ledger DB :=
  let hd := u_header u in
  if bool_decide (Hash_ u ∈ badUnitHashs l) then (Err ErrBadUnit, l)
  else if bool_decide (ParentHash hd ∈ badUnitHashs l) then (Err ErrBadParent, add_bad (Hash_ u) l)
  else if IsBadUnit l (Hash_ u) then (Err ErrKnownBad, l)
  else if chainSleeping l (MC hd) (Number hd) (SCNumber hd) (Hash_ u) then (Err ErrChainSleeping, l)
  else (Ok tt, l).

(** An arbitrated height takes the chosen unit only. *)
Definition arbitrated_check l u : result error unit :=
  let good := GetArbitrationResult l (MC (u_header u)) (Number (u_header u)) in
  if negb (good =? 0) && negb (good =? Hash_ u) then Err ErrArbitrated else Ok tt.

(** *** The whole unit *)

Definition execute l u : result error (list Process.Receipt * DB * list StoredLog) :=
  let? parent := get ErrPanic (GetHeaderByHash l (ParentHash (u_header u))) in
  let? statedb := get ErrUnitState (StateAt l (StateRoot parent)) in
  let? statedb :=
    if (Number parent =? 0) && negb (bool_decide (MC (u_header u) = SCAccount))
    then get ErrNoChainState (NewChainState (MC (u_header u)) statedb) else Ok statedb in
  let? answer := Process l u statedb in
  let '(rs, logs, usedGas, statedb) := answer in
  let? statedb := ValidateState u statedb rs usedGas in
  Ok (rs, statedb, logs).

Definition VerifyUnit l u (verify : Ledger DB -> Unit -> result error unit)
    : result error (list Process.Receipt * DB * list StoredLog) * Ledger DB :=
  if ChainIsInInArbitration l (MC (u_header u)) then (Err ErrInInArbitration, l)
  else
    match BadUnitCheck l u with
    | (Err e, l) => (Err e, l)
    | (Ok _, l) =>
        (let? _ := arbitrated_check l u in
         let? _ := verify l u in
         let? _ := ValidateBody l u in
         execute l u, l)
    end.
End Valid.

End Valid.
