(* ===== verification/DagChain.v ===== *)
(** How units enter the chains and leave them ([src/core/dagchain.go],
    [dagchain_store.go], [chain_branch.go], [chan_static.go]), and what follows
    from two lawful units at one height ([src/consensus/arbitration]).

    Units are handled one at a time, as the lock of a chain makes it; the node
    writes bodies at once ([enableAsyncWriteBody] is off, its default). *)
From stdpp Require Import gmap list sorting.
From S2P Require Import Prelude Bech32 Address BftTypes BftValidators EvmWord EvmAnalysis EvmState StateDb Ovm Bloom TxTransition TxProcess ScStore Signing ScGroup ScHeart ScWitness ScDuty ScProposal ScSettle ScReport DagStore UnitValid.

Import Db Transition Address Store Signing Report Dag Valid.

Module DagChain.

(** The process ends: [log.Crit], or a Go panic.  Or the fuel of the model does. *)
Inductive halt := Crit | OutOfFuel.

(** What the consensus engine keeps of a unit it has verified. *)
Record MiningResult (DB : Type) := mkMining {
  mr_Unit : Unit; mr_Receipts : list Process.Receipt; mr_Logs : list StoredLog; mr_StateDB : DB
}.
Arguments mkMining {DB}.
Arguments mr_Unit {DB}.
Arguments mr_Receipts {DB}.
Arguments mr_Logs {DB}.
Arguments mr_StateDB {DB}.

(** The events of the system contract as package [abi] decodes them, and how
    package [rlp] encodes a proof. *)
Class SystemEvents := {
  UnpackChainArbitrationEventLog : bytes -> option (Address * Z);
  UnpackChainArbitrationEndEventLog : bytes -> option UnitID;
  UnpackChainStatusChangedEvent : bytes -> option (Address * bool * Z);
  UnpackUserWitnessChangeLog : bytes -> option Address;
  proof_hash : list AffectedUnit -> Hash
}.
(** The proposal an engine works on, by chain. *)
Class Engines (DB : Type) := { CurrentProposal : Address -> option (MiningResult DB) }.

Section DagChain.
Context {DB : Type} {ST : Storage DB} {C : ScCodec} {B : Btcec} {P : Params} {TC : TxCodec} {K : State.Crypto}.
Context {NM : Witness.Names} {RI : ReportInputs} {CE : ChainEnv} {TP : TxPool} {TR : Tries DB} {PR : Processor DB}.
Context {EV : Group.Events DB} {WC : Settle.WorkCodec} {SR : Proposal.Sorting} {SE : SystemEvents} {EN : Engines DB}.
Open Scope result_scope.

Implicit Types (l : Ledger DB) (u : Unit) (h : Hash) (chain : Address) (number now : Z).

Definition need {A} (o : option A) : result halt A := match o with Some a => Ok a | None => Err Crit end.

Fixpoint each {A X} (f : X -> A -> result halt A) (xs : list X) (a : A) : result halt A :=
  match xs with
  | [] => Ok a
  | x :: xs => let? a := f x a in each f xs a
  end.

(** ** The reports of fees *)

Definition settle_exec (x : Process.TransactionExec) : Settle.TxExec :=
  Settle.mkExec (match Process.Action x with ActionSCIdleContractDeal => true | _ => false end) (Process.TxHash x)
    (match Process.Tx x with Some t => Some (tx_Price t) | None => None end).
Definition settle_unit u : Settle.Unit :=
  let hd := u_header u in
  Settle.mkUnit (MC hd) (SCNumber hd) (Hash_ u) (Number hd) (SCHash hd) (Timestamp hd) (Proposer hd)
    (map settle_exec (Transactions u))
    (match GetUnitVoter u with Ok voters => Ok voters | Err _ => Err Group.ErrSigner end).
Definition settle_chains l : Settle.Chains := {|
  Settle.GetChainWitnessLib chain h :=
    match GetChainWitnessLib l chain h with
    | Ok lib => Ok lib
    | Err ErrPanic => Err Group.ErrPanic
    | Err _ => Err Group.ErrChainMissingWitness
    end;
  Settle.GetTransaction h := match GetTx l h with Some t => Some (tx_Price t) | None => None end;
  Settle.GetUnit h := match GetUnit l h with Some u => Some (settle_unit u) | None => None end;
  Settle.GetUnitReceipts chain h number :=
    match receipts l !! (h, number) with Some rs => Some (map Process.GasUsed rs) | None => None end
|}.
Definition rollback_fees u l : result halt (Ledger DB) :=
  match @Settle.RollbackWorkFee WC (settle_chains l) NM (settle_unit u) (fees l) with
  | Ok work => Ok (set_fees (fun _ => work) l)
  | Err _ => Err Crit
  end.

(** ** Removing units *)

(** The unit itself, its children being gone. *)
Definition drop_unit (delAll : bool) h (hd : Header) (removed : list Process.TransactionExec) l
    : result halt (list Process.TransactionExec * Ledger DB) :=
  let l := DeleteStableHash (MC hd) (Number hd) l in
  let l := WriteChainTailHash (if Number hd =? 1 then 0 else ParentHash hd) (MC hd) l in
  let? r :=
    match GetUnit l h with
    | Some u =>
        let? l := rollback_fees u l in
        Ok (removed ++ Transactions u,
            foldl (fun l x => delTransactionStatus h (Process.TxHash x) (Process.Action x) l) l (Transactions u))
    | None => Ok (removed, l)
    end in
  let '(removed, l) := r in
  Ok (removed, if delAll then DeleteUnit (MC hd) h (Number hd) l else l).

Fixpoint clearUnitWithTxs (fuel : nat) (delAll : bool) h l : result halt (list Process.TransactionExec * Ledger DB) :=
  match fuel with
  | O => Err OutOfFuel
  | Datatypes.S fuel =>
      match GetHeaderByHash l h with
      | None => Ok ([], l)
      | Some hd =>
          if Number hd =? 0 then Ok ([], l)
          else
            let? r := each (fun c r =>
                        let '(removed, l) := r in
                        let? r := clearUnitWithTxs fuel delAll c l in
                        let '(txs, l) := r in
                        Ok (removed ++ txs, l)) (WalkChildren l h) ([], l) in
            let '(removed, l) := r in
            drop_unit delAll h hd removed l
      end
  end.

(** What was removed is played again, the lowest first, every transaction once. *)
Fixpoint replay (xs : list Process.TransactionExec) (done : list Hash) l : Ledger DB :=
  match xs with
  | [] => l
  | x :: xs =>
      if bool_decide (Process.TxHash x ∈ done) then replay xs done l
      else
        match (match Process.Tx x with Some t => Some t | None => GetTx l (Process.TxHash x) end) with
        | None => replay xs done l
        | Some t =>
            let l := match Process.Tx x with Some _ => post (TxPre t) l | None => l end in
            replay xs (Process.TxHash x :: done) (post (ReplayTxAction t) l)
        end
  end.
Definition clear_fuel l : nat := Datatypes.S (size (headers l)).
Definition clearUnit (delAll : bool) h l : result halt (Ledger DB) :=
  let? r := clearUnitWithTxs (clear_fuel l) delAll h l in
  let '(txs, l) := r in
  Ok (replay (rev txs) [] l).
Definition ClearUnit h (delAll : bool) l : result halt (Ledger DB) := clearUnit delAll h l.

(** ** Arbitration *)

Definition flag_le (x y : BadChainFlag) : Prop := bf_Number x <= bf_Number y.
#[local] Instance flag_le_dec : RelDecision flag_le.
Proof. intros x y. unfold flag_le. apply _. Defined.

Definition GetBadChainFlags l chain : list BadChainFlag := merge_sort flag_le (default [] (badChains l !! hash chain)).
Definition writeBadChain (f : BadChainFlag) l : Ledger DB :=
  let flags := GetBadChainFlags l (bf_Chain f) in
  if existsb (fun v => bf_Number v =? bf_Number f) flags then l
  else set_badChains <[hash (bf_Chain f) := flags ++ [f]]> l.
Definition UpdateBadChainFlag (f : BadChainFlag) now l : Ledger DB :=
  writeBadChain (mkFlag (bf_Chain f) (bf_Number f) (u64 (now / Second)) (ProofID f)) l.
Fixpoint remove_first {A} (p : A -> bool) (xs : list A) : list A :=
  match xs with [] => [] | x :: xs => if p x then xs else x :: remove_first p xs end.
Definition clearBadChainFlag chain number l : Ledger DB :=
  let flags := GetBadChainFlags l chain in
  if existsb (fun f => bf_Number f =? number) flags
  then set_badChains <[hash chain := remove_first (fun f => bf_Number f =? number) flags]> l else l.

Definition writeStoppedChain chain number l : Ledger DB :=
  let items := getStoppedChainFlag l chain in
  if bool_decide (number ∈ items) then l else set_stoppedChains <[hash chain := items ++ [number]]> l.
(** Is no mark left?  [l0] is the database, which the batch does not change yet. *)
Definition clearStoppedChainFlag (l0 : Ledger DB) chain number l : bool * Ledger DB :=
  let numbers := getStoppedChainFlag l0 chain in
  if bool_decide (number ∈ numbers) then
    let left := remove_first (Z.eqb number) numbers in
    (bool_decide (left = []), set_stoppedChains <[hash chain := left]> l)
  else (bool_decide (numbers = []), l).
Definition GetStoppedChainByBad l chain number : list (Address * Z) := default [] (stoppedBy l !! (hash chain, number)).
Definition writeStoppedByWho chain number (stopped : list (Address * Z)) : Ledger DB -> Ledger DB :=
  if (length stopped =? 0)%nat then fun l => l else set_stoppedBy <[(hash chain, number) := stopped]>.

(** The lowest number for every chain, none for the system chain. *)
Definition stop_at (mc : Address) number (mcs : list (Address * Z)) : list (Address * Z) :=
  if Empty mc || bool_decide (mc = SCAccount) || (number =? 0) then mcs
  else
    match List.find (fun cn => bool_decide (fst cn = mc)) mcs with
    | Some _ => map (fun cn => if bool_decide (fst cn = mc) then (mc, Z.min (snd cn) number) else cn) mcs
    | None => mcs ++ [(mc, number)]
    end.
Fixpoint lookup_chains (fuel : nat) l h (mcs : list (Address * Z)) : result halt (list (Address * Z)) :=
  match fuel with
  | O => Err OutOfFuel
  | Datatypes.S fuel =>
      match GetUnitNumber l h with
      | None => Ok mcs
      | Some (mc, number) =>
          if Empty mc then Ok mcs
          else each (fun c mcs => lookup_chains fuel l c mcs) (WalkChildren l h) (stop_at mc number mcs)
      end
  end.
(** Without a proof nothing is stopped; [StopChain] passes none. *)
Definition stopChain l (badChain : Address) (badNumber : Z) (rep : list AffectedUnit) : result halt (list (Address * Z)) :=
  if (length rep =? 0)%nat then Ok []
  else
    let? last := need (GetChainTailHead l badChain) in
    if Number last >? u64 (badNumber + 10) then Ok (stop_at badChain badNumber [])
    else
      let? mcs :=
        match GetHeaderByNumber l badChain badNumber with
        | Some localUnit => lookup_chains (clear_fuel l) l (Header_Hash localUnit) []
        | None => Ok []
        end in
      each (fun b mcs => lookup_chains (clear_fuel l) l (Header_Hash (au_Header b)) mcs) rep mcs.
Definition StopChain chain number l : result halt (Ledger DB) :=
  let? chains := stopChain l chain number [] in
  let l := foldl (fun l cn => post (ChainStatus (fst cn) false) l) l chains in
  let l := foldl (fun l cn => writeStoppedChain (fst cn) (snd cn) l) l chains in
  Ok (writeStoppedByWho chain number chains l).

Definition try_recover (l0 : Ledger DB) (cn : Address * Z) l : Ledger DB :=
  let '(chainCanStart, l) := clearStoppedChainFlag l0 (fst cn) (snd cn) l in
  if chainCanStart then post (ChainStatus (fst cn) true) l else l.
Definition RecoverStartChain chain number (l0 : Ledger DB) : Ledger DB :=
  let l := try_recover l0 (chain, number) l0 in
  let l := foldl (fun l cn => try_recover l0 cn l) l (GetStoppedChainByBad l0 chain number) in
  clearBadChainFlag chain number l.

Definition vote_less (x y : WitenssVote) : bool := bytes_ltb (vote_Sign x) (vote_Sign y).
Definition unit_less (x y : AffectedUnit) : bool := Timestamp (au_Header x) <? Timestamp (au_Header y).
Definition SortProof (rep : list AffectedUnit) : list AffectedUnit :=
  Proposal.Sort unit_less (map (fun a => mkAffected (au_Header a) (Proposal.Sort vote_less (au_Votes a))) rep).

Definition writeBadWitneeProof (rep : list AffectedUnit) now l : Ledger DB :=
  let id := proof_hash rep in
  let l := set_proofs <[id := rep]> l in
  match rep with
  | first :: _ => UpdateBadChainFlag (mkFlag (MC (au_Header first)) (Number (au_Header first)) 0 id) now l
  | [] => l
  end.
Definition ExistProof l (id : Hash) : bool := bool_decide (is_Some (proofs l !! id)).

Definition get_unit_state l h : result Group.error DB :=
  match GetUnitState l h with Some db => Ok db | None => Err Group.ErrUnitNotFound end.

(** A proof that does not hold changes nothing, and its error is logged only. *)
Definition OnFoundBad (rep : list AffectedUnit) now l : result halt (Ledger DB) :=
  if (length rep <=? 1)%nat then Ok l
  else
    let rep := SortProof rep in
    if ExistProof l (proof_hash rep) then Ok l
    else
      match CheckProofWithState signer (get_unit_state l) normal_witness rep, rep with
      | Ok _, first :: _ =>
          let l := writeBadWitneeProof rep now (post (SendProof rep) l) in
          let? l := StopChain (MC (au_Header first)) (Number (au_Header first)) l in
          Ok (post (BadUnitEvent (MC (au_Header first))) l)
      | _, _ => Ok l
      end.

Definition removeBadUnitFromFutures h l : Ledger DB := post (SyncBad h) (add_bad h l).

Definition foundDishonest (witness : Address) (reason : error) l : result halt (Ledger DB) :=
  match reason with
  | ErrDishonest d =>
      let l := post (FoundBadWitness (mkDishonest witness (Bad d) (BadVotes d) (Good d) (GoodVotes d))) l in
      clearUnit true (Header_Hash (Bad d)) l
  | _ => Ok l
  end.
(** A unit whose signer cannot be found ends the process. *)
Definition addBadUnit u (reason : error) l : result halt (Ledger DB) :=
  let l := removeBadUnitFromFutures (Hash_ u) l in
  match unit_Sender (deriveSigner (SignContent_V (u_Sign u))) u with
  | Err _ => Err Crit
  | Ok sender => foundDishonest sender reason l
  end.
Definition reportUnit u (e : error) now l : result halt (Ledger DB) :=
  match e with
  | ErrDishonest d =>
      let rep := [mkAffected (Good d) (GoodVotes d); mkAffected (Bad d) (BadVotes d)] in
      let? l := OnFoundBad rep now l in
      if Header_Hash (Bad d) =? Hash_ u then addBadUnit u e l
      else match GetUnit l (Header_Hash (Bad d)) with Some badUnit => addBadUnit badUnit e l | None => Ok l end
  | _ => addBadUnit u e l
  end.

(** The units of a chain that lost are meant to go; the condition asks for a
    header that is missing, so none goes. *)
Definition recoveryChain (output : UnitID) l : result halt (Ledger DB) :=
  if id_Hash output =? 0 then Ok l
  else
    let l := removeBad (id_Hash output) (set_badUnitHashs (fun s => s ∖ {[id_Hash output]}) l) in
    let l := chainArbitrationDone (ChainID output) (Height output) (id_Hash output) l in
    let? l :=
      match GetHeaderByNumber l (ChainID output) (Height output) with
      | None =>
          if negb (nil_header =? id_Hash output) then
            clearUnit true nil_header (writeBadUnit nil_header (removeBadUnitFromFutures nil_header l))
          else Ok l
      | Some _ => Ok l
      end in
    let l := RecoverStartChain (ChainID output) (Height output) l in
    match GetHeaderByHash l (id_Hash output) with
    | None => Ok (post (MissingAncestors (ChainID output) (id_Hash output)) l)
    | Some _ => Ok l
    end.

(** ** Writing a unit *)

Definition ContainsTopic (lg : StoredLog) (e : Group.event) : bool :=
  bool_decide (Group.Id e ∈ State.Topics (log_Log lg)).

(** The witnesses of a chain changed: from [startNumber] on its units go, and
    the one before it unless it is the one that was chosen. *)
Definition witness_changed (db : DB) (user : Address) l : result halt (Ledger DB) :=
  let startNumber := Duty.GetChainWitnessStartNumber user db in
  let uhash := GetStableHash l user startNumber in
  let? l := if uhash =? 0 then Ok l else ClearUnit uhash true l in
  if startNumber >? 1 then
    let sh := Duty.GetChainSpecialUnit user (startNumber - 1) db in
    if sh =? 0 then Ok l
    else
      let uhash := GetStableHash l user (startNumber - 1) in
      if (uhash =? 0) || (uhash =? sh) then Ok l else ClearUnit uhash true l
  else Ok l.

Definition process_log u (lg : StoredLog) l : result halt (Ledger DB) :=
  let data := State.log_Data (log_Log lg) in
  if ContainsTopic lg Group.ChainArbitrationEvent then
    let? info := need (UnpackChainArbitrationEventLog data) in
    let '(chain, number) := info in
    if bool_decide (chain = SCAccount) then Ok l
    else StopChain chain number (writeChainInInArbitration chain l)
  else if ContainsTopic lg Group.ChainArbitrationEndEvent then
    let? info := need (UnpackChainArbitrationEndEventLog data) in
    recoveryChain info l
  else if ContainsTopic lg Group.ChainStatusChangedEvent then
    let? info := need (UnpackChainStatusChangedEvent data) in
    let '(chain, first, status) := info in
    Ok (if first && (status =? Group.ChainStatusNormal) then post (ChainActivate chain) l else l)
  else if ContainsTopic lg Group.UserWitnessChangeEvent then
    let? user := need (UnpackUserWitnessChangeLog data) in
    let? db := need (GetUnitState l (Hash_ u)) in
    witness_changed db user l
  else Ok l.
Definition processSystemLogs u (logs : list StoredLog) l : result halt (Ledger DB) :=
  if negb (bool_decide (MC (u_header u) = SCAccount)) || (length logs =? 0)%nat then Ok l
  else each (process_log u) logs l.

Definition writeUnitBody (statedb : DB) u (rs : list Process.Receipt) l : result halt (Ledger DB) :=
  let hd := u_header u in
  let? committed := need (CommitToChain (MC hd) statedb) in
  let '(root, stored) := committed in
  if negb (root =? StateRoot hd) then Err Crit
  else
    let l := WriteChildrens u (set_states <[root := stored]> l) in
    let l := set_fees (Settle.Write (settle_unit u)) l in
    let body := mkBody (Transactions u) (WitnessVotes u) (u_Sign u) in
    Ok (WriteUnitReceipts (Hash_ u) (Number hd) rs (WriteBody (MC hd) (Number hd) (Hash_ u) body rs l)).

Definition store_unit (statedb : DB) u (rs : list Process.Receipt) l : result halt (Ledger DB) :=
  let hd := u_header u in
  let? l := writeUnitBody statedb u rs l in
  Ok (WriteChainTailHash (Hash_ u) (MC hd) (WriteStableHash (Hash_ u) (MC hd) (Number hd) (WriteHeader hd l))).

Definition writeRightUnit (statedb : DB) u (rs : list Process.Receipt) (logs : list StoredLog) l
    : result halt (result error unit * Ledger DB) :=
  let hd := u_header u in
  let? l :=
    if bool_decide (Proposer hd = Witness.PublicPrivateKeyAddr) then
      let uhash := GetStableHash l (MC hd) (Number hd) in
      if uhash =? 0 then Ok l else ClearUnit uhash true l
    else Ok l in
  match GetUnitNumber l (Hash_ u) with
  | Some _ => Ok (Err ErrKnownBlock, l)
  | None =>
      let? l := store_unit statedb u rs l in
      let? l := processSystemLogs u logs l in
      Ok (Ok tt, post (SyncBeta (Hash_ u)) (post (ChainEvent (Hash_ u)) l))
  end.

(** ** Units that arrive *)

(** The engine has verified the unit already, if it is its proposal. *)
Definition VerifyWithProposal l u : result halt (option (MiningResult DB)) :=
  match CurrentProposal (MC (u_header u)) with
  | None => Ok None
  | Some pro =>
      if negb (Hash_ (mr_Unit pro) =? Hash_ u) then Ok None
      else
        match GetChainWitnessLib l (MC (u_header u)) (SCHash (u_header u)) with
        | Err ErrPanic => Err Crit
        | Err _ => Ok None
        | Ok witness =>
            match VerifySeal l u witness with
            | Err _ => Ok None
            | Ok _ => Ok (Some pro)
            end
        end
  end.

(** The first check, with the votes. *)
Definition check_unit_full l now u : result error unit :=
  let? _ := verifyHeader l now u true in
  ValidateBody l u.

Definition refuse_unit u (e : error) now l : result halt (result error unit * Ledger DB) :=
  match e with
  | ErrKnownBlock => Ok (Err e, l)
  | ErrFutureBlock =>
      if Timestamp (u_header u) >? u64 (now + 30 * Second) then Ok (Err e, l)
      else
        match BadUnitCheck l u with
        | (Ok _, l) => Ok (Err e, post (SyncFuture (Hash_ u)) l)
        | (Err _, l) => Ok (Err e, l)
        end
  | ErrUnknownAncestor => Ok (Err e, post (SyncFuture (Hash_ u)) l)
  | ErrPanic => Err Crit
  | _ => let? l := reportUnit u e now l in Ok (Err e, l)
  end.

(** The round of the first vote is traced before anything is checked: a vote
    without nine bytes is a panic. *)
Definition short_vote u : bool :=
  match WitnessVotes u with
  | [] => false
  | v :: _ => (length (Extra v) <? ExtraSealSize)%nat
  end.

Definition InsertUnit now u l : result halt (result error unit * Ledger DB) :=
  if short_vote u then Err Crit
  else if ExistUnit l (Hash_ u) then Ok (Err ErrKnownBlock, l)
  else
    let? proposed := VerifyWithProposal l u in
    match proposed with
    | Some uresult => writeRightUnit (mr_StateDB uresult) u (mr_Receipts uresult) (mr_Logs uresult) l
    | None =>
        if ChainIsInInArbitration l (MC (u_header u)) then Ok (Err ErrInInArbitration, l)
        else
          match BadUnitCheck l u with
          | (Err e, l) => Ok (Err e, l)
          | (Ok _, l) =>
              match arbitrated_check l u with
              | Err e => Ok (Err e, l)
              | Ok _ =>
                  match check_unit_full l now u with
                  | Err e => refuse_unit u e now l
                  | Ok _ =>
                      match VerifyUnit l u (fun l u => verifyHeader l now u false) with
                      | (Err ErrUnknownAncestor, l) => Ok (Err ErrUnknownAncestor, post (SyncFuture (Hash_ u)) l)
                      | (Err ErrPanic, _) => Err Crit
                      | (Err e, l) => let? l := reportUnit u e now l in Ok (Err e, l)
                      | (Ok (rs, statedb, logs), l) => writeRightUnit statedb u rs logs l
                      end
                  end
              end
          end
    end.

(** The number of the unit that was refused. *)
Fixpoint insert_chain now (i : Z) (us : list Unit) l : result halt (Z * result error unit * Ledger DB) :=
  match us with
  | [] => Ok (0, Ok tt, l)
  | u :: us =>
      let? r := InsertUnit now u l in
      let '(answer, l) := r in
      match answer with
      | Err ErrKnownBlock | Ok _ => insert_chain now (i + 1) us l
      | Err e => Ok (i, Err e, l)
      end
  end.
Definition InsertChain now (us : list Unit) l : result halt (Z * result error unit * Ledger DB) := insert_chain now 0 us l.

End DagChain.

End DagChain.
