(* ===== verification/DagSafe.v ===== *)
(** What the chains of units promise: every chain stays one unbroken line from
    the genesis unit to its tail, whatever units arrive and whichever are
    removed. *)
From stdpp Require Import gmap list sorting.
From S2P Require Import Prelude Bech32 Address BftTypes BftValidators EvmWord EvmAnalysis EvmState StateDb Ovm Bloom TxTransition TxProcess ScStore Signing ScGroup ScHeart ScWitness ScDuty ScProposal ScSettle ScReport DagStore UnitValid DagChain.

Import Db Transition Address Store Signing Report Dag Valid DagChain.

Module DagSafe.

Section Safe.
Context {DB : Type} {ST : Storage DB} {C : ScCodec} {B : Btcec} {P : Params} {TC : TxCodec} {K : State.Crypto}.
Context {NM : Witness.Names} {RI : ReportInputs} {CE : ChainEnv} {TP : TxPool} {TR : Tries DB} {PR : Processor DB}.
Context {EV : Group.Events DB} {WC : Settle.WorkCodec} {SR : Proposal.Sorting} {SE : SystemEvents} {EN : Engines DB}.
Open Scope result_scope.

Implicit Types (l : Ledger DB) (u : Unit) (h : Hash) (chain : Address) (number now : Z) (hd : Header).

(** No header hashes to the empty hash, and the genesis unit is the unit 0 of
    the system chain. *)
Context (hash_not_empty : forall hd, Header_Hash hd <> 0).
Context (genesis_zero : Number (u_header genesisUnit) = 0) (genesis_chain : MC (u_header genesisUnit) = SCAccount).

(** ** The invariant *)

Definition tail_hash l (c : bytes) : Hash := let h := default 0 (tails l !! c) in if h =? 0 then GenesisHash else h.

Record wf l : Prop := {
  wf_genesis : headers l !! GenesisHash = Some (u_header genesisUnit);
  wf_hash h hd : headers l !! h = Some hd -> Header_Hash hd = h;
  wf_number h hd : headers l !! h = Some hd -> 0 <= Number hd < 2 ^ 64;
  wf_stable h hd : headers l !! h = Some hd -> stable l !! (hash (MC hd), Number hd) = Some h;
  wf_stored (c : bytes) n h : stable l !! (c, n) = Some h -> exists hd, headers l !! h = Some hd /\ hash (MC hd) = c /\ Number hd = n;
  wf_parent h hd : headers l !! h = Some hd -> h = GenesisHash \/
    exists p, headers l !! ParentHash hd = Some p /\ Number hd = Number p + 1 /\ (Number p = 0 \/ hash (MC p) = hash (MC hd)) /\
      Timestamp p < Timestamp hd /\ h ∈ WalkChildren l (ParentHash hd);
  wf_tail (c : bytes) : exists hd, headers l !! tail_hash l c = Some hd /\ (tail_hash l c = GenesisHash \/ hash (MC hd) = c) /\
    forall h' hd', headers l !! h' = Some hd' -> hash (MC hd') = c -> Number hd' <= Number hd
}.

(** What the invariant speaks of. *)
Definition core l := (headers l, stable l, tails l, children l).

Lemma core_wf l l' : core l = core l' -> wf l -> wf l'.
Proof.
  unfold core. intros [= Hh Hs Ht Hc] W. destruct W as [W1 W2 W3 W4 W5 W6 W7].
  split; unfold tail_hash, WalkChildren in *; rewrite <- ?Hh, <- ?Hs, <- ?Ht, <- ?Hc; auto.
Qed.

Lemma core_fold {X} (f : Ledger DB -> X -> Ledger DB) xs l : (forall l x, core (f l x) = core l) -> core (foldl f l xs) = core l.
Proof. intros F. revert l. induction xs as [|x xs IH]; intros l; [done|]. cbn. by rewrite IH. Qed.

Lemma GetHeaderByHash_wf l h : wf l -> GetHeaderByHash l h = headers l !! h.
Proof.
  intros W. unfold GetHeaderByHash. destruct (Z.eqb_spec h GenesisHash) as [->|]; [|done]. by rewrite (wf_genesis l W).
Qed.

Lemma stored_not_zero l h hd : wf l -> headers l !! h = Some hd -> h <> 0.
Proof. intros W E. rewrite <- (wf_hash l W h hd E). apply hash_not_empty. Qed.

Lemma zero_is_genesis l h hd : wf l -> headers l !! h = Some hd -> Number hd = 0 -> h = GenesisHash.
Proof.
  intros W E N. destruct (wf_parent l W h hd E) as [?|(p & Ep & Np & _)]; [done|].
  pose proof (wf_number l W _ _ Ep). lia.
Qed.

Lemma genesis_number l hd : wf l -> headers l !! GenesisHash = Some hd -> Number hd = 0.
Proof. intros W E. rewrite (wf_genesis l W) in E. congruence. Qed.

(** One unit at a height. *)
Lemma one_at_height l h1 h2 hd1 hd2 :
  wf l -> headers l !! h1 = Some hd1 -> headers l !! h2 = Some hd2 ->
  hash (MC hd1) = hash (MC hd2) -> Number hd1 = Number hd2 -> h1 = h2.
Proof.
  intros W E1 E2 M N. pose proof (wf_stable l W _ _ E1) as S1. pose proof (wf_stable l W _ _ E2) as S2. congruence.
Qed.

(** Below a unit its chain has a unit at every height. *)
Lemma below l h hd k :
  wf l -> headers l !! h = Some hd -> 1 <= k <= Number hd ->
  exists h' hd', headers l !! h' = Some hd' /\ hash (MC hd') = hash (MC hd) /\ Number hd' = k.
Proof.
  intros W E [K1 K2]. revert h hd E K2.
  assert (forall d h hd, headers l !! h = Some hd -> Number hd = k + Z.of_nat d ->
    exists h' hd', headers l !! h' = Some hd' /\ hash (MC hd') = hash (MC hd) /\ Number hd' = k) as H.
  { induction d as [|d IH]; intros h hd E N; [exists h, hd; split_and!; [done|done|lia]|].
    destruct (wf_parent l W h hd E) as [->|(p & Ep & Np & Mp & _)].
    - rewrite (genesis_number l hd W E) in N. lia.
    - destruct (IH (ParentHash hd) p Ep ltac:(lia)) as (h' & hd' & E' & M' & N').
      destruct Mp as [Z0|Mp]; [lia|]. exists h', hd'. split_and!; [done|congruence|done]. }
  intros h hd E K2. apply (H (Z.to_nat (Number hd - k)) h hd E). lia.
Qed.

Lemma GetStableHash_stored l chain number :
  wf l -> GetStableHash l chain number <> 0 ->
  exists hd, headers l !! GetStableHash l chain number = Some hd /\ Number hd = number /\ (number <> 0 -> hash (MC hd) = hash chain).
Proof.
  intros W. unfold GetStableHash. set (ch := if number =? 0 then SCAccount else chain).
  destruct (stable l !! (hash ch, number)) as [h|] eqn:E; [|done]. cbn. intros _.
  destruct (wf_stored l W _ _ _ E) as (hd & Eh & M & N). exists hd. split_and!; [done|done|].
  intros N0. unfold ch in M. by rewrite (proj2 (Z.eqb_neq _ _) N0) in M.
Qed.

Lemma stored_GetStableHash l h hd : wf l -> headers l !! h = Some hd -> GetStableHash l (MC hd) (Number hd) = h.
Proof.
  intros W E. unfold GetStableHash. destruct (Z.eqb_spec (Number hd) 0) as [N|N].
  - pose proof (zero_is_genesis l h hd W E N) as ->. rewrite (wf_genesis l W) in E. injection E as <-.
    pose proof (wf_stable l W _ _ (wf_genesis l W)) as S. rewrite genesis_chain in S. by rewrite S.
  - by rewrite (wf_stable l W h hd E).
Qed.

(** Nothing at a height: nothing above. *)
Lemma nothing_above l chain number :
  wf l -> 1 <= number -> GetStableHash l chain number = 0 ->
  forall h hd, headers l !! h = Some hd -> hash (MC hd) = hash chain -> Number hd < number.
Proof.
  intros W N1 Z0 h hd E M. destruct (Z.lt_ge_cases (Number hd) number) as [|G]; [done|].
  destruct (below l h hd number W E ltac:(lia)) as (h' & hd' & E' & M' & N').
  pose proof (wf_stable l W h' hd' E') as S. unfold GetStableHash in Z0.
  rewrite (proj2 (Z.eqb_neq number 0)) in Z0 by lia. rewrite M', M, N' in S. rewrite S in Z0. cbn in Z0.
  by apply (stored_not_zero l h' hd' W) in E'.
Qed.

(** ** Storing a unit *)

Lemma WalkChildren_add h p q l :
  WalkChildren (add_child h p l) q = WalkChildren l q ++ (if bool_decide (p = q) && negb (p =? 0) then [h] else []).
Proof.
  unfold add_child. destruct (Z.eqb_spec p 0) as [->|N]; cbn [negb]; [by rewrite andb_false_r, app_nil_r|].
  rewrite andb_true_r. unfold WalkChildren. cbn [children set_children].
  destruct (bool_decide_reflect (p = q)) as [->|M]; [by rewrite lookup_insert_eq|]. by rewrite lookup_insert_ne, app_nil_r.
Qed.

Lemma add_child_core h p l : (headers (add_child h p l), stable (add_child h p l), tails (add_child h p l)) = (headers l, stable l, tails l).
Proof. unfold add_child. by destruct (p =? 0). Qed.

Lemma WriteChildrens_core u l :
  (headers (WriteChildrens u l), stable (WriteChildrens u l), tails (WriteChildrens u l)) = (headers l, stable l, tails l).
Proof.
  unfold WriteChildrens. generalize (references u). intros ps. revert l. induction ps as [|p ps IH]; intros l; [done|].
  cbn [foldl]. rewrite IH. apply add_child_core.
Qed.

Lemma WriteChildrens_old u l q h : h ∈ WalkChildren l q -> h ∈ WalkChildren (WriteChildrens u l) q.
Proof.
  unfold WriteChildrens. generalize (references u). intros ps. revert l. induction ps as [|p ps IH]; intros l H; [done|].
  cbn [foldl]. apply IH. rewrite WalkChildren_add. apply elem_of_app. by left.
Qed.

Lemma WriteChildrens_new u l q : q ∈ references u -> q <> 0 -> Hash_ u ∈ WalkChildren (WriteChildrens u l) q.
Proof.
  unfold WriteChildrens. intros H N. revert l. induction H as [q ps|q p ps H IH]; intros l; cbn [foldl].
  - assert (Hash_ u ∈ WalkChildren (add_child (Hash_ u) q l) q) as H.
    { rewrite WalkChildren_add, (proj2 (Z.eqb_neq q 0)) by done. rewrite bool_decide_eq_true_2 by done. apply elem_of_app. right. apply list_elem_of_singleton. done. }
    revert H. generalize (add_child (Hash_ u) q l). induction ps as [|p ps IH]; intros l' H; [done|].
    cbn [foldl]. apply IH. rewrite WalkChildren_add. apply elem_of_app. by left.
  - by apply IH.
Qed.

Lemma WriteChildrens_children u l l' q : children l = children l' -> WalkChildren (WriteChildrens u l) q = WalkChildren (WriteChildrens u l') q.
Proof.
  unfold WriteChildrens. generalize (references u). intros ps. revert l l'. induction ps as [|p ps IH]; intros l l' E.
  - unfold WalkChildren. cbn. by rewrite E.
  - cbn [foldl]. apply IH. unfold add_child. destruct (p =? 0); [done|]. cbn. by rewrite E.
Qed.

Lemma parent_referenced u : ParentHash (u_header u) ∈ references u.
Proof. apply elem_of_remove_dups. left. Qed.

Lemma write_statuses_core h i ts rs l : core (write_statuses h i ts rs l) = core l.
Proof. revert i rs l. induction ts as [|x ts IH]; intros i rs l; [done|]. cbn [write_statuses]. by rewrite IH. Qed.

Lemma WriteBody_core chain number h b rs l : core (WriteBody chain number h b rs l) = core l.
Proof.
  unfold WriteBody, WriteUnitBody. set (l1 := write_statuses _ _ _ _ _).
  assert (core l1 = core l) as <- by apply write_statuses_core.
  set (l2 := foldl _ l1 _). assert (core l2 = core l1) as <- by (apply core_fold; intros l' x; by destruct (Process.Tx x)).
  by destruct (length _ =? 0)%nat.
Qed.

(** The tables after a unit was stored. *)
Lemma store_unit_tables statedb u rs l l' :
  store_unit statedb u rs l = Ok l' ->
  let hd := u_header u in
  headers l' = <[Hash_ u := hd]> (headers l) /\ stable l' = <[(hash (MC hd), Number hd) := Hash_ u]> (stable l) /\
  tails l' = <[hash (MC hd) := Hash_ u]> (tails l) /\ (forall q, WalkChildren l' q = WalkChildren (WriteChildrens u l) q).
Proof.
  unfold store_unit, writeUnitBody. destruct (CommitToChain _ _) as [[root stored]|]; [|done]. cbn [need result_bind].
  destruct (negb _); [done|]. cbn [result_bind]. intros [= <-]. cbv zeta.
  set (l1 := set_fees _ _). set (l2 := WriteBody _ _ _ _ _ l1).
  assert (core l2 = core l1) as E by apply WriteBody_core.
  assert (core l1 = core (WriteChildrens u (set_states <[root:=stored]> l))) as E1 by done.
  rewrite E1 in E. unfold core in E. injection E as Eh Es Et Ec.
  pose proof (WriteChildrens_core u (set_states <[root:=stored]> l)) as [= Ch Cs Ct].
  split_and!.
  - cbn. by rewrite Eh, Ch.
  - cbn. by rewrite Es, Cs.
  - cbn. by rewrite Et, Ct.
  - intros q. change (default [] (children l2 !! q) = WalkChildren (WriteChildrens u l) q). rewrite Ec.
    by apply WriteChildrens_children.
Qed.

(** The unit continues its chain, whose height is free. *)
Record extends l u : Prop := {
  ext_range : Number (u_header u) < 2 ^ 64;
  ext_new : headers l !! Hash_ u = None;
  ext_free : GetStableHash l (MC (u_header u)) (Number (u_header u)) = 0;
  ext_parent : exists p, headers l !! ParentHash (u_header u) = Some p /\ Number (u_header u) = Number p + 1 /\
    (Number p = 0 \/ hash (MC p) = hash (MC (u_header u))) /\ Timestamp p < Timestamp (u_header u)
}.

Lemma store_unit_wf statedb u rs l l' : wf l -> extends l u -> store_unit statedb u rs l = Ok l' -> wf l'.
Proof.
  intros W [Range New Free (p & Ep & Np & Mp & Tp)] E. destruct (store_unit_tables _ _ _ _ _ E) as (Eh & Es & Et & Ec).
  set (hd := u_header u) in *. set (h := Hash_ u) in *. cbv zeta in *.
  pose proof (wf_number l W _ _ Ep) as Pp.
  assert (h <> 0) as H0 by apply hash_not_empty.
  pose proof (nothing_above l (MC hd) (Number hd) W ltac:(lia) Free) as Above.
  assert (h <> GenesisHash) as Hg by (intros G; rewrite G, (wf_genesis l W) in New; done).
  assert (stable l !! (hash (MC hd), Number hd) = None) as Sfree.
  { destruct (stable l !! _) as [h'|] eqn:S; [|done]. destruct (wf_stored l W _ _ _ S) as (hd' & E' & M' & N').
    specialize (Above _ _ E' M'). lia. }
  split.
  - rewrite Eh, lookup_insert_ne by done. apply (wf_genesis l W).
  - intros h' hd'. rewrite Eh. intros [[<- <-]|[_ E']]%lookup_insert_Some; [done|]. by apply (wf_hash l W).
  - intros h' hd'. rewrite Eh. intros [[<- <-]|[_ E']]%lookup_insert_Some; [lia|]. by apply (wf_number l W) in E'.
  - intros h' hd'. rewrite Eh, Es. intros [[<- <-]|[_ E']]%lookup_insert_Some; [by rewrite lookup_insert_eq|].
    apply (wf_stable l W) in E'. rewrite lookup_insert_ne; [done|]. congruence.
  - intros c n h'. rewrite Es. intros [[[= <- <-] <-]|[_ E']]%lookup_insert_Some.
    + exists hd. by rewrite Eh, lookup_insert_eq.
    + destruct (wf_stored l W _ _ _ E') as (hd' & Eh' & M' & N'). exists hd'. split_and!; [|done..].
      rewrite Eh, lookup_insert_ne; [done|]. intros ->. congruence.
  - intros h' hd'. rewrite Eh. intros [[<- <-]|[_ E']]%lookup_insert_Some.
    + right. exists p. split_and!; [|done..|].
      * rewrite lookup_insert_ne; [done|]. intros G. rewrite <- G in Ep. congruence.
      * rewrite Ec. apply WriteChildrens_new; [apply parent_referenced|]. by apply (stored_not_zero l _ p W).
    + destruct (wf_parent l W _ _ E') as [?|(p' & Ep' & Np' & Mp' & Tp' & Cp')]; [by left|]. right. exists p'.
      split_and!; [|done..|].
      * rewrite lookup_insert_ne; [done|]. intros G. rewrite <- G in Ep'. congruence.
      * rewrite Ec. by apply WriteChildrens_old.
  - intros c. unfold tail_hash. rewrite Et. destruct (decide (c = hash (MC hd))) as [->|Nc].
    + rewrite lookup_insert_eq. change (default 0 (Some h)) with h. cbv zeta. rewrite (proj2 (Z.eqb_neq h 0)) by done. exists hd.
      rewrite Eh, lookup_insert_eq. split_and!; [done|by right|].
      intros h' hd' [[<- <-]|[_ E']]%lookup_insert_Some M; [lia|]. specialize (Above _ _ E' M). lia.
    + rewrite lookup_insert_ne by congruence. destruct (wf_tail l W c) as (t & E1 & E2 & E3). unfold tail_hash in E1, E2. exists t.
      rewrite Eh. rewrite lookup_insert_ne by (intros G; rewrite <- G in E1; congruence). split_and!; [done|done|].
      intros h' hd' [[<- <-]|[_ E']]%lookup_insert_Some M; [congruence|by apply (E3 h')].
Qed.

(** ** Removing units *)

Definition removable l h : Prop := is_Some (headers l !! h) /\ h <> GenesisHash.
(** [c] is a stored child of [h]. *)
Definition child l c h : Prop := c ∈ WalkChildren l h /\ removable l c /\ removable l h.

(** [h'] is [h] or refers to it, through stored units. *)
Inductive descends l : Hash -> Hash -> Prop :=
| descends_self h : removable l h -> descends l h h
| descends_child h c h' : removable l h -> c ∈ WalkChildren l h -> descends l c h' -> descends l h h'.

(** Exactly the units of [Q] are gone. *)
Record gone l (Q : Hash -> Prop) l' : Prop := {
  gone_wf : wf l';
  gone_children : children l' = children l;
  gone_sub : headers l' ⊆ headers l;
  gone_in x : Q x -> headers l' !! x = None;
  gone_only x : headers l' !! x = None -> Q x \/ headers l !! x = None
}.

Lemma gone_none l (Q : Hash -> Prop) : wf l -> (forall x, Q x -> headers l !! x = None) -> gone l Q l.
Proof. intros W H. split; auto. Qed.

Lemma removable_sub l l' h : headers l' ⊆ headers l -> removable l' h -> removable l h.
Proof. intros S [[hd E] N]. split; [|done]. exists hd. by eapply lookup_weaken. Qed.

Lemma descends_sub l l' a b : children l' = children l -> headers l' ⊆ headers l -> descends l' a b -> descends l a b.
Proof.
  intros Ec S. induction 1 as [h R|h c h' R I _ IH].
  - apply descends_self. by eapply removable_sub.
  - eapply descends_child; [by eapply removable_sub| |exact IH]. unfold WalkChildren in *. by rewrite <- Ec.
Qed.

Lemma descends_removable l a b : descends l a b -> removable l b.
Proof. by induction 1. Qed.
Lemma descends_from l a b : descends l a b -> removable l a.
Proof. by destruct 1. Qed.
Lemma descends_trans l a b c : descends l a b -> descends l b c -> descends l a c.
Proof. induction 1 as [|h x h' R I _ IH]; [done|]. intros D. eapply descends_child; eauto. Qed.

(** What was not gone before is still reached in what is left. *)
Lemma descends_left l (Q : Hash -> Prop) l1 a b :
  gone l Q l1 -> (forall x y, Q x -> descends l x y -> Q y) -> descends l a b -> headers l1 !! b <> None -> descends l1 a b.
Proof.
  intros G Cl D Nb. assert (forall x, headers l1 !! x = None -> descends l x b -> False) as Dead.
  { intros x Ex Dx. destruct (gone_only _ _ _ G x Ex) as [Qx|E].
    - apply Nb. apply (gone_in _ _ _ G). by eapply Cl.
    - destruct (descends_from _ _ _ Dx) as [[? ?] _]. congruence. }
  assert (forall x, removable l x -> descends l x b -> removable l1 x) as Alive.
  { intros x [_ Nx] Dx. split; [|done]. destruct (headers l1 !! x) eqn:E; [by eexists|]. destruct (Dead x E Dx). }
  induction D as [h R|h c h' R I D IH].
  - apply descends_self. apply Alive; [done|by apply descends_self].
  - eapply descends_child; [apply Alive; [done|by eapply descends_child]| |by apply IH].
    unfold WalkChildren. by rewrite (gone_children _ _ _ G).
Qed.

Lemma gone_more l (Q : Hash -> Prop) l1 c l2 :
  gone l Q l1 -> (forall x y, Q x -> descends l x y -> Q y) -> gone l1 (descends l1 c) l2 -> gone l (fun x => Q x \/ descends l c x) l2.
Proof.
  intros G Cl G'. split.
  - apply (gone_wf _ _ _ G').
  - by rewrite (gone_children _ _ _ G'), (gone_children _ _ _ G).
  - etrans; [apply (gone_sub _ _ _ G')|apply (gone_sub _ _ _ G)].
  - intros x H. destruct (headers l2 !! x) as [hd|] eqn:E; [exfalso|done].
    pose proof (lookup_weaken _ _ _ _ E (gone_sub _ _ _ G')) as E1.
    destruct H as [Qx|D]; [by rewrite (gone_in _ _ _ G x Qx) in E1|].
    assert (descends l1 c x) as D1 by (eapply descends_left; [exact G|exact Cl|exact D|congruence]).
    by rewrite (gone_in _ _ _ G' x D1) in E.
  - intros x E. destruct (gone_only _ _ _ G' x E) as [D|E1].
    + left. right. eapply descends_sub; [| |exact D]; [apply (gone_children _ _ _ G)|apply (gone_sub _ _ _ G)].
    + destruct (gone_only _ _ _ G x E1); [left; by left|by right].
Qed.

Lemma gone_iff l (Q Q' : Hash -> Prop) l' : (forall x, Q x <-> Q' x) -> gone l Q l' -> gone l Q' l'.
Proof. intros H []. split; auto; [intros x Hx; apply gone_in0; by apply H|]. intros x Hx. destruct (gone_only0 x Hx); [left; by apply H|by right]. Qed.

(** No unit below itself. *)
Lemma acc_no_loop {A} (R : A -> A -> Prop) x : Acc R x -> tc R x x -> False.
Proof.
  induction 1 as [x _ IH]. intros T. assert (exists y, rtc R x y /\ R y x) as (y & T1 & T2).
  { revert T. apply (tc_ind_r (fun z => exists y, rtc R x y /\ R y z)); [intros z H; by exists x|]. intros y z T H _. exists y. split; [by apply tc_rtc|done]. }
  apply (IH y T2). eapply tc_rtc_r; [by apply tc_once|done].
Qed.

Lemma rollback_fees_core u l l' : rollback_fees u l = Ok l' -> core l' = core l.
Proof. unfold rollback_fees. destruct (Settle.RollbackWorkFee _ _); [|done]. by intros [= <-]. Qed.

Lemma DelUnitBody_core chain number h l : core (DelUnitBody chain number h l) = core l.
Proof.
  unfold DelUnitBody. generalize (GetUnitOringTxHash (set_bodies (delete (hash chain, h, number)) l) h number). intros ts.
  change (core (foldl (fun l t => set_txs (delete t) l) (set_bodies (delete (hash chain, h, number)) l) ts) = core l).
  by rewrite core_fold.
Qed.

(** The tables after a unit was dropped. *)
Lemma drop_unit_tables h hd removed l r :
  drop_unit true h hd removed l = Ok r ->
  headers (snd r) = delete h (headers l) /\ stable (snd r) = delete (hash (MC hd), Number hd) (stable l) /\
  tails (snd r) = <[hash (MC hd) := if Number hd =? 1 then 0 else ParentHash hd]> (tails l) /\ children (snd r) = children l.
Proof.
  unfold drop_unit. set (l1 := WriteChainTailHash _ _ _).
  assert (forall r1, (match GetUnit l1 h with
    | Some u => let? l := rollback_fees u l1 in
        Ok (removed ++ Transactions u, foldl (fun l x => delTransactionStatus h (Process.TxHash x) (Process.Action x) l) l (Transactions u))
    | None => Ok (removed, l1) end) = Ok r1 -> core (snd r1) = core l1) as H.
  { intros r1. destruct (GetUnit l1 h) as [u|]; [|by intros [= <-]].
    destruct (rollback_fees u l1) as [l2|] eqn:E; [|done]. cbn [result_bind]. intros [= <-]. cbn [snd].
    rewrite core_fold by done. by eapply rollback_fees_core. }
  destruct (match GetUnit l1 h with Some _ => _ | None => _ end) as [[ts l2]|] eqn:E; [|done]. specialize (H _ eq_refl). cbn [result_bind snd] in *.
  intros [= <-]. cbn [snd]. unfold DeleteUnit, DeleteChildrenRelation.
  assert (core (DelUnitBody (MC hd) (Number hd) h (DeleteHeader h l2)) = core (DeleteHeader h l2)) as D by apply DelUnitBody_core.
  unfold core in D, H. cbn in D, H. injection D as Dh Ds Dt Dc. injection H as Hh Hs Ht Hc.
  cbn. rewrite Dh, Ds, Dt, Dc, Hh, Hs, Ht, Hc. done.
Qed.

Lemma highest l h hd h' hd' :
  wf l -> headers l !! h = Some hd -> h <> GenesisHash ->
  (forall x xd, headers l !! x = Some xd -> x <> GenesisHash -> ParentHash xd <> h) ->
  headers l !! h' = Some hd' -> hash (MC hd') = hash (MC hd) -> Number hd' <= Number hd.
Proof.
  intros W E N No E' M. destruct (Z.le_gt_cases (Number hd') (Number hd)) as [|G]; [done|]. exfalso.
  pose proof (wf_number l W _ _ E).
  destruct (below l h' hd' (Number hd + 1) W E' ltac:(lia)) as (x & xd & Ex & Mx & Nx).
  assert (x <> GenesisHash) as Xg by (intros ->; rewrite (genesis_number l xd W Ex) in Nx; lia).
  destruct (wf_parent l W _ _ Ex) as [?|(p & Ep & Np & Mp & _)]; [done|].
  destruct Mp as [Z0|Mp]; [apply N; eapply zero_is_genesis; [done|exact E|lia]|].
  apply (No x xd Ex Xg). eapply (one_at_height l); [done|exact Ep|exact E|congruence|lia].
Qed.

Lemma drop_unit_wf h hd removed l r :
  wf l -> headers l !! h = Some hd -> h <> GenesisHash ->
  (forall x xd, headers l !! x = Some xd -> x <> GenesisHash -> ParentHash xd <> h) ->
  drop_unit true h hd removed l = Ok r -> wf (snd r).
Proof.
  intros W E N No D. destruct (drop_unit_tables _ _ _ _ _ D) as (Eh & Es & Et & Ec). set (l' := snd r) in *.
  assert (forall x xd, headers l' !! x = Some xd -> x <> h /\ headers l !! x = Some xd) as Old.
  { intros x xd. rewrite Eh. intros [? ?]%lookup_delete_Some. split; [congruence|done]. }
  assert (forall x, x <> h -> headers l' !! x = headers l !! x) as Same by (intros x Nx; by rewrite Eh, lookup_delete_ne by congruence).
  split.
  - rewrite Same by congruence. apply (wf_genesis l W).
  - intros x xd [_ Ex]%Old. by apply (wf_hash l W).
  - intros x xd [_ Ex]%Old. by apply (wf_number l W) in Ex.
  - intros x xd [Nx Ex]%Old. rewrite Es, lookup_delete_ne; [by apply (wf_stable l W)|].
    intros [= M M']. apply Nx. by eapply (one_at_height l).
  - intros c n x. rewrite Es. intros [Nk Ex]%lookup_delete_Some. destruct (wf_stored l W _ _ _ Ex) as (xd & E' & M' & N').
    exists xd. split_and!; [|done..]. rewrite Same; [done|]. intros ->. congruence.
  - intros x xd [Nx Ex]%Old. destruct (wf_parent l W _ _ Ex) as [?|(p & Ep & Np & Mp & Tp & Cp)]; [by left|].
    destruct (decide (x = GenesisHash)) as [|Xg]; [by left|]. right. exists p.
    split_and!; [|done..|by unfold WalkChildren in *; rewrite Ec]. rewrite Same; [done|]. by apply (No x xd).
  - intros c. unfold tail_hash. rewrite Et. destruct (decide (c = hash (MC hd))) as [->|Nc].
    + rewrite lookup_insert_eq. destruct (wf_parent l W _ _ E) as [?|(p & Ep & Np & Mp & Tp & Cp)]; [done|].
      assert (forall x xd, headers l' !! x = Some xd -> hash (MC xd) = hash (MC hd) -> Number xd < Number hd) as Low.
      { intros x xd [Nx Ex]%Old M. pose proof (highest l h hd x xd W E N No Ex M).
        destruct (Z.eq_dec (Number xd) (Number hd)); [|lia]. destruct Nx. by eapply (one_at_height l). }
      destruct (Z.eqb_spec (Number hd) 1) as [N1|N1]; change (default 0 (Some ?x)) with x; cbv zeta.
      * change (0 =? 0) with true. exists (u_header genesisUnit). split_and!; [|by left|].
        -- rewrite Same by congruence. apply (wf_genesis l W).
        -- intros x xd Ex M. specialize (Low _ _ Ex M). rewrite genesis_zero. lia.
      * rewrite (proj2 (Z.eqb_neq (ParentHash hd) 0)) by by apply (stored_not_zero l _ p W). exists p. split_and!.
        -- rewrite Same; [done|]. intros G. rewrite G in Ep. assert (p = hd) as -> by congruence. lia.
        -- right. destruct Mp as [Z0|Mp]; [|done]. lia.
        -- intros x xd Ex M. specialize (Low _ _ Ex M). lia.
    + rewrite lookup_insert_ne by congruence. destruct (wf_tail l W c) as (t & E1 & E2 & E3). unfold tail_hash in E1, E2. exists t.
      split_and!; [|done|].
      * rewrite Same; [done|]. intros G. destruct E2 as [G'|M]; [rewrite G' in G; congruence|]. rewrite G in E1. congruence.
      * intros x xd [_ Ex]%Old M. by apply (E3 x).
Qed.

Lemma descends_tc l a b : descends l a b -> a = b \/ tc (child l) b a.
Proof.
  induction 1 as [h R|h c h' R I D IH]; [by left|]. right.
  assert (child l c h) as Ch by (split_and!; [done|by eapply descends_from|done]).
  destruct IH as [->|T]; [by apply tc_once|by eapply tc_r].
Qed.

Lemma acc_descends l a b : Acc (child l) a -> descends l a b -> Acc (child l) b.
Proof.
  intros A D. induction D as [|h c h' R I D IH]; [done|]. apply IH. apply (Acc_inv A). split_and!; [done|by eapply descends_from|done].
Qed.

(** What goes and what is left are well founded: so is the whole. *)
Lemma acc_back l (Q : Hash -> Prop) l1 a :
  gone l Q l1 -> (forall x, Q x -> Acc (child l) x) -> removable l1 a -> Acc (child l1) a -> Acc (child l) a.
Proof.
  intros G HQ R A. induction A as [a _ IH]. constructor. intros y (I & Ry & _).
  destruct (headers l1 !! y) as [yd|] eqn:E.
  - assert (removable l1 y) as R1 by (split; [by eexists|apply Ry]). apply IH; [|done].
    split_and!; [|done..]. unfold WalkChildren in *. by rewrite (gone_children _ _ _ G).
  - destruct (gone_only _ _ _ G y E) as [Qy|N]; [by apply HQ|]. destruct Ry as [[? ?] _]. congruence.
Qed.

Definition clears (fuel : nat) h : Prop :=
  forall l r, wf l -> clearUnitWithTxs fuel true h l = Ok r ->
    gone l (descends l h) (snd r) /\ (removable l h -> Acc (child l) h).

Lemma clear_children fuel l cs : (forall h, clears fuel h) ->
  forall (Q : Hash -> Prop) l1 removed r,
  gone l Q l1 -> (forall x y, Q x -> descends l x y -> Q y) -> (forall x, Q x -> Acc (child l) x) ->
  each (fun c r => let '(removed, l) := r in
                   let? r := clearUnitWithTxs fuel true c l in
                   let '(txs, l) := r in Ok (removed ++ txs, l)) cs (removed, l1) = Ok r ->
  gone l (fun x => Q x \/ exists c, c ∈ cs /\ descends l c x) (snd r) /\ forall c, c ∈ cs -> removable l c -> Acc (child l) c.
Proof.
  intros IH. induction cs as [|c cs IHcs]; intros Q l1 removed r G Cl HQ.
  - intros [= <-]. split; [|by intros c H%not_elem_of_nil]. eapply gone_iff; [|exact G]. intros x. split; [by left|].
    intros [?|(c & H%not_elem_of_nil & _)]; done.
  - cbn [each]. destruct (clearUnitWithTxs fuel true c l1) as [[txs l2]|] eqn:E; [|done]. cbn [result_bind].
    destruct (IH c l1 (txs, l2) (gone_wf _ _ _ G) E) as [G2 A2]. cbn [snd] in *. intros H.
    assert (removable l c -> Acc (child l) c) as Ac.
    { intros Rc. destruct (headers l1 !! c) as [cd|] eqn:Ec.
      - assert (removable l1 c) as R1 by (split; [by eexists|apply Rc]). eapply acc_back; eauto.
      - destruct (gone_only _ _ _ G c Ec) as [Qc|N]; [by apply HQ|]. destruct Rc as [[? ?] _]. congruence. }
    destruct (IHcs (fun x => Q x \/ descends l c x) l2 (removed ++ txs) r) as [G3 A3]; [by eapply gone_more| | |exact H|].
    + intros x y [Qx|D] D'; [left; by eapply Cl|right; by eapply descends_trans].
    + intros x [Qx|D]; [by apply HQ|]. eapply acc_descends; [apply Ac; by eapply descends_from|done].
    + split.
      * eapply gone_iff; [|exact G3]. intros x. split.
        -- intros [[?|D]|(c' & I & D)]; [by left|right; exists c; split; [left|done]|right; exists c'; split; [by right|done]].
        -- intros [?|(c' & [->|I]%elem_of_cons & D)]; [left; by left|left; by right|right; by exists c'].
      * intros c' [->|I]%elem_of_cons Rc; [by apply Ac|by apply A3].
Qed.

Lemma clear_gone fuel h : clears fuel h.
Proof.
  revert h. induction fuel as [|fuel IH]; intros h l r W; [done|]. cbn [clearUnitWithTxs]. rewrite GetHeaderByHash_wf by done.
  destruct (headers l !! h) as [hd|] eqn:E.
  2:{ intros [= <-]. split; [|intros [[? ?] _]; congruence]. apply gone_none; [done|]. intros x D.
      destruct (descends_from _ _ _ D) as [[? ?] _]. congruence. }
  destruct (Z.eqb_spec (Number hd) 0) as [N|N].
  { intros [= <-]. pose proof (zero_is_genesis l h hd W E N) as ->. split; [|by intros [_ ?]]. apply gone_none; [done|]. intros x D.
    by destruct (descends_from _ _ _ D) as [_ ?]. }
  assert (h <> GenesisHash) as Hg by (intros ->; by rewrite (genesis_number l hd W E) in N).
  assert (removable l h) as Rh by (split; [by eexists|done]).
  destruct (each _ _ _) as [[removed l1]|] eqn:Ee; [|done]. cbn [result_bind].
  destruct (clear_children fuel l (WalkChildren l h) IH (fun _ => False) l [] (removed, l1)) as [G1 A1]; [by apply gone_none|done|done|exact Ee|].
  cbn [snd] in G1. intros D.
  assert (Acc (child l) h) as Ah by (constructor; intros y (I & Ry & _); by apply A1).
  assert (headers l1 !! h = Some hd) as E1.
  { destruct (headers l1 !! h) as [hd'|] eqn:E1; [|exfalso].
    - pose proof (lookup_weaken _ _ _ _ E1 (gone_sub _ _ _ G1)). congruence.
    - destruct (gone_only _ _ _ G1 h E1) as [[[]|(c & I & Dc)]|]; [|congruence].
      assert (child l c h) as Ch by (split_and!; [done|by eapply descends_from|done]).
      apply (acc_no_loop (child l) h Ah). destruct (descends_tc l c h Dc) as [->|T]; [by apply tc_once|by eapply tc_r]. }
  assert (forall x xd, headers l1 !! x = Some xd -> x <> GenesisHash -> ParentHash xd <> h) as No.
  { intros x xd Ex Xg Px. pose proof (lookup_weaken _ _ _ _ Ex (gone_sub _ _ _ G1)) as Exl.
    destruct (wf_parent l W _ _ Exl) as [?|(p & _ & _ & _ & _ & Cp)]; [done|]. rewrite Px in Cp.
    assert (headers l1 !! x = None) by (apply (gone_in _ _ _ G1); right; exists x; split; [done|apply descends_self; split; [by eexists|done]]).
    congruence. }
  destruct (drop_unit_tables _ _ _ _ _ D) as (Eh & _ & _ & Ec). split; [|done]. split.
  - eapply (drop_unit_wf h hd removed l1 r (gone_wf _ _ _ G1)); done.
  - by rewrite Ec, (gone_children _ _ _ G1).
  - rewrite Eh. etrans; [apply delete_subseteq|apply (gone_sub _ _ _ G1)].
  - intros x Dx. rewrite Eh. destruct (decide (x = h)) as [->|Nx]; [by apply lookup_delete_eq|]. rewrite lookup_delete_ne by congruence.
    apply (gone_in _ _ _ G1). right. inversion Dx as [? R|? c ? R I Dc]; subst; [done|]. by exists c.
  - intros x. rewrite Eh. destruct (decide (x = h)) as [->|Nx]; [intros _; left; by apply descends_self|].
    rewrite lookup_delete_ne by congruence. intros Ex. destruct (gone_only _ _ _ G1 x Ex) as [[[]|(c & I & Dc)]|]; [|by right].
    left. by eapply descends_child.
Qed.

Lemma replay_core xs done l : core (replay xs done l) = core l.
Proof.
  revert done l. induction xs as [|x xs IH]; intros done l; [reflexivity|]. cbn [replay].
  destruct (bool_decide _); [apply IH|]. destruct (Process.Tx x) as [t|]; [by rewrite IH|].
  destruct (GetTx _ _); by rewrite IH.
Qed.

Lemma gone_core l (Q : Hash -> Prop) l1 l2 : core l1 = core l2 -> gone l Q l1 -> gone l Q l2.
Proof.
  intros E [G1 G2 G3 G4 G5]. pose proof (core_wf _ _ E G1) as G1'. unfold core in E. injection E as Eh _ _ Ec.
  split; rewrite <- ?Eh, <- ?Ec; auto.
Qed.

Lemma clearUnit_gone h l l' : wf l -> clearUnit true h l = Ok l' -> gone l (descends l h) l' /\ (removable l h -> Acc (child l) h).
Proof.
  intros W. unfold clearUnit. destruct (clearUnitWithTxs _ _ _ _) as [[txs l1]|] eqn:E; [|done]. cbn [result_bind]. intros [= <-].
  destruct (clear_gone _ h l _ W E) as [G A]. split; [|done]. cbn [snd] in G. eapply gone_core; [|exact G]. symmetry. apply replay_core.
Qed.

(** *** The fuel is enough *)

(** References go back in time. *)
Definition grounded l : Prop :=
  forall h c hh hc, c ∈ WalkChildren l h -> headers l !! h = Some hh -> headers l !! c = Some hc -> Timestamp hh < Timestamp hc.
Definition later l (t : Z) : nat := size (filter (fun kv : Hash * Header => t < Timestamp (kv.2)) (headers l)).

Lemma later_sub l l' t : headers l' ⊆ headers l -> (later l' t <= later l t)%nat.
Proof. intros S. apply map_subseteq_size. by apply map_filter_subseteq_mono. Qed.

Lemma later_lt l c hc t : headers l !! c = Some hc -> t < Timestamp hc -> (later l (Timestamp hc) < later l t)%nat.
Proof.
  intros E T. unfold later. apply map_subset_size. split.
  - apply map_filter_subseteq_ext. intros i x _ H. cbn in *. lia.
  - intros S. assert (filter (fun kv : Hash * Header => t < Timestamp kv.2) (headers l) !! c = Some hc) as H by by apply map_lookup_filter_Some.
    pose proof (lookup_weaken _ _ _ _ H S) as H'. apply map_lookup_filter_Some in H' as [_ H']. cbn in H'. lia.
Qed.

Lemma later_size l c hc : headers l !! c = Some hc -> (later l (Timestamp hc) < size (headers l))%nat.
Proof.
  intros E. unfold later. apply map_subset_size. split; [apply map_filter_subseteq|].
  intros S. pose proof (lookup_weaken _ _ _ _ E S) as H. apply map_lookup_filter_Some in H as [_ H]. cbn in H. lia.
Qed.

Lemma grounded_gone l Q l' : gone l Q l' -> grounded l -> grounded l'.
Proof.
  intros G H h c hh hc I Eh Ec. apply (H h c); [by unfold WalkChildren in *; rewrite <- (gone_children _ _ _ G)| |]; eapply lookup_weaken; eauto; apply (gone_sub _ _ _ G).
Qed.

Lemma drop_unit_fuel h hd removed l : drop_unit true h hd removed l <> Err OutOfFuel.
Proof.
  unfold drop_unit. destruct (GetUnit _ _) as [u|]; [|done]. unfold rollback_fees.
  by destruct (Settle.RollbackWorkFee _ _).
Qed.

Lemma each_fuel fuel :
  (forall h l, wf l -> grounded l -> (forall hd, headers l !! h = Some hd -> (later l (Timestamp hd) + 1 < fuel)%nat) -> (0 < fuel)%nat ->
     clearUnitWithTxs fuel true h l <> Err OutOfFuel) ->
  forall cs l removed, wf l -> grounded l ->
  (forall c hd, c ∈ cs -> headers l !! c = Some hd -> (later l (Timestamp hd) + 1 < fuel)%nat) -> (0 < fuel)%nat ->
  each (fun c r => let '(removed, l) := r in
                   let? r := clearUnitWithTxs fuel true c l in
                   let '(txs, l) := r in Ok (removed ++ txs, l)) cs (removed, l) <> Err OutOfFuel.
Proof.
  intros IH. induction cs as [|c cs IHcs]; intros l removed W Gr Hc H0; [done|]. cbn [each].
  assert (clearUnitWithTxs fuel true c l <> Err OutOfFuel) as Nc by (apply IH; try done; intros hd E; apply (Hc c); [left|done]).
  destruct (clearUnitWithTxs fuel true c l) as [[txs l1]|[]] eqn:E; [|done|done]. cbn [result_bind].
  destruct (clear_gone _ _ _ _ W E) as [G _]. cbn [snd] in G. apply IHcs; [apply (gone_wf _ _ _ G)|by eapply grounded_gone| |done].
  intros c' hd I E'. assert (headers l !! c' = Some hd) as El by (eapply lookup_weaken; [exact E'|apply (gone_sub _ _ _ G)]).
  pose proof (Hc c' hd ltac:(by right) El). pose proof (later_sub l l1 (Timestamp hd) (gone_sub _ _ _ G)). lia.
Qed.

Lemma clear_fuel_enough fuel h l :
  wf l -> grounded l -> (forall hd, headers l !! h = Some hd -> (later l (Timestamp hd) + 1 < fuel)%nat) -> (0 < fuel)%nat ->
  clearUnitWithTxs fuel true h l <> Err OutOfFuel.
Proof.
  revert h l. induction fuel as [|fuel IH]; intros h l W Gr Hf H0; [lia|]. cbn [clearUnitWithTxs]. rewrite GetHeaderByHash_wf by done.
  destruct (headers l !! h) as [hd|] eqn:E; [|done]. destruct (Number hd =? 0); [done|]. specialize (Hf hd eq_refl).
  assert (each (fun c r => let '(removed, l) := r in
                   let? r := clearUnitWithTxs fuel true c l in
                   let '(txs, l) := r in Ok (removed ++ txs, l)) (WalkChildren l h) ([], l) <> Err OutOfFuel) as N.
  { apply each_fuel; [exact IH|done|done| |lia]. intros c hc I Ec. pose proof (Gr h c hd hc I E Ec) as T.
    pose proof (later_lt l c hc (Timestamp hd) Ec T). lia. }
  destruct (each _ _ _) as [[removed l1]|[]]; [|done|done]. cbn [result_bind]. apply drop_unit_fuel.
Qed.

Lemma clearUnit_fuel h l : wf l -> grounded l -> clearUnit true h l <> Err OutOfFuel.
Proof.
  intros W Gr. assert (clearUnitWithTxs (clear_fuel l) true h l <> Err OutOfFuel) as N.
  { apply clear_fuel_enough; [done|done| |unfold clear_fuel; lia]. intros hd E. unfold clear_fuel. pose proof (later_size l h hd E). lia. }
  unfold clearUnit. by destruct (clearUnitWithTxs _ _ _ _) as [[? ?]|[]].
Qed.

(** *** Where the process ends *)

(** The fee of [h'], a unit that goes, cannot be taken back. *)
Definition fee_stuck l h : Prop := exists h' u l1, descends l h h' /\ GetUnit l1 h' = Some u /\ rollback_fees u l1 = Err Crit.

Lemma drop_unit_crit h hd removed l : drop_unit true h hd removed l = Err Crit -> exists u l1, GetUnit l1 h = Some u /\ rollback_fees u l1 = Err Crit.
Proof.
  unfold drop_unit. set (l1 := WriteChainTailHash _ _ _). destruct (GetUnit l1 h) as [u|] eqn:E; [|done].
  destruct (rollback_fees u l1) as [l2|e] eqn:F; [done|]. cbn [result_bind]. intros [= ->]. by exists u, l1.
Qed.

Lemma each_crit fuel l : (forall h l1, wf l1 -> clearUnitWithTxs fuel true h l1 = Err Crit -> fee_stuck l1 h) ->
  forall cs removed l1, wf l1 -> headers l1 ⊆ headers l -> children l1 = children l ->
  each (fun c r => let '(removed, l) := r in
                   let? r := clearUnitWithTxs fuel true c l in
                   let '(txs, l) := r in Ok (removed ++ txs, l)) cs (removed, l1) = Err Crit ->
  exists c, c ∈ cs /\ fee_stuck l c.
Proof.
  intros IH. induction cs as [|c cs IHcs]; intros removed l1 W Sub Ec; [done|]. cbn [each].
  destruct (clearUnitWithTxs fuel true c l1) as [[txs l2]|e] eqn:E; cbn [result_bind].
  - destruct (clear_gone _ _ _ _ W E) as [G _]. cbn [snd] in G. intros H.
    destruct (IHcs (removed ++ txs) l2) as (c' & I & F); [apply (gone_wf _ _ _ G)| | |done|exists c'; split; [by right|done]].
    + etrans; [apply (gone_sub _ _ _ G)|done].
    + by rewrite (gone_children _ _ _ G).
  - intros [= ->]. destruct (IH c l1 W E) as (h' & u & l2 & D & F). exists c. split; [left|]. exists h', u, l2.
    split; [by eapply descends_sub|done].
Qed.

Lemma clear_crit fuel h l : wf l -> clearUnitWithTxs fuel true h l = Err Crit -> fee_stuck l h.
Proof.
  revert h l. induction fuel as [|fuel IH]; intros h l W; [done|]. cbn [clearUnitWithTxs]. rewrite GetHeaderByHash_wf by done.
  destruct (headers l !! h) as [hd|] eqn:E; [|done]. destruct (Z.eqb_spec (Number hd) 0) as [|N]; [done|].
  assert (removable l h) as Rh by (split; [by eexists|intros ->; by rewrite (genesis_number l hd W E) in N]).
  destruct (each _ _ _) as [[removed l1]|e] eqn:Ee; cbn [result_bind].
  - intros D. apply drop_unit_crit in D as (u & l2 & F). exists h, u, l2. split; [by apply descends_self|done].
  - intros [= ->]. destruct (each_crit fuel l IH _ _ _ W ltac:(done) ltac:(done) Ee) as (c & I & h' & u & l2 & D & F).
    exists h', u, l2. split; [by eapply descends_child|done].
Qed.

(** C6: When every unit is younger than the units it refers to, removing a unit
    ends, and removes the unit and everything that refers to it, through parents,
    system units and steps, and nothing else; the chains stay unbroken and every
    tail moves back to what is left.  The one exception is that the process ends,
    which it does only if the fee of a unit that goes cannot be taken back.  (That
    units are younger than what they refer to is checked for parents, system units
    and the sources of steps that have a height; a source without one can name the
    unit itself, and then removing does not end: [self_source_never_cleared] of
    [DagAccept].) *)
Theorem clearUnit_spec l h :
  wf l -> grounded l ->
  clearUnit true h l = Err Crit /\ fee_stuck l h \/
  exists l', clearUnit true h l = Ok l' /\ wf l' /\ grounded l' /\ children l' = children l /\
    (forall h', descends l h h' -> headers l' !! h' = None) /\
    (forall h', ~ descends l h h' -> headers l' !! h' = headers l !! h').
Proof.
  intros W Gr. pose proof (clearUnit_fuel h l W Gr) as N. destruct (clearUnit true h l) as [l'|[]] eqn:E; [right| |done].
  2:{ left. split; [done|]. unfold clearUnit in E. destruct (clearUnitWithTxs _ _ _ _) as [[txs l1]|e] eqn:E1; [done|].
      cbn [result_bind] in E. injection E as ->. by eapply clear_crit. }
  destruct (clearUnit_gone h l l' W E) as [G _]. exists l'.
  split_and!; [done|apply (gone_wf _ _ _ G)|by eapply grounded_gone|apply (gone_children _ _ _ G)|apply (gone_in _ _ _ G)|].
  intros h' Nd. destruct (headers l' !! h') as [hd|] eqn:E'.
  - symmetry. eapply lookup_weaken; [exact E'|apply (gone_sub _ _ _ G)].
  - destruct (gone_only _ _ _ G h' E'); [done|congruence].
Qed.

End Safe.

End DagSafe.
