(* ===== verification/DagUnbroken.v ===== *)
(** The chains stay unbroken through everything a node does with units: those
    that arrive, those it removes, and what the system chain decides. *)
From stdpp Require Import gmap list sorting.
From S2P Require Import Prelude Bech32 Address BftTypes BftValidators EvmWord EvmAnalysis EvmState StateDb Ovm Bloom TxTransition TxProcess ScStore Signing ScGroup ScHeart ScWitness ScDuty ScProposal ScSettle ScReport DagStore UnitValid DagChain DagSafe.

Import Db Transition Address Store Signing Report Dag Valid DagChain DagSafe.

Module Unbroken.

Lemma get_ok {A} (e : error) (o : option A) a : get e o = Ok a -> o = Some a.
Proof. destruct o; [|done]. by intros [= ->]. Qed.
Lemma let_ok {E A X} (r : result E A) (f : A -> result E X) x : result_bind r f = Ok x -> exists a, r = Ok a /\ f a = Ok x.
Proof. destruct r as [a|]; [|done]. by exists a. Qed.

(** One check of many is taken apart. *)
Ltac peel H :=
  match type of H with
  | result_bind (get _ _) _ = Ok _ =>
      let a := fresh "a" in let E := fresh "E" in apply let_ok in H as (a & E%get_ok & H)
  | result_bind _ _ = Ok _ => let a := fresh "a" in let E := fresh "E" in apply let_ok in H as (a & E & H)
  | (if ?b then Err _ else _) = Ok _ => let E := fresh "E" in destruct b eqn:E; [discriminate H|]
  end.

Section Unbroken.
Context {DB : Type} {ST : Storage DB} {C : ScCodec} {B : Btcec} {P : Params} {TC : TxCodec} {K : State.Crypto}.
Context {NM : Witness.Names} {RI : ReportInputs} {CE : ChainEnv} {TP : TxPool} {TR : Tries DB} {PR : Processor DB}.
Context {EV : Group.Events DB} {WC : Settle.WorkCodec} {SR : Proposal.Sorting} {SE : SystemEvents} {EN : Engines DB}.
Open Scope result_scope.

Implicit Types (l : Ledger DB) (u : Unit) (h : Hash) (chain : Address) (number now : Z) (hd : Header).

(** No header hashes to the empty hash, and the genesis unit is the unit 0 of
    the system chain. *)
Context (hash_not_empty : forall hd, Header_Hash hd <> 0).
Context (genesis_zero : Number (u_header genesisUnit) = 0) (genesis_chain : MC (u_header genesisUnit) = SCAccount).

(** Whether every unit names none but earlier units as its sources.  The checks
    do not make sure of it (a source without a height is not looked at); that
    chains are unbroken does not rest on it, that removals end does. *)
Context (strict : bool).
(** Two headers of one hash were made at one time. *)
Context (hash_time : strict = true -> forall hd1 hd2, is_u64 (Timestamp hd1) -> is_u64 (Timestamp hd2) ->
  Header_Hash hd1 = Header_Hash hd2 -> Timestamp hd1 = Timestamp hd2).

(** A reference was made to an earlier unit; it outlives both. *)
Definition aged l : Prop :=
  forall h c, c ∈ WalkChildren l h -> exists hh hc, Header_Hash hh = h /\ Header_Hash hc = c /\
    is_u64 (Timestamp hh) /\ is_u64 (Timestamp hc) /\ Timestamp hh < Timestamp hc.
(** A time is a [uint64]. *)
Definition timed l : Prop := forall h hd, headers l !! h = Some hd -> is_u64 (Timestamp hd).
Record sound l : Prop := { sound_wf : wf l; sound_aged : strict = true -> aged l; sound_timed : strict = true -> timed l }.

Lemma sound_grounded l : strict = true -> sound l -> grounded l.
Proof.
  intros St [W A Ti] h c hh hc I Eh Ec. destruct (A St h c I) as (xh & xc & Hh & Hc & Uh & Uc & T).
  rewrite (hash_time St hh xh), (hash_time St hc xc); [done| |done| | |done|]; [by eapply Ti| |by eapply Ti|].
  - by rewrite (wf_hash l W _ _ Ec).
  - by rewrite (wf_hash l W _ _ Eh).
Qed.

Lemma core_sound l l' : core l = core l' -> sound l -> sound l'.
Proof.
  intros E [W A Ti]. split; [by eapply core_wf|..]; unfold core in E; injection E as Eh _ _ Ec; unfold aged, timed, WalkChildren in *; [by rewrite <- Ec|by rewrite <- Eh].
Qed.

(** The answer of an operation: the process ends, or the chains are sound; the
    fuel of the model is enough where sources are earlier units. *)
Definition safe (r : result halt (Ledger DB)) : Prop :=
  match r with Ok l => sound l | Err Crit => True | Err OutOfFuel => strict = false end.
Definition safe_answer {A} (r : result halt (A * Ledger DB)) : Prop :=
  match r with Ok (_, l) => sound l | Err Crit => True | Err OutOfFuel => strict = false end.

Lemma safe_bind r f : safe r -> (forall l, sound l -> safe (f l)) -> safe (let? l := r in f l).
Proof. destruct r as [l|[]]; cbn; auto. Qed.
Lemma then_safe {A} r (f : Ledger DB -> result halt (A * Ledger DB)) :
  safe r -> (forall l, sound l -> safe_answer (f l)) -> safe_answer (let? l := r in f l).
Proof. destruct r as [l|[]]; cbn; auto. Qed.
Lemma safe_core l l' : core l = core l' -> sound l -> safe (Ok l').
Proof. apply core_sound. Qed.
Lemma safe_each {X} (f : X -> Ledger DB -> result halt (Ledger DB)) xs l :
  (forall x l, sound l -> safe (f x l)) -> sound l -> safe (each f xs l).
Proof.
  intros F. revert l. induction xs as [|x xs IH]; intros l H; [done|]. cbn [each]. apply safe_bind; [by apply F|apply IH].
Qed.
Lemma safe_need {A} (o : option A) f : (forall a, safe (f a)) -> safe (let? a := need o in f a).
Proof. by destruct o; cbn. Qed.

(** Nothing the chains are made of has changed. *)
Ltac kept := (first [eapply safe_core | eapply core_sound]; [|eassumption]; done).

(** ** Removing *)

Lemma clearUnit_safe h l : sound l -> safe (clearUnit true h l).
Proof.
  intros S. destruct (clearUnit true h l) as [l'|[]] eqn:E; [|done|].
  2:{ apply not_true_is_false. intros St.
      exact (clearUnit_fuel hash_not_empty genesis_zero h l (sound_wf l S) (sound_grounded l St S) E). }
  destruct (clearUnit_gone hash_not_empty genesis_zero h l l' (sound_wf l S) E) as [G _].
  split; [apply (gone_wf _ _ _ G)| |].
  - unfold aged, WalkChildren. rewrite (gone_children _ _ _ G). apply S.
  - intros St x hd E'. apply (sound_timed l S St x). eapply lookup_weaken; [exact E'|apply (gone_sub _ _ _ G)].
Qed.

(** ** Arbitration *)

(** [StopChain] has no proof to show: nothing is stopped. *)
Lemma StopChain_stops_nothing chain number l : StopChain chain number l = Ok l.
Proof. done. Qed.

Lemma UpdateBadChainFlag_core f now l : core (UpdateBadChainFlag f now l) = core l.
Proof. unfold UpdateBadChainFlag, writeBadChain. by destruct (existsb _ _). Qed.

Lemma writeBadWitneeProof_core rep now l : core (writeBadWitneeProof rep now l) = core l.
Proof. unfold writeBadWitneeProof. destruct rep; [done|]. by rewrite UpdateBadChainFlag_core. Qed.

Lemma OnFoundBad_safe rep now l : sound l -> safe (OnFoundBad rep now l).
Proof.
  intros S. unfold OnFoundBad. destruct (length rep <=? 1)%nat; [done|]. destruct (ExistProof _ _); [done|].
  destruct (CheckProofWithState _ _ _ _) as [bads|e]; [|done]. destruct (SortProof rep) as [|first rest]; [done|].
  rewrite StopChain_stops_nothing. cbn [result_bind]. apply (safe_core l); [|done].
  exact (eq_sym (writeBadWitneeProof_core (first :: rest) now (post (SendProof (first :: rest)) l))).
Qed.

Lemma clearStoppedChainFlag_core l0 chain number l : core (snd (clearStoppedChainFlag l0 chain number l)) = core l.
Proof. unfold clearStoppedChainFlag. by case_bool_decide. Qed.
Lemma try_recover_core l0 cn l : core (try_recover l0 cn l) = core l.
Proof.
  unfold try_recover. pose proof (clearStoppedChainFlag_core l0 (fst cn) (snd cn) l) as E.
  destruct (clearStoppedChainFlag _ _ _ _) as [[] l']; exact E.
Qed.
Lemma RecoverStartChain_core chain number l : core (RecoverStartChain chain number l) = core l.
Proof.
  unfold RecoverStartChain, clearBadChainFlag. set (l1 := foldl _ _ _).
  assert (core l1 = core l) as E.
  { subst l1. rewrite core_fold by (intros; apply try_recover_core). apply try_recover_core. }
  by destruct (existsb _ _).
Qed.

Lemma foundDishonest_safe w e l : sound l -> safe (foundDishonest w e l).
Proof. intros S. destruct e; try done. apply clearUnit_safe. kept. Qed.
Lemma addBadUnit_safe u e l : sound l -> safe (addBadUnit u e l).
Proof.
  intros S. unfold addBadUnit. destruct (unit_Sender _ u); [|done]. apply foundDishonest_safe. kept.
Qed.
Lemma reportUnit_safe u e now l : sound l -> safe (reportUnit u e now l).
Proof.
  intros S. destruct e; try (by apply addBadUnit_safe). cbn [reportUnit]. apply safe_bind; [by apply OnFoundBad_safe|].
  intros l' S'. destruct (_ =? _); [by apply addBadUnit_safe|]. destruct (GetUnit _ _); [by apply addBadUnit_safe|done].
Qed.

Lemma recoveryChain_safe output l : sound l -> safe (recoveryChain output l).
Proof.
  intros S. unfold recoveryChain. destruct (_ =? 0); [done|]. set (l1 := chainArbitrationDone _ _ _ _).
  assert (sound l1) as S1 by kept. apply safe_bind.
  - destruct (GetHeaderByNumber _ _ _); [done|]. destruct (negb _); [|done]. apply clearUnit_safe. kept.
  - intros l2 S2. assert (sound (RecoverStartChain (ChainID output) (Height output) l2)) as S3.
    { eapply core_sound; [|exact S2]. symmetry. apply RecoverStartChain_core. }
    destruct (GetHeaderByHash _ _); [done|]. kept.
Qed.

(** ** What the system chain decides *)

Lemma witness_changed_safe db user l : sound l -> safe (witness_changed db user l).
Proof.
  intros S. unfold witness_changed. apply safe_bind.
  - destruct (_ =? 0); [done|]. by apply clearUnit_safe.
  - intros l' S'. destruct (_ >? 1); [|done]. destruct (_ =? 0); [done|]. destruct (_ || _); [done|]. by apply clearUnit_safe.
Qed.

Lemma process_log_safe u lg l : sound l -> safe (process_log u lg l).
Proof.
  intros S. unfold process_log.
  destruct (ContainsTopic lg Group.ChainArbitrationEvent).
  { apply safe_need. intros [chain number]. case_bool_decide; [done|]. rewrite StopChain_stops_nothing. kept. }
  destruct (ContainsTopic lg Group.ChainArbitrationEndEvent).
  { apply safe_need. intros info. by apply recoveryChain_safe. }
  destruct (ContainsTopic lg Group.ChainStatusChangedEvent).
  { apply safe_need. intros [[chain first] status]. destruct (_ && _); [kept|done]. }
  destruct (ContainsTopic lg Group.UserWitnessChangeEvent); [|done].
  apply safe_need. intros user. apply safe_need. intros db. by apply witness_changed_safe.
Qed.

Lemma processSystemLogs_safe u logs l : sound l -> safe (processSystemLogs u logs l).
Proof. intros S. unfold processSystemLogs. destruct (_ || _); [done|]. apply safe_each; [|done]. intros. by apply process_log_safe. Qed.

(** ** Units that arrive *)

(** A number and a time are [uint64]; an address has one text; where sources
    are earlier units, an empty source names none. *)
Record tidy u : Prop := {
  tidy_number : 0 <= Number (u_header u) < 2 ^ 64;
  tidy_time : is_u64 (Timestamp (u_header u));
  tidy_black : IsBlackUnit u = true -> Proposer (u_header u) = Witness.PublicPrivateKeyAddr;
  tidy_source x : strict = true -> x ∈ Transactions u -> Process.UnitID_IsEmpty (Process.PreStep x) = true -> Process.unit_Hash (Process.PreStep x) = 0
}.
Definition follows l u : Prop :=
  exists p, headers l !! ParentHash (u_header u) = Some p /\ Number (u_header u) = Number p + 1 /\
    (Number p = 0 \/ hash (MC p) = hash (MC (u_header u))) /\ Timestamp p < Timestamp (u_header u).
(** What a unit refers to was made before it. *)
Definition refers_back u : Prop :=
  forall r, r ∈ references u -> r <> 0 -> exists hr, Header_Hash hr = r /\ is_u64 (Timestamp hr) /\ Timestamp hr < Timestamp (u_header u).
Definition sourced l u : Prop := follows l u /\ (strict = true -> refers_back u).

Lemma WriteChildrens_inv u l q c : c ∈ WalkChildren (WriteChildrens u l) q ->
  c ∈ WalkChildren l q \/ c = Hash_ u /\ q ∈ references u /\ q <> 0.
Proof.
  unfold WriteChildrens. generalize (references u). intros ps. revert l. induction ps as [|p ps IH]; intros l; cbn [foldl]; [by left|].
  intros [H|(-> & I & N)]%IH; [|right; split_and!; [done|by right|done]].
  rewrite WalkChildren_add in H. apply elem_of_app in H as [H|H]; [by left|].
  destruct (bool_decide_reflect (p = q)) as [->|]; [|by apply not_elem_of_nil in H].
  destruct (Z.eqb_spec q 0); [by apply not_elem_of_nil in H|]. apply list_elem_of_singleton in H. right. split_and!; [done|left|done].
Qed.

Lemma store_unit_safe statedb u rs l : sound l -> is_u64 (Timestamp (u_header u)) -> extends l u -> (strict = true -> refers_back u) ->
  safe (store_unit statedb u rs l).
Proof.
  intros [W A Ti] Tu X R. destruct (store_unit statedb u rs l) as [l'|[]] eqn:E; [|done|].
  - destruct (store_unit_tables _ _ _ _ _ E) as (Eh & _ & _ & Ec). split; [by eapply (store_unit_wf hash_not_empty)| |].
    2:{ intros St h hd. rewrite Eh. intros [[_ <-]|[_ Ex]]%lookup_insert_Some; [done|by eapply Ti]. }
    intros St h c I. rewrite Ec in I. apply WriteChildrens_inv in I as [I|(-> & I & N)]; [by apply A|].
    destruct (R St h I N) as (hr & Er & Tr & T). by exists hr, (u_header u).
  - unfold store_unit, writeUnitBody in E. destruct (CommitToChain _ _) as [[root stored]|]; [|done]. cbn in E.
    by destruct (negb _).
Qed.

(** A unit found at a height of a chain has it. *)
Lemma height_taken l chain number h : sound l -> number <> 0 -> GetStableHash l chain number = h -> h <> 0 ->
  exists hd, headers l !! h = Some hd /\ Number hd = number /\ hash (MC hd) = hash chain.
Proof.
  intros [W _ _] N <- H0. destruct (GetStableHash_stored l chain number W H0) as (hd & E & Nu & M). exists hd. auto.
Qed.

(** When the unit at the height of [u] goes, what [u] follows stays. *)
Lemma clear_height u l l1 :
  sound l -> Number (u_header u) <> 0 -> headers l !! Hash_ u = None -> follows l u -> 0 <= Number (u_header u) < 2 ^ 64 ->
  GetStableHash l (MC (u_header u)) (Number (u_header u)) <> 0 ->
  clearUnit true (GetStableHash l (MC (u_header u)) (Number (u_header u))) l = Ok l1 ->
  follows l1 u /\ headers l1 !! Hash_ u = None /\ GetStableHash l1 (MC (u_header u)) (Number (u_header u)) = 0.
Proof.
  intros S N0 New (p & Ep & Np & Mp & Tp) Range H0 E.
  destruct (height_taken l _ _ _ S N0 eq_refl H0) as (hd & Eh & Nh & Mh). set (h := GetStableHash l _ _) in *.
  pose proof (sound_wf l S) as W.
  destruct (clearUnit_gone hash_not_empty genesis_zero h l l1 W E) as [G A].
  assert (h <> GenesisHash) as Hg by (intros ->; rewrite (genesis_number genesis_zero l hd W Eh) in Nh; lia).
  assert (removable l h) as Rh by (split; [by eexists|done]). specialize (A Rh).
  assert (headers l1 !! h = None) as Gone by (apply (gone_in _ _ _ G); by apply descends_self).
  assert (~ descends l h (ParentHash (u_header u))) as Stays.
  { intros D. pose proof (descends_removable _ _ _ D) as Rp.
    destruct (wf_parent l W _ _ Eh) as [?|(q & Eq & Nq & Mq & _ & Cq)]; [done|].
    assert (ParentHash hd = ParentHash (u_header u)) as Same.
    { destruct (Z.eq_dec (Number p) 0) as [Z0|Z0].
      - rewrite (zero_is_genesis l _ p W Ep Z0). apply (zero_is_genesis l _ q W Eq). lia.
      - destruct Mp as [?|Mp]; [done|]. destruct Mq as [?|Mq]; [lia|]. eapply (one_at_height l); [exact W|exact Eq|exact Ep|congruence|lia]. }
    rewrite Same in Cq. assert (child l h (ParentHash (u_header u))) as Ch by (split_and!; done).
    apply (acc_no_loop (child l) h A). destruct (descends_tc l _ _ D) as [Eqp|T]; [|by eapply tc_l].
    rewrite <- Eqp in Ch. by apply tc_once. }
  split_and!.
  - exists p. split_and!; [|done..]. destruct (headers l1 !! ParentHash (u_header u)) as [p'|] eqn:E1.
    + rewrite <- E1. rewrite <- Ep. rewrite E1. symmetry. eapply lookup_weaken; [exact E1|apply (gone_sub _ _ _ G)].
    + destruct (gone_only _ _ _ G _ E1); [done|congruence].
  - destruct (headers l1 !! Hash_ u) eqn:E1; [|done]. pose proof (lookup_weaken _ _ _ _ E1 (gone_sub _ _ _ G)). congruence.
  - destruct (Z.eq_dec (GetStableHash l1 (MC (u_header u)) (Number (u_header u))) 0) as [|N1]; [done|exfalso].
    destruct (GetStableHash_stored l1 _ _ (gone_wf _ _ _ G) N1) as (xd & Ex & Nx & Mx).
    pose proof (lookup_weaken _ _ _ _ Ex (gone_sub _ _ _ G)) as Exl.
    assert (GetStableHash l1 (MC (u_header u)) (Number (u_header u)) = h) as Eqh.
    { eapply (one_at_height l); [exact W|exact Exl|exact Eh|rewrite Mx, Mh by done; done|congruence]. }
    rewrite Eqh in Ex. congruence.
Qed.

(** ** What the checks establish *)

Lemma verify_basic_ok l now u : verify_basic l now u = Ok tt ->
  GetHeaderByHash l (Hash_ u) = None /\
  exists p, GetHeaderByHash l (ParentHash (u_header u)) = Some p /\
    (Number (u_header u) = 1 \/ MC (u_header u) = MC p) /\ Number (u_header u) = u64 (Number p + 1) /\
    Timestamp p < Timestamp (u_header u) <= u64 (now + allowedFutureBlockTime) /\
    (if bool_decide (SCAccount = MC (u_header u)) then OneNumberHaveSecondBySys else OneNumberHaveSecondByUc) * Second
      <= u64 (Timestamp (u_header u) - Timestamp p) /\
    unit_Sender signer u = Ok (Proposer (u_header u)) /\
    (if bool_decide (MC (u_header u) = SCAccount) then SCHash (u_header u) = ParentHash (u_header u) else True) /\
    exists sys db limit, GetHeaderByHash l (SCHash (u_header u)) = Some sys /\ SCNumber (u_header u) = Number sys /\
      Timestamp sys < Timestamp (u_header u) /\ SCNumber p <= SCNumber (u_header u) /\
      StateAt l (StateRoot sys) = Some db /\ Proposal.ReadConfig Proposal.ConfigParamsUcGasLimit db = Ok limit /\
      GasUsed (u_header u) <= GasLimit (u_header u) <= Z.min limit defGasCap.
Proof.
  unfold verify_basic. intros H. peel H. rename E into New. peel H. rename a into p, E into Ep.
  peel H. rename E into Mc. peel H. rename E into Nu. peel H. rename E into Fut. peel H. rename E into Late. peel H. rename E into Gap.
  peel H. rename a into proposer, E into Sg. peel H. rename E into Pr. peel H. rename a into sys, E into Sy.
  peel H. rename E into Old. peel H. rename E into Cap. peel H. rename E into Use.
  peel H. rename a into db, E into St. peel H. rename a into limit, E into Lim. peel H. rename E into Le.
  split; [apply bool_decide_eq_false in New; by destruct (GetHeaderByHash l (Hash_ u)); [destruct New|]|].
  exists p. split; [done|]. apply negb_false_iff in Pr, Nu. apply bool_decide_eq_true in Pr.
  assert (Timestamp p < Timestamp (u_header u)) as Tp by lia.
  assert ((if bool_decide (MC (u_header u) = SCAccount) then SCHash (u_header u) = ParentHash (u_header u) else True) /\
    GetHeaderByHash l (SCHash (u_header u)) = Some sys /\ SCNumber (u_header u) = Number sys /\ Timestamp sys < Timestamp (u_header u))
    as (Sc1 & Sc2 & Sc3 & Sc4).
  { destruct (bool_decide (MC (u_header u) = SCAccount)).
    - peel Sy. peel Sy. injection Sy as <-. apply negb_false_iff in E, E0. assert (SCHash (u_header u) = ParentHash (u_header u)) as -> by lia.
      split_and!; [done|done|lia|done].
    - repeat peel Sy. injection Sy as <-. split_and!; [done|done|lia|lia]. }
  split_and!; try done; try lia.
  - apply andb_false_iff in Mc as [Mc|Mc]; [left; lia|right]. apply negb_false_iff in Mc. by apply bool_decide_eq_true in Mc.
  - by rewrite Sg, Pr.
  - exists sys, db, limit. split_and!; try done; try lia. unfold sc in Lim. by destruct (Proposal.ReadConfig _ _); [injection Lim as ->|].
Qed.

Lemma check_txs_steps l db u ts x : check_txs l db u ts = Ok tt -> x ∈ ts -> check_prestep l u (Process.PreStep x) = Ok tt.
Proof.
  induction ts as [|y ts IH]; cbn [check_txs]; [by intros _ I%not_elem_of_nil|]. intros H I. peel H. peel H. peel H.
  apply elem_of_cons in I as [->|I]; [by destruct a|by apply IH].
Qed.

Lemma ValidateBody_steps l u x : ValidateBody l u = Ok tt -> x ∈ Transactions u ->
  Process.UnitID_IsEmpty (Process.PreStep x) = true \/
  exists hr, GetHeaderByHash l (Process.unit_Hash (Process.PreStep x)) = Some hr /\ MC hr = Process.ChainID (Process.PreStep x) /\
    Number hr = Process.Height (Process.PreStep x) /\ Timestamp hr < Timestamp (u_header u).
Proof.
  unfold ValidateBody. destruct (Transactions u) as [|y rest] eqn:Et; [done|]. intros H I. peel H. peel H. peel H. rewrite <- Et in *.
  pose proof (check_txs_steps _ _ _ _ _ H I) as X. unfold check_prestep in X.
  destruct (Process.UnitID_IsEmpty _); [by left|right]. peel X. rename a2 into hr. peel X. peel X. exists hr.
  apply orb_false_iff in E3 as [E3 E5]. apply negb_false_iff in E3, E5. apply bool_decide_eq_true in E3. split_and!; [done|done|lia|lia].
Qed.

Lemma free_height l u : wf l -> headers l !! Hash_ u = None -> dishonestCheck l u = Ok tt ->
  GetStableHash l (MC (u_header u)) (Number (u_header u)) = 0 /\ Number (u_header u) <> 0.
Proof.
  intros W New D. assert (GetStableHash l (MC (u_header u)) (Number (u_header u)) = 0) as Z0.
  { unfold dishonestCheck in D. destruct (Z.eqb_spec (GetStableHash l (MC (u_header u)) (Number (u_header u))) 0) as [|N]; [done|]. cbn [orb] in D.
    destruct (Z.eqb_spec (GetStableHash l (MC (u_header u)) (Number (u_header u))) (Hash_ u)) as [Q|_].
    - destruct (GetStableHash_stored l _ _ W N) as (hd & E & _). rewrite Q in E. congruence.
    - exfalso. peel D. peel D. peel D. by destruct (_ && _). }
  split; [done|]. intros N. rewrite N in Z0. pose proof (wf_stable l W _ _ (wf_genesis l W)) as S.
  rewrite genesis_chain, genesis_zero in S. unfold GetStableHash in Z0. cbn [Z.eqb] in Z0. rewrite S in Z0. cbn in Z0.
  exact (stored_not_zero hash_not_empty l _ _ W (wf_genesis l W) Z0).
Qed.

Lemma VerifySeal_free l u ws : VerifySeal l u ws = Ok tt -> dishonestCheck l u = Ok tt.
Proof. unfold VerifySeal. intros H. repeat peel H. done. Qed.

Lemma verifyArbitrationUnit_tail l now u : verifyArbitrationUnit l now u = Ok tt ->
  exists t, GetChainTailHead l (MC (u_header u)) = Some t /\ Number t <= Number (u_header u).
Proof. unfold verifyArbitrationUnit. intros H. repeat peel H. exists a3. split; [done|lia]. Qed.

(** A unit that passed has a place in its chain. *)
Lemma check_unit_full_place l now u :
  wf l -> (strict = true -> timed l) -> tidy u -> headers l !! Hash_ u = None -> check_unit_full l now u = Ok tt ->
  sourced l u /\ Number (u_header u) <> 0 /\
  (IsBlackUnit u = true \/ GetStableHash l (MC (u_header u)) (Number (u_header u)) = 0).
Proof.
  intros W Tl Ti New H. unfold check_unit_full in H. peel H. rename a into x, E into V, H into Vb. destruct x.
  unfold verifyHeader in V. peel V. destruct a. apply verify_basic_ok in E as (_ & p & Ep & Mp & Np & Tp & _ & _ & _ & sys & _ & _ & Es & _ & Ts & _).
  rewrite !GetHeaderByHash_wf in * by done. pose proof (wf_number l W _ _ Ep) as Rp. pose proof (tidy_number u Ti) as Ru.
  assert (Number (u_header u) <> 0 /\ (IsBlackUnit u = true \/ GetStableHash l (MC (u_header u)) (Number (u_header u)) = 0)) as [N0 Place].
  { destruct (IsBlackUnit u) eqn:Bl.
    - split; [|by left]. apply verifyArbitrationUnit_tail in V as (t & Et & Nt). intros N0.
      assert (Number p = 2 ^ 64 - 1) as Max by (unfold u64 in Np; Z.to_euclidean_division_equations; lia). destruct Mp as [?|Mp]; [lia|].
      unfold GetChainTailHead in Et. rewrite GetHeaderByHash_wf in Et by done.
      destruct (wf_tail l W (hash (MC (u_header u)))) as (t' & Et' & _ & Top). unfold tail_hash, GetChainTailHash in *. rewrite Et' in Et. injection Et as ->.
      pose proof (Top _ _ Ep ltac:(by rewrite Mp)). lia.
    - assert (dishonestCheck l u = Ok tt) as D by (destruct (GetChainWitnessLib _ _ _) as [ws|[]]; try done; by eapply VerifySeal_free).
      destruct (free_height l u W New D). split; [done|by right]. }
  split; [|done]. assert (Number (u_header u) = Number p + 1) as Np' by (unfold u64 in Np; Z.to_euclidean_division_equations; lia). split.
  - exists p. split_and!; [done|done| |lia]. destruct Mp as [?|Mp]; [left; lia|right; congruence].
  - intros St r I Nr. specialize (Tl St). unfold references in I. rewrite elem_of_remove_dups in I.
    apply elem_of_cons in I as [->|I]; [exists p; split; [by apply (wf_hash l W)|split; [by eapply Tl|lia]]|].
    apply elem_of_cons in I as [->|I]; [exists sys; split; [by apply (wf_hash l W)|split; [by eapply Tl|lia]]|].
    apply list_elem_of_filter in I as [_ (x & -> & I)%list_elem_of_fmap].
    destruct (ValidateBody_steps l u x Vb I) as [Em|(hr & Er & _ & _ & T)]; [by rewrite (tidy_source u Ti x St I Em) in Nr|].
    rewrite GetHeaderByHash_wf in Er by done. exists hr. split; [by apply (wf_hash l W)|split; [by eapply Tl|done]].
Qed.

(** ** Writing *)

Lemma writeRightUnit_safe statedb u rs logs l :
  sound l -> tidy u -> headers l !! Hash_ u = None -> sourced l u -> Number (u_header u) <> 0 ->
  (IsBlackUnit u = true \/ GetStableHash l (MC (u_header u)) (Number (u_header u)) = 0) ->
  safe_answer (writeRightUnit statedb u rs logs l).
Proof.
  intros S Ti New [F R] N0 Place. unfold writeRightUnit. set (first := if bool_decide _ then _ else _).
  assert (safe first /\ forall l1, first = Ok l1 -> extends l1 u) as [S1 X1].
  { assert (GetStableHash l (MC (u_header u)) (Number (u_header u)) = 0 -> extends l u) as Free
      by (intros Z0; split; [apply (tidy_number u Ti)|done..]).
    subst first. case_bool_decide as Bl.
    - destruct (Z.eqb_spec (GetStableHash l (MC (u_header u)) (Number (u_header u))) 0) as [Z0|N].
      + split; [done|]. intros l1 [= <-]. by apply Free.
      + split; [by apply clearUnit_safe|]. intros l1 E.
        destruct (clear_height u l l1 S N0 New F (tidy_number u Ti) N E) as (F1 & New1 & Z1). split; [apply (tidy_number u Ti)|done..].
    - split; [done|]. intros l1 [= <-]. apply Free. destruct Place as [Q|]; [|done]. by destruct Bl; apply (tidy_black u Ti). }
  destruct first as [l1|[]]; [|done|done]. specialize (X1 l1 eq_refl). cbn [result_bind].
  assert (GetUnitNumber l1 (Hash_ u) = None) as -> by (unfold GetUnitNumber; by rewrite (ext_new _ _ X1)).
  apply then_safe; [by apply store_unit_safe; [|apply (tidy_time u Ti)| |]|]. intros l2 S2. apply then_safe; [by apply processSystemLogs_safe|].
  intros l3 S3. change (sound (post (SyncBeta (Hash_ u)) (post (ChainEvent (Hash_ u)) l3))). kept.
Qed.

Lemma BadUnitCheck_core l u : core (snd (BadUnitCheck l u)) = core l.
Proof.
  unfold BadUnitCheck. case_bool_decide; [done|]. case_bool_decide; [done|]. destruct (IsBadUnit _ _); [done|]. by destruct (chainSleeping _ _ _ _ _).
Qed.
Lemma BadUnitCheck_same l u l' : BadUnitCheck l u = (Ok tt, l') -> l' = l.
Proof.
  unfold BadUnitCheck. case_bool_decide; [done|]. case_bool_decide; [done|]. destruct (IsBadUnit _ _); [done|].
  destruct (chainSleeping _ _ _ _ _); [done|]. by intros [= <-].
Qed.
Lemma VerifyUnit_core l u verify : core (snd (VerifyUnit l u verify)) = core l.
Proof.
  unfold VerifyUnit. destruct (ChainIsInInArbitration _ _); [done|]. pose proof (BadUnitCheck_core l u) as E.
  by destruct (BadUnitCheck l u) as [[[]|] l'].
Qed.

Lemma refuse_unit_safe u e now l : sound l -> safe_answer (refuse_unit u e now l).
Proof.
  intros S. assert (forall e, safe_answer (let? l' := reportUnit u e now l in Ok (Err e : result error unit, l'))) as R.
  { intros e'. apply then_safe; [by apply reportUnit_safe|done]. }
  destruct e; try apply R.
  - exact S.
  - cbn [refuse_unit safe_answer]. kept.
  - cbn [refuse_unit]. destruct (_ >? _); [exact S|]. pose proof (BadUnitCheck_core l u) as E.
    destruct (BadUnitCheck l u) as [[[]|] l']; cbn [snd] in E; cbn [safe_answer]; (eapply core_sound; [|exact S]; exact (eq_sym E)).
  - done.
Qed.

(** The engine has verified its proposal: it has a place in its chain. *)
Lemma VerifyWithProposal_free l u pro : wf l -> headers l !! Hash_ u = None -> VerifyWithProposal l u = Ok (Some pro) ->
  GetStableHash l (MC (u_header u)) (Number (u_header u)) = 0 /\ Number (u_header u) <> 0.
Proof.
  intros W New V. unfold VerifyWithProposal in V. destruct (CurrentProposal _) as [pro'|]; [|done]. destruct (negb _); [done|].
  destruct (GetChainWitnessLib _ _ _) as [ws|[]]; try done. destruct (VerifySeal l u ws) as [[]|] eqn:Vs; [|done].
  apply free_height; [done|done|]. by eapply VerifySeal_free.
Qed.

Lemma VerifyWithProposal_fuel l u : VerifyWithProposal l u <> Err OutOfFuel.
Proof.
  unfold VerifyWithProposal. destruct (CurrentProposal _); [|done]. destruct (negb _); [done|].
  destruct (GetChainWitnessLib _ _ _) as [ws|[]]; try done. by destruct (VerifySeal l u ws).
Qed.

(** A proposal of the engine is not looked at: where it belongs is assumed. *)
Lemma InsertUnit_safe now u l :
  sound l -> tidy u -> (forall pro, VerifyWithProposal l u = Ok (Some pro) -> sourced l u) -> safe_answer (InsertUnit now u l).
Proof.
  intros S Ti Pro. unfold InsertUnit. destruct (short_vote u); [done|]. destruct (ExistUnit l (Hash_ u)) eqn:Ex; [exact S|].
  assert (headers l !! Hash_ u = None) as New.
  { unfold ExistUnit in Ex. apply orb_false_iff in Ex as [_ Ex]. apply bool_decide_eq_false in Ex. by apply eq_None_not_Some. }
  pose proof (VerifyWithProposal_fuel l u) as Fu. destruct (VerifyWithProposal l u) as [[r|]|[]] eqn:V; try done; cbn [result_bind].
  { destruct (VerifyWithProposal_free l u r (sound_wf l S) New V). apply writeRightUnit_safe; try done; [by eapply Pro|by right]. }
  destruct (ChainIsInInArbitration _ _); [exact S|]. pose proof (BadUnitCheck_core l u) as Eb.
  destruct (BadUnitCheck l u) as [[[]|e] l1] eqn:B1; cbn [snd] in Eb.
  2:{ cbn [safe_answer]. eapply core_sound; [|exact S]. by symmetry. }
  apply BadUnitCheck_same in B1 as ->. destruct (arbitrated_check l u); [|exact S].
  destruct (check_unit_full l now u) as [[]|e] eqn:Full; [|by apply refuse_unit_safe].
  destruct (check_unit_full_place l now u (sound_wf l S) (sound_timed l S) Ti New Full) as (Src & N0 & Place).
  set (verify := fun l u => verifyHeader l now u false). pose proof (VerifyUnit_core l u verify) as Ev.
  destruct (VerifyUnit l u verify) as [[[[rs statedb] logs]|e] l2] eqn:V2; cbn [snd] in Ev.
  - assert (l2 = l) as ->.
    { unfold VerifyUnit in V2. destruct (ChainIsInInArbitration _ _); [done|].
      destruct (BadUnitCheck l u) as [[[]|] l'] eqn:B2; [|done]. apply BadUnitCheck_same in B2 as ->. congruence. }
    by apply writeRightUnit_safe.
  - assert (sound l2) as S2 by (eapply core_sound; [|exact S]; by symmetry).
    assert (forall e, safe_answer (let? l' := reportUnit u e now l2 in Ok (Err e : result error unit, l'))) as R.
    { intros e'. apply then_safe; [by apply reportUnit_safe|done]. }
    destruct e; try apply R; [|done]. cbn [safe_answer]. kept.
Qed.

End Unbroken.

(** ** Everything that happens to the chains *)

Section Chains.
Context {DB : Type} {ST : Storage DB} {C : ScCodec} {B : Btcec} {P : Params} {TC : TxCodec} {K : State.Crypto}.
Context {NM : Witness.Names} {RI : ReportInputs} {CE : ChainEnv} {TR : Tries DB} {PR : Processor DB}.
Context {EV : Group.Events DB} {WC : Settle.WorkCodec} {SR : Proposal.Sorting} {SE : SystemEvents}.

Implicit Types (l : Ledger DB) (u : Unit) (h : Hash) (chain : Address) (now : Z) (hd : Header).

(** The pool and the proposals of the engines change between the steps.  A unit
    that is received is checked; the proposal of the engine is inserted without
    a look at its parent, so that the parent is still stored, with the number
    below, on the same chain and older, is a condition of this step. *)
Inductive step (strict : bool) l : Ledger DB -> Prop :=
| step_receive (TP : TxPool) (EN : Engines DB) now u answer l' :
    tidy strict u -> VerifyWithProposal l u = Ok None -> InsertUnit now u l = Ok (answer, l') -> step strict l l'
| step_propose (TP : TxPool) (EN : Engines DB) now u pro answer l' :
    tidy strict u -> VerifyWithProposal l u = Ok (Some pro) -> sourced strict l u ->
    InsertUnit now u l = Ok (answer, l') -> step strict l l'
| step_clear h l' : ClearUnit h true l = Ok l' -> step strict l l'
| step_report u e now l' : reportUnit u e now l = Ok l' -> step strict l l'
| step_found_bad rep now l' : OnFoundBad rep now l = Ok l' -> step strict l l'.

Context (hash_not_empty : forall hd, Header_Hash hd <> 0).

Lemma Commit_tables users statedb rs alloc l :
  Commit users statedb rs alloc empty_ledger = Some l ->
  Number (u_header genesisUnit) = 0 /\ MC (u_header genesisUnit) = SCAccount /\
  headers l = {[GenesisHash := u_header genesisUnit]} /\ stable l = {[(hash SCAccount, 0) := GenesisHash]} /\
  (forall (c : bytes) h, tails l !! c = Some h -> h = GenesisHash) /\
  (forall h c, c ∈ WalkChildren l h -> h ∈ references genesisUnit /\ h <> 0).
Proof.
  unfold Commit. destruct (users <? 11)%nat; [done|]. destruct (Z.eqb_spec (Number (u_header genesisUnit)) 0) as [Ez|]; [|done]. cbn [negb].
  case_bool_decide as Ec; [|done]. cbn [negb]. destruct (CommitToChain _ _) as [[root stored]|]; [|done]. rewrite Ez, Ec.
  set (l0 := set_states _ empty_ledger). unfold WriteUnit. set (l1 := WriteBody _ _ _ _ _ l0).
  assert (core l1 = core l0) as E1 by apply WriteBody_core. unfold core in E1. injection E1 as H1 H2 H3 H4.
  set (l2 := WriteHeader _ l1). pose proof (WriteChildrens_core genesisUnit l2) as E2. injection E2 as G1 G2 G3.
  set (l3 := WriteChildrens _ l2) in *. set (l4 := WriteChainTailHash _ SCAccount (WriteStableHash _ _ _ _)).
  intros [= <-]. set (l5 := foldl (fun l a => WriteChainTailHash (Hash_ genesisUnit) a l) l4 alloc).
  assert (core l5 = (headers l4, stable l4, tails l5, children l4)) as E5.
  { subst l5. generalize l4. induction alloc as [|a xs IH]; intros x; [done|]. cbn [foldl]. by rewrite IH. }
  unfold core in E5. injection E5 as F1 F2 F4. split_and!; [done|done| | | |].
  - change (headers l5 = {[GenesisHash := u_header genesisUnit]}). rewrite F1. change (headers l4) with (headers l3). by rewrite G1, H1.
  - change (stable l5 = {[(hash SCAccount, 0) := GenesisHash]}). rewrite F2.
    change (stable l4) with (<[(hash SCAccount, 0) := GenesisHash]> (stable l3)). by rewrite G2, H2.
  - assert (forall l, (forall (c : bytes) h, tails l !! c = Some h -> h = GenesisHash) ->
      forall (c : bytes) h, tails (foldl (fun l a => WriteChainTailHash (Hash_ genesisUnit) a l) l alloc) !! c = Some h -> h = GenesisHash) as T.
    { clear. induction alloc as [|a xs IH]; intros l Hl; [exact Hl|]. cbn [foldl]. apply IH. intros c h. cbn.
      intros [[_ <-]|[_ E]]%lookup_insert_Some; [done|by eapply Hl]. }
    intros c h. cbn. intros [[_ <-]|[_ E]]%lookup_insert_Some; [done|]. revert E. apply T. intros c' h'. cbn.
    intros [[_ <-]|[_ E]]%lookup_insert_Some; [done|]. change (tails l3 !! c' = Some h') in E. rewrite G3, H3 in E. by apply lookup_empty_Some in E.
  - intros h c. change (WalkChildren (WriteChainTailHash _ SCAccount l5) h) with (default [] (children l5 !! h)). rewrite F4.
    intros I. apply WriteChildrens_inv in I as [I|(_ & I & N)]; [|done]. exfalso. unfold WalkChildren in I. cbn in I. rewrite H4 in I.
    by apply not_elem_of_nil in I.
Qed.

(** Where sources are earlier units, the genesis unit has none. *)
Definition first_of_all : Prop := is_u64 (Timestamp (u_header genesisUnit)) /\ forall r, r ∈ references genesisUnit -> r = 0.
Definition one_time : Prop := forall hd1 hd2, is_u64 (Timestamp hd1) -> is_u64 (Timestamp hd2) ->
  Header_Hash hd1 = Header_Hash hd2 -> Timestamp hd1 = Timestamp hd2.

Lemma Commit_sound strict users statedb rs alloc l :
  (strict = true -> first_of_all) -> Commit users statedb rs alloc empty_ledger = Some l -> sound strict l.
Proof.
  intros Fi E. destruct (Commit_tables users statedb rs alloc l E) as (Ez & Ec & Eh & Es & Et & Ew). split.
  - split.
    + rewrite Eh. apply lookup_singleton_eq.
    + intros h hd. rewrite Eh. by intros [<- <-]%lookup_singleton_Some.
    + intros h hd. rewrite Eh. intros [<- <-]%lookup_singleton_Some. lia.
    + intros h hd. rewrite Eh, Es. intros [<- <-]%lookup_singleton_Some. rewrite Ez, Ec. apply lookup_singleton_eq.
    + intros c n h. rewrite Eh, Es. intros [[= <- <-] <-]%lookup_singleton_Some. exists (u_header genesisUnit).
      split_and!; [apply lookup_singleton_eq|by rewrite Ec|done].
    + intros h hd. rewrite Eh. intros [<- <-]%lookup_singleton_Some. by left.
    + intros c. assert (tail_hash l c = GenesisHash) as ->.
      { unfold tail_hash. destruct (tails l !! c) as [h|] eqn:T; [|done]. rewrite (Et c h T). cbn. by destruct (_ =? _). }
      exists (u_header genesisUnit). rewrite Eh. split_and!; [apply lookup_singleton_eq|by left|].
      by intros h' hd' [<- <-]%lookup_singleton_Some.
  - intros St h c I. destruct (Ew h c I) as [I' N]. by destruct N; apply (proj2 (Fi St)).
  - intros St h hd. rewrite Eh. intros [<- <-]%lookup_singleton_Some. by apply (Fi St).
Qed.

Lemma step_sound strict l l' : (strict = true -> one_time) ->
  Number (u_header genesisUnit) = 0 -> MC (u_header genesisUnit) = SCAccount -> step strict l l' -> sound strict l -> sound strict l'.
Proof.
  intros Ht Ez Ec H S. destruct H as [TP EN now u answer l' Ti V E|TP EN now u pro answer l' Ti V Src E|h l' E|u e now l' E|rep now l' E].
  - pose proof (InsertUnit_safe hash_not_empty Ez Ec strict Ht now u l S Ti ltac:(by rewrite V)) as X. by rewrite E in X.
  - pose proof (InsertUnit_safe hash_not_empty Ez Ec strict Ht now u l S Ti ltac:(done)) as X. by rewrite E in X.
  - pose proof (clearUnit_safe hash_not_empty Ez strict Ht h l S) as X. unfold ClearUnit in E. by rewrite E in X.
  - pose proof (reportUnit_safe hash_not_empty Ez strict Ht u e now l S) as X. by rewrite E in X.
  - pose proof (OnFoundBad_safe strict rep now l S) as X. by rewrite E in X.
Qed.

Lemma reachable_sound strict users statedb rs alloc l0 l :
  (strict = true -> one_time /\ first_of_all) -> Commit users statedb rs alloc empty_ledger = Some l0 -> rtc (step strict) l0 l ->
  sound strict l /\ Number (u_header genesisUnit) = 0 /\ MC (u_header genesisUnit) = SCAccount.
Proof.
  intros Hs E T. destruct (Commit_tables users statedb rs alloc l0 E) as (Ez & Ec & _). split; [|done].
  assert (sound strict l0) as S by (eapply Commit_sound; [by intros St; apply (Hs St)|done]).
  clear E. induction T as [|l0 l1 l H T IH]; [done|]. apply IH. eapply step_sound; [by intros St; apply (Hs St)|done..].
Qed.

Lemma at_number l chain h hd : wf l -> headers l !! h = Some hd -> hash (MC hd) = hash chain -> Number hd <> 0 ->
  GetHeaderByNumber l chain (Number hd) = Some hd.
Proof.
  intros W E M N. unfold GetHeaderByNumber, GetStableHash. rewrite (proj2 (Z.eqb_neq _ _) N), <- M, (wf_stable l W _ _ E). cbn.
  rewrite (proj2 (Z.eqb_neq h 0)); [by rewrite GetHeaderByHash_wf|]. by eapply (stored_not_zero hash_not_empty).
Qed.
Lemma at_zero l chain h hd : Number (u_header genesisUnit) = 0 -> MC (u_header genesisUnit) = SCAccount ->
  wf l -> headers l !! h = Some hd -> Number hd = 0 -> GetHeaderByNumber l chain 0 = Some hd.
Proof.
  intros Ez Ec W E N. pose proof (zero_is_genesis l h hd W E N) as ->. unfold GetHeaderByNumber, GetStableHash. cbn [Z.eqb].
  pose proof (wf_stable l W _ _ (wf_genesis l W)) as S. rewrite Ec, Ez in S. rewrite S. cbn.
  rewrite (proj2 (Z.eqb_neq GenesisHash 0)); [by rewrite GetHeaderByHash_wf|]. by eapply (stored_not_zero hash_not_empty).
Qed.

(** C3: From the genesis ledger on, whatever units are received, removed or
    reported, and whatever the system chain decides, every chain is one line:
    its tail is stored, nothing is above it, and below it there is one unit at
    every height down to the genesis unit, which names the one before it as its
    parent and is younger.  The conditions are those of [step]: a proposal of the
    node's own engine that is inserted still follows a stored unit (this is not
    checked, see [stale_proposal_accepted] of [DagAccept]), numbers and times are
    [uint64], the address that ends arbitrations has one text. *)
Theorem chains_unbroken users statedb rs alloc l0 l chain :
  Commit users statedb rs alloc empty_ledger = Some l0 -> rtc (step false) l0 l ->
  exists tl, GetChainTailHead l chain = Some tl /\
    (forall k, Number tl < k -> GetHeaderByNumber l chain k = None) /\
    (forall k, 1 <= k <= Number tl -> exists hd p,
       GetHeaderByNumber l chain k = Some hd /\ GetHeaderByNumber l chain (k - 1) = Some p /\
       hash (MC hd) = hash chain /\ Number hd = k /\ ParentHash hd = Header_Hash p /\ Timestamp p < Timestamp hd).
Proof.
  intros E T. destruct (reachable_sound false users statedb rs alloc l0 l ltac:(done) E T) as ([W _ _] & Ez & Ec).
  destruct (wf_tail l W (hash chain)) as (tl & Et & Mt & Top). exists tl. split_and!.
  - unfold GetChainTailHead. by rewrite GetHeaderByHash_wf.
  - intros k Hk. unfold GetHeaderByNumber. destruct (Z.eqb_spec (GetStableHash l chain k) 0) as [|N]; [done|exfalso].
    pose proof (wf_number l W _ _ Et). destruct (GetStableHash_stored l chain k W N) as (hd & Eh & Nh & Mh).
    specialize (Top _ _ Eh ltac:(apply Mh; lia)). lia.
  - intros k Hk. destruct Mt as [G|Mt]; [rewrite G in Et; rewrite (genesis_number Ez l tl W Et) in Hk; lia|].
    destruct (below Ez l _ tl k W Et Hk) as (h & hd & Eh & Mh & Nh).
    destruct (wf_parent l W _ _ Eh) as [->|(p & Ep & Np & Mp & Tp & _)]; [rewrite (genesis_number Ez l hd W Eh) in Nh; lia|].
    exists hd, p. split_and!; try done; try congruence; [| |by rewrite (wf_hash l W _ _ Ep)].
    + rewrite <- Nh. eapply at_number; [done|done|congruence|lia].
    + replace (k - 1) with (Number p) by lia. destruct (Z.eq_dec (Number p) 0) as [Z0|Z0].
      * rewrite Z0. by eapply at_zero.
      * eapply at_number; [done|done| |done]. destruct Mp; [done|congruence].
Qed.

(** Where units name none but earlier units as their sources, a removal ends,
    and so does the treatment of a unit that arrives: no depth of references is
    too much. *)
Lemma reachable_grounded users statedb rs alloc l0 l :
  one_time -> first_of_all -> Commit users statedb rs alloc empty_ledger = Some l0 -> rtc (step true) l0 l ->
  wf l /\ grounded l.
Proof.
  intros Ht Fi E T. destruct (reachable_sound true users statedb rs alloc l0 l ltac:(done) E T) as (S & Ez & Ec).
  split; [by apply (sound_wf true)|by apply (sound_grounded true)].
Qed.

Lemma InsertUnit_ends {TP : TxPool} {EN : Engines DB} users statedb rs alloc l0 l now u :
  one_time -> first_of_all -> Commit users statedb rs alloc empty_ledger = Some l0 -> rtc (step true) l0 l ->
  tidy true u -> (forall pro, VerifyWithProposal l u = Ok (Some pro) -> sourced true l u) ->
  InsertUnit now u l = Err Crit \/ exists answer l', InsertUnit now u l = Ok (answer, l') /\ sound true l'.
Proof.
  intros Ht Fi E T Ti Pro. destruct (reachable_sound true users statedb rs alloc l0 l ltac:(done) E T) as (S & Ez & Ec).
  pose proof (InsertUnit_safe hash_not_empty Ez Ec true ltac:(done) now u l S Ti Pro) as X.
  destruct (InsertUnit now u l) as [[answer l']|[]] eqn:Ei; [right|by left|done]. by exists answer, l'.
Qed.

End Chains.

End Unbroken.
