(* ===== verification/DagAccept.v ===== *)
(** What it takes for a unit to be accepted, what is found of it afterwards, and
    what is accepted although it should not be. *)
From stdpp Require Import gmap list sorting.
From S2P Require Import Prelude Bech32 Address BftTypes BftValidators EvmWord EvmAnalysis EvmState StateDb Ovm Bloom TxTransition TxProcess ScStore Signing ScGroup ScHeart ScWitness ScDuty ScProposal ScSettle ScReport DagStore UnitValid DagChain DagSafe DagUnbroken.

Import Db Transition Address Store Signing Report Dag Valid DagChain DagSafe Unbroken.

Module Accept.

Section Accept.
Context {DB : Type} {ST : Storage DB} {C : ScCodec} {B : Btcec} {P : Params} {TC : TxCodec} {K : State.Crypto}.
Context {NM : Witness.Names} {RI : ReportInputs} {CE : ChainEnv} {TP : TxPool} {TR : Tries DB} {PR : Processor DB}.
Context {EV : Group.Events DB} {WC : Settle.WorkCodec} {SR : Proposal.Sorting} {SE : SystemEvents} {EN : Engines DB}.
Open Scope result_scope.

Implicit Types (l : Ledger DB) (u : Unit) (h : Hash) (chain : Address) (now : Z) (hd : Header).

(** ** The header and the votes *)

(** [v] is a vote of [a] to commit the unit. *)
Definition commits u (a : Address) (v : WitenssVote) : Prop :=
  v ∈ WitnessVotes u /\ length (Extra v) = ExtraSealSize /\ List.hd 0 (Extra v) = msgCommit /\
  Sender (deriveSigner (SignContent_V (u_Sign u))) (ToVote (HashWithoutVote (u_header u)) v) = Ok a.

Lemma unit_voters_ok s h vs acc voters :
  unit_voters s h 0 vs acc = Ok voters -> NoDup acc ->
  NoDup voters /\ forall a, a ∈ voters <-> a ∈ acc \/ exists v, v ∈ vs /\ Sender s (ToVote h v) = Ok a.
Proof.
  revert acc. induction vs as [|v vs IH]; intros acc; cbn [unit_voters].
  { intros [= <-] N. split; [done|]. intros a. split; [by left|]. intros [?|(v & H%not_elem_of_nil & _)]; done. }
  destruct (_ || _); [done|]. cbn [Z.eqb negb andb]. destruct (Sender s (ToVote h v)) as [addr|] eqn:Es; [|done].
  assert (forall a, (exists w, w ∈ v :: vs /\ Sender s (ToVote h w) = Ok a) <-> a = addr \/ exists w, w ∈ vs /\ Sender s (ToVote h w) = Ok a) as Head.
  { intros a. split.
    - intros (w & [->|I]%elem_of_cons & E); [left; congruence|right; by exists w].
    - intros [->|(w & I & E)]; [exists v; split; [left|done]|exists w; split; [by right|done]]. }
  case_bool_decide as M; intros H N.
  - destruct (IH acc H N) as [Nd A]. split; [done|]. intros a. rewrite A, Head. split; [tauto|]. intros [?|[->|?]]; auto.
  - assert (NoDup (acc ++ [addr])) as N' by (apply list.NoDup_app; split_and!; [done|by intros x Ix ->%list_elem_of_singleton|apply list.NoDup_singleton]).
    destruct (IH _ H N') as [Nd A]. split; [done|]. intros a. rewrite A, Head, elem_of_app, list_elem_of_singleton. tauto.
Qed.

Lemma unit_voters_form s h r vs acc voters v :
  unit_voters s h r vs acc = Ok voters -> v ∈ vs -> length (Extra v) = ExtraSealSize /\ List.hd 0 (Extra v) = msgCommit.
Proof.
  revert acc. induction vs as [|w vs IH]; intros acc; cbn [unit_voters]; [by intros _ I%not_elem_of_nil|].
  destruct (negb _ || negb _) eqn:E; [done|]. destruct (_ && _); [done|]. destruct (Sender s _); [|done]. intros H I.
  apply elem_of_cons in I as [->|I].
  - apply orb_false_iff in E as [E1%negb_false_iff E2%negb_false_iff]. split; [by apply Nat.eqb_eq|by apply Z.eqb_eq].
  - case_bool_decide; by eapply IH.
Qed.

(** The voters are exactly those whose votes the unit carries. *)
Lemma GetUnitVoter_ok u voters :
  GetUnitVoter u = Ok voters -> NoDup voters /\ forall a, a ∈ voters <-> exists v, commits u a v.
Proof.
  intros H. destruct (unit_voters_ok _ _ _ _ _ H) as [Nd A]; [constructor|]. split; [done|]. intros a. rewrite A. split.
  - intros [I%not_elem_of_nil|(v & I & E)]; [done|]. exists v. destruct (unit_voters_form _ _ _ _ _ _ v H I). by split_and!.
  - intros (v & I & _ & _ & E). right. by exists v.
Qed.

(** The conditions on a header; the parent and the system unit are [p] and [sys]. *)
Record header_rules l now u (p sys : Header) : Prop := {
  rule_new : GetHeaderByHash l (Hash_ u) = None;
  rule_parent : GetHeaderByHash l (ParentHash (u_header u)) = Some p;
  rule_sys : GetHeaderByHash l (SCHash (u_header u)) = Some sys;
  rule_chain : Number (u_header u) = 1 \/ MC (u_header u) = MC p;
  rule_number : Number (u_header u) = u64 (Number p + 1);
  rule_sys_number : SCNumber (u_header u) = Number sys /\ SCNumber p <= SCNumber (u_header u);
  rule_sys_parent : MC (u_header u) = SCAccount -> SCHash (u_header u) = ParentHash (u_header u);
  rule_time : Timestamp p < Timestamp (u_header u) <= u64 (now + allowedFutureBlockTime) /\ Timestamp sys < Timestamp (u_header u);
  rule_interval : (if bool_decide (SCAccount = MC (u_header u)) then 90 else 10) * Second <= u64 (Timestamp (u_header u) - Timestamp p);
  rule_proposer : unit_Sender signer u = Ok (Proposer (u_header u));
  rule_gas : exists db limit, StateAt l (StateRoot sys) = Some db /\
    Proposal.ReadConfig Proposal.ConfigParamsUcGasLimit db = Ok limit /\
    GasUsed (u_header u) <= GasLimit (u_header u) <= Z.min limit defGasCap
}.

(** An ordinary unit was made and voted for by the witnesses of its chain. *)
Definition witnessed l u : Prop := exists ws voters,
  GetChainWitnessLib l (MC (u_header u)) (SCHash (u_header u)) = Ok ws /\ Proposer (u_header u) ∈ ws /\
  NoDup voters /\ (forall a, a ∈ voters <-> exists v, commits u a v) /\ (forall a, a ∈ voters -> a ∈ ws) /\
  Validators.GetChainMinVoting (MC (u_header u)) <= Z.of_nat (length voters) <= GetChainWitnessCount (MC (u_header u)) /\
  (GetStableHash l (MC (u_header u)) (Number (u_header u)) = 0 \/ GetStableHash l (MC (u_header u)) (Number (u_header u)) = Hash_ u).

(** A unit that ends an arbitration was voted for by the council, and its time is given. *)
Definition decreed l u : Prop := exists last db t voters,
  GetHeaderByNumber l (MC (u_header u)) (SCNumber (u_header u)) = Some last /\
  Timestamp (u_header u) = u64 (Timestamp last + SCDeadArbitrationInterval * Second) /\
  GetChainTailState l SCAccount = Some db /\
  NoDup voters /\ (forall a, a ∈ voters <-> exists v, commits u a v) /\ (forall a, a ∈ voters -> a ∈ Witness.GetCouncilList db) /\
  (length (Witness.GetCouncilList db) * 2 / 3 + 1 <= length voters)%nat /\
  GetChainTailHead l (MC (u_header u)) = Some t /\ Number t <= Number (u_header u).

Lemma forallb_in {A} `{EqDecision A} (xs ys : list A) :
  forallb (fun x => bool_decide (x ∈ ys)) xs = true -> forall x, x ∈ xs -> x ∈ ys.
Proof. intros F x I. rewrite forallb_forall in F. apply list_elem_of_In in I. by apply F, bool_decide_eq_true in I. Qed.

Lemma VerifySeal_witnessed l u ws :
  GetChainWitnessLib l (MC (u_header u)) (SCHash (u_header u)) = Ok ws -> unit_Sender signer u = Ok (Proposer (u_header u)) ->
  VerifySeal l u ws = Ok tt -> witnessed l u.
Proof.
  intros Gw Sd. unfold VerifySeal. intros H. peel H. peel H. peel H. peel H. peel H. peel H. peel H.
  rewrite Sd in E1. injection E1 as <-. apply negb_false_iff in E2, E4, E5. apply bool_decide_eq_true in E2.
  destruct (GetUnitVoter_ok u a0 E3) as [Nd A]. unfold enough_votes in E4. apply andb_true_iff in E4 as [L1 L2].
  exists ws, a0. split_and!; try done; try lia; [by apply forallb_in|].
  unfold dishonestCheck in H. destruct (_ || _) eqn:Q; [apply orb_true_iff in Q as [Q|Q]; [left|right]; lia|].
  exfalso. peel H. peel H. peel H. by destruct (_ && _).
Qed.

Lemma verifyArbitrationUnit_decreed l now u : verifyArbitrationUnit l now u = Ok tt -> decreed l u.
Proof.
  unfold verifyArbitrationUnit. intros H. peel H. peel H. rename a0 into last, E0 into El. peel H. rename E0 into Et.
  peel H. rename a0 into voters, E0 into Ev. peel H. rename a0 into db, E0 into Ed. peel H. rename E0 into Le. peel H. rename E0 into Al.
  peel H. rename a0 into t, E0 into Ett. peel H. apply negb_false_iff in Et, Al. destruct (GetUnitVoter_ok u voters Ev) as [Nd A].
  exists last, db, t, voters. split_and!; try done; try lia; [by apply forallb_in|].
  apply Nat.ltb_ge in Le. lia.
Qed.

(** C4: A header passes only if the unit is new, is the next above its parent on
    the same chain and later by the interval, was signed by the proposer it names,
    has a system unit that is older than it and no lower than its parent's, and
    keeps the gas limits; and only if its proposer is a witness of the chain,
    enough and not too many of the witnesses signed a vote for it, and no other
    unit has its height, or, for the unit that ends an arbitration, if its time is
    the given one and more than two thirds of the council voted. *)
Theorem verifyHeader_accepts l now u :
  verifyHeader l now u true = Ok tt ->
  exists p sys, header_rules l now u p sys /\ (if IsBlackUnit u then decreed l u else witnessed l u).
Proof.
  unfold verifyHeader. intros H. peel H. destruct a.
  destruct (verify_basic_ok l now u E) as (New & p & Ep & Mc & Nu & Ti & Int & Sd & Sp & sys & db & limit & Es & Sn & Ts & So & Sdb & Lim & Gas).
  exists p, sys. split.
  - split; try done; [by intros M; rewrite bool_decide_eq_true_2 in Sp|by exists db, limit].
  - destruct (IsBlackUnit u); [by eapply verifyArbitrationUnit_decreed|].
    destruct (GetChainWitnessLib _ _ _) as [ws|[]] eqn:Gw; try done. by eapply VerifySeal_witnessed.
Qed.

(** ** A signature that is too short *)

Lemma short_Sender s sh : (length (GetRSVBySignatureHash sh) < 65)%nat -> Sender s sh = Err ErrInvalidSig.
Proof.
  intros H. unfold Sender, PublicKey_, SignContent, GetSig. by rewrite (proj2 (Nat.ltb_lt _ _) H).
Qed.

Lemma short_unit_Sender s u : Empty (u_sender u) = true -> (length (u_Sign u) < 65)%nat -> unit_Sender s u = Err (ErrSig ErrInvalidSig).
Proof. intros Em Sh. unfold unit_Sender. by rewrite Em, short_Sender. Qed.

(** C8: A unit that passes the checks before its signature, and whose signature is
    shorter than one can be, ends the process of the node it reaches. *)
Theorem short_signature_halts l now u p :
  Empty (u_sender u) = true -> (length (u_Sign u) < 65)%nat ->
  ExistUnit l (Hash_ u) = false -> ChainIsInInArbitration l (MC (u_header u)) = false -> BadUnitCheck l u = (Ok tt, l) ->
  arbitrated_check l u = Ok tt -> GetHeaderByHash l (Hash_ u) = None ->
  GetHeaderByHash l (ParentHash (u_header u)) = Some p -> Number (u_header u) = 1 \/ MC (u_header u) = MC p ->
  Number (u_header u) = u64 (Number p + 1) ->
  Timestamp p < Timestamp (u_header u) <= u64 (now + allowedFutureBlockTime) ->
  90 * Second <= u64 (Timestamp (u_header u) - Timestamp p) ->
  InsertUnit now u l = Err Crit.
Proof.
  intros Em Sh Ex Arb Bad Ac New Ep Mc Nu Ti Int. unfold InsertUnit. destruct (short_vote u); [done|]. rewrite Ex.
  assert (VerifyWithProposal l u = Ok None \/ VerifyWithProposal l u = Err Crit) as [-> | ->]; [|cbn [result_bind]|done].
  { unfold VerifyWithProposal. destruct (CurrentProposal _); [|by left]. destruct (negb _); [by left|].
    destruct (GetChainWitnessLib _ _ _) as [ws|[]]; try (by left); [|by right]. left.
    unfold VerifySeal. destruct (_ =? 0)%nat; [done|]. destruct (negb _); [done|]. by rewrite short_unit_Sender. }
  rewrite Arb, Bad, Ac. assert (verify_basic l now u = Err (ErrSig ErrInvalidSig)) as Vb.
  { unfold verify_basic. rewrite New, Ep. cbn [get result_bind]. rewrite bool_decide_eq_false_2 by by intros [? ?].
    destruct (negb (Number (u_header u) =? 1) && negb (bool_decide (MC (u_header u) = MC p))) eqn:X.
    { apply andb_true_iff in X as [X1%negb_true_iff X2%negb_true_iff%bool_decide_eq_false]. destruct Mc; [lia|done]. }
    rewrite <- Nu, Z.eqb_refl. cbn [negb].
    destruct (Z.gtb_spec (Timestamp (u_header u)) (u64 (now + allowedFutureBlockTime))); [lia|].
    destruct (Z.leb_spec (Timestamp (u_header u)) (Timestamp p)); [lia|].
    destruct (Z.ltb_spec (u64 (Timestamp (u_header u) - Timestamp p))
      ((if bool_decide (SCAccount = MC (u_header u)) then OneNumberHaveSecondBySys else OneNumberHaveSecondByUc) * Second)) as [L|].
    { exfalso. unfold OneNumberHaveSecondBySys, OneNumberHaveSecondByUc, Second in *. case_bool_decide; lia. }
    by rewrite short_unit_Sender. }
  unfold check_unit_full, verifyHeader. rewrite Vb. cbn [result_bind refuse_unit reportUnit]. unfold addBadUnit.
  by rewrite short_unit_Sender.
Qed.

(** ** What is stored is found *)

(** Everything but the index of transactions and the bodies. *)
Definition others l := (headers l, stable l, tails l, states l, receipts l, originTxs l).

Lemma write_statuses_others h i ts rs l :
  (others (write_statuses h i ts rs l), txs (write_statuses h i ts rs l)) = (others l, txs l).
Proof. revert i rs l. induction ts as [|x ts IH]; intros i rs l; [done|]. cbn [write_statuses]. by rewrite IH. Qed.

Definition write_tx l (x : Process.TransactionExec) : Ledger DB :=
  match Process.Tx x with Some t => set_txs <[tx_Hash t := t]> l | None => l end.
Lemma write_txs_others ts l : others (foldl write_tx l ts) = others l.
Proof. revert l. induction ts as [|x ts IH]; intros l; [done|]. cbn [foldl]. rewrite IH. unfold write_tx. by destruct (Process.Tx x). Qed.

(** [t] is the only transaction of its hash. *)
Definition alone (ts : list Process.TransactionExec) (t : Transaction) : Prop :=
  forall y t', y ∈ ts -> Process.Tx y = Some t' -> tx_Hash t' = tx_Hash t -> t' = t.

Lemma write_txs_keep ts l t : alone ts t -> txs l !! tx_Hash t = Some t -> txs (foldl write_tx l ts) !! tx_Hash t = Some t.
Proof.
  revert l. induction ts as [|y ts IH]; intros l U E; [done|]. cbn [foldl]. apply IH; [intros z t' Iz; apply U; by right|].
  unfold write_tx. destruct (Process.Tx y) as [t'|] eqn:Ey; [|done]. cbn. destruct (decide (tx_Hash t' = tx_Hash t)) as [Q|N].
  - rewrite (U y t' ltac:(left) Ey Q). by rewrite lookup_insert_eq.
  - by rewrite lookup_insert_ne.
Qed.
Lemma write_txs_found ts l x t : x ∈ ts -> Process.Tx x = Some t -> alone ts t -> txs (foldl write_tx l ts) !! tx_Hash t = Some t.
Proof.
  intros I Ex. revert l. induction I as [x ts|x y ts I IH]; intros l U; cbn [foldl].
  - apply write_txs_keep; [intros z t' Iz; apply U; by right|]. unfold write_tx. rewrite Ex. cbn. apply lookup_insert_eq.
  - apply IH; [done|]. intros z t' Iz. apply U. by right.
Qed.

(** The transactions that a unit brings. *)
Definition brought (ts : list Process.TransactionExec) : list Transaction := omap Process.Tx ts.
Definition brought_hashes (ts : list Process.TransactionExec) : list Hash :=
  omap (fun x => match Process.Tx x with Some _ => Some (Process.TxHash x) | None => None end) ts.

Lemma brought_cons x ts : brought (x :: ts) = match Process.Tx x with Some t => t :: brought ts | None => brought ts end.
Proof. done. Qed.
Lemma brought_hashes_cons x ts :
  brought_hashes (x :: ts) = match Process.Tx x with Some _ => Process.TxHash x :: brought_hashes ts | None => brought_hashes ts end.
Proof. unfold brought_hashes. cbn. by destruct (Process.Tx x). Qed.

(** A transaction that is brought is named by its hash, has no step before it,
    and is the only one of its hash. *)
Definition regular (ts : list Process.TransactionExec) : Prop :=
  forall x t, x ∈ ts -> Process.Tx x = Some t ->
    Process.TxHash x = tx_Hash t /\ Process.UnitID_IsEmpty (Process.PreStep x) = true /\ alone ts t.

Lemma get_txs_found l ts : (forall x t, x ∈ ts -> Process.Tx x = Some t -> GetTx l (Process.TxHash x) = Some t) ->
  get_txs l (brought_hashes ts) = Some (brought ts).
Proof.
  induction ts as [|x ts IH]; intros H; [done|]. rewrite brought_cons, brought_hashes_cons.
  assert (forall y t, y ∈ ts -> Process.Tx y = Some t -> GetTx l (Process.TxHash y) = Some t) as H' by (intros y t I; apply H; by right).
  specialize (IH H'). destruct (Process.Tx x) as [t|] eqn:Ex; [|done]. cbn [get_txs]. by rewrite (H x t ltac:(left) Ex), IH.
Qed.

Lemma decode_steps_stored ts origin :
  (forall x t, x ∈ ts -> Process.Tx x = Some t -> Process.UnitID_IsEmpty (Process.PreStep x) = true /\
     List.find (fun t' => tx_Hash t' =? Process.TxHash x) origin = Some t) ->
  decode_steps (map store_step ts) origin = Some ts.
Proof.
  induction ts as [|[a pre h o] ts IH]; intros H; [done|]. cbn [map decode_steps store_step HaveTx ts_PreStep ts_TxHash ts_Action Process.Tx Process.PreStep Process.TxHash Process.Action].
  rewrite IH by (intros x t I; apply H; by right). destruct o as [t|]; [|by rewrite andb_false_r].
  destruct (H _ t ltac:(left) eq_refl) as [Em Fi]. cbn [Process.PreStep Process.TxHash] in Em, Fi. by rewrite Em, Fi.
Qed.

Lemma find_brought ts x t : regular ts -> x ∈ ts -> Process.Tx x = Some t ->
  List.find (fun t' => tx_Hash t' =? Process.TxHash x) (brought ts) = Some t.
Proof.
  intros R I Ex. destruct (R x t I Ex) as (Hx & _ & U). rewrite Hx.
  destruct (List.find _ _) as [t'|] eqn:F.
  - apply find_some in F as [F1 F2]. apply list_elem_of_In, list_elem_of_omap in F1 as (y & Iy & Ey).
    f_equal. apply (U y t' Iy Ey). lia.
  - exfalso. assert ((tx_Hash t =? tx_Hash t) = false) as N by (apply (find_none _ _ F t), list_elem_of_In, list_elem_of_omap; by exists x).
    by rewrite Z.eqb_refl in N.
Qed.

Lemma brought_length ts : (length (brought ts) <= length ts)%nat.
Proof. induction ts as [|x ts IH]; [done|]. rewrite brought_cons. destruct (Process.Tx x); cbn [length]; lia. Qed.

Lemma get_txs_same l l' hs : txs l = txs l' -> get_txs l hs = get_txs l' hs.
Proof. intros E. induction hs as [|h hs IH]; [done|]. cbn [get_txs]. unfold GetTx. by rewrite E, IH. Qed.
Lemma GetUnitBody_same l l' chain h number : (bodies l, originTxs l, txs l) = (bodies l', originTxs l', txs l') ->
  GetUnitBody l chain h number = GetUnitBody l' chain h number.
Proof.
  intros [= Eb Eo Et]. unfold GetUnitBody, GetUnitOriginTxs, GetUnitOringTxHash. rewrite Eb, Eo. by rewrite (get_txs_same l l').
Qed.

(** The body that was written is the one that is read. *)
Lemma WriteBody_read chain number h (b : Body) rs l :
  regular (body_Txs b) -> originTxs l !! (h, number) = None ->
  GetUnitBody (WriteBody chain number h b rs l) chain h number = Some b.
Proof.
  intros R No. unfold WriteBody, WriteUnitBody. set (l1 := write_statuses _ _ _ _ _).
  assert (originTxs l1 = originTxs l) as E1 by exact (f_equal (fun p => snd (fst p)) (write_statuses_others h 1 (body_Txs b) rs l)).
  change (foldl _ l1 (body_Txs b)) with (foldl write_tx l1 (body_Txs b)). set (l2 := foldl write_tx l1 _).
  assert (originTxs l2 = originTxs l1) as E2 by exact (f_equal snd (write_txs_others (body_Txs b) l1)).
  change (omap _ (body_Txs b)) with (brought_hashes (body_Txs b)). set (l3 := set_bodies _ l2).
  set (l4 := if (length (brought_hashes (body_Txs b)) =? 0)%nat then l3 else _).
  assert (bodies l4 !! (hash chain, h, number) = Some (mkBodyStorage (map store_step (body_Txs b)) (body_Votes b) (b_Sign b))) as Eb.
  { subst l4. destruct (_ =? 0)%nat; cbn; apply lookup_insert_eq. }
  assert (txs l4 = txs l2) as Et by (subst l4; by destruct (_ =? 0)%nat).
  assert (GetUnitOringTxHash l4 h number = brought_hashes (body_Txs b)) as Eo.
  { subst l4. unfold GetUnitOringTxHash. destruct (brought_hashes (body_Txs b)) as [|x xs]; cbn [length Nat.eqb].
    - subst l3. cbn. by rewrite E2, E1, No.
    - cbn. by rewrite lookup_insert_eq. }
  unfold GetUnitBody, GetUnitOriginTxs. rewrite Eb, Eo, get_txs_found.
  - unfold decodeUnitBody. cbn [Txs Voters body_Sign]. rewrite length_map, (proj2 (Nat.ltb_ge _ _)) by apply brought_length.
    rewrite decode_steps_stored; [by destruct b|]. intros x t I Ex. destruct (R x t I Ex) as (_ & Em & _). split; [done|by apply find_brought].
  - intros x t I Ex. destruct (R x t I Ex) as (Hx & _ & U). unfold GetTx. rewrite Et, Hx. by eapply write_txs_found.
Qed.

(** The ledger with a unit more. *)
Definition stored_with u (rs : list Process.Receipt) (stored : DB) l : Ledger DB :=
  let hd := u_header u in
  let l := set_fees (Settle.Write (settle_unit u)) (WriteChildrens u (set_states <[StateRoot hd := stored]> l)) in
  let l := WriteBody (MC hd) (Number hd) (Hash_ u) (mkBody (Transactions u) (WitnessVotes u) (u_Sign u)) rs l in
  WriteChainTailHash (Hash_ u) (MC hd)
    (WriteStableHash (Hash_ u) (MC hd) (Number hd) (WriteHeader hd (WriteUnitReceipts (Hash_ u) (Number hd) rs l))).

Lemma store_unit_ok statedb u rs l l' :
  store_unit statedb u rs l = Ok l' <->
  exists stored, CommitToChain (MC (u_header u)) statedb = Some (StateRoot (u_header u), stored) /\ l' = stored_with u rs stored l.
Proof.
  unfold store_unit, writeUnitBody, stored_with. destruct (CommitToChain _ _) as [[root stored]|]; cbn [need result_bind].
  - destruct (Z.eqb_spec root (StateRoot (u_header u))) as [->|N]; cbn [negb result_bind].
    + split; [intros [= <-]; by exists stored|]. intros (s & [= ->] & ->). done.
    + split; [done|]. intros (s & [= -> _] & _). done.
  - split; [done|]. by intros (s & ? & _).
Qed.

Lemma WriteChildrens_others u l : others (WriteChildrens u l) = others l.
Proof.
  unfold WriteChildrens. generalize (references u). intros ps. revert l. induction ps as [|p ps IH]; intros l; [done|].
  cbn [foldl]. rewrite IH. unfold add_child. by destruct (p =? 0).
Qed.
Lemma WriteBody_others chain number h b rs l : let l' := WriteBody chain number h b rs l in
  (headers l', stable l', tails l', states l', receipts l') = (headers l, stable l, tails l, states l, receipts l).
Proof.
  cbv zeta. unfold WriteBody, WriteUnitBody. set (l1 := write_statuses _ _ _ _ _).
  change (foldl _ l1 (body_Txs b)) with (foldl write_tx l1 (body_Txs b)).
  pose proof (f_equal fst (write_statuses_others h 1 (body_Txs b) rs l)) as E1. pose proof (write_txs_others (body_Txs b) l1) as E2.
  cbn [fst] in E1. fold l1 in E1. unfold others in E1, E2. injection E1 as A1 A2 A3 A4 A5 _. injection E2 as B1 B2 B3 B4 B5 _.
  destruct (_ =? 0)%nat; cbn; by rewrite B1, B2, B3, B4, B5, A1, A2, A3, A4, A5.
Qed.

Lemma stored_with_read u rs stored l : let l' := stored_with u rs stored l in
  regular (Transactions u) -> originTxs l !! (Hash_ u, Number (u_header u)) = None ->
  headers l' = <[Hash_ u := u_header u]> (headers l) /\
  stable l' = <[(hash (MC (u_header u)), Number (u_header u)) := Hash_ u]> (stable l) /\
  tails l' = <[hash (MC (u_header u)) := Hash_ u]> (tails l) /\
  states l' = <[StateRoot (u_header u) := stored]> (states l) /\
  receipts l' = <[(Hash_ u, Number (u_header u)) := rs]> (receipts l) /\
  GetUnitBody l' (MC (u_header u)) (Hash_ u) (Number (u_header u)) = Some (mkBody (Transactions u) (WitnessVotes u) (u_Sign u)).
Proof.
  cbv zeta. intros R No. unfold stored_with. set (l1 := set_fees _ _). set (b := mkBody _ _ _).
  pose proof (WriteBody_others (MC (u_header u)) (Number (u_header u)) (Hash_ u) b rs l1) as E. cbv zeta in E.
  pose proof (WriteChildrens_others u (set_states <[StateRoot (u_header u) := stored]> l)) as W. unfold others in W. injection W as W1 W2 W3 W4 W5 W6.
  set (l2 := WriteBody _ _ _ _ _ l1) in *. injection E as E1 E2 E3 E4 E5.
  split_and!; [exact (f_equal _ (eq_trans E1 W1))|exact (f_equal _ (eq_trans E2 W2))|exact (f_equal _ (eq_trans E3 W3))|exact (eq_trans E4 W4)|
    exact (f_equal _ (eq_trans E5 W5))|].
  rewrite (GetUnitBody_same _ l2) by done. apply WriteBody_read; [done|].
  change (originTxs (WriteChildrens u (set_states <[StateRoot (u_header u) := stored]> l)) !! (Hash_ u, Number (u_header u)) = None). by rewrite W6.
Qed.

Lemma stored_with_tables u rs stored l : let l' := stored_with u rs stored l in
  headers l' = <[Hash_ u := u_header u]> (headers l) /\
  stable l' = <[(hash (MC (u_header u)), Number (u_header u)) := Hash_ u]> (stable l) /\
  tails l' = <[hash (MC (u_header u)) := Hash_ u]> (tails l).
Proof.
  cbv zeta. unfold stored_with. set (l1 := set_fees _ _). set (b := mkBody _ _ _).
  pose proof (WriteBody_others (MC (u_header u)) (Number (u_header u)) (Hash_ u) b rs l1) as E. cbv zeta in E.
  pose proof (WriteChildrens_others u (set_states <[StateRoot (u_header u) := stored]> l)) as W. unfold others in W. injection W as W1 W2 W3 _ _ _.
  set (l2 := WriteBody _ _ _ _ _ l1) in *. injection E as E1 E2 E3 _ _.
  split_and!; [exact (f_equal _ (eq_trans E1 W1))|exact (f_equal _ (eq_trans E2 W2))|exact (f_equal _ (eq_trans E3 W3))].
Qed.

Lemma stored_with_children u rs stored l q :
  WalkChildren (stored_with u rs stored l) q = WalkChildren (WriteChildrens u (set_states <[StateRoot (u_header u) := stored]> l)) q.
Proof.
  unfold stored_with. set (l1 := set_fees _ _). set (l2 := WriteBody _ _ _ _ _ l1).
  assert (core l2 = core l1) as E by apply WriteBody_core. unfold core in E. injection E as _ _ _ E.
  change (default [] (children l2 !! q) = WalkChildren l1 q). unfold WalkChildren. by rewrite E.
Qed.

(** How a unit was accepted. *)
Definition approved l now u (rs : list Process.Receipt) (statedb : DB) (logs : list StoredLog) : Prop :=
  match VerifyWithProposal l u with
  | Ok (Some pro) => rs = mr_Receipts pro /\ statedb = mr_StateDB pro /\ logs = mr_Logs pro
  | Err _ => False
  | Ok None => check_unit_full l now u = Ok tt /\ execute l u = Ok (rs, statedb, logs)
  end.

Lemma InsertUnit_approved l now u l' :
  InsertUnit now u l = Ok (Ok tt, l') ->
  short_vote u = false /\ ExistUnit l (Hash_ u) = false /\ exists rs statedb logs, approved l now u rs statedb logs /\
    writeRightUnit statedb u rs logs l = Ok (Ok tt, l').
Proof.
  unfold InsertUnit, approved. destruct (short_vote u); [done|]. destruct (ExistUnit l (Hash_ u)); [done|]. intros H. split; [done|]. split; [done|].
  destruct (VerifyWithProposal l u) as [[pro|]|]; [|cbn [result_bind] in H|done]; [cbn [result_bind] in H; by exists (mr_Receipts pro), (mr_StateDB pro), (mr_Logs pro)|].
  destruct (ChainIsInInArbitration l (MC (u_header u))) eqn:Arb; [done|].
  destruct (BadUnitCheck l u) as [[[]|] l1] eqn:B1; [|done]. pose proof (BadUnitCheck_same _ _ _ B1) as ->.
  destruct (arbitrated_check l u) eqn:Ac; [|done]. destruct (check_unit_full l now u) as [[]|e].
  2:{ exfalso. destruct e; cbn [refuse_unit] in H; try done; try (by destruct (reportUnit _ _ _ _)).
      destruct (_ >? _); [done|]. by destruct (BadUnitCheck l u) as [[[]|] ?]. }
  destruct (VerifyUnit l u _) as [[[[rs statedb] logs]|e] l2] eqn:V.
  2:{ exfalso. destruct e; try done; by destruct (reportUnit _ _ _ _). }
  unfold VerifyUnit in V. rewrite Arb, B1, Ac in V. cbn [result_bind] in V. injection V as V ->.
  apply let_ok in V as (? & _ & V). apply let_ok in V as (? & _ & V). exists rs, statedb, logs. done.
Qed.

Lemma processSystemLogs_none u logs l : MC (u_header u) <> SCAccount -> processSystemLogs u logs l = Ok l.
Proof. intros N. unfold processSystemLogs. by rewrite bool_decide_eq_false_2. Qed.

(** An ordinary unit of a chain of a user: only its own tables change. *)
Lemma writeRightUnit_stores statedb u rs logs l l' :
  MC (u_header u) <> SCAccount -> Proposer (u_header u) <> Witness.PublicPrivateKeyAddr ->
  writeRightUnit statedb u rs logs l = Ok (Ok tt, l') <->
  GetUnitNumber l (Hash_ u) = None /\ exists stored, CommitToChain (MC (u_header u)) statedb = Some (StateRoot (u_header u), stored) /\
    l' = post (SyncBeta (Hash_ u)) (post (ChainEvent (Hash_ u)) (stored_with u rs stored l)).
Proof.
  intros Nsc Nb. unfold writeRightUnit. rewrite bool_decide_eq_false_2 by done. cbn [result_bind].
  destruct (GetUnitNumber l (Hash_ u)) as [x|]; [split; [done|by intros [? _]]|].
  destruct (store_unit statedb u rs l) as [l1|e] eqn:E; cbn [result_bind].
  - rewrite processSystemLogs_none by done. cbn [result_bind]. apply store_unit_ok in E as (stored & Ec & ->). split.
    + intros [= <-]. split; [done|]. by exists stored.
    + intros (_ & s & Es & ->). rewrite Ec in Es. by injection Es as ->.
  - split; [done|]. intros (_ & s & Es & _). pose proof (proj2 (store_unit_ok statedb u rs l _) (ex_intro _ s (conj Es eq_refl))). congruence.
Qed.

(** What the checks make sure of in the transactions of a unit that is received. *)
Lemma check_txs_ok l db u ts x t : check_txs l db u ts = Ok tt -> x ∈ ts -> Process.Tx x = Some t ->
  Process.TxHash x = tx_Hash t /\ Process.UnitID_IsEmpty (Process.PreStep x) = true.
Proof.
  induction ts as [|y ts IH]; cbn [check_txs]; [by intros _ I%not_elem_of_nil|]. intros H I Ex. peel H. peel H. peel H.
  apply elem_of_cons in I as [->|I]; [|by apply IH]. rewrite Ex in E. rewrite andb_true_r in E. apply negb_false_iff in E.
  split; [|done]. unfold check_tx in E1. rewrite Ex in E1. peel E1. apply negb_false_iff in E2. lia.
Qed.

Lemma ValidateBody_regular l u :
  ValidateBody l u = Ok tt -> (forall x t, x ∈ Transactions u -> Process.Tx x = Some t -> alone (Transactions u) t) ->
  regular (Transactions u).
Proof.
  unfold ValidateBody. intros H A x t I Ex. destruct (Transactions u) as [|y rest] eqn:Et; [by apply not_elem_of_nil in I|].
  peel H. peel H. peel H. rewrite <- Et in *. destruct (check_txs_ok _ _ _ _ _ _ H I Ex). split_and!; [done..|by eapply A].
Qed.

(** C5: A unit of a user's chain that was accepted is found as it came: by its
    hash with all of its transactions and votes, by its number, and as the tail of
    its chain; its state and receipts are those that running it gave, or that the engine
    had of its proposal; and it is known when it comes again.  The conditions: it is not
    the unit that ends an arbitration, no two different transactions in it have one
    hash, no list of transactions is left under its hash; and, if it is the proposal of
    the node's own engine, whose body is not checked, its steps are named by the hashes
    of their transactions and those with a transaction have no source (of a unit that is
    received the checks make sure of this). *)
Theorem InsertUnit_stores l now u l' :
  (forall hd, Header_Hash hd <> 0) -> MC (u_header u) <> SCAccount -> Proposer (u_header u) <> Witness.PublicPrivateKeyAddr ->
  Number (u_header u) <> 0 -> originTxs l !! (Hash_ u, Number (u_header u)) = None ->
  (forall x t, x ∈ Transactions u -> Process.Tx x = Some t -> alone (Transactions u) t) ->
  (VerifyWithProposal l u <> Ok None -> regular (Transactions u)) ->
  InsertUnit now u l = Ok (Ok tt, l') ->
  GetUnit l' (Hash_ u) = Some (mkUnit (u_header u) (Transactions u) (WitnessVotes u) (u_Sign u) zeroAddress) /\
  GetHeaderByNumber l' (MC (u_header u)) (Number (u_header u)) = Some (u_header u) /\
  GetChainTailHead l' (MC (u_header u)) = Some (u_header u) /\
  InsertUnit now u l' = Ok (Err ErrKnownBlock, l') /\
  exists rs statedb logs stored, approved l now u rs statedb logs /\
    receipts l' !! (Hash_ u, Number (u_header u)) = Some rs /\
    CommitToChain (MC (u_header u)) statedb = Some (StateRoot (u_header u), stored) /\ GetUnitState l' (Hash_ u) = Some stored.
Proof.
  intros Hz Nsc Nb N0 No One Pro H. destruct (InsertUnit_approved l now u l' H) as (Sv & Ex & rs & statedb & logs & Ap & Wr).
  assert (regular (Transactions u)) as R.
  { unfold approved in Ap. destruct (VerifyWithProposal l u) as [[pro|]|] eqn:V; [by apply Pro| |done].
    destruct Ap as [Full _]. unfold check_unit_full in Full. peel Full. by eapply ValidateBody_regular. }
  apply writeRightUnit_stores in Wr as (_ & stored & Ec & ->); [|done..].
  destruct (stored_with_read u rs stored l R No) as (E1 & E2 & E3 & E4 & E5 & E6). set (l1 := stored_with u rs stored l) in *.
  set (l2 := post _ _). unfold ExistUnit in Ex. apply orb_false_iff in Ex as [Ng _]. assert (Hash_ u <> 0) as Nz by apply Hz.
  assert (headers l2 !! Hash_ u = Some (u_header u)) as Eh by (change (headers l1 !! Hash_ u = Some (u_header u)); by rewrite E1, lookup_insert_eq).
  assert (GetHeaderByHash l2 (Hash_ u) = Some (u_header u)) as Gh by (unfold GetHeaderByHash; by rewrite Ng).
  split_and!.
  - unfold GetUnit. rewrite (proj2 (Z.eqb_neq _ _) Nz), Ng, Eh.
    rewrite (GetUnitBody_same l2 l1) by done. by rewrite E6.
  - unfold GetHeaderByNumber, GetStableHash. rewrite (proj2 (Z.eqb_neq _ _) N0). change (stable l2) with (stable l1).
    rewrite E2, lookup_insert_eq. change (default 0 (Some (Hash_ u))) with (Hash_ u). cbv zeta. cbv zeta. by rewrite (proj2 (Z.eqb_neq _ _) Nz).
  - unfold GetChainTailHead, GetChainTailHash. change (tails l2) with (tails l1). rewrite E3, lookup_insert_eq. change (default 0 (Some (Hash_ u))) with (Hash_ u). cbv zeta.
    by rewrite (proj2 (Z.eqb_neq _ _) Nz).
  - unfold InsertUnit, ExistUnit. rewrite Sv, Eh. by rewrite bool_decide_eq_true_2, orb_true_r by by eexists.
  - exists rs, statedb, logs, stored. split_and!; [done| |done|].
    + change (receipts l2) with (receipts l1). by rewrite E5, lookup_insert_eq.
    + unfold GetUnitState, StateAt. rewrite Gh. change (states l2) with (states l1). by rewrite E4, lookup_insert_eq.
Qed.

(** ** The proposal of the engine *)

Definition with_transactions (ts : list Process.TransactionExec) u : Unit :=
  mkUnit (u_header u) ts (WitnessVotes u) (u_Sign u) (u_sender u).

(** C7: When a unit arrives that the engine has proposed, its header and votes are
    looked at, and not its transactions: with any others in their place it is
    accepted too, with the receipts and the state of the proposal, and the others
    are what is stored. *)
Theorem proposal_body_unchecked l now u ts l' :
  MC (u_header u) <> SCAccount -> Proposer (u_header u) <> Witness.PublicPrivateKeyAddr ->
  VerifyWithProposal l u <> Ok None -> InsertUnit now u l = Ok (Ok tt, l') ->
  exists l2, InsertUnit now (with_transactions ts u) l = Ok (Ok tt, l2) /\
    headers l2 = headers l' /\ receipts l2 = receipts l' /\ states l2 = states l' /\ tails l2 = tails l' /\
    bodies l2 !! (hash (MC (u_header u)), Hash_ u, Number (u_header u)) = Some (mkBodyStorage (map store_step ts) (WitnessVotes u) (u_Sign u)).
Proof.
  intros Nsc Nb V H. destruct (InsertUnit_approved l now u l' H) as (Sv & Ex & rs & statedb & logs & Ap & Wr). clear H.
  set (u' := with_transactions ts u). unfold InsertUnit. change (short_vote u') with (short_vote u). rewrite Sv.
  change (ExistUnit l (Hash_ u')) with (ExistUnit l (Hash_ u)). rewrite Ex.
  change (VerifyWithProposal l u') with (VerifyWithProposal l u). unfold approved in Ap.
  destruct (VerifyWithProposal l u) as [[pro|]|]; [|done|done]. cbn [result_bind]. destruct Ap as (-> & -> & ->).
  apply writeRightUnit_stores in Wr as (New & stored & Ec & ->); [|done..].
  exists (post (SyncBeta (Hash_ u')) (post (ChainEvent (Hash_ u')) (stored_with u' (mr_Receipts pro) stored l))). split.
  { apply writeRightUnit_stores; [done|done|]. split; [done|]. by exists stored. }
  set (r := mr_Receipts pro). unfold stored_with. cbv zeta. set (a := set_fees _ (WriteChildrens u' _)). set (b := set_fees _ (WriteChildrens u _)).
  pose proof (WriteChildrens_others u (set_states <[StateRoot (u_header u) := stored]> l)) as W1.
  pose proof (WriteChildrens_others u' (set_states <[StateRoot (u_header u) := stored]> l)) as W2.
  rewrite <- W1 in W2. clear W1. unfold others in W2. injection W2 as W1 W2 W3 W4 W5 W6.
  pose proof (WriteBody_others (MC (u_header u)) (Number (u_header u)) (Hash_ u) (mkBody ts (WitnessVotes u) (u_Sign u)) r a) as A.
  pose proof (WriteBody_others (MC (u_header u)) (Number (u_header u)) (Hash_ u) (mkBody (Transactions u) (WitnessVotes u) (u_Sign u)) r b) as B'.
  cbv zeta in A, B'. injection A as A1 A2 A3 A4 A5. injection B' as B1 B2 B3 B4 B5.
  split_and!.
  - exact (f_equal _ (eq_trans A1 (eq_trans W1 (eq_sym B1)))).
  - exact (f_equal _ (eq_trans A5 (eq_trans W5 (eq_sym B5)))).
  - exact (eq_trans A4 (eq_trans W4 (eq_sym B4))).
  - exact (f_equal _ (eq_trans A3 (eq_trans W3 (eq_sym B3)))).
  - clear. set (l1 := WriteBody _ _ _ _ _ a). change (bodies l1 !! (hash (MC (u_header u)), Hash_ u, Number (u_header u)) =
      Some (mkBodyStorage (map store_step ts) (WitnessVotes u) (u_Sign u))).
    subst l1. unfold WriteBody, WriteUnitBody. destruct (_ =? 0)%nat; cbn; apply lookup_insert_eq.
Qed.

(** The proposal of the engine is stored without a look at its parent: when
    nothing is at the height below it (the parent was removed since), it is
    accepted all the same, and the tail of the chain stands above a gap. *)
Theorem stale_proposal_accepted l now u pro stored :
  (forall hd, Header_Hash hd <> 0) -> MC (u_header u) <> SCAccount -> Proposer (u_header u) <> Witness.PublicPrivateKeyAddr ->
  short_vote u = false -> ExistUnit l (Hash_ u) = false -> VerifyWithProposal l u = Ok (Some pro) ->
  CommitToChain (MC (u_header u)) (mr_StateDB pro) = Some (StateRoot (u_header u), stored) ->
  GetStableHash l (MC (u_header u)) (Number (u_header u) - 1) = 0 ->
  exists l', InsertUnit now u l = Ok (Ok tt, l') /\ GetChainTailHead l' (MC (u_header u)) = Some (u_header u) /\
    GetHeaderByNumber l' (MC (u_header u)) (Number (u_header u) - 1) = None.
Proof.
  intros Hz Nsc Nb Sv Ex V Ec Gap. unfold ExistUnit in Ex. pose proof (proj1 (orb_false_iff _ _) Ex) as [Ng New].
  apply bool_decide_eq_false, eq_None_not_Some in New.
  assert (writeRightUnit (mr_StateDB pro) u (mr_Receipts pro) (mr_Logs pro) l =
    Ok (Ok tt, post (SyncBeta (Hash_ u)) (post (ChainEvent (Hash_ u)) (stored_with u (mr_Receipts pro) stored l)))) as Wr.
  { apply writeRightUnit_stores; [done|done|]. split; [unfold GetUnitNumber; by rewrite New|]. by exists stored. }
  eexists. split; [unfold InsertUnit, ExistUnit; rewrite Sv, Ex, V; exact Wr|].
  destruct (stored_with_tables u (mr_Receipts pro) stored l) as (E1 & E2 & E3). set (l1 := stored_with _ _ _ _) in *. split.
  - unfold GetChainTailHead, GetChainTailHash, GetHeaderByHash. change (tails (post _ _)) with (tails l1). rewrite E3, lookup_insert_eq.
    change (default 0 (Some (Hash_ u))) with (Hash_ u). cbv zeta. rewrite (proj2 (Z.eqb_neq (Hash_ u) 0) (Hz _)), Ng.
    change (headers (post _ _)) with (headers l1). by rewrite E1, lookup_insert_eq.
  - unfold GetHeaderByNumber. assert (GetStableHash (post (SyncBeta (Hash_ u)) (post (ChainEvent (Hash_ u)) l1)) (MC (u_header u)) (Number (u_header u) - 1) = 0) as ->; [|done].
    unfold GetStableHash in *. change (stable (post _ _)) with (stable l1). rewrite E2, lookup_insert_ne; [done|]. intros [= _ N]. lia.
Qed.

(** ** A unit that refers to itself *)

Lemma WalkChildren_written u l q :
  WalkChildren (WriteChildrens u l) q = WalkChildren l q ++ (if bool_decide (q ∈ references u) && negb (q =? 0) then [Hash_ u] else []).
Proof.
  unfold WriteChildrens. assert (NoDup (references u)) as N by apply NoDup_remove_dups. revert N. generalize (references u). intros ps.
  revert l. induction ps as [|p ps IH]; intros l N; cbn [foldl].
  { rewrite bool_decide_eq_false_2 by apply not_elem_of_nil. by rewrite app_nil_r. }
  apply list.NoDup_cons in N as [Np N]. rewrite IH by done. rewrite WalkChildren_add, <- app_assoc. f_equal.
  destruct (decide (p = q)) as [->|Nq].
  - rewrite (bool_decide_eq_true_2 (q = q)), (bool_decide_eq_false_2 (q ∈ ps)), (bool_decide_eq_true_2 (q ∈ q :: ps)) by (done || by left).
    cbn [andb]. by rewrite app_nil_r.
  - rewrite (bool_decide_eq_false_2 (p = q)) by done. cbn [andb app].
    rewrite (bool_decide_ext (q ∈ p :: ps) (q ∈ ps)); [done|]. rewrite elem_of_cons. naive_solver.
Qed.

(** One child that is the unit itself: no depth is enough. *)
Lemma self_child_endless l h hd fuel :
  GetHeaderByHash l h = Some hd -> Number hd <> 0 -> WalkChildren l h = [h] -> clearUnitWithTxs fuel true h l = Err OutOfFuel.
Proof.
  intros E N W. induction fuel as [|fuel IH]; [done|]. cbn [clearUnitWithTxs]. rewrite E, (proj2 (Z.eqb_neq _ _) N), W. cbn [each].
  by rewrite IH.
Qed.

(** A step whose source has no height counts as one without a source, and the
    hash in it is not looked at: it can name the unit that it is in, whose hash
    does not depend on its steps.  Once such a unit is accepted (as the first that
    names it), removing it never ends, whatever the depth the process can bear. *)
Theorem self_source_never_cleared l now u x l' fuel :
  (forall hd, Header_Hash hd <> 0) -> MC (u_header u) <> SCAccount -> Proposer (u_header u) <> Witness.PublicPrivateKeyAddr ->
  Number (u_header u) <> 0 -> WalkChildren l (Hash_ u) = [] ->
  x ∈ Transactions u -> Process.unit_Hash (Process.PreStep x) = Hash_ u ->
  InsertUnit now u l = Ok (Ok tt, l') ->
  clearUnitWithTxs fuel true (Hash_ u) l' = Err OutOfFuel.
Proof.
  intros Hz Nsc Nb N0 Wl I Ix H. destruct (InsertUnit_approved l now u l' H) as (Sv & Ex & rs & statedb & logs & _ & Wr).
  apply writeRightUnit_stores in Wr as (_ & stored & _ & ->); [|done..]. set (l1 := stored_with u rs stored l) in *.
  destruct (stored_with_tables u rs stored l) as (E1 & _). fold l1 in E1. apply orb_false_iff in Ex as [Ng _].
  apply (self_child_endless _ _ (u_header u)); [|done|].
  - unfold GetHeaderByHash. rewrite Ng. change (headers (post _ _)) with (headers l1). by rewrite E1, lookup_insert_eq.
  - change (WalkChildren l1 (Hash_ u) = [Hash_ u]). subst l1. rewrite stored_with_children, WalkChildren_written.
    change (WalkChildren (set_states _ l)) with (WalkChildren l). rewrite Wl, (proj2 (Z.eqb_neq (Hash_ u) 0) (Hz _)), bool_decide_eq_true_2; [done|].
    apply elem_of_remove_dups. do 2 right. apply list_elem_of_filter. split; [apply Hz|]. apply list_elem_of_fmap. by exists x.
Qed.

End Accept.

End Accept.
