(* ===== verification/TxPool.v ===== *)
(** The pool of transactions that wait for a unit ([src/core/tx_pool2.go], the
    list of what a witness has to do, [txpool/todo.go], and the store of local
    transactions, [tx_disk.go]), and which step of a transaction is the next one
    ([src/core/api_unit.go]).

    The pool's workers are steps: a transaction is taken in, dropped, or waits in
    the queue of a worker. *)
From stdpp Require Import gmap list.
From S2P Require Import Prelude Bech32 Address EvmWord EvmAnalysis EvmState StateDb Ovm Bloom TxTransition TxProcess SortSlice JobQueue TxMining ScStore Signing ScGroup ScHeart ScWitness ScDuty ScSettle ScReport DagStore UnitValid.

Import Db Transition Address Store Signing Report Dag.

Module Pool.

Inductive error :=
| ErrExistsTxInTxPool | ErrTxChecking | ErrTxCompleted | ErrTxExpired | ErrDisableSender | ErrUnderpriced | ErrFreePending
| ErrFunds | ErrIntrinsicGas | ErrAccountMissingWitness | ErrInvalidTx | ErrInvalidScTxSender | ErrNotFound | ErrMissingTxStatusInfo
| ErrUnitState | ErrSender (e : Transition.error) | ErrBase (e : Valid.error) | ErrSc (e : Group.error) | ErrPanic.

Definition get {A} (e : error) (o : option A) : result error A := match o with Some a => Ok a | None => Err e end.
Open Scope result_scope.

(** ** The next step of a transaction *)

Record TxExecMsg := mkMsg { msg_MC : Address; msg_Action : TxAction; msg_PreStep : Process.UnitID }.
Definition noUnit : Process.UnitID := Process.mkUnitID zeroAddress 0 0.

(** What the pool reads of accounts' states, and package [abi] of the output of
    the system contract; 90 per cent of the gas limit, in floating point. *)
Class PoolInputs (DB : Type) := {
  GetBalance : Address -> DB -> Z;
  CheckTxActionInChain : DB -> Address -> Hash -> TxAction -> bool;
  GetContractOutput : bytes -> option Address;
  nine_tenths : Z -> Z
}.

#[global] Instance TxAction_countable : Countable TxAction.
Proof.
  by refine (inj_countable' TxAction_to_Z (fun z => match z with
    | 0 => ActionTransferPayment | 1 => ActionTransferReceipt | 2 => ActionContractFreeze | 3 => ActionContractDeal
    | 4 => ActionPowTxContractDeal | 5 => ActionSCIdleContractDeal | 6 => ActionContractRefund | _ => ActionContractReceipt
    end) _); intros [].
Defined.

(** The limits of the node's configuration. *)
Record Config := mkConfig {
  NoDiskTx : bool; DisableTODO : bool; DiskTxTimeout : Z; PriceLimit : Z; PendingTxLimit : Z;
  minGasPrice : Z; powDiff : Z; gasLimit : Z
}.

(** What a witness has to do, as it is written to the database. *)
Record ExecMsg := mkExecMsg { em_Chain : Address; em_TxHash : Hash; em_Action : TxAction; IsNew : bool; expiredTime : Z }.

(** [jobs] waits for the workers that call [pushTx]; [addedTxQueue] for who has
    subscribed to new transactions, the local ones marked. *)
Record Pool := mkPool {
  all : gmap Hash Transaction;
  pendingCount : Z;
  checking : gset Hash;
  zeroFeePending : gset bytes;
  locals : list Address;
  jobs : list Transaction;
  disk : gmap Hash Transaction;
  todo : list ExecMsg;
  addedTxQueue : list (bool * Transaction)
}.
Definition NewTxPool : Pool := mkPool ∅ 0 ∅ ∅ [] [] ∅ [] [].
Definition set_all f p := mkPool (f (all p)) (pendingCount p) (checking p) (zeroFeePending p) (locals p) (jobs p) (disk p) (todo p) (addedTxQueue p).
Definition addPendingCount n p := mkPool (all p) (pendingCount p + n) (checking p) (zeroFeePending p) (locals p) (jobs p) (disk p) (todo p) (addedTxQueue p).
Definition set_checking f p := mkPool (all p) (pendingCount p) (f (checking p)) (zeroFeePending p) (locals p) (jobs p) (disk p) (todo p) (addedTxQueue p).
Definition set_zeroFeePending f p := mkPool (all p) (pendingCount p) (checking p) (f (zeroFeePending p)) (locals p) (jobs p) (disk p) (todo p) (addedTxQueue p).
Definition set_locals f p := mkPool (all p) (pendingCount p) (checking p) (zeroFeePending p) (f (locals p)) (jobs p) (disk p) (todo p) (addedTxQueue p).
Definition set_jobs f p := mkPool (all p) (pendingCount p) (checking p) (zeroFeePending p) (locals p) (f (jobs p)) (disk p) (todo p) (addedTxQueue p).
Definition set_disk f p := mkPool (all p) (pendingCount p) (checking p) (zeroFeePending p) (locals p) (jobs p) (f (disk p)) (todo p) (addedTxQueue p).
Definition set_todo f p := mkPool (all p) (pendingCount p) (checking p) (zeroFeePending p) (locals p) (jobs p) (disk p) (f (todo p)) (addedTxQueue p).
Definition set_addedTxQueue f p := mkPool (all p) (pendingCount p) (checking p) (zeroFeePending p) (locals p) (jobs p) (disk p) (todo p) (f (addedTxQueue p)).

Section Pool.
Context {DB : Type} {ST : Storage DB} {C : ScCodec} {P : Params} {TC : TxCodec} {K : State.Crypto} {NM : Witness.Names}.
Context {CE : ChainEnv} {PI : PoolInputs DB} (conf : Config).

Implicit Types (l : Ledger DB) (p : Pool) (t : Transaction) (h : Hash) (chain : Address) (now : Z).

Definition GetLastTransactionStatus l h : option TxStatusInfo :=
  match rev (default [] (statuses l !! h)) with [] => None | info :: _ => Some info end.
Definition GetUnitReceiptAt l (uhash : Hash) (number index : Z) : option Process.Receipt :=
  match receipts l !! (uhash, number) with Some rs => rs !! Z.to_nat (index mod 2 ^ 16) | None => None end.

Definition tx_from t : result error Address := match Transition.Sender t with Ok a => Ok a | Err e => Err (ErrSender e) end.

Definition GetTxFirstAction l t : result error (Address * TxAction) :=
  let? sender := tx_from t in
  if IsContract (tx_Recipient t) then
    if Ovm.IsCallCreateContractTx (tx_Recipient t) (tx_Payload t) then Ok (sender, ActionContractFreeze)
    else if bool_decide (tx_Recipient t = SCAccount) then
      if Mining.IsSCIdleContract (tx_Payload t) then
        let? db := get ErrUnitState (GetChainTailState l SCAccount) in
        let '(s, isW) := Witness.GetWitnessStatus sender db in
        if negb isW then
          if Witness.IsActiveCouncil sender db then Ok (SCAccount, ActionSCIdleContractDeal) else Err ErrInvalidScTxSender
        else if s =? Witness.WitnessNormal then Ok (SCAccount, ActionSCIdleContractDeal) else Err ErrInvalidScTxSender
      else if tx_Seed t >? 0 then Ok (SCAccount, ActionPowTxContractDeal)
      else Ok (sender, ActionContractFreeze)
    else Ok (sender, ActionContractFreeze)
  else Ok (sender, ActionTransferPayment).

(** Money that did not stay on the chain of the unit is received elsewhere. *)
Definition flows_out (unitMC : Address) (r : Process.Receipt) : list (Address * TxAction) :=
  map (fun f => (fst f, ActionContractReceipt)) (filter (fun f => fst f <> unitMC) (Process.Coinflows r)).
(** An output that cannot be read is a panic. *)
Definition GetTxNextActions (unitMC : Address) (a : TxAction) (r : Process.Receipt) t : result error (list (Address * TxAction)) :=
  match a with
  | ActionTransferPayment =>
      if Process.Failed_ r || bool_decide (tx_Recipient t = tx_Sender t) then Ok [] else Ok [(tx_Recipient t, ActionTransferReceipt)]
  | ActionTransferReceipt | ActionContractReceipt | ActionContractRefund | ActionPowTxContractDeal => Ok []
  | ActionContractFreeze =>
      if Process.Failed_ r then Ok []
      else if bool_decide (tx_Recipient t = SCAccount) && Ovm.IsCallCreateContractTx (tx_Recipient t) (tx_Payload t)
      then Ok [(SCAccount, ActionContractDeal)] else Ok [(tx_Recipient t, ActionContractDeal)]
  | ActionSCIdleContractDeal => Ok (flows_out unitMC r)
  | ActionContractDeal =>
      if bool_decide (unitMC = SCAccount) && Ovm.IsCallCreateContractTx (tx_Recipient t) (tx_Payload t) && negb (Process.Failed_ r) then
        let? contract := get ErrPanic (GetContractOutput (Process.Output r)) in Ok [(contract, ActionContractDeal)]
      else Ok ((if tx_GasLimit t >? 0 then [(tx_Sender t, ActionContractRefund)] else []) ++ flows_out unitMC r)
  end.

Definition GetTxReceiptAtUnit l (uhash h : Hash) : result error Process.Receipt :=
  match default [] (statuses l !! h) with
  | [] => Err ErrMissingTxStatusInfo
  | infos =>
      let? info := get ErrNotFound (List.find (fun i => UnitHash i =? uhash) infos) in
      if TxExecIndex info =? 0 then Err ErrNotFound
      else
        let number := match GetUnitNumber l uhash with Some (_, n) => n | None => MaxUint64 end in
        get ErrNotFound (GetUnitReceiptAt l uhash number (u64 (TxExecIndex info - 1)))
  end.

(** The refund and the receipts that the state of their chain does not show. *)
Fixpoint open_receipts l h (pre : Process.UnitID) (flows : list (Address * TxAction)) : result error (list TxExecMsg) :=
  match flows with
  | [] => Ok []
  | (to, a) :: flows =>
      let? db := get ErrUnitState (GetChainTailState l to) in
      let? rest := open_receipts l h pre flows in
      Ok (if CheckTxActionInChain db to h a then mkMsg to a pre :: rest else rest)
  end.
Definition after_deal l (sender : Address) h : result error (list TxExecMsg) :=
  match List.find (fun i => bool_decide (ti_Action i = ActionContractDeal)) (default [] (statuses l !! h)) with
  | None => Ok []
  | Some info =>
      let '(unitMC, number) := default (zeroAddress, MaxUint64) (GetUnitNumber l (UnitHash info)) in
      let pre := Process.mkUnitID unitMC number (UnitHash info) in
      let? db := get ErrUnitState (GetChainTailState l sender) in
      let? r := get ErrNotFound (GetUnitReceiptAt l (UnitHash info) number (u64 (TxExecIndex info - 1))) in
      let? rest := open_receipts l h pre (flows_out unitMC r) in
      Ok (if CheckTxActionInChain db sender h ActionContractRefund then mkMsg sender ActionContractRefund pre :: rest else rest)
  end.

Definition GetTxNextAction l now h t : result error (list TxExecMsg) :=
  if h =? 0 then Err ErrInvalidTx
  else if negb (tx_Hash t =? h) then Err ErrInvalidTx
  else
    let? sender := tx_from t in
    match GetLastTransactionStatus l h with
    | None =>
        if Valid.Expired t now then Err ErrTxExpired
        else let? first := GetTxFirstAction l t in Ok [mkMsg (fst first) (snd first) noUnit]
    | Some info =>
        match ti_Action info with
        | ActionTransferReceipt | ActionPowTxContractDeal => Ok []
        | ActionContractRefund | ActionContractReceipt => after_deal l sender h
        | a =>
            let? place := get ErrNotFound (GetUnitNumber l (UnitHash info)) in
            let pre := Process.mkUnitID (fst place) (snd place) (UnitHash info) in
            let? _ := get ErrNotFound (GetUnit l (UnitHash info)) in
            let? r := GetTxReceiptAtUnit l (UnitHash info) h in
            let? nexts := GetTxNextActions (fst place) a r t in
            Ok (map (fun n => mkMsg (fst n) (snd n) pre) nexts)
        end
    end.

(** ** What a witness has to do *)

Definition ignoreAction (a : TxAction) : bool :=
  match a with
  | ActionTransferPayment | ActionPowTxContractDeal | ActionContractFreeze | ActionSCIdleContractDeal => true
  | _ => false
  end.
(** [ExpirationTime] in seconds; without a time limit it is the year 1. *)
Definition expiration t : Z :=
  u64 (if tx_Timeout t >? 0 then (i64 (tx_Time t) + i64 (Valid.Second * i64 (tx_Timeout t))) / Valid.Second else -62135596800).
Definition Push chain h t (a : TxAction) p : Pool :=
  if DisableTODO conf || (tx_Seed t >? 0) || ignoreAction a then p
  else set_todo (fun ms => ms ++ [mkExecMsg chain h a true (expiration t)]) p.
Definition Del chain h (a : TxAction) p : Pool :=
  if DisableTODO conf || ignoreAction a then p else set_todo (fun ms => ms ++ [mkExecMsg chain h a false 0]) p.

(** The database of what there is to do: the key is the chain, the hash and the
    action of a message, the value the second its transaction expires. *)
#[local] Notation Todos := (gmap (Address * Hash * TxAction) Z).
Definition encodeKey (m : ExecMsg) : Address * Hash * TxAction := (em_Chain m, em_TxHash m, em_Action m).
Definition write (db : Todos) (m : ExecMsg) : Todos :=
  if IsNew m then <[encodeKey m := expiredTime m]> db else delete (encodeKey m) db.
Definition lookup_todo (ms : list ExecMsg) (db : Todos) : Todos := foldl write db ms.
Definition Range (db : Todos) : list ExecMsg :=
  if DisableTODO conf then []
  else map (fun kv => let '((chain, h), a) := fst kv in mkExecMsg chain h a false (snd kv)) (map_to_list db).
Definition deleteOld now (db : Todos) : list ExecMsg :=
  let minTime := u64 ((now - 7 * 24 * 3600 * Valid.Second) / Valid.Second) in
  filter (fun m => expiredTime m <> 0 /\ expiredTime m < minTime /\
    (em_Action m = ActionTransferPayment \/ em_Action m = ActionContractFreeze \/ em_Action m = ActionPowTxContractDeal)) (Range db).

(** ** The pool *)

Definition Cost t : Z := tx_Amount t + tx_Price t * tx_GasLimit t.
Definition Data4 t : bytes := take 4 (tx_Payload t ++ replicate 4 0).
(** One free transaction for an account and a function. *)
Definition free_key t : bytes := str (Ovm.Bytes2Hex (Data4 t)) ++ String_ (tx_Sender t).
Definition AddPendingFreeTx t p : bool * Pool :=
  if bool_decide (free_key t ∈ zeroFeePending p) then (false, p)
  else (true, set_zeroFeePending (union {[free_key t]}) p).
Definition DonePendingFreeTx t p : Pool := set_zeroFeePending (fun s => s ∖ {[free_key t]}) p.

Definition isFull p : bool := (PendingTxLimit conf >? 0) && (pendingCount p >=? PendingTxLimit conf).
Definition setChecking h p : bool * Pool :=
  if bool_decide (h ∈ checking p) then (false, p) else (true, set_checking (set_Add h) p).
Definition contains p (a : Address) : bool := bool_decide (a ∈ locals p).

Definition checkAccountWitness l t : result error unit :=
  if negb (bool_decide (tx_Recipient t = SCAccount)) && negb (bool_decide (tx_Recipient t = tx_Sender t)) then
    let? db := get ErrUnitState (GetChainTailState l SCAccount) in
    match Duty.GetGroupIndexFromUser (tx_Recipient t) db with
    | Err Group.ErrChainMissingWitness => Err ErrAccountMissingWitness
    | Err e => Err (ErrSc e)
    | Ok _ => Ok tt
    end
  else Ok tt.

Definition gas_limit t : Z := if bool_decide (tx_Recipient t = SCAccount) then nine_tenths (gasLimit conf) else gasLimit conf.
Definition base_check (sender : Address) t now : result error bool :=
  match Valid.VerifyTxBaseData sender t now (Ok (minGasPrice conf)) (Ok (powDiff conf)) (gas_limit t) with
  | Ok isFree => Ok isFree
  | Err e => Err (ErrBase e)
  end.

(** The chains are asked for the next steps, which are noted for the witnesses. *)
Definition check_next l now t p : result error unit * Pool :=
  match checkAccountWitness l t with
  | Err e => (Err e, p)
  | Ok _ =>
      match GetTxNextAction l now (tx_Hash t) t with
      | Err e => (Err e, p)
      | Ok [] => (Err ErrTxCompleted, p)
      | Ok nexts => (Ok tt, foldl (fun p n => Push (msg_MC n) (tx_Hash t) t (msg_Action n) p) p nexts)
      end
  end.
Definition ValidateTx (sender : Address) (local : bool) l now t (fromBalance : Z) (mock : bool) p : result error unit * Pool :=
  if bool_decide (sender = Witness.PublicPrivateKeyAddr) then (Err ErrDisableSender, p)
  else
    match base_check sender t now with
    | Err e => (Err e, p)
    | Ok isFree =>
        let local := local || contains p (tx_Sender t) in
        if negb local && (PriceLimit conf >? tx_Price t) && negb isFree then (Err ErrUnderpriced, p)
        else
          let check p :=
            if mock then (match checkAccountWitness l t with Err e => Err e | Ok _ => Ok tt end, p) else check_next l now t p in
          if isFree then
            match AddPendingFreeTx t p with
            | (false, p) => (Err ErrFreePending, p)
            | (true, p) =>
                match check p with
                | (Err e, p) => (Err e, DonePendingFreeTx t p)
                | (Ok _, p) => (Ok tt, p)
                end
            end
          else if fromBalance <? Cost t then (Err ErrFunds, p)
          else if tx_GasLimit t <? IntrinsicGas (tx_Payload t) (Ovm.IsCallCreateContractTx (tx_Recipient t) (tx_Payload t))
          then (Err ErrIntrinsicGas, p)
          else check p
    end.

(** A transaction that is not local is kept only while it is young. *)
Definition persistsTxDisk (local : bool) (from : Address) now t p : Pool :=
  if NoDiskTx conf || negb (contains p from) then p
  else if bool_decide (is_Some (disk p !! tx_Hash t)) then p
  else if negb local && ((u64 now >? u64 (DiskTxTimeout conf + tx_Time t)) || Valid.Expired t now) then p
  else set_disk <[tx_Hash t := t]> p.

Definition pool_tx (local : bool) (from : Address) now t p : Pool :=
  let p := addPendingCount 1 (set_all <[tx_Hash t := t]> p) in
  let p := if local then set_locals (fun as_ => if bool_decide (from ∈ as_) then as_ else as_ ++ [from]) p else p in
  persistsTxDisk local from now t (set_addedTxQueue (fun q => q ++ [(local, t)]) p).

(** The mark of a check is taken off at every end, also where another worker set it. *)
Definition addTx (local : bool) now t (w : Pool * Ledger DB) : result error unit * (Pool * Ledger DB) :=
  let '(p, l) := w in
  let unmark p := set_checking (fun s => s ∖ {[tx_Hash t]}) p in
  if bool_decide (is_Some (all p !! tx_Hash t)) then (Err ErrExistsTxInTxPool, (unmark p, l))
  else
    let '(free, p) := if local then setChecking (tx_Hash t) p else (true, p) in
    if negb free then (Err ErrTxChecking, (unmark p, l))
    else
      match tx_from t with
      | Err e => (Err e, (unmark p, l))
      | Ok from =>
          match GetChainTailState l from with
          | None => (Err ErrPanic, (unmark p, l))
          | Some db =>
              match ValidateTx from local l now t (GetBalance from db) false p with
              | (Err e, p) => (Err e, (unmark p, l))
              | (Ok _, p) => (Ok tt, (unmark (pool_tx local from now t p), if local then set_txs <[tx_Hash t := t]> l else l))
              end
          end
      end.

Definition AddLocal now t w : result error unit * (Pool * Ledger DB) := addTx true now t w.
Fixpoint addTxs (local : bool) now (ts : list Transaction) w : result error unit * (Pool * Ledger DB) :=
  match ts with
  | [] => (Ok tt, w)
  | t :: ts => match addTx local now t w with (Err e, w) => (Err e, w) | (Ok _, w) => addTxs local now ts w end
  end.

(** [None]: the call waits for room.  A transaction that is dropped for want of
    room stays marked as being checked. *)
Definition addRemote (sync needWait : bool) now t (w : Pool * Ledger DB) : option (result error unit * (Pool * Ledger DB)) :=
  let '(p, l) := w in
  match setChecking (tx_Hash t) p with
  | (false, p) => Some (Ok tt, (p, l))
  | (true, p) =>
      if isFull p && negb needWait then Some (Ok tt, (p, l))
      else if isFull p then None
      else if sync then Some (addTx false now t (p, l))
      else Some (Ok tt, (set_jobs (fun js => js ++ [t]) p, l))
  end.
(** A worker takes a transaction. *)
Definition pushTx now (w : Pool * Ledger DB) : option (result error unit * (Pool * Ledger DB)) :=
  let '(p, l) := w in
  match jobs p with
  | [] => None
  | t :: js => Some (addTx false now t (set_jobs (fun _ => js) p, l))
  end.

Definition Remove h p : Pool :=
  match all p !! h with
  | None => p
  | Some t =>
      let p := set_all (delete h) (addPendingCount (-1) p) in
      if IsFreeTx t then DonePendingFreeTx t p else p
  end.

Definition ValidPendingTx l now t : result error unit :=
  match GetTxNextAction l now (tx_Hash t) t with
  | Err e => Err e
  | Ok [] => Err ErrTxCompleted
  | Ok _ => Ok tt
  end.
Definition stale l now t : bool := Valid.Expired t now || negb (is_ok (ValidPendingTx l now t)).
Definition AutoClearInvalidTx l now p : Pool :=
  foldl (fun p t => Remove (tx_Hash t) p) p (filter (fun t => stale l now t = true) (map snd (map_to_list (all p)))).

(** A unit was stored: its transactions leave the pool, their next steps are
    noted.  The receipts are looked up by index: where one is missing, the access
    panics, unless the transaction is not found either. *)
Definition note_next l chain (x : Process.TransactionExec) (r : option Process.Receipt) p : result error Pool :=
  let p := Del chain (Process.TxHash x) (Process.Action x) p in
  match (match Process.Tx x with Some t => Some t | None => GetTx l (Process.TxHash x) end) with
  | None => Ok p
  | Some t =>
      let? r := get ErrPanic r in
      let? nexts := GetTxNextActions chain (Process.Action x) r t in
      Ok (foldl (fun p n => Push (fst n) (Process.TxHash x) t (snd n) p) p nexts)
  end.
Fixpoint note_all l chain (xs : list Process.TransactionExec) (rs : list Process.Receipt) p : result error Pool :=
  match xs with
  | [] => Ok p
  | x :: xs => let? p := note_next l chain x (head rs) p in note_all l chain xs (tail rs) p
  end.
Definition processNewUnit l (u : Unit) (rs : list Process.Receipt) p : result error Pool :=
  if DisableTODO conf then Ok p else note_all l (MC (u_header u)) (Transactions u) rs p.
Definition received_unit l (u : Unit) (rs : list Process.Receipt) p : result error Pool :=
  processNewUnit l u rs (foldl (fun p x => Remove (Process.TxHash x) p) p (Transactions u)).

(** ** The pool keeps its accounts *)

(** The count, the marks of free transactions and what is in the pool agree; no
    account has two free transactions of one function in it; what is in it was
    signed by its sender and passed the checks. *)
Record accounted p : Prop := {
  pool_count : pendingCount p = Z.of_nat (size (all p));
  pool_hash h t : all p !! h = Some t -> tx_Hash t = h;
  pool_free h t : all p !! h = Some t -> IsFreeTx t = true -> free_key t ∈ zeroFeePending p;
  pool_mark k : k ∈ zeroFeePending p -> exists h t, all p !! h = Some t /\ IsFreeTx t = true /\ free_key t = k;
  pool_one h1 h2 t1 t2 : all p !! h1 = Some t1 -> all p !! h2 = Some t2 -> IsFreeTx t1 = true -> IsFreeTx t2 = true ->
    free_key t1 = free_key t2 -> h1 = h2;
  pool_valid h t : all p !! h = Some t -> exists from time, Transition.Sender t = Ok from /\
    from <> Witness.PublicPrivateKeyAddr /\ base_check from t time = Ok (IsFreeTx t)
}.

Definition view p := (all p, pendingCount p, zeroFeePending p).
Lemma view_accounted p p' : view p = view p' -> accounted p -> accounted p'.
Proof.
  unfold view. intros [= Ea Ec Ez] [H1 H2 H3 H4 H5 H6]. split; rewrite <- ?Ea, <- ?Ec, <- ?Ez; auto.
Qed.

Lemma Push_view chain h t a p : view (Push chain h t a p) = view p.
Proof. unfold Push. by destruct (_ || _). Qed.
Lemma Push_all {X} (f : X -> Address * TxAction) h t xs p :
  view (foldl (fun p n => Push (fst (f n)) h t (snd (f n)) p) p xs) = view p.
Proof. revert p. induction xs as [|x xs IH]; intros p; [done|]. cbn [foldl]. by rewrite IH, Push_view. Qed.

Lemma persistsTxDisk_view local from now t p : view (persistsTxDisk local from now t p) = view p.
Proof. unfold persistsTxDisk. destruct (_ || _); [done|]. case_bool_decide; [done|]. by destruct (_ && _). Qed.
Lemma pool_tx_view local from now t p :
  view (pool_tx local from now t p) = (<[tx_Hash t := t]> (all p), pendingCount p + 1, zeroFeePending p).
Proof. unfold pool_tx. rewrite persistsTxDisk_view. by destruct local. Qed.
Lemma setChecking_view h p : view (snd (setChecking h p)) = view p.
Proof. unfold setChecking. by case_bool_decide. Qed.

Lemma base_check_free sender t now b : base_check sender t now = Ok b -> b = IsFreeTx t.
Proof.
  unfold base_check, Valid.VerifyTxBaseData. intros H.
  repeat match type of H with
    | context [match (if ?c then _ else _) with _ => _ end] => destruct c; [discriminate H|]
    end.
  destruct (result_bind _ _) as [x|] eqn:E; [|discriminate H]. injection H as <-.
  match type of E with result_bind ?r _ = _ => destruct r; [cbn [result_bind] in E|discriminate E] end.
  repeat match type of E with
    | (if ?c then _ else _) = _ => destruct c; try discriminate E
    | result_bind _ _ = _ => cbn [result_bind] in E
    end; congruence.
Qed.

(** What a check leaves behind. *)
Lemma check_next_view l now t p : view (snd (check_next l now t p)) = view p.
Proof.
  unfold check_next. destruct (checkAccountWitness l t); [|done]. destruct (GetTxNextAction _ _ _ _) as [[|n ns]|]; [done| |done].
  cbn [snd]. apply (Push_all (fun n => (msg_MC n, msg_Action n))).
Qed.

Lemma ValidateTx_ok sender local l now t balance p r p' :
  ValidateTx sender local l now t balance false p = (r, p') ->
  match r with
  | Err _ => view p' = view p
  | Ok _ => sender <> Witness.PublicPrivateKeyAddr /\ base_check sender t now = Ok (IsFreeTx t) /\
      (if IsFreeTx t then free_key t ∉ zeroFeePending p /\ view p' = (all p, pendingCount p, {[free_key t]} ∪ zeroFeePending p)
       else view p' = view p)
  end.
Proof.
  unfold ValidateTx. case_bool_decide as Ps; [by intros [= <- <-]|].
  destruct (base_check sender t now) as [b|] eqn:Eb; [|by intros [= <- <-]]. pose proof (base_check_free _ _ _ _ Eb) as ->.
  destruct (_ && _); [by intros [= <- <-]|]. cbv zeta. destruct (IsFreeTx t).
  - unfold AddPendingFreeTx. case_bool_decide as M; [by intros [= <- <-]|]. set (q := set_zeroFeePending _ p).
    pose proof (check_next_view l now t q) as V. destruct (check_next l now t q) as [[x|e] p1]; intros [= <- <-]; cbn [snd] in V.
    + split_and!; done.
    + unfold view in *. injection V as V1 V2 V3. cbn in *. rewrite V1, V2, V3. f_equal. set_solver.
  - destruct (_ <? _); [by intros [= <- <-]|]. destruct (_ <? _); [by intros [= <- <-]|].
    pose proof (check_next_view l now t p) as V. destruct (check_next l now t p) as [[x|e] p1]; intros [= <- <-]; cbn [snd] in V; [|done].
    split_and!; done.
Qed.

Lemma pool_tx_accounted local from now t p p' :
  accounted p -> all p !! tx_Hash t = None -> Transition.Sender t = Ok from -> from <> Witness.PublicPrivateKeyAddr ->
  (exists time, base_check from t time = Ok (IsFreeTx t)) ->
  (if IsFreeTx t then free_key t ∉ zeroFeePending p /\ view p' = (all p, pendingCount p, {[free_key t]} ∪ zeroFeePending p)
   else view p' = view p) ->
  accounted (pool_tx local from now t p').
Proof.
  intros [H1 H2 H3 H4 H5 H6] New Sd Nb [time Bc] Z. pose proof (pool_tx_view local from now t p') as V. unfold view in V at 1.
  assert (all p' = all p /\ pendingCount p' = pendingCount p) as [Ea Ec] by (destruct (IsFreeTx t); [destruct Z as [_ Z]|]; by injection Z).
  injection V as V1 V2 V3. rewrite Ea in V1. rewrite Ec in V2.
  assert (forall k, k ∈ zeroFeePending (pool_tx local from now t p') <-> k ∈ zeroFeePending p \/ IsFreeTx t = true /\ k = free_key t) as Mk.
  { intros k. rewrite V3. destruct (IsFreeTx t).
    - destruct Z as [_ Z]. unfold view in Z. injection Z as _ _ ->. set_solver.
    - unfold view in Z. injection Z as _ _ ->. split; [by left|]. intros [?|[? _]]; done. }
  assert (forall h x, all p !! h = Some x -> IsFreeTx x = true -> IsFreeTx t = true -> free_key x <> free_key t) as Fresh.
  { intros h x Ex Fx Ft Q. rewrite Ft in Z. destruct Z as [N _]. apply N. rewrite <- Q. by eapply H3. }
  split.
  - rewrite V1, V2, map_size_insert_None by done. lia.
  - intros h x. rewrite V1. intros [[<- <-]|[_ E]]%lookup_insert_Some; [done|by apply H2].
  - intros h x. rewrite V1, Mk. intros [[<- <-]|[_ E]]%lookup_insert_Some F; [by right|left; by eapply H3].
  - intros k. rewrite Mk, V1. intros [M|[F ->]].
    + destruct (H4 k M) as (h & x & E & F & Q). exists h, x. split_and!; [|done..]. rewrite lookup_insert_ne; [done|]. congruence.
    + exists (tx_Hash t), t. by rewrite lookup_insert_eq.
  - intros h1 h2 t1 t2. rewrite V1. intros [[<- <-]|[_ E1]]%lookup_insert_Some [[<- <-]|[_ E2]]%lookup_insert_Some F1 F2 Q; [done| | |].
    + symmetry in Q. by apply (Fresh h2 t2) in Q.
    + by apply (Fresh h1 t1) in Q.
    + by apply (H5 h1 h2 t1 t2).
  - intros h x. rewrite V1. intros [[<- <-]|[_ E]]%lookup_insert_Some; [by exists from, time|by eapply H6].
Qed.

Lemma addTx_accounted local now t w : accounted (fst w) -> accounted (fst (snd (addTx local now t w))).
Proof.
  destruct w as [p l]. cbn [fst]. intros A. unfold addTx. case_bool_decide as Ex; [by eapply view_accounted; [|exact A]|].
  assert (all p !! tx_Hash t = None) as New by by apply eq_None_not_Some.
  assert (view (snd (if local then setChecking (tx_Hash t) p else (true, p))) = view p) as V
    by (destruct local; [apply setChecking_view|done]).
  destruct (if local then setChecking (tx_Hash t) p else (true, p)) as [free p1]. cbn [snd] in V.
  assert (accounted p1) as A1 by (eapply view_accounted; [|exact A]; by symmetry).
  assert (all p1 !! tx_Hash t = None) as New1 by (unfold view in V; injection V as -> _ _; done).
  destruct free; cbn [negb]; [|by eapply view_accounted; [|exact A1]].
  unfold tx_from. destruct (Transition.Sender t) as [from|e] eqn:Sd; [|by eapply view_accounted; [|exact A1]].
  destruct (GetChainTailState l from) as [db|]; [|by eapply view_accounted; [|exact A1]].
  destruct (ValidateTx from local l now t (GetBalance from db) false p1) as [[x|e] p2] eqn:Va; apply ValidateTx_ok in Va.
  - destruct Va as (Nb & Bc & Z). cbn [snd fst]. eapply view_accounted; [|eapply (pool_tx_accounted local from now t p1 p2)]; try done. by exists now.
  - cbn [snd fst]. eapply view_accounted; [|exact A1]. by symmetry.
Qed.

Lemma addTx_keeps local now t w r w' : addTx local now t w = (r, w') -> accounted (fst w) -> accounted (fst w').
Proof. intros E A. pose proof (addTx_accounted local now t w A) as X. by destruct (addTx local now t w); injection E as -> ->. Qed.

Lemma Remove_accounted h p : accounted p -> accounted (Remove h p).
Proof.
  intros A. unfold Remove. destruct (all p !! h) as [t|] eqn:E; [|done]. destruct A as [H1 H2 H3 H4 H5 H6].
  set (q := if IsFreeTx t then _ else _).
  assert (all q = delete h (all p) /\ pendingCount q = pendingCount p - 1) as [Ea Ec] by (subst q; by destruct (IsFreeTx t)).
  assert (forall k, k ∈ zeroFeePending q <-> k ∈ zeroFeePending p /\ (IsFreeTx t = true -> k <> free_key t)) as Mk.
  { intros k. subst q. destruct (IsFreeTx t); cbn; [set_solver|]. split; [by intros ?|by intros [? _]]. }
  split.
  - rewrite Ea, Ec, H1, map_size_delete, E. assert (size (all p) <> 0%nat) by (intros Z%map_size_empty_inv; by rewrite Z in E). lia.
  - intros x y. rewrite Ea. intros [_ Ex]%lookup_delete_Some. by apply H2.
  - intros x y. rewrite Ea, Mk. intros [Nx Ex]%lookup_delete_Some F. split; [by eapply H3|]. intros Ft Q. by apply Nx, (H5 h x t y).
  - intros k. rewrite Mk. intros [M Nk]. destruct (H4 k M) as (x & y & Ex & F & Q). exists x, y. split_and!; [|done..].
    rewrite Ea, lookup_delete_ne; [done|]. intros ->. rewrite E in Ex. injection Ex as ->. by apply Nk.
  - intros h1 h2 t1 t2. rewrite Ea. intros [_ E1]%lookup_delete_Some [_ E2]%lookup_delete_Some. by apply H5.
  - intros x y. rewrite Ea. intros [_ Ex]%lookup_delete_Some. by eapply H6.
Qed.

Lemma foldl_accounted {X} (f : Pool -> X -> Pool) xs p : (forall p x, accounted p -> accounted (f p x)) -> accounted p -> accounted (foldl f p xs).
Proof. intros F. revert p. induction xs as [|x xs IH]; intros p A; [done|]. cbn [foldl]. by apply IH, F. Qed.

Lemma note_all_view l chain xs rs p p' : note_all l chain xs rs p = Ok p' -> view p' = view p.
Proof.
  revert rs p. induction xs as [|x xs IH]; intros rs p; cbn [note_all]; [by intros [= <-]|].
  assert (view (Del chain (Process.TxHash x) (Process.Action x) p) = view p) as D by (unfold Del; by destruct (_ || _)).
  unfold note_next. destruct (match Process.Tx x with Some t => Some t | None => GetTx l (Process.TxHash x) end) as [t|]; cbn [result_bind].
  - destruct (head rs) as [r|]; [|done]. cbn [get result_bind]. destruct (GetTxNextActions _ _ _ _) as [nexts|]; [|done]. cbn [result_bind]. intros H%IH. rewrite H. rewrite <- D.
    apply (Push_all (fun n => n)).
  - intros H%IH. by rewrite H.
Qed.

(** What happens to a pool; the chains change in between. *)
Inductive pool_step p : Pool -> Prop :=
| step_add local now t l : pool_step p (fst (snd (addTx local now t (p, l))))
| step_remote sync needWait now t l r w : addRemote sync needWait now t (p, l) = Some (r, w) -> pool_step p (fst w)
| step_push now l r w : pushTx now (p, l) = Some (r, w) -> pool_step p (fst w)
| step_remove h : pool_step p (Remove h p)
| step_clear l now : pool_step p (AutoClearInvalidTx l now p)
| step_unit l u rs p' : received_unit l u rs p = Ok p' -> pool_step p p'.

Lemma pool_step_accounted p p' : pool_step p p' -> accounted p -> accounted p'.
Proof.
  intros H A. destruct H as [local now t l|sync needWait now t l r w E|now l r w E|h|l now|l u rs p' E].
  - by apply addTx_accounted.
  - unfold addRemote in E. pose proof (setChecking_view (tx_Hash t) p) as V. destruct (setChecking (tx_Hash t) p) as [b p1]. cbn [snd] in V.
    assert (accounted p1) as A1 by (eapply view_accounted; [|exact A]; by symmetry).
    destruct b; [|by injection E as <- <-]. destruct (_ && _); [by injection E as <- <-|]. destruct (isFull p1); [done|]. destruct sync.
    + apply Some_inj in E. by eapply (addTx_keeps false now t (p1, l)).
    + injection E as <- <-. by eapply view_accounted; [|exact A1].
  - unfold pushTx in E. destruct (jobs p) as [|t js]; [done|]. apply Some_inj in E.
    eapply (addTx_keeps false now t (set_jobs (fun _ => js) p, l)); [exact E|]. by eapply view_accounted; [|exact A].
  - by apply Remove_accounted.
  - apply foldl_accounted; [|done]. intros q t. apply Remove_accounted.
  - unfold received_unit, processNewUnit in E. set (q := foldl _ p _) in E.
    assert (accounted q) as Aq by (apply foldl_accounted; [|done]; intros; by apply Remove_accounted).
    destruct (DisableTODO conf); [by injection E as <-|]. apply note_all_view in E. eapply view_accounted; [|exact Aq]. by symmetry.
Qed.

(** C9: Whatever transactions arrive, from the node itself or from others, at once
    or through a worker, and whatever is removed, is cleared or leaves with a unit,
    the pool keeps its accounts: its count is the number of its transactions, an
    account has at most one free transaction of a function in it, exactly those
    are marked, and what is in it was signed by its sender and passed the checks. *)
Theorem pool_accounted p : rtc pool_step NewTxPool p -> accounted p.
Proof.
  assert (accounted NewTxPool) as A.
  { by split. }
  intros T. revert A. induction T as [|x y z H T IH]; [done|]. intros A. by apply IH, (pool_step_accounted x).
Qed.

Lemma set_Add_marks h (s : gset Hash) : h ∈ set_Add h s.
Proof. unfold set_Add. case_bool_decide; [done|]. case_match; set_solver. Qed.

(** A transaction that comes while the pool is full is not looked at again when
    there is room: its mark stays. *)
Lemma dropped_for_good now t p l w :
  isFull p = true -> addRemote true false now t (p, l) = Some (Ok tt, w) ->
  forall now' sync needWait p' l', checking p' = checking (fst w) ->
    addRemote sync needWait now' t (p', l') = Some (Ok tt, (p', l')).
Proof.
  intros F H. assert (tx_Hash t ∈ checking (fst w)) as M.
  { unfold addRemote, setChecking in H. case_bool_decide as I; [by injection H as <-|].
    change (isFull (set_checking (set_Add (tx_Hash t)) p)) with (isFull p) in H. rewrite F in H. cbn [andb negb] in H.
    injection H as <-. apply set_Add_marks. }
  intros now' sync needWait p' l' E. unfold addRemote, setChecking. rewrite E. by rewrite bool_decide_eq_true_2.
Qed.

(** A trial run of a free transaction leaves its mark: the transaction itself is
    refused afterwards. *)
Lemma trial_blocks_free_tx sender l now t balance p p1 :
  IsFreeTx t = true -> ValidateTx sender true l now t balance true p = (Ok tt, p1) ->
  forall b, fst (ValidateTx sender true l now t b false p1) = Err ErrFreePending.
Proof.
  intros F H b. unfold ValidateTx in *. case_bool_decide; [done|]. destruct (base_check sender t now) as [isFree|] eqn:Eb; [|done].
  pose proof (base_check_free _ _ _ _ Eb) as ->. rewrite F in *. cbn [orb negb andb] in *.
  unfold AddPendingFreeTx in H. case_bool_decide as M; [done|]. destruct (checkAccountWitness l t); [|done]. injection H as <-.
  unfold AddPendingFreeTx. rewrite bool_decide_eq_true_2; [done|]. cbn. set_solver.
Qed.

(** Old messages of three actions would be deleted, which are never recorded. *)
Definition recorded (ms : list ExecMsg) : Prop := forall m, m ∈ ms -> ignoreAction (em_Action m) = false.

Lemma recorded_app ms m : recorded ms -> ignoreAction (em_Action m) = false -> recorded (ms ++ [m]).
Proof. intros R I x Hx. apply elem_of_app in Hx as [Hx|Hx]; [by apply R|]. by apply list_elem_of_singleton in Hx as ->. Qed.
Lemma Push_recorded chain h t a p : recorded (todo p) -> recorded (todo (Push chain h t a p)).
Proof. intros R. unfold Push. destruct (_ || _) eqn:E; [done|]. apply orb_false_iff in E as [_ ?]. by apply recorded_app. Qed.
Lemma Del_recorded chain h a p : recorded (todo p) -> recorded (todo (Del chain h a p)).
Proof. intros R. unfold Del. destruct (_ || _) eqn:E; [done|]. apply orb_false_iff in E as [_ ?]. by apply recorded_app. Qed.

Lemma deleteOld_nothing now ms : recorded ms -> deleteOld now (lookup_todo ms ∅) = [].
Proof.
  intros R. assert (forall k, is_Some (lookup_todo ms ∅ !! k) -> ignoreAction (snd k) = false) as Rk.
  { assert (forall k, is_Some ((∅ : Todos) !! k) -> ignoreAction (snd k) = false) as R0 by (intros k [x Hx]; by rewrite lookup_empty in Hx).
    unfold lookup_todo.
    revert R0. generalize (∅ : Todos). induction ms as [|m ms IH]; intros db R0; [done|]. cbn [foldl].
    apply IH; [intros x Hx; apply R; by right|]. intros k. unfold write. destruct (IsNew m).
    - destruct (decide (encodeKey m = k)) as [<-|N]; [intros _; apply R; left|]. rewrite lookup_insert_ne by done. apply R0.
    - intros [x [_ Hx]%lookup_delete_Some]. by apply R0. }
  destruct (deleteOld now (lookup_todo ms ∅)) as [|m rest] eqn:E; [done|].
  assert (m ∈ deleteOld now (lookup_todo ms ∅)) as I by (rewrite E; left).
  unfold deleteOld, Range in I. apply list_elem_of_filter in I as [(_ & _ & A) I]. destruct (DisableTODO conf); [by inversion I|].
  apply list_elem_of_fmap in I as ([[[chain h] a] x] & -> & I). apply elem_of_map_to_list in I.
  pose proof (Rk _ (mk_is_Some _ _ I)) as G. cbn in A, G. by destruct A as [-> | [-> | ->]].
Qed.

End Pool.

End Pool.
