(* ===== verification/DagDemo.v ===== *)
(** Two units of a chain in memory: the hypotheses of the theorems on chains of
    units hold of them. *)
From stdpp Require Import gmap list countable.
From S2P Require Import Prelude Bech32 Address BftTypes BftValidators EvmWord EvmState EvmDemo StateDb Bloom TxTransition TxProcess ScStore ScSets Signing ScGroup ScHeart ScWitness ScDuty ScMembers ScProposal ScSettle ScReport ScTrial DagStore UnitValid DagChain DagSafe DagUnbroken DagAccept TxPool.

Import Address Store Signing Group Witness Duty ScDemo Trial Court Report Dag Valid DagChain DagSafe Unbroken Accept.
#[local] Existing Instance EvmDemo.demo_crypto.

Module DagDemo.

(** ** A hash that shows the time of a header *)

Fixpoint digits (v : rlp_value) : list Z :=
  match v with
  | Str b => 256 :: b
  | Lst vs => 257 :: flat_map digits vs ++ [258]
  end.
Definition mix (ds : list Z) : Z := fold_left (fun acc d => Z.land (acc * 261 + d + 1) 0xffffffffffffffffffffffffffffff) ds 1.
Definition time_shown (l : list rlp_value) : Z :=
  match l with
  | [Lst vs] => match List.last vs (Str []) with Str b => be_value b | Lst _ => 0 end
  | _ => 0
  end.
#[export] Instance clock_codec : ScCodec := {
  SafeHash256 l := 2 ^ 256 + 2 ^ 64 * mix (flat_map digits l) + time_shown l mod 2 ^ 64
}.

Lemma clock_not_empty hd : Header_Hash hd <> 0.
Proof.
  unfold Header_Hash. cbn [SafeHash256 clock_codec]. set (m := mix _). set (t := time_shown _).
  assert (0 <= m) by (subst m; unfold mix; set (ds := flat_map _ _); destruct ds as [|d ds] using rev_ind; [done|rewrite fold_left_app; apply Z.land_nonneg; by right]).
  pose proof (Z.mod_pos_bound t (2 ^ 64) ltac:(lia)). lia.
Qed.
Lemma clock_time hd1 hd2 :
  is_u64 (Timestamp hd1) -> is_u64 (Timestamp hd2) -> Header_Hash hd1 = Header_Hash hd2 -> Timestamp hd1 = Timestamp hd2.
Proof.
  intros U1 U2. unfold Header_Hash. cbn [SafeHash256 clock_codec]. intros E.
  assert (forall hd, is_u64 (Timestamp hd) -> time_shown [header_value hd] = Timestamp hd) as T.
  { intros hd [Ua Ub]. change (be_value (Word.Bytes (Timestamp hd)) = Timestamp hd). apply signature_v. lia. }
  rewrite (T hd1 U1), (T hd2 U2) in E. rewrite !(Z.mod_small (Timestamp _)) in E by done. lia.
Qed.

(** ** A node *)

(** Eight witnesses, with the keys from 1000 on, serve the chain of Alice. *)
Definition state : demo :=
  let db := WriteWitnessGroupCount 3 ScDemo.empty in
  let db := fold_left (fun db p => add_to (GetWitnessSet 1) (hash_address p) db) (seqZ 1000 8) db in
  let db := Proposal.WriteConfig Proposal.ConfigParamsUcGasLimit 1000000 db in
  put (chain_item alice) (str "group_index") (VUint 1) db.

#[export] Instance demo_tries : Tries demo := {
  IntermediateRoot _ db := (7, db);
  NewChainState _ db := Some db;
  CommitToChain _ db := Some (7, db)
}.
(** Nothing is done by a transaction. *)
Definition no_change : Processor demo := {| Process _ _ db := Ok ([], [], 0, db) |}.
#[export] Existing Instance no_change.
#[export] Instance demo_tx_codec : Transition.TxCodec := {| Transition.rlp_sign_struct _ := []; Transition.rlp_action_key _ _ _ := []; Transition.signer _ := None |}.
#[export] Instance no_pool : TxPool := {| TxPool_Get _ := None |}.
#[export] Instance no_events : SystemEvents := {
  UnpackChainArbitrationEventLog _ := None;
  UnpackChainArbitrationEndEventLog _ := None;
  UnpackChainStatusChangedEvent _ := None;
  UnpackUserWitnessChangeLog _ := None;
  proof_hash _ := 1
}.
Definition idle : Engines demo := {| CurrentProposal _ := None |}.

Definition no_bloom : bytes := replicate 256 0.
Definition step_of : Process.TransactionExec := Process.mkExec Transition.ActionTransferReceipt (Process.mkUnitID zeroAddress 0 0) 0 None.
Definition first_unit : Unit :=
  mkUnit (mkHeader (hash_address 1) 0 0 0 0 zeroAddress 0 0 7 no_bloom 0 0 0) [step_of] [] [] zeroAddress.
#[export] Instance demo_env : ChainEnv := {
  genesisUnit := first_unit;
  rlp_size _ := 100;
  DeriveSha _ := 0;
  evicted _ _ := None;
  nil_header := 3
}.

Definition now : Z := 1000 * Second.
Definition vote_by (p : Z) : WitenssVote := mkVote (msgCommit :: replicate 8 0) (sig_of p).
Definition unit_1 : Unit :=
  mkUnit (mkHeader alice 1 GenesisHash GenesisHash 0 (hash_address 1000) 0 0 7 no_bloom 1000 0 (100 * Second))
    [step_of] (map vote_by (seqZ 1000 8)) (sig_of 1000) zeroAddress.

Definition begun : Ledger demo := default empty_ledger (Commit 11 state [] [] empty_ledger).
#[local] Notation inserted := (InsertUnit (EN := idle) now unit_1 begun).

Definition accepted {A} (r : result halt (result Valid.error unit * A)) : bool :=
  match r with Ok (Ok _, _) => true | _ => false end.
Lemma accepted_ok {A} (r : result halt (result Valid.error unit * A)) : accepted r = true -> exists l, r = Ok (Ok tt, l).
Proof. destruct r as [[[[]|] l]|]; [|discriminate..]. intros _. exists l. reflexivity. Qed.

Lemma begins : Commit 11 state [] [] empty_ledger = Some begun.
Proof.
  unfold begun. assert (match Commit 11 state [] [] empty_ledger with Some _ => true | None => false end = true) as H by (vm_compute; reflexivity).
  destruct (Commit 11 state [] [] empty_ledger); [reflexivity|discriminate H].
Qed.
Lemma first_time : is_u64 (Timestamp (u_header genesisUnit)).
Proof. vm_compute. by split. Qed.
Lemma first_refers r : r ∈ references genesisUnit -> r = 0.
Proof.
  assert (references genesisUnit = [0]) as -> by (vm_compute; reflexivity). intros H%list_elem_of_singleton. exact H.
Qed.
Lemma unit_1_tidy : tidy false unit_1.
Proof.
  split.
  - cbn. lia.
  - vm_compute. by split.
  - intros H. vm_compute in H. discriminate H.
  - discriminate.
Qed.

Lemma arrives : exists l, inserted = Ok (Ok tt, l).
Proof. apply accepted_ok. vm_compute. reflexivity. Qed.
Lemma idle_proposes l u : VerifyWithProposal (EN := idle) l u = Ok None.
Proof. reflexivity. Qed.
Lemma arrives_step l : inserted = Ok (Ok tt, l) -> rtc (step false) begun l.
Proof.
  intros E. apply rtc_once. apply (step_receive false begun no_pool idle now unit_1 (Ok tt) l unit_1_tidy); [apply idle_proposes|exact E].
Qed.

(** ** Its chains *)

Lemma chains_witness : exists l tl, inserted = Ok (Ok tt, l) /\ GetChainTailHead l alice = Some tl.
Proof.
  destruct arrives as [l E]. exists l.
  destruct (chains_unbroken clock_not_empty 11 state [] [] begun l alice begins (arrives_step l E)) as (tl & Et & _).
  exists tl. split; [exact E|exact Et].
Defined.

(** The unit that is removed is the first one after the genesis unit. *)
Lemma begun_first : Number (u_header genesisUnit) = 0 /\ MC (u_header genesisUnit) = SCAccount.
Proof. vm_compute. split; reflexivity. Qed.
Lemma removal_of_unit_witness : exists l l', inserted = Ok (Ok tt, l) /\
  (clearUnit true (Hash_ unit_1) l = Err Crit /\ fee_stuck l (Hash_ unit_1) \/ clearUnit true (Hash_ unit_1) l = Ok l').
Proof.
  destruct arrives as [l E]. exists l.
  assert (rtc (step true) begun l) as T.
  { apply rtc_once. apply (step_receive true begun no_pool idle now unit_1 (Ok tt) l); [|apply idle_proposes|exact E].
    destruct unit_1_tidy as [T1 T2 T3 _]. split; [exact T1|exact T2|exact T3|]. intros x _ I%list_elem_of_singleton. subst x. intros _. reflexivity. }
  destruct (reachable_grounded clock_not_empty 11 state [] [] begun l clock_time (conj first_time first_refers) begins T) as [W G].
  destruct (clearUnit_spec clock_not_empty (proj1 begun_first) l (Hash_ unit_1) W G) as [H|(l' & H & _)].
  - exists l. split; [exact E|left; exact H].
  - exists l'. split; [exact E|right; exact H].
Defined.

(** ** Its units *)

Lemma verified : verifyHeader begun now unit_1 true = Ok tt.
Proof. vm_compute. reflexivity. Qed.
Lemma verify_witness : exists p sys, header_rules begun now unit_1 p sys /\ witnessed begun unit_1.
Proof.
  destruct (verifyHeader_accepts begun now unit_1 verified) as (p & sys & R & W). exists p, sys. split; [exact R|exact W].
Defined.

Lemma storing_witness : exists l, inserted = Ok (Ok tt, l) /\
  GetUnit l (Hash_ unit_1) = Some (mkUnit (u_header unit_1) (Transactions unit_1) (WitnessVotes unit_1) (u_Sign unit_1) zeroAddress).
Proof.
  destruct arrives as [l E]. exists l. split; [exact E|].
  apply (InsertUnit_stores (EN := idle) begun now unit_1 l clock_not_empty).
  - intros H. apply (f_equal Members.member) in H. vm_compute in H. discriminate H.
  - intros H. apply (f_equal Members.member) in H. vm_compute in H. discriminate H.
  - discriminate.
  - vm_compute. reflexivity.
  - intros x t I%list_elem_of_singleton. subst x. discriminate.
  - intros N. destruct N. apply idle_proposes.
  - exact E.
Defined.

(** A unit whose step names the unit itself, with a height of zero. *)
Definition self_named : Unit :=
  mkUnit (u_header unit_1) [Process.mkExec Transition.ActionTransferReceipt (Process.mkUnitID zeroAddress 0 (Hash_ unit_1)) 0 None]
    (WitnessVotes unit_1) (u_Sign unit_1) zeroAddress.
Lemma self_named_arrives : exists l, InsertUnit (EN := idle) now self_named begun = Ok (Ok tt, l).
Proof. apply accepted_ok. vm_compute. reflexivity. Qed.
Lemma self_source_witness : exists l, InsertUnit (EN := idle) now self_named begun = Ok (Ok tt, l) /\
  clearUnitWithTxs 100 true (Hash_ self_named) l = Err OutOfFuel.
Proof.
  destruct self_named_arrives as [l E]. exists l. split; [exact E|].
  apply (self_source_never_cleared (EN := idle) begun now self_named
    (Process.mkExec Transition.ActionTransferReceipt (Process.mkUnitID zeroAddress 0 (Hash_ unit_1)) 0 None) l 100 clock_not_empty).
  - intros H. apply (f_equal Members.member) in H. vm_compute in H. discriminate H.
  - intros H. apply (f_equal Members.member) in H. vm_compute in H. discriminate H.
  - discriminate.
  - vm_compute. reflexivity.
  - apply list_elem_of_singleton. reflexivity.
  - vm_compute. reflexivity.
  - exact E.
Defined.

(** The engine has proposed the unit; others come in its place. *)
Definition busy : Engines demo := {| CurrentProposal chain := if bool_decide (chain = alice) then Some (mkMining unit_1 [] [] state) else None |}.
Definition other_steps : list Process.TransactionExec := [step_of; step_of; step_of].

Lemma proposal_accepted : exists l, InsertUnit (EN := busy) now unit_1 begun = Ok (Ok tt, l).
Proof. apply accepted_ok. vm_compute. reflexivity. Qed.
Lemma proposal_witness : exists l, InsertUnit (EN := busy) now (with_transactions other_steps unit_1) begun = Ok (Ok tt, l).
Proof.
  destruct proposal_accepted as [l1 E1].
  destruct (proposal_body_unchecked (EN := busy) begun now unit_1 other_steps l1) as (l & E & _).
  - intros H. apply (f_equal Members.member) in H. vm_compute in H. discriminate H.
  - intros H. apply (f_equal Members.member) in H. vm_compute in H. discriminate H.
  - assert (match VerifyWithProposal (EN := busy) begun unit_1 with Ok (Some _) => true | _ => false end = true) as H by (vm_compute; reflexivity).
    intros N. rewrite N in H. discriminate H.
  - exact E1.
  - exists l. exact E.
Defined.

(** A proposal of number 2 whose parent is gone. *)
Definition stale : Unit :=
  mkUnit (mkHeader alice 2 5 GenesisHash 0 (hash_address 1000) 0 0 7 no_bloom 1000 0 (200 * Second))
    [step_of] (map vote_by (seqZ 1000 8)) (sig_of 1000) zeroAddress.
Definition late : Engines demo := {| CurrentProposal chain := if bool_decide (chain = alice) then Some (mkMining stale [] [] state) else None |}.
Lemma stale_witness : exists l, InsertUnit (EN := late) now stale begun = Ok (Ok tt, l) /\
  GetChainTailHead l alice = Some (u_header stale) /\ GetHeaderByNumber l alice 1 = None.
Proof.
  apply (stale_proposal_accepted (EN := late) begun now stale (mkMining stale [] [] state) state clock_not_empty).
  - intros H. apply (f_equal Members.member) in H. vm_compute in H. discriminate H.
  - intros H. apply (f_equal Members.member) in H. vm_compute in H. discriminate H.
  - vm_compute. reflexivity.
  - vm_compute. reflexivity.
  - vm_compute. reflexivity.
  - vm_compute. reflexivity.
  - vm_compute. reflexivity.
Defined.

(** The same unit without its signature. *)
Definition unsigned : Unit := mkUnit (u_header unit_1) (Transactions unit_1) (WitnessVotes unit_1) [] zeroAddress.
Lemma unsigned_not_bad : BadUnitCheck begun unsigned = (Ok tt, begun).
Proof.
  assert (is_ok (fst (BadUnitCheck begun unsigned)) = true) as H by (vm_compute; reflexivity).
  destruct (BadUnitCheck begun unsigned) as [[[]|e] l] eqn:E; [|discriminate H]. apply BadUnitCheck_same in E. rewrite E. reflexivity.
Qed.
Lemma halting_witness : InsertUnit (EN := idle) now unsigned begun = Err Crit.
Proof.
  apply (short_signature_halts begun now unsigned (u_header first_unit)); try exact unsigned_not_bad; try (vm_compute; reflexivity).
  - cbn. lia.
  - left. reflexivity.
  - vm_compute. split; [reflexivity|discriminate].
  - vm_compute. discriminate.
Defined.

(** ** Its pool *)

#[local] Instance signed_codec : Transition.TxCodec :=
  {| Transition.rlp_sign_struct _ := [7]; Transition.rlp_action_key _ _ _ := []; Transition.signer t := Some (Transition.tx_Sender t) |}.
#[local] Instance rich : Pool.PoolInputs demo :=
  {| Pool.GetBalance _ _ := 10 ^ 9; Pool.CheckTxActionInChain _ _ _ _ := false; Pool.GetContractOutput _ := None; Pool.nine_tenths z := z * 9 / 10 |}.
Definition limits : Pool.Config := Pool.mkConfig false false (3600 * Second) 1 30000 1 1 (10 ^ 6).
Definition to_herself : Transition.Transaction := Transition.mkTransaction now 1 (10 ^ 5) alice alice 1 [] 0 DefTxMinTimeout [].
#[local] Notation added := (Pool.AddLocal limits now to_herself (Pool.NewTxPool, begun)).

Lemma pool_witness : fst added = Ok tt /\ Pool.accounted limits (fst (snd added)) /\ Pool.pendingCount (fst (snd added)) = 1.
Proof.
  split; [vm_compute; reflexivity|]. split; [|vm_compute; reflexivity].
  apply (Pool.pool_accounted limits). apply rtc_once. apply (Pool.step_add limits Pool.NewTxPool true now to_herself begun).
Defined.

End DagDemo.
